(* ===== verification/_CoqProject ===== *)
-Q . S2P
Prelude.v
PyStr.v
Utf8.v
PyFloat.v
Json.v
JsonFacts.v
Gate.v
GateFacts.v
GateThreads.v
Lifecycle.v
LifecycleFacts.v
LifecycleProps.v
Storage.v
StorageFacts.v
PyData.v
Codec.v
CodecFacts.v
StorageProps.v
Catalog.v
Policy.v
PolicyFacts.v
PolicyProps.v
Frames.v
Adaptive.v
AdaptiveFacts.v
Retention.v
RetentionFacts.v
Retrieval.v
RetrievalFacts.v
Egress.v
EgressFacts.v
Answering.v
AnsweringFacts.v
Safety.v
SafetyFacts.v
SafetyProps.v
Deletion.v
DeletionFacts.v
DeletionProps.v
PyLib.v
Sealed.v
SealedFacts.v
SemanticIndex.v
SemanticIndexFacts.v
SemanticIndexProps.v
Activity.v
ActivityFacts.v
Summaries.v
SummariesFacts.v
Vault.v
Scope.v
ScopeFacts.v
Reconcile.v
ReconcileFacts.v
ActivityProps.v
Concurrent.v
Pipeline.v
PipelineFacts.v
PipelineThreads.v
PipelineProps.v
Encryption.v
EncryptionFacts.v
Keyring.v
KeyringFacts.v
EncryptionProps.v
Backup.v
BackupFacts.v
BackupProps.v
