(* ===== verification/Prelude.v ===== *)
(** * A verification development for Local Recall

    Local Recall ([src/src/local_recall/]) records what is on the screen,
    redacts it, stores it encrypted on the machine, and answers questions about
    it.  Its core logic decides what may be recorded, kept, deleted and sent
    out.  The development models that logic, definition by definition, and
    proves what makes it correct; PROJECT.json maps each definition to the
    lines it translates.

    ** The parts of the program, and where they are modelled

    - the capture gate ([lifecycle/gate.py], [domain/lifecycle.py]): who may
      capture or commit now.  [Gate] is the object, one definition per method;
      [GateFacts] its invariant; [GateThreads] the interleaving of worker
      threads with the owner's transitions, the state lock making each method
      body one step and the commit lock making transitions wait.
    - the lifecycle actor ([lifecycle/actor.py], [messages.py], [ports.py]),
      which owns the gate: [Lifecycle] has its handlers; [LifecycleFacts] the
      abstract machine of capture states and pauses and the refinement;
      [LifecycleProps] the safety properties read off it.
    - the policy engine and its boundary ([policy/], [domain/policy.py],
      [domain/metadata.py]): [Policy], [PolicyFacts], [PolicyProps].
    - adaptive capture ([capture/adaptive.py], with the frames and requests of
      [domain/frames.py] and [domain/capture.py]): [Frames], [Adaptive],
      [AdaptiveFacts].
    - the encrypted storage ([storage/operations.py], [sqlite_backend.py],
      [filesystem.py], [domain/crypto.py]): [Storage] (writing, reading,
      deleting, recovering, with the points where the process may die),
      [StorageFacts], [StorageProps]; its ordered queries: [Catalog].
    - retention ([retention/]): [Retention], [RetentionFacts], over the
      interface [RetentionStorage], whose canonical instance is the storage's
      catalog.
    - routing and the egress gate ([routing.py], [domain/providers.py],
      [domain/privacy.py]): [Egress], [EgressFacts].
    - the envelope codec ([storage/codec.py], [domain/crypto.py]): [Codec] and
      [CodecFacts], which gives the storage its [EnvelopeCodec].
    - session safety ([session/safety.py]): [Safety] (observations, the
      controller, the preflight), [SafetyFacts] (the controller against a log
      of its calls), [SafetyProps] (the controller over the policy engine and
      the lifecycle actor).
    - retrieval ([retrieval/service.py]): [Retrieval], [RetrievalFacts].
    - answering ([answering/service.py], [evidence.py], [models.py]):
      [Answering], [AnsweringFacts].
    - selective deletion ([timeline/deletion.py]): [Deletion] (the journal and
      its file-system calls, the coordinator), [DeletionFacts] (what the
      journal reads back), [DeletionProps] (runs, failures and power cuts).
    - snapshots encrypted into one file ([index/semantic.py],
      [activity/store.py], [ports/keys.py]): [Sealed], [SealedFacts].
    - the semantic index ([index/semantic.py], [domain/providers.py]):
      [SemanticIndex], [SemanticIndexFacts] (the two files and the operations),
      [SemanticIndexProps] (the index as a map, rebuilds, ranking).
    - activities ([activity/clustering.py], [store.py], [features.py],
      [summaries.py], [reconcile.py]): [Activity] and [ActivityFacts] (the
      segmenter, the encrypted store), [Summaries] and [SummariesFacts]
      (features and summaries over the two model providers), [Reconcile] and
      [ReconcileFacts] (the snapshot rebuilt from records, after a deletion
      too), [ActivityProps].
    - the timeline ([timeline/scope.py], [activity_rebuild.py]): [Vault] (the
      stored records as its services read them), [Scope] and [ScopeFacts]
      (what a deletion request selects).
    - the capture pipeline ([pipeline/]): [Concurrent] (programs of atomic
      actions, their weakest preconditions, pools of threads), [Pipeline] (the
      stage actors, ingress, ledgers, framing and the runtime's operations),
      [PipelineFacts] (messages and ledgers), [PipelineThreads] (the invariant
      of the pool), [PipelineProps] (its properties, and one that runs).
    - record encryption ([crypto/]): [Encryption] (envelopes, the registry of
      key providers, the pipeline's encryption stage), [EncryptionFacts],
      [Keyring] and [KeyringFacts] (the operating system's keyring as a key
      provider), [EncryptionProps] (ones that run, and a rotation that loses
      a record).
    - backups ([backup/archive.py], [backup/engine.py]): [Backup] (the archive
      container, export and restore), [BackupFacts] (archives read back, what
      reading raises), [BackupProps] (what restoring leaves, the round trip,
      and ones that run).
    - what these use of Python: [Prelude] (exceptions, state, lists), [PyStr]
      ([str]), [Utf8] ([encode] and [decode]), [PyFloat] ([float]), [Json]
      ([json.loads] and [json.dumps]) with [JsonFacts], [PyData] ([UUID],
      [datetime.isoformat], [int.to_bytes]), [PyLib].

    They interact as the program's objects do: the actor calls the gate
    ([HasGate] embeds it in the actor's state), persistence runs under a
    permit of the gate, retention works on the rows the storage catalogues,
    the pipeline's boundary asks the policy engine, the session-safety
    controller instructs both the engine and the actor, answering asks
    retrieval for evidence and the egress gate for leave to send it, and
    retrieval reads the storage under the policy's decisions.

    ** How the code is written down

    Code that changes an object is a function in the state and exception
    monad [M S] below: the state is the record of the object's attributes and
    an exception keeps the changes made before it, as in Python.  Code that
    only raises is in [result].  Collaborators the program takes by protocol
    are classes ([LifecyclePorts], [EnvelopeCodec], [RetentionStorage],
    [DerivedStores], [SecretDetector], [SafetyPorts], [PreflightPorts],
    [RetrievalPorts], [AnsweringPorts], [DeletionPorts], [SealPorts],
    [EmbeddingPorts], [ActivityPorts], [RecordVault], [Sockets],
    [StagePorts], [Cipher], [KeyringBackend], [BackupPorts], the records
    [KeyProvider] and [BackupCrypter]) and library code outside the
    repository (SHA-256, regular expressions, the zone database) is a
    parameter, with a law only where a theorem needs one ([PyLibrary] of
    [PyLib] collects what the snapshot files leave to the standard library).

    ** What the theorems show

    - Capture: work is admitted and committed under the live generation only,
      stale work is cancelled, quiescence is what it says, and a retired
      generation never comes back, in every interleaving; the actor refines
      its abstract machine, so a block or a pause is not undone by accident.
    - Policy: evaluation equals its declarative specification, does not depend
      on rule order, and every change revokes what was authorized before.
    - Adaptive capture: its attributes stay consistent, coalescing does not
      drift, a change of privacy scope forces a fresh frame.
    - Storage: crash atomicity, durability of what was acknowledged under a
      fresh id, finality of deletion, verified reads and the quota.
    - Retention: planning equals its specification, eviction is minimal, plans
      meet the limits, sweeps do exactly the plan, page walks are complete.
    - Egress: routing and approval are exact; the digest commits to the
      payload.
    - Codec: decoding inverts encoding, and no prefix or extension of a blob
      is taken for another.
    - Session safety: the controller keeps the policy locked whatever its
      collaborators do and blocks the lifecycle unless a call of it fails,
      releases only when nothing stands in the way, and with the real engine
      and actor a locked session records nothing.
    - Retrieval and answering: only records in scope that the policy allows are
      returned, up to the limit all of them where nothing changes or fails,
      answers cite what supports them, and only approved evidence leaves.
    - Selective deletion: what is reported deleted is gone from the storage and
      from what is derived of it, a deletion begun that fits the journal is finished
      by the next recovery, the journal is read back as written, and a deletion
      too large for the journal wedges it.
    - Semantic index: its operations refine operations on a map and leave the
      old or the new one when they fail, an interrupted rebuild resumes, a
      search gives the best entries of its window, a temporary file left
      behind blocks it.
    - Activities: segmentation gives the one division into continuous runs,
      the store is a register that holds valid snapshots only, reconciling
      stores exactly the records given, summaries quote their sources, only
      local providers see text.
    - Timeline: a window selects what it says, and a deleted record does not
      come back with the rebuilt activities.
    - Capture pipeline: in every interleaving the messages at a stage stay
      within its credits, and a generation found drained stays drained; a
      message decodes to what was encoded; a frame that cannot be encoded
      loses its credit for ever.
    - Record encryption: what the stage answers decrypts to its frames as long
      as its provider holds the key, altered metadata is rejected whatever
      digest comes with it, rewrapping keeps the record, and rotating active
      keys never loses one.
    - Backups: an archive reads back as written and no prefix or extension of
      it does, a restore adds nothing but the archive's records and changes
      none, and an export restores to exactly the records it wrote.

    ** Bounds and fuel

    [Retention] walks pages on fuel, the number of pages; [RetentionFacts]
    shows that one page per record and one more suffice.  The JSON scanner
    recurses on twice the length of its input, enough by [loads_total].  Waits
    ([wait_loop]) take the list of wake-ups before their deadline, each with
    what other threads did until then.  The slices of an index rebuild are made
    on the number of documents left ([slices_ok]); an archive is read on the
    length of its body.  Python integers are unbounded and are [Z]; floats are
    binary64.

    ** Not modelled

    Display servers, window-manager metadata adapters, OCR and regular
    expressions of redaction, the gpg program and the keyring module, HTTP
    clients, the creation and closing of the pipeline's actors and sockets, the
    IPC transport, the command line and user interfaces, health checks and
    audit files, the question planner and time expressions (regular
    expressions over a question): their behaviour is mostly that of the
    services they call.  Python's recursion limit is not modelled.
    File modes, symlink checks and schema migrations of the storage are left
    out, and so are wall-clock stamps and random identifiers that no branch
    depends on. *)

(** ** The Python effects the development is written in *)

From Stdlib Require Export ZArith Lia Ascii String.
From stdpp Require Export base tactics option list gmap sets strings.
Open Scope Z_scope.
#[global] Arguments Z.add : simpl never.
#[global] Arguments Z.sub : simpl never.
#[global] Arguments Z.mul : simpl never.
#[global] Arguments Z.leb : simpl never.
#[global] Arguments Z.ltb : simpl never.
#[global] Arguments Z.eqb : simpl never.

(** ** Python values

    A [str] is the list of its code points, a [bytes] the list of its bytes,
    a [UUID] its 128-bit integer (two UUIDs are ordered alike as integers and
    as canonical text). *)
Abbreviation pystr := (list Z) (only parsing).
Abbreviation pybytes := (list Z) (only parsing).
Abbreviation uuid := Z (only parsing).

(** The literal ["..."] of the source. *)
Fixpoint u (s : string) : pystr :=
  match s with
  | EmptyString => []
  | String c s' => Z.of_N (N_of_ascii c) :: u s'
  end.

(** [len(x)] of a Python sequence. *)
Definition zlen {A} (l : list A) : Z := Z.of_nat (length l).

(** An aware [datetime]: its wall clock and its UTC offset, in microseconds
    since 1970-01-01. *)
Record datetime := { dt_wall : Z; dt_offset : Z }.
#[export] Instance datetime_eq_dec : EqDecision datetime.
Proof. solve_decision. Defined.
Definition dt_utc (d : datetime) : Z := dt_wall d - dt_offset d.
Definition us_per_day : Z := 86400000000.
(** [d.astimezone(UTC).date()], as a day number *)
Definition utc_day (d : datetime) : Z := dt_utc d / us_per_day.

(** ** Exceptions

    One constructor per exception class the modelled code raises or catches;
    the payload is kept where a handler reads it. [External n] is whatever a
    dependency outside the program raises. *)
Inductive StorageFailureCode :=
  | INVALID_TYPE | INVALID_RECORD_ID | UNSAFE_ROOT | DUPLICATE_RECORD | QUOTA_EXCEEDED
  | BLOB_TOO_LARGE | IO_FAILURE | CATALOG_FAILURE | CORRUPTION | MIGRATION_FAILURE.
#[export] Instance StorageFailureCode_eq_dec : EqDecision StorageFailureCode.
Proof. solve_decision. Defined.

Inductive KeyProviderFailureCode :=
  | INVALID_KEY | KEY_LOCKED | KEY_NOT_FOUND | KEY_PROVIDER_UNAVAILABLE | KEY_REVOKED | ROTATION_REQUIRES_RECONFIGURATION.
#[export] Instance KeyProviderFailureCode_eq_dec : EqDecision KeyProviderFailureCode.
Proof. solve_decision. Defined.

Inductive EncryptionFailureCode :=
  | AUTHENTICATION_FAILED | CANCELLED | CODEC_FAILURE | KEY_UNAVAILABLE | ENCRYPTION_PROVIDER_UNAVAILABLE | REWRAP_FAILED.
#[export] Instance EncryptionFailureCode_eq_dec : EqDecision EncryptionFailureCode.
Proof. solve_decision. Defined.

Inductive AuditFailureCode :=
  | INVALID_EVENT | UNSAFE_PATH | INSECURE_PERMISSIONS | AUDIT_IO_FAILURE | EVENT_TOO_LARGE | HARDENING_FAILURE.
#[export] Instance AuditFailureCode_eq_dec : EqDecision AuditFailureCode.
Proof. solve_decision. Defined.

Inductive exn : Type :=
  | ValueError
  | RuntimeError
  | TypeError
  | KeyError
  | IndexError
  | PermissionError (reason : pystr)
  | CaptureGateClosed
  | StaleCaptureGeneration
  | CaptureGateOwnershipError
  | OverflowError
  | AttributeError
  | AnsweringFailure
  | PipelineProtocolError (record_id : option uuid)
  | NoRouteError (reason_code : pystr)
  | EgressDeniedError (reason_code : pystr)
  | ScopeBudgetExceeded
  | StorageFailure (code : StorageFailureCode)
  | KeyProviderFailure (code : KeyProviderFailureCode)
  | EncryptionFailure (record_id : uuid) (code : EncryptionFailureCode)
  | AuditFailure (code : AuditFailureCode)
  | RestoreFailure
  | StructError
  | IpcProtocolError (reason : pystr)
  | IpcTransportError (reason : pystr)
  | VisionUnavailable
  | VisionRefused
  | External (n : Z).

#[export] Instance exn_eq_dec : EqDecision exn.
Proof. solve_decision. Defined.

(** The outcome of a call: a value or an exception. *)
Inductive result (A : Type) : Type :=
  | Ok (a : A)
  | Raise (e : exn).
Arguments Ok {A} a.
Arguments Raise {A} e.

#[export] Instance result_ret : MRet result := fun A a => Ok a.
#[export] Instance result_bind : MBind result := fun A B k m =>
  match m with Ok a => k a | Raise e => Raise e end.

(** [if cond: raise e] *)
Definition throw_if (cond : bool) (e : exn) : result unit :=
  if cond then Raise e else Ok tt.

Definition is_ok {A} (r : result A) : bool :=
  match r with Ok _ => true | Raise _ => false end.

Lemma result_bind_ok {A B} (m : result A) (k : A -> result B) b :
  (m ≫= k) = Ok b <-> exists a, m = Ok a /\ k a = Ok b.
Proof. destruct m as [a|e]; cbn; [naive_solver|]. split; [done|]. by intros (?&?&?). Qed.

Lemma result_bind_ret {A B} (a : A) (k : A -> result B) : (Ok a ≫= k) = k a.
Proof. done. Qed.

Lemma pair_of {A B} (x : A * B) b : x.2 = b -> x = (x.1, b).
Proof. intros <-. apply surjective_pairing. Qed.

Lemma ret_ok {A} (a b : A) : (mret a : result A) = Ok b -> b = a.
Proof. by intros [= <-]. Qed.

Lemma throw_if_false e : throw_if false e = Ok tt.
Proof. done. Qed.

Lemma throw_if_ok (c : bool) (e : exn) x : throw_if c e = Ok x <-> c = false.
Proof. destruct x. by destruct c. Qed.

(** [r] answers, or raises [ValueError]. *)
Definition value_error_only {A} (r : result A) : Prop :=
  match r with Ok _ => True | Raise e => e = ValueError end.

Lemma value_error_bind {A B} (m : result A) (k : A -> result B) :
  value_error_only m -> (forall a, m = Ok a -> value_error_only (k a)) -> value_error_only (m ≫= k).
Proof. destruct m as [a|e]; cbn; auto. Qed.

Lemma value_error_throw_if c : value_error_only (throw_if c ValueError).
Proof. by destruct c. Qed.

Create HintDb value_error.
#[export] Hint Resolve value_error_throw_if : value_error.

(** Inverts a chain of successful calls. *)
Ltac ok_step :=
  match goal with
  | H : (_ ≫= _) = Ok _ |- _ => apply result_bind_ok in H as (?&?&H)
  | H : throw_if _ _ = Ok _ |- _ => apply throw_if_ok in H
  | H : mret _ = Ok _ |- _ => injection H as H; try (subst; clear H)
  end.
Ltac ok_steps := repeat (ok_step; cbn beta in *).

Section MapOk.
Context {A B : Type} (f : A -> result B).
(** [[f(x) for x in l]] for an [f] that may raise *)
Fixpoint map_ok (l : list A) : result (list B) :=
  match l with
  | [] => mret []
  | a :: l' => b ← f a; bs ← map_ok l'; mret (b :: bs)
  end.
End MapOk.

Lemma map_ok_Forall2 {A B} (f : A -> result B) l bs :
  map_ok f l = Ok bs <-> Forall2 (fun a b => f a = Ok b) l bs.
Proof.
  split.
  - revert bs. induction l as [|a l IH]; cbn; intros bs H; [by injection H as <-|].
    apply result_bind_ok in H as (b&Hb&H). apply result_bind_ok in H as (bs'&Hbs&[= <-]). constructor; auto.
  - induction 1 as [|a b l bs Hb _ IH]; cbn; [done|]. by rewrite Hb, IH.
Qed.

Lemma map_ok_all {A B} (f : A -> result B) (P : B -> Prop) l :
  (forall a, a ∈ l -> exists b, f a = Ok b /\ P b) ->
  exists bs, map_ok f l = Ok bs /\ length bs = length l /\ Forall P bs.
Proof.
  induction l as [|a l IH]; intros Hf; cbn; [by exists []|].
  destruct (Hf a) as (b&->&Hb); [constructor|]. destruct IH as (bs&->&Hl&Hbs); [intros x Hx; apply Hf; by constructor|].
  exists (b :: bs). cbn. split; [done|]. split; [by rewrite Hl|by constructor].
Qed.

Lemma map_ok_fmap {A B C} (f : B -> result C) (g : A -> B) (h : A -> C) l :
  (forall a, a ∈ l -> f (g a) = Ok (h a)) -> map_ok f (g <$> l) = Ok (h <$> l).
Proof.
  induction l as [|a l IH]; intros Hf; [done|]. rewrite !fmap_cons. cbn [map_ok].
  rewrite (Hf a (list_elem_of_here _ _)), IH; [done|]. intros x Hx. apply Hf. by constructor.
Qed.

Lemma value_error_map_ok {A B} (f : A -> result B) l :
  (forall a, value_error_only (f a)) -> value_error_only (map_ok f l).
Proof.
  intros Hf. induction l as [|a l IH]; cbn; [done|].
  apply value_error_bind; [apply Hf|]. intros b _. by apply value_error_bind.
Qed.

(** ** Stateful calls

    [M S A] is a call that mutates the shared state [S]: the mutations made
    before an exception persist, as they do in Python. *)
Definition M (S A : Type) : Type := S -> S * result A.

#[export] Instance M_ret S : MRet (M S) := fun A a s => (s, Ok a).
#[export] Instance M_bind S : MBind (M S) := fun A B k m s =>
  match m s with
  | (s', Ok a) => k a s'
  | (s', Raise e) => (s', Raise e)
  end.

Section Calls.
Context {S : Type}.

Definition raise {A} (e : exn) : M S A := fun s => (s, Raise e).
Definition gets {A} (f : S -> A) : M S A := fun s => (s, Ok (f s)).
Definition modify (f : S -> S) : M S unit := fun s => (f s, Ok tt).
Definition lift {A} (r : result A) : M S A := fun s => (s, r).
Definition require (ok : bool) (e : exn) : M S unit :=
  fun s => (s, if ok then Ok tt else Raise e).

(** [try: m  except Exception: h e] *)
Definition try_except {A} (m : M S A) (h : exn -> M S A) : M S A := fun s =>
  match m s with
  | (s', Ok a) => (s', Ok a)
  | (s', Raise e) => h e s'
  end.

(** [try: m  finally: f] *)
Definition try_finally {A} (m : M S A) (f : M S unit) : M S A := fun s =>
  let (s', r) := m s in
  match f s' with
  | (s'', Ok _) => (s'', r)
  | (s'', Raise e) => (s'', Raise e)
  end.

(** [for x in xs: m x] *)
Fixpoint for_each {A} (xs : list A) (m : A -> M S unit) : M S unit :=
  match xs with
  | [] => mret tt
  | x :: xs' => mbind (fun _ => for_each xs' m) (m x)
  end.
End Calls.

(** A call on a component of a larger state. *)
Definition zoom {S T A} (get : T -> S) (set : S -> T -> T) (m : M S A) : M T A :=
  fun t => let (s, r) := m (get t) in (set s t, r).

(** ** Weakest preconditions

    [wp m Q s]: running [m] from [s] ends in an outcome and a state related by
    [Q]. *)
Record wp {S A} (m : M S A) (Q : result A -> S -> Prop) (s : S) : Prop :=
  wp_intro { wp_elim : Q (m s).2 (m s).1 }.

Section WP.
Context {S : Type}.
Implicit Type s : S.

Lemma wp_ret {A} (a : A) Q s : Q (Ok a) s -> wp (mret a : M S A) Q s.
Proof. by split. Qed.

Lemma wp_raise {A} e (Q : result A -> S -> Prop) s : Q (Raise e) s -> wp (raise e) Q s.
Proof. by split. Qed.

Lemma wp_bind {A B} (m : M S A) (k : A -> M S B) Q s :
  wp m (fun r s' => match r with Ok a => wp (k a) Q s' | Raise e => Q (Raise e) s' end) s ->
  wp (mbind k m) Q s.
Proof.
  intros [H]. split. revert H. unfold mbind, M_bind. destruct (m s) as [s' [a|e]]; [by intros []|done].
Qed.

Lemma wp_mono {A} (m : M S A) (Q Q' : result A -> S -> Prop) s :
  wp m Q s -> (forall r s', Q r s' -> Q' r s') -> wp m Q' s.
Proof. intros [H] HQ. split. eauto. Qed.

Lemma wp_gets {A} (f : S -> A) Q s : Q (Ok (f s)) s -> wp (gets f) Q s.
Proof. by split. Qed.

Lemma wp_modify f Q s : Q (Ok tt) (f s) -> wp (modify f) Q s.
Proof. by split. Qed.

Lemma wp_lift {A} (r : result A) Q s : Q r s -> wp (lift r) Q s.
Proof. by split. Qed.

Lemma wp_require ok e Q s :
  (ok = true -> Q (Ok tt) s) -> (ok = false -> Q (Raise e) s) -> wp (require ok e) Q s.
Proof. split. unfold require. destruct ok; auto. Qed.

Lemma wp_try_except {A} (m : M S A) h Q s :
  wp m (fun r s' => match r with Ok a => Q (Ok a) s' | Raise e => wp (h e) Q s' end) s ->
  wp (try_except m h) Q s.
Proof. intros [H]. split. revert H. unfold try_except. destruct (m s) as [s' [a|e]]; [done|by intros []]. Qed.

Lemma wp_try_finally {A} (m : M S A) f Q s :
  wp m (fun r s' =>
          wp f (fun r' s'' => match r' with Ok _ => Q r s'' | Raise e => Q (Raise e) s'' end) s') s ->
  wp (try_finally m f) Q s.
Proof.
  intros [[H]]. split. revert H. unfold try_finally. destruct (m s) as [s' r]; simpl.
  destruct (f s') as [s'' [?|?]]; done.
Qed.

Lemma wp_run {A} (m : M S A) (Q : result A -> S -> Prop) s s' r :
  m s = (s', r) -> wp m Q s -> Q r s'.
Proof. intros Hm [H]. by rewrite Hm in H. Qed.

Lemma wp_of_run {A} (m : M S A) (Q : result A -> S -> Prop) s :
  (forall s' r, m s = (s', r) -> Q r s') -> wp m Q s.
Proof. intros H. split. apply H. by destruct (m s). Qed.

Lemma wp_conj {A} (m : M S A) (Q Q' : result A -> S -> Prop) s :
  wp m Q s -> wp m Q' s -> wp m (fun r s' => Q r s' /\ Q' r s') s.
Proof. by intros [] []. Qed.
End WP.

Lemma wp_zoom {S T A} (get : T -> S) (set : S -> T -> T) (m : M S A) Q t :
  wp m (fun r s => Q r (set s t)) (get t) -> wp (zoom get set m) Q t.
Proof. intros [H]. split. revert H. unfold zoom. by destruct (m (get t)). Qed.

(** A call preserves a predicate of the state whatever its outcome. *)
Definition preserves {S A} (I : S -> Prop) (m : M S A) : Prop :=
  forall s, I s -> wp m (fun _ s' => I s') s.

Section Preserves.
Context {S : Type} (I : S -> Prop).

Lemma preserves_ret {A} (a : A) : preserves I (mret a).
Proof. by split. Qed.

Lemma preserves_raise {A} e : preserves I (raise e : M S A).
Proof. by split. Qed.

Lemma preserves_lift {A} (r : result A) : preserves I (lift r).
Proof. by split. Qed.

Lemma preserves_gets {A} (f : S -> A) : preserves I (gets f).
Proof. by split. Qed.

Lemma preserves_require ok e : preserves I (require ok e).
Proof. by split. Qed.

Lemma preserves_bind {A B} (m : M S A) (k : A -> M S B) :
  preserves I m -> (forall a, preserves I (k a)) -> preserves I (mbind k m).
Proof.
  intros Hm Hk s Hs. apply wp_bind. eapply wp_mono; [by apply Hm|].
  intros [a|e] s' Hs'; [by apply Hk|done].
Qed.

Lemma preserves_try_except {A} (m : M S A) h :
  preserves I m -> (forall e, preserves I (h e)) -> preserves I (try_except m h).
Proof.
  intros Hm Hh s Hs. apply wp_try_except. eapply wp_mono; [by apply Hm|].
  intros [a|e] s' Hs'; [done|by apply Hh].
Qed.

Lemma preserves_try_finally {A} (m : M S A) f :
  preserves I m -> preserves I f -> preserves I (try_finally m f).
Proof.
  intros Hm Hf s Hs. apply wp_try_finally. eapply wp_mono; [by apply Hm|].
  intros r s' Hs'. eapply wp_mono; [by apply Hf|]. by intros [].
Qed.

Lemma preserves_for_each {A} (xs : list A) m :
  (forall a, preserves I (m a)) -> preserves I (for_each xs m).
Proof.
  intros Hm. induction xs as [|x xs IH]; simpl.
  - apply preserves_ret.
  - apply preserves_bind; [apply Hm | intros _; apply IH].
Qed.

Lemma preserves_run {A} (m : M S A) s s' r : preserves I m -> m s = (s', r) -> I s -> I s'.
Proof. intros Hm Hr Hs. exact (wp_run _ _ _ _ _ Hr (Hm s Hs)). Qed.
End Preserves.

Create HintDb preserves.
#[export] Hint Resolve preserves_ret preserves_raise preserves_lift preserves_gets
  preserves_require preserves_bind preserves_try_except preserves_try_finally
  preserves_for_each : preserves.

(** A call that answers as [P] says, and that does answer, again and again,
    from the states where nothing is going to fail. *)
Definition steady {S A} (ready : S -> Prop) (m : M S A) (P : A -> Prop) : Prop :=
  forall s, wp m (fun r s' => (forall a, r = Ok a -> P a) /\ (ready s -> ready s' /\ is_ok r = true)) s.

Section Steady.
Context {S : Type} (ready : S -> Prop).

Lemma steady_ret {A} (a : A) (P : A -> Prop) : P a -> steady ready (mret a) P.
Proof. intros Hp s. split. cbn. split; [by intros ? [= <-]|done]. Qed.

Lemma steady_lift {A} (r : result A) (P : A -> Prop) :
  (forall a, r = Ok a -> P a) -> is_ok r = true -> steady ready (lift r) P.
Proof. intros Hp Hr s. by split. Qed.

Lemma steady_bind {A B} (m : M S A) (k : A -> M S B) (P : A -> Prop) (Q : B -> Prop) :
  steady ready m P -> (forall a, P a -> steady ready (k a) Q) -> steady ready (mbind k m) Q.
Proof.
  intros Hm Hk s. apply wp_bind. eapply wp_mono; [apply Hm|]. intros [a|e] s' [Hp Hr].
  - eapply wp_mono; [by apply Hk, Hp|]. intros r s'' [Hq Hr']. split; [done|]. intros H. by apply Hr', Hr.
  - split; [done|]. intros H. by destruct (Hr H).
Qed.

Lemma steady_mono {A} (m : M S A) (P Q : A -> Prop) :
  steady ready m P -> (forall a, P a -> Q a) -> steady ready m Q.
Proof. intros Hm HPQ s. eapply wp_mono; [apply Hm|]. intros r s' [Hp Hr]. auto. Qed.
End Steady.

(** Symbolic execution of a call under [wp]: one rule per primitive. *)
Ltac wp_step :=
  lazymatch goal with
  | |- wp ?m _ _ =>
      lazymatch m with
      | mret _ => apply wp_ret
      | raise _ => apply wp_raise
      | mbind _ _ => apply wp_bind
      | gets _ => apply wp_gets
      | modify _ => apply wp_modify
      | lift _ => apply wp_lift
      | try_except _ _ => apply wp_try_except
      | try_finally _ _ => apply wp_try_finally
      | zoom _ _ _ => apply wp_zoom
      | require _ _ => apply wp_require; intros ?
      end
  end.
Ltac wp_steps := repeat (wp_step; simpl).

(** Case analysis on the scrutinees of a goal or a hypothesis. *)
Ltac case_goal :=
  match goal with
  | |- context [match ?x with _ => _ end] => destruct x eqn:?
  end.
Ltac case_hyp H :=
  match type of H with
  | context [match ?x with _ => _ end] => destruct x eqn:?
  end.

(** A closed decidable proposition, by evaluating its decision procedure. *)
Ltac decide_true :=
  lazymatch goal with |- ?P => apply (bool_decide_eq_true_1 P); vm_compute; reflexivity end.
Ltac decide_false :=
  lazymatch goal with
  | |- ~ ?P => apply (bool_decide_eq_false_1 P); vm_compute; reflexivity
  | |- ?P -> False => apply (bool_decide_eq_false_1 P); vm_compute; reflexivity
  end.

(** Boolean hypotheses to propositions. *)
Ltac btauto_hyps :=
  repeat match goal with
  | H : _ && _ = true |- _ => apply andb_true_iff in H as [? ?]
  | H : _ || _ = false |- _ => apply orb_false_iff in H as [? ?]
  | H : negb _ = true |- _ => apply negb_true_iff in H
  | H : negb _ = false |- _ => apply negb_false_iff in H
  | H : bool_decide _ = true |- _ => apply bool_decide_eq_true in H
  | H : bool_decide _ = false |- _ => apply bool_decide_eq_false in H
  | H : (_ <=? _) = true |- _ => apply Z.leb_le in H
  | H : (_ <=? _) = false |- _ => apply Z.leb_gt in H
  | H : (_ <? _) = true |- _ => apply Z.ltb_lt in H
  | H : (_ <? _) = false |- _ => apply Z.ltb_ge in H
  | H : (_ =? _) = true |- _ => apply Z.eqb_eq in H
  | H : (_ =? _) = false |- _ => apply Z.eqb_neq in H
  end.

(** ** Generic lemmas on lists *)
Section Lists.
Context {A : Type}.

(** [sum(f(x) for x in l)] *)
Definition sum_by (f : A -> Z) (l : list A) : Z := foldr (fun x acc => f x + acc) 0 l.

Lemma sum_by_cons f x (l : list A) : sum_by f (x :: l) = f x + sum_by f l.
Proof. done. Qed.

Lemma sum_by_app f (l1 l2 : list A) : sum_by f (l1 ++ l2) = sum_by f l1 + sum_by f l2.
Proof. induction l1 as [|x l1 IH]; [done|]. rewrite <- app_comm_cons, !sum_by_cons, IH. lia. Qed.

Lemma sum_by_nonneg f (l : list A) : (forall x, x ∈ l -> 0 <= f x) -> 0 <= sum_by f l.
Proof.
  induction l as [|x l IH]; intros H; [done|]. rewrite sum_by_cons.
  pose proof (H x (list_elem_of_here _ _)).
  assert (0 <= sum_by f l) by (apply IH; intros y Hy; apply H; by apply list_elem_of_further).
  lia.
Qed.
End Lists.

Lemma sum_by_perm {A} (f : A -> Z) l l' : l ≡ₚ l' -> sum_by f l = sum_by f l'.
Proof. induction 1; rewrite ?sum_by_cons; lia. Qed.

Lemma forallb_Forall {A} (f : A -> bool) l : forallb f l = true <-> Forall (fun x => f x = true) l.
Proof. rewrite List.forallb_forall, Forall_forall. by setoid_rewrite list_elem_of_In. Qed.

Lemma forallb_fmap {A B} (f : B -> bool) (g : A -> B) l : forallb f (g <$> l) = forallb (fun x => f (g x)) l.
Proof. induction l as [|x l IH]; [done|]. rewrite fmap_cons. cbn [forallb]. by rewrite IH. Qed.

Lemma existsb_Forall {A} (f : A -> bool) (P : A -> Prop) l :
  (forall x, f x = false <-> P x) -> existsb f l = false <-> Forall P l.
Proof.
  intros Hf. induction l as [|x l IH]; cbn [existsb]; [by split; [constructor|]|].
  by rewrite orb_false_iff, Hf, IH, Forall_cons.
Qed.

#[global] Arguments sum_by : simpl never.

Lemma zlen_app {A} (l1 l2 : list A) : zlen (l1 ++ l2) = zlen l1 + zlen l2.
Proof. unfold zlen. rewrite length_app. lia. Qed.

Lemma zlen_nonneg {A} (l : list A) : 0 <= zlen l.
Proof. unfold zlen. lia. Qed.

(** Reflexive transitive closure of a labelled step, by its label list. *)
Inductive steps {S L : Type} (R : S -> L -> S -> Prop) : S -> list L -> S -> Prop :=
  | steps_nil s : steps R s [] s
  | steps_cons s l s' ls s'' : R s l s' -> steps R s' ls s'' -> steps R s (l :: ls) s''.

Lemma steps_invariant {S L} (R : S -> L -> S -> Prop) (I : S -> Prop) s ls s' :
  (forall a l b, R a l b -> I a -> I b) -> steps R s ls s' -> I s -> I s'.
Proof. intros HR Hs. induction Hs; eauto. Qed.

Lemma steps_app {S L} (R : S -> L -> S -> Prop) s ls s' ls' s'' :
  steps R s ls s' -> steps R s' ls' s'' -> steps R s (ls ++ ls') s''.
Proof. intros H1. induction H1; simpl; intros; [done|econstructor; eauto]. Qed.
