(* ===== verification/PyStr.v ===== *)
(** * PyStr: the [str] methods the program uses.

    Strings are lists of code points.  [casefold] is Unicode full case folding:
    [fold_ranges] holds the one-to-one mappings as (first, last, step, offset)
    and [fold_multi] the others.  [strip], [split], [endswith], [in] and
    [str(int)] follow CPython. *)

From stdpp Require Import sorting.
From S2P Require Import Prelude.

Definition fold_ranges : list (Z * Z * Z * Z) :=
  [(65,90,1,32); (181,181,1,775); (192,222,2,32); (193,213,2,32); (217,221,2,32); (256,302,2,1);
   (306,310,2,1); (313,327,2,1); (330,374,2,1); (376,376,1,(-121)); (377,381,2,1);
   (383,383,1,(-268)); (385,385,1,210); (386,388,2,1); (390,390,1,206); (391,391,1,1);
   (393,394,1,205); (395,395,1,1); (398,398,1,79); (399,399,1,202); (400,400,1,203);
   (401,401,1,1); (403,403,1,205); (404,404,1,207); (406,406,1,211); (407,407,1,209);
   (408,408,1,1); (412,412,1,211); (413,413,1,213); (415,415,1,214); (416,420,2,1);
   (422,422,1,218); (423,423,1,1); (425,425,1,218); (428,428,1,1); (430,430,1,218);
   (431,431,1,1); (433,434,1,217); (435,437,2,1); (439,439,1,219); (440,440,1,1); (444,444,1,1);
   (452,452,1,2); (453,453,1,1); (455,455,1,2); (456,456,1,1); (458,458,1,2); (459,475,2,1);
   (478,494,2,1); (497,497,1,2); (498,500,2,1); (502,502,1,(-97)); (503,503,1,(-56));
   (504,542,2,1); (544,544,1,(-130)); (546,562,2,1); (570,570,1,10795); (571,571,1,1);
   (573,573,1,(-163)); (574,574,1,10792); (577,577,1,1); (579,579,1,(-195)); (580,580,1,69);
   (581,581,1,71); (582,590,2,1); (837,837,1,116); (880,882,2,1); (886,886,1,1); (895,895,1,116);
   (902,902,1,38); (904,906,1,37); (908,908,1,64); (910,911,1,63); (913,939,2,32);
   (914,928,2,32); (932,938,2,32); (962,962,1,1); (975,975,1,8); (976,976,1,(-30));
   (977,977,1,(-25)); (981,981,1,(-15)); (982,982,1,(-22)); (984,1006,2,1); (1008,1008,1,(-54));
   (1009,1009,1,(-48)); (1012,1012,1,(-60)); (1013,1013,1,(-64)); (1015,1015,1,1);
   (1017,1017,1,(-7)); (1018,1018,1,1); (1021,1023,1,(-130)); (1024,1039,1,80); (1040,1071,1,32);
   (1120,1152,2,1); (1162,1214,2,1); (1216,1216,1,15); (1217,1229,2,1); (1232,1326,2,1);
   (1329,1366,1,48); (4256,4293,1,7264); (4295,4295,1,7264); (4301,4301,1,7264);
   (5112,5117,1,(-8)); (7296,7296,1,(-6222)); (7297,7297,1,(-6221)); (7298,7298,1,(-6212));
   (7299,7300,1,(-6210)); (7301,7301,1,(-6211)); (7302,7302,1,(-6204)); (7303,7303,1,(-6180));
   (7304,7304,1,35267); (7305,7305,1,1); (7312,7354,1,(-3008)); (7357,7359,1,(-3008));
   (7680,7828,2,1); (7835,7835,1,(-58)); (7840,7934,2,1); (7944,7951,1,(-8)); (7960,7965,1,(-8));
   (7976,7983,1,(-8)); (7992,7999,1,(-8)); (8008,8013,1,(-8)); (8025,8031,2,(-8));
   (8040,8047,1,(-8)); (8120,8121,1,(-8)); (8122,8123,1,(-74)); (8126,8126,1,(-7173));
   (8136,8139,1,(-86)); (8152,8153,1,(-8)); (8154,8155,1,(-100)); (8168,8169,1,(-8));
   (8170,8171,1,(-112)); (8172,8172,1,(-7)); (8184,8185,1,(-128)); (8186,8187,1,(-126));
   (8486,8486,1,(-7517)); (8490,8490,1,(-8383)); (8491,8491,1,(-8262)); (8498,8498,1,28);
   (8544,8559,1,16); (8579,8579,1,1); (9398,9423,1,26); (11264,11311,1,48); (11360,11360,1,1);
   (11362,11362,1,(-10743)); (11363,11363,1,(-3814)); (11364,11364,1,(-10727));
   (11367,11371,2,1); (11373,11373,1,(-10780)); (11374,11374,1,(-10749));
   (11375,11375,1,(-10783)); (11376,11376,1,(-10782)); (11378,11378,1,1); (11381,11381,1,1);
   (11390,11391,1,(-10815)); (11392,11490,2,1); (11499,11501,2,1); (11506,11506,1,1);
   (42560,42604,2,1); (42624,42650,2,1); (42786,42798,2,1); (42802,42862,2,1); (42873,42875,2,1);
   (42877,42877,1,(-35332)); (42878,42886,2,1); (42891,42891,1,1); (42893,42893,1,(-42280));
   (42896,42898,2,1); (42902,42920,2,1); (42922,42922,1,(-42308)); (42923,42923,1,(-42319));
   (42924,42924,1,(-42315)); (42925,42925,1,(-42305)); (42926,42926,1,(-42308));
   (42928,42928,1,(-42258)); (42929,42929,1,(-42282)); (42930,42930,1,(-42261));
   (42931,42931,1,928); (42932,42946,2,1); (42948,42948,1,(-48)); (42949,42949,1,(-42307));
   (42950,42950,1,(-35384)); (42951,42953,2,1); (42955,42955,1,(-42343)); (42956,42956,1,1);
   (42960,42960,1,1); (42966,42970,2,1); (42972,42972,1,(-42561)); (42997,42997,1,1);
   (43888,43967,1,(-38864)); (65313,65338,1,32); (66560,66599,1,40); (66736,66771,1,40);
   (66928,66964,2,39); (66929,66937,2,39); (66941,66953,2,39); (66957,66961,2,39);
   (66965,66965,1,39); (68736,68786,1,64); (68944,68965,1,32); (71840,71871,1,32);
   (93760,93791,1,32); (125184,125217,1,34)].
Definition fold_multi : list (Z * list Z) :=
  [(223,[115;115]); (304,[105;775]); (329,[700;110]); (496,[106;780]); (912,[953;776;769]);
   (944,[965;776;769]); (1415,[1381;1410]); (7830,[104;817]); (7831,[116;776]); (7832,[119;778]);
   (7833,[121;778]); (7834,[97;702]); (7838,[115;115]); (8016,[965;787]); (8018,[965;787;768]);
   (8020,[965;787;769]); (8022,[965;787;834]); (8064,[7936;953]); (8065,[7937;953]);
   (8066,[7938;953]); (8067,[7939;953]); (8068,[7940;953]); (8069,[7941;953]); (8070,[7942;953]);
   (8071,[7943;953]); (8072,[7936;953]); (8073,[7937;953]); (8074,[7938;953]); (8075,[7939;953]);
   (8076,[7940;953]); (8077,[7941;953]); (8078,[7942;953]); (8079,[7943;953]); (8080,[7968;953]);
   (8081,[7969;953]); (8082,[7970;953]); (8083,[7971;953]); (8084,[7972;953]); (8085,[7973;953]);
   (8086,[7974;953]); (8087,[7975;953]); (8088,[7968;953]); (8089,[7969;953]); (8090,[7970;953]);
   (8091,[7971;953]); (8092,[7972;953]); (8093,[7973;953]); (8094,[7974;953]); (8095,[7975;953]);
   (8096,[8032;953]); (8097,[8033;953]); (8098,[8034;953]); (8099,[8035;953]); (8100,[8036;953]);
   (8101,[8037;953]); (8102,[8038;953]); (8103,[8039;953]); (8104,[8032;953]); (8105,[8033;953]);
   (8106,[8034;953]); (8107,[8035;953]); (8108,[8036;953]); (8109,[8037;953]); (8110,[8038;953]);
   (8111,[8039;953]); (8114,[8048;953]); (8115,[945;953]); (8116,[940;953]); (8118,[945;834]);
   (8119,[945;834;953]); (8124,[945;953]); (8130,[8052;953]); (8131,[951;953]); (8132,[942;953]);
   (8134,[951;834]); (8135,[951;834;953]); (8140,[951;953]); (8146,[953;776;768]);
   (8147,[953;776;769]); (8150,[953;834]); (8151,[953;776;834]); (8162,[965;776;768]);
   (8163,[965;776;769]); (8164,[961;787]); (8166,[965;834]); (8167,[965;776;834]);
   (8178,[8060;953]); (8179,[969;953]); (8180,[974;953]); (8182,[969;834]); (8183,[969;834;953]);
   (8188,[969;953]); (64256,[102;102]); (64257,[102;105]); (64258,[102;108]);
   (64259,[102;102;105]); (64260,[102;102;108]); (64261,[115;116]); (64262,[115;116]);
   (64275,[1396;1398]); (64276,[1396;1381]); (64277,[1396;1387]); (64278,[1406;1398]);
   (64279,[1396;1389])].
Fixpoint fold_in_ranges (c : Z) (l : list (Z * Z * Z * Z)) : option Z :=
  match l with
  | [] => None
  | (lo, hi, step, d) :: l' =>
      if (lo <=? c) && (c <=? hi) && ((c - lo) mod step =? 0) then Some (c + d)
      else fold_in_ranges c l'
  end.

Fixpoint fold_in_multi (c : Z) (l : list (Z * list Z)) : option (list Z) :=
  match l with
  | [] => None
  | (k, v) :: l' => if k =? c then Some v else fold_in_multi c l'
  end.

Definition fold_char (c : Z) : list Z :=
  match fold_in_ranges c fold_ranges with
  | Some d => [d]
  | None => match fold_in_multi c fold_multi with Some v => v | None => [c] end
  end.

(** [s.casefold()] *)
Definition casefold (s : pystr) : pystr := mjoin (fold_char <$> s).

(** [c.isspace()] *)
Definition is_space (c : Z) : bool :=
  bool_decide (c ∈ [9; 10; 11; 12; 13; 28; 29; 30; 31; 32; 133; 160; 5760; 8192; 8193; 8194; 8195;
    8196; 8197; 8198; 8199; 8200; 8201; 8202; 8232; 8233; 8239; 8287; 12288]).

Fixpoint drop_while (f : Z -> bool) (s : pystr) : pystr :=
  match s with
  | [] => []
  | c :: s' => if f c then drop_while f s' else s
  end.

(** [s.strip()] *)
Definition strip (s : pystr) : pystr := rev (drop_while is_space (rev (drop_while is_space s))).

(** [not s or not s.strip()] *)
Definition is_blank (s : pystr) : bool := bool_decide (strip s = []).

(** [domain._validation.require_nonempty] *)
Definition require_nonempty (s : pystr) : result unit :=
  throw_if (bool_decide (s = []) || is_blank s) ValueError.

(** [s.split(sep)] for a one-character separator *)
Fixpoint split_on (sep : Z) (s : pystr) : list pystr :=
  match s with
  | [] => [[]]
  | c :: s' =>
      if c =? sep then [] :: split_on sep s'
      else match split_on sep s' with
           | w :: ws => (c :: w) :: ws
           | [] => [[c]]
           end
  end.

(** [sep.join(parts)] for a one-character separator *)
Fixpoint join (sep : Z) (parts : list pystr) : pystr :=
  match parts with
  | [] => []
  | [p] => p
  | p :: parts' => p ++ sep :: join sep parts'
  end.

(** [s.split()]: the runs of other characters than white space; [current] is
    the one being read. *)
Fixpoint words_from (current s : pystr) : list pystr :=
  match s with
  | [] => if bool_decide (current = []) then [] else [current]
  | c :: s' =>
      if is_space c
      then if bool_decide (current = []) then words_from [] s' else current :: words_from [] s'
      else words_from (current ++ [c]) s'
  end.
Definition words (s : pystr) : list pystr := words_from [] s.

(** [s.startswith(p)] and [s.endswith(p)] *)
Definition starts_with (p s : pystr) : bool := bool_decide (take (length p) s = p).
Definition ends_with (p s : pystr) : bool := starts_with (rev p) (rev s).

(** [s.removesuffix(suffix)] *)
Definition removesuffix (suffix s : pystr) : pystr := if ends_with suffix s then take (length s - length suffix) s else s.

(** [p in s] *)
Fixpoint is_in (p s : pystr) : bool :=
  starts_with p s || match s with [] => false | _ :: s' => is_in p s' end.

(** [str(n)] *)
Fixpoint digits (fuel : nat) (n : Z) : pystr :=
  match fuel with
  | O => []
  | S fuel' => (if n <? 10 then [] else digits fuel' (n / 10)) ++ [48 + n mod 10]
  end.
Definition str_of_nonneg (n : Z) : pystr := digits (S (Z.to_nat (Z.log2 n))) n.
Definition str_of_int (n : Z) : pystr :=
  if n <? 0 then 45 :: str_of_nonneg (- n) else str_of_nonneg n.

(** [a < b] on strings: code points, lexicographically *)
Fixpoint str_ltb (a b : pystr) : bool :=
  match a, b with
  | _, [] => false
  | [], _ :: _ => true
  | x :: a', y :: b' => (x <? y) || ((x =? y) && str_ltb a' b')
  end.

(** [a < b] and the order of [sorted] on pairs of strings: lexicographic *)
Definition pair_ltb (a b : pystr * pystr) : bool :=
  str_ltb a.1 b.1 || (bool_decide (a.1 = b.1) && str_ltb a.2 b.2).
Definition pair_le (a b : pystr * pystr) : Prop := pair_ltb b a = false.
#[export] Instance pair_le_dec : RelDecision pair_le.
Proof. intros a b. unfold pair_le. apply _. Defined.

(** [c.isascii() and (c.isalnum() or c == '-')] *)
Definition is_label_char (c : Z) : bool :=
  ((48 <=? c) && (c <=? 57)) || ((65 <=? c) && (c <=? 90)) || ((97 <=? c) && (c <=? 122)) || (c =? 45).

Example casefold_ex : casefold (u "KeePassXC") = u "keepassxc".
Proof. vm_compute. reflexivity. Qed.
Example casefold_sharp_s : casefold [7838; 223; 304] = [115; 115; 115; 115; 105; 775].
Proof. vm_compute. reflexivity. Qed.
Example split_ex : split_on 46 (u "a.b..c") = [u "a"; u "b"; []; u "c"].
Proof. reflexivity. Qed.
Example str_ex : str_of_int (-1205) = u "-1205" /\ str_of_int 0 = u "0".
Proof. split; reflexivity. Qed.

(** ** Lemmas *)

Lemma casefold_app a b : casefold (a ++ b) = casefold a ++ casefold b.
Proof. unfold casefold. by rewrite fmap_app, join_app. Qed.

(** Characters that folding leaves alone: everything it produces, among ASCII. *)
Definition folded (c : Z) : bool := negb ((65 <=? c) && (c <=? 90)).

Lemma fold_ascii c : 0 <= c < 128 -> folded c = true -> fold_char c = [c].
Proof.
  intros Hc Hf. assert (forallb (fun c => implb (folded c) (bool_decide (fold_char c = [c])))
    (Z.of_nat <$> seq 0 128) = true) as H by (vm_compute; reflexivity).
  rewrite List.forallb_forall in H. specialize (H c). rewrite Hf in H. simpl implb in H.
  apply (bool_decide_eq_true_1 _), H, list_elem_of_In, list_elem_of_fmap.
  exists (Z.to_nat c). rewrite elem_of_seq. lia.
Qed.

Lemma fold_range_image c d l :
  fold_in_ranges c l = Some d ->
  exists lo hi step off, (lo, hi, step, off) ∈ l /\ lo <= c <= hi /\ d = c + off.
Proof.
  induction l as [|[[[lo hi] step] off] l IH]; cbn; [done|].
  destruct (_ && _ && _) eqn:E.
  - intros [= <-]. btauto_hyps. exists lo, hi, step, off. split; [constructor|lia].
  - intros Hd. destruct (IH Hd) as (lo'&hi'&st'&off'&Hin&?). exists lo', hi', st', off'.
    split; [by constructor|done].
Qed.

Lemma fold_multi_image c v l : fold_in_multi c l = Some v -> (c, v) ∈ l.
Proof.
  induction l as [|[k w] l IH]; cbn; [done|]. destruct (Z.eqb_spec k c) as [->|_].
  - intros [= <-]. constructor.
  - intros Hv. constructor. by apply IH.
Qed.

(** Folding never yields an upper-case ASCII letter. *)
Lemma fold_char_folded c d : d ∈ fold_char c -> folded d = true.
Proof.
  unfold fold_char. destruct (fold_in_ranges c fold_ranges) as [x|] eqn:Hr.
  - intros ->%list_elem_of_singleton. apply fold_range_image in Hr as (lo&hi&st&off&Hin&Hc&->).
    assert (forallb (fun r => let '(lo, hi, _, off) := r in (90 <? lo + off) || (hi + off <? 65)) fold_ranges = true)
      as H by (vm_compute; reflexivity).
    rewrite List.forallb_forall in H. specialize (H _ (proj1 (list_elem_of_In _ _) Hin)). cbn in H.
    unfold folded. apply orb_true_iff in H as [H|H]; btauto_hyps; apply negb_true_iff, andb_false_iff.
    + right. apply Z.leb_gt. lia.
    + left. apply Z.leb_gt. lia.
  - destruct (fold_in_multi c fold_multi) as [v|] eqn:Hm.
    + intros Hd. apply fold_multi_image in Hm.
      assert (forallb (fun r => forallb folded r.2) fold_multi = true) as H by (vm_compute; reflexivity).
      rewrite List.forallb_forall in H. specialize (H _ (proj1 (list_elem_of_In _ _) Hm)). cbn in H.
      rewrite List.forallb_forall in H. by apply H, list_elem_of_In.
    + intros ->%list_elem_of_singleton. unfold folded. destruct ((65 <=? c) && (c <=? 90)) eqn:E; [|done].
      exfalso. btauto_hyps. assert (fold_in_ranges c fold_ranges = Some (c + 32)); [|congruence].
      unfold fold_ranges. cbn [fold_in_ranges]. rewrite (proj2 (Z.leb_le 65 c)), (proj2 (Z.leb_le c 90)) by lia.
      by rewrite Z.mod_1_r.
Qed.

Lemma casefold_folded s : forallb folded (casefold s) = true.
Proof.
  apply List.forallb_forall. intros d Hd%list_elem_of_In. unfold casefold in Hd.
  apply list_elem_of_join in Hd as (l&Hd&Hl). apply list_elem_of_fmap in Hl as (c&->&_).
  by eapply fold_char_folded.
Qed.

Lemma casefold_id s : Forall (fun c => 0 <= c < 128 /\ folded c = true) s -> casefold s = s.
Proof.
  induction 1 as [|c s [Hc Hf] _ IH]; [done|]. change (casefold (c :: s)) with (fold_char c ++ casefold s).
  by rewrite fold_ascii, IH.
Qed.

Lemma split_on_nonempty sep s : split_on sep s ≠ [].
Proof. destruct s as [|c s]; cbn; [done|]. destruct (c =? sep); [done|]. by destruct (split_on sep s). Qed.

(** Splitting distributes over a separator. *)
Lemma split_on_none sep s : sep ∉ s -> split_on sep s = [s].
Proof.
  induction s as [|c s IH]; cbn; [done|]. intros [Hc Hs]%not_elem_of_cons.
  rewrite (proj2 (Z.eqb_neq c sep)) by done. by rewrite IH.
Qed.

Lemma split_on_app sep a b : split_on sep (a ++ sep :: b) = split_on sep a ++ split_on sep b.
Proof.
  induction a as [|c a IH]; cbn.
  - by rewrite Z.eqb_refl.
  - rewrite IH. destruct (c =? sep); [done|].
    destruct (split_on sep a) as [|w ws] eqn:E; [by apply split_on_nonempty in E|done].
Qed.

Lemma starts_with_spec p s : starts_with p s = true <-> exists t, s = p ++ t.
Proof.
  unfold starts_with. rewrite bool_decide_eq_true. split.
  - intros Ht. exists (drop (length p) s). by rewrite <- Ht at 1; rewrite take_drop.
  - intros [t ->]. by rewrite take_app_length.
Qed.

Lemma is_in_spec p s : is_in p s = true <-> exists a b, s = a ++ p ++ b.
Proof.
  induction s as [|c s IH]; cbn [is_in].
  - rewrite orb_false_r, starts_with_spec. split; [intros [t E]; by exists [], t|]. intros (a&b&E). exists b. by destruct a.
  - rewrite orb_true_iff, starts_with_spec, IH. split.
    + intros [[t E]|(a&b&E)]; [by exists [], t|]. exists (c :: a), b. by rewrite E.
    + intros ([|x a]&b&E); [left; by exists b|]. right. injection E as -> E. by exists a, b.
Qed.

Lemma ends_with_spec p s : ends_with p s = true <-> exists t, s = t ++ p.
Proof.
  unfold ends_with. rewrite starts_with_spec. split; intros [t Ht].
  - exists (rev t). rewrite <- (rev_involutive s), Ht, rev_app_distr, rev_involutive. done.
  - exists (rev t). by rewrite Ht, rev_app_distr.
Qed.

Lemma str_ltb_irrefl a : str_ltb a a = false.
Proof. induction a as [|x a IH]; cbn; [done|]. by rewrite Z.ltb_irrefl, IH, andb_false_r. Qed.

Lemma str_ltb_trans a b c : str_ltb a b = true -> str_ltb b c = true -> str_ltb a c = true.
Proof.
  revert b c. induction a as [|x a IH]; intros [|y b] [|z c]; cbn; try done.
  rewrite !orb_true_iff, !andb_true_iff, !Z.ltb_lt, !Z.eqb_eq. intros [?|[-> ?]] [?|[-> ?]]; eauto with lia.

Qed.

Lemma str_ltb_total a b : str_ltb a b = false -> str_ltb b a = false -> a = b.
Proof.
  revert b. induction a as [|x a IH]; intros [|y b]; cbn; try done.
  rewrite !orb_false_iff, !Z.ltb_ge. intros [H1 H2] [H3 H4]. assert (x = y) as -> by lia.
  rewrite Z.eqb_refl in *. cbn in *. f_equal. by apply IH.
Qed.

#[export] Instance pair_le_total : Total pair_le.
Proof.
  intros [a b] [c d]. unfold pair_le, pair_ltb. cbn. destruct (str_ltb a c) eqn:H1, (str_ltb c a) eqn:H2; cbn; auto.
  - pose proof (str_ltb_trans _ _ _ H1 H2) as H. by rewrite str_ltb_irrefl in H.
  - left. rewrite bool_decide_false; [done|]. intros ->. by rewrite str_ltb_irrefl in H1.
  - right. rewrite bool_decide_false; [done|]. intros ->. by rewrite str_ltb_irrefl in H2.
  - rewrite (str_ltb_total _ _ H1 H2), !bool_decide_true by done. cbn.
    destruct (str_ltb b d) eqn:H3; [|auto]. destruct (str_ltb d b) eqn:H4; [|auto].
    pose proof (str_ltb_trans _ _ _ H3 H4) as H. by rewrite str_ltb_irrefl in H.
Qed.

Lemma pair_le_spec a b : pair_le a b <-> str_ltb a.1 b.1 = true \/ (a.1 = b.1 /\ str_ltb b.2 a.2 = false).
Proof.
  unfold pair_le, pair_ltb. rewrite orb_false_iff, andb_false_iff, bool_decide_eq_false. split.
  - intros [H1 [H2|H2]].
    + left. destruct (str_ltb a.1 b.1) eqn:E; [done|]. by destruct H2; symmetry; apply str_ltb_total.
    + destruct (str_ltb a.1 b.1) eqn:E; [by left|]. right. split; [by apply str_ltb_total|done].
  - intros [H|[H1 H2]].
    + assert (a.1 ≠ b.1) as Hne by (intros He; by rewrite He, str_ltb_irrefl in H).
      split; [|by left]. destruct (str_ltb b.1 a.1) eqn:E; [|done].
      pose proof (str_ltb_trans _ _ _ H E) as Hc. by rewrite str_ltb_irrefl in Hc.
    + rewrite H1, str_ltb_irrefl. auto.
Qed.

Lemma str_ltb_cotrans a b c : str_ltb b a = false -> str_ltb c b = false -> str_ltb c a = false.
Proof.
  intros H1 H2. destruct (str_ltb c a) eqn:H3; [|done]. destruct (str_ltb a b) eqn:H4.
  - pose proof (str_ltb_trans _ _ _ H3 H4). congruence.
  - pose proof (str_ltb_total _ _ H4 H1). congruence.
Qed.

#[export] Instance pair_le_trans : Transitive pair_le.
Proof.
  intros a b c. rewrite !pair_le_spec. intros [H1|[H1 H1']] [H2|[H2 H2']].
  - left. by eapply str_ltb_trans.
  - left. congruence.
  - left. congruence.
  - right. split; [congruence|]. by eapply str_ltb_cotrans.
Qed.

#[export] Instance pair_le_antisymm : AntiSymm (=) pair_le.
Proof.
  intros [a b] [c d]. rewrite !pair_le_spec. cbn. intros [H1|[H1 H1']] [H2|[H2 H2']].
  - pose proof (str_ltb_trans _ _ _ H1 H2) as H. by rewrite str_ltb_irrefl in H.
  - by rewrite H2, str_ltb_irrefl in H1.
  - by rewrite H1, str_ltb_irrefl in H2.
  - rewrite H1. f_equal. by apply str_ltb_total.
Qed.
