(* ===== verification/Utf8.v ===== *)
(** * Utf8: Python's strict UTF-8 codec.

    [str.encode()] and [bytes.decode()] of the standard library, used by the
    egress gate, the answering service and the envelope codec.  Both errors are
    subclasses of [ValueError].  A decoder inverts the encoder, so encodings
    are self-delimiting. *)

From S2P Require Import Prelude.

Definition is_surrogate (c : Z) : bool := (55296 <=? c) && (c <=? 57343).
Definition is_scalar (c : Z) : bool := (0 <=? c) && (c <=? 1114111) && negb (is_surrogate c).

Definition utf8_char (c : Z) : pybytes :=
  if c <? 128 then [c]
  else if c <? 2048 then [192 + c / 64; 128 + c mod 64]
  else if c <? 65536 then [224 + c / 4096; 128 + c / 64 mod 64; 128 + c mod 64]
  else [240 + c / 262144; 128 + c / 4096 mod 64; 128 + c / 64 mod 64; 128 + c mod 64].

(** [s.encode("utf-8")] *)
Fixpoint utf8_encode (s : pystr) : result pybytes :=
  match s with
  | [] => mret []
  | c :: s' =>
      _ ← throw_if (negb (is_scalar c)) ValueError;
      b ← utf8_encode s';
      mret (utf8_char c ++ b)
  end.

Definition is_continuation (b : Z) : bool := (128 <=? b) && (b <? 192).

(** [b.decode("utf-8")] *)
Fixpoint utf8_decode (b : pybytes) : result pystr :=
  match b with
  | [] => mret []
  | b0 :: r0 =>
      if (0 <=? b0) && (b0 <? 128) then s ← utf8_decode r0; mret (b0 :: s)
      else match r0 with
      | [] => Raise ValueError
      | b1 :: r1 =>
          if negb (is_continuation b1) then Raise ValueError
          else if (192 <=? b0) && (b0 <? 224) then
            let c := (b0 - 192) * 64 + (b1 - 128) in
            if c <? 128 then Raise ValueError else s ← utf8_decode r1; mret (c :: s)
          else match r1 with
          | [] => Raise ValueError
          | b2 :: r2 =>
              if negb (is_continuation b2) then Raise ValueError
              else if (224 <=? b0) && (b0 <? 240) then
                let c := (b0 - 224) * 4096 + (b1 - 128) * 64 + (b2 - 128) in
                if (c <? 2048) || is_surrogate c then Raise ValueError
                else s ← utf8_decode r2; mret (c :: s)
              else match r2 with
              | [] => Raise ValueError
              | b3 :: r3 =>
                  if negb (is_continuation b3) then Raise ValueError
                  else if (240 <=? b0) && (b0 <? 248) then
                    let c := (b0 - 240) * 262144 + (b1 - 128) * 4096 + (b2 - 128) * 64 + (b3 - 128) in
                    if (c <? 65536) || (1114111 <? c) then Raise ValueError
                    else s ← utf8_decode r3; mret (c :: s)
                  else Raise ValueError
              end
          end
      end
  end.

Example utf8_ex : utf8_encode [97; 233; 8364; 128273] =
  Ok [97; 195; 169; 226; 130; 172; 240; 159; 148; 145].
Proof. reflexivity. Qed.
Example utf8_surrogate_ex : utf8_encode [97; 55300] = Raise ValueError.
Proof. reflexivity. Qed.

(** Evaluates the comparisons of a goal whose outcome [lia] can settle. *)
Ltac settle_bool :=
  repeat match goal with
  | |- context [?a <? ?b] =>
      first [rewrite (proj2 (Z.ltb_lt a b)) by lia | rewrite (proj2 (Z.ltb_ge a b)) by lia]
  | |- context [?a <=? ?b] =>
      first [rewrite (proj2 (Z.leb_le a b)) by lia | rewrite (proj2 (Z.leb_gt a b)) by lia]
  end; cbn [andb orb negb].

Lemma utf8_decode_char c rest s :
  is_scalar c = true -> utf8_decode rest = Ok s -> utf8_decode (utf8_char c ++ rest) = Ok (c :: s).
Proof.
  unfold is_scalar, utf8_char. intros Hc Hs. btauto_hyps.
  assert (Hsur : is_surrogate c = false) by done. unfold is_surrogate in Hsur.
  apply andb_false_iff in Hsur. rewrite Z.leb_gt, Z.leb_gt in Hsur.
  assert (Hd64 : c = 64 * (c / 64) + c mod 64) by (apply Z.div_mod; lia).
  assert (Hm : 0 <= c mod 64 < 64) by (apply Z.mod_pos_bound; lia).
  destruct (Z.ltb_spec c 128); [|destruct (Z.ltb_spec c 2048); [|destruct (Z.ltb_spec c 65536)]];
    cbn [app utf8_decode].
  - settle_bool. by rewrite Hs.
  - unfold is_continuation. settle_bool.
    replace ((192 + c / 64 - 192) * 64 + (128 + c mod 64 - 128)) with c by lia.
    settle_bool. by rewrite Hs.
  - assert (Hd : c / 64 = 64 * (c / 64 / 64) + c / 64 mod 64) by (apply Z.div_mod; lia).
    assert (0 <= c / 64 mod 64 < 64) by (apply Z.mod_pos_bound; lia).
    rewrite Z.div_div in Hd by lia. change (64 * 64) with 4096 in Hd.
    unfold is_continuation. settle_bool.
    replace ((224 + c / 4096 - 224) * 4096 + (128 + c / 64 mod 64 - 128) * 64 + (128 + c mod 64 - 128))
      with c by lia.
    unfold is_surrogate. destruct Hsur; settle_bool; by rewrite ?andb_false_r, Hs.
  - assert (Hd : c / 64 = 64 * (c / 64 / 64) + c / 64 mod 64) by (apply Z.div_mod; lia).
    assert (0 <= c / 64 mod 64 < 64) by (apply Z.mod_pos_bound; lia).
    rewrite Z.div_div in Hd by lia. change (64 * 64) with 4096 in Hd.
    assert (Hd2 : c / 4096 = 64 * (c / 4096 / 64) + c / 4096 mod 64) by (apply Z.div_mod; lia).
    assert (0 <= c / 4096 mod 64 < 64) by (apply Z.mod_pos_bound; lia).
    rewrite Z.div_div in Hd2 by lia. change (4096 * 64) with 262144 in Hd2.
    unfold is_continuation. settle_bool.
    replace ((240 + c / 262144 - 240) * 262144 + (128 + c / 4096 mod 64 - 128) * 4096 +
      (128 + c / 64 mod 64 - 128) * 64 + (128 + c mod 64 - 128)) with c by lia.
    settle_bool. by rewrite Hs.
Qed.

(** Decoding inverts encoding. *)
Lemma utf8_round_trip s b : utf8_encode s = Ok b -> utf8_decode b = Ok s.
Proof.
  revert b. induction s as [|c s IH]; intros b; cbn; [by intros [= <-]|].
  unfold throw_if. destruct (is_scalar c) eqn:Hc; cbn; [|done].
  destruct (utf8_encode s) as [b'|]; cbn; [|done]. intros [= <-].
  apply utf8_decode_char; [done|by apply IH].
Qed.

Lemma utf8_encode_inj s s' b : utf8_encode s = Ok b -> utf8_encode s' = Ok b -> s = s'.
Proof. intros H%utf8_round_trip H'%utf8_round_trip. congruence. Qed.

Lemma utf8_encode_ok s : utf8_encode s = Raise ValueError \/ exists b, utf8_encode s = Ok b.
Proof.
  induction s as [|c s IH]; cbn; [by eauto|]. unfold throw_if.
  destruct (is_scalar c); cbn; [|by left]. destruct IH as [->|[b ->]]; cbn; eauto.
Qed.

Lemma utf8_decode_errors b : value_error_only (utf8_decode b).
Proof.
  assert (Hret : forall c (r : result pystr), value_error_only r -> value_error_only (s ← r; mret (c :: s) : result pystr)) by (by intros c []).
  remember (length b) as n eqn:Hn. assert (Hle : (length b <= n)%nat) by lia. clear Hn.
  revert b Hle. induction n as [|n IH]; intros [|b0 r0] Hle; cbn in Hle; try lia; try done. cbn [utf8_decode].
  destruct (_ && _); [apply Hret, IH; lia|]. destruct r0 as [|b1 r1]; [done|]. cbn in Hle.
  destruct (negb _); [done|]. destruct (_ && _); [destruct (_ <? _); [done|apply Hret, IH; lia]|].
  destruct r1 as [|b2 r2]; [done|]. cbn in Hle. destruct (negb _); [done|].
  destruct (_ && _); [destruct (_ || _); [done|apply Hret, IH; lia]|].
  destruct r2 as [|b3 r3]; [done|]. cbn in Hle. destruct (negb _); [done|].
  destruct (_ && _); [destruct (_ || _); [done|apply Hret, IH; lia]|done].
Qed.
