(* ===== verification/PyFloat.v ===== *)
(** * PyFloat: Python's floats.

    A [float] is an IEEE 754 binary64 number, kept as the Standard Library's
    [spec_float] and computed with its rounding operations. *)

From Stdlib Require Export Floats.SpecFloat.
From S2P Require Import Prelude.

Abbreviation pyfloat := spec_float (only parsing).

Definition fmul (a b : spec_float) : spec_float := SFmul 53 1024 a b.
Definition fdiv (a b : spec_float) : spec_float := SFdiv 53 1024 a b.
Definition fopp (a : spec_float) : spec_float := SFopp a.
Definition flt (a b : spec_float) : bool := SFltb a b.
Definition fle (a b : spec_float) : bool := SFleb a b.
Definition feq (a b : spec_float) : bool := SFeqb a b.

(** [max(a, b)] *)
Definition fmax (a b : spec_float) : spec_float := if flt a b then b else a.

(** [float(n)] of an integer below 2^1024 *)
Definition float_of (n : Z) : spec_float := binary_normalize 53 1024 n 0 false.

(** The literal [n / 10^k]. *)
Definition dec (n k : Z) : spec_float := fdiv (float_of n) (float_of (10 ^ k)).

(** [int(x)]: truncation; infinities and NaN raise. *)
Definition int_of (x : spec_float) : result Z :=
  match x with
  | S754_zero _ => Ok 0
  | S754_infinity _ => Raise OverflowError
  | S754_nan => Raise ValueError
  | S754_finite s m e =>
      let magnitude := if 0 <=? e then Zpos m * 2 ^ e else Zpos m / 2 ^ (- e) in
      Ok (if s then - magnitude else magnitude)
  end.

#[export] Instance spec_float_eq_dec : EqDecision spec_float.
Proof. solve_decision. Defined.

Example int_of_ex : int_of (fmul (dec 25 2) (float_of 1000000000)) = Ok 250000000.
Proof. vm_compute. reflexivity. Qed.
Example float_cmp_ex :
  (flt (float_of 0) (dec 5 1), fle (fdiv (float_of 4) (float_of 64)) (dec 5 2), flt (float_of 0) S754_nan)
  = (true, false, false).
Proof. vm_compute. reflexivity. Qed.

Lemma pos_compare_cont_swap m n : Pos.compare_cont Eq n m = CompOpp (Pos.compare_cont Eq m n).
Proof. apply (Pos.compare_antisym m n). Qed.

(** IEEE comparison is antisymmetric, NaN included. *)
Lemma SFcompare_swap a b :
  SFcompare b a = match SFcompare a b with Some c => Some (CompOpp c) | None => None end.
Proof.
  destruct a as [[]|[]| |[] m e], b as [[]|[]| |[] n f]; try reflexivity; cbn;
    rewrite (Z.compare_antisym e f); destruct (e ?= f); cbn; try reflexivity;
    rewrite (pos_compare_cont_swap m n); by destruct (Pos.compare_cont Eq m n).
Qed.

Lemma flt_asym a b : flt a b = true -> flt b a = false.
Proof. unfold flt, SFltb. rewrite (SFcompare_swap a b). by destruct (SFcompare a b) as [[]|]. Qed.

Lemma feq_sym a b : feq b a = feq a b.
Proof. unfold feq, SFeqb. rewrite (SFcompare_swap a b). by destruct (SFcompare a b) as [[]|]. Qed.

(** Between numbers, one of the three holds. *)
Lemma fle_flt a b : fle a b = flt a b || feq a b.
Proof. unfold fle, flt, feq, SFleb, SFltb, SFeqb. by destruct (SFcompare a b) as [[]|]. Qed.

Lemma fle_fmax_r a b : fle b b = true -> fle b (fmax a b) = true \/ fmax a b = a.
Proof. unfold fmax. destruct (flt a b); auto. Qed.

(** [a / b] on integers, [b] positive: the exact quotient, rounded once. *)
Definition int_div (a b : Z) : spec_float :=
  match a with
  | Z0 => S754_zero false
  | _ => let '(m, e, l) := SFdiv_core_binary 53 1024 (Z.abs a) 0 b 0 in binary_round_aux 53 1024 (a <? 0) m e l
  end.

(** [math.isfinite(x)] *)
Definition is_finite (x : spec_float) : bool :=
  match x with S754_zero _ | S754_finite _ _ _ => true | _ => false end.

Example int_div_ex :
  (int_div 0 7, int_div (-2000001) 1000000, int_div 4503599627370497 3)
  = (S754_zero false, fopp (dec 2000001 6), fdiv (float_of 4503599627370497) (float_of 3)).
Proof. vm_compute. reflexivity. Qed.

(** ** Sums *)

Definition fadd (a b : spec_float) : spec_float := SFadd 53 1024 a b.
Definition fsub (a b : spec_float) : spec_float := SFsub 53 1024 a b.
Definition fabs (a : spec_float) : spec_float := SFabs a.
(** [min(a, b)] *)
Definition fmin (a b : spec_float) : spec_float := if flt b a then b else a.
(** [math.sqrt(x)] of an [x] that is not negative *)
Definition fsqrt (x : spec_float) : spec_float := SFsqrt 53 1024 x.

(** One step of the interpreter's compensated sum, and its end. *)
Definition sum_step (acc : spec_float * spec_float) (x : spec_float) : spec_float * spec_float :=
  let '(hi, lo) := acc in
  let t := fadd hi x in
  let c := if fle (fabs x) (fabs hi) then fadd (fsub hi t) x else fadd (fsub x t) hi in
  (t, fadd lo c).
Definition sum_end (acc : spec_float * spec_float) : spec_float :=
  let '(hi, lo) := acc in
  if negb (feq lo (float_of 0)) && is_finite lo then fadd hi lo else hi.

(** [sum(xs)] of floats; the empty sum is the integer 0, here a zero. *)
Definition fsum (xs : list spec_float) : spec_float :=
  match xs with
  | [] => float_of 0
  | x :: xs' => sum_end (foldl sum_step (fadd (float_of 0) x, float_of 0) xs')
  end.

Example fsum_ex : fsum (replicate 10 (dec 1 1)) = float_of 1 /\ fsqrt (float_of 2) = dec 14142135623730951 16.
Proof. vm_compute. split; reflexivity. Qed.
