(* ===== verification/Json.v ===== *)
(** * Json: Python's [json] module.

    [json.loads] on a string (the scanner's grammar, escapes and error cases;
    every error is a subclass of [ValueError]) with its [object_pairs_hook],
    and [json.dumps] with [sort_keys] and compact separators.  A float is kept
    as its literal.  The scanner recurses on fuel, twice the length of its
    input, which [loads_total] shows to be enough; the interpreter's own
    recursion limit is not modelled. *)

From stdpp Require Import sorting.
From S2P Require Import Prelude PyStr Utf8.

Inductive json :=
  | JNull
  | JBool (b : bool)
  | JInt (n : Z)
  | JFloat (literal : pystr)
  | JStr (s : pystr)
  | JList (l : list json)
  | JDict (d : list (pystr * json)).

(** [d.get(key)] *)
Definition dict_get (d : list (pystr * json)) (key : pystr) : option json :=
  snd <$> (snd <$> list_find (fun kv => kv.1 = key) d).

(** [d[key] = value]: an existing key keeps its place. *)
Fixpoint dict_set (d : list (pystr * json)) (key : pystr) (value : json) : list (pystr * json) :=
  match d with
  | [] => [(key, value)]
  | (k, v) :: d' => if bool_decide (k = key) then (k, value) :: d' else (k, v) :: dict_set d' key value
  end.

(** Without a hook: [dict(pairs)]. *)
Definition dict_of_pairs (pairs : list (pystr * json)) : json :=
  JDict (foldl (fun d kv => dict_set d kv.1 kv.2) [] pairs).

(** [set(d) == names] *)
Definition has_keys (d : list (pystr * json)) (names : list pystr) : bool :=
  forallb (fun n => bool_decide (n ∈ d.*1)) names && forallb (fun k => bool_decide (k ∈ names)) d.*1.

(** ** Scanning *)

Definition is_json_space (c : Z) : bool := bool_decide (c ∈ [32; 9; 10; 13]).
Definition skip_space (s : pystr) : pystr := drop_while is_json_space s.

Definition hex_value (c : Z) : option Z :=
  if (48 <=? c) && (c <=? 57) then Some (c - 48)
  else if (97 <=? c) && (c <=? 102) then Some (c - 87)
  else if (65 <=? c) && (c <=? 70) then Some (c - 55)
  else None.
Definition hex4 (a b c d : Z) : option Z :=
  a ← hex_value a; b ← hex_value b; c ← hex_value c; d ← hex_value d;
  Some (a * 4096 + b * 256 + c * 16 + d).

Definition simple_escape (c : Z) : option Z :=
  if c =? 34 then Some 34 else if c =? 92 then Some 92 else if c =? 47 then Some 47
  else if c =? 98 then Some 8 else if c =? 102 then Some 12 else if c =? 110 then Some 10
  else if c =? 114 then Some 13 else if c =? 116 then Some 9 else None.

Definition is_high_surrogate (c : Z) : bool := (55296 <=? c) && (c <=? 56319).
Definition is_low_surrogate (c : Z) : bool := (56320 <=? c) && (c <=? 57343).
Definition join_surrogates (hi lo : Z) : Z := 65536 + (hi - 55296) * 1024 + (lo - 56320).

(** The low surrogate an escape at the head of [s] denotes, and what follows. *)
Definition low_escape (s : pystr) : option Z :=
  match s with
  | b :: v :: e1 :: e2 :: e3 :: e4 :: _ =>
      if (b =? 92) && (v =? 117) then
        match hex4 e1 e2 e3 e4 with
        | Some lo => if is_low_surrogate lo then Some lo else None
        | None => None
        end
      else None
  | _ => None
  end.

(** After the opening quote: the string and the input after the closing one. *)
Fixpoint scan_string (s : pystr) : result (pystr * pystr) :=
  match s with
  | [] => Raise ValueError
  | c :: s1 =>
      if c =? 34 then mret ([], s1)
      else if c =? 92 then
        match s1 with
        | [] => Raise ValueError
        | e :: s2 =>
            if e =? 117 then
              match s2 with
              | d1 :: d2 :: d3 :: d4 :: s3 =>
                  match hex4 d1 d2 d3 d4 with
                  | None => Raise ValueError
                  | Some hi =>
                      match (if is_high_surrogate hi then low_escape s3 else None) with
                      | Some lo =>
                          match s3 with
                          | _ :: _ :: _ :: _ :: _ :: _ :: s4 =>
                              p ← scan_string s4; mret (join_surrogates hi lo :: p.1, p.2)
                          | _ => Raise ValueError
                          end
                      | None => p ← scan_string s3; mret (hi :: p.1, p.2)
                      end
                  end
              | _ => Raise ValueError
              end
            else match simple_escape e with
                 | Some ch => p ← scan_string s2; mret (ch :: p.1, p.2)
                 | None => Raise ValueError
                 end
        end
      else if c <? 32 then Raise ValueError
      else p ← scan_string s1; mret (c :: p.1, p.2)
  end.

Definition is_digit (c : Z) : bool := (48 <=? c) && (c <=? 57).
Fixpoint span_digits (s : pystr) : pystr * pystr :=
  match s with
  | c :: s' => if is_digit c then let p := span_digits s' in (c :: p.1, p.2) else ([], s)
  | [] => ([], [])
  end.

Definition digits_value (ds : pystr) : Z := foldl (fun acc d => acc * 10 + (d - 48)) 0 ds.

(** What a caller sees of a decoding: the error for an integer of too many
    digits, a [ValueError] that is not the scanner's own [JSONDecodeError];
    and [object_pairs_hook]. *)
Record decoder := { digits_error : exn; hook : list (pystr * json) -> result json }.

Section Scanner.
Variable dec : decoder.

(** [int(literal)] of a decimal literal: more than 4300 digits are refused. *)
Definition MAX_INT_DIGITS : Z := 4300.
Definition int_of_literal (negative : bool) (ds : pystr) : result json :=
  _ ← throw_if (MAX_INT_DIGITS <? zlen ds) (digits_error dec);
  mret (JInt (if negative then - digits_value ds else digits_value ds)).

(** The fraction and the exponent that follow an integer part, if any. *)
Definition span_fraction (s : pystr) : pystr * pystr :=
  match s with
  | c :: s' => if c =? 46 then match span_digits s' with ([], _) => ([], s) | (ds, r) => (c :: ds, r) end else ([], s)
  | [] => ([], [])
  end.
Definition span_exponent (s : pystr) : pystr * pystr :=
  match s with
  | c :: s' =>
      if (c =? 101) || (c =? 69) then
        match s' with
        | g :: s'' =>
            if (g =? 43) || (g =? 45)
            then match span_digits s'' with ([], _) => ([], s) | (ds, r) => (c :: g :: ds, r) end
            else match span_digits s' with ([], _) => ([], s) | (ds, r) => (c :: ds, r) end
        | [] => ([], s)
        end
      else ([], s)
  | [] => ([], [])
  end.

(** [0|[1-9][0-9]*] *)
Definition span_integer (s : pystr) : pystr * pystr :=
  match s with
  | c :: s' => if c =? 48 then ([c], s') else span_digits s
  | [] => ([], [])
  end.

(** [None] when no number starts here. *)
Definition scan_number (s : pystr) : option (result json * pystr) :=
  let '(negative, s1) := match s with c :: s' => if c =? 45 then (true, s') else (false, s) | [] => (false, s) end in
  let '(integer, s2) := span_integer s1 in
  match integer with
  | [] => None
  | _ =>
      let '(fraction, s3) := span_fraction s2 in
      let '(exponent, s4) := span_exponent s3 in
      match fraction, exponent with
      | [], [] => Some (int_of_literal negative integer, s4)
      | _, _ => Some (Ok (JFloat ((if negative then [45] else []) ++ integer ++ fraction ++ exponent)), s4)
      end
  end.

Definition scan_word (word : pystr) (value : json) (s : pystr) (otherwise : result (json * pystr)) : result (json * pystr) :=
  if starts_with word s then mret (value, drop (length word) s) else otherwise.

Definition scan_atom (s : pystr) : result (json * pystr) :=
  scan_word (u "null") JNull s (scan_word (u "true") (JBool true) s (scan_word (u "false") (JBool false) s
  (scan_word (u "NaN") (JFloat (u "NaN")) s (scan_word (u "Infinity") (JFloat (u "Infinity")) s
  (scan_word (u "-Infinity") (JFloat (u "-Infinity")) s
    match scan_number s with
    | Some (Ok j, rest) => mret (j, rest)
    | Some (Raise e, _) => Raise e
    | None => Raise ValueError
    end))))).

(** Raised when the fuel runs out; [loads_total] excludes it. *)
Definition OutOfFuel : exn := External 99.

Fixpoint scan_once (fuel : nat) (s : pystr) : result (json * pystr) :=
  match fuel with
  | O => Raise OutOfFuel
  | S fuel' =>
      match s with
      | [] => Raise ValueError
      | c :: s1 =>
          if c =? 34 then p ← scan_string s1; mret (JStr p.1, p.2)
          else if c =? 123 then
            match skip_space s1 with
            | c' :: s2 =>
                if c' =? 125 then j ← hook dec []; mret (j, s2)
                else if c' =? 34 then scan_members fuel' s2 []
                else Raise ValueError
            | [] => Raise ValueError
            end
          else if c =? 91 then
            match skip_space s1 with
            | c' :: s2 => if c' =? 93 then mret (JList [], s2) else scan_elements fuel' (c' :: s2) []
            | [] => Raise ValueError
            end
          else scan_atom s
      end
  end
(** After the opening quote of a key; [acc] holds the earlier pairs. *)
with scan_members (fuel : nat) (s : pystr) (acc : list (pystr * json)) : result (json * pystr) :=
  match fuel with
  | O => Raise OutOfFuel
  | S fuel' =>
      key ← scan_string s;
      match skip_space key.2 with
      | colon :: s1 =>
          if colon =? 58 then
            value ← scan_once fuel' (skip_space s1);
            let acc := acc ++ [(key.1, value.1)] in
            match skip_space value.2 with
            | c :: s2 =>
                if c =? 125 then j ← hook dec acc; mret (j, s2)
                else if c =? 44 then
                  match skip_space s2 with
                  | q :: s3 => if q =? 34 then scan_members fuel' s3 acc else Raise ValueError
                  | [] => Raise ValueError
                  end
                else Raise ValueError
            | [] => Raise ValueError
            end
          else Raise ValueError
      | [] => Raise ValueError
      end
  end
with scan_elements (fuel : nat) (s : pystr) (acc : list json) : result (json * pystr) :=
  match fuel with
  | O => Raise OutOfFuel
  | S fuel' =>
      value ← scan_once fuel' s;
      let acc := acc ++ [value.1] in
      match skip_space value.2 with
      | c :: s1 =>
          if c =? 93 then mret (JList acc, s1)
          else if c =? 44 then scan_elements fuel' (skip_space s1) acc
          else Raise ValueError
      | [] => Raise ValueError
      end
  end.

(** [json.loads(s, object_pairs_hook=hook)] *)
Definition loads (s : pystr) : result json :=
  _ ← throw_if (starts_with [65279] s) ValueError;
  p ← scan_once (2 * length s + 2) (skip_space s);
  match skip_space p.2 with
  | [] => mret p.1
  | _ => Raise ValueError
  end.
End Scanner.

Definition dict_decoder : decoder := {| digits_error := ValueError; hook pairs := Ok (dict_of_pairs pairs) |}.
Definition loads_dict : pystr -> result json := loads dict_decoder.

(** For callers that tell the two errors apart: an integer of too many digits
    raises a [ValueError] that is no [JSONDecodeError]. *)
Definition TooManyDigits : exn := External 11.
Definition header_decoder : decoder := {| digits_error := TooManyDigits; hook pairs := Ok (dict_of_pairs pairs) |}.

(** *** Bytes *)

Section Bytes.
(** What [json.loads] makes of bytes it does not take for UTF-8 or that are
    not strictly UTF-8, and whether a literal with a point equals 1. *)
Variable loads_other : pybytes -> result json.
Variable float_is_one : pystr -> bool.

(** [json.detect_encoding] answers UTF-8 for bytes that start so. *)
Definition starts_as_utf8 (b : pybytes) : bool :=
  match b with
  | b0 :: b1 :: _ => negb (b0 =? 0) && negb (b1 =? 0) && negb (bool_decide (b0 ∈ [239; 254; 255]))
  | _ => false
  end.
Definition loads_bytes (b : pybytes) : result json :=
  if starts_as_utf8 b then
    match utf8_decode b with Ok text => loads_dict text | Raise _ => loads_other b end
  else loads_other b.

(** [value == 1] *)
Definition equals_one (j : json) : bool :=
  match j with
  | JInt n => n =? 1
  | JBool b => b
  | JFloat literal => float_is_one literal
  | _ => false
  end.
End Bytes.

(** ** Printing *)

Definition hex_char (n : Z) : Z := if n <? 10 then 48 + n else 87 + n.
(** [f"\u{n:04x}"] *)
Definition escape_unit (n : Z) : pystr :=
  [92; 117; hex_char (n / 4096); hex_char (n / 256 mod 16); hex_char (n / 16 mod 16); hex_char (n mod 16)].

(** [ensure_ascii]: what is not printable ASCII is escaped. *)
Definition escape_char (c : Z) : pystr :=
  if c =? 34 then [92; 34] else if c =? 92 then [92; 92] else if c =? 10 then [92; 110]
  else if c =? 13 then [92; 114] else if c =? 9 then [92; 116] else if c =? 12 then [92; 102]
  else if c =? 8 then [92; 98]
  else if (32 <=? c) && (c <=? 126) then [c]
  else if c <? 65536 then escape_unit c
  else escape_unit (55296 + (c - 65536) / 1024) ++ escape_unit (56320 + (c - 65536) mod 1024).
Definition dumps_string (s : pystr) : pystr := 34 :: mjoin (escape_char <$> s) ++ [34].

Definition dumps_int (n : Z) : result pystr :=
  _ ← throw_if (MAX_INT_DIGITS <? zlen (str_of_nonneg (Z.abs n))) ValueError;
  mret (str_of_int n).

Definition dumps_item (item : pystr * pystr) : pystr := dumps_string item.1 ++ 58 :: item.2.

(** [json.dumps(j, sort_keys=True, separators=(",", ":"))] *)
Fixpoint dumps (j : json) : result pystr :=
  match j with
  | JNull => mret (u "null")
  | JBool b => mret (if b then u "true" else u "false")
  | JInt n => dumps_int n
  | JFloat literal => mret literal
  | JStr s => mret (dumps_string s)
  | JList l =>
      texts ← map_ok dumps l;
      mret (91 :: join 44 texts ++ [93])
  | JDict d =>
      items ← map_ok (fun '(k, j) => t ← dumps j; mret (k, t)) d;
      mret (123 :: join 44 (dumps_item <$> merge_sort pair_le items) ++ [125])
  end.

Example loads_ex : loads_dict (u "{ 'a' : [1, -20, 0.5e3, true], 'b':null} ") = Raise ValueError.
Proof. vm_compute. reflexivity. Qed.
(** ['] stands for the double quote below. *)
Definition requote (s : pystr) : pystr := (fun c => if c =? 39 then 34 else c) <$> s.
Example loads_ex2 : loads_dict (requote (u "{ 'a' : [1, -20, 0.5e3, true], 'b':null, 'a':'\u00e9\n\ud83d\ude00'} "))
  = Ok (JDict [(u "a", JStr [233; 10; 128512]); (u "b", JNull)]).
Proof. vm_compute. reflexivity. Qed.
Example loads_ex3 : map (fun s => is_ok (loads_dict (requote (u s))))
    ["[1,]"; "{'a':1,}"; "01"; "-"; "1.e5"; "[1]x"; "'\x'"; "nul"; "[[],{}]"; "-Infinity"]%string
  = [false; false; false; false; false; false; false; false; true; true].
Proof. vm_compute. reflexivity. Qed.
Example dumps_ex : dumps (JDict [(u "b", JList [JInt (-5); JNull]); (u "a", JStr [97; 34; 233; 128512])])
  = Ok (requote (u "{'a':'a\") ++ 34 :: requote (u "\u00e9\ud83d\ude00','b':[-5,null]}")).
Proof. vm_compute. reflexivity. Qed.
