(* ===== verification/JsonFacts.v ===== *)
(** * JsonFacts: the scanner is total and inverts the printer. *)

From stdpp Require Import sorting.
From S2P Require Import Prelude PyStr Utf8 Json.

(** ** The fuel is enough *)

Lemma drop_while_length f s : (length (drop_while f s) <= length s)%nat.
Proof. induction s as [|c s IH]; cbn; [done|]. destruct (f c); cbn; lia. Qed.

Lemma skip_space_length s : (length (skip_space s) <= length s)%nat.
Proof. apply drop_while_length. Qed.

Lemma skip_space_cons s c r : skip_space s = c :: r -> (length r < length s)%nat.
Proof. intros H. pose proof (skip_space_length s) as Hl. rewrite H in Hl. cbn in Hl. lia. Qed.

(** No error but [ValueError] and the decoder's own; a success leaves less
    input. *)
Definition load_error (dec : decoder) (e : exn) : Prop := e = ValueError \/ e = digits_error dec.
Definition advances {A} (dec : decoder) (s : pystr) (r : result (A * pystr)) : Prop :=
  match r with Ok p => (length p.2 < length s)%nat | Raise e => load_error dec e end.

Lemma scan_string_advances dec s : advances dec s (scan_string s).
Proof.
  assert (Hcons : forall (c : Z) (s s' : pystr) r, advances dec s' r -> (length s' <= length s)%nat ->
    advances dec s (p ← r; mret (c :: p.1, p.2))).
  { intros c s0 s' [[str rest]|e] Hr Hl; cbn in *; [lia|done]. }
  remember (length s) as n eqn:Hn. assert (Hle : (length s <= n)%nat) by lia. clear Hn.
  revert s Hle. induction n as [|n IH]; intros [|c s1] Hle; cbn in Hle; try lia; try by left.
  cbn [scan_string]. destruct (c =? 34); [cbn; lia|]. destruct (c =? 92).
  - destruct s1 as [|e s2]; [by left|]. cbn in Hle. destruct (e =? 117).
    + destruct s2 as [|d1 [|d2 [|d3 [|d4 s3]]]]; try by left. cbn in Hle.
      destruct (hex4 d1 d2 d3 d4) as [hi|]; [|by left].
      destruct (if is_high_surrogate hi then low_escape s3 else None) as [lo|].
      * destruct s3 as [|? [|? [|? [|? [|? [|? s4]]]]]]; try by left. cbn in Hle.
        eapply Hcons; [apply IH; lia|cbn; lia].
      * eapply Hcons; [apply IH; lia|cbn; lia].
    + destruct (simple_escape e); [|by left]. eapply Hcons; [apply IH; lia|cbn; lia].
  - destruct (c <? 32); [by left|]. eapply Hcons; [apply IH; lia|cbn; lia].
Qed.

Lemma span_digits_length s : length s = (length (span_digits s).1 + length (span_digits s).2)%nat.
Proof. induction s as [|c s IH]; cbn; [done|]. destruct (is_digit c); cbn; lia. Qed.

Lemma span_fraction_length s : (length (span_fraction s).2 <= length s)%nat.
Proof.
  unfold span_fraction. destruct s as [|c s]; [done|]. destruct (c =? 46); [|by left].
  pose proof (span_digits_length s). destruct (span_digits s) as [[|d ds] r]; cbn in *; lia.
Qed.

Lemma span_exponent_length s : (length (span_exponent s).2 <= length s)%nat.
Proof.
  unfold span_exponent. destruct s as [|c s]; [done|]. destruct (_ || _); [|by left]. destruct s as [|g s]; [done|].
  pose proof (span_digits_length s). pose proof (span_digits_length (g :: s)).
  destruct (_ || _); [destruct (span_digits s) as [[|d ds] r]|destruct (span_digits (g :: s)) as [[|d ds] r]]; cbn in *; lia.
Qed.

Section Advances.
Variable dec : decoder.
Hypothesis hook_errors : forall pairs, value_error_only (hook dec pairs).

Lemma int_of_literal_errors b ds : match int_of_literal dec b ds with Ok _ => True | Raise e => load_error dec e end.
Proof. unfold int_of_literal, throw_if. destruct (_ <? _); [by right|done]. Qed.

Lemma scan_number_advances s r rest :
  scan_number dec s = Some (r, rest) -> match r with Ok _ => True | Raise e => load_error dec e end /\ (length rest < length s)%nat.
Proof.
  unfold scan_number. intros H.
  destruct (match s with c :: s' => if c =? 45 then (true, s') else (false, s) | [] => (false, s) end) as [negative s1] eqn:H1.
  assert (Hl1 : (length s1 <= length s)%nat) by (destruct s as [|c s]; [|destruct (c =? 45)]; simplify_eq; cbn; lia).
  assert (Hl2 : (length (span_integer s1).1 + length (span_integer s1).2 = length s1)%nat).
  { unfold span_integer. destruct s1 as [|c s']; [done|]. destruct (c =? 48); [done|]. symmetry. apply span_digits_length. }
  destruct (span_integer s1) as [integer s2]. cbn [fst snd] in Hl2.
  destruct integer as [|d integer]; [done|]. cbn in Hl2.
  pose proof (span_fraction_length s2) as Hl3. destruct (span_fraction s2) as [fraction s3].
  pose proof (span_exponent_length s3) as Hl4. destruct (span_exponent s3) as [exponent s4]. cbn in Hl3, Hl4.
  pose proof (int_of_literal_errors negative (d :: integer)).
  destruct fraction, exponent; simplify_eq; (split; [done|lia]).
Qed.

Lemma scan_word_advances word value s otherwise :
  word ≠ [] -> advances dec s otherwise -> advances dec s (scan_word word value s otherwise).
Proof.
  intros Hw Ho. unfold scan_word. destruct (starts_with word s) eqn:E; [|done].
  apply starts_with_spec in E as [t ->]. cbn. rewrite length_drop, length_app. destruct word; cbn in *; [done|lia].
Qed.

Lemma scan_atom_advances s : advances dec s (scan_atom dec s).
Proof.
  unfold scan_atom. repeat (apply scan_word_advances; [discriminate|]).
  destruct (scan_number dec s) as [[[j|e] rest]|] eqn:E; [..|by left]; by apply scan_number_advances in E as [He Hl].
Qed.

Lemma hook_advances pairs s r : (length r < length s)%nat -> advances dec s (j ← hook dec pairs; mret (j, r)).
Proof. intros Hl. pose proof (hook_errors pairs). destruct (hook dec pairs); [done|by left]. Qed.

Lemma advances_bind {A B} s (m : result (A * pystr)) (k : A * pystr -> result (B * pystr)) :
  advances dec s m -> (forall p, m = Ok p -> (length p.2 < length s)%nat -> advances dec s (k p)) -> advances dec s (m ≫= k).
Proof. intros Hm Hk. destruct m as [p|e]; cbn in *; [by apply Hk|done]. Qed.

Lemma advances_mono {A} s s' (r : result (A * pystr)) : advances dec s' r -> (length s' <= length s)%nat -> advances dec s r.
Proof. destruct r as [p|e]; cbn; [lia|done]. Qed.

Lemma scan_fuel n :
  (forall s, (2 * length s + 1 <= n)%nat -> advances dec s (scan_once dec n s)) /\
  (forall s acc, (2 * length s + 2 <= n)%nat -> advances dec s (scan_members dec n s acc)) /\
  (forall s acc, (2 * length s + 2 <= n)%nat -> advances dec s (scan_elements dec n s acc)).
Proof.
  induction n as [|n (IHo&IHm&IHe)]; [split_and!; intros; lia|]. split_and!.
  - intros [|c s1] Hn; [by left|]. cbn in Hn. cbn [scan_once]. destruct (c =? 34).
    { apply advances_bind; [eapply advances_mono; [apply scan_string_advances|cbn; lia]|]. intros p _ Hp. done. }
    destruct (c =? 123).
    { destruct (skip_space s1) as [|c' s2] eqn:E; [by left|]. apply skip_space_cons in E.
      destruct (c' =? 125); [apply hook_advances; cbn; lia|]. destruct (c' =? 34); [|by left].
      eapply advances_mono; [apply IHm; lia|cbn; lia]. }
    destruct (c =? 91); [|apply scan_atom_advances].
    destruct (skip_space s1) as [|c' s2] eqn:E; [by left|]. apply skip_space_cons in E.
    destruct (c' =? 93); [cbn; lia|]. eapply advances_mono; [apply IHe; cbn; lia|cbn; lia].
  - intros s acc Hn. cbn [scan_members]. apply advances_bind; [apply scan_string_advances|]. intros key _ Hk.
    destruct (skip_space key.2) as [|colon s1] eqn:E1; [by left|]. apply skip_space_cons in E1.
    destruct (colon =? 58); [|by left]. pose proof (skip_space_length s1) as Hs1.
    apply advances_bind; [eapply advances_mono; [apply IHo; lia|lia]|]. intros value Hv _.
    assert (length value.2 < length (skip_space s1))%nat as Hv2.
    { pose proof (IHo (skip_space s1) ltac:(lia)) as Ha. by rewrite Hv in Ha. }
    destruct (skip_space value.2) as [|c s2] eqn:E2; [by left|]. apply skip_space_cons in E2.
    destruct (c =? 125); [apply hook_advances; lia|]. destruct (c =? 44); [|by left].
    destruct (skip_space s2) as [|q s3] eqn:E3; [by left|]. apply skip_space_cons in E3. destruct (q =? 34); [|by left].
    eapply advances_mono; [apply IHm; lia|lia].
  - intros s acc Hn. cbn [scan_elements]. apply advances_bind; [apply IHo; lia|]. intros value _ Hv.
    destruct (skip_space value.2) as [|c s1] eqn:E; [by left|]. apply skip_space_cons in E.
    destruct (c =? 93); [cbn; lia|]. destruct (c =? 44); [|by left]. pose proof (skip_space_length s1).
    eapply advances_mono; [apply IHe; lia|lia].
Qed.

(** Loading terminates, and never runs out of the fuel it is given. *)
Lemma loads_errors s e : loads dec s = Raise e -> load_error dec e.
Proof.
  unfold loads, throw_if. destruct (starts_with _ s); [intros [= <-]; by left|]. cbn [mbind result_bind].
  pose proof (skip_space_length s) as Hl. destruct (scan_fuel (2 * length s + 2)) as [Hs _].
  specialize (Hs (skip_space s) ltac:(lia)). destruct (scan_once _ _ _) as [p|e']; cbn in *; [|intros [= <-]; done].
  destruct (skip_space p.2); [done|]. intros [= <-]. by left.
Qed.

Lemma loads_total s : digits_error dec = ValueError -> value_error_only (loads dec s).
Proof. intros Hd. destruct (loads dec s) as [j|e] eqn:E; [done|]. apply loads_errors in E as [-> | ->]; [done|exact Hd]. Qed.
End Advances.

(** ** The scanner inverts the printer *)

Lemma hex_value_char n : 0 <= n < 16 -> hex_value (hex_char n) = Some n.
Proof.
  intros Hn. unfold hex_char, hex_value. destruct (Z.ltb_spec n 10); settle_bool; f_equal; lia.
Qed.

Lemma hex4_unit n :
  0 <= n < 65536 ->
  hex4 (hex_char (n / 4096)) (hex_char (n / 256 mod 16)) (hex_char (n / 16 mod 16)) (hex_char (n mod 16)) = Some n.
Proof.
  intros Hn. unfold hex4. assert (0 <= n / 4096 < 16) by (Z.to_euclidean_division_equations; lia).
  rewrite !hex_value_char by (try apply Z.mod_pos_bound; lia). cbn. f_equal.
  Z.to_euclidean_division_equations. lia.
Qed.

Lemma low_escape_unit n r : 0 <= n < 65536 -> is_low_surrogate n = true -> low_escape (escape_unit n ++ r) = Some n.
Proof. intros Hn Hl. unfold low_escape, escape_unit. cbn [app]. by rewrite hex4_unit, Hl. Qed.

(** What follows an escaped scalar is never taken for its second half. *)
Lemma scan_string_char c s :
  is_scalar c = true ->
  scan_string (escape_char c ++ s) = (p ← scan_string s; mret (c :: p.1, p.2)).
Proof.
  intros Hc. unfold is_scalar, is_surrogate in Hc. btauto_hyps.
  match goal with H : (_ && _) = false |- _ => apply andb_false_iff in H; rewrite !Z.leb_gt in H; rename H into Hsur end.
  unfold escape_char.
  repeat match goal with |- context [if ?a =? ?b then _ else _] => destruct (Z.eqb_spec a b) as [->|?]; [reflexivity|] end.
  destruct (Z.leb_spec 32 c), (Z.leb_spec c 126); cbn [andb].
  { cbn [app scan_string]. rewrite (proj2 (Z.eqb_neq c 34)), (proj2 (Z.eqb_neq c 92)), (proj2 (Z.ltb_ge c 32)) by lia. done. }
  all: destruct (Z.ltb_spec c 65536).
  all: try (unfold escape_unit; cbn [app scan_string]; rewrite hex4_unit by lia; cbn [Z.eqb Pos.eqb];
    change (117 =? 117) with true; change (92 =? 34) with false; change (92 =? 92) with true; cbn iota;
    assert (is_high_surrogate c = false) as -> by (unfold is_high_surrogate; destruct Hsur; settle_bool; rewrite ?andb_false_r; first [done|exfalso; lia]);
    done).
  all: try lia.
  assert (Hhi : 0 <= (c - 65536) / 1024 < 1024) by (Z.to_euclidean_division_equations; lia).
  assert (Hlo : 0 <= (c - 65536) mod 1024 < 1024) by (apply Z.mod_pos_bound; lia).
  rewrite <- (assoc_L (++)).
  assert (Hhs : is_high_surrogate (55296 + (c - 65536) / 1024) = true) by (unfold is_high_surrogate; by settle_bool).
  assert (Hls : is_low_surrogate (56320 + (c - 65536) mod 1024) = true) by (unfold is_low_surrogate; by settle_bool).
  unfold escape_unit at 1. cbn [app scan_string]. rewrite hex4_unit by lia.
  change (117 =? 117) with true; change (92 =? 34) with false; change (92 =? 92) with true; cbn iota.
  rewrite Hhs, low_escape_unit by (done || lia). unfold escape_unit at 1. cbn [app].
  assert (join_surrogates (55296 + (c - 65536) / 1024) (56320 + (c - 65536) mod 1024) = c) as ->; [|done].
  unfold join_surrogates. pose proof (Z.div_mod (c - 65536) 1024). lia.
Qed.

Lemma scan_string_escaped s rest :
  forallb is_scalar s = true -> scan_string (mjoin (escape_char <$> s) ++ 34 :: rest) = Ok (s, rest).
Proof.
  induction s as [|c s IH]; cbn [forallb]; [done|]. intros [Hc Hs]%andb_true_iff.
  change (mjoin (escape_char <$> c :: s)) with (escape_char c ++ mjoin (escape_char <$> s)).
  rewrite <- (assoc_L (++)), scan_string_char, IH by done. done.
Qed.

(** *** Numbers *)

Lemma digits_ok fuel n :
  0 <= n < 10 ^ Z.of_nat fuel -> (0 < fuel)%nat ->
  Forall (fun c => is_digit c = true) (digits fuel n) /\ digits_value (digits fuel n) = n /\
  (exists d ds, digits fuel n = d :: ds /\ (d = 48 -> ds = [] /\ n = 0)).
Proof.
  revert n. induction fuel as [|fuel IH]; intros n Hn Hpos; [lia|]. cbn [digits].
  assert (Hm : 0 <= n mod 10 < 10) by (apply Z.mod_pos_bound; lia).
  assert (Hdig : is_digit (48 + n mod 10) = true) by (unfold is_digit; by settle_bool).
  destruct (Z.ltb_spec n 10).
  - rewrite Z.mod_small by lia. rewrite Z.mod_small in Hdig by lia. cbn. split; [by constructor|].
    split; [unfold digits_value; cbn; lia|]. exists (48 + n), []. split; [done|]. intros ?. split; [done|lia].
  - assert (Hfuel : (0 < fuel)%nat).
    { destruct fuel; [|lia]. change (10 ^ Z.of_nat 1) with 10 in Hn. lia. }
    assert (Hd : 0 <= n / 10 < 10 ^ Z.of_nat fuel).
    { rewrite Nat2Z.inj_succ, Z.pow_succ_r in Hn by lia. split; [apply Z.div_pos; lia|apply Z.div_lt_upper_bound; lia]. }
    destruct (IH _ Hd Hfuel) as (Hf&Hv&d&ds&Hds&Hz). split; [apply Forall_app; split; [done|by constructor]|]. split.
    + unfold digits_value in *. rewrite foldl_app, Hv. cbn. pose proof (Z.div_mod n 10). lia.
    + exists d, (ds ++ [48 + n mod 10]). rewrite Hds. split; [done|]. intros H48. destruct (Hz H48) as [_ H0].
      assert (1 <= n / 10) by (apply Z.div_le_lower_bound; lia). lia.
Qed.

Lemma str_of_nonneg_ok n :
  0 <= n -> Forall (fun c => is_digit c = true) (str_of_nonneg n) /\ digits_value (str_of_nonneg n) = n /\
  (exists d ds, str_of_nonneg n = d :: ds /\ (d = 48 -> ds = [] /\ n = 0)).
Proof.
  intros Hn. apply digits_ok; [|lia]. split; [done|].
  destruct (Z.eq_dec n 0) as [->|Hne]; [done|].
  rewrite Nat2Z.inj_succ, Z2Nat.id by apply Z.log2_nonneg.
  apply (Z.lt_le_trans _ (2 ^ Z.succ (Z.log2 n))); [apply Z.log2_spec; lia|].
  apply Z.pow_le_mono_l. lia.
Qed.

(** What may follow a number in printed text. *)
Definition ends_number (s : pystr) : Prop :=
  match s with c :: _ => is_digit c = false /\ c ≠ 46 /\ c ≠ 101 /\ c ≠ 69 | [] => True end.

Lemma span_digits_all ds rest :
  Forall (fun c => is_digit c = true) ds -> ends_number rest -> span_digits (ds ++ rest) = (ds, rest).
Proof.
  intros Hds Hr. induction Hds as [|c ds Hc _ IH]; cbn.
  - destruct rest as [|c r]; [done|]. cbn. destruct Hr as [-> _]. done.
  - by rewrite Hc, IH.
Qed.

Lemma ends_fraction rest : ends_number rest -> span_fraction rest = ([], rest) /\ span_exponent rest = ([], rest).
Proof.
  destruct rest as [|c r]; [done|]. intros (_&H1&H2&H3). cbn.
  by rewrite (proj2 (Z.eqb_neq c 46)), (proj2 (Z.eqb_neq c 101)), (proj2 (Z.eqb_neq c 69)) by done.
Qed.

Section Scans.
Variable dec : decoder.
Hypothesis hook_dict : forall pairs, hook dec pairs = Ok (dict_of_pairs pairs).

Lemma scan_number_int n t rest :
  dumps_int n = Ok t -> ends_number rest -> scan_number dec (t ++ rest) = Some (Ok (JInt n), rest).
Proof.
  unfold dumps_int, str_of_int. intros H Hr. ok_steps. btauto_hyps.
  destruct (ends_fraction rest Hr) as [Hfr Hex].
  destruct (str_of_nonneg_ok (Z.abs n)) as (Hd&Hv&d&ds&Hs&Hz); [lia|].
  assert (Hscan : span_integer (str_of_nonneg (Z.abs n) ++ rest) = (str_of_nonneg (Z.abs n), rest)).
  { pose proof (span_digits_all _ rest Hd Hr) as Hall. rewrite Hs in *. cbn [app span_integer].
    destruct (Z.eqb_spec d 48) as [->|Hne]; [|done]. by destruct (Hz eq_refl) as [-> _]. }
  assert (Hint : forall negative : bool, n = (if negative then - Z.abs n else Z.abs n) ->
    int_of_literal dec negative (str_of_nonneg (Z.abs n)) = Ok (JInt n)).
  { intros negative Hn. unfold int_of_literal, throw_if. rewrite Hv, (proj2 (Z.ltb_ge _ _)) by done. by rewrite <- Hn. }
  assert (Hd48 : is_digit d = true) by (rewrite Hs in Hd; by apply Forall_cons in Hd as [? _]).
  unfold scan_number. destruct (Z.ltb_spec n 0).
  - rewrite Z.abs_neq in * by lia. cbn [app]. change (45 =? 45) with true. cbn iota.
    rewrite Hscan, Hs, Hfr, Hex, <- Hs, (Hint true) by (cbn; lia). done.
  - rewrite Z.abs_eq in * by lia. rewrite Hs. cbn [app].
    rewrite (proj2 (Z.eqb_neq d 45)) by (unfold is_digit in Hd48; btauto_hyps; lia).
    change (d :: ds ++ rest) with ((d :: ds) ++ rest). rewrite <- Hs, Hscan, Hs, Hfr, Hex, <- Hs, (Hint false) by (cbn; lia).
    done.
Qed.

(** *** Values *)

Section Induction.
Variable P : json -> Prop.
Hypothesis P_null : P JNull.
Hypothesis P_bool : forall b, P (JBool b).
Hypothesis P_int : forall n, P (JInt n).
Hypothesis P_float : forall l, P (JFloat l).
Hypothesis P_str : forall s, P (JStr s).
Hypothesis P_list : forall l, Forall P l -> P (JList l).
Hypothesis P_dict : forall d, Forall (fun kv => P kv.2) d -> P (JDict d).

(** Induction through the nested lists. *)
Fixpoint json_nested_ind (j : json) : P j :=
  match j with
  | JNull => P_null
  | JBool b => P_bool b
  | JInt n => P_int n
  | JFloat l => P_float l
  | JStr s => P_str s
  | JList l => P_list l ((fix all l : Forall P l := match l with
                         | [] => Forall_nil_2 _
                         | j :: l' => Forall_cons_2 _ j l' (json_nested_ind j) (all l')
                         end) l)
  | JDict d => P_dict d ((fix all d : Forall (fun kv => P kv.2) d := match d with
                         | [] => Forall_nil_2 _
                         | kv :: d' => Forall_cons_2 _ kv d' (json_nested_ind kv.2) (all d')
                         end) d)
  end.
End Induction.

Fixpoint sorted_keys (d : list (pystr * json)) : bool :=
  match d with
  | kv :: ((kv' :: _) as d') => str_ltb kv.1 kv'.1 && sorted_keys d'
  | _ => true
  end.

(** A literal the scanner takes for one float. *)
Definition float_text (l : pystr) : bool :=
  forallb (fun c => (0 <=? c) && (c <? 128)) l &&
  match scan_number dict_decoder l with Some (Ok (JFloat l'), []) => bool_decide (l' = l) | _ => false end.

(** What the printer's text determines: floats by their literals, no lone
    surrogates, the keys of each dictionary in their order. *)
Fixpoint printable (j : json) : bool :=
  match j with
  | JFloat l => float_text l
  | JStr s => forallb is_scalar s
  | JList l => forallb printable l
  | JDict d => forallb (fun kv => forallb is_scalar kv.1 && printable kv.2) d && sorted_keys d
  | _ => true
  end.

Lemma span_digits_app s rest ds r : span_digits s = (ds, r) -> ends_number rest -> span_digits (s ++ rest) = (ds, r ++ rest).
Proof.
  revert ds r. induction s as [|c s IH]; cbn; intros ds r H Hr.
  - injection H as <- <-. destruct rest as [|c rest]; [done|]. cbn. by destruct Hr as [-> _].
  - destruct (is_digit c); [|by injection H as <- <-]. destruct (span_digits s) as [ds' r'].
    injection H as <- <-. by rewrite (IH ds' r').
Qed.

Lemma span_integer_app s rest i r : span_integer s = (i, r) -> i <> [] -> ends_number rest ->
  span_integer (s ++ rest) = (i, r ++ rest).
Proof.
  destruct s as [|c s]; cbn [span_integer app]; [by intros [= <- <-]|]. destruct (c =? 48); [by intros [= <- <-]|].
  intros H _ Hr. by apply (span_digits_app (c :: s)).
Qed.

Lemma span_fraction_app s rest f r : span_fraction s = (f, r) -> ends_number rest -> span_fraction (s ++ rest) = (f, r ++ rest).
Proof.
  destruct s as [|c s]; intros H Hr.
  { injection H as <- <-. by apply ends_fraction. }
  cbn in *. destruct (c =? 46); [|by injection H as <- <-].
  destruct (span_digits s) as [ds r'] eqn:E. rewrite (span_digits_app s rest ds r') by done.
  destruct ds; by injection H as <- <-.
Qed.

Lemma span_exponent_app s rest e : span_exponent s = (e, []) -> ends_number rest -> span_exponent (s ++ rest) = (e, rest).
Proof.
  destruct s as [|c s]; intros H Hr.
  { injection H as <-. by apply ends_fraction. }
  cbn in *. destruct ((c =? 101) || (c =? 69)); [|done]. destruct s as [|g s]; [done|]. cbn [app].
  destruct ((g =? 43) || (g =? 45)).
  - destruct (span_digits s) as [ds r'] eqn:E. rewrite (span_digits_app s rest ds r') by done.
    destruct ds; [done|]. by injection H as <- ->.
  - destruct (span_digits (g :: s)) as [ds r'] eqn:E. change (g :: s ++ rest) with ((g :: s) ++ rest).
    rewrite (span_digits_app (g :: s) rest ds r') by done. destruct ds; [done|]. by injection H as <- ->.
Qed.

Lemma int_of_literal_int negative ds l : int_of_literal dec negative ds = Ok (JFloat l) -> False.
Proof. unfold int_of_literal, throw_if. by destruct (MAX_INT_DIGITS <? zlen ds). Qed.

(** No decoder reads a float otherwise. *)
Lemma scan_float_same l l' r : scan_number dict_decoder l = Some (Ok (JFloat l'), r) -> scan_number dec l = Some (Ok (JFloat l'), r).
Proof.
  unfold scan_number. destruct (match l with [] => _ | _ :: _ => _ end) as [negative s1].
  destruct (span_integer s1) as [[|d i] s2]; [done|]. destruct (span_fraction s2) as [f s3]. destruct (span_exponent s3) as [e s4].
  destruct f, e; [|done..]. unfold int_of_literal, throw_if. by destruct (_ <? _).
Qed.

Lemma scan_number_float l rest : float_text l = true -> ends_number rest -> scan_number dec (l ++ rest) = Some (Ok (JFloat l), rest).
Proof.
  unfold float_text. intros [_ H]%andb_true_iff Hr. destruct (scan_number dict_decoder l) as [[[j|] r]|] eqn:E; [|done..]. destruct j; try done.
  destruct r; [|done]. apply bool_decide_eq_true in H as ->. apply scan_float_same in E. revert E. unfold scan_number.
  set (split_sign := fun s : pystr => match s with c :: s' => if c =? 45 then (true, s') else (false, s) | [] => (false, s) end).
  change (match l with c :: s' => if c =? 45 then (true, s') else (false, l) | [] => (false, l) end) with (split_sign l).
  change (match l ++ rest with c :: s' => if c =? 45 then (true, s') else (false, l ++ rest) | [] => (false, l ++ rest) end)
    with (split_sign (l ++ rest)).
  destruct l as [|c l]; [done|].
  assert (Hs : split_sign ((c :: l) ++ rest) = ((split_sign (c :: l)).1, (split_sign (c :: l)).2 ++ rest)).
  { cbn. by destruct (c =? 45). }
  rewrite Hs. destruct (split_sign (c :: l)) as [negative s1]. cbn [fst snd].
  destruct (span_integer s1) as [i s2] eqn:E1. destruct i as [|d i]; [done|].
  rewrite (span_integer_app s1 rest (d :: i) s2) by done.
  destruct (span_fraction s2) as [f s3] eqn:E2. rewrite (span_fraction_app s2 rest f s3) by done.
  destruct (span_exponent s3) as [e s4] eqn:E3. intros H.
  assert (s4 = []) as -> by (destruct f, e; by injection H as ? ?).
  rewrite (span_exponent_app s3 rest e) by done.
  apply (f_equal (fun o => match o with Some (j, _) => Some (j, rest) | None => None end)) in H.
  destruct f as [|x f], e as [|y e]; [|exact H..].
  injection H as H. exfalso. by eapply int_of_literal_int.
Qed.

(** A float's literal begins with a digit or with a minus and a digit. *)
Lemma float_text_start l : float_text l = true ->
  exists d ds, is_digit d = true /\ (l = d :: ds \/ l = 45 :: d :: ds).
Proof.
  unfold float_text. intros [_ H]%andb_true_iff. destruct (scan_number dict_decoder l) as [[[j|] r]|] eqn:E; [|done..]. clear H.
  unfold scan_number in E. destruct l as [|c l]; [done|].
  assert (Hi : forall s i r, span_integer s = (i, r) -> i <> [] -> exists d ds, is_digit d = true /\ s = d :: ds).
  { intros s i r' Hs Hne. destruct s as [|d ds]; [by injection Hs as <- <-|]. exists d, ds. split; [|done].
    cbn in Hs. destruct (Z.eqb_spec d 48) as [->|]; [done|]. destruct (is_digit d); [done|]. by injection Hs as <- <-. }
  destruct (Z.eqb_spec c 45) as [->|Hc].
  - destruct (span_integer l) as [i s2] eqn:E1. destruct i as [|x i]; [done|].
    destruct (Hi l _ _ E1) as (d&ds&Hd&->); [done|]. exists d, ds. split; [done|by right].
  - destruct (span_integer (c :: l)) as [i s2] eqn:E1. destruct i as [|x i]; [done|].
    destruct (Hi _ _ _ E1) as (d&ds&Hd&E'); [done|]. exists d, ds. split; [done|by left].
Qed.

(** The first character of a printed value. *)
Definition starts_value (t : pystr) : Prop :=
  exists c t', t = c :: t' /\ is_json_space c = false /\ c ≠ 93 /\ c ≠ 65279.

Lemma starts_value_cons c t : is_json_space c = false -> c ≠ 93 /\ c ≠ 65279 -> starts_value (c :: t).
Proof. intros ??. by exists c, t. Qed.

Lemma dumps_starts j t : printable j = true -> dumps j = Ok t -> starts_value t.
Proof.
  destruct j as [|[]|n|l|s|l|d]; cbn [printable dumps]; intros Hp H; try done.
  - injection H as <-. apply starts_value_cons; [reflexivity|lia].
  - injection H as <-. apply starts_value_cons; [reflexivity|lia].
  - injection H as <-. apply starts_value_cons; [reflexivity|lia].
  - unfold dumps_int, str_of_int in H. ok_steps.
    destruct (Z.ltb_spec n 0); [apply starts_value_cons; [reflexivity|lia]|].
    destruct (str_of_nonneg_ok n) as (Hd&_&c&ds&Hs&_); [lia|]. rewrite Hs in *.
    apply Forall_cons in Hd as [Hc _]. unfold is_digit in Hc. btauto_hyps.
    apply starts_value_cons; [|lia]. apply bool_decide_eq_false. rewrite !elem_of_cons, elem_of_nil. lia.
  - injection H as <-. destruct (float_text_start l Hp) as (c&ds&Hc&[-> | ->]); [|apply starts_value_cons; [reflexivity|lia]].
    unfold is_digit in Hc. btauto_hyps.
    apply starts_value_cons; [|lia]. apply bool_decide_eq_false. rewrite !elem_of_cons, elem_of_nil. lia.
  - injection H as <-. apply starts_value_cons; [reflexivity|lia].
  - apply result_bind_ok in H as (?&_&[= <-]). apply starts_value_cons; [reflexivity|lia].
  - apply result_bind_ok in H as (?&_&[= <-]). apply starts_value_cons; [reflexivity|lia].
Qed.

Lemma skip_space_value t rest : starts_value t -> skip_space (t ++ rest) = t ++ rest.
Proof. intros (c&t'&->&Hc&_). unfold skip_space. cbn. by rewrite Hc. Qed.

Lemma ends_separator c r : c ∈ [44; 93; 125] -> ends_number (c :: r).
Proof. rewrite !elem_of_cons, elem_of_nil. intros [->|[->|[->|[]]]]; (split; [reflexivity|lia]). Qed.
Ltac separator := apply ends_separator; rewrite !elem_of_cons; lia.

(** A value's text is scanned back, whatever separator follows it. *)
Definition scans (j : json) : Prop :=
  forall t fuel rest, printable j = true -> dumps j = Ok t -> ends_number rest ->
    (2 * length (t ++ rest) + 1 <= fuel)%nat ->
    scan_once dec fuel (t ++ rest) = Ok (j, rest).

Lemma scan_elements_ok l texts acc fuel (rest : pystr) :
  l ≠ [] -> Forall scans l -> forallb printable l = true -> map_ok dumps l = Ok texts ->
  (2 * length (join 44%Z texts ++ 93%Z :: rest) + 2 <= fuel)%nat ->
  scan_elements dec fuel (join 44 texts ++ 93 :: rest) acc = Ok (JList (acc ++ l), rest).
Proof.
  intros Hne Hl. revert texts acc fuel Hne. induction Hl as [|j l Hj Hl IH]; intros texts acc fuel Hne Hp Ht Hfuel; [done|].
  cbn in Hp, Ht. apply andb_true_iff in Hp as [Hpj Hp].
  apply result_bind_ok in Ht as (t&Ht&H). apply result_bind_ok in H as (ts&Hts&[= <-]).
  destruct fuel as [|fuel]; [lia|]. destruct l as [|j' l].
  - cbn in Hts. injection Hts as <-. cbn [join] in *. cbn [scan_elements].
    rewrite (Hj t fuel (93 :: rest)); [done|done|done|separator|lia].
  - destruct ts as [|t' ts]; [apply map_ok_Forall2 in Hts; inversion Hts|].
    set (rest' := join 44 (t' :: ts) ++ 93 :: rest) in *.
    assert (Hrest : join 44 (t :: t' :: ts) ++ 93 :: rest = t ++ 44 :: rest').
    { unfold rest'. change (join 44 (t :: t' :: ts)) with (t ++ 44 :: join 44 (t' :: ts)).
      by rewrite <- (assoc_L (++)). }
    rewrite Hrest in *. cbn [scan_elements]. rewrite length_app in Hfuel. cbn [length] in Hfuel.
    rewrite (Hj t fuel (44 :: rest')); [|done|done|separator|rewrite length_app; cbn [length]; lia]. cbn [mbind result_bind fst snd].
    change (skip_space (44 :: rest')) with (44 :: rest'). change (44 =? 93) with false. change (44 =? 44) with true. cbn iota.
    assert (skip_space rest' = rest') as ->.
    { apply result_bind_ok in Hts as (t1&Ht1&H). apply result_bind_ok in H as (ts1&_&[= <- <-]). unfold rest'.
      assert (Hs : starts_value t1) by (eapply dumps_starts; [|exact Ht1]; by apply andb_true_iff in Hp as [? _]).
      destruct ts1; cbn [join]; [by apply skip_space_value|]. rewrite <- (assoc_L (++)). by apply skip_space_value. }
    unfold rest'. rewrite (IH (t' :: ts)); [by rewrite <- (assoc_L (++))|done|exact Hp|exact Hts|fold rest'; lia].
Qed.

(** The text of an item, from the opening quote of its key on. *)
Definition item_tail (kt : pystr * pystr) : pystr := mjoin (escape_char <$> kt.1) ++ 34 :: 58 :: kt.2.
Lemma dumps_item_tail kt : dumps_item kt = 34 :: item_tail kt.
Proof. unfold dumps_item, dumps_string, item_tail. cbn. f_equal. by rewrite <- (assoc_L (++)). Qed.

Lemma join_cons sep (p q : pystr) ps : join sep (p :: q :: ps) = p ++ sep :: join sep (q :: ps).
Proof. done. Qed.

Lemma scan_members_ok d items acc fuel (rest : pystr) tail :
  d ≠ [] -> Forall (fun kv => scans kv.2) d ->
  forallb (fun kv => forallb is_scalar kv.1 && printable kv.2) d = true ->
  map_ok (fun '(k, j) => t ← dumps j; mret (k, t)) d = Ok items ->
  join 44 (dumps_item <$> items) = 34 :: tail ->
  (2 * length (tail ++ 125%Z :: rest) + 2 <= fuel)%nat ->
  scan_members dec fuel (tail ++ 125 :: rest) acc = Ok (dict_of_pairs (acc ++ d), rest).
Proof.
  intros Hne Hd. revert items acc fuel tail Hne.
  induction Hd as [|[k j] d Hj Hd IH]; intros items acc fuel tail Hne Hp Ht Htail Hfuel; [done|]. cbn [snd] in Hj.
  cbn in Hp, Ht. apply andb_true_iff in Hp as [[Hk Hpj]%andb_true_iff Hp].
  apply result_bind_ok in Ht as (kt&Ht&H). apply result_bind_ok in Ht as (t&Ht&[= <-]).
  apply result_bind_ok in H as (ts&Hts&[= <-]). destruct fuel as [|fuel]; [lia|].
  destruct d as [|kv' d].
  - cbn in Hts. injection Hts as <-. cbn [fmap list_fmap join] in Htail. rewrite dumps_item_tail in Htail.
    injection Htail as <-. unfold item_tail in *. cbn [fst snd] in *. rewrite <- (assoc_L (++)) in *. cbn [app] in *.
    rewrite length_app in Hfuel. cbn [length] in Hfuel. cbn [scan_members].
    rewrite scan_string_escaped by done. cbn [mbind result_bind fst snd].
    change (skip_space (58 :: ?r)) with (58 :: r). cbn iota.
    rewrite skip_space_value by (eapply dumps_starts; eassumption). change (58 =? 58) with true. cbn iota.
    rewrite (Hj t fuel (125 :: rest)); [|done|done|separator|lia]. cbn [mbind result_bind fst snd].
    change (skip_space (125 :: ?r)) with (125 :: r). change (125 =? 125) with true. cbn iota. by rewrite hook_dict.
  - destruct ts as [|kt' ts]; [apply map_ok_Forall2 in Hts; inversion Hts|].
    rewrite !fmap_cons, join_cons, dumps_item_tail in Htail.
    assert (tail = item_tail (k, t) ++ 44 :: join 44 (dumps_item kt' :: (dumps_item <$> ts))) as ->.
    { exact (eq_sym (f_equal (fun l => match l with [] => [] | _ :: l' => l' end) Htail)). }
    clear Htail. assert (Hnext : exists tail', join 44 (dumps_item kt' :: (dumps_item <$> ts)) = 34 :: tail').
    { destruct ts; cbn [fmap list_fmap join]; rewrite dumps_item_tail; by eexists. }
    destruct Hnext as [tail' Hnext]. rewrite Hnext in *.
    unfold item_tail in *. cbn [fst snd] in *. repeat (rewrite <- (assoc_L (++)) in *; cbn [app] in * ).
    repeat (rewrite length_app in Hfuel; cbn [length] in Hfuel). cbn [scan_members].
    rewrite scan_string_escaped by done. cbn [mbind result_bind fst snd].
    change (skip_space (58 :: ?r)) with (58 :: r). cbn iota.
    rewrite skip_space_value by (eapply dumps_starts; eassumption). change (58 =? 58) with true. cbn iota.
    rewrite (Hj t fuel (44 :: 34 :: tail' ++ 125 :: rest)); [|done|done|separator|].
    2: { rewrite length_app. cbn [length]. rewrite length_app. cbn [length]. lia. }
    cbn [mbind result_bind fst snd].
    change (skip_space (44 :: ?r)) with (44 :: r). change (44 =? 125) with false. change (44 =? 44) with true. cbn iota.
    change (skip_space (34 :: ?r)) with (34 :: r). change (34 =? 34) with true. cbn iota.
    rewrite (IH (kt' :: ts) (acc ++ [(k, j)])); [by rewrite <- (assoc_L (++))|done|done|done|done|].
    rewrite length_app. cbn [length]. lia.
Qed.

(** *** Dictionaries *)

Lemma sorted_keys_tail kv d : sorted_keys (kv :: d) = true ->
  sorted_keys d = true /\ Forall (fun kv' => str_ltb kv.1 kv'.1 = true) d.
Proof.
  revert kv. induction d as [|kv' d IH]; intros kv H; [done|]. cbn in H. apply andb_true_iff in H as [Hlt H].
  split; [done|]. destruct (IH _ H) as [_ Hall]. constructor; [done|].
  eapply Forall_impl; [exact Hall|]. intros x Hx. by eapply str_ltb_trans.
Qed.

Lemma sorted_keys_strongly d : sorted_keys d = true -> StronglySorted (fun a b => str_ltb a.1 b.1 = true) d.
Proof.
  induction d as [|kv d IH]; intros H; [constructor|]. apply sorted_keys_tail in H as [H Hall].
  constructor; [by apply IH|done].
Qed.

Lemma dict_set_fresh d k v : Forall (fun kv => kv.1 ≠ k) d -> dict_set d k v = d ++ [(k, v)].
Proof.
  induction 1 as [|[k' v'] d Hk _ IH]; [done|]. cbn in *. by rewrite bool_decide_false, IH.
Qed.

Lemma dict_of_sorted d : sorted_keys d = true -> dict_of_pairs d = JDict d.
Proof.
  intros Hd. unfold dict_of_pairs. f_equal.
  enough (forall d0, StronglySorted (fun a b => str_ltb a.1 b.1 = true) (d0 ++ d) ->
    foldl (fun d kv => dict_set d kv.1 kv.2) d0 d = d0 ++ d) as Hgen by exact (Hgen [] (sorted_keys_strongly d Hd)).
  clear Hd. induction d as [|[k v] d IH]; intros d0 Hs; [by rewrite app_nil_r|]. cbn.
  rewrite dict_set_fresh.
  - rewrite IH; rewrite <- (assoc_L (++)); [done|exact Hs].
  - apply Forall_forall. intros kv Hkv <-. clear IH. induction d0 as [|x d0 IH]; [by apply not_elem_of_nil in Hkv|].
    cbn in Hs. apply StronglySorted_inv in Hs as [Hs Hx]. apply elem_of_cons in Hkv as [->|Hkv]; [|by apply IH].
    rewrite Forall_app in Hx. destruct Hx as [_ Hx]. apply Forall_cons in Hx as [Hx _].
    by rewrite str_ltb_irrefl in Hx.
Qed.

(** The items of a dictionary whose keys are in order are in order. *)
Lemma items_sorted d items :
  sorted_keys d = true -> map_ok (fun '(k, j) => t ← dumps j; mret (k, t)) d = Ok items ->
  merge_sort pair_le items = items.
Proof.
  intros Hd Hi. assert (Hs : StronglySorted pair_le items).
  { apply map_ok_Forall2 in Hi. apply sorted_keys_strongly in Hd.
    induction Hi as [|[k j] [k' t] d items Hkt Hi IH]; [constructor|]. apply StronglySorted_inv in Hd as [Hd Hall].
    constructor; [by apply IH|]. ok_steps.
    apply Forall_lookup. intros i [k2 t2] Hk2. destruct (Forall2_lookup_r _ _ _ _ _ Hi Hk2) as ([k3 j3]&Hk3&E).
    ok_steps. pose proof (Forall_lookup_1 _ _ _ _ Hall Hk3) as Hlt. apply pair_le_spec. by left. }
  apply (StronglySorted_unique pair_le); [|done|apply merge_sort_Permutation].
  apply (StronglySorted_merge_sort pair_le).
Qed.

(** *** Every value *)

Lemma scans_word word value rest fuel :
  (exists c r, word = c :: r /\ bool_decide (c ∈ [34; 123; 91]) = false) ->
  scan_atom dec (word ++ rest) = Ok (value, rest) -> (1 <= fuel)%nat ->
  scan_once dec fuel (word ++ rest) = Ok (value, rest).
Proof.
  intros (c&r&->&Hc) Hs Hf. destruct fuel as [|fuel]; [lia|]. cbn [app scan_once].
  apply bool_decide_eq_false in Hc. rewrite !elem_of_cons in Hc.
  rewrite !(proj2 (Z.eqb_neq c _)) by (intros ->; apply Hc; auto). exact Hs.
Qed.

Lemma dumps_int_text n t : dumps_int n = Ok t ->
  exists d ds, is_digit d = true /\ (t = d :: ds \/ t = 45 :: d :: ds).
Proof.
  unfold dumps_int, str_of_int. intros Ht. ok_steps.
  destruct (str_of_nonneg_ok (Z.abs n)) as (Hd&_&d&ds&Hs&_); [lia|]. exists d, ds.
  assert (is_digit d = true) by (rewrite Hs in Hd; by apply Forall_cons in Hd as [? _]). split; [done|].
  destruct (Z.ltb_spec n 0).
  - right. replace (- n) with (Z.abs n) by lia. by rewrite Hs.
  - left. replace n with (Z.abs n) by lia. by rewrite Hs.
Qed.

Lemma scan_word_other word value s otherwise c c' r r' :
  word = c :: r -> s = c' :: r' -> c ≠ c' -> scan_word word value s otherwise = otherwise.
Proof.
  intros -> -> Hc. unfold scan_word, starts_with. rewrite bool_decide_false; [done|]. cbn. congruence.
Qed.

(** A text that starts like a number is one. *)
Lemma scan_atom_number j t rest :
  (exists d ds, is_digit d = true /\ (t = d :: ds \/ t = 45 :: d :: ds)) ->
  scan_number dec (t ++ rest) = Some (Ok j, rest) -> scan_atom dec (t ++ rest) = Ok (j, rest).
Proof.
  intros (d&ds&Hd&Hcase) Hn. unfold is_digit in Hd. btauto_hyps.
  unfold scan_atom. destruct Hcase as [-> | ->]; cbn [app] in *.
  - do 6 (erewrite scan_word_other; [|reflexivity|reflexivity|cbn; lia]). by rewrite Hn.
  - do 5 (erewrite scan_word_other; [|reflexivity|reflexivity|cbn; lia]).
    unfold scan_word, starts_with. rewrite bool_decide_false by (cbn; injection 1; lia). by rewrite Hn.
Qed.

Lemma number_word t : (exists d ds, is_digit d = true /\ (t = d :: ds \/ t = 45 :: d :: ds)) ->
  exists c r, t = c :: r /\ bool_decide (c ∈ [34; 123; 91]) = false.
Proof.
  intros (x&ds&Hd&Hcase). unfold is_digit in Hd. btauto_hyps.
  destruct Hcase as [-> | ->]; (eexists _, _; split; [reflexivity|]); [|reflexivity].
  apply bool_decide_eq_false. rewrite !elem_of_cons, elem_of_nil. lia.
Qed.

Lemma printed_scans j : scans j.
Proof.
  induction j as [|b|n|l|s|l IH|d IH] using json_nested_ind; intros t fuel rest Hp Ht Hr Hf; cbn in Hp, Ht; try done.
  - injection Ht as <-. apply scans_word; [by eexists _, _|reflexivity|lia].
  - injection Ht as <-. destruct b; (apply scans_word; [by eexists _, _|reflexivity|lia]).
  - pose proof (dumps_int_text n t Ht) as Hstart. apply scans_word; [by apply number_word| |lia].
    apply scan_atom_number; [done|by apply scan_number_int].
  - injection Ht as <-. pose proof (float_text_start l Hp) as Hstart. apply scans_word; [by apply number_word| |lia].
    apply scan_atom_number; [done|by apply scan_number_float].
  - injection Ht as <-. destruct fuel as [|fuel]; [lia|]. unfold dumps_string. cbn [app scan_once].
    rewrite <- (assoc_L (++)). cbn [app]. change (34 =? 34) with true. cbn iota. by rewrite scan_string_escaped.
  - apply result_bind_ok in Ht as (ts&Hts&[= <-]). destruct fuel as [|fuel]; [lia|]. cbn [app scan_once].
    change (91 =? 34) with false. change (91 =? 123) with false. change (91 =? 91) with true. cbn iota.
    cbn [app length] in Hf. rewrite <- (assoc_L (++)) in Hf |- *. cbn [app] in *.
    destruct l as [|j l]; [by injection Hts as <-|].
    assert (Hs : exists c r, skip_space (join 44 ts ++ 93 :: rest) = c :: r /\ c ≠ 93 /\
                  c :: r = join 44 ts ++ 93 :: rest).
    { pose proof Hts as H. apply result_bind_ok in H as (t1&Ht1&H). apply result_bind_ok in H as (ts1&_&[= <-]).
      assert (Hs : starts_value t1) by (eapply dumps_starts; [|exact Ht1]; by apply andb_true_iff in Hp as [? _]).
      destruct Hs as (c&r&->&Hc&Hn&_). destruct ts1; cbn [join app]; (eexists c, _; split_and!; [|done|reflexivity]);
        unfold skip_space; cbn; by rewrite Hc. }
    destruct Hs as (c&r&->&Hn&Hcr). rewrite (proj2 (Z.eqb_neq c 93)) by done. cbn iota. rewrite Hcr.
    rewrite (scan_elements_ok (j :: l) ts [] fuel rest); [done|done|done|done|done|lia].
  - apply andb_true_iff in Hp as [Hp Hk]. apply result_bind_ok in Ht as (items&Hi&[= <-]).
    rewrite (items_sorted d items Hk Hi) in *.
    destruct fuel as [|fuel]; [lia|]. cbn [app scan_once].
    change (123 =? 34) with false. change (123 =? 123) with true. cbn iota.
    cbn [app length] in Hf. rewrite <- (assoc_L (++)) in Hf |- *. cbn [app] in *.
    destruct d as [|kv d].
    { injection Hi as <-. change (skip_space _) with (125 :: rest). change (125 =? 125) with true. cbn iota. by rewrite hook_dict. }
    assert (Htail : exists tail, join 44 (dumps_item <$> items) = 34 :: tail).
    { apply result_bind_ok in Hi as (kt&_&H). apply result_bind_ok in H as (ts1&_&[= <-]).
      rewrite fmap_cons. destruct ts1; cbn [fmap list_fmap join]; rewrite dumps_item_tail; by eexists. }
    destruct Htail as [tail Htail]. rewrite Htail in *. cbn [app length] in *.
    change (skip_space (34 :: ?r)) with (34 :: r). change (34 =? 125) with false. change (34 =? 34) with true. cbn iota.
    rewrite (scan_members_ok (kv :: d) items [] fuel rest tail); [|done|done|done|done|done|lia].
    cbn [app]. rewrite (dict_of_sorted (kv :: d) Hk). reflexivity.
Qed.

(** Printing then loading gives the value back. *)
Lemma loads_printed j t : printable j = true -> dumps j = Ok t -> loads dec t = Ok j.
Proof.
  intros Hp Ht. destruct (dumps_starts j t Hp Ht) as (c&r&E&Hc&_&Hbom). unfold loads.
  assert (starts_with [65279] t = false) as ->.
  { apply bool_decide_eq_false. rewrite E. cbn. congruence. }
  cbn [throw_if mbind result_bind].
  pose proof (printed_scans j t (2 * length t + 2)%nat [] Hp Ht) as Hs. rewrite app_nil_r in Hs.
  assert (skip_space t = t) as -> by (rewrite E; unfold skip_space; cbn; by rewrite Hc).
  rewrite Hs; [done|done|lia].
Qed.
End Scans.

Lemma loads_dumps j t : printable j = true -> dumps j = Ok t -> loads_dict t = Ok j.
Proof. by apply loads_printed. Qed.

Lemma map_ok_perm {A B} (f : A -> result B) l l' bs :
  l ≡ₚ l' -> map_ok f l = Ok bs -> exists bs', map_ok f l' = Ok bs' /\ bs ≡ₚ bs'.
Proof.
  intros Hl. revert bs. induction Hl as [|a l l' Hl IH|a b l|l l' l'' Hl IH Hl' IH']; intros bs H.
  - exists bs. done.
  - cbn in H. ok_steps. match goal with E : map_ok f l = Ok _ |- _ => destruct (IH _ E) as (bs'&Hb&Hp) end.
    match goal with E : f a = Ok ?x |- _ => exists (x :: bs'); cbn; rewrite E; cbn; rewrite Hb end.
    split; [done|by constructor].
  - cbn in H. ok_steps. eexists. cbn.
    repeat match goal with E : _ = Ok _ |- _ => rewrite E; cbn; clear E end. split; [done|constructor].
  - destruct (IH _ H) as (bs1&H1&Hp1). destruct (IH' _ H1) as (bs2&H2&Hp2).
    exists bs2. split; [done|by etrans].
Qed.

(** The printer sorts the keys itself. *)
Lemma dumps_perm d d' t : d ≡ₚ d' -> dumps (JDict d) = Ok t -> dumps (JDict d') = Ok t.
Proof.
  intros Hd Ht. cbn [dumps] in *. apply result_bind_ok in Ht as (items&Hi&[= <-]).
  destruct (map_ok_perm _ _ _ _ Hd Hi) as (items'&->&Hp). cbn. do 5 f_equal.
  apply (StronglySorted_unique pair_le); [apply (StronglySorted_merge_sort pair_le)..|].
  by rewrite !merge_sort_Permutation.
Qed.

(** ** ASCII *)

(** Characters a JSON string shows as they are. *)
Definition plain (c : Z) : bool := (32 <=? c) && (c <=? 126) && negb (c =? 34) && negb (c =? 92).

Lemma escape_plain s : forallb plain s = true -> mjoin (escape_char <$> s) = s.
Proof.
  induction s as [|c s IH]; cbn [forallb]; intros H; [done|]. apply andb_true_iff in H as [Hc Hs].
  change (mjoin (escape_char <$> c :: s)) with (escape_char c ++ mjoin (escape_char <$> s)). rewrite (IH Hs).
  unfold plain in Hc. btauto_hyps. unfold escape_char.
  rewrite !(proj2 (Z.eqb_neq c _)) by lia. by rewrite !(proj2 (Z.leb_le _ _)) by lia.
Qed.

Lemma dumps_string_plain s : forallb plain s = true -> dumps_string s = 34 :: s ++ [34].
Proof. intros H. unfold dumps_string. by rewrite escape_plain. Qed.

Definition ascii (c : Z) : Prop := 0 <= c < 128.

Lemma utf8_ascii s : Forall ascii s -> utf8_encode s = Ok s.
Proof.
  induction 1 as [|c s Hc _ IH]; cbn; [done|]. rewrite IH.
  unfold ascii in Hc. unfold is_scalar, is_surrogate, utf8_char.
  rewrite (proj2 (Z.ltb_lt c 128)), (proj2 (Z.leb_le 0 c)), (proj2 (Z.leb_le c 1114111)), (proj2 (Z.leb_gt 55296 c)) by lia.
  done.
Qed.

Lemma plain_ascii s : forallb plain s = true -> Forall ascii s.
Proof.
  rewrite List.forallb_forall, Forall_forall. intros H c Hc%list_elem_of_In. apply H in Hc.
  unfold plain in Hc. btauto_hyps. unfold ascii. lia.
Qed.

Lemma join_ascii sep l : ascii sep -> Forall (Forall ascii) l -> Forall ascii (join sep l).
Proof.
  intros Hs. induction l as [|p l IH]; intros H; [constructor|]. apply Forall_cons in H as [Hp Hl].
  destruct l as [|q l]; [done|]. rewrite join_cons, Forall_app. split; [done|]. constructor; auto.
Qed.

Lemma hex_char_ascii n : 0 <= n < 16 -> ascii (hex_char n).
Proof. intros Hn. unfold ascii, hex_char. destruct (Z.ltb_spec n 10); lia. Qed.

Lemma escape_unit_ascii n : 0 <= n < 65536 -> Forall ascii (escape_unit n).
Proof.
  intros Hn. unfold escape_unit. repeat apply Forall_cons_2; try (unfold ascii; lia); try apply Forall_nil_2;
    apply hex_char_ascii; Z.to_euclidean_division_equations; lia.
Qed.

Lemma escape_char_ascii c : is_scalar c = true -> Forall ascii (escape_char c).
Proof.
  intros Hc. unfold is_scalar in Hc. btauto_hyps. unfold escape_char.
  repeat match goal with |- context [if ?a =? ?b then _ else _] => destruct (Z.eqb_spec a b);
    [repeat apply Forall_cons_2; try (unfold ascii; lia); apply Forall_nil_2|] end.
  destruct ((32 <=? c) && (c <=? 126)) eqn:E; [btauto_hyps; apply Forall_singleton; unfold ascii; lia|].
  destruct (Z.ltb_spec c 65536); [apply escape_unit_ascii; lia|].
  apply Forall_app. split; apply escape_unit_ascii; Z.to_euclidean_division_equations; lia.
Qed.

Lemma dumps_string_ascii s : forallb is_scalar s = true -> Forall ascii (dumps_string s).
Proof.
  intros Hs. unfold dumps_string. constructor; [unfold ascii; lia|]. apply Forall_app. split; [|apply Forall_singleton; unfold ascii; lia].
  induction s as [|c s IH]; cbn [forallb] in Hs; [constructor|]. apply andb_true_iff in Hs as [Hc Hs].
  change (mjoin (escape_char <$> c :: s)) with (escape_char c ++ mjoin (escape_char <$> s)).
  apply Forall_app. split; [by apply escape_char_ascii|by apply IH].
Qed.

Lemma str_of_int_ascii n : Forall ascii (str_of_int n).
Proof.
  assert (Hd : forall m, 0 <= m -> Forall ascii (str_of_nonneg m)).
  { intros m Hm. destruct (str_of_nonneg_ok m Hm) as (Hf&_). eapply Forall_impl; [exact Hf|].
    intros c Hc. unfold is_digit in Hc. btauto_hyps. unfold ascii. lia. }
  unfold str_of_int. destruct (Z.ltb_spec n 0); [constructor; [unfold ascii; lia|]|]; apply Hd; lia.
Qed.

(** The printer writes ASCII. *)
Lemma dumps_ascii j t : printable j = true -> dumps j = Ok t -> Forall ascii t.
Proof.
  assert (Hret : forall x y : pystr, mret x = Ok y -> y = x) by (intros ? ? E; by injection E).
  assert (Hw : forall s, forallb (fun c => (0 <=? c) && (c <? 128)) s = true -> Forall ascii s).
  { intros s. rewrite List.forallb_forall, Forall_forall. intros H c Hc%list_elem_of_In. apply H in Hc. btauto_hyps. by split. }
  revert t. induction j as [|b|n|l|s|l IH|d IH] using json_nested_ind; intros t Hp Ht; cbn [printable dumps] in Hp, Ht; try done.
  - apply Hret in Ht as ->. by apply Hw.
  - apply Hret in Ht as ->. destruct b; by apply Hw.
  - unfold dumps_int in Ht. ok_steps. apply str_of_int_ascii.
  - apply Hret in Ht as ->. apply andb_true_iff in Hp as [Hp _]. by apply Hw.
  - apply Hret in Ht as ->. by apply dumps_string_ascii.
  - apply result_bind_ok in Ht as (ts&Hts%map_ok_Forall2&Ht%Hret). subst t. constructor; [unfold ascii; lia|].
    apply Forall_app. split; [|apply Forall_singleton; unfold ascii; lia]. apply join_ascii; [unfold ascii; lia|].
    revert Hp IH. induction Hts as [|j t l ts Hj _ IH']; intros Hp IH; [constructor|].
    cbn [forallb] in Hp. apply andb_true_iff in Hp as [Hp1 Hp2]. apply Forall_cons in IH as [IHj IHl].
    constructor; [by apply IHj|by apply IH'].
  - apply andb_true_iff in Hp as [Hp _]. apply result_bind_ok in Ht as (items&Hi%map_ok_Forall2&Ht%Hret). subst t.
    constructor; [unfold ascii; lia|]. apply Forall_app. split; [|apply Forall_singleton; unfold ascii; lia].
    apply join_ascii; [unfold ascii; lia|]. apply Forall_fmap.
    rewrite (merge_sort_Permutation pair_le items).
    revert Hp IH. induction Hi as [|[k j] [k' t] d items Hj _ IH']; intros Hp IH; [constructor|].
    cbn [forallb fst snd] in Hp. apply andb_true_iff in Hp as [[Hk Hj']%andb_true_iff Hp2]. apply Forall_cons in IH as [IHj IHl].
    apply result_bind_ok in Hj as (t'&Ht'&E). injection E as <- <-. constructor; [|by apply IH'].
    change (Forall ascii (dumps_string k ++ 58 :: t')). apply Forall_app. split; [by apply dumps_string_ascii|].
    constructor; [unfold ascii; lia|by apply IHj].
Qed.

(** A printed dictionary is taken for UTF-8. *)
Lemma dict_starts_utf8 d text b : d <> [] -> dumps (JDict d) = Ok text -> utf8_encode text = Ok b -> starts_as_utf8 b = true.
Proof.
  intros Hd Ht Hb. cbn [dumps] in Ht. apply result_bind_ok in Ht as (items&Hi&Ht).
  assert (Hret : forall x y : pystr, mret x = Ok y -> y = x) by (intros ? ? E; by injection E).
  apply Hret in Ht. subst text. apply map_ok_Forall2 in Hi.
  destruct (merge_sort pair_le items) as [|it its] eqn:E.
  - pose proof (merge_sort_Permutation pair_le items) as Hp. rewrite E in Hp. apply Permutation_nil_l in Hp. subst.
    by inversion Hi; subst.
  - assert (exists t, 123 :: join 44 (dumps_item <$> it :: its) ++ [125] = 123 :: 34 :: t) as [t Et].
    { destruct it as [k v]. cbn [fmap list_fmap]. unfold dumps_item at 1, dumps_string. cbn [fst].
      destruct (dumps_item <$> its); cbn [join app]; by eexists. }
    rewrite Et in Hb.
    change (utf8_encode (123 :: 34 :: t)) with
      (b ← (b ← utf8_encode t; mret (34 :: b)); mret (123 :: b) : result pybytes) in Hb.
    destruct (utf8_encode t) as [b'|]; [|done]. cbn in Hb. apply Hret in Hb. by subst.
Qed.

(** ** Numbers that are always printed *)

Lemma digits_length fuel n : zlen (digits fuel n) <= Z.of_nat fuel.
Proof.
  revert n. induction fuel as [|fuel IH]; intros n; cbn [digits]; [done|].
  destruct (n <? 10); [unfold zlen; cbn; lia|]. rewrite zlen_app. specialize (IH (n / 10)). unfold zlen at 2. cbn [length]. lia.
Qed.

Lemma dumps_int_total n : 0 <= n < 2 ^ 64 -> exists t, dumps_int n = Ok t.
Proof.
  intros Hn. unfold dumps_int. rewrite (proj2 (Z.ltb_ge _ _)); [by eexists|]. rewrite Z.abs_eq by lia. unfold str_of_nonneg.
  pose proof (digits_length (S (Z.to_nat (Z.log2 n))) n). pose proof (Z.log2_nonneg n).
  assert (Z.log2 n < 64) by (destruct (decide (n = 0)) as [->|]; [done|apply Z.log2_lt_pow2; lia]).
  unfold MAX_INT_DIGITS. lia.
Qed.

Fixpoint small_ints (j : json) : bool :=
  match j with
  | JInt n => (0 <=? n) && (n <? 2 ^ 64)
  | JList l => forallb small_ints l
  | JDict d => forallb (fun kv => small_ints kv.2) d
  | _ => true
  end.

Lemma dumps_total j : small_ints j = true -> exists t, dumps j = Ok t.
Proof.
  induction j as [|b|n|l|s|l IH|d IH] using json_nested_ind; intros Hs; cbn [small_ints] in Hs; try (by eexists).
  - btauto_hyps. by apply dumps_int_total.
  - destruct (map_ok_all dumps (fun _ => True) l) as (ts&Hts&_).
    { intros j Hj. rewrite Forall_forall in IH. rewrite List.forallb_forall in Hs.
      destruct (IH j Hj) as [t Ht]; [by apply Hs, list_elem_of_In|by exists t]. }
    cbn [dumps]. rewrite Hts. by eexists.
  - destruct (map_ok_all (fun '(k, j) => t ← dumps j; mret (k, t)) (fun _ => True) d) as (ts&Hts&_).
    { intros [k j] Hj. rewrite Forall_forall in IH. rewrite List.forallb_forall in Hs.
      destruct (IH (k, j) Hj) as [t Ht]; [by apply (Hs (k, j)), list_elem_of_In|]. cbn in Ht. exists (k, t). by rewrite Ht. }
    cbn [dumps]. rewrite Hts. by eexists.
Qed.

(** [json.dumps(d, ...).encode()], and [json.loads] of its bytes *)
Lemma dict_encodes d : printable (JDict d) = true -> small_ints (JDict d) = true ->
  exists text b, dumps (JDict d) = Ok text /\ utf8_encode text = Ok b.
Proof.
  intros Hp Hs. destruct (dumps_total _ Hs) as [text Ht]. exists text, text. split; [done|].
  apply utf8_ascii. by eapply dumps_ascii.
Qed.

Lemma dict_bytes_round_trip other d text b : d <> [] -> printable (JDict d) = true ->
  dumps (JDict d) = Ok text -> utf8_encode text = Ok b -> loads_bytes other b = Ok (JDict d).
Proof.
  intros Hd Hp Ht Hb. unfold loads_bytes. rewrite (dict_starts_utf8 d text b), (utf8_round_trip _ _ Hb) by done.
  by apply loads_dumps.
Qed.
