(* ===== verification/Gate.v ===== *)
(** * Gate: the capture states and the hard capture gate.

    Models [domain/lifecycle.py] (states, allowed transitions, generations) and
    [lifecycle/gate.py] ([CaptureGate]): the record [gate] is the object's
    attributes, each definition below one method, in the source's order.  The
    lock-protected bodies are atomic calls in the monad [M gate]; the commit
    lock and the interleaving of threads are the subject of [GateThreads].
    Wall-clock stamps and random event identifiers carry no control flow and
    are left out of the records. *)

From S2P Require Import Prelude.

(** ** [domain/lifecycle.py] *)

Inductive CaptureState :=
  | OFF | STARTING | RECORDING | PAUSED | PRIVACY | STOPPING | FAULTED.

Inductive TransitionReason :=
  | USER_START | STARTUP_OPT_IN | USER_STOP | USER_PAUSE | USER_RESUME
  | PRIVACY_ENABLED | PRIVACY_DISABLED | SESSION_LOCKED | SESSION_UNLOCKED
  | IDLE | ACTIVE | CRITICAL_FAULT | STARTUP_SAFE_DEFAULT | SHUTDOWN.

#[export] Instance CaptureState_eq_dec : EqDecision CaptureState.
Proof. solve_decision. Defined.
#[export] Instance TransitionReason_eq_dec : EqDecision TransitionReason.
Proof. solve_decision. Defined.

Definition CaptureGeneration (value : Z) : result Z :=
  if value <=? 0 then Raise ValueError else Ok value.
#[global] Arguments CaptureGeneration : simpl never.

Definition allowed_transitions (s : CaptureState) : list CaptureState :=
  match s with
  | OFF => [STARTING; FAULTED]
  | STARTING => [RECORDING; PAUSED; STOPPING; OFF; FAULTED]
  | RECORDING => [PAUSED; PRIVACY; STOPPING; FAULTED]
  | PAUSED => [RECORDING; PAUSED; PRIVACY; STOPPING; FAULTED]
  | PRIVACY => [RECORDING; PAUSED; STOPPING; FAULTED]
  | STOPPING => [OFF; FAULTED]
  | FAULTED => [OFF]
  end.

Record CaptureStateTransition := {
  tr_previous : CaptureState;
  tr_current : CaptureState;
  tr_generation : Z;
  tr_reason : TransitionReason }.

(** [CaptureStateTransition(...)] with its [__post_init__] check. *)
Definition make_transition (previous current : CaptureState) (generation : Z)
    (reason : TransitionReason) : result CaptureStateTransition :=
  if bool_decide (current ∈ allowed_transitions previous)
  then Ok {| tr_previous := previous; tr_current := current;
             tr_generation := generation; tr_reason := reason |}
  else Raise ValueError.

Record CaptureStateSnapshot := {
  snap_state : CaptureState;
  snap_generation : option Z;
  snap_privacy_mode : bool;
  snap_healthy : bool }.

Definition is_active_state (s : CaptureState) : bool :=
  bool_decide (s ∈ [STARTING; RECORDING; PAUSED]).

Definition make_snapshot (s : CaptureState) (generation : option Z) (privacy healthy : bool)
    : result CaptureStateSnapshot :=
  if is_active_state s && negb (bool_decide (is_Some generation)) then Raise ValueError
  else Ok {| snap_state := s; snap_generation := generation;
             snap_privacy_mode := privacy; snap_healthy := healthy |}.

(** ** [CaptureGate] *)

(** A [threading.Event] is a cell of [g_events]; permits keep its address, so
    an event dropped from [_cancel_events] is still the one a running
    operation observes. *)
Record gate := {
  g_owner : option Z;
  g_state : CaptureState;
  g_active : option Z;
  g_draining : option Z;
  g_epoch : Z;
  g_revision : option pystr;
  g_healthy : bool;
  g_cancel_events : gmap Z nat;
  g_in_flight : gmap Z Z;
  g_events : list bool }.

Record CaptureWorkPermit := {
  permit_generation : Z;
  permit_revision : pystr;
  permit_event : nat }.

Definition init_gate : gate := {|
  g_owner := None; g_state := OFF; g_active := None; g_draining := None; g_epoch := 0;
  g_revision := None; g_healthy := true; g_cancel_events := ∅; g_in_flight := ∅;
  g_events := [] |}.

Section Updates.
Local Abbreviation upd o s a d e r h c f v :=
  {| g_owner := o; g_state := s; g_active := a; g_draining := d; g_epoch := e;
     g_revision := r; g_healthy := h; g_cancel_events := c; g_in_flight := f;
     g_events := v |}.
Definition set_owner o g := upd o (g_state g) (g_active g) (g_draining g) (g_epoch g)
  (g_revision g) (g_healthy g) (g_cancel_events g) (g_in_flight g) (g_events g).
Definition set_state s g := upd (g_owner g) s (g_active g) (g_draining g) (g_epoch g)
  (g_revision g) (g_healthy g) (g_cancel_events g) (g_in_flight g) (g_events g).
Definition set_active a g := upd (g_owner g) (g_state g) a (g_draining g) (g_epoch g)
  (g_revision g) (g_healthy g) (g_cancel_events g) (g_in_flight g) (g_events g).
Definition set_draining d g := upd (g_owner g) (g_state g) (g_active g) d (g_epoch g)
  (g_revision g) (g_healthy g) (g_cancel_events g) (g_in_flight g) (g_events g).
Definition set_epoch e g := upd (g_owner g) (g_state g) (g_active g) (g_draining g) e
  (g_revision g) (g_healthy g) (g_cancel_events g) (g_in_flight g) (g_events g).
Definition set_revision r g := upd (g_owner g) (g_state g) (g_active g) (g_draining g)
  (g_epoch g) r (g_healthy g) (g_cancel_events g) (g_in_flight g) (g_events g).
Definition set_healthy h g := upd (g_owner g) (g_state g) (g_active g) (g_draining g)
  (g_epoch g) (g_revision g) h (g_cancel_events g) (g_in_flight g) (g_events g).
Definition set_cancel_events c g := upd (g_owner g) (g_state g) (g_active g) (g_draining g)
  (g_epoch g) (g_revision g) (g_healthy g) c (g_in_flight g) (g_events g).
Definition set_in_flight f g := upd (g_owner g) (g_state g) (g_active g) (g_draining g)
  (g_epoch g) (g_revision g) (g_healthy g) (g_cancel_events g) f (g_events g).
Definition set_events v g := upd (g_owner g) (g_state g) (g_active g) (g_draining g)
  (g_epoch g) (g_revision g) (g_healthy g) (g_cancel_events g) (g_in_flight g) v.
End Updates.

(** [event.is_set()], [event.set()] and [threading.Event()] *)
Definition event_is_set (g : gate) (e : nat) : bool := default false (g_events g !! e).
Definition event_set (e : nat) (g : gate) : gate := set_events (<[e := true]> (g_events g)) g.
Definition new_event : M gate nat := fun g =>
  (set_events (g_events g ++ [false]) g, Ok (length (g_events g))).

Definition permit_cancelled (p : CaptureWorkPermit) (g : gate) : bool :=
  event_is_set g (permit_event p).

Definition in_flight_of (g : gate) (generation : Z) : Z :=
  default 0 (g_in_flight g !! generation).

Definition snapshot : M gate CaptureStateSnapshot := fun g =>
  (g, make_snapshot (g_state g) (g_active g) (bool_decide (g_state g = PRIVACY)) (g_healthy g)).

(** *** Private helpers of the class *)

Definition assert_owner (me : Z) : M gate unit := fun g =>
  (g, if bool_decide (g_owner g = Some me) then Ok tt else Raise CaptureGateOwnershipError).

Definition require_active_locked (generation : Z) (s : CaptureState) : M gate unit := fun g =>
  (g, if bool_decide (g_state g ≠ s \/ g_active g ≠ Some generation)
      then Raise StaleCaptureGeneration else Ok tt).

Definition require_generation_locked (s : CaptureState) : M gate Z := fun g =>
  (g, match g_active g with
      | Some generation => if bool_decide (g_state g = s) then Ok generation else Raise ValueError
      | None => Raise ValueError
      end).

Definition next_generation_locked : M gate Z :=
  _ ← modify (fun g => set_epoch (g_epoch g + 1) g);
  e ← gets g_epoch;
  lift (CaptureGeneration e).

Definition current_epoch_generation_locked : M gate Z :=
  e ← gets g_epoch;
  if e =? 0 then next_generation_locked else lift (CaptureGeneration e).

Definition cancel_active_locked : M gate unit := fun g =>
  match g_active g with
  | None => (g, Ok tt)
  | Some generation =>
      match g_cancel_events g !! generation with
      | Some e => (event_set e g, Ok tt)
      | None => (g, Ok tt)
      end
  end.

Definition transition_locked (current : CaptureState) (generation : Z) (reason : TransitionReason)
    : M gate CaptureStateTransition :=
  previous ← gets g_state;
  tr ← lift (make_transition previous current generation reason);
  _ ← modify (set_state current);
  mret tr.

(** [self._cancel_events[generation.value] = threading.Event()] *)
Definition install_cancel_event (generation : Z) : M gate unit :=
  e ← new_event;
  modify (fun g => set_cancel_events (<[generation := e]> (g_cancel_events g)) g).

(** *** Ownership *)

Definition bind_owner (me : Z) : M gate unit := fun g =>
  match g_owner g with
  | None => (set_owner (Some me) g, Ok tt)
  | Some o => (g, if bool_decide (o ≠ me) then Raise CaptureGateOwnershipError else Ok tt)
  end.

Definition release_owner (me : Z) : M gate unit :=
  _ ← assert_owner me;
  modify (set_owner None).

(** *** Transitions, called by the owner only *)

Definition begin_start (me : Z) (reason : TransitionReason) (configuration_revision : pystr)
    : M gate (Z * CaptureStateTransition) :=
  _ ← assert_owner me;
  s ← gets g_state;
  _ ← require (bool_decide (s = OFF)) ValueError;
  generation ← next_generation_locked;
  _ ← modify (set_active (Some generation));
  _ ← modify (set_draining None);
  _ ← modify (set_revision (Some configuration_revision));
  _ ← modify (set_healthy true);
  _ ← install_cancel_event generation;
  transition ← transition_locked STARTING generation reason;
  mret (generation, transition).

Definition mark_recording (me : Z) (generation : Z) (reason : TransitionReason)
    : M gate CaptureStateTransition :=
  _ ← assert_owner me;
  _ ← require_active_locked generation STARTING;
  transition_locked RECORDING generation reason.

Definition pause (me : Z) (reason : TransitionReason) : M gate CaptureStateTransition :=
  _ ← assert_owner me;
  generation ← require_generation_locked RECORDING;
  transition_locked PAUSED generation reason.

Definition resume (me : Z) (reason : TransitionReason) : M gate CaptureStateTransition :=
  _ ← assert_owner me;
  generation ← require_generation_locked PAUSED;
  transition_locked RECORDING generation reason.

Definition invalidate_and_pause (me : Z) (reason : TransitionReason)
    : M gate (option Z * CaptureStateTransition) :=
  _ ← assert_owner me;
  s ← gets g_state;
  _ ← require (is_active_state s) ValueError;
  previous_generation ← gets g_active;
  _ ← cancel_active_locked;
  invalidation_generation ← next_generation_locked;
  _ ← modify (set_active (Some invalidation_generation));
  _ ← modify (set_draining previous_generation);
  _ ← install_cancel_event invalidation_generation;
  transition ← transition_locked PAUSED invalidation_generation reason;
  mret (previous_generation, transition).

Definition begin_stopping (me : Z) (reason : TransitionReason)
    : M gate (option Z * CaptureStateTransition) :=
  _ ← assert_owner me;
  previous_generation ← gets g_active;
  _ ← cancel_active_locked;
  _ ← match previous_generation with
       | Some _ => modify (set_draining previous_generation)
       | None => mret tt
       end;
  invalidation_generation ← next_generation_locked;
  _ ← modify (set_active None);
  transition ← transition_locked STOPPING invalidation_generation reason;
  mret (previous_generation, transition).

(** The stale entries [finish_off] removes: cancelled and no longer running. *)
Definition is_stale_event (g : gate) (entry : Z * nat) : bool :=
  event_is_set g entry.2 && (in_flight_of g entry.1 =? 0).

Definition finish_off (me : Z) (reason : TransitionReason) : M gate CaptureStateTransition :=
  _ ← assert_owner me;
  generation ← current_epoch_generation_locked;
  transition ← transition_locked OFF generation reason;
  _ ← modify (set_active None);
  _ ← modify (set_draining None);
  _ ← modify (set_revision None);
  _ ← modify (set_healthy true);
  _ ← modify (fun g => set_cancel_events
                 (filter (fun entry => is_stale_event g entry = false) (g_cancel_events g)) g);
  mret transition.

Definition fault (me : Z) (reason : TransitionReason)
    : M gate (option Z * CaptureStateTransition) :=
  _ ← assert_owner me;
  active ← gets g_active;
  draining ← gets g_draining;
  let previous_generation := match active with Some _ => active | None => draining end in
  _ ← cancel_active_locked;
  _ ← match active with
       | Some _ => modify (set_draining active)
       | None => mret tt
       end;
  invalidation_generation ← next_generation_locked;
  _ ← modify (set_active None);
  _ ← modify (set_healthy false);
  transition ← transition_locked FAULTED invalidation_generation reason;
  mret (previous_generation, transition).

(** *** Operations of the workers *)

Definition register_operation_locked (generation : Z) : M gate CaptureWorkPermit := fun g =>
  match g_cancel_events g !! generation with
  | None => (g, Raise StaleCaptureGeneration)
  | Some e =>
      if event_is_set g e then (g, Raise StaleCaptureGeneration)
      else match g_revision g with
           | None => (g, Raise RuntimeError)
           | Some revision =>
               (set_in_flight (<[generation := in_flight_of g generation + 1]> (g_in_flight g)) g,
                Ok {| permit_generation := generation; permit_revision := revision;
                      permit_event := e |})
           end
  end.

Definition acquire_preflight_operation (generation : Z) : M gate CaptureWorkPermit :=
  _ ← require_active_locked generation STARTING;
  register_operation_locked generation.

Definition acquire_capture_operation : M gate CaptureWorkPermit :=
  s ← gets g_state;
  _ ← require (bool_decide (s = RECORDING)) CaptureGateClosed;
  generation ← require_generation_locked RECORDING;
  register_operation_locked generation.

Definition acquire_persistence_operation (generation : Z) : M gate CaptureWorkPermit :=
  s ← gets g_state;
  _ ← require (bool_decide (s ∈ [RECORDING; PAUSED])) CaptureGateClosed;
  a ← gets g_active;
  _ ← require (bool_decide (a = Some generation)) StaleCaptureGeneration;
  register_operation_locked generation.

Definition release_operation (generation : Z) : M gate unit := fun g =>
  let current := in_flight_of g generation in
  if current <=? 1 then
    let g' := set_in_flight (delete generation (g_in_flight g)) g in
    (if bool_decide (g_active g ≠ Some generation)
     then set_cancel_events (delete generation (g_cancel_events g)) g' else g', Ok tt)
  else (set_in_flight (<[generation := current - 1]> (g_in_flight g)) g, Ok tt).

Definition require_current_generation (generation : Z) : M gate unit := fun g =>
  (g, if bool_decide (g_active g ≠ Some generation) then Raise StaleCaptureGeneration
      else if bool_decide (g_state g ∈ [RECORDING; PAUSED]) then Ok tt
      else Raise CaptureGateClosed).

(** A state that contains the gate *)
Class HasGate (T : Type) := {
  gate_of : T -> gate;
  put_gate : gate -> T -> T;
  gate_of_put : forall g t, gate_of (put_gate g t) = g }.

Section Run.
Context {T A : Type} `{HasGate T}.

(** The wait of [wait_for_operations]: each element of [wakeups] is one wake-up
    of the condition before the deadline, and what the other threads did
    meanwhile; when they are used up the deadline has passed. *)
Fixpoint wait_loop (generation : Z) (wakeups : list (M T unit)) : M T bool :=
  g ← gets gate_of;
  if in_flight_of g generation <=? 0 then mret true
  else match wakeups with
       | [] => mret false
       | others :: wakeups' => _ ← others; wait_loop generation wakeups'
       end.

Definition wait_for_operations (generation timeout : Z) (wakeups : list (M T unit)) : M T bool :=
  _ ← require (0 <? timeout) ValueError;
  wait_loop generation wakeups.

(** [run_capture], [run_persistence] and [run_preflight], for a caller whose
    state contains the gate. *)
Definition on_gate {B} (m : M gate B) : M T B := zoom gate_of put_gate m.

Definition run_with (acquire : M gate CaptureWorkPermit)
    (operation : CaptureWorkPermit -> M T A) : M T A :=
  permit ← on_gate acquire;
  try_finally (operation permit) (on_gate (release_operation (permit_generation permit))).

Definition run_preflight (generation : Z) := run_with (acquire_preflight_operation generation).
Definition run_capture := run_with acquire_capture_operation.
Definition run_persistence (generation : Z) :=
  run_with (acquire_persistence_operation generation).
End Run.

#[export] Instance gate_has_gate : HasGate gate :=
  {| gate_of := id; put_gate g _ := g; gate_of_put _ _ := eq_refl |}.
