(* ===== verification/GateFacts.v ===== *)
(** * GateFacts: the invariant of the capture gate and what each method does.

    [gate_inv] is the well-formedness of [CaptureGate]'s attributes; every
    method preserves it, whatever its outcome.  The [_ok] lemmas give the exact
    effect of a method on the branch where its guard holds. *)

From S2P Require Import Prelude Gate.

(** Cancel events: only past generations, each its own cell. *)
Record events_inv (c : gmap Z nat) (v : list bool) (epoch : Z) : Prop := {
  ei_bound : forall gen e, c !! gen = Some e -> 0 < gen <= epoch /\ (e < length v)%nat;
  ei_inj : forall gen gen' e, c !! gen = Some e -> c !! gen' = Some e -> gen = gen' }.

Definition flight_inv (f : gmap Z Z) (epoch : Z) : Prop :=
  forall gen n, f !! gen = Some n -> 0 < n /\ 0 < gen <= epoch.

(** The active generation is the newest one, its event exists and is clear. *)
Definition live (g : gate) (gen : Z) : Prop :=
  gen = g_epoch g /\ is_Some (g_revision g) /\
  exists e, g_cancel_events g !! gen = Some e /\ g_events g !! e = Some false.

Record gate_inv (g : gate) : Prop := {
  gi_epoch : 0 <= g_epoch g;
  gi_privacy : g_state g ≠ PRIVACY;
  gi_active : is_active_state (g_state g) = true <-> is_Some (g_active g);
  gi_live : forall gen, g_active g = Some gen -> live g gen;
  gi_started : g_state g ≠ OFF -> 0 < g_epoch g;
  gi_healthy : g_state g ≠ FAULTED -> g_state g ≠ OFF -> g_healthy g = true;
  gi_events : events_inv (g_cancel_events g) (g_events g) (g_epoch g);
  gi_flight : flight_inv (g_in_flight g) (g_epoch g) }.

Section Components.
Lemma events_inv_install c v epoch :
  0 <= epoch -> events_inv c v epoch ->
  events_inv (<[epoch + 1 := length v]> c) (v ++ [false]) (epoch + 1).
Proof.
  intros He [Hb Hi]. split.
  - intros gen e. rewrite length_app. simpl. rewrite lookup_insert_Some.
    intros [[<- <-]|[_ H]]; [lia|]. apply Hb in H. lia.
  - intros gen gen' e. rewrite !lookup_insert_Some.
    intros [[<- <-]|[_ H]] [[<- H']|[_ H']]; try done.
    + apply Hb in H'. lia.
    + apply Hb in H. lia.
    + eauto.
Qed.

Lemma events_inv_set c v epoch e b : events_inv c v epoch -> events_inv c (<[e := b]> v) epoch.
Proof.
  intros [Hb Hi]. split; [|done]. intros gen e' H. rewrite length_insert. by apply Hb in H.
Qed.

Lemma events_inv_subset c c' v epoch :
  c' ⊆ c -> events_inv c v epoch -> events_inv c' v epoch.
Proof.
  intros Hs [Hb Hi]. split.
  - intros gen e H. eapply Hb, lookup_weaken; eauto.
  - intros gen gen' e H H'. eapply Hi; eapply lookup_weaken; eauto.
Qed.

Lemma events_inv_mono c v epoch epoch' :
  events_inv c v epoch -> epoch <= epoch' -> events_inv c v epoch'.
Proof. intros [Hb Hi] He. split; [|done]. intros gen e H. apply Hb in H. lia. Qed.

Lemma flight_inv_mono f epoch epoch' : flight_inv f epoch -> epoch <= epoch' -> flight_inv f epoch'.
Proof. intros H He gen n Hn. apply H in Hn. lia. Qed.

Lemma flight_inv_insert f epoch gen n :
  0 < n -> 0 < gen <= epoch -> flight_inv f epoch -> flight_inv (<[gen := n]> f) epoch.
Proof.
  intros Hn Hg H gen' n'. rewrite lookup_insert_Some. intros [[<- <-]|[_ H']]; [done|by apply H].
Qed.

Lemma flight_inv_delete f epoch gen : flight_inv f epoch -> flight_inv (delete gen f) epoch.
Proof. intros H gen' n'. rewrite lookup_delete_Some. intros [_ H']. by apply H. Qed.

Lemma in_flight_of_nonneg g epoch gen : flight_inv (g_in_flight g) epoch -> 0 <= in_flight_of g gen.
Proof.
  intros H. unfold in_flight_of. destruct (_ !! gen) as [n|] eqn:E; simpl; [|lia].
  apply H in E. lia.
Qed.
End Components.

Create HintDb gate.
#[export] Hint Resolve events_inv_install events_inv_set events_inv_mono flight_inv_mono
  flight_inv_insert flight_inv_delete delete_subseteq map_filter_subseteq : gate.
#[export] Hint Extern 1 (_ <= _) => lia : gate.
#[export] Hint Extern 1 (_ < _) => lia : gate.

Lemma generation_ok v : 0 < v -> CaptureGeneration v = Ok v.
Proof. intros H. unfold CaptureGeneration. destruct (Z.leb_spec v 0); [lia|done]. Qed.

Lemma init_gate_inv : gate_inv init_gate.
Proof. split; try done. split; [done|by intros []]. Qed.

(** Symbolic execution of the gate's primitives on a known gate. *)
Lemma wp_assert_owner me Q g :
  (g_owner g = Some me -> Q (Ok tt) g) ->
  (g_owner g ≠ Some me -> Q (Raise CaptureGateOwnershipError) g) -> wp (assert_owner me) Q g.
Proof. intros H1 H2. split. unfold assert_owner. simpl. case_bool_decide; auto. Qed.

Lemma wp_next_generation Q g :
  0 <= g_epoch g -> Q (Ok (g_epoch g + 1)) (set_epoch (g_epoch g + 1) g) ->
  wp next_generation_locked Q g.
Proof.
  intros He H. unfold next_generation_locked. wp_steps. rewrite generation_ok; [done|lia].
Qed.

Lemma wp_install_cancel_event gen Q g :
  Q (Ok tt) (set_cancel_events (<[gen := length (g_events g)]> (g_cancel_events g))
               (set_events (g_events g ++ [false]) g)) ->
  wp (install_cancel_event gen) Q g.
Proof. by split. Qed.

Definition mk_tr previous current gen reason : CaptureStateTransition :=
  {| tr_previous := previous; tr_current := current; tr_generation := gen; tr_reason := reason |}.

Lemma wp_transition_locked current gen reason Q g :
  (current ∈ allowed_transitions (g_state g) ->
     Q (Ok (mk_tr (g_state g) current gen reason)) (set_state current g)) ->
  (current ∉ allowed_transitions (g_state g) -> Q (Raise ValueError) g) ->
  wp (transition_locked current gen reason) Q g.
Proof.
  intros H1 H2. unfold transition_locked. wp_steps. unfold make_transition.
  case_bool_decide; [by wp_steps; apply H1|by apply H2].
Qed.

(** [_cancel_active_locked] sets the event of the live generation, nothing else. *)
Lemma wp_cancel_active Q g :
  (forall gen e, g_active g = Some gen -> g_cancel_events g !! gen = Some e ->
     Q (Ok tt) (event_set e g)) ->
  (g_active g = None -> Q (Ok tt) g) ->
  gate_inv g -> wp cancel_active_locked Q g.
Proof.
  intros H1 H2 Hg. split. unfold cancel_active_locked.
  destruct (g_active g) as [gen|] eqn:Ha; [|by apply H2].
  destruct (gi_live _ Hg _ Ha) as (_ & _ & e & He & _). rewrite He. by eapply H1.
Qed.

(** One rule per primitive of the gate, on top of the generic ones. *)
Ltac gate_step :=
  first
    [ wp_step
    | lazymatch goal with
      | |- wp (assert_owner _) _ _ => apply wp_assert_owner; intros ?
      | |- wp next_generation_locked _ _ => apply wp_next_generation; [by cbn; eauto using gi_epoch|]
      | |- wp (install_cancel_event _) _ _ => apply wp_install_cancel_event
      | |- wp (transition_locked _ _ _) _ _ => apply wp_transition_locked; intros ?
      | |- wp cancel_active_locked _ _ => apply wp_cancel_active; [intros ? ? ? ?|intros ?|by cbn]
      end ].
Ltac gate_steps := repeat (gate_step; cbn [fst snd] in *).

Lemma inactive_none g : gate_inv g -> is_active_state (g_state g) = false -> g_active g = None.
Proof.
  intros Hg Hs. destruct (g_active g) eqn:E; [|done].
  assert (is_active_state (g_state g) = true) by (apply (gi_active _ Hg); by rewrite E). congruence.
Qed.

Lemma active_some g : gate_inv g -> is_active_state (g_state g) = true ->
  exists gen, g_active g = Some gen.
Proof. intros Hg Hs. by apply (gi_active _ Hg) in Hs as [gen Hgen]; eauto. Qed.

(** *** Well-formed shapes: a newly opened generation, and no generation *)

Lemma gate_inv_opened g s rev d h v :
  gate_inv g -> is_active_state s = true -> is_Some rev -> h = true ->
  events_inv (g_cancel_events g) v (g_epoch g) ->
  gate_inv {| g_owner := g_owner g; g_state := s; g_active := Some (g_epoch g + 1);
              g_draining := d; g_epoch := g_epoch g + 1; g_revision := rev; g_healthy := h;
              g_cancel_events := <[g_epoch g + 1 := length v]> (g_cancel_events g);
              g_in_flight := g_in_flight g; g_events := v ++ [false] |}.
Proof.
  intros Hg Hs Hr -> Hv. pose proof (gi_epoch _ Hg). destruct Hg. split; cbn; eauto with gate.
  - by intros ->.
  - done.
  - intros gen [= <-]. split; [done|]. split; [done|]. exists (length v). cbn.
    split; [apply lookup_insert_eq|]. by rewrite lookup_app_r, Nat.sub_diag.
Qed.

Lemma gate_inv_closed g s d e rev h c v :
  gate_inv g -> s ≠ PRIVACY -> is_active_state s = false -> g_epoch g <= e ->
  (s ≠ OFF -> 0 < e) -> (s ≠ FAULTED -> s ≠ OFF -> h = true) -> events_inv c v e ->
  gate_inv {| g_owner := g_owner g; g_state := s; g_active := None; g_draining := d; g_epoch := e;
              g_revision := rev; g_healthy := h; g_cancel_events := c;
              g_in_flight := g_in_flight g; g_events := v |}.
Proof.
  intros Hg Hp Hs He H0 Hh Hc. destruct Hg. split; cbn; eauto with gate.
  - by rewrite Hs; split; [|intros []].
  - done.
Qed.

Lemma gate_inv_state g s :
  gate_inv g -> is_active_state (g_state g) = true -> is_active_state s = true ->
  gate_inv (set_state s g).
Proof.
  intros Hg Ha Hs.
  assert (g_state g ≠ OFF /\ g_state g ≠ FAULTED) as [? ?] by (split; by intros E; rewrite E in Ha).
  destruct Hg. split; cbn; eauto with gate.
  - by intros ->.
  - rewrite Hs, <- gi_active0. by rewrite Ha.
Qed.

Lemma gate_inv_event g e :
  gate_inv g -> g_active g = None -> gate_inv (event_set e g).
Proof. intros Hg Ha. destruct Hg. split; cbn; eauto with gate. congruence. Qed.

(** *** The exact effect of each transition where its guard holds *)

(** The cells of running operations survive, and cancellation is for good. *)
Record events_kept (g g' : gate) : Prop := {
  ek_running : forall gen e, g_cancel_events g !! gen = Some e -> in_flight_of g gen ≠ 0 ->
     g_cancel_events g' !! gen = Some e;
  ek_cancelled : forall e, event_is_set g e = true -> event_is_set g' e = true }.

Lemma event_is_set_grow g g' v :
  g_events g' = g_events g ++ v -> forall e, event_is_set g e = true -> event_is_set g' e = true.
Proof.
  intros Hv e. unfold event_is_set. rewrite Hv. destruct (g_events g !! e) as [b|] eqn:E; [|done].
  by rewrite (lookup_app_l_Some _ _ _ _ E).
Qed.

Lemma event_is_set_cancel g g' e v :
  g_events g' = <[e := true]> (g_events g) ++ v ->
  forall e', event_is_set g e' = true -> event_is_set g' e' = true.
Proof.
  intros Hv e' He'.
  apply (event_is_set_grow (event_set e g) g' v); [done|]. unfold event_is_set in *. cbn.
  destruct (decide (e = e')) as [<-|Hn]; [|by rewrite list_lookup_insert_ne].
  destruct (g_events g !! e) eqn:E; [|done].
  by rewrite list_lookup_insert_eq by (by eapply lookup_lt_Some).
Qed.

(** [g'] is [g] with a fresh live generation, in state [s]. *)
Definition opened (s : CaptureState) (g g' : gate) : Prop :=
  gate_inv g' /\ g_owner g' = g_owner g /\ g_state g' = s /\
  g_active g' = Some (g_epoch g + 1) /\ g_epoch g' = g_epoch g + 1 /\
  g_in_flight g' = g_in_flight g /\ events_kept g g'.

(** [g'] is [g] with no live generation, in state [s]. *)
Definition closed (s : CaptureState) (g g' : gate) : Prop :=
  gate_inv g' /\ g_owner g' = g_owner g /\ g_state g' = s /\ g_active g' = None /\
  g_epoch g <= g_epoch g' /\ g_in_flight g' = g_in_flight g /\ events_kept g g'.

Lemma kept_opened g g' :
  gate_inv g ->
  (exists n, g_cancel_events g' = <[g_epoch g + 1 := n]> (g_cancel_events g)) ->
  (exists v, g_events g' = g_events g ++ v \/ exists e, g_events g' = <[e := true]> (g_events g) ++ v) ->
  events_kept g g'.
Proof.
  intros Hg [n Hc] [v Hv]. split.
  - intros gen e He _. rewrite Hc, lookup_insert_ne; [done|].
    pose proof (proj1 (ei_bound _ _ _ (gi_events _ Hg) _ _ He)). lia.
  - destruct Hv as [Hv|[e Hv]]; eauto using event_is_set_grow, event_is_set_cancel.
Qed.

Lemma kept_cells g g' :
  g_cancel_events g' = g_cancel_events g ->
  (g_events g' = g_events g \/ exists e, g_events g' = <[e := true]> (g_events g)) ->
  events_kept g g'.
Proof.
  intros Hc Hv. split; [by rewrite Hc|].
  destruct Hv as [Hv|[e Hv]]; [apply (event_is_set_grow _ _ [])|apply (event_is_set_cancel _ _ e [])];
    by rewrite app_nil_r.
Qed.

(** [g'] is [g] moved to state [s] in the same generation. *)
Definition moved (s : CaptureState) (g g' : gate) : Prop :=
  gate_inv g' /\ g' = set_state s g.

Ltac gate_shape := unfold opened, closed, moved; cbn; repeat split_and!; try done; try lia.
Ltac gate_guards :=
  repeat match goal with H : bool_decide _ = _ |- _ => revert H end;
  repeat match goal with H : g_state _ = _ |- _ => rewrite H end; intros;
  try done; cbn in *;
  try match goal with
  | H : ?c ∉ allowed_transitions ?s |- _ =>
      exfalso; apply H;
      repeat match goal with E : g_state _ = _ |- _ => rewrite E end;
      decide_true
  end;
  repeat match goal with E : g_state _ = _ |- _ => rewrite E end.

Lemma begin_start_ok me reason rev g :
  gate_inv g -> g_owner g = Some me -> g_state g = OFF ->
  wp (begin_start me reason rev) (fun r g' =>
    r = Ok (g_epoch g + 1, mk_tr OFF STARTING (g_epoch g + 1) reason) /\
    opened STARTING g g' /\ g_revision g' = Some rev) g.
Proof.
  intros Hg Ho Hs. unfold begin_start. gate_steps; gate_guards.
  gate_shape; [apply (gate_inv_opened g); [done..|apply Hg]|].
  apply kept_opened; cbn; eauto.
Qed.

Lemma mark_recording_ok me gen reason g :
  gate_inv g -> g_owner g = Some me -> g_state g = STARTING -> g_active g = Some gen ->
  wp (mark_recording me gen reason) (fun r g' =>
    r = Ok (mk_tr STARTING RECORDING gen reason) /\ moved RECORDING g g') g.
Proof.
  intros Hg Ho Hs Ha. unfold mark_recording. gate_steps; try done.
  split. unfold require_active_locked; cbn. rewrite Hs, Ha, bool_decide_false by naive_solver.
  gate_steps; gate_guards. gate_shape. apply gate_inv_state; by rewrite ?Hs.
Qed.

Lemma require_generation_ok s gen g Q :
  g_state g = s -> g_active g = Some gen -> Q (Ok gen) g ->
  wp (require_generation_locked s) Q g.
Proof. intros Hs Ha HQ. split. cbn. by rewrite Ha, bool_decide_true. Qed.

Lemma pause_ok me reason gen g :
  gate_inv g -> g_owner g = Some me -> g_state g = RECORDING -> g_active g = Some gen ->
  wp (pause me reason) (fun r g' =>
    r = Ok (mk_tr RECORDING PAUSED gen reason) /\ moved PAUSED g g') g.
Proof.
  intros Hg Ho Hs Ha. unfold pause. gate_steps; try done. eapply require_generation_ok; [done..|].
  gate_steps; gate_guards. gate_shape. apply gate_inv_state; by rewrite ?Hs.
Qed.

Lemma resume_ok me reason gen g :
  gate_inv g -> g_owner g = Some me -> g_state g = PAUSED -> g_active g = Some gen ->
  wp (resume me reason) (fun r g' =>
    r = Ok (mk_tr PAUSED RECORDING gen reason) /\ moved RECORDING g g') g.
Proof.
  intros Hg Ho Hs Ha. unfold resume. gate_steps; try done. eapply require_generation_ok; [done..|].
  gate_steps; gate_guards. gate_shape. apply gate_inv_state; by rewrite ?Hs.
Qed.

(** The generation that was live is cancelled for good. *)
Definition cancelled_in (gen : Z) (g g' : gate) : Prop :=
  forall e, g_cancel_events g !! gen = Some e -> event_is_set g' e = true.

Lemma event_set_is_set g e : (e < length (g_events g))%nat -> event_is_set (event_set e g) e = true.
Proof. intros H. unfold event_is_set. cbn. by rewrite list_lookup_insert_eq. Qed.

Lemma active_not_faulted s : is_active_state s = true -> s ≠ OFF /\ s ≠ FAULTED.
Proof. by destruct s. Qed.

Lemma active_to_paused s : is_active_state s = true -> PAUSED ∈ allowed_transitions s.
Proof. destruct s; intros; try done; decide_true. Qed.

(** The live generation's cell, seen after the call that cancels it. *)
Lemma cancelled_after gen g e v :
  gate_inv g -> g_active g = Some gen -> g_cancel_events g !! gen = Some e ->
  forall g', g_events g' = <[e := true]> (g_events g) ++ v -> cancelled_in gen g g'.
Proof.
  intros Hg Ha He g' Hv e' He'. assert (e' = e) as -> by congruence.
  destruct (ei_bound _ _ _ (gi_events _ Hg) _ _ He) as [_ Hlen].
  unfold event_is_set. rewrite Hv, lookup_app_l by (by rewrite length_insert).
  by rewrite list_lookup_insert_eq.
Qed.

Lemma invalidate_and_pause_ok me reason gen g :
  gate_inv g -> g_owner g = Some me -> is_active_state (g_state g) = true ->
  g_active g = Some gen ->
  wp (invalidate_and_pause me reason) (fun r g' =>
    r = Ok (Some gen, mk_tr (g_state g) PAUSED (g_epoch g + 1) reason) /\
    opened PAUSED g g' /\ g_revision g' = g_revision g /\ cancelled_in gen g g') g.
Proof.
  intros Hg Ho Hs Ha. unfold invalidate_and_pause.
  destruct (gi_live _ Hg _ Ha) as (_ & Hr & _).
  destruct (active_not_faulted _ Hs) as [Hoff Hflt].
  gate_steps; try congruence; cbn in *.
  - gate_shape; [by rewrite Ha|..].
    + apply (gate_inv_opened g); cbn; eauto using events_inv_set, gi_events, gi_healthy.
    + apply kept_opened; cbn; eauto.
    + eapply cancelled_after; [exact Hg|exact Ha| |reflexivity]. congruence.
  - by destruct H3; apply active_to_paused.
Qed.

Lemma wp_set_draining_if (a : option Z) Q g :
  (is_Some a -> Q (Ok tt) (set_draining a g)) -> (a = None -> Q (Ok tt) g) ->
  wp (match a with Some _ => modify (set_draining a) | None => mret tt end) Q g.
Proof. intros H1 H2. destruct a; wp_steps; eauto. Qed.

Lemma begin_stopping_ok me reason gen g :
  gate_inv g -> g_owner g = Some me -> is_active_state (g_state g) = true ->
  g_active g = Some gen ->
  wp (begin_stopping me reason) (fun r g' =>
    r = Ok (Some gen, mk_tr (g_state g) STOPPING (g_epoch g + 1) reason) /\
    closed STOPPING g g' /\ g_epoch g' = g_epoch g + 1 /\ cancelled_in gen g g') g.
Proof.
  intros Hg Ho Hs Ha. unfold begin_stopping. pose proof (gi_epoch _ Hg).
  gate_steps; try congruence; cbn in *.
  apply wp_set_draining_if; [intros _|congruence]. gate_steps; cbn in *.
  - gate_shape; [by rewrite Ha|..].
    + apply (gate_inv_closed g); cbn; try done; try lia.
      * intros _ _. apply gi_healthy; by destruct (active_not_faulted _ Hs).
      * eapply events_inv_mono; [apply events_inv_set, Hg|lia].
    + apply kept_cells; cbn; eauto.
    + eapply (cancelled_after _ _ _ []); [done..| |by rewrite app_nil_r]. congruence.
  - destruct (g_state g); try done; exfalso;
      match goal with H : _ ∉ _ |- _ => apply H; decide_true end.
Qed.

Lemma finish_off_ok me reason g :
  gate_inv g -> g_owner g = Some me -> OFF ∈ allowed_transitions (g_state g) ->
  wp (finish_off me reason) (fun r g' =>
    r = Ok (mk_tr (g_state g) OFF (g_epoch g) reason) /\
    closed OFF g g' /\ g_epoch g' = g_epoch g) g.
Proof.
  intros Hg Ho Hs. unfold finish_off, current_epoch_generation_locked.
  assert (0 < g_epoch g).
  { apply (gi_started _ Hg). intros E. rewrite E in Hs. revert Hs. decide_false. }
  gate_steps; try congruence. destruct (Z.eqb_spec (g_epoch g) 0) as [|_]; [lia|].
  gate_steps. rewrite generation_ok by lia. gate_steps; [|done].
  gate_shape.
  - apply (gate_inv_closed g); cbn; try done; try lia.
    eapply events_inv_subset; [|apply (gi_events _ Hg)]. apply map_filter_subseteq.
  - split; [|done]. intros gen e He Hf. cbn. apply map_lookup_filter_Some. split; [done|].
    apply Z.eqb_neq in Hf. unfold is_stale_event, in_flight_of in *. cbn.
    rewrite Hf. apply andb_false_r.
Qed.

(** [fault] closes whatever state the gate is in; it raises only on a gate
    already faulted. *)
Lemma fault_ok me reason g :
  gate_inv g -> g_owner g = Some me -> g_state g ≠ FAULTED ->
  wp (fault me reason) (fun r g' =>
    r = Ok (match g_active g with Some _ => g_active g | None => g_draining g end,
            mk_tr (g_state g) FAULTED (g_epoch g + 1) reason) /\
    closed FAULTED g g' /\ g_epoch g' = g_epoch g + 1 /\ g_healthy g' = false /\
    (forall gen, g_active g = Some gen -> cancelled_in gen g g')) g.
Proof.
  intros Hg Ho Hs. unfold fault. pose proof (gi_epoch _ Hg). pose proof (gi_privacy _ Hg).
  assert (FAULTED ∈ allowed_transitions (g_state g))
    by (destruct (g_state g); try done; decide_true).
  gate_steps; try done; apply wp_set_draining_if; intros ?; gate_steps; cbn in *; try done;
    try (destruct H3; congruence); gate_shape; try congruence;
    try (by apply kept_cells; cbn; eauto).
  - apply (gate_inv_closed g); cbn; try done; try lia.
    eapply events_inv_mono; [apply events_inv_set, Hg|lia].
  - intros gen' Hgen. eapply (cancelled_after _ _ _ []); [done..| |by rewrite app_nil_r]. congruence.
  - apply (gate_inv_closed g); cbn; try done; try lia.
    eapply events_inv_mono; [apply Hg|lia].
  - apply (gate_inv_closed g); cbn; try done; try lia.
    eapply events_inv_mono; [apply Hg|lia].
Qed.

(** *** Preservation, guards failing included *)

(** A failed call may still have spent an epoch. *)
Lemma gate_inv_spent g h :
  gate_inv g -> g_active g = None -> (g_state g ≠ FAULTED -> h = g_healthy g) ->
  gate_inv {| g_owner := g_owner g; g_state := g_state g; g_active := None;
              g_draining := g_draining g; g_epoch := g_epoch g + 1; g_revision := g_revision g;
              g_healthy := h; g_cancel_events := g_cancel_events g;
              g_in_flight := g_in_flight g; g_events := g_events g |}.
Proof.
  intros Hg Ha Hh. pose proof (gi_epoch _ Hg). apply (gate_inv_closed g); try lia; try done.
  - apply Hg.
  - destruct (is_active_state (g_state g)) eqn:E; [|done].
    apply (gi_active _ Hg) in E as [? ?]. congruence.
  - intros H1 H2. rewrite Hh by done. by apply gi_healthy.
  - eapply events_inv_mono; [apply Hg|lia].
Qed.

(** The owner's transitions, as one type. *)
Inductive owner_op :=
  | OpBeginStart (reason : TransitionReason) (configuration_revision : pystr)
  | OpMarkRecording (generation : Z) (reason : TransitionReason)
  | OpPause (reason : TransitionReason)
  | OpResume (reason : TransitionReason)
  | OpInvalidateAndPause (reason : TransitionReason)
  | OpBeginStopping (reason : TransitionReason)
  | OpFinishOff (reason : TransitionReason)
  | OpFault (reason : TransitionReason).

Definition discard {A} (m : M gate A) : M gate unit := _ ← m; mret tt.

Definition run_owner (me : Z) (op : owner_op) : M gate unit :=
  match op with
  | OpBeginStart r rev => discard (begin_start me r rev)
  | OpMarkRecording gen r => discard (mark_recording me gen r)
  | OpPause r => discard (pause me r)
  | OpResume r => discard (resume me r)
  | OpInvalidateAndPause r => discard (invalidate_and_pause me r)
  | OpBeginStopping r => discard (begin_stopping me r)
  | OpFinishOff r => discard (finish_off me r)
  | OpFault r => discard (fault me r)
  end.

(** What any owner call may do to a gate: keep the invariant, the owner and the
    running operations, never go back an epoch, and keep the generation only
    by staying in or moving between active states. *)
Definition owner_effect (g g' : gate) : Prop :=
  gate_inv g' /\ g_owner g' = g_owner g /\ g_in_flight g' = g_in_flight g /\
  g_epoch g <= g_epoch g' /\
  (g_active g' = g_active g \/ g_active g' = None \/ g_active g' = Some (g_epoch g + 1)) /\
  events_kept g g' /\
  (forall gen, g_active g = Some gen -> g_active g' ≠ Some gen -> cancelled_in gen g g').

Definition retires (g g' : gate) : Prop :=
  forall gen, g_active g = Some gen -> cancelled_in gen g g'.

Lemma retires_none g g' : g_active g = None -> retires g g'.
Proof. unfold retires. congruence. Qed.

Lemma retires_live gen g g' : g_active g = Some gen -> cancelled_in gen g g' -> retires g g'.
Proof. intros Ha Hc gen' Ha'. by assert (gen' = gen) as -> by congruence. Qed.

Lemma events_kept_refl g : events_kept g g.
Proof. done. Qed.

Lemma owner_effect_refl g : gate_inv g -> owner_effect g g.
Proof.
  unfold owner_effect. intros Hg.
  repeat split_and!; eauto using events_kept_refl; try lia. congruence.
Qed.

Lemma owner_effect_opened s g g' : opened s g g' -> retires g g' -> owner_effect g g'.
Proof. intros (?&?&?&?&He&?&?) ?. unfold owner_effect. rewrite He. split_and!; eauto. lia. Qed.

Lemma owner_effect_closed s g g' : closed s g g' -> retires g g' -> owner_effect g g'.
Proof. intros (?&?&?&?&?&?&?) ?. unfold owner_effect. split_and!; eauto. Qed.

Lemma owner_effect_moved s g g' : moved s g g' -> owner_effect g g'.
Proof.
  intros [? ->]. unfold owner_effect. cbn. split_and!; eauto; try lia; [by split|congruence].
Qed.

Lemma owner_effect_spent g h :
  gate_inv g -> g_active g = None -> (g_state g ≠ FAULTED -> h = g_healthy g) ->
  owner_effect g (set_healthy h (set_active None (set_epoch (g_epoch g + 1) g))).
Proof.
  intros Hg Ha Hh. unfold owner_effect. cbn. split_and!; eauto; [|lia|by split|congruence].
  by apply (gate_inv_spent g h).
Qed.

Lemma owner_effect_epoch g :
  gate_inv g -> g_active g = None -> owner_effect g (set_epoch (g_epoch g + 1) g).
Proof.
  intros Hg Ha. pose proof (owner_effect_spent g (g_healthy g) Hg Ha (fun _ => eq_refl)) as H.
  replace (set_epoch (g_epoch g + 1) g)
    with (set_healthy (g_healthy g) (set_active None (set_epoch (g_epoch g + 1) g))); [done|].
  destruct g; cbn in *; subst; reflexivity.
Qed.

#[export] Hint Resolve owner_effect_refl owner_effect_opened owner_effect_closed
  owner_effect_moved owner_effect_spent retires_none : gate.

Lemma wp_discard {A} (m : M gate A) (P : gate -> Prop) g :
  wp m (fun _ g' => P g') g -> wp (discard m) (fun _ g' => P g') g.
Proof.
  intros Hm. unfold discard. apply wp_bind. eapply wp_mono; [exact Hm|].
  intros [a|e] g' HP; [by apply wp_ret|done].
Qed.

Lemma raise_active_mismatch gen s g Q :
  ~ (g_state g = s /\ g_active g = Some gen) -> Q (Raise StaleCaptureGeneration) g ->
  wp (require_active_locked gen s) Q g.
Proof.
  intros Hn HQ. split. cbn. rewrite bool_decide_true; [done|].
  destruct (decide (g_state g = s)); [|by left]. right. naive_solver.
Qed.

Lemma raise_generation_mismatch s g Q :
  gate_inv g -> is_active_state s = true -> g_state g ≠ s -> Q (Raise ValueError) g ->
  wp (require_generation_locked s) Q g.
Proof. intros Hg Ha Hs HQ. split. cbn. destruct (g_active g); [|done]. by rewrite bool_decide_false. Qed.

Ltac use_ok lem := eapply wp_mono; [by eapply lem|]; cbn; intros ? ? ?; destruct_and?; eauto using retires_live with gate.

Lemma begin_start_effect me r rev g :
  gate_inv g -> wp (begin_start me r rev) (fun _ g' => owner_effect g g') g.
Proof.
  intros Hg. destruct (decide (g_owner g = Some me)) as [Ho|Ho];
    [destruct (decide (g_state g = OFF)) as [Hs|Hs];
      [assert (g_active g = None) by (apply inactive_none; [done|by rewrite Hs]);
       use_ok begin_start_ok|]|];
    unfold begin_start; gate_steps; try done; eauto with gate; btauto_hyps; done.
Qed.

Lemma mark_recording_effect me gen r g :
  gate_inv g -> wp (mark_recording me gen r) (fun _ g' => owner_effect g g') g.
Proof.
  intros Hg. destruct (decide (g_owner g = Some me)) as [Ho|Ho];
    [destruct (decide (g_state g = STARTING /\ g_active g = Some gen)) as [[Hs Ha]|Hn];
      [use_ok mark_recording_ok|]|];
    unfold mark_recording; gate_steps; try done; eauto with gate.
  apply raise_active_mismatch; eauto with gate.
Qed.

Lemma pause_effect me r g : gate_inv g -> wp (pause me r) (fun _ g' => owner_effect g g') g.
Proof.
  intros Hg. destruct (decide (g_owner g = Some me)) as [Ho|Ho];
    [destruct (decide (g_state g = RECORDING)) as [Hs|Hs];
      [destruct (active_some g Hg) as [gen Ha]; [by rewrite Hs|]; use_ok pause_ok|]|];
    unfold pause; gate_steps; try done; eauto with gate.
  apply raise_generation_mismatch; eauto with gate.
Qed.

Lemma resume_effect me r g : gate_inv g -> wp (resume me r) (fun _ g' => owner_effect g g') g.
Proof.
  intros Hg. destruct (decide (g_owner g = Some me)) as [Ho|Ho];
    [destruct (decide (g_state g = PAUSED)) as [Hs|Hs];
      [destruct (active_some g Hg) as [gen Ha]; [by rewrite Hs|]; use_ok resume_ok|]|];
    unfold resume; gate_steps; try done; eauto with gate.
  apply raise_generation_mismatch; eauto with gate.
Qed.

Lemma invalidate_and_pause_effect me r g :
  gate_inv g -> wp (invalidate_and_pause me r) (fun _ g' => owner_effect g g') g.
Proof.
  intros Hg. destruct (decide (g_owner g = Some me)) as [Ho|Ho];
    [destruct (is_active_state (g_state g)) eqn:Hs;
      [destruct (active_some g Hg Hs) as [gen Ha]; use_ok invalidate_and_pause_ok|]|];
    unfold invalidate_and_pause; gate_steps; try done; try congruence; eauto with gate.
Qed.

Lemma begin_stopping_effect me r g :
  gate_inv g -> wp (begin_stopping me r) (fun _ g' => owner_effect g g') g.
Proof.
  intros Hg. destruct (decide (g_owner g = Some me)) as [Ho|Ho];
    [destruct (is_active_state (g_state g)) eqn:Hs;
      [destruct (active_some g Hg Hs) as [gen Ha]; use_ok begin_stopping_ok|]|];
    unfold begin_stopping; gate_steps; try done; eauto with gate.
  - by rewrite (inactive_none g) in *.
  - apply wp_set_draining_if; intros Hd; [by rewrite H0 in Hd; destruct Hd|].
    gate_steps; [|by apply (owner_effect_spent g (g_healthy g))].
    exfalso. cbn in *. pose proof (gi_privacy _ Hg).
    destruct (g_state g); try done; revert H1; decide_false.
Qed.

Lemma finish_off_effect me r g :
  gate_inv g -> g_state g ≠ STARTING ->
  wp (finish_off me r) (fun _ g' => owner_effect g g') g.
Proof.
  intros Hg Hst. pose proof (gi_epoch _ Hg).
  destruct (decide (g_owner g = Some me)) as [Ho|Ho];
    [destruct (decide (OFF ∈ allowed_transitions (g_state g))) as [Hs|Hs]|].
  - assert (g_active g = None).
    { apply inactive_none; [done|]. pose proof (gi_privacy _ Hg). revert Hs.
      destruct (g_state g); try done; intros Hs; exfalso; revert Hs; decide_false. }
    use_ok finish_off_ok.
  - unfold finish_off, current_epoch_generation_locked; gate_steps; eauto with gate.
    destruct (Z.eqb_spec (g_epoch g) 0) as [He|He]; gate_steps; try done.
    + assert (g_state g = OFF) as Hoff.
      { destruct (decide (g_state g = OFF)) as [|Hn]; [done|]. apply (gi_started _ Hg) in Hn. lia. }
      apply owner_effect_epoch; [done|]. apply inactive_none; [done|by rewrite Hoff].
    + rewrite generation_ok by lia. gate_steps; eauto with gate. done.
  - unfold finish_off; gate_steps; eauto with gate. done.
Qed.

Lemma fault_effect me r g : gate_inv g -> wp (fault me r) (fun _ g' => owner_effect g g') g.
Proof.
  intros Hg. destruct (decide (g_owner g = Some me)) as [Ho|Ho];
    [destruct (decide (g_state g = FAULTED)) as [Hs|Hs]; [|use_ok fault_ok]|];
    unfold fault; gate_steps; try done; eauto with gate.
  - by rewrite (inactive_none g) in * by (by rewrite ?Hs).
  - apply wp_set_draining_if; intros Hd; [by rewrite H0 in Hd; destruct Hd|].
    gate_steps; [|by apply (owner_effect_spent g false)].
    exfalso. cbn in *. rewrite Hs in *. revert H1; decide_false.
Qed.

(** Any call of the owner, from any well-formed gate, whether it succeeds or
    raises; [finish_off] is for a gate that is not starting. *)
Definition owner_call (op : owner_op) (g : gate) : Prop :=
  match op with OpFinishOff _ => g_state g ≠ STARTING | _ => True end.

Lemma run_owner_effect me op g :
  gate_inv g -> owner_call op g -> wp (run_owner me op) (fun _ g' => owner_effect g g') g.
Proof.
  intros Hg Hc. destruct op; apply wp_discard;
    eauto using begin_start_effect, mark_recording_effect, pause_effect, resume_effect,
      invalidate_and_pause_effect, begin_stopping_effect, finish_off_effect, fault_effect.
Qed.

(** ** What the workers may change *)

(** Releases touch the running operations and dead cells only. *)
Record worker_effect (g g' : gate) : Prop := {
  we_inv : gate_inv g';
  we_owner : g_owner g' = g_owner g;
  we_state : g_state g' = g_state g;
  we_active : g_active g' = g_active g;
  we_draining : g_draining g' = g_draining g;
  we_epoch : g_epoch g' = g_epoch g;
  we_revision : g_revision g' = g_revision g;
  we_healthy : g_healthy g' = g_healthy g }.

Lemma worker_effect_refl g : gate_inv g -> worker_effect g g.
Proof. by split. Qed.

Lemma worker_effect_trans g1 g2 g3 : worker_effect g1 g2 -> worker_effect g2 g3 -> worker_effect g1 g3.
Proof. intros [] []. split; congruence. Qed.

Lemma gate_inv_drop g c f :
  gate_inv g -> flight_inv f (g_epoch g) -> c ⊆ g_cancel_events g ->
  (forall gen, g_active g = Some gen -> c !! gen = g_cancel_events g !! gen) ->
  gate_inv (set_cancel_events c (set_in_flight f g)).
Proof.
  intros Hg Hf Hc Ha. split; cbn; try apply Hg; try done.
  - intros gen Hgen. destruct (gi_live _ Hg _ Hgen) as (?&?&e&He&?).
    split; [done|]. split; [done|]. exists e. cbn. by rewrite (Ha _ Hgen).
  - eapply events_inv_subset; [done|apply Hg].
Qed.

Lemma gate_inv_in_flight g f :
  gate_inv g -> flight_inv f (g_epoch g) -> gate_inv (set_in_flight f g).
Proof. intros Hg Hf. split; cbn; try apply Hg. done. Qed.

Lemma release_worker_effect gen g :
  gate_inv g -> wp (release_operation gen) (fun r g' => r = Ok tt /\ worker_effect g g') g.
Proof.
  intros Hg. split. unfold release_operation. destruct (Z.leb_spec (in_flight_of g gen) 1) as [H1|H1].
  - split; [done|]. case_bool_decide as Ha; cbn.
    + split; try done. apply gate_inv_drop; [done|apply flight_inv_delete, Hg|apply delete_subseteq|].
      intros gn Hgn. apply lookup_delete_ne. congruence.
    + split; try done. apply gate_inv_in_flight; [done|apply flight_inv_delete, Hg].
  - split; [done|]. cbn. split; try done.
    assert (0 < gen <= g_epoch g) as Hb.
    { unfold in_flight_of in H1. destruct (_ !! gen) as [n|] eqn:E; [|simpl in H1; lia].
      by apply (gi_flight _ Hg) in E as [_ ?]. }
    apply gate_inv_in_flight, flight_inv_insert; [done|lia|done|apply Hg].
Qed.

