(* ===== verification/GateThreads.v ===== *)
(** * GateThreads: the capture gate under concurrent threads.

    The worker threads of [run_preflight], [run_capture] and [run_persistence]
    (lifecycle/gate.py) interleave with the transitions of the owner thread.
    A system state is the gate, the operations running under a permit, and the
    commit lock.  Each method body guarded by [_state_lock] is one step; an
    operation runs between its acquisition and its release; the transitions
    that take [_commit_lock] wait for a running commit. *)

From S2P Require Import Prelude Gate GateFacts.

Inductive op_kind := KPreflight | KCapture | KPersistence.
#[export] Instance op_kind_eq_dec : EqDecision op_kind.
Proof. solve_decision. Defined.

Record sys := {
  s_gate : gate;
  s_running : list (op_kind * CaptureWorkPermit);
  s_commit_held : bool }.

Definition init_sys (owner : Z) : sys :=
  {| s_gate := set_owner (Some owner) init_gate; s_running := []; s_commit_held := false |}.

(** [with self._commit_lock] appears in these transitions. *)
Definition takes_commit_lock (op : owner_op) : bool :=
  match op with
  | OpInvalidateAndPause _ | OpBeginStopping _ | OpFault _ => true
  | _ => false
  end.

Inductive label :=
  | LOwner (thread : Z) (op : owner_op)
  | LStart (kind : op_kind) (generation : Z)
  | LFinish (index : nat).

Definition acquire (kind : op_kind) (generation : Z) : M gate CaptureWorkPermit :=
  match kind with
  | KPreflight => acquire_preflight_operation generation
  | KCapture => acquire_capture_operation
  | KPersistence => acquire_persistence_operation generation
  end.

Definition is_persistence (r : op_kind * CaptureWorkPermit) : bool :=
  bool_decide (r.1 = KPersistence).

(** One step; [None] when the thread has to wait, or there is no such
    operation to finish.  An acquisition that raises runs nothing (and gives
    the commit lock back). *)
Definition sys_step (l : label) (s : sys) : option sys :=
  match l with
  | LOwner thread op =>
      if takes_commit_lock op && s_commit_held s then None
      else Some {| s_gate := (run_owner thread op (s_gate s)).1; s_running := s_running s;
                   s_commit_held := s_commit_held s |}
  | LStart kind generation =>
      if bool_decide (kind = KPersistence) && s_commit_held s then None
      else match acquire kind generation (s_gate s) with
           | (g, Ok p) =>
               Some {| s_gate := g; s_running := (kind, p) :: s_running s;
                       s_commit_held := bool_decide (kind = KPersistence) || s_commit_held s |}
           | (g, Raise _) =>
               Some {| s_gate := g; s_running := s_running s; s_commit_held := s_commit_held s |}
           end
  | LFinish i =>
      match s_running s !! i with
      | None => None
      | Some r =>
          Some {| s_gate := (release_operation (permit_generation r.2) (s_gate s)).1;
                  s_running := delete i (s_running s);
                  s_commit_held := negb (is_persistence r) && s_commit_held s |}
      end
  end.

(** [LifecycleActor] calls [finish_off] only when stopping or faulted
    (actor.py, [_handle_stop]): a start is never abandoned without being
    cancelled. *)
Definition actor_call (l : label) (g : gate) : Prop :=
  match l with LOwner _ op => owner_call op g | _ => True end.

Definition step (s : sys) (l : label) (s' : sys) : Prop :=
  sys_step l s = Some s' /\ actor_call l (s_gate s).

Definition reachable (owner : Z) (s : sys) : Prop := exists ls, steps step (init_sys owner) ls s.

(** ** The invariant *)

Definition runs_of (gen : Z) (l : list (op_kind * CaptureWorkPermit)) : Z :=
  sum_by (fun r => if bool_decide (permit_generation r.2 = gen) then 1 else 0) l.

(** A running operation's permit is backed by the gate's event, and is
    cancelled as soon as its generation is no longer the live one. *)
Definition permit_inv (g : gate) (r : op_kind * CaptureWorkPermit) : Prop :=
  g_cancel_events g !! permit_generation r.2 = Some (permit_event r.2) /\
  (g_active g ≠ Some (permit_generation r.2) -> permit_cancelled r.2 g = true) /\
  (r.1 = KPersistence -> g_active g = Some (permit_generation r.2) /\
                         g_state g ∈ [RECORDING; PAUSED]).

Record sys_inv (s : sys) : Prop := {
  si_gate : gate_inv (s_gate s);
  si_count : forall gen, in_flight_of (s_gate s) gen = runs_of gen (s_running s);
  si_permits : Forall (permit_inv (s_gate s)) (s_running s);
  si_commit : sum_by (fun r => if is_persistence r then 1 else 0) (s_running s) =
              if s_commit_held s then 1 else 0 }.

Lemma sum_by_delete {A} (f : A -> Z) l i x :
  l !! i = Some x -> sum_by f (delete i l) = sum_by f l - f x.
Proof.
  revert i. induction l as [|y l IH]; intros [|i] H; simplify_eq/=; rewrite !sum_by_cons; [lia|].
  rewrite (IH _ H). lia.
Qed.

Lemma runs_of_nonneg gen l : 0 <= runs_of gen l.
Proof. apply sum_by_nonneg. intros x _. by case_bool_decide. Qed.

Lemma runs_of_lookup gen l i r :
  l !! i = Some r -> permit_generation r.2 = gen -> 1 <= runs_of gen l.
Proof.
  intros Hi Hr. pose proof (runs_of_nonneg gen (delete i l)) as H. unfold runs_of in *.
  rewrite (sum_by_delete _ _ _ _ Hi), bool_decide_true in H by done. lia.
Qed.

Lemma runs_of_zero gen l r : runs_of gen l = 0 -> r ∈ l -> permit_generation r.2 ≠ gen.
Proof.
  intros H0 [i Hi]%list_elem_of_lookup Hr. pose proof (runs_of_lookup _ _ _ _ Hi Hr). lia.
Qed.

Lemma in_flight_insert g gen gen' n :
  in_flight_of (set_in_flight (<[gen := n]> (g_in_flight g)) g) gen' =
  if bool_decide (gen = gen') then n else in_flight_of g gen'.
Proof. unfold in_flight_of. cbn. rewrite lookup_insert. by repeat case_decide; case_bool_decide. Qed.

Lemma in_flight_delete g gen gen' :
  in_flight_of (set_in_flight (delete gen (g_in_flight g)) g) gen' =
  if bool_decide (gen = gen') then 0 else in_flight_of g gen'.
Proof. unfold in_flight_of. cbn. rewrite lookup_delete. by repeat case_decide; case_bool_decide. Qed.

(** ** What one acquisition and one release do *)

Definition acquired (kind : op_kind) (gen : Z) (g : gate) (p : CaptureWorkPermit) (g' : gate) : Prop :=
  let gn := permit_generation p in
  g' = set_in_flight (<[gn := in_flight_of g gn + 1]> (g_in_flight g)) g /\
  g_active g = Some gn /\
  g_cancel_events g !! gn = Some (permit_event p) /\ permit_cancelled p g = false /\
  match kind with
  | KPreflight => g_state g = STARTING /\ gn = gen
  | KCapture => g_state g = RECORDING
  | KPersistence => g_state g ∈ [RECORDING; PAUSED] /\ gn = gen
  end.

Lemma register_effect kind gen g :
  g_active g = Some gen ->
  match kind with
  | KPreflight => g_state g = STARTING | KCapture => g_state g = RECORDING
  | KPersistence => g_state g ∈ [RECORDING; PAUSED] end ->
  wp (register_operation_locked gen) (fun r g' =>
    match r with Ok p => acquired kind gen g p g' | Raise _ => g' = g end) g.
Proof.
  intros Ha Hk. split. unfold register_operation_locked.
  destruct (g_cancel_events g !! gen) as [e|] eqn:He; [|done].
  destruct (event_is_set g e) eqn:Hs; [done|]. destruct (g_revision g); [|done].
  unfold acquired. cbn. destruct kind; done.
Qed.

Lemma acquire_effect kind gen g :
  wp (acquire kind gen) (fun r g' =>
    match r with Ok p => exists gen', (kind ≠ KCapture -> gen' = gen) /\ acquired kind gen' g p g'
               | Raise _ => g' = g end) g.
Proof.
  destruct kind; unfold acquire, acquire_preflight_operation, acquire_capture_operation,
    acquire_persistence_operation.
  - apply wp_bind. split. unfold require_active_locked. case_bool_decide as Hn; cbn; [done|].
    eapply wp_mono; [apply (register_effect KPreflight)|];
      [destruct (decide (g_active g = Some gen)); naive_solver
      |destruct (decide (g_state g = STARTING)); naive_solver|].
    intros [p|e] g' H; [by exists gen|done].
  - wp_steps; [|done]. split. unfold require_generation_locked.
    destruct (g_active g) as [gn|] eqn:Ha; [|done]. case_bool_decide as Hs; cbn; [|done].
    eapply wp_mono; [by apply (register_effect KCapture)|].
    intros [p|e] g' H'; [by exists gn|done].
  - wp_steps; try done. btauto_hyps.
    eapply wp_mono; [by apply (register_effect KPersistence)|].
    intros [p|e] g' H'; [by exists gen|done].
Qed.

(** A release by a running operation of generation [gen]. *)
Definition released (gen : Z) (g g' : gate) : Prop :=
  g_owner g' = g_owner g /\ g_state g' = g_state g /\ g_active g' = g_active g /\
  g_epoch g' = g_epoch g /\ g_revision g' = g_revision g /\ g_healthy g' = g_healthy g /\
  g_events g' = g_events g /\
  (forall gn, in_flight_of g' gn = in_flight_of g gn - (if bool_decide (gen = gn) then 1 else 0)) /\
  flight_inv (g_in_flight g') (g_epoch g) /\
  g_cancel_events g' ⊆ g_cancel_events g /\
  (forall gn e, g_cancel_events g !! gn = Some e -> gn ≠ gen \/ g_active g = Some gen \/
     1 < in_flight_of g gen -> g_cancel_events g' !! gn = Some e).

Definition release_flight (gen : Z) (g : gate) : gmap Z Z :=
  if in_flight_of g gen <=? 1 then delete gen (g_in_flight g)
  else <[gen := in_flight_of g gen - 1]> (g_in_flight g).
Definition release_events (gen : Z) (g : gate) : gmap Z nat :=
  if (in_flight_of g gen <=? 1) && bool_decide (g_active g ≠ Some gen)
  then delete gen (g_cancel_events g) else g_cancel_events g.

Lemma release_run gen g :
  (release_operation gen g).1 =
  set_cancel_events (release_events gen g) (set_in_flight (release_flight gen g) g).
Proof.
  unfold release_operation, release_events, release_flight.
  destruct g; destruct (_ <=? 1); cbn; [|done]. by case_bool_decide.
Qed.

Lemma release_effect gen g :
  gate_inv g -> 1 <= in_flight_of g gen -> released gen g (release_operation gen g).1.
Proof.
  intros Hg Hf. pose proof (gi_flight _ Hg) as Hfl.
  assert (0 < gen <= g_epoch g) as Hb.
  { unfold in_flight_of in Hf. destruct (_ !! gen) as [n|] eqn:E; [|simpl in Hf; lia].
    by apply Hfl in E as [_ ?]. }
  rewrite release_run. unfold released. cbn. repeat split_and!; try done.
  - intros gn. unfold in_flight_of at 1. cbn. unfold release_flight.
    destruct (Z.leb_spec (in_flight_of g gen) 1).
    + rewrite lookup_delete. case_decide; case_bool_decide; subst; simpl; unfold in_flight_of in *; lia.
    + rewrite lookup_insert. case_decide; case_bool_decide; subst; simpl; unfold in_flight_of in *; lia.
  - unfold release_flight. destruct (Z.leb_spec (in_flight_of g gen) 1).
    + by apply flight_inv_delete.
    + apply flight_inv_insert; [lia|done|done].
  - unfold release_events. destruct (_ && _); [apply delete_subseteq|done].
  - intros gn e He Hk. unfold release_events. destruct (_ && _) eqn:E; [|done]. btauto_hyps.
    apply lookup_delete_Some. split; [|done]. intros ->. destruct Hk as [?|[?|?]]; [done|done|lia].
Qed.

Lemma release_gate_inv gen g :
  gate_inv g -> 1 <= in_flight_of g gen -> gate_inv (release_operation gen g).1.
Proof.
  intros Hg Hf. destruct (release_effect gen g Hg Hf)
    as (Ho&Hs&Ha&He&Hr&Hh&Hv&_&Hfl&Hsub&Hk).
  split; rewrite ?Hs, ?Ha, ?He, ?Hh, ?Hv; try done; try apply Hg.
  - intros gn Hgn. destruct (gi_live _ Hg gn Hgn) as (Hgen&Hrev&e&Hce&Hev). unfold live.
    rewrite He, Hr, Hv. split; [done|]. split; [done|]. exists e. split; [|done].
    apply (Hk _ _ Hce). destruct (decide (gn = gen)) as [->|]; naive_solver.
  - eapply events_inv_subset; [done|apply Hg].
Qed.

(** ** Every step preserves the invariant *)

Lemma in_flight_owner g g' gen : g_in_flight g' = g_in_flight g -> in_flight_of g' gen = in_flight_of g gen.
Proof. unfold in_flight_of. by intros ->. Qed.

Lemma permit_cancelled_kept g g' p :
  events_kept g g' -> permit_cancelled p g = true -> permit_cancelled p g' = true.
Proof. intros Hk. apply Hk. Qed.

Lemma wp_require_generation s g Q :
  (forall gen, g_active g = Some gen -> g_state g = s -> Q (Ok gen) g) ->
  Q (Raise ValueError) g -> wp (require_generation_locked s) Q g.
Proof. intros H1 H2. split. cbn. destruct (g_active g); [|done]. case_bool_decide; eauto. Qed.

(** Outside the commit lock the owner neither changes the live generation nor
    leaves the states in which records may be committed. *)
Lemma unlocked_effect me op g :
  gate_inv g -> takes_commit_lock op = false -> g_state g ∈ [RECORDING; PAUSED] ->
  wp (run_owner me op) (fun _ g' => g_active g' = g_active g /\ g_state g' ∈ [RECORDING; PAUSED]) g.
Proof.
  intros Hg Hop Hs. assert (g_state g ≠ OFF /\ g_state g ≠ STARTING /\ OFF ∉ allowed_transitions (g_state g)).
  { revert Hs. destruct (g_state g); intros Hs; try (exfalso; revert Hs; decide_false);
      split_and!; try done; decide_false. }
  destruct_and!. assert (0 < g_epoch g) by (by apply (gi_started _ Hg)).
  destruct op; try discriminate; apply wp_discard; unfold begin_start, mark_recording, pause, resume,
    finish_off, current_epoch_generation_locked; gate_steps; try done; btauto_hyps; try done.
  - apply raise_active_mismatch; [by intros []|done].
  - apply wp_require_generation; [intros gen Ha Hgs|done]. gate_steps; cbn; [|done].
    split; [done|decide_true].
  - apply wp_require_generation; [intros gen Ha Hgs|done]. gate_steps; cbn; [|done].
    split; [done|decide_true].
  - destruct (Z.eqb_spec (g_epoch g) 0); [lia|]. gate_steps. rewrite generation_ok by done.
    gate_steps; done.
Qed.

Lemma permit_inv_owner g g' r :
  owner_effect g g' -> permit_inv g r -> in_flight_of g (permit_generation r.2) ≠ 0 ->
  (r.1 = KPersistence -> g_active g' = g_active g /\ g_state g' ∈ [RECORDING; PAUSED]) ->
  permit_inv g' r.
Proof.
  intros (Hg'&Ho&Hf&He&Ha&Hk&Hret) (Hc&Hcan&Hp) Hr Hper. repeat split_and!.
  - by apply (ek_running _ _ Hk).
  - intros Hn. destruct (decide (g_active g = Some (permit_generation r.2))) as [Hact|Hact].
    + by eapply Hret.
    + by eapply permit_cancelled_kept, Hcan.
  - intros Hkind. destruct (Hper Hkind) as [-> ?]. destruct (Hp Hkind). done.
Qed.

Lemma si_running s r : sys_inv s -> r ∈ s_running s -> 1 <= in_flight_of (s_gate s) (permit_generation r.2).
Proof.
  intros Hs [i Hi]%list_elem_of_lookup. rewrite (si_count _ Hs). by eapply runs_of_lookup.
Qed.

Lemma persistence_count l r :
  r ∈ l -> r.1 = KPersistence -> 1 <= sum_by (fun r => if is_persistence r then 1 else 0) l.
Proof.
  intros [i Hi]%list_elem_of_lookup Hr.
  pose proof (sum_by_delete (fun r => if is_persistence r then 1 else 0) _ _ _ Hi) as Hd.
  assert (0 <= sum_by (fun r => if is_persistence r then 1 else 0) (delete i l)).
  { apply sum_by_nonneg. intros x _. by destruct (is_persistence x). }
  unfold is_persistence in Hd at 3. rewrite bool_decide_true in Hd by done. lia.
Qed.

Lemma sys_inv_owner thread op s s' :
  sys_inv s -> owner_call op (s_gate s) -> sys_step (LOwner thread op) s = Some s' -> sys_inv s'.
Proof.
  intros Hs Hc Hstep. cbn in Hstep. destruct (_ && _) eqn:Hl; [done|]. simplify_eq/=.
  pose proof (wp_elim _ _ _ (run_owner_effect thread op _ (si_gate _ Hs) Hc)) as He. cbn in He.
  destruct (run_owner thread op (s_gate s)) as [g' o] eqn:Hrun. cbn in *.
  pose proof He as (Hg'&Ho&Hf&_). split; cbn.
  - done.
  - intros gen. rewrite (in_flight_owner _ _ gen Hf). apply Hs.
  - apply Forall_forall. intros r Hr.
    pose proof (proj1 (Forall_forall _ _) (si_permits _ Hs) r Hr) as Hp.
    apply (permit_inv_owner (s_gate s)); try done.
    + pose proof (si_running _ _ Hs Hr). lia.
    + intros Hk. destruct (takes_commit_lock op) eqn:Ht; cbn in Hl.
      * pose proof (persistence_count _ _ Hr Hk). pose proof (si_commit _ Hs) as Hcm.
        rewrite Hl in Hcm. lia.
      * destruct Hp as (_&_&Hper). destruct (Hper Hk) as [Ha Hst].
        pose proof (unlocked_effect thread op _ (si_gate _ Hs) Ht Hst) as Hu.
        by apply (wp_run _ _ _ _ _ Hrun) in Hu.
  - apply Hs.
Qed.

Lemma permit_inv_flight g f r :
  permit_inv g r -> permit_inv (set_in_flight f g) r.
Proof. intros (?&?&?). by repeat split_and!. Qed.

Lemma acquired_gate_inv kind gen g p g' : gate_inv g -> acquired kind gen g p g' -> gate_inv g'.
Proof.
  intros Hg (->&Ha&_). pose proof (in_flight_of_nonneg _ _ (permit_generation p) (gi_flight _ Hg)).
  destruct (gi_live _ Hg _ Ha) as (Hgen&_&e&He&_).
  pose proof (proj1 (ei_bound _ _ _ (gi_events _ Hg) _ _ He)).
  split; cbn; try apply Hg. apply flight_inv_insert; [lia|done|apply Hg].
Qed.

Lemma sys_inv_start kind gen s s' :
  sys_inv s -> sys_step (LStart kind gen) s = Some s' -> sys_inv s'.
Proof.
  intros Hs Hstep. cbn in Hstep. destruct (_ && _) eqn:Hl; [done|].
  pose proof (wp_elim _ _ _ (acquire_effect kind gen (s_gate s))) as He. cbn in He.
  destruct (acquire kind gen (s_gate s)) as [g' [p|e]]; simplify_eq/=; [|by destruct s].
  destruct He as (gen'&_&Hacq). pose proof (acquired_gate_inv _ _ _ _ _ (si_gate _ Hs) Hacq) as Hg'.
  destruct Hacq as (->&Ha&Hc&Hcan&Hk). split; cbn.
  - done.
  - intros gn. rewrite in_flight_insert, !(si_count _ Hs). unfold runs_of. rewrite sum_by_cons. cbn. clear Hl.
    case_bool_decide as Hgn; [rewrite Hgn|]; lia.
  - constructor.
    + repeat split_and!; cbn; [done|by intros []|]. intros ->. by destruct Hk.
    + eapply Forall_impl; [apply (si_permits _ Hs)|]. intros r. apply permit_inv_flight.
  - rewrite sum_by_cons, (si_commit _ Hs). unfold is_persistence; cbn.
    case_bool_decide; cbn in *; [|lia]. by rewrite Hl.
Qed.

Lemma permit_inv_released g g' gen r :
  released gen g g' -> permit_inv g r ->
  (permit_generation r.2 ≠ gen \/ 1 < in_flight_of g gen) -> permit_inv g' r.
Proof.
  intros (_&Hs&Ha&_&_&_&Hv&_&_&_&Hk) (Hc&Hcan&Hp) Hr. unfold permit_inv, permit_cancelled, event_is_set.
  rewrite Hs, Ha, Hv. repeat split_and!; try done. apply (Hk _ _ Hc). naive_solver.
Qed.

Lemma sys_inv_finish i s s' :
  sys_inv s -> sys_step (LFinish i) s = Some s' -> sys_inv s'.
Proof.
  intros Hs Hstep. cbn in Hstep. destruct (s_running s !! i) as [r|] eqn:Hi; [|done]. simplify_eq/=.
  assert (1 <= in_flight_of (s_gate s) (permit_generation r.2)) as Hf
    by (apply si_running; [done|by eapply list_elem_of_lookup_2]).
  pose proof (release_effect _ _ (si_gate _ Hs) Hf) as Hrel.
  split; cbn.
  - by apply release_gate_inv, Hf; apply Hs.
  - intros gn. destruct Hrel as (_&_&_&_&_&_&_&Hc&_). rewrite Hc, (si_count _ Hs).
    unfold runs_of. rewrite (sum_by_delete _ _ _ _ Hi). lia.
  - apply Forall_forall. intros r' Hr'. eapply permit_inv_released; [done| |].
    + eapply Forall_forall; [apply (si_permits _ Hs)|]. by eapply list_elem_of_delete_inv.
    + destruct (decide (permit_generation r'.2 = permit_generation r.2)) as [He|]; [right|by left].
      rewrite (si_count _ Hs). apply list_elem_of_lookup in Hr' as [j Hj].
      pose proof (runs_of_lookup _ _ _ _ Hj He) as H1. revert H1. unfold runs_of.
      rewrite (sum_by_delete _ _ _ _ Hi), bool_decide_true by done. lia.
  - rewrite (sum_by_delete _ _ _ _ Hi), (si_commit _ Hs).
    destruct (is_persistence r) eqn:Hp; cbn; [|lia].
    unfold is_persistence in Hp. btauto_hyps.
    pose proof (persistence_count _ _ (list_elem_of_lookup_2 _ _ _ Hi) Hp) as H1.
    rewrite (si_commit _ Hs) in H1. destruct (s_commit_held s); lia.
Qed.

Lemma step_sys_inv s l s' : step s l s' -> sys_inv s -> sys_inv s'.
Proof.
  intros [Hstep Hc] Hs. destruct l; eauto using sys_inv_owner, sys_inv_start, sys_inv_finish.
Qed.

Lemma init_sys_inv owner : sys_inv (init_sys owner).
Proof. split; try done. by destruct init_gate_inv; split. Qed.

Lemma reachable_inv owner s : reachable owner s -> sys_inv s.
Proof.
  intros [ls Hls]. eapply steps_invariant; [|done|apply init_sys_inv]. eauto using step_sys_inv.
Qed.

(** ** The properties *)

(** C1 (commit_is_current): A record is only ever being committed under the live
    generation: while a persistence operation runs, whatever the other threads
    do, the gate is recording or paused, the generation is the active one and
    the permit is not cancelled. *)
Theorem commit_is_current owner s r :
  reachable owner s -> r ∈ s_running s -> r.1 = KPersistence ->
  g_active (s_gate s) = Some (permit_generation r.2) /\
  g_state (s_gate s) ∈ [RECORDING; PAUSED] /\ permit_cancelled r.2 (s_gate s) = false.
Proof.
  intros Hr%reachable_inv Hin Hk.
  destruct (proj1 (Forall_forall _ _) (si_permits _ Hr) _ Hin) as (Hc&_&Hp).
  destruct (Hp Hk) as [Ha Hs]. repeat split_and!; [done..|].
  destruct (gi_live _ (si_gate _ Hr) _ Ha) as (_&_&e&He&Hv).
  unfold permit_cancelled, event_is_set. replace (permit_event r.2) with e by congruence. by rewrite Hv.
Qed.

(** A run: one frame captured and one record committed before the owner stops. *)
Definition demo_run : list label :=
  [LOwner 7 (OpBeginStart USER_START (u "rev")); LStart KPreflight 1; LFinish 0;
   LOwner 7 (OpMarkRecording 1 USER_START); LStart KCapture 0; LStart KPersistence 1].

Fixpoint run_labels (ls : list label) (s : sys) : option sys :=
  match ls with
  | [] => Some s
  | l :: ls' => match sys_step l s with Some s' => run_labels ls' s' | None => None end
  end.

Fixpoint calls_ok (ls : list label) (s : sys) : bool :=
  match ls with
  | [] => true
  | l :: ls' =>
      match l with LOwner _ (OpFinishOff _) => bool_decide (g_state (s_gate s) ≠ STARTING)
                 | _ => true end &&
      match sys_step l s with Some s' => calls_ok ls' s' | None => true end
  end.

Lemma run_labels_steps ls s s' :
  run_labels ls s = Some s' -> calls_ok ls s = true -> steps step s ls s'.
Proof.
  revert s. induction ls as [|l ls IH]; intros s Hr Hc; simplify_eq/=; [constructor|].
  destruct (sys_step l s) as [s1|] eqn:E; [|done]. btauto_hyps.
  econstructor; [split; [exact E|]|by apply IH].
  destruct l as [? []| |]; cbn; try done. by btauto_hyps.
Qed.

Definition demo_sys : sys := default (init_sys 7) (run_labels demo_run (init_sys 7)).

Lemma demo_reachable : reachable 7 demo_sys.
Proof. exists demo_run. apply run_labels_steps; vm_compute; reflexivity. Defined.

Lemma commit_is_current_witness :
  reachable 7 demo_sys /\
  exists r, r ∈ s_running demo_sys /\ r.1 = KPersistence /\
    g_active (s_gate demo_sys) = Some (permit_generation r.2).
Proof.
  split; [exact demo_reachable|].
  exists (KPersistence, {| permit_generation := 1; permit_revision := u "rev"; permit_event := 0 |}).
  assert (H : (KPersistence, {| permit_generation := 1; permit_revision := u "rev";
    permit_event := 0 |}) ∈ s_running demo_sys) by (vm_compute; constructor).
  split; [exact H|]. split; [reflexivity|].
  exact (proj1 (commit_is_current 7 demo_sys _ demo_reachable H eq_refl)).
Defined.

#[export] Instance sys_has_gate : HasGate sys :=
  {| gate_of := s_gate;
     put_gate g s := {| s_gate := g; s_running := s_running s; s_commit_held := s_commit_held s |};
     gate_of_put _ _ := eq_refl |}.

(** What other threads do while one waits: steps of the system. *)
Definition others (m : M sys unit) : Prop := forall s, exists ls, steps step s ls (m s).1 /\ (m s).2 = Ok tt.

(** The schedule [ls], skipping what cannot happen *)
Definition scheduled (ls : list label) : M sys unit := fun s =>
  (if calls_ok ls s then default s (run_labels ls s) else s, Ok tt).

Lemma scheduled_others ls : others (scheduled ls).
Proof.
  intros s. unfold scheduled. cbn. destruct (calls_ok ls s) eqn:Hc; [|exists []; split; [constructor|done]].
  destruct (run_labels ls s) as [s'|] eqn:Hr; [|exists []; split; [constructor|done]].
  exists ls. split; [by apply run_labels_steps|done].
Qed.

Lemma reachable_steps owner s ls s' : reachable owner s -> steps step s ls s' -> reachable owner s'.
Proof. intros [ls0 H0] Hs. exists (ls0 ++ ls). by eapply steps_app. Qed.

(** The in-flight count tells whether an operation of the generation runs. *)
Lemma count_is_exact owner s gen : reachable owner s ->
  (in_flight_of (s_gate s) gen <=? 0 = true <-> forall r, r ∈ s_running s -> permit_generation r.2 ≠ gen).
Proof.
  intros Hr%reachable_inv. rewrite (si_count _ Hr), Z.leb_le. pose proof (runs_of_nonneg gen (s_running s)) as Hn. split.
  - intros H0 r Hin. apply (runs_of_zero _ _ _ (Z.le_antisymm _ _ H0 Hn) Hin).
  - clear. intros Hall. induction (s_running s) as [|r l IH]; [done|].
    unfold runs_of in *. rewrite sum_by_cons, bool_decide_false by (apply Hall; by constructor).
    apply IH. intros. apply Hall. by constructor.
Qed.

(** C2 (quiescence_is_sound): [wait_for_operations], given a positive
    timeout, tells the truth, whatever other threads do between the wake-ups of
    the wait (starting operations included): it answers true only at a moment
    when no operation of the generation runs, and false only when one does and
    the deadline has passed. *)
Theorem quiescence_is_sound owner s gen timeout wakeups s' b :
  reachable owner s -> 0 < timeout -> Forall others wakeups ->
  wait_for_operations gen timeout wakeups s = (s', b) ->
  reachable owner s' /\
  (b = Ok true /\ (forall r, r ∈ s_running s' -> permit_generation r.2 ≠ gen) \/
   b = Ok false /\ exists r, r ∈ s_running s' /\ permit_generation r.2 = gen).
Proof.
  intros Hr Ht Hw. unfold wait_for_operations, require, mbind, M_bind. rewrite (proj2 (Z.ltb_lt _ _) Ht).
  revert s Hr. induction Hw as [|m wakeups Hm Hw IH]; intros s Hr; cbn [wait_loop]; unfold mbind, M_bind, gets; cbn;
    destruct (in_flight_of (s_gate s) gen <=? 0) eqn:E; unfold mret, M_ret.
  1,3: intros [= <- <-]; split; [done|]; left; split; [done|]; by apply (count_is_exact owner).
  - intros [= <- <-]. split; [done|]. right. split; [done|].
    destruct (decide (Exists (fun r => permit_generation r.2 = gen) (s_running s))) as [Hx|Hno]; [by apply Exists_exists in Hx|].
    apply not_true_iff_false in E. destruct E. apply (count_is_exact owner); [done|]. intros r Hin Hg. apply Hno, Exists_exists. by exists r.
  - destruct (Hm s) as (ls&Hs&Hok). destruct (m s) as [s1 r1]. cbn in Hs, Hok. subst r1. apply IH. by eapply reachable_steps.
Qed.

(** A wait during which both operations finish, one after each wake-up, and
    one whose deadline passes first *)
Definition one_finishes : list (M sys unit) := [scheduled [LFinish 0]].
Definition both_finish : list (M sys unit) := [scheduled [LFinish 0]; scheduled [LFinish 0]].

Lemma quiescence_is_sound_witness :
  (wait_for_operations 1 5 both_finish demo_sys).2 = Ok true /\
  (forall r, r ∈ s_running (wait_for_operations 1 5 both_finish demo_sys).1 -> permit_generation r.2 ≠ 1) /\
  (wait_for_operations 1 5 one_finishes demo_sys).2 = Ok false /\
  exists r, r ∈ s_running (wait_for_operations 1 5 one_finishes demo_sys).1 /\ permit_generation r.2 = 1.
Proof.
  assert (Hb : (wait_for_operations 1 5 both_finish demo_sys).2 = Ok true) by (vm_compute; reflexivity).
  assert (Ho : (wait_for_operations 1 5 one_finishes demo_sys).2 = Ok false) by (vm_compute; reflexivity).
  assert (Hw : Forall others both_finish /\ Forall others one_finishes) by (split; repeat constructor; apply scheduled_others).
  assert (0 < 5) as H5 by lia. split; [exact Hb|]. split; [|split; [exact Ho|]].
  - destruct (quiescence_is_sound 7 demo_sys 1 5 both_finish _ _ demo_reachable H5 (proj1 Hw) (pair_of _ _ Hb)) as (_&[[_ H]|[H _]]);
      [exact H|discriminate H].
  - destruct (quiescence_is_sound 7 demo_sys 1 5 one_finishes _ _ demo_reachable H5 (proj2 Hw) (pair_of _ _ Ho)) as (_&[[H _]|[_ H]]);
      [discriminate H|exact H].
Defined.

(** [stale_operation_cancelled]: Invalidation reaches the workers: an
    operation still running under a generation that is no longer the live one
    (after a stop, a fault or an automatic pause) sees its permit cancelled. *)
Theorem stale_operation_cancelled owner s r :
  reachable owner s -> r ∈ s_running s ->
  g_active (s_gate s) ≠ Some (permit_generation r.2) -> permit_cancelled r.2 (s_gate s) = true.
Proof.
  intros Hr%reachable_inv Hin.
  by destruct (proj1 (Forall_forall _ _) (si_permits _ Hr) _ Hin) as (_&Hc&_).
Qed.

(** The capture of [demo_run], stopped while it is still running. *)
Definition stopped_run : list label :=
  [LOwner 7 (OpBeginStart USER_START (u "rev")); LOwner 7 (OpMarkRecording 1 USER_START);
   LStart KCapture 0; LOwner 7 (OpBeginStopping USER_STOP)].
Definition stopped_sys : sys := default (init_sys 7) (run_labels stopped_run (init_sys 7)).

Lemma stopped_reachable : reachable 7 stopped_sys.
Proof. exists stopped_run. apply run_labels_steps; vm_compute; reflexivity. Defined.

Definition stopped_op : op_kind * CaptureWorkPermit :=
  (KCapture, {| permit_generation := 1; permit_revision := u "rev"; permit_event := 0 |}).

Lemma stale_operation_cancelled_witness :
  reachable 7 stopped_sys /\ stopped_op ∈ s_running stopped_sys /\
  permit_cancelled stopped_op.2 (s_gate stopped_sys) = true.
Proof.
  assert (H : stopped_op ∈ s_running stopped_sys) by (vm_compute; constructor).
  split; [exact stopped_reachable|]. split; [exact H|].
  apply (stale_operation_cancelled 7 _ _ stopped_reachable H). vm_compute. discriminate.
Defined.

(** A generation is retired when it has been opened and is not the live one. *)
Definition retired (gen : Z) (g : gate) : Prop := gen <= g_epoch g /\ g_active g ≠ Some gen.

Lemma retired_step gen n s l s' :
  step s l s' -> sys_inv s /\ retired gen (s_gate s) /\ runs_of gen (s_running s) <= n ->
  sys_inv s' /\ retired gen (s_gate s') /\ runs_of gen (s_running s') <= n.
Proof.
  intros Hst (Hs&[He Ha]&Hn). split; [by eapply step_sys_inv|]. destruct Hst as [Hst Hc].
  destruct l as [thread op|kind gen'|i]; cbn in Hst.
  - destruct (_ && _); [done|]. simplify_eq/=.
    pose proof (wp_elim _ _ _ (run_owner_effect thread op _ (si_gate _ Hs) Hc)) as Heff. cbn in Heff.
    destruct Heff as (_&_&_&Hep&Hact&_). unfold retired.
    split; [split; [lia|]|done]. destruct Hact as [->|[->| ->]]; [done..|]. intros [= <-]. lia.
  - destruct (_ && _); [done|].
    pose proof (wp_elim _ _ _ (acquire_effect kind gen' (s_gate s))) as Heff. cbn in Heff.
    destruct (acquire kind gen' (s_gate s)) as [g' [p|e]]; simplify_eq/=; [|done].
    destruct Heff as (gn&_&->&Hact&_). split; [done|]. unfold runs_of in *. rewrite sum_by_cons. cbn.
    rewrite bool_decide_false by congruence. lia.
  - destruct (s_running s !! i) as [r|] eqn:Hi; [|done]. simplify_eq/=.
    assert (1 <= in_flight_of (s_gate s) (permit_generation r.2)) as Hf
      by (apply si_running; [done|by eapply list_elem_of_lookup_2]).
    destruct (release_effect _ _ (si_gate _ Hs) Hf) as (_&_&Hact&Hep&_). unfold retired.
    rewrite Hact, Hep. split; [done|]. unfold runs_of in *. rewrite (sum_by_delete _ _ _ _ Hi).
    case_bool_decide; lia.
Qed.

(** [retired_forever]: No work is ever admitted again for a retired
    generation: in every later state it is still retired and has at most the
    operations it had, so a drained generation stays drained. *)
Theorem retired_forever owner s ls s' gen :
  reachable owner s -> retired gen (s_gate s) -> steps step s ls s' ->
  retired gen (s_gate s') /\ runs_of gen (s_running s') <= runs_of gen (s_running s).
Proof.
  intros Hr%reachable_inv Hret Hls.
  by eapply (steps_invariant step
    (fun x => sys_inv x /\ retired gen (s_gate x) /\ runs_of gen (s_running x) <= runs_of gen (s_running s)));
    [intros ???; apply retired_step|exact Hls|].
Qed.

Definition late_run : list label :=
  [LFinish 0; LOwner 7 (OpFinishOff USER_STOP); LStart KPersistence 1; LStart KPreflight 1;
   LOwner 7 (OpBeginStart USER_START (u "rev")); LStart KPersistence 1].

Lemma retired_forever_witness :
  reachable 7 stopped_sys /\ retired 1 (s_gate stopped_sys) /\
  runs_of 1 (s_running (default (init_sys 7) (run_labels late_run stopped_sys))) <=
  runs_of 1 (s_running stopped_sys).
Proof.
  assert (H : retired 1 (s_gate stopped_sys)) by (split; vm_compute; discriminate).
  split; [exact stopped_reachable|]. split; [exact H|].
  apply (retired_forever 7 stopped_sys late_run _ 1 stopped_reachable H).
  apply run_labels_steps; vm_compute; reflexivity.
Defined.
