(* ===== verification/Lifecycle.v ===== *)
(** * Lifecycle: the actor that owns the capture gate.

    Models [lifecycle/messages.py] and [lifecycle/actor.py] ([LifecycleActor]
    and [_LifecyclePreflightActor]).  The actor's attributes are the record
    [actor]; its collaborators (configuration source, work coordinator, audit
    sink, clock, the preflight actor's mailbox) are the operations of
    [LifecyclePorts] on an arbitrary world [W], each free to raise.  Every
    handler is one definition, with its early returns in the source's order.
    Seconds are counted in whole nanoseconds. *)

From S2P Require Import Prelude Gate.

(** ** [lifecycle/messages.py] *)

Inductive LifecycleFaultCode :=
  | UNSUPPORTED_SESSION | ENCRYPTION_UNAVAILABLE | POLICY_FAILURE | PREFLIGHT_FAILURE
  | PREFLIGHT_TIMEOUT | CANCELLATION_FAILURE | QUIESCENCE_TIMEOUT | BUFFER_CLEAR_FAILURE
  | AUDIT_FAILURE | ACTOR_FAILURE | SHUTDOWN_FAILURE.
#[export] Instance LifecycleFaultCode_eq_dec : EqDecision LifecycleFaultCode.
Proof. solve_decision. Defined.

Record ConfigurationSnapshot := {
  cfg_revision : pystr;
  cfg_capture_permitted : bool }.

Record LifecyclePreflightRequest := {
  pr_configuration : ConfigurationSnapshot;
  pr_generation : Z;
  pr_deadline_monotonic_ns : Z;
  pr_cancellation : CaptureWorkPermit }.

Definition make_preflight_request (c : ConfigurationSnapshot) (generation deadline : Z)
    (cancellation : CaptureWorkPermit) : result LifecyclePreflightRequest :=
  _ ← throw_if (deadline <=? 0) ValueError;
  _ ← throw_if (negb (permit_generation cancellation =? generation)) ValueError;
  mret {| pr_configuration := c; pr_generation := generation;
          pr_deadline_monotonic_ns := deadline; pr_cancellation := cancellation |}.

Record LifecyclePreflightResult := {
  pf_ready : bool;
  pf_fault_code : option LifecycleFaultCode;
  pf_start_paused_reason : option TransitionReason }.

Definition make_preflight_result (ready : bool) (fault_code : option LifecycleFaultCode)
    (paused : option TransitionReason) : result LifecyclePreflightResult :=
  _ ← throw_if (ready && bool_decide (is_Some fault_code)) ValueError;
  _ ← throw_if (negb ready && bool_decide (fault_code = None)) ValueError;
  _ ← throw_if (negb ready && bool_decide (is_Some paused)) ValueError;
  _ ← throw_if (bool_decide (paused ∉ [None; Some SESSION_LOCKED; Some IDLE])) ValueError;
  mret {| pf_ready := ready; pf_fault_code := fault_code; pf_start_paused_reason := paused |}.

Definition preflight_failure (code : LifecycleFaultCode) : LifecyclePreflightResult :=
  {| pf_ready := false; pf_fault_code := Some code; pf_start_paused_reason := None |}.

Record RunLifecyclePreflight := {
  rp_configuration : ConfigurationSnapshot;
  rp_generation : Z;
  rp_deadline_monotonic_ns : Z;
  rp_reason : TransitionReason }.

Record CompleteLifecyclePreflight := {
  cp_generation : Z;
  cp_result : LifecyclePreflightResult;
  cp_reason : TransitionReason }.

(** [SetAutomaticCaptureBlock.__post_init__] *)
Definition valid_block (blocked : bool) (reason : TransitionReason) : bool :=
  bool_decide (reason ∈ if blocked then [SESSION_LOCKED; IDLE] else [SESSION_UNLOCKED; ACTIVE]).

(** What the actor may find in its inbox; [MUnknown] is any other object. *)
Inductive message :=
  | GetLifecycleSnapshot
  | StartCapture (reason : TransitionReason)
  | PauseCapture (reason : TransitionReason)
  | ResumeCapture (reason : TransitionReason)
  | SetAutomaticCaptureBlock (blocked : bool) (reason : TransitionReason)
  | StopCapture (reason : TransitionReason)
  | FaultCapture (fault_code : LifecycleFaultCode) (reason : TransitionReason)
  | PreflightComplete (completion : CompleteLifecyclePreflight)
  | MUnknown.

Record LifecycleCommandResult := {
  res_accepted : bool;
  res_changed : bool;
  res_snapshot : CaptureStateSnapshot;
  res_reason_code : pystr;
  res_fault_code : option LifecycleFaultCode }.

Record LifecycleAuditEvent := {
  ev_previous : CaptureState;
  ev_current : CaptureState;
  ev_reason : TransitionReason;
  ev_generation : Z;
  ev_configuration_revision : option pystr;
  ev_fault_code : option LifecycleFaultCode }.

(** ** The collaborators ([lifecycle/ports.py], the clock, the mailbox) *)

Class LifecyclePorts (W : Type) := {
  port_configuration : M W ConfigurationSnapshot;
  port_preflight_check : LifecyclePreflightRequest -> M W LifecyclePreflightResult;
  port_cancel_queued : Z -> M W unit;
  port_cancel_in_flight : Z -> M W unit;
  port_wait_for_quiescence : Z -> Z -> M W bool;
  port_clear_volatile_buffers : option Z -> M W unit;
  port_audit_emit : LifecycleAuditEvent -> M W unit;
  port_now : W -> Z * W;
  port_preflight_alive : W -> bool * W;
  port_preflight_start : M W unit;
  port_preflight_tell : RunLifecyclePreflight -> M W unit;
  port_preflight_stop : M W unit;
  (** the releases other threads make during a wait, wake-up by wake-up *)
  port_wakeups : W -> list (list Z) * W }.

Record actor (W : Type) := {
  a_gate : gate;
  a_manual_pause : bool;
  a_automatic_pause_reason : option TransitionReason;
  a_preflight_ref : bool;
  a_world : W }.
Arguments a_gate {W}. Arguments a_manual_pause {W}. Arguments a_automatic_pause_reason {W}.
Arguments a_preflight_ref {W}. Arguments a_world {W}.

Section Setters.
Context {W : Type}.
Definition put_a_gate (g : gate) (a : actor W) : actor W :=
  {| a_gate := g; a_manual_pause := a_manual_pause a;
     a_automatic_pause_reason := a_automatic_pause_reason a;
     a_preflight_ref := a_preflight_ref a; a_world := a_world a |}.
Definition set_manual (b : bool) (a : actor W) : actor W :=
  {| a_gate := a_gate a; a_manual_pause := b;
     a_automatic_pause_reason := a_automatic_pause_reason a;
     a_preflight_ref := a_preflight_ref a; a_world := a_world a |}.
Definition set_automatic (r : option TransitionReason) (a : actor W) : actor W :=
  {| a_gate := a_gate a; a_manual_pause := a_manual_pause a; a_automatic_pause_reason := r;
     a_preflight_ref := a_preflight_ref a; a_world := a_world a |}.
Definition set_preflight_ref (b : bool) (a : actor W) : actor W :=
  {| a_gate := a_gate a; a_manual_pause := a_manual_pause a;
     a_automatic_pause_reason := a_automatic_pause_reason a;
     a_preflight_ref := b; a_world := a_world a |}.
Definition put_world (w : W) (a : actor W) : actor W :=
  {| a_gate := a_gate a; a_manual_pause := a_manual_pause a;
     a_automatic_pause_reason := a_automatic_pause_reason a;
     a_preflight_ref := a_preflight_ref a; a_world := w |}.
End Setters.

#[export] Instance actor_has_gate W : HasGate (actor W) :=
  {| gate_of := a_gate; put_gate := put_a_gate; gate_of_put _ _ := eq_refl |}.

(** ** [lifecycle/actor.py] *)

Section Actor.
Context {W : Type} `{LifecyclePorts W}.
(** The actor's thread, and its two constructor parameters. *)
Variables (me preflight_timeout stop_timeout : Z).

Local Abbreviation MA := (M (actor W)).

Definition on_world {A} (m : M W A) : MA A := zoom a_world put_world m.
Definition ask {A} (q : W -> A * W) : MA A := fun a =>
  let (x, w) := q (a_world a) in (put_world w a, Ok x).
Definition get_snapshot : MA CaptureStateSnapshot := on_gate snapshot.

Definition command_result (accepted changed : bool) (reason_code : pystr)
    (fault_code : option LifecycleFaultCode) : MA LifecycleCommandResult :=
  s ← get_snapshot;
  mret {| res_accepted := accepted; res_changed := changed; res_snapshot := s;
          res_reason_code := reason_code; res_fault_code := fault_code |}.

Definition clear_buffers (generation : option Z) : MA (option LifecycleFaultCode) :=
  try_except (_ ← on_world (port_clear_volatile_buffers generation); mret None)
    (fun _ => mret (Some BUFFER_CLEAR_FAILURE)).

(** [a or b] on fault codes *)
Definition or_fault (a b : option LifecycleFaultCode) : option LifecycleFaultCode :=
  match a with Some _ => a | None => b end.

(** While the actor waits it changes the gate only through the releases of the
    other threads: the owner of the gate is the one that waits. *)
Definition wait_gate (generation remaining : Z) : MA bool :=
  wakeups ← ask port_wakeups;
  on_gate (wait_for_operations generation remaining
             ((fun releases => for_each releases release_operation) <$> wakeups)).

Definition drain_generation (generation : option Z) : MA (option LifecycleFaultCode) :=
  match generation with
  | None => clear_buffers None
  | Some gen =>
      start ← ask port_now;
      let deadline := start + stop_timeout in
      fault_code ← try_except (_ ← on_world (port_cancel_queued gen); mret None)
                     (fun _ => mret (Some CANCELLATION_FAILURE));
      fault_code ← try_except (_ ← on_world (port_cancel_in_flight gen); mret fault_code)
                     (fun _ => mret (or_fault fault_code (Some CANCELLATION_FAILURE)));
      now ← ask port_now;
      let remaining := deadline - now in
      gate_quiescent ← (if 0 <? remaining then wait_gate gen remaining else mret false);
      now ← ask port_now;
      let remaining := deadline - now in
      pipeline_quiescent ←
        try_except
          (if 0 <? remaining then on_world (port_wait_for_quiescence gen remaining)
           else mret false)
          (fun _ => mret false);
      let fault_code :=
        if negb gate_quiescent || negb pipeline_quiescent
        then or_fault fault_code (Some QUIESCENCE_TIMEOUT) else fault_code in
      clear_failure ← clear_buffers (Some gen);
      mret (or_fault fault_code clear_failure)
  end.

(** The body of [_emit_transition] up to its [except] branch: whether the
    audit sink took the event. *)
Definition emit_event (tr : CaptureStateTransition) (fault_code : option LifecycleFaultCode)
    : MA bool :=
  revision ← on_gate (gets g_revision);
  let event := {| ev_previous := tr_previous tr; ev_current := tr_current tr;
                  ev_reason := tr_reason tr; ev_generation := tr_generation tr;
                  ev_configuration_revision := revision; ev_fault_code := fault_code |} in
  try_except (_ ← on_world (port_audit_emit event); mret true) (fun _ => mret false).

(** [_enter_fault] emits with [fail_closed=False]: a failing sink is ignored. *)
Definition enter_fault (fault_code : LifecycleFaultCode) (reason : TransitionReason)
    (drain : bool) : MA LifecycleCommandResult :=
  current ← get_snapshot;
  if bool_decide (snap_state current = FAULTED)
  then command_result false false (u "faulted") (Some fault_code)
  else
    '(generation, transition) ← on_gate (fault me reason);
    _ ← emit_event transition (Some fault_code);
    _ ← (if drain then drain_generation generation else mret None);
    command_result false true (u "faulted") (Some fault_code).

Definition fail (fault_code : LifecycleFaultCode) : MA LifecycleCommandResult :=
  enter_fault fault_code CRITICAL_FAULT true.

(** [_emit_transition] with its default [fail_closed=True]. *)
Definition emit_transition (tr : CaptureStateTransition) : MA bool :=
  taken ← emit_event tr None;
  if (taken : bool) then mret true
  else
    current ← get_snapshot;
    _ ← (if bool_decide (snap_state current ≠ FAULTED)
          then _ ← fail AUDIT_FAILURE; mret tt else mret tt);
    mret false.

(** [if not self._emit_transition(tr): return audit_failure  else: k] *)
Definition emitting (tr : CaptureStateTransition) (k : MA LifecycleCommandResult)
    : MA LifecycleCommandResult :=
  emitted ← emit_transition tr;
  if (emitted : bool) then k
  else command_result false true (u "audit_failure") (Some AUDIT_FAILURE).

Definition handle_start (reason : TransitionReason) : MA LifecycleCommandResult :=
  current ← get_snapshot;
  if bool_decide (snap_state current ∈ [RECORDING; STARTING])
  then command_result true false (u "already_started") None
  else if bool_decide (snap_state current = PAUSED)
  then command_result false false (u "capture_paused") None
  else if bool_decide (snap_state current ≠ OFF)
  then command_result false false (u "invalid_start_state") None
  else
    configuration ← try_except (c ← on_world port_configuration; mret (Some c)) (fun _ => mret None);
    match configuration with
    | None => fail PREFLIGHT_FAILURE
    | Some c =>
        if negb (cfg_capture_permitted c)
        then command_result false false (u "capture_disabled_by_configuration") None
        else
          '(generation, transition) ← on_gate (begin_start me reason (cfg_revision c));
          emitting transition
            (has_ref ← gets a_preflight_ref;
             alive ← (if (has_ref : bool) then ask port_preflight_alive else mret false);
             if negb alive then fail PREFLIGHT_FAILURE
             else
               now ← ask port_now;
               _ ← on_world (port_preflight_tell
                     {| rp_configuration := c; rp_generation := generation;
                        rp_deadline_monotonic_ns := now + preflight_timeout;
                        rp_reason := reason |});
               command_result true true (u "starting") None)
    end.

(** The tail shared by a paused start and an automatic block: invalidate,
    audit, drain, report. *)
Definition drain_after_pause (generation : option Z) : MA LifecycleCommandResult :=
  fault_code ← drain_generation generation;
  match fault_code with
  | Some code => enter_fault code CRITICAL_FAULT false
  | None => command_result true true (u "session_safety_paused") None
  end.

Definition handle_preflight_complete (m : CompleteLifecyclePreflight)
    : MA LifecycleCommandResult :=
  current ← get_snapshot;
  if bool_decide (snap_state current ≠ STARTING \/ snap_generation current ≠ Some (cp_generation m))
  then command_result false false (u "stale_preflight_ignored") None
  else if negb (pf_ready (cp_result m))
  then fail (default PREFLIGHT_FAILURE (pf_fault_code (cp_result m)))
  else
    automatic ← gets a_automatic_pause_reason;
    let pause_reason := match pf_start_paused_reason (cp_result m) with
                        | Some r => Some r | None => automatic end in
    match pause_reason with
    | Some r =>
        '(generation, transition) ← on_gate (invalidate_and_pause me r);
        _ ← modify (set_automatic (Some r));
        emitting transition (drain_after_pause generation)
    | None =>
        transition ← on_gate (mark_recording me (cp_generation m) (cp_reason m));
        emitting transition (command_result true true (u "recording") None)
    end.

Definition handle_pause (reason : TransitionReason) : MA LifecycleCommandResult :=
  current ← get_snapshot;
  if bool_decide (snap_state current = PAUSED)
  then _ ← modify (set_manual true); command_result true false (u "already_paused") None
  else if bool_decide (snap_state current ≠ RECORDING)
  then command_result false false (u "invalid_pause_state") None
  else
    _ ← modify (set_manual true);
    transition ← on_gate (pause me reason);
    emitting transition (command_result true true (u "paused") None).

Definition handle_resume (reason : TransitionReason) : MA LifecycleCommandResult :=
  current ← get_snapshot;
  automatic ← gets a_automatic_pause_reason;
  if bool_decide (automatic ≠ None)
  then command_result false false (u "session_safety_blocked") None
  else if bool_decide (snap_state current = RECORDING)
  then _ ← modify (set_manual false); command_result true false (u "already_recording") None
  else if bool_decide (snap_state current ≠ PAUSED)
  then command_result false false (u "invalid_resume_state") None
  else
    transition ← on_gate (resume me reason);
    _ ← modify (set_manual false);
    emitting transition (command_result true true (u "recording") None).

Definition handle_automatic_block (blocked : bool) (reason : TransitionReason)
    : MA LifecycleCommandResult :=
  current ← get_snapshot;
  automatic ← gets a_automatic_pause_reason;
  if blocked then
    if bool_decide (automatic = Some SESSION_LOCKED /\ reason = IDLE)
    then command_result true false (u "stronger_safety_block_active") None
    else if bool_decide (automatic = Some reason /\ snap_state current = PAUSED)
    then command_result true false (u "session_safety_already_blocked") None
    else
      _ ← modify (set_automatic (Some reason));
      if bool_decide (snap_state current ∈ [OFF; STOPPING; FAULTED])
      then command_result true false (u "session_safety_latched") None
      else
        '(generation, transition) ← on_gate (invalidate_and_pause me reason);
        emitting transition (drain_after_pause generation)
  else
    let expected_release :=
      if bool_decide (automatic = Some SESSION_LOCKED) then SESSION_UNLOCKED else ACTIVE in
    if bool_decide (automatic = None)
    then command_result true false (u "session_safety_already_clear") None
    else if bool_decide (reason ≠ expected_release)
    then command_result false false (u "session_safety_release_mismatch") None
    else
      _ ← modify (set_automatic None);
      manual ← gets a_manual_pause;
      if bool_decide (snap_state current ≠ PAUSED) || manual
      then command_result true false (u "manual_pause_retained") None
      else
        transition ← on_gate (resume me reason);
        emitting transition (command_result true true (u "recording") None).

Definition handle_stop (reason : TransitionReason) : MA LifecycleCommandResult :=
  _ ← modify (set_manual false);
  current ← get_snapshot;
  if bool_decide (snap_state current = OFF)
  then command_result true false (u "already_off") None
  else if bool_decide (snap_state current = FAULTED)
  then
    fault_code ← clear_buffers None;
    match fault_code with
    | Some code => command_result false false (u "buffer_clear_failure") (Some code)
    | None =>
        transition ← on_gate (finish_off me reason);
        emitting transition (command_result true true (u "off") None)
    end
  else
    '(generation, transition) ← on_gate (begin_stopping me reason);
    emitting transition
      (fault_code ← drain_generation generation;
       match fault_code with
       | Some code => enter_fault code CRITICAL_FAULT false
       | None =>
           transition ← on_gate (finish_off me reason);
           emitting transition (command_result true true (u "off") None)
       end).

Definition handle_fault (fault_code : LifecycleFaultCode) (reason : TransitionReason)
    : MA LifecycleCommandResult :=
  current ← get_snapshot;
  if bool_decide (snap_state current = FAULTED)
  then command_result true false (u "already_faulted") (Some fault_code)
  else enter_fault fault_code reason true.

(** *** [on_receive], [on_start], [on_stop], [on_failure] *)

Inductive reply :=
  | ReplySnapshot (s : CaptureStateSnapshot)
  | ReplyCommand (r : LifecycleCommandResult).

Definition command (m : MA LifecycleCommandResult) : MA reply := r ← m; mret (ReplyCommand r).

Definition on_receive (msg : message) : MA reply :=
  match msg with
  | GetLifecycleSnapshot => s ← get_snapshot; mret (ReplySnapshot s)
  | StartCapture reason => command (handle_start reason)
  | PauseCapture reason => command (handle_pause reason)
  | ResumeCapture reason => command (handle_resume reason)
  | SetAutomaticCaptureBlock blocked reason => command (handle_automatic_block blocked reason)
  | StopCapture reason => command (handle_stop reason)
  | FaultCapture code reason => command (handle_fault code reason)
  | PreflightComplete completion => command (handle_preflight_complete completion)
  | MUnknown => command (fail ACTOR_FAILURE)
  end.

Definition on_start : MA unit :=
  _ ← on_gate (bind_owner me);
  _ ← on_world port_preflight_start;
  _ ← modify (set_preflight_ref true);
  configuration ← try_except (c ← on_world port_configuration; mret (Some c)) (fun _ => mret None);
  match configuration with
  | None => _ ← fail PREFLIGHT_FAILURE; mret tt
  | Some c =>
      if cfg_capture_permitted c then _ ← handle_start STARTUP_OPT_IN; mret tt else mret tt
  end.

Definition stop_preflight_actor : MA unit :=
  has_ref ← gets a_preflight_ref;
  _ ← modify (set_preflight_ref false);
  if negb has_ref then mret tt
  else
    alive ← ask port_preflight_alive;
    if (alive : bool) then on_world port_preflight_stop else mret tt.

Definition on_stop : MA unit :=
  try_finally
    (current ← get_snapshot;
     if bool_decide (snap_state current ≠ OFF)
     then
       r ← handle_stop SHUTDOWN;
       if bool_decide (snap_state (res_snapshot r) ∉ [OFF; FAULTED])
       then _ ← fail SHUTDOWN_FAILURE; mret tt
       else mret tt
     else mret tt)
    (_ ← stop_preflight_actor; on_gate (release_owner me)).

Definition on_failure : MA unit :=
  _ ← fail ACTOR_FAILURE;
  _ ← stop_preflight_actor;
  on_gate (release_owner me).

(** [_LifecyclePreflightActor.on_receive]: the message it sends back, if any. *)
Definition preflight_on_receive (m : RunLifecyclePreflight)
    : MA (option CompleteLifecyclePreflight) :=
  outcome ← (fun a =>
    match run_preflight (rp_generation m)
            (fun permit =>
               request ← lift (make_preflight_request (rp_configuration m) (rp_generation m)
                                 (rp_deadline_monotonic_ns m) permit);
               on_world (port_preflight_check request)) a with
    | (a', Ok r) => (a', Ok (Some r))
    | (a', Raise CaptureGateClosed) | (a', Raise StaleCaptureGeneration) => (a', Ok None)
    | (a', Raise _) => (a', Ok (Some (preflight_failure PREFLIGHT_FAILURE)))
    end);
  match outcome with
  | None => mret None
  | Some r =>
      now ← ask port_now;
      let r := if rp_deadline_monotonic_ns m <? now
               then preflight_failure PREFLIGHT_TIMEOUT else r in
      mret (Some {| cp_generation := rp_generation m; cp_result := r; cp_reason := rp_reason m |})
  end.
End Actor.
