(* ===== verification/LifecycleFacts.v ===== *)
(** * LifecycleFacts: the contract of the lifecycle actor.

    [outcomes] is the abstract specification: a three-field machine (capture
    state, manual pause, automatic pause reason) and, for each message, the
    states a handler may leave.  [on_receive_refines] shows that the detailed
    actor implements it for every behaviour of its collaborators; the safety
    properties are then read off the specification. *)

From S2P Require Import Prelude Gate GateFacts Lifecycle.

(** ** The abstract machine *)

Record astate := {
  st : CaptureState;
  manual : bool;
  automatic : option TransitionReason }.
#[export] Instance astate_eq_dec : EqDecision astate.
Proof. solve_decision. Defined.

Definition with_st (c : CaptureState) (s : astate) : astate :=
  {| st := c; manual := manual s; automatic := automatic s |}.
Definition with_manual (b : bool) (s : astate) : astate :=
  {| st := st s; manual := b; automatic := automatic s |}.
Definition with_automatic (r : option TransitionReason) (s : astate) : astate :=
  {| st := st s; manual := manual s; automatic := r |}.

(** An audited transition ends in its target, or faulted when the audit sink
    (or the drain after it) fails. *)
Definition to (c : CaptureState) (s : astate) : list astate := [with_st c s; with_st FAULTED s].

Definition fault_outcomes (s : astate) : list astate :=
  if bool_decide (st s = FAULTED) then [s] else [with_st FAULTED s].

Definition outcomes (s : astate) (m : message) : list astate :=
  match m with
  | GetLifecycleSnapshot => [s]
  | StartCapture _ => match st s with OFF => s :: to STARTING s | _ => [s] end
  | PauseCapture _ =>
      match st s with
      | PAUSED => [with_manual true s]
      | RECORDING => to PAUSED (with_manual true s)
      | _ => [s]
      end
  | ResumeCapture _ =>
      match automatic s, st s with
      | Some _, _ => [s]
      | None, RECORDING => [with_manual false s]
      | None, PAUSED => to RECORDING (with_manual false s)
      | None, _ => [s]
      end
  | SetAutomaticCaptureBlock true r =>
      if bool_decide (automatic s = Some SESSION_LOCKED /\ r = IDLE) then [s]
      else if bool_decide (automatic s = Some r /\ st s = PAUSED) then [s]
      else let s' := with_automatic (Some r) s in
           if is_active_state (st s) then to PAUSED s' else [s']
  | SetAutomaticCaptureBlock false r =>
      match automatic s with
      | None => [s]
      | Some a =>
          if bool_decide (r = if bool_decide (a = SESSION_LOCKED) then SESSION_UNLOCKED else ACTIVE)
          then let s' := with_automatic None s in
               if bool_decide (st s = PAUSED) && negb (manual s) then to RECORDING s' else [s']
          else [s]
      end
  | StopCapture _ =>
      let s' := with_manual false s in
      match st s with
      | OFF => [s']
      | FAULTED => s' :: to OFF s'
      | _ => to OFF s'
      end
  | FaultCapture _ _ | MUnknown => fault_outcomes s
  | PreflightComplete c =>
      match st s with
      | STARTING =>
          s :: (if pf_ready (cp_result c) then
                  match (match pf_start_paused_reason (cp_result c) with
                         | Some r => Some r | None => automatic s end) with
                  | Some r => to PAUSED (with_automatic (Some r) s)
                  | None => to RECORDING s
                  end
                else [with_st FAULTED s])
      | _ => [s]
      end
  end.

(** ** The actor's invariant between two messages *)

Section Refinement.
Context {W : Type} `{LifecyclePorts W}.
Variables (me preflight_timeout stop_timeout : Z).

Definition abs (a : actor W) : astate :=
  {| st := g_state (a_gate a); manual := a_manual_pause a;
     automatic := a_automatic_pause_reason a |}.

Record owned (a : actor W) : Prop := {
  ow_gate : gate_inv (a_gate a);
  ow_owner : g_owner (a_gate a) = Some me }.

(** [a'] is [a] after collaborators and workers ran: same machine, same
    generation. *)
Record background (a a' : actor W) : Prop := {
  bg_gate : worker_effect (a_gate a) (a_gate a');
  bg_manual : a_manual_pause a' = a_manual_pause a;
  bg_automatic : a_automatic_pause_reason a' = a_automatic_pause_reason a }.

Lemma background_refl a : gate_inv (a_gate a) -> background a a.
Proof. by split; [apply worker_effect_refl|..]. Qed.

Lemma background_trans a b c : background a b -> background b c -> background a c.
Proof. intros [] []. split; [by eapply worker_effect_trans|congruence..]. Qed.

Lemma background_world a a' w : background a a' -> background a (put_world w a').
Proof. intros []. by split. Qed.

Lemma background_owned a a' : owned a -> background a a' -> owned a'.
Proof. intros [] [[] _ _]. split; congruence. Qed.

Lemma background_abs a a' : background a a' -> abs a' = abs a.
Proof. intros [[] ? ?]. unfold abs. congruence. Qed.

Lemma background_inv a a' : background a a' -> gate_inv (a_gate a').
Proof. intros []. by apply we_inv with (a_gate a). Qed.

Lemma wp_on_world {A} (m : M W A) Q a :
  (forall r w, m (a_world a) = (w, r) -> Q r (put_world w a)) -> wp (on_world m) Q a.
Proof. intros HQ. apply wp_zoom. split. apply HQ. by destruct (m (a_world a)). Qed.

Lemma wp_ask {A} (q : W -> A * W) Q (a : actor W) :
  (forall x w, Q (Ok x) (put_world w a)) -> wp (ask q) Q a.
Proof. intros HQ. split. unfold ask. destruct (q (a_world a)). apply HQ. Qed.

Lemma snapshot_of g : gate_inv g -> exists s,
  snapshot g = (g, Ok s) /\ snap_state s = g_state g /\ snap_generation s = g_active g.
Proof.
  intros Hg. unfold snapshot, make_snapshot. destruct (is_active_state (g_state g)) eqn:E; cbn.
  - rewrite bool_decide_true by (by apply (gi_active _ Hg)). cbn. eauto.
  - eauto.
Qed.

Lemma wp_get_snapshot Q (a : actor W) :
  gate_inv (a_gate a) ->
  (forall s, snap_state s = g_state (a_gate a) -> snap_generation s = g_active (a_gate a) -> Q (Ok s) a) ->
  wp get_snapshot Q a.
Proof.
  intros Hg HQ. destruct (snapshot_of _ Hg) as (s&Hs&?&?). apply wp_zoom. split.
  change (gate_of a) with (a_gate a). rewrite Hs. destruct a. by apply HQ.
Qed.

(** A call that succeeds with a value, in the background of [a]. *)
Definition quietly {A} (m : M (actor W) A) : Prop :=
  forall a, gate_inv (a_gate a) -> wp m (fun r a' => (exists x, r = Ok x) /\ background a a') a.

Lemma quietly_bind {A B} (m : M (actor W) A) (k : A -> M (actor W) B) :
  quietly m -> (forall x, quietly (k x)) -> quietly (mbind k m).
Proof.
  intros Hm Hk a Ha. apply wp_bind. eapply wp_mono; [by apply Hm|].
  intros r a' [[x ->] Hb]. eapply wp_mono; [apply Hk; by eapply background_inv|].
  intros r a'' [? Hb']. eauto using background_trans.
Qed.

Lemma quietly_ret {A} (x : A) : quietly (mret x).
Proof. intros a Ha. apply wp_ret. eauto using background_refl. Qed.

Lemma quietly_ask {A} (q : W -> A * W) : quietly (ask q).
Proof. intros a Ha. apply wp_ask. eauto using background_refl, background_world. Qed.

Lemma quietly_try {A B} (m : M W A) (k : A -> M (actor W) B) h :
  (forall x, quietly (k x)) -> (forall e, quietly (h e)) ->
  quietly (try_except (mbind k (on_world m)) h).
Proof.
  intros Hk Hh a Ha. apply wp_try_except, wp_bind, wp_on_world. intros [x|e] w _.
  - eapply wp_mono; [by apply Hk|]. intros r a' [[y ->] Hb].
    split; [by eauto|]. destruct Hb; by split.
  - eapply wp_mono; [by apply Hh|]. intros r a' [[y ->] Hb].
    split; [by eauto|]. destruct Hb; by split.
Qed.

Lemma quietly_try_plain {A} (m : M W A) h :
  (forall e, quietly (h e)) -> quietly (try_except (on_world m) h).
Proof.
  intros Hh a Ha. apply wp_try_except, wp_on_world. intros [x|e] w _.
  - eauto using background_refl, background_world.
  - eapply wp_mono; [by apply Hh|]. intros r a' [[y ->] Hb]. split; [by eauto|]. by destruct Hb; split.
Qed.

Lemma quietly_gets {A} (f : gate -> A) : quietly (on_gate (gets f)).
Proof. intros a Ha. apply wp_zoom, wp_gets. destruct a. eauto using background_refl. Qed.

Lemma quietly_snapshot : quietly get_snapshot.
Proof. intros a Ha. apply wp_get_snapshot; eauto using background_refl. Qed.

(** *** The background calls of the handlers *)

Create HintDb quiet.
#[local] Hint Resolve quietly_bind quietly_ret quietly_ask quietly_try quietly_try_plain
  quietly_gets quietly_snapshot : quiet.

Lemma quietly_clear_buffers gen : quietly (clear_buffers gen).
Proof. unfold clear_buffers. eauto with quiet. Qed.

Lemma releases_effect gens g :
  gate_inv g -> wp (for_each gens release_operation) (fun r g' => r = Ok tt /\ worker_effect g g') g.
Proof.
  revert g. induction gens as [|gen gens IH]; intros g Hg; cbn; [by apply wp_ret; auto using worker_effect_refl|].
  apply wp_bind. eapply wp_mono; [by apply release_worker_effect|]. intros r g1 [-> He1].
  eapply wp_mono; [apply IH, He1|]. intros r g2 [-> He2]. eauto using worker_effect_trans.
Qed.

Lemma wait_loop_effect gen wakeups g :
  gate_inv g ->
  wp (wait_loop gen ((fun releases => for_each releases release_operation) <$> wakeups))
    (fun r g' => (exists b, r = Ok b) /\ worker_effect g g') g.
Proof.
  revert g. induction wakeups as [|gens wakeups IH]; intros g Hg; cbn; apply wp_bind, wp_gets;
    (case_match; [apply wp_ret; eauto using worker_effect_refl|]); [apply wp_ret; eauto using worker_effect_refl|].
  apply wp_bind. eapply wp_mono; [by apply releases_effect|]. intros r g1 [-> He1].
  eapply wp_mono; [apply IH, He1|]. intros r g2 [Hr He2]. eauto using worker_effect_trans.
Qed.

Lemma quietly_wait_gate gen remaining : 0 < remaining -> quietly (wait_gate gen remaining).
Proof.
  intros Hr. apply quietly_bind; [apply quietly_ask|]. intros wakeups a Ha.
  apply wp_zoom. unfold wait_for_operations. wp_steps; btauto_hyps; [|lia].
  eapply wp_mono; [by apply wait_loop_effect|]. intros r g [? He]. split; [done|]. by split.
Qed.

Lemma quietly_drain gen : quietly (drain_generation stop_timeout gen).
Proof.
  destruct gen as [gen|]; cbn; [|apply quietly_clear_buffers].
  apply quietly_bind; [eauto with quiet|intros start].
  apply quietly_bind; [eauto with quiet|intros fault_code].
  apply quietly_bind; [eauto with quiet|intros fault_code'].
  apply quietly_bind; [eauto with quiet|intros now].
  apply quietly_bind.
  { destruct (Z.ltb_spec 0 (start + stop_timeout - now)); eauto using quietly_wait_gate, quietly_ret. }
  intros gate_quiescent. apply quietly_bind; [eauto with quiet|intros now'].
  apply quietly_bind.
  { destruct (0 <? _); eauto with quiet.
    intros a Ha. apply wp_try_except, wp_ret. eauto using background_refl. }
  intros pipeline_quiescent. apply quietly_bind; [apply quietly_clear_buffers|]. eauto with quiet.
Qed.

Lemma quietly_emit_event tr code : quietly (emit_event tr code).
Proof. unfold emit_event. eauto 10 with quiet. Qed.

Lemma quietly_command_result a c rc fc : quietly (command_result a c rc fc).
Proof. unfold command_result. eauto with quiet. Qed.

#[local] Hint Resolve quietly_clear_buffers quietly_drain quietly_emit_event
  quietly_command_result : quiet.

Lemma wp_quietly {A} (m : M (actor W) A) Q a :
  quietly m -> gate_inv (a_gate a) -> (forall x a', background a a' -> Q (Ok x) a') -> wp m Q a.
Proof. intros Hm Ha HQ. eapply wp_mono; [by apply Hm|]. intros r a' [[x ->] Hb]. eauto. Qed.

(** The reply of a command shows the state it left. *)
Lemma wp_command_result ac ch rc fc Q (a : actor W) :
  gate_inv (a_gate a) ->
  (forall r, snap_state (res_snapshot r) = g_state (a_gate a) -> res_reason_code r = rc ->
     res_fault_code r = fc -> Q (Ok r) a) ->
  wp (command_result ac ch rc fc) Q a.
Proof.
  intros Ha HQ. unfold command_result. apply wp_bind, wp_get_snapshot; [done|].
  intros s Hs _. apply wp_ret. by apply HQ.
Qed.

Lemma wp_on_gate {A} (m : M gate A) Q (a : actor W) :
  wp m (fun r g => Q r (put_a_gate g a)) (a_gate a) -> wp (on_gate m) Q a.
Proof. apply wp_zoom. Qed.

(** *** The outcome of a handler *)

(** The preflight actor's mailbox is open whenever the actor is alive. *)
Definition mailbox_open : Prop := forall m w, exists w', port_preflight_tell m w = (w', Ok tt).

(** [ends ss]: an owned actor whose machine is one of [ss], a reply that shows
    its state, and no exception as long as the mailbox is open. *)
Definition ends (ss : list astate) (r : result LifecycleCommandResult) (a' : actor W) : Prop :=
  owned a' /\ abs a' ∈ ss /\
  match r with
  | Ok res => snap_state (res_snapshot res) = g_state (a_gate a')
  | Raise _ => ~ mailbox_open
  end.

Lemma ends_mono ss ss' r a' : ends ss r a' -> ss ⊆ ss' -> ends ss' r a'.
Proof. intros (?&?&?) Hss. repeat split_and!; eauto. Qed.

(** Replying in the background of a state. *)
Lemma wp_reply ac ch rc fc ss a :
  owned a -> abs a ∈ ss ->
  wp (command_result ac ch rc fc) (ends ss) a.
Proof. intros Ha Hs. apply wp_command_result; [apply Ha|]. intros r Hr _ _. by split; [|split]. Qed.

Lemma wp_reply_ok ac ch rc fc ss a :
  owned a -> abs a ∈ ss ->
  wp (command_result ac ch rc fc) (fun r a' => (exists x, r = Ok x) /\ ends ss r a') a.
Proof.
  intros Ha Hs. apply wp_command_result; [apply Ha|].
  intros r Hr _ _. split; [by eauto|]. by split; [|split].
Qed.

Lemma enter_fault_ends code reason drain a :
  owned a ->
  wp (enter_fault me stop_timeout code reason drain)
     (fun r a' => (exists x, r = Ok x) /\ ends (fault_outcomes (abs a)) r a') a.
Proof.
  intros Ha. unfold enter_fault. apply wp_bind, wp_get_snapshot; [apply Ha|]. intros s Hs _.
  unfold fault_outcomes. cbn. rewrite <- Hs. case_bool_decide as Hf.
  { apply wp_reply_ok; [done|]. by constructor. }
  apply wp_bind, wp_on_gate. eapply wp_mono; [apply fault_ok; [apply Ha|apply Ha|congruence]|].
  intros r g (->&(Hg&Ho&Hst&_)&_). cbn.
  set (a1 := put_a_gate g a).
  assert (owned a1) as Ha1 by (split; cbn; [done|by rewrite Ho; apply Ha]).
  apply wp_bind, wp_quietly; [eauto with quiet|done|]. intros x1 a2 H2.
  apply wp_bind, wp_quietly; [destruct drain; eauto with quiet|by eapply background_inv|].
  intros x2 a3 H3. pose proof (background_trans _ _ _ H2 H3) as H13.
  apply wp_reply_ok; [by eapply background_owned|]. rewrite (background_abs _ _ H13).
  unfold abs, with_st; cbn. rewrite Hst. by constructor.
Qed.

Lemma wp_enter_fault code reason drain ss a :
  owned a -> fault_outcomes (abs a) ⊆ ss ->
  wp (enter_fault me stop_timeout code reason drain) (ends ss) a.
Proof.
  intros Ha Hss. eapply wp_mono; [by apply enter_fault_ends|]. intros r a' [_ Hr]. by eapply ends_mono.
Qed.

(** An audited transition: either the continuation runs in the background of
    the transition, or the actor has failed closed. *)
Lemma wp_emitting tr k ss a :
  owned a -> fault_outcomes (abs a) ⊆ ss ->
  (forall a', owned a' -> background a a' -> wp k (ends ss) a') ->
  wp (emitting me stop_timeout tr k) (ends ss) a.
Proof.
  intros Ha Hss Hk. unfold emitting, emit_transition. apply wp_bind, wp_bind.
  apply wp_quietly; [eauto with quiet|apply Ha|]. intros [|] a1 H1.
  { apply wp_ret. apply Hk; [by eapply background_owned|done]. }
  pose proof (background_owned _ _ Ha H1) as Ha1.
  apply wp_bind, wp_get_snapshot; [apply Ha1|]. intros s Hs _. apply wp_bind. rewrite Hs.
  case_bool_decide as Hf.
  - apply wp_bind. eapply wp_mono; [by apply enter_fault_ends|]. intros r a2 [[x ->] (Ha2&Habs&_)].
    apply wp_ret, wp_ret. apply wp_reply; [done|]. apply Hss. by rewrite <- (background_abs _ _ H1).
  - apply wp_ret, wp_ret. apply wp_reply; [done|]. apply Hss. rewrite (background_abs _ _ H1).
    unfold fault_outcomes. rewrite bool_decide_true; [by constructor|].
    cbn. by rewrite <- (we_state _ _ (bg_gate _ _ H1)).
Qed.

(** Setting one of the actor's flags keeps the gate. *)
Lemma owned_flags a a' : owned a -> a_gate a' = a_gate a -> owned a'.
Proof. intros [] He. split; by rewrite He. Qed.

Lemma owned_put g a : gate_inv g -> g_owner g = Some me -> owned (put_a_gate g a).
Proof. by split. Qed.

Lemma drain_after_pause_ends gen ss a :
  owned a -> abs a ∈ ss -> fault_outcomes (abs a) ⊆ ss ->
  wp (drain_after_pause me stop_timeout gen) (ends ss) a.
Proof.
  intros Ha Hin Hss. unfold drain_after_pause. apply wp_bind.
  apply wp_quietly; [eauto with quiet|apply Ha|]. intros [code|] a' Hb.
  - apply wp_enter_fault; [by eapply background_owned|]. by rewrite (background_abs _ _ Hb).
  - apply wp_reply; [by eapply background_owned|]. by rewrite (background_abs _ _ Hb).
Qed.

(** *** Each handler implements its line of the specification *)

(** Start a handler: read the snapshot, and case on the guards it tests. *)
Local Ltac handler Ha s Hs Hgen :=
  apply wp_bind, wp_get_snapshot; [apply Ha|]; intros s Hs Hgen; rewrite ?Hs, ?Hgen.

Lemma abs_put_gate g a s :
  g_state g = s -> abs (put_a_gate g a) = with_st s (abs a).
Proof. unfold abs, with_st. cbn. by intros ->. Qed.

Lemma fault_outcomes_to c s s' :
  st s ≠ FAULTED -> s = with_st (st s) s' -> fault_outcomes s ⊆ to c s'.
Proof.
  intros Hn Hs. unfold fault_outcomes. rewrite bool_decide_false by done.
  intros x Hx%list_elem_of_singleton. subst x. rewrite Hs. right. by constructor.
Qed.

Lemma handle_fault_ends code reason a :
  owned a -> wp (handle_fault me stop_timeout code reason) (ends (fault_outcomes (abs a))) a.
Proof.
  intros Ha. unfold handle_fault. handler Ha s Hs Hgen. case_bool_decide as Hf.
  - apply wp_reply; [done|]. unfold fault_outcomes. rewrite bool_decide_true by done. by constructor.
  - by apply wp_enter_fault.
Qed.

Lemma closed_mailbox m w w' e : port_preflight_tell m w = (w', Raise e) -> ~ mailbox_open.
Proof. intros Ht Ho. destruct (Ho m w) as [w1 H1]. rewrite H1 in Ht. done. Qed.

Lemma fault_outcomes_sub s0 c s s' :
  st s ≠ FAULTED -> s = with_st (st s) s' -> fault_outcomes s ⊆ s0 :: to c s'.
Proof. intros Hn Hs x Hx. right. revert x Hx. by apply fault_outcomes_to. Qed.

(** The part of [_handle_start] after the gate has opened a generation. *)
Lemma start_tail_ends c gen tr reason s a :
  owned a -> abs a = with_st STARTING s ->
  wp (emitting me stop_timeout tr
        (has_ref ← gets a_preflight_ref;
         alive ← (if (has_ref : bool) then ask port_preflight_alive else mret false);
         if negb alive then fail me stop_timeout PREFLIGHT_FAILURE
         else
           now ← ask port_now;
           _ ← on_world (port_preflight_tell
                 {| rp_configuration := c; rp_generation := gen;
                    rp_deadline_monotonic_ns := now + preflight_timeout; rp_reason := reason |});
           command_result true true (u "starting") None))
     (ends (s :: to STARTING s)) a.
Proof.
  intros Ha Hs.
  assert (Hflt : fault_outcomes (abs a) ⊆ s :: to STARTING s)
    by (rewrite Hs; by apply fault_outcomes_sub).
  assert (Hin : abs a ∈ s :: to STARTING s) by (rewrite Hs; right; by constructor).
  apply wp_emitting; [done|done|]. intros a1 Ha1 H1. apply wp_bind, wp_gets, wp_bind.
  apply wp_quietly; [destruct (a_preflight_ref a1); eauto with quiet|apply Ha1|].
  intros alive a2 H2. pose proof (background_trans _ _ _ H1 H2) as H12.
  pose proof (background_owned _ _ Ha H12) as Ha2. pose proof (background_abs _ _ H12) as Habs.
  destruct (negb alive); [apply wp_enter_fault; [done|by rewrite Habs]|].
  apply wp_bind, wp_ask. intros now w. apply wp_bind, wp_on_world. intros [[]|e] w' Ht.
  - apply wp_reply; [by eapply owned_flags|]. change (abs a2 ∈ s :: to STARTING s). by rewrite Habs.
  - split; [by eapply owned_flags|]. split; [|by eapply closed_mailbox].
    change (abs a2 ∈ s :: to STARTING s). by rewrite Habs.
Qed.

Lemma handle_start_ends reason a :
  owned a ->
  wp (handle_start me preflight_timeout stop_timeout reason)
     (ends (outcomes (abs a) (StartCapture reason))) a.
Proof.
  intros Ha. unfold handle_start. handler Ha s Hs Hgen. cbn.
  assert (Hself : abs a ∈ match g_state (a_gate a) with
    | OFF => abs a :: to STARTING (abs a) | _ => [abs a] end)
    by (destruct (g_state (a_gate a)); by constructor).
  case_bool_decide as Hrec; [by apply wp_reply|].
  case_bool_decide as Hpaused; [by apply wp_reply|].
  case_bool_decide as Hoff; [by apply wp_reply|]. clear Hself.
  rewrite Hoff. apply wp_bind, wp_quietly; [eauto with quiet|apply Ha|]. intros conf a1 H1.
  pose proof (background_owned _ _ Ha H1) as Ha1. rewrite <- (background_abs _ _ H1).
  assert (g_state (a_gate a1) = OFF) as Hoff1 by (by rewrite (we_state _ _ (bg_gate _ _ H1))).
  destruct conf as [c|]; [|apply wp_enter_fault; [done|apply fault_outcomes_sub; [cbn; by rewrite Hoff1|done]]].
  destruct (negb _); [by apply wp_reply; [|constructor]|].
  apply wp_bind, wp_on_gate. eapply wp_mono; [by apply begin_start_ok; [apply Ha1|apply Ha1|]|].
  intros r g (->&(Hg&Ho&Hst&_)&_). apply start_tail_ends; [|by apply abs_put_gate].
  apply owned_put; [done|by rewrite Ho; apply Ha1].
Qed.

(** An audited move to state [c] whose continuation only reports. *)
Lemma emit_and_report tr ac ch rc fc c s0 s a :
  owned a -> abs a = with_st c s -> c ≠ FAULTED ->
  wp (emitting me stop_timeout tr (command_result ac ch rc fc)) (ends (s0 ++ to c s)) a.
Proof.
  intros Ha Hs Hc. apply wp_emitting; [done|..].
  - rewrite Hs. intros x Hx. apply elem_of_app. right. revert x Hx. by apply fault_outcomes_to.
  - intros a' Ha' Hb. apply wp_reply; [done|]. rewrite (background_abs _ _ Hb), Hs.
    apply elem_of_app. right. by constructor.
Qed.

(** An invalidating pause: audited, drained, then reported. *)
Lemma emit_and_drain tr gen s0 s a :
  owned a -> abs a = with_st PAUSED s ->
  wp (emitting me stop_timeout tr (drain_after_pause me stop_timeout gen))
     (ends (s0 ++ to PAUSED s)) a.
Proof.
  intros Ha Hs.
  assert (Hflt : fault_outcomes (abs a) ⊆ s0 ++ to PAUSED s).
  { rewrite Hs. intros x Hx. apply elem_of_app. right. revert x Hx. by apply fault_outcomes_to. }
  apply wp_emitting; [done|done|]. intros a' Ha' Hb. apply drain_after_pause_ends; [done|..].
  - rewrite (background_abs _ _ Hb), Hs. apply elem_of_app. right. by constructor.
  - by rewrite (background_abs _ _ Hb).
Qed.

Lemma active_live a : owned a -> is_active_state (g_state (a_gate a)) = true ->
  exists gen, g_active (a_gate a) = Some gen.
Proof. intros Ha. apply active_some, Ha. Qed.

Lemma handle_pause_ends reason a :
  owned a ->
  wp (handle_pause me stop_timeout reason) (ends (outcomes (abs a) (PauseCapture reason))) a.
Proof.
  intros Ha. unfold handle_pause. handler Ha s Hs Hgen. cbn.
  case_bool_decide as Hp.
  { rewrite Hp. apply wp_bind, wp_modify. apply wp_reply; [by eapply owned_flags|]. by constructor. }
  case_bool_decide as Hr.
  { apply wp_reply; [done|]. destruct (g_state (a_gate a)); try done; by constructor. }
  rewrite Hr. destruct (active_live a Ha) as [gen Hgn]; [by rewrite Hr|].
  apply wp_bind, wp_modify, wp_bind, wp_on_gate.
  eapply wp_mono; [by eapply (pause_ok me reason gen); try apply Ha|]. intros r g (->&Hg&->).
  apply (emit_and_report _ _ _ _ _ PAUSED []); [|done|done].
  apply owned_put; [done|apply Ha].
Qed.

Lemma handle_resume_ends reason a :
  owned a ->
  wp (handle_resume me stop_timeout reason) (ends (outcomes (abs a) (ResumeCapture reason))) a.
Proof.
  intros Ha. unfold handle_resume. handler Ha s Hs Hgen. apply wp_bind, wp_gets. cbn.
  case_bool_decide as Hau.
  { destruct (a_automatic_pause_reason a) eqn:E; [|done]. apply wp_reply; [done|]. by constructor. }
  rewrite Hau. case_bool_decide as Hr.
  { rewrite Hr. apply wp_bind, wp_modify. apply wp_reply; [by eapply owned_flags|]. by constructor. }
  case_bool_decide as Hp.
  { apply wp_reply; [done|]. destruct (g_state (a_gate a)); try done; by constructor. }
  rewrite Hp. destruct (active_live a Ha) as [gen Hgn]; [by rewrite Hp|].
  apply wp_bind, wp_on_gate.
  eapply wp_mono; [by eapply (resume_ok me reason gen); try apply Ha|]. intros r g (->&Hg&->).
  apply wp_bind, wp_modify. apply (emit_and_report _ _ _ _ _ RECORDING []); [|done|done].
  apply (owned_flags (put_a_gate (set_state RECORDING (a_gate a)) a)); [|done].
  apply owned_put; [done|apply Ha].
Qed.

(** The invalidating pause of an active actor, flags set before or after. *)
Lemma invalidate_owned r gen a :
  owned a -> is_active_state (g_state (a_gate a)) = true -> g_active (a_gate a) = Some gen ->
  wp (invalidate_and_pause me r) (fun o g =>
    (exists tr, o = Ok (Some gen, tr)) /\ owned (put_a_gate g a) /\
    abs (put_a_gate g a) = with_st PAUSED (abs a)) (a_gate a).
Proof.
  intros Ha Hs Hgen. eapply wp_mono; [by eapply invalidate_and_pause_ok; try apply Ha|].
  intros o g (->&(Hg&Ho&Hst&_)&_). split; [by eauto|]. split; [|by apply abs_put_gate].
  apply owned_put; [done|by rewrite Ho; apply Ha].
Qed.

Lemma handle_block_ends r a :
  owned a -> g_state (a_gate a) ≠ STOPPING ->
  wp (handle_automatic_block me stop_timeout true r)
     (ends (outcomes (abs a) (SetAutomaticCaptureBlock true r))) a.
Proof.
  intros Ha Hns. unfold handle_automatic_block. handler Ha s Hs Hgen. apply wp_bind, wp_gets. cbn.
  case_bool_decide as H1; [by apply wp_reply; [|constructor]|].
  case_bool_decide as H2; [by apply wp_reply; [|constructor]|].
  apply wp_bind, wp_modify. cbn. case_bool_decide as H3.
  { destruct (is_active_state (g_state (a_gate a))) eqn:Hact.
    - exfalso. revert H3. destruct (g_state (a_gate a)); try done; decide_false.
    - apply wp_reply; [by eapply owned_flags|by constructor]. }
  assert (is_active_state (g_state (a_gate a)) = true) as Hact.
  { pose proof (gi_privacy _ (ow_gate _ Ha)). revert H3.
    destruct (g_state (a_gate a)); try done; intros H3; exfalso; apply H3; decide_true. }
  rewrite Hact. destruct (active_live a Ha Hact) as [gen Hgn].
  assert (Ha1 : owned (set_automatic (Some r) a)) by (by eapply owned_flags).
  apply wp_bind, wp_on_gate. eapply wp_mono; [by apply (invalidate_owned r gen _ Ha1)|].
  intros o g ([tr ->]&Hown&Habs). apply (emit_and_drain _ _ [] _ _ Hown Habs).
Qed.

Lemma handle_release_ends r a :
  owned a ->
  wp (handle_automatic_block me stop_timeout false r)
     (ends (outcomes (abs a) (SetAutomaticCaptureBlock false r))) a.
Proof.
  intros Ha. unfold handle_automatic_block. handler Ha s Hs Hgen. apply wp_bind, wp_gets. cbn.
  destruct (a_automatic_pause_reason a) as [au|] eqn:Hau; cbn;
    [|by apply wp_reply; [|constructor]].
  rewrite (bool_decide_ext (Some au = Some SESSION_LOCKED) (au = SESSION_LOCKED)) by naive_solver.
  set (expected := if bool_decide (au = SESSION_LOCKED) then SESSION_UNLOCKED else ACTIVE).
  destruct (decide (r = expected)) as [Hr|Hr].
  2:{ rewrite bool_decide_true, bool_decide_false by done. by apply wp_reply; [|constructor]. }
  rewrite (bool_decide_false (r ≠ expected)) by (intros Hn; exact (Hn Hr)).
  rewrite (bool_decide_true (r = expected)) by exact Hr.
  apply wp_bind, wp_modify, wp_bind, wp_gets. cbn.
  assert (Ha1 : owned (set_automatic None a)) by (by eapply owned_flags).
  destruct (decide (g_state (a_gate a) = PAUSED)) as [Hp|Hp].
  2:{ rewrite bool_decide_true, bool_decide_false by done. by apply wp_reply; [|constructor]. }
  rewrite (bool_decide_false (g_state (a_gate a) ≠ PAUSED)) by (intros Hn; exact (Hn Hp)).
  rewrite (bool_decide_true (g_state (a_gate a) = PAUSED)) by exact Hp. cbn.
  destruct (a_manual_pause a); cbn; [by apply wp_reply; [|constructor]|].
  destruct (active_live a Ha) as [gen Hgn]; [by rewrite Hp|].
  apply wp_bind, wp_on_gate.
  eapply wp_mono; [by eapply (resume_ok me r gen); try apply Ha|]. intros o g (->&Hg&->).
  apply (emit_and_report _ _ _ _ _ RECORDING []); [|done|done].
  apply owned_put; [done|apply Ha].
Qed.

Lemma handle_preflight_complete_ends c a :
  owned a ->
  wp (handle_preflight_complete me stop_timeout c)
     (ends (outcomes (abs a) (PreflightComplete c))) a.
Proof.
  intros Ha. unfold handle_preflight_complete. handler Ha s Hs Hgen. cbn.
  case_bool_decide as Hst.
  { apply wp_reply; [done|]. destruct (g_state (a_gate a)); by constructor. }
  assert (g_state (a_gate a) = STARTING /\ g_active (a_gate a) = Some (cp_generation c)) as [H1 H2].
  { split; apply dec_stable; naive_solver. }
  rewrite H1. destruct (pf_ready (cp_result c)); cbn.
  2:{ apply wp_enter_fault; [done|]. unfold fault_outcomes, abs; cbn. rewrite H1.
      intros x Hx. by right. }
  apply wp_bind, wp_gets. destruct (match pf_start_paused_reason _ with Some _ => _ | None => _ end) as [r|].
  - apply wp_bind, wp_on_gate.
    eapply wp_mono; [apply (invalidate_owned r (cp_generation c)); [done|by rewrite H1|done]|].
    intros o g ([tr ->]&Hown&Habs). apply wp_bind, wp_modify.
    apply (emit_and_drain _ _ [abs a]); [by eapply owned_flags|]. revert Habs. unfold abs, with_st; cbn. congruence.
  - apply wp_bind, wp_on_gate.
    eapply wp_mono; [by apply mark_recording_ok; try apply Ha|]. intros o g (->&Hg&->).
    apply (emit_and_report _ _ _ _ _ RECORDING [abs a]); [|done|done].
    apply owned_put; [done|apply Ha].
Qed.

Lemma finish_off_tail reason s0 s a :
  owned a -> g_state (a_gate a) ∈ [STOPPING; FAULTED] -> with_st OFF (abs a) = with_st OFF s ->
  wp (transition ← on_gate (finish_off me reason);
      emitting me stop_timeout transition (command_result true true (u "off") None))
     (ends (s0 ++ to OFF s)) a.
Proof.
  intros Ha Hst Hs. apply wp_bind, wp_on_gate.
  eapply wp_mono; [apply finish_off_ok; try apply Ha|].
  { revert Hst. destruct (g_state (a_gate a)); intros Hst; try decide_true;
      exfalso; revert Hst; decide_false. }
  intros o g (->&(Hg&Ho&Hgs&_)&_). apply emit_and_report; [|by rewrite (abs_put_gate _ _ OFF)|done].
  apply owned_put; [done|by rewrite Ho; apply Ha].
Qed.

Lemma handle_stop_ends reason a :
  owned a -> g_state (a_gate a) ≠ STOPPING ->
  wp (handle_stop me stop_timeout reason) (ends (outcomes (abs a) (StopCapture reason))) a.
Proof.
  intros Ha Hns. unfold handle_stop. apply wp_bind, wp_modify.
  assert (Ha0 : owned (set_manual false a)) by (by eapply owned_flags).
  handler Ha0 s Hs Hgen. cbn. case_bool_decide as Hoff.
  { rewrite Hoff. apply wp_reply; [done|by constructor]. }
  case_bool_decide as Hf.
  { rewrite Hf. apply wp_bind, wp_quietly; [eauto with quiet|apply Ha0|]. intros fc a1 H1.
    pose proof (background_owned _ _ Ha0 H1) as Ha1. pose proof (background_abs _ _ H1) as Habs.
    destruct fc as [code|]; [apply wp_reply; [done|rewrite Habs; by constructor]|].
    apply (finish_off_tail _ [_]); [done| |by rewrite Habs].
    rewrite (we_state _ _ (bg_gate _ _ H1)). cbn. rewrite Hf. decide_true. }
  assert (is_active_state (g_state (a_gate a)) = true) as Hact.
  { pose proof (gi_privacy _ (ow_gate _ Ha)). by destruct (g_state (a_gate a)). }
  destruct (active_live a Ha Hact) as [gen Hgn]. apply wp_bind, wp_on_gate.
  eapply wp_mono; [by eapply begin_stopping_ok; try apply Ha0|].
  intros o g (->&(Hg&Ho&Hst&_)&_). set (a1 := put_a_gate g (set_manual false a)).
  assert (Ha1 : owned a1) by (apply owned_put; [done|by rewrite Ho; apply Ha0]).
  pose proof (abs_put_gate g (set_manual false a) _ Hst : abs a1 = _) as Habs1.
  assert (Hto : ends ([] ++ to OFF (with_manual false (abs a))) = ends (match g_state (a_gate a) with
    | OFF => [with_manual false (abs a)]
    | FAULTED => with_manual false (abs a) :: to OFF (with_manual false (abs a))
    | _ => to OFF (with_manual false (abs a)) end)) by (by destruct (g_state (a_gate a))).
  rewrite <- Hto.
  assert (Hflt : fault_outcomes (abs a1) ⊆ [] ++ to OFF (with_manual false (abs a)))
    by (rewrite Habs1; by apply fault_outcomes_to).
  apply wp_emitting; [done|done|]. intros a2 Ha2 H2. apply wp_bind.
  apply wp_quietly; [eauto with quiet|apply Ha2|]. intros fc a3 H3.
  pose proof (background_trans _ _ _ H2 H3) as H23. pose proof (background_abs _ _ H23) as Habs3.
  pose proof (background_owned _ _ Ha1 H23) as Ha3.
  destruct fc as [code|]; [apply wp_enter_fault; [done|by rewrite Habs3]|].
  apply finish_off_tail; [done| |by rewrite Habs3, Habs1].
  rewrite (we_state _ _ (bg_gate _ _ H23)). cbn. rewrite Hst. decide_true.
Qed.
End Refinement.
