(* ===== verification/LifecycleProps.v ===== *)
(** * LifecycleProps: the properties of the lifecycle actor.

    The refinement theorem of [LifecycleFacts], read as safety properties of
    any sequence of messages, for every behaviour of the collaborators. *)

From S2P Require Import Prelude Gate GateFacts Lifecycle LifecycleFacts.

(** ** A scripted world, to run the actor on concrete inputs *)

Record script := {
  sc_audit : list LifecycleAuditEvent;
  sc_audit_ok : bool;
  sc_clear_ok : bool;
  sc_quiescent : bool;
  sc_alive : bool;
  sc_now : Z;
  sc_told : list RunLifecyclePreflight }.

Definition sc_tell (m : RunLifecyclePreflight) (w : script) : script :=
  {| sc_audit := sc_audit w; sc_audit_ok := sc_audit_ok w; sc_clear_ok := sc_clear_ok w;
     sc_quiescent := sc_quiescent w; sc_alive := sc_alive w; sc_now := sc_now w;
     sc_told := sc_told w ++ [m] |}.
Definition sc_emit (e : LifecycleAuditEvent) (w : script) : script :=
  {| sc_audit := sc_audit w ++ [e]; sc_audit_ok := sc_audit_ok w; sc_clear_ok := sc_clear_ok w;
     sc_quiescent := sc_quiescent w; sc_alive := sc_alive w; sc_now := sc_now w;
     sc_told := sc_told w |}.

#[export] Instance script_ports : LifecyclePorts script := {
  port_configuration := mret {| cfg_revision := u "rev-1"; cfg_capture_permitted := true |};
  port_preflight_check _ :=
    mret {| pf_ready := true; pf_fault_code := None; pf_start_paused_reason := None |};
  port_cancel_queued _ := mret tt;
  port_cancel_in_flight _ := mret tt;
  port_wait_for_quiescence _ _ := gets sc_quiescent;
  port_clear_volatile_buffers _ := fun w => (w, if sc_clear_ok w then Ok tt else Raise (External 1));
  port_audit_emit e := fun w =>
    if sc_audit_ok w then (sc_emit e w, Ok tt) else (w, Raise (External 2));
  port_now w := (sc_now w, w);
  port_preflight_alive w := (sc_alive w, w);
  port_preflight_start := mret tt;
  port_preflight_tell m := modify (sc_tell m);
  port_preflight_stop := mret tt;
  port_wakeups w := ([], w) }.

Definition good_script : script :=
  {| sc_audit := []; sc_audit_ok := true; sc_clear_ok := true; sc_quiescent := true;
     sc_alive := true; sc_now := 1000; sc_told := [] |}.
Definition init_actor (w : script) : actor script :=
  {| a_gate := set_owner (Some 7) init_gate; a_manual_pause := false;
     a_automatic_pause_reason := None; a_preflight_ref := true; a_world := w |}.

Section Properties.
Context {W : Type} `{LifecyclePorts W}.
Variables (me preflight_timeout stop_timeout : Z).

Local Abbreviation receive := (on_receive me preflight_timeout stop_timeout).

(** Between two messages the actor owns a well-formed gate, it is not
    stopping, and it does not record under a latched block. *)
Definition settled (s : astate) : Prop :=
  st s ≠ STOPPING /\ (automatic s ≠ None -> st s ≠ RECORDING).
Definition actor_inv (a : actor W) : Prop := owned me a /\ settled (abs a).

Definition reply_shows (r : reply) (a : actor W) : Prop :=
  match r with
  | ReplySnapshot s => snap_state s = g_state (a_gate a)
  | ReplyCommand c => snap_state (res_snapshot c) = g_state (a_gate a)
  end.

(** What a message leaves: a state the specification allows and a reply that
    shows it, or the preflight mailbox was closed. *)
Definition received (ss : list astate) (r : result reply) (a' : actor W) : Prop :=
  owned me a' /\ abs a' ∈ ss /\
  match r with Ok rep => reply_shows rep a' | Raise _ => ~ mailbox_open (W := W) end.

Lemma wp_command (m : M (actor W) LifecycleCommandResult) ss a :
  wp m (ends me ss) a -> wp (command m) (received ss) a.
Proof. intros Hm. apply wp_bind. eapply wp_mono; [exact Hm|]. intros [r|e] a' (Ho&Hin&Hr); [apply wp_ret|]; by split. Qed.

Lemma receive_ok msg a :
  actor_inv a -> wp (receive msg) (received (outcomes (abs a) msg)) a.
Proof.
  intros [Ha [Hns _]]. destruct msg as [|r|r|r|[] r|r|code r|c|]; unfold on_receive;
    eauto using wp_command, handle_start_ends, handle_pause_ends, handle_resume_ends,
      handle_block_ends, handle_release_ends, handle_stop_ends, handle_fault_ends,
      handle_preflight_complete_ends.
  - apply wp_bind, wp_get_snapshot; [apply Ha|]. intros s Hs _. apply wp_ret.
    split; [done|]. split; [by constructor|done].
  - by apply wp_command, wp_enter_fault.
Qed.

(** A message never leaves the actor unsettled. *)
Lemma outcomes_settle s m s' : settled s -> s' ∈ outcomes s m -> settled s'.
Proof.
  intros [Hs Hau]. unfold settled, outcomes, to, fault_outcomes. repeat case_match; intros ?;
    decompose_list_elem_of; subst; cbn; split; try congruence; auto.
  all: intros Hx E; rewrite ?E in *; done || by apply (Hau Hx).
Qed.

Lemma receive_inv msg a : actor_inv a -> wp (receive msg) (fun _ a' => actor_inv a') a.
Proof.
  intros Ha. eapply wp_mono; [by apply receive_ok|]. intros r a' (Hown&Hin&_).
  split; [done|]. exact (outcomes_settle (abs a) _ _ (proj2 Ha) Hin).
Qed.

(** The run of the actor over its inbox. *)
Definition receives (a : actor W) (msg : message) (a' : actor W) : Prop := (receive msg a).1 = a'.

Lemma receives_outcome a msg a' :
  receives a msg a' -> actor_inv a -> actor_inv a' /\ abs a' ∈ outcomes (abs a) msg.
Proof.
  intros <- Ha. split; [exact (wp_elim _ _ _ (receive_inv msg a Ha))|].
  by destruct (wp_elim _ _ _ (receive_ok msg a Ha)) as (_&?&_).
Qed.

(** An invariant of the abstract machine, for some messages, is one of the
    actor. *)
Lemma abstract_invariant (P : astate -> Prop) (ok : message -> Prop) a ms a' :
  (forall s m s', ok m -> P s -> s' ∈ outcomes s m -> P s') ->
  Forall ok ms -> steps receives a ms a' -> actor_inv a -> P (abs a) -> P (abs a').
Proof.
  intros HP Hok Hs. induction Hs as [|a m a1 ms a2 Hr Hs IH]; [done|]. intros Ha Hp.
  apply Forall_cons in Hok as [Hm Hok].
  destruct (receives_outcome _ _ _ Hr Ha) as [Ha1 Hin]. apply IH; eauto.
Qed.

(** *** The refinement *)

(** C3 (on_receive_refines): Every message handler of the lifecycle actor
    implements the abstract machine, whatever its collaborators (audit sink,
    pipeline coordinator, configuration, preflight actor) do or raise: it
    returns (never raises, as long as the preflight mailbox takes messages),
    the reply shows the state it left, that state and the two pause flags are
    among those [outcomes] allows, and the gate stays well formed, owned and
    settled (never stopping) for the next message. *)
Theorem on_receive_refines msg a :
  actor_inv a ->
  let (a', r) := receive msg a in
  actor_inv a' /\ abs a' ∈ outcomes (abs a) msg /\
  match r with Ok rep => reply_shows rep a' | Raise _ => ~ mailbox_open (W := W) end.
Proof.
  intros Ha. pose proof (wp_elim _ _ _ (receive_ok msg a Ha)) as (_&Hin&Hr).
  pose proof (wp_elim _ _ _ (receive_inv msg a Ha)). by destruct (receive msg a).
Qed.

(** *** Safety of message sequences *)

Definition releases_block (m : message) : bool :=
  match m with SetAutomaticCaptureBlock false _ => true | _ => false end.

Definition blocked_state (s : astate) : Prop := automatic s ≠ None /\ st s ≠ RECORDING.

Lemma blocked_state_kept s m s' :
  releases_block m = false -> blocked_state s -> s' ∈ outcomes s m -> blocked_state s'.
Proof.
  intros Hm [Hau Hst]. unfold blocked_state, outcomes, to, fault_outcomes. 
  repeat case_match; intros ?; decompose_list_elem_of; subst; cbn; split; try congruence.
  all: try (intros E; rewrite ?E in *; done).
Qed.

Lemma block_latches s r s' :
  s' ∈ outcomes s (SetAutomaticCaptureBlock true r) -> automatic s' ≠ None.
Proof.
  unfold outcomes, to. repeat case_match; intros ?; decompose_list_elem_of; subst; cbn;
    btauto_hyps; naive_solver.
Qed.

(** C4 (block_stops_recording): Once an automatic block (session locked or
    idle) has been processed, the actor is not recording after any further
    messages, in any order and with any failures, until one of them releases
    the block: not after a user start, a resume, a completed preflight, a
    stop or a fault recovery. *)
Theorem block_stops_recording a r a1 ms a2 :
  actor_inv a -> receives a (SetAutomaticCaptureBlock true r) a1 ->
  steps receives a1 ms a2 -> Forall (fun m => releases_block m = false) ms ->
  g_state (a_gate a2) ≠ RECORDING /\ a_automatic_pause_reason a2 ≠ None.
Proof.
  intros Ha H1 Hs Hms. destruct (receives_outcome _ _ _ H1 Ha) as [Ha1 Hin].
  assert (blocked_state (abs a1)) as Hb1.
  { assert (automatic (abs a1) ≠ None) by by eapply block_latches. by split; [|apply Ha1]. }
  destruct (abstract_invariant blocked_state (fun m => releases_block m = false) a1 ms a2); eauto using blocked_state_kept.
Qed.

Definition ends_manual_pause (m : message) : bool :=
  match m with ResumeCapture _ | StopCapture _ => true | _ => false end.

Definition manual_state (s : astate) : Prop :=
  manual s = true /\ (st s = PAUSED \/ st s = FAULTED).

Lemma manual_state_kept s m s' :
  ends_manual_pause m = false -> manual_state s -> s' ∈ outcomes s m -> manual_state s'.
Proof.
  destruct s as [c mn au]. intros Hm [Hma Hp]. cbn in *. subst mn.
  unfold manual_state, outcomes, to, fault_outcomes. cbn.
  destruct Hp as [-> | ->]; destruct m as [| | | |[] r| | | |]; cbn in *; try done;
    repeat case_match; intros ?; decompose_list_elem_of; subst; cbn in *; auto; done.
Qed.

(** [manual_pause_is_sticky]: A pause asked by the user is ended by the
    user only: from then on, whatever other messages arrive (session unlock,
    activity, a late preflight result, repeated start) and whatever fails,
    capture is paused or faulted until a resume or a stop is received. *)
Theorem manual_pause_is_sticky a r a1 ms a2 :
  actor_inv a -> g_state (a_gate a) = RECORDING \/ g_state (a_gate a) = PAUSED ->
  receives a (PauseCapture r) a1 -> steps receives a1 ms a2 ->
  Forall (fun m => ends_manual_pause m = false) ms ->
  a_manual_pause a2 = true /\
  (g_state (a_gate a2) = PAUSED \/ g_state (a_gate a2) = FAULTED).
Proof.
  intros Ha Hst H1 Hs Hms. destruct (receives_outcome _ _ _ H1 Ha) as [Ha1 Hin].
  assert (manual_state (abs a1)) as Hb1.
  { unfold manual_state. destruct Hst as [Hst|Hst]; cbn in Hin; rewrite Hst in Hin;
      unfold to in Hin; decompose_list_elem_of;
      match goal with E : abs a1 = _ |- _ => rewrite E end; cbn; auto. }
  destruct (abstract_invariant manual_state (fun m => ends_manual_pause m = false) a1 ms a2);
    eauto using manual_state_kept.
Qed.

Lemma recording_outcome s m s' :
  st s ≠ RECORDING -> s' ∈ outcomes s m -> st s' = RECORDING ->
  match m with
  | PreflightComplete c =>
      st s = STARTING /\ pf_ready (cp_result c) = true /\
      pf_start_paused_reason (cp_result c) = None /\ automatic s = None
  | ResumeCapture _ => st s = PAUSED /\ automatic s = None
  | SetAutomaticCaptureBlock false r =>
      st s = PAUSED /\ manual s = false /\
      exists b, automatic s = Some b /\
        r = if bool_decide (b = SESSION_LOCKED) then SESSION_UNLOCKED else ACTIVE
  | _ => False
  end.
Proof.
  destruct s as [c mn au]. cbn. intros Hn. unfold outcomes, to, fault_outcomes.
  destruct m as [| | | |[] r| | |m|]; cbn; repeat case_match; intros ? ?;
    decompose_list_elem_of; subst; cbn in *; try congruence; btauto_hyps;
    repeat (split; [done|]); try done; exists t; split; try done.
  all: by case_bool_decide.
Qed.

(** C5 (recording_needs_consent): A message that takes the actor from any
    other state into recording is one of three: a ready preflight result for
    a starting session with no pause reason, a user resume of a paused
    session with no automatic block, or the release matching the latched
    block of a paused session the user has not paused. *)
Theorem recording_needs_consent a msg a' :
  actor_inv a -> receives a msg a' ->
  g_state (a_gate a) ≠ RECORDING -> g_state (a_gate a') = RECORDING ->
  match msg with
  | PreflightComplete c =>
      g_state (a_gate a) = STARTING /\ pf_ready (cp_result c) = true /\
      pf_start_paused_reason (cp_result c) = None /\ a_automatic_pause_reason a = None
  | ResumeCapture _ => g_state (a_gate a) = PAUSED /\ a_automatic_pause_reason a = None
  | SetAutomaticCaptureBlock false r =>
      g_state (a_gate a) = PAUSED /\ a_manual_pause a = false /\
      exists b, a_automatic_pause_reason a = Some b /\
        r = if bool_decide (b = SESSION_LOCKED) then SESSION_UNLOCKED else ACTIVE
  | _ => False
  end.
Proof.
  intros Ha Hr Hn Hrec. destruct (receives_outcome _ _ _ Hr Ha) as [_ Hin].
  change (g_state (a_gate a')) with (st (abs a')) in Hrec.
  change (g_state (a_gate a)) with (st (abs a)) in *.
  change (a_manual_pause a) with (manual (abs a)).
  change (a_automatic_pause_reason a) with (automatic (abs a)).
  exact (recording_outcome _ _ _ Hn Hin Hrec).
Qed.

(** *** Quiescence of a stop *)

(** A call of the actor that leaves the gate alone. *)
Definition off_gate {A} (m : M (actor W) A) : Prop :=
  forall a, wp m (fun r a' => a_gate a' = a_gate a /\ exists x, r = Ok x) a.

Lemma off_gate_emit_event tr code : off_gate (emit_event tr code).
Proof.
  intros a. unfold emit_event. apply wp_bind, wp_on_gate, wp_gets. cbn.
  apply wp_try_except, wp_bind, wp_on_world. intros [x|e] w _; wp_steps; eauto.
Qed.

Lemma off_gate_clear_buffers gen : off_gate (clear_buffers gen).
Proof. intros a. apply wp_try_except, wp_bind, wp_on_world. intros [x|e] w _; wp_steps; eauto. Qed.

Lemma wait_loop_sound gen (wakeups : list (M gate unit)) g :
  wp (wait_loop gen wakeups) (fun r g' => r = Ok true -> in_flight_of g' gen <= 0) g.
Proof.
  revert g. induction wakeups as [|m wakeups IH]; intros g; cbn; apply wp_bind, wp_gets;
    (destruct (Z.leb_spec (in_flight_of (id g) gen) 0); [by apply wp_ret|]); [by apply wp_ret|].
  apply wp_bind, wp_of_run. intros g' [[]|e] _; [apply IH|done].
Qed.

Definition idle (gen : Z) (a : actor W) : Prop := in_flight_of (a_gate a) gen <= 0.

Lemma drain_quiescent gen a :
  wp (drain_generation stop_timeout (Some gen)) (fun r a' => r = Ok None -> idle gen a') a.
Proof.
  unfold drain_generation. apply wp_bind, wp_ask. intros start w0. apply wp_bind.
  set (Q1 := fun (r : result (option LifecycleFaultCode)) (_ : actor W) => is_ok r = true).
  assert (forall (m : M W unit) x h b, wp (try_except (_ ← on_world m; mret x) (fun _ => mret h)) Q1 b) as Htry.
  { intros m x h b. apply wp_try_except, wp_bind, wp_on_world. by intros [] w _; wp_steps. }
  eapply wp_mono; [apply Htry|]. intros [f1|] a1 H1; [|done].
  apply wp_bind. eapply wp_mono; [apply Htry|]. intros [f2|] a2 H2; [|done].
  apply wp_bind, wp_ask. intros now w. apply wp_bind.
  set (Q2 := fun (r : result bool) (b : actor W) => r = Ok true -> idle gen b).
  assert (wp (if 0 <? start + stop_timeout - now then wait_gate gen (start + stop_timeout - now)
              else mret false) Q2 (put_world w a2)) as Hwait.
  { destruct (0 <? _) eqn:E; [|by apply wp_ret]. apply wp_bind, wp_ask. intros wk w'. apply wp_on_gate.
    unfold wait_for_operations. apply wp_bind, wp_require; [intros _|by rewrite E].
    apply wait_loop_sound. }
  eapply wp_mono; [exact Hwait|]. intros [quiet|] a3 H3; [|done].
  apply wp_bind, wp_ask. intros now' w3. apply wp_bind.
  eapply (wp_mono _ (fun r b => a_gate b = a_gate a3 /\ is_ok r = true)).
  { apply wp_try_except. destruct (0 <? start + stop_timeout - now'); [apply wp_on_world; intros [] w4 _|]; by wp_steps. }
  intros [pq|] a4 [H4 _]; [|done]. apply wp_bind. eapply wp_mono; [apply off_gate_clear_buffers|].
  intros [f3|] a5 [H5 _]; [|done]. apply wp_ret. intros [= Hr]. unfold idle. rewrite H5, H4.
  apply H3. f_equal. destruct quiet; [done|]. cbn in Hr. by destruct f2.
Qed.

(** [P] of the gate, should the actor end off. *)
Definition if_off (P : gate -> Prop) {A} (_ : result A) (a : actor W) : Prop :=
  g_state (a_gate a) = OFF -> P (a_gate a).

Lemma faulted_not_off s P {A} (r : result A) a : abs a ∈ fault_outcomes s -> if_off P r a.
Proof.
  unfold fault_outcomes, if_off. intros Hf Hoff.
  assert (st (abs a) = FAULTED) as E; [|cbn in E; congruence].
  revert Hf. case_bool_decide; intros ->%list_elem_of_singleton; done.
Qed.

Lemma if_off_fault code reason drain P a :
  owned me a -> wp (enter_fault me stop_timeout code reason drain) (if_off P) a.
Proof.
  intros Ha. eapply wp_mono; [by apply enter_fault_ends|]. intros r a' [_ (_&Hin&_)].
  by apply (faulted_not_off (abs a)).
Qed.

Lemma if_off_reply ac ch rc fc P a : P (a_gate a) -> wp (command_result ac ch rc fc) (if_off P) a.
Proof.
  intros Hp. unfold command_result. apply wp_bind, wp_of_run. intros a' r. unfold get_snapshot, on_gate, zoom, snapshot.
  cbn. intros [= <- <-]. destruct (make_snapshot _ _ _ _); [apply wp_ret|]; intros _; exact Hp.
Qed.

Lemma if_off_emitting tr k P a :
  owned me a -> (forall a', owned me a' -> a_gate a' = a_gate a -> wp k (if_off P) a') ->
  wp (emitting me stop_timeout tr k) (if_off P) a.
Proof.
  intros Ha Hk. unfold emitting, emit_transition. apply wp_bind, wp_bind.
  eapply wp_mono; [apply off_gate_emit_event|]. intros r a1 [Hg [b ->]].
  pose proof (owned_flags _ _ _ Ha Hg) as Ha1. destruct b; [by apply wp_ret, Hk|].
  apply wp_bind, wp_get_snapshot; [apply Ha1|]. intros s Hs _. apply wp_bind. rewrite Hs.
  assert (forall a', g_state (a_gate a') ≠ OFF -> wp (command_result false true (u "audit_failure")
    (Some AUDIT_FAILURE)) (if_off P) a') as Hrep.
  { intros a' Hn. apply wp_bind, wp_of_run. intros a2 r. unfold get_snapshot, on_gate, zoom, snapshot.
    cbn. intros [= <- <-]. by destruct (make_snapshot _ _ _ _); [apply wp_ret|]; intros Hoff. }
  case_bool_decide as Hf.
  - apply wp_bind. eapply wp_mono; [by apply enter_fault_ends|]. intros r a2 [[x ->] (Ha2&Habs&_)].
    apply wp_ret, wp_ret, Hrep. intros Hoff.
    exact (faulted_not_off (abs a1) (fun _ => False) (Ok tt) a2 Habs Hoff).
  - apply wp_ret, wp_ret, Hrep. by rewrite Hf.
Qed.

Lemma stop_quiescent reason gen a :
  owned me a -> is_active_state (g_state (a_gate a)) = true -> g_active (a_gate a) = Some gen ->
  wp (handle_stop me stop_timeout reason) (if_off (fun g => in_flight_of g gen <= 0)) a.
Proof.
  intros Ha Hact Hgen. unfold handle_stop. apply wp_bind, wp_modify.
  assert (Ha0 : owned me (set_manual false a)) by (by eapply owned_flags).
  apply wp_bind, wp_get_snapshot; [apply Ha0|]. intros s Hs _. cbn in Hs. rewrite Hs.
  rewrite bool_decide_false by (intros E; by rewrite E in Hact).
  rewrite bool_decide_false by (intros E; by rewrite E in Hact).
  apply wp_bind, wp_on_gate. eapply wp_mono; [by eapply begin_stopping_ok; try apply Ha0|].
  intros o g (->&(Hg&Ho&Hst&_)&_). set (a1 := put_a_gate g (set_manual false a)).
  assert (Ha1 : owned me a1) by (apply owned_put; [done|by rewrite Ho; apply Ha0]).
  apply if_off_emitting; [done|]. intros a2 Ha2 H2. cbn. apply wp_bind.
  eapply wp_mono; [apply wp_conj; [apply drain_quiescent|apply (quietly_drain stop_timeout (Some gen)), Ha2]|].
  intros r a3 [Hq [[fc ->] Hb]]. pose proof (background_owned _ _ _ Ha2 Hb) as Ha3.
  destruct fc as [code|]; [by apply if_off_fault|]. specialize (Hq eq_refl).
  apply wp_bind, wp_on_gate. eapply wp_mono; [apply finish_off_ok; try apply Ha3|].
  { rewrite (we_state _ _ (bg_gate _ _ Hb)), H2. cbn. rewrite Hst. decide_true. }
  intros o g' (->&(Hg'&Ho'&_&_&_&Hfl&_)&_). cbn.
  apply if_off_emitting; [apply owned_put; [done|by rewrite Ho'; apply Ha3]|].
  intros a4 _ H4. apply if_off_reply. rewrite H4. unfold in_flight_of. cbn. rewrite Hfl. exact Hq.
Qed.

(** [off_means_quiescent]: A stop that ends in OFF is a completed one: the
    generation it ended has no operation in flight any more (and its volatile
    buffers were cleared); a stop that cannot drain in time, cannot cancel or
    cannot clear ends FAULTED instead, never OFF. *)
Theorem off_means_quiescent reason gen a a' :
  actor_inv a -> g_active (a_gate a) = Some gen ->
  receives a (StopCapture reason) a' -> g_state (a_gate a') = OFF ->
  in_flight_of (a_gate a') gen <= 0.
Proof.
  intros [Ha _] Hgen <-. change (if_off (fun g => in_flight_of g gen <= 0) (Ok tt) (receive (StopCapture reason) a).1).
  assert (is_active_state (g_state (a_gate a)) = true) as Hact.
  { apply (gi_active _ (ow_gate _ _ Ha)). by exists gen. }
  apply (wp_elim _ (fun _ => if_off (fun g => in_flight_of g gen <= 0) (Ok tt))).
  apply wp_bind. eapply wp_mono; [by apply stop_quiescent|]. intros [r|e] a' Hoff; [by apply wp_ret|done].
Qed.
End Properties.

(** ** Witnesses: the actor run on the scripted world *)

Definition run1 (msg : message) (a : actor script) : actor script := (on_receive 7 50 100 msg a).1.

Lemma run1_receives m a : receives 7 50 100 a m (run1 m a).
Proof. reflexivity. Qed.

Fixpoint run_all (ms : list message) (a : actor script) : actor script :=
  match ms with [] => a | m :: ms' => run_all ms' (run1 m a) end.

Lemma run_all_steps ms a : steps (receives 7 50 100) a ms (run_all ms a).
Proof. revert a. induction ms as [|m ms IHms]; intros a; econstructor; [reflexivity|apply IHms]. Defined.

Lemma init_actor_inv w : actor_inv 7 (init_actor w).
Proof.
  split; [split; [|done]|split; [done|by intros []]].
  destruct init_gate_inv. by split.
Qed.

Lemma run_all_inv ms a : actor_inv 7 a -> actor_inv 7 (run_all ms a).
Proof. revert a. induction ms as [|m ms IH]; intros a Ha; [done|]. apply IH. by apply (receives_outcome 7 50 100 a m). Qed.

Definition ready : CompleteLifecyclePreflight :=
  {| cp_generation := 1; cp_reason := USER_START;
     cp_result := {| pf_ready := true; pf_fault_code := None; pf_start_paused_reason := None |} |}.
Definition start_up : list message := [StartCapture USER_START; PreflightComplete ready].
Definition recording : actor script := run_all start_up (init_actor good_script).

Lemma recording_inv : actor_inv 7 recording.
Proof. apply run_all_inv, init_actor_inv. Qed.

Example recording_reached :
  abs recording = {| st := RECORDING; manual := false; automatic := None |} /\
  map ev_current (sc_audit (a_world recording)) = [STARTING; RECORDING].
Proof. split; reflexivity. Qed.

Lemma on_receive_refines_witness :
  actor_inv 7 recording /\
  exists a r, on_receive 7 50 100 (StopCapture USER_STOP) recording = (a, Ok r) /\
    abs a ∈ outcomes (abs recording) (StopCapture USER_STOP).
Proof.
  split; [exact recording_inv|].
  pose proof (on_receive_refines 7 50 100 (StopCapture USER_STOP) recording recording_inv) as H.
  destruct (on_receive 7 50 100 (StopCapture USER_STOP) recording) as [a [r|e]] eqn:E.
  - exists a, r. split; [reflexivity|]. exact (proj1 (proj2 H)).
  - exfalso. vm_compute in E. discriminate E.
Defined.

Definition after_lock : list message :=
  [ResumeCapture USER_RESUME; StopCapture USER_STOP; StartCapture USER_START; PreflightComplete ready].

Lemma block_stops_recording_witness :
  actor_inv 7 recording /\
  g_state (a_gate (run_all after_lock (run1 (SetAutomaticCaptureBlock true SESSION_LOCKED) recording)))
    ≠ RECORDING.
Proof.
  split; [exact recording_inv|].
  refine (proj1 (block_stops_recording 7 50 100 recording SESSION_LOCKED _ after_lock _
    recording_inv (run1_receives _ _) (run_all_steps _ _) _)).
  repeat constructor.
Defined.

Definition after_pause : list message :=
  [SetAutomaticCaptureBlock true SESSION_LOCKED; SetAutomaticCaptureBlock false SESSION_UNLOCKED;
   StartCapture USER_START].

Lemma manual_pause_is_sticky_witness :
  actor_inv 7 recording /\
  let a2 := run_all after_pause (run1 (PauseCapture USER_PAUSE) recording) in
  a_manual_pause a2 = true /\ (g_state (a_gate a2) = PAUSED \/ g_state (a_gate a2) = FAULTED).
Proof.
  split; [exact recording_inv|].
  refine (manual_pause_is_sticky 7 50 100 recording USER_PAUSE _ after_pause _
    recording_inv (or_introl _) (run1_receives _ _) (run_all_steps _ _) _); [reflexivity|].
  repeat constructor.
Defined.

Definition starting : actor script := run_all [StartCapture USER_START] (init_actor good_script).

Lemma starting_inv : actor_inv 7 starting.
Proof. apply run_all_inv, init_actor_inv. Qed.

Lemma recording_needs_consent_witness :
  actor_inv 7 starting /\ g_state (a_gate (run1 (PreflightComplete ready) starting)) = RECORDING /\
  g_state (a_gate starting) = STARTING.
Proof.
  assert (Hr : g_state (a_gate (run1 (PreflightComplete ready) starting)) = RECORDING)
    by (vm_compute; reflexivity).
  split; [exact starting_inv|]. split; [exact Hr|].
  refine (proj1 (recording_needs_consent 7 50 100 starting (PreflightComplete ready) _ starting_inv (run1_receives _ _) _ Hr)).
  vm_compute. discriminate.
Defined.

Lemma off_means_quiescent_witness :
  actor_inv 7 recording /\ g_active (a_gate recording) = Some 1 /\
  in_flight_of (a_gate (run1 (StopCapture USER_STOP) recording)) 1 <= 0.
Proof.
  split; [exact recording_inv|]. split; [reflexivity|].
  refine (off_means_quiescent 7 50 100 USER_STOP 1 recording _ recording_inv _ (run1_receives _ _) _);
    vm_compute; reflexivity.
Defined.
