(* ===== verification/Storage.v ===== *)
(** * Storage: the canonical encrypted storage.

    Models [storage/operations.py] ([_SQLiteStorageOperations],
    [_SQLiteStorageRetention]), the recovery of [storage/sqlite_backend.py],
    the files of [storage/filesystem.py] and the envelope of
    [domain/crypto.py].  A [store] is what survives a crash: the two tables of
    the catalog and the three directories.  A SQLite transaction is one change
    of the store.  The fault injector the source calls between its durable
    steps ([_fault]) is the parameter [fault]: a point at which it raises is a
    point at which the process may die.  The envelope codec
    ([storage/codec.py]) is the interface [EnvelopeCodec]; SHA-256 is a
    parameter without laws.  A path under the blobs is named by its token;
    ownership, mode and symlink checks of the files are not modelled. *)

From S2P Require Import Prelude PyStr.

(** ** [domain/crypto.py] *)

Record KeyHandle := { key_id : pystr; key_provider_id : pystr; key_version : Z }.
#[export] Instance KeyHandle_eq_dec : EqDecision KeyHandle.
Proof. solve_decision. Defined.

Record EncryptedRecordEnvelope := {
  env_record_id : uuid;
  env_generation : Z;
  env_configuration_revision : pystr;
  env_schema_version : Z;
  env_algorithm : pystr;
  env_key : KeyHandle;
  env_plaintext_frame_sizes : list Z;
  env_wrapped_data_key : pybytes;
  env_nonce : pybytes;
  env_ciphertext : pybytes;
  env_associated_data_digest : pybytes;
  env_created_at : datetime }.
#[export] Instance EncryptedRecordEnvelope_eq_dec : EqDecision EncryptedRecordEnvelope.
Proof. solve_decision. Defined.

Record StoredRecordRef := {
  ref_record_id : uuid;
  ref_storage_id : pystr;
  ref_schema_version : Z }.

(** [record_id.version == 4], on the UUID's 128-bit integer: RFC 4122 variant
    and version nibble (a [UUID] is never out of range). *)
Definition uuid_is_v4 (r : uuid) : bool :=
  (0 <=? r) && (r <? 2 ^ 128) && Z.testbit r 63 && negb (Z.testbit r 62) && (Z.land (Z.shiftr r 76) 15 =? 4).

(** ** [storage/filesystem.py] *)

Definition hex_digit (n : Z) : Z := if n <? 10 then 48 + n else 87 + n.

(** [record_id.hex]: 32 lower-case digits. *)
Definition uuid_hex (r : uuid) : pystr :=
  (fun i => hex_digit (Z.land (Z.shiftr r (4 * (31 - Z.of_nat i))) 15)) <$> seq 0 32.

Definition blob_token (r : uuid) : result pystr :=
  if uuid_is_v4 r
  then Ok (take 2 (uuid_hex r) ++ u "/" ++ uuid_hex r ++ u ".lre")
  else Raise (StorageFailure INVALID_RECORD_ID).

Definition is_hex (c : Z) : bool := ((48 <=? c) && (c <=? 57)) || ((97 <=? c) && (c <=? 102)).

(** The file a token names: only [<2 hex>/<32 hex>.lre] names one. *)
Definition blob_path (token : pystr) : result pystr :=
  match split_on 47 token with
  | [shard; name] =>
      let stem := removesuffix (u ".lre") name in
      _ ← throw_if (negb (zlen shard =? 2) || negb (zlen stem =? 32) ||
                    negb (bool_decide (name = stem ++ u ".lre")) || negb (forallb is_hex (shard ++ stem)))
            (StorageFailure CORRUPTION);
      mret token
  | _ => Raise (StorageFailure CORRUPTION)
  end.

(** ** The envelope codec *)

(** [codec_valid]: the envelopes the program can construct; [CodecFacts]
    discharges the laws for the blob format of [Codec]. *)
Class EnvelopeCodec := {
  codec_valid : EncryptedRecordEnvelope -> bool;
  encode_envelope : EncryptedRecordEnvelope -> result pybytes;
  decode_envelope : pybytes -> Z -> result EncryptedRecordEnvelope;
  codec_round_trip e b max :
    codec_valid e = true -> encode_envelope e = Ok b -> zlen b <= max -> decode_envelope b max = Ok e;
  codec_nonempty e b : encode_envelope e = Ok b -> b ≠ [];
  codec_encode_v4 e b : encode_envelope e = Ok b -> uuid_is_v4 (env_record_id e) = true }.

(** ** The catalog *)

Inductive CatalogState := READY | DELETING | QUARANTINED.
#[export] Instance CatalogState_eq_dec : EqDecision CatalogState.
Proof. solve_decision. Defined.

(** The first eleven columns of a row, as [_metadata] computes them; [record_id]
    is the key of the table and [artifact_kind] is constant. *)
Record metadata := {
  md_schema_version : Z;
  md_key : KeyHandle;
  md_ciphertext_bytes : Z;
  md_blob_bytes : Z;
  md_day_bucket : Z;
  md_blob_token : pystr;
  md_blob_digest : pybytes }.
#[export] Instance metadata_eq_dec : EqDecision metadata.
Proof. solve_decision. Defined.

Record store := {
  s_records : gmap uuid (metadata * CatalogState);
  s_intents : gmap uuid metadata;
  s_blobs : gmap pystr pybytes;
  s_temporary : list pybytes;
  s_quarantine : list pybytes }.

Definition empty_store : store :=
  {| s_records := ∅; s_intents := ∅; s_blobs := ∅; s_temporary := []; s_quarantine := [] |}.

Definition set_records v s := {| s_records := v; s_intents := s_intents s; s_blobs := s_blobs s;
  s_temporary := s_temporary s; s_quarantine := s_quarantine s |}.
Definition set_intents v s := {| s_records := s_records s; s_intents := v; s_blobs := s_blobs s;
  s_temporary := s_temporary s; s_quarantine := s_quarantine s |}.
Definition set_blobs v s := {| s_records := s_records s; s_intents := s_intents s; s_blobs := v;
  s_temporary := s_temporary s; s_quarantine := s_quarantine s |}.
Definition set_temporary v s := {| s_records := s_records s; s_intents := s_intents s;
  s_blobs := s_blobs s; s_temporary := v; s_quarantine := s_quarantine s |}.
Definition set_quarantine v s := {| s_records := s_records s; s_intents := s_intents s;
  s_blobs := s_blobs s; s_temporary := s_temporary s; s_quarantine := v |}.

Inductive fault_point :=
  | AfterWriteIntent | AfterTempFsync | AfterBlobRename | AfterDeleteMark.

Record IntegrityReport := {
  verified_records : Z; recovered_writes : Z; removed_temporary_files : Z;
  completed_deletions : Z; quarantined_records : Z; indexed_orphans : Z }.
Definition no_report : IntegrityReport :=
  {| verified_records := 0; recovered_writes := 0; removed_temporary_files := 0;
     completed_deletions := 0; quarantined_records := 0; indexed_orphans := 0 |}.
Definition add_report (a b : IntegrityReport) : IntegrityReport :=
  {| verified_records := verified_records a + verified_records b;
     recovered_writes := recovered_writes a + recovered_writes b;
     removed_temporary_files := removed_temporary_files a + removed_temporary_files b;
     completed_deletions := completed_deletions a + completed_deletions b;
     quarantined_records := quarantined_records a + quarantined_records b;
     indexed_orphans := indexed_orphans a + indexed_orphans b |}.
Definition report_verified := {| verified_records := 1; recovered_writes := 0;
  removed_temporary_files := 0; completed_deletions := 0; quarantined_records := 0; indexed_orphans := 0 |}.
Definition report_recovered := {| verified_records := 0; recovered_writes := 1;
  removed_temporary_files := 0; completed_deletions := 0; quarantined_records := 0; indexed_orphans := 0 |}.
Definition report_deletion := {| verified_records := 0; recovered_writes := 0;
  removed_temporary_files := 0; completed_deletions := 1; quarantined_records := 0; indexed_orphans := 0 |}.
Definition report_quarantined := {| verified_records := 0; recovered_writes := 0;
  removed_temporary_files := 0; completed_deletions := 0; quarantined_records := 1; indexed_orphans := 0 |}.
Definition report_orphan := {| verified_records := 0; recovered_writes := 0;
  removed_temporary_files := 0; completed_deletions := 0; quarantined_records := 0; indexed_orphans := 1 |}.

Section Operations.
Context `{EnvelopeCodec}.
(** [hashlib.sha256(b).digest()], and the two limits of the constructor. *)
Variables (sha256 : pybytes -> pybytes) (quota_bytes max_blob_bytes : Z).
(** The fault injector: the points where it raises. *)
Variable fault : fault_point -> bool.

Local Abbreviation MS := (M store).

Definition fault_at (p : fault_point) : MS unit :=
  require (negb (fault p)) (External 0).

Definition metadata_of (e : EncryptedRecordEnvelope) (blob : pybytes) (token : pystr)
    (digest : pybytes) : metadata :=
  {| md_schema_version := env_schema_version e; md_key := env_key e;
     md_ciphertext_bytes := zlen (env_ciphertext e); md_blob_bytes := zlen blob;
     md_day_bucket := utc_day (env_created_at e); md_blob_token := token;
     md_blob_digest := digest |}.

(** [content_bytes_on_disk] *)
Definition content_bytes_on_disk (s : store) : Z :=
  sum_by zlen (map_to_list (s_blobs s)).*2 + sum_by zlen (s_temporary s)
  + sum_by zlen (s_quarantine s).

(** Absent, empty or oversized files are corrupt. *)
Definition read_regular_file (s : store) (path : pystr) : result pybytes :=
  match s_blobs s !! path with
  | None => Raise (StorageFailure CORRUPTION)
  | Some b =>
      if (zlen b <=? 0) || (max_blob_bytes <? zlen b)
      then Raise (StorageFailure CORRUPTION) else Ok b
  end.

Definition read_blob (s : store) (token : pystr) : result pybytes :=
  path ← blob_path token; read_regular_file s path.

Definition write_blob_atomically (token : pystr) (blob : pybytes) : MS unit :=
  final ← lift (blob_path token);
  blobs ← gets s_blobs;
  _ ← require (bool_decide (blobs !! final = None)) (StorageFailure DUPLICATE_RECORD);
  _ ← modify (fun s => set_temporary (blob :: s_temporary s) s);
  _ ← fault_at AfterTempFsync;
  modify (fun s => set_blobs (<[final := blob]> (s_blobs s)) (set_temporary (tail (s_temporary s)) s)).

(** The file at the path, if there, is moved aside. *)
Definition quarantine_path (path : pystr) : MS unit := fun s =>
  match s_blobs s !! path with
  | None => (s, Ok tt)
  | Some b => (set_quarantine (b :: s_quarantine s) (set_blobs (delete path (s_blobs s)) s), Ok tt)
  end.

(** The [try] block of [_put_sync]: intent, blob, row.  The row is inserted
    over no other: [put] has checked its id, and tokens are injective. *)
Definition put_steps (id : uuid) (md : metadata) (blob : pybytes) : MS unit :=
  _ ← modify (fun s => set_intents (<[id := md]> (s_intents s)) s);
  _ ← fault_at AfterWriteIntent;
  _ ← write_blob_atomically (md_blob_token md) blob;
  _ ← fault_at AfterBlobRename;
  modify (fun s => set_intents (delete id (s_intents s))
                     (set_records (<[id := (md, READY)]> (s_records s)) s)).

Definition as_storage_failure (e : exn) : exn :=
  match e with StorageFailure c => StorageFailure c | _ => StorageFailure IO_FAILURE end.

(** [INSERT INTO write_intents] raises on a leftover intent with the same id
    (its primary key), inside the [try]. *)
Definition put (e : EncryptedRecordEnvelope) : MS StoredRecordRef :=
  blob ← lift (encode_envelope e);
  _ ← require (negb (max_blob_bytes <? zlen blob)) (StorageFailure BLOB_TOO_LARGE);
  let id := env_record_id e in
  token ← lift (blob_token id);
  let md := metadata_of e blob token (sha256 blob) in
  records ← gets s_records;
  match records !! id with
  | Some (old, _) =>
      if bool_decide (md_blob_digest old = sha256 blob)
      then mret {| ref_record_id := id; ref_storage_id := token;
                   ref_schema_version := md_schema_version old |}
      else raise (StorageFailure DUPLICATE_RECORD)
  | None =>
      used ← gets content_bytes_on_disk;
      _ ← require (negb (quota_bytes <? used + zlen blob)) (StorageFailure QUOTA_EXCEEDED);
      intents ← gets s_intents;
      _ ← try_except
            (_ ← require (bool_decide (intents !! id = None)) (External 1); put_steps id md blob)
            (fun x => raise (as_storage_failure x));
      mret {| ref_record_id := id; ref_storage_id := token;
              ref_schema_version := env_schema_version e |}
  end.

(** [_decode_row]: the blob must have the length and digest of the row, and
    the row must be the metadata of the envelope it holds. *)
Definition decode_row (id : uuid) (md : metadata) (s : store) : result EncryptedRecordEnvelope :=
  blob ← read_blob s (md_blob_token md);
  _ ← throw_if (bool_decide (zlen blob ≠ md_blob_bytes md \/ sha256 blob ≠ md_blob_digest md))
        (StorageFailure CORRUPTION);
  e ← decode_envelope blob max_blob_bytes;
  _ ← throw_if (bool_decide (env_record_id e ≠ id \/
                  metadata_of e blob (md_blob_token md) (md_blob_digest md) ≠ md))
        (StorageFailure CORRUPTION);
  mret e.

(** A malformed token raises before the row is updated. *)
Definition quarantine_row (id : uuid) (md : metadata) : MS unit :=
  path ← lift (blob_path (md_blob_token md));
  _ ← quarantine_path path;
  modify (fun s => set_records (<[id := (md, QUARANTINED)]> (s_records s)) s).

(** [_get_sync]; only [StorageFailure] (and [OSError]) is caught. *)
Definition get (id : uuid) : MS (option EncryptedRecordEnvelope) :=
  records ← gets s_records;
  match records !! id with
  | Some (md, READY) =>
      s ← gets (fun s => s);
      match decode_row id md s with
      | Ok e => mret (Some e)
      | Raise (StorageFailure c) => _ ← quarantine_row id md; raise (StorageFailure c)
      | Raise x => raise x
      end
  | _ => mret None
  end.

(** [_delete_sync]; the answer is [DeleteResult.deleted]. *)
Definition delete_record (id : uuid) : MS bool :=
  records ← gets s_records;
  match records !! id with
  | None => mret false
  | Some (md, _) =>
      _ ← modify (fun s => set_records (<[id := (md, DELETING)]> (s_records s)) s);
      _ ← fault_at AfterDeleteMark;
      path ← lift (blob_path (md_blob_token md));
      _ ← modify (fun s => set_blobs (delete path (s_blobs s)) s);
      _ ← modify (fun s => set_records (delete id (s_records s)) s);
      mret true
  end.

(** *** Recovery *)

(** [INSERT OR IGNORE INTO records]: ignored when the id or the token is
    already in the table. *)
Definition insert_or_ignore (id : uuid) (md : metadata) (s : store) : store :=
  if bool_decide (s_records s !! id = None) &&
     forallb (fun r => negb (bool_decide (md_blob_token r.2.1 = md_blob_token md)))
             (map_to_list (s_records s))
  then set_records (<[id := (md, READY)]> (s_records s)) s else s.

(** [INSERT INTO records]: an integrity error instead. *)
Definition insert_record (id : uuid) (md : metadata) : MS unit := fun s =>
  if bool_decide (s_records s !! id = None) &&
     forallb (fun r => negb (bool_decide (md_blob_token r.2.1 = md_blob_token md)))
             (map_to_list (s_records s))
  then (set_records (<[id := (md, READY)]> (s_records s)) s, Ok tt)
  else (s, Raise (External 1)).

Definition drop_intent (id : uuid) : MS unit :=
  modify (fun s => set_intents (delete id (s_intents s)) s).

(** One iteration of [_recover_intents]. *)
Definition check_intent (id : uuid) (md : metadata) (s : store) : result unit :=
  blob ← read_blob s (md_blob_token md);
  e ← decode_envelope blob max_blob_bytes;
  throw_if (bool_decide (sha256 blob ≠ md_blob_digest md \/ env_record_id e ≠ id))
    (StorageFailure CORRUPTION).

Definition recover_intent (row : uuid * metadata) : MS IntegrityReport :=
  let (id, md) := row in
  path ← lift (blob_path (md_blob_token md));
  s ← gets (fun s => s);
  if bool_decide (s_blobs s !! path = None)
  then _ ← drop_intent id; mret no_report
  else
    match check_intent id md s with
    | Ok _ => _ ← modify (insert_or_ignore id md); _ ← drop_intent id; mret report_recovered
    | Raise _ => _ ← quarantine_path path; _ ← drop_intent id; mret report_quarantined
    end.

(** One iteration of [_recover_deletions], [_verify_ready] and
    [_recover_orphans]. *)
Definition recover_deletion (row : uuid * metadata) : MS IntegrityReport :=
  let (id, md) := row in
  path ← lift (blob_path (md_blob_token md));
  _ ← modify (fun s => set_blobs (delete path (s_blobs s)) s);
  _ ← modify (fun s => set_records (delete id (s_records s)) s);
  mret report_deletion.

Definition verify_ready (row : uuid * metadata) : MS IntegrityReport :=
  let (id, md) := row in
  s ← gets (fun s => s);
  match decode_row id md s with
  | Ok _ => mret report_verified
  | Raise _ => _ ← quarantine_row id md; mret report_quarantined
  end.

Definition read_orphan (token : pystr) (s : store) : result (uuid * metadata) :=
  blob ← read_regular_file s token;
  e ← decode_envelope blob max_blob_bytes;
  expected ← blob_token (env_record_id e);
  _ ← throw_if (bool_decide (token ≠ expected)) (StorageFailure CORRUPTION);
  mret (env_record_id e, metadata_of e blob token (sha256 blob)).

Definition recover_orphan (token : pystr) : MS IntegrityReport :=
  s ← gets (fun s => s);
  try_except
    ('(id, md) ← lift (read_orphan token s); _ ← insert_record id md; mret report_orphan)
    (fun _ => _ ← quarantine_path token; mret report_quarantined).

(** [for x in xs: counts += f(x)] *)
Fixpoint collect {A} (xs : list A) (f : A -> MS IntegrityReport) : MS IntegrityReport :=
  match xs with
  | [] => mret no_report
  | x :: xs' => a ← f x; b ← collect xs' f; mret (add_report a b)
  end.

Definition rows_in (c : CatalogState) (s : store) : list (uuid * metadata) :=
  omap (fun r : uuid * (metadata * CatalogState) =>
          if bool_decide (r.2.2 = c) then Some (r.1, r.2.1) else None)
    (map_to_list (s_records s)).

Definition referenced (s : store) : list pystr :=
  ((fun r => md_blob_token r.2.1) <$> map_to_list (s_records s))
  ++ ((fun r => md_blob_token r.2) <$> map_to_list (s_intents s)).

(** [path.suffix == ".lre"] of [iter_blob_files]: a name's leading dot starts
    no suffix. *)
Definition is_blob_file (token : pystr) : bool :=
  match split_on 47 token with
  | [_; name] => ends_with (u ".lre") name && (4 <? zlen name)
  | _ => false
  end.

Definition orphans (s : store) : list pystr :=
  filter (fun token => is_blob_file token = true /\ token ∉ referenced s) (map_to_list (s_blobs s)).*1.

Definition recover : MS IntegrityReport :=
  temps ← gets (fun s => zlen (s_temporary s));
  _ ← modify (set_temporary []);
  intents ← gets (fun s => map_to_list (s_intents s));
  a ← collect intents recover_intent;
  deleting ← gets (rows_in DELETING);
  b ← collect deleting recover_deletion;
  ready ← gets (rows_in READY);
  c ← collect ready verify_ready;
  lost ← gets orphans;
  d ← collect lost recover_orphan;
  mret (add_report {| verified_records := 0; recovered_writes := 0; removed_temporary_files := temps;
                      completed_deletions := 0; quarantined_records := 0; indexed_orphans := 0 |}
         (add_report a (add_report b (add_report c d)))).
End Operations.
