(* ===== verification/StorageFacts.v ===== *)
(** * StorageFacts: the store's invariant and the effect of every operation.

    [content s id] is what the store holds for a record, counting the write
    intents recovery would complete; [wf] is the invariant of a store whose
    files were written by this program only.  Each operation is shown to keep
    [wf] and to change [content] as a map operation would, wherever the fault
    injector stops it. *)

From S2P Require Import Prelude PyStr Storage.

(** ** Tokens name records *)

Lemma hex_digit_inj a b : 0 <= a < 16 -> 0 <= b < 16 -> hex_digit a = hex_digit b -> a = b.
Proof. unfold hex_digit. destruct (Z.ltb_spec a 10), (Z.ltb_spec b 10); lia. Qed.

Lemma nibble_range r i : 0 <= Z.land (Z.shiftr r i) 15 < 16.
Proof. change 15 with (Z.ones 4). rewrite Z.land_ones by lia. apply Z.mod_pos_bound. lia. Qed.

Lemma uuid_hex_lookup r (i : nat) : (i < 32)%nat ->
  uuid_hex r !! i = Some (hex_digit (Z.land (Z.shiftr r (4 * (31 - Z.of_nat i))) 15)).
Proof.
  intros Hi. unfold uuid_hex. rewrite list_lookup_fmap. by rewrite lookup_seq_lt.
Qed.

Lemma uuid_hex_inj a b :
  0 <= a < 2 ^ 128 -> 0 <= b < 2 ^ 128 -> uuid_hex a = uuid_hex b -> a = b.
Proof.
  intros Ha Hb Hh. apply Z.bits_inj'. intros n Hn. destruct (Z.lt_ge_cases n 128) as [Hlt|Hge].
  2:{ rewrite !Z.bits_above_log2; try done; try lia;
        [destruct (decide (b = 0)) as [->|]|destruct (decide (a = 0)) as [->|]]; try (cbn; lia);
        apply Z.log2_lt_pow2; try lia; apply Z.lt_le_trans with (2 ^ 128); try lia;
        apply Z.pow_le_mono_r; lia. }
  set (i := Z.to_nat (31 - n / 4)).
  assert (Hi : (i < 32)%nat) by (unfold i; pose proof (Z.div_pos n 4 Hn ltac:(lia)); lia).
  assert (Hn4 : n / 4 <= 31) by (apply Z.lt_succ_r, Z.div_lt_upper_bound; lia).
  assert (H4 : 4 * (31 - Z.of_nat i) + n mod 4 = n).
  { unfold i. rewrite Z2Nat.id by lia. pose proof (Z.div_mod n 4 ltac:(lia)). lia. }
  assert (Hd : uuid_hex a !! i = uuid_hex b !! i) by (by rewrite Hh).
  rewrite !uuid_hex_lookup in Hd by done. injection Hd as Hd. apply hex_digit_inj in Hd; [|apply nibble_range..].
  assert (Hb4 : forall r, Z.testbit r n = Z.testbit (Z.land (Z.shiftr r (4 * (31 - Z.of_nat i))) 15) (n mod 4)).
  { intros r. pose proof (Z.mod_pos_bound n 4 ltac:(lia)). rewrite Z.land_spec, Z.shiftr_spec by lia.
    change 15 with (Z.ones 4). rewrite Z.ones_spec_low by lia. rewrite andb_true_r. f_equal. lia. }
  by rewrite !Hb4, Hd.
Qed.

Lemma v4_range r : uuid_is_v4 r = true -> 0 <= r < 2 ^ 128.
Proof. unfold uuid_is_v4. intros. btauto_hyps. lia. Qed.

Lemma blob_token_inj a b t : blob_token a = Ok t -> blob_token b = Ok t -> a = b.
Proof.
  unfold blob_token. destruct (uuid_is_v4 a) eqn:Ha, (uuid_is_v4 b) eqn:Hb; try done.
  intros H1 H2. assert (Heq : take 2 (uuid_hex a) ++ u "/" ++ uuid_hex a ++ u ".lre" =
    take 2 (uuid_hex b) ++ u "/" ++ uuid_hex b ++ u ".lre") by congruence. clear H1 H2.
  apply v4_range in Ha, Hb. apply uuid_hex_inj; try done.
  assert (Hl : forall r, length (uuid_hex r) = 32%nat) by (intros r; unfold uuid_hex; by rewrite length_fmap, length_seq).
  apply app_inj_1 in Heq as [_ Heq]; [|by rewrite !length_take, !Hl].
  apply app_inj_1 in Heq as [_ Heq]; [|done].
  apply app_inj_1 in Heq as [Heq _]; [done|]. by rewrite !Hl.
Qed.

Lemma uuid_hex_is_hex r : forallb is_hex (uuid_hex r) = true.
Proof.
  unfold uuid_hex. apply List.forallb_forall. intros c Hc%list_elem_of_In.
  apply list_elem_of_fmap in Hc as (i&->&_). pose proof (nibble_range r (4 * (31 - Z.of_nat i))) as Hn.
  unfold hex_digit, is_hex. destruct (Z.ltb_spec (Z.land (Z.shiftr r (4 * (31 - Z.of_nat i))) 15) 10);
    rewrite orb_true_iff, !andb_true_iff, !Z.leb_le; lia.
Qed.

Lemma forallb_take {A} (f : A -> bool) n l : forallb f l = true -> forallb f (take n l) = true.
Proof. rewrite <- (take_drop n l) at 1. rewrite forallb_app. by intros [? _]%andb_true_iff. Qed.

Lemma removesuffix_app suffix s : removesuffix suffix (s ++ suffix) = s.
Proof.
  unfold removesuffix. rewrite (proj2 (ends_with_spec _ _)) by by exists s.
  rewrite length_app. rewrite take_app_le by lia. apply take_ge. lia.
Qed.

(** The token of a record passes the check of its path. *)
Lemma blob_token_path r t : blob_token r = Ok t -> blob_path t = Ok t.
Proof.
  unfold blob_token. destruct (uuid_is_v4 r); [|done]. intros Ht.
  pose proof (uuid_hex_is_hex r) as Hh. assert (Hl : length (uuid_hex r) = 32%nat) by (unfold uuid_hex; by rewrite length_fmap, length_seq).
  assert (Hno : forall s, forallb is_hex s = true -> 47 ∉ s).
  { intros s Hs Hin. apply list_elem_of_In in Hin. by pose proof (proj1 (List.forallb_forall _ _) Hs _ Hin). }
  assert (Heq : take 2 (uuid_hex r) ++ u "/" ++ uuid_hex r ++ u ".lre" = t) by congruence.
  change (take 2 (uuid_hex r) ++ 47 :: uuid_hex r ++ u ".lre" = t) in Heq. rewrite <- Heq. clear Ht Heq t.
  unfold blob_path. rewrite split_on_app, (split_on_none 47 (take 2 _)) by by apply Hno, forallb_take.
  rewrite split_on_none. 2:{ rewrite not_elem_of_app. split; [by apply Hno|].
    apply (bool_decide_eq_true_1 (47 ∉ u ".lre")). vm_compute. reflexivity. }
  cbn [app]. rewrite removesuffix_app, bool_decide_true by done. unfold zlen. rewrite length_take, Hl. cbn [negb orb].
  rewrite forallb_app, forallb_take, Hh by done. done.
Qed.

Lemma blob_path_id t p : blob_path t = Ok p -> p = t.
Proof.
  unfold blob_path. destruct (split_on 47 t) as [|? [|? [|]]]; try done. cbn.
  destruct (throw_if _ _); [|done]. cbn. intros H. by injection H.
Qed.

(** ** The invariant *)

Section Facts.
Context `{EnvelopeCodec}.
Variables (sha256 : pybytes -> pybytes) (quota_bytes max_blob_bytes : Z).

Local Abbreviation decodes := (decode_row sha256 max_blob_bytes).

Definition ok {A} (r : result A) : option A := match r with Ok a => Some a | Raise _ => None end.

Definition content (s : store) (id : uuid) : option EncryptedRecordEnvelope :=
  match s_records s !! id with
  | Some (md, READY) => ok (decodes id md s)
  | Some _ => None
  | None => s_intents s !! id ≫= fun md => ok (decodes id md s)
  end.

(** A row or an intent names the blob at [token]. *)
Definition names (s : store) (token : pystr) : Prop :=
  exists id md, blob_token id = Ok token /\ md_blob_token md = token /\
    ((exists st, s_records s !! id = Some (md, st)) \/ s_intents s !! id = Some md).

Record wf (s : store) : Prop := {
  wf_row_token id md st :
    s_records s !! id = Some (md, st) -> blob_token id = Ok (md_blob_token md);
  wf_intent_token id md : s_intents s !! id = Some md -> blob_token id = Ok (md_blob_token md);
  wf_ready id md : s_records s !! id = Some (md, READY) -> is_Some (ok (decodes id md s));
  wf_quarantined id md :
    s_records s !! id = Some (md, QUARANTINED) -> s_blobs s !! md_blob_token md = None;
  wf_disjoint id : is_Some (s_intents s !! id) -> s_records s !! id = None;
  wf_intent_blob id md : s_intents s !! id = Some md ->
    s_blobs s !! md_blob_token md = None \/ is_Some (ok (decodes id md s));
  wf_named token : is_Some (s_blobs s !! token) -> names s token }.

Lemma wf_row_path s id md st :
  wf s -> s_records s !! id = Some (md, st) -> blob_path (md_blob_token md) = Ok (md_blob_token md).
Proof. intros Hwf Hr. eapply blob_token_path. by eapply wf_row_token. Qed.

Lemma wf_intent_path s id md : wf s -> s_intents s !! id = Some md -> blob_path (md_blob_token md) = Ok (md_blob_token md).
Proof. intros Hwf Hr. eapply blob_token_path. by eapply wf_intent_token. Qed.

Lemma empty_wf : wf empty_store.
Proof. split; cbn; intros *; rewrite ?lookup_empty; try done; by intros []. Qed.

Lemma decodes_blobs id md s s' :
  s_blobs s' !! md_blob_token md = s_blobs s !! md_blob_token md -> decodes id md s' = decodes id md s.
Proof.
  intros Hb. unfold decode_row, read_blob. destruct (blob_path _) as [p|] eqn:Hp; [|done]. cbn.
  apply blob_path_id in Hp as ->. unfold read_regular_file. by rewrite Hb.
Qed.

Lemma decodes_absent id md s : s_blobs s !! md_blob_token md = None -> ok (decodes id md s) = None.
Proof.
  intros Hb. unfold decode_row, read_blob. destruct (blob_path _) as [p|] eqn:Hp; [|done]. cbn.
  apply blob_path_id in Hp as ->. unfold read_regular_file. by rewrite Hb.
Qed.

Lemma decodes_stored id md s : is_Some (ok (decodes id md s)) -> is_Some (s_blobs s !! md_blob_token md).
Proof.
  destruct (s_blobs s !! md_blob_token md) eqn:E; [done|]. rewrite decodes_absent by done. by intros [].
Qed.

(** Two records have two tokens. *)
Lemma token_ne id id' md md' :
  id ≠ id' -> blob_token id = Ok (md_blob_token md) -> blob_token id' = Ok (md_blob_token md') ->
  md_blob_token md ≠ md_blob_token md'.
Proof. intros Hne H1 H2 Ht. rewrite <- Ht in H2. by eapply Hne, blob_token_inj. Qed.

(** The token of an unknown record names no blob. *)
Lemma fresh_blob s id token :
  wf s -> s_records s !! id = None -> s_intents s !! id = None -> blob_token id = Ok token ->
  s_blobs s !! token = None.
Proof.
  intros Hwf Hr Hi Ht. destruct (s_blobs s !! token) eqn:E; [|done]. exfalso.
  destruct (wf_named _ Hwf token) as (id'&md&Ht'&_&Hor); [by rewrite E|].
  rewrite (blob_token_inj _ _ _ Ht Ht') in *. destruct Hor as [[st Hor]|Hor]; congruence.
Qed.

(** *** The shapes the operations go through *)

Lemma wf_temporary v s : wf s -> wf (set_temporary v s).
Proof. by intros []. Qed.

Lemma content_temporary v s id : content (set_temporary v s) id = content s id.
Proof. done. Qed.

Lemma wf_add_intent id md s :
  wf s -> s_records s !! id = None -> s_intents s !! id = None -> blob_token id = Ok (md_blob_token md) ->
  wf (set_intents (<[id := md]> (s_intents s)) s).
Proof.
  intros Hwf Hr Hi Ht. pose proof (fresh_blob _ _ _ Hwf Hr Hi Ht) as Hb. split; cbn; try apply Hwf.
  - intros id' md'. rewrite lookup_insert_Some. intros [[<- <-]|[_ ?]]; [done|by apply (wf_intent_token _ Hwf)].
  - intros id' [md' Hm]. apply lookup_insert_Some in Hm as [[<- _]|[_ ?]]; [done|by apply (wf_disjoint _ Hwf); eauto].
  - intros id' md'. rewrite lookup_insert_Some. intros [[<- <-]|[_ ?]]; [by left|by apply (wf_intent_blob _ Hwf)].
  - intros token Htok. destruct (wf_named _ Hwf token Htok) as (id'&md'&H1&H2&Hor).
    exists id', md'. split; [done|]. split; [done|]. destruct Hor as [?|Hor]; [by left|right; cbn].
    rewrite lookup_insert_ne; [done|]. intros ->. congruence.
Qed.

Lemma content_add_intent id md s id' :
  wf s -> s_records s !! id = None -> s_intents s !! id = None -> blob_token id = Ok (md_blob_token md) ->
  content (set_intents (<[id := md]> (s_intents s)) s) id' = content s id'.
Proof.
  intros Hwf Hr Hi Ht. unfold content. cbn. destruct (decide (id = id')) as [<-|Hne].
  - rewrite Hr, Hi, lookup_insert_eq. cbn. rewrite decodes_absent; [done|]. cbn. by eapply fresh_blob.
  - by rewrite lookup_insert_ne.
Qed.

Lemma wf_write_blob id md blob s :
  wf s -> s_intents s !! id = Some md ->
  let s' := set_blobs (<[md_blob_token md := blob]> (s_blobs s)) s in
  is_Some (ok (decodes id md s')) -> wf s'.
Proof.
  intros Hwf Hi s' Hd. pose proof (wf_intent_token _ Hwf _ _ Hi) as Ht.
  assert (Hkeep : forall id' md', id' ≠ id -> blob_token id' = Ok (md_blob_token md') ->
    s_blobs s' !! md_blob_token md' = s_blobs s !! md_blob_token md').
  { intros id' md' Hne Ht'. apply lookup_insert_ne. by eapply (token_ne id id'). }
  assert (Hrow : forall id' x, s_records s !! id' = Some x -> id' ≠ id).
  { intros id' x Hx ->. rewrite (wf_disjoint _ Hwf) in Hx; [done|]. by rewrite Hi. }
  split; try apply Hwf.
  - intros id' md' Hr. pose proof (wf_row_token _ Hwf _ _ _ Hr) as Ht'.
    rewrite (decodes_blobs _ _ s); [by apply (wf_ready _ Hwf)|]. by eapply Hkeep; [eapply Hrow|].
  - intros id' md' Hr. pose proof (wf_row_token _ Hwf _ _ _ Hr) as Ht'.
    rewrite (Hkeep id' md'); [by eapply (wf_quarantined _ Hwf)|by eapply Hrow|done].
  - intros id' md' Hi'. change (s_intents s !! id' = Some md') in Hi'.
    destruct (decide (id' = id)) as [->|Hne].
    { right. rewrite Hi in Hi'. by injection Hi' as <-. }
    pose proof (wf_intent_token _ Hwf _ _ Hi') as Ht'. rewrite (Hkeep _ _ Hne Ht').
    rewrite (decodes_blobs _ _ s) by by eapply Hkeep. by apply (wf_intent_blob _ Hwf).
  - intros token [b Hb]. unfold s' in Hb; cbn in Hb.
    apply lookup_insert_Some in Hb as [[<- _]|[_ Hb]].
    + exists id, md. auto.
    + apply (wf_named _ Hwf). eauto.
Qed.

Lemma content_write_blob id md blob s id' :
  wf s -> s_intents s !! id = Some md -> id' ≠ id ->
  content (set_blobs (<[md_blob_token md := blob]> (s_blobs s)) s) id' = content s id'.
Proof.
  intros Hwf Hi Hne. pose proof (wf_intent_token _ Hwf _ _ Hi) as Ht.
  assert (Hkeep : forall md', blob_token id' = Ok (md_blob_token md') ->
    decodes id' md' (set_blobs (<[md_blob_token md := blob]> (s_blobs s)) s) = decodes id' md' s).
  { intros md' Ht'. apply decodes_blobs, lookup_insert_ne. by eapply (token_ne id id'). }
  unfold content. cbn. destruct (s_records s !! id') as [[md' st]|] eqn:Hr.
  - pose proof (wf_row_token _ Hwf _ _ _ Hr). by rewrite Hkeep.
  - destruct (s_intents s !! id') as [md'|] eqn:Hi'; [|done]. cbn. rewrite Hkeep; [done|].
    by eapply wf_intent_token.
Qed.

Lemma wf_commit id md s :
  wf s -> s_intents s !! id = Some md -> is_Some (ok (decodes id md s)) ->
  wf (set_intents (delete id (s_intents s)) (set_records (<[id := (md, READY)]> (s_records s)) s)).
Proof.
  intros Hwf Hi Hd. pose proof (wf_intent_token _ Hwf _ _ Hi) as Ht.
  split; cbn.
  - intros id' md' st. rewrite lookup_insert_Some. intros [[<- [= <- _]]|[_ ?]]; [done|by eapply wf_row_token].
  - intros id' md'. rewrite lookup_delete_Some. intros [_ ?]. by eapply wf_intent_token.
  - intros id' md'. rewrite lookup_insert_Some. intros [[<- [= <-]]|[_ Hr]]; [done|by apply (wf_ready _ Hwf)].
  - intros id' md'. rewrite lookup_insert_Some. intros [[_ [=]]|[_ Hr]]. by eapply wf_quarantined.
  - intros id'. rewrite lookup_delete_is_Some, lookup_insert_None. intros [Hne Hs].
    split; [by apply (wf_disjoint _ Hwf)|done].
  - intros id' md'. rewrite lookup_delete_Some. intros [_ ?]. by apply (wf_intent_blob _ Hwf).
  - intros token Htok. destruct (wf_named _ Hwf token Htok) as (id'&md'&H1&H2&Hor).
    exists id', md'. split; [done|]. split; [done|]. cbn.
    destruct (decide (id' = id)) as [->|Hne].
    + left. exists READY. rewrite lookup_insert_eq. do 2 f_equal.
      destruct Hor as [[st Hor]|Hor]; [|congruence]. rewrite (wf_disjoint _ Hwf) in Hor; [done|by rewrite Hi].
    + rewrite lookup_insert_ne, lookup_delete_ne by done. exact Hor.
Qed.

Lemma content_commit id md s id' :
  wf s -> s_intents s !! id = Some md ->
  content (set_intents (delete id (s_intents s)) (set_records (<[id := (md, READY)]> (s_records s)) s)) id'
  = content s id'.
Proof.
  intros Hwf Hi. unfold content. cbn. destruct (decide (id = id')) as [<-|Hne].
  - rewrite lookup_insert_eq, (wf_disjoint _ Hwf), Hi by (by rewrite Hi). done.
  - by rewrite lookup_insert_ne, lookup_delete_ne by done.
Qed.

(** A row that names no record any more: being deleted, or set aside. *)
Lemma wf_mark_deleting id md st s :
  wf s -> s_records s !! id = Some (md, st) ->
  wf (set_records (<[id := (md, DELETING)]> (s_records s)) s).
Proof.
  intros Hwf Hr. pose proof (wf_row_token _ Hwf _ _ _ Hr) as Ht. split; cbn; try apply Hwf.
  - intros id' md' st'. rewrite lookup_insert_Some. intros [[<- [= <- _]]|[_ ?]]; [done|by eapply wf_row_token].
  - intros id' md'. rewrite lookup_insert_Some. intros [[_ [=]]|[_ ?]]. by apply (wf_ready _ Hwf).
  - intros id' md'. rewrite lookup_insert_Some. intros [[_ [=]]|[_ ?]]. by eapply wf_quarantined.
  - intros id' Hi. rewrite lookup_insert_None. pose proof (wf_disjoint _ Hwf _ Hi). split; [done|]. intros ->. congruence.
  - intros token Htok. destruct (wf_named _ Hwf token Htok) as (id'&md'&H1&H2&Hor).
    exists id', md'. split; [done|]. split; [done|]. cbn. destruct Hor as [[st' Hor]|Hor]; [left|by right].
    destruct (decide (id' = id)) as [->|Hne]; [exists DELETING|exists st'].
    + rewrite lookup_insert_eq. congruence.
    + by rewrite lookup_insert_ne.
Qed.

Lemma content_mark_deleting id md s id' :
  content (set_records (<[id := (md, DELETING)]> (s_records s)) s) id' =
  if bool_decide (id' = id) then None else content s id'.
Proof.
  unfold content. cbn. case_bool_decide as Hd.
  - by rewrite Hd, lookup_insert_eq.
  - by rewrite lookup_insert_ne.
Qed.

Definition drop_row (id : uuid) (md : metadata) (s : store) : store :=
  set_records (delete id (s_records s)) (set_blobs (delete (md_blob_token md) (s_blobs s)) s).

Lemma drop_keeps id md s id' md' :
  id' ≠ id -> blob_token id = Ok (md_blob_token md) -> blob_token id' = Ok (md_blob_token md') ->
  s_blobs (drop_row id md s) !! md_blob_token md' = s_blobs s !! md_blob_token md'.
Proof. intros Hne H1 H2. cbn. apply lookup_delete_ne. by eapply (token_ne id id'). Qed.

Lemma wf_drop_row id md st s :
  wf s -> s_records s !! id = Some (md, st) -> wf (drop_row id md s).
Proof.
  intros Hwf Hr. pose proof (wf_row_token _ Hwf _ _ _ Hr) as Ht.
  assert (Hni : forall id' md', s_intents s !! id' = Some md' -> id' ≠ id).
  { intros id' md' Hi ->. rewrite (wf_disjoint _ Hwf) in Hr; [done|by rewrite Hi]. }
  split; cbn.
  - intros id' md' st'. rewrite lookup_delete_Some. intros [_ ?]. by eapply wf_row_token.
  - apply Hwf.
  - intros id' md'. rewrite lookup_delete_Some. intros [Hne Hr'].
    pose proof (wf_row_token _ Hwf _ _ _ Hr') as Ht'.
    rewrite (decodes_blobs _ _ s) by by eapply (drop_keeps id md s id'). by apply (wf_ready _ Hwf).
  - intros id' md'. rewrite lookup_delete_Some. intros [_ Hq]. apply lookup_delete_None. right. by eapply wf_quarantined.
  - intros id' Hi. apply lookup_delete_None. right. by apply (wf_disjoint _ Hwf).
  - intros id' md' Hi. pose proof (wf_intent_token _ Hwf _ _ Hi) as Ht'. pose proof (Hni _ _ Hi) as Hne.
    destruct (wf_intent_blob _ Hwf _ _ Hi) as [Hb|Hd]; [left|right].
    + apply lookup_delete_None. by right.
    + rewrite (decodes_blobs _ _ s); [done|]. by eapply (drop_keeps id md s id').
  - intros token. rewrite lookup_delete_is_Some. intros [Hne Hb].
    destruct (wf_named _ Hwf token Hb) as (id'&md'&H1&H2&Hor). exists id', md'.
    split; [done|]. split; [done|]. cbn. destruct Hor as [[st' Hor]|Hor]; [left|by right].
    exists st'. rewrite lookup_delete_ne; [done|]. intros <-. congruence.
Qed.

Lemma content_drop_row id md st s id' :
  wf s -> s_records s !! id = Some (md, st) ->
  content (drop_row id md s) id' = if bool_decide (id' = id) then None else content s id'.
Proof.
  intros Hwf Hr. pose proof (wf_row_token _ Hwf _ _ _ Hr) as Ht. unfold content. cbn. case_bool_decide as Hd.
  - subst id'. rewrite lookup_delete_eq. destruct (s_intents s !! id) eqn:Hi; [|done].
    rewrite (wf_disjoint _ Hwf) in Hr; [done|by rewrite Hi].
  - rewrite lookup_delete_ne by done. destruct (s_records s !! id') as [[md' st']|] eqn:Hr'.
    + pose proof (wf_row_token _ Hwf _ _ _ Hr').
      rewrite (decodes_blobs _ _ s) by by eapply (drop_keeps id md s id'). done.
    + destruct (s_intents s !! id') as [md'|] eqn:Hi; [|done]. cbn. f_equal. apply decodes_blobs, (drop_keeps id md s id'); try done.
      by eapply wf_intent_token.
Qed.

Lemma wf_drop_intent id md s :
  wf s -> s_intents s !! id = Some md -> s_blobs s !! md_blob_token md = None ->
  wf (set_intents (delete id (s_intents s)) s).
Proof.
  intros Hwf Hi Hb. split; cbn; try apply Hwf.
  - intros id' md'. rewrite lookup_delete_Some. intros [_ ?]. by eapply wf_intent_token.
  - intros id'. rewrite lookup_delete_is_Some. intros [_ ?]. by apply (wf_disjoint _ Hwf).
  - intros id' md'. rewrite lookup_delete_Some. intros [_ ?]. by apply (wf_intent_blob _ Hwf).
  - intros token Htok. destruct (wf_named _ Hwf token Htok) as (id'&md'&H1&H2&Hor).
    exists id', md'. split; [done|]. split; [done|]. cbn. destruct Hor as [Hor|Hor]; [by left|right].
    rewrite lookup_delete_ne; [done|]. intros <-. rewrite Hi in Hor. injection Hor as <-.
    rewrite H2 in Hb. rewrite Hb in Htok. by destruct Htok.
Qed.

Lemma content_drop_intent id md s id' :
  wf s -> s_intents s !! id = Some md -> s_blobs s !! md_blob_token md = None ->
  content (set_intents (delete id (s_intents s)) s) id' = content s id'.
Proof.
  intros Hwf Hi Hb. unfold content. cbn. destruct (decide (id = id')) as [<-|Hne].
  - rewrite lookup_delete_eq, Hi, (wf_disjoint _ Hwf) by (by rewrite Hi). cbn. by rewrite decodes_absent.
  - by rewrite lookup_delete_ne.
Qed.
End Facts.
