(* ===== verification/PyData.v ===== *)
(** * PyData: the text and byte forms of Python's values.

    [struct]'s big-endian integers, [str(uuid)] and [UUID(text)],
    [datetime.isoformat] and [datetime.fromisoformat], with their round trips.
    [UUID] and [fromisoformat] accept more texts than their printers write;
    the texts of those other forms are left to two parameters. *)

From S2P Require Import Prelude PyStr Storage Json.

(** ** Fixed-width digits, most significant first *)

Fixpoint be_digits (base : Z) (width : nat) (n : Z) : list Z :=
  match width with
  | O => []
  | S width' => be_digits base width' (n / base) ++ [n mod base]
  end.
Definition be_value (base : Z) (ds : list Z) : Z := foldl (fun acc d => acc * base + d) 0 ds.

(** A decimal number padded with zeros, and back. *)
Definition padded (width : nat) (n : Z) : pystr := (fun d => 48 + d) <$> be_digits 10 width n.
Definition decimal (s : pystr) : option Z :=
  if forallb is_digit s then Some (be_value 10 ((fun c => c - 48) <$> s)) else None.

(** ** UUIDs *)

(** [str(r)] *)
Definition uuid_text (r : uuid) : pystr :=
  let h := uuid_hex r in
  take 8 h ++ [45] ++ take 4 (drop 8 h) ++ [45] ++ take 4 (drop 12 h) ++ [45] ++
  take 4 (drop 16 h) ++ [45] ++ drop 20 h.

(** [s.replace(sub, "")]; [skip] characters of a match are still to drop. *)
Fixpoint remove_from (sub : pystr) (skip : nat) (s : pystr) : pystr :=
  match s with
  | [] => []
  | c :: s' =>
      match skip with
      | S skip' => remove_from sub skip' s'
      | O => if starts_with sub s then remove_from sub (length sub - 1) s' else c :: remove_from sub 0 s'
      end
  end.
Definition remove (sub s : pystr) : pystr := remove_from sub 0 s.

(** [s.strip(chars)] *)
Definition strip_chars (f : Z -> bool) (s : pystr) : pystr := rev (drop_while f (rev (drop_while f s))).
Definition is_brace (c : Z) : bool := (c =? 123) || (c =? 125).

Definition hex_digits (s : pystr) : option (list Z) := mapM hex_value s.

Section Parsers.
(** [int(text, 16)] of a text of 32 characters that are not all hexadecimal
    digits (signs, spaces, underscores, other digits). *)
Variable int16_other : pystr -> result Z.

(** [UUID(text)] *)
Definition uuid_of_text (text : pystr) : result uuid :=
  let hex := remove [45] (strip_chars is_brace (remove (u "uuid:") (remove (u "urn:") text))) in
  _ ← throw_if (negb (zlen hex =? 32)) ValueError;
  n ← match hex_digits hex with Some ds => Ok (be_value 16 ds) | None => int16_other hex end;
  _ ← throw_if (negb ((0 <=? n) && (n <? 2 ^ 128))) ValueError;
  mret n.
End Parsers.

(** ** Dates

    Days are counted from 1970-01-01; years begin in March, so that the
    leap day comes last. *)

Definition days_from_civil (date : Z * Z * Z) : Z :=
  let '(y, m, d) := date in
  let y' := if m <=? 2 then y - 1 else y in
  let era := y' / 400 in
  let yoe := y' mod 400 in
  let doy := (153 * (if 2 <? m then m - 3 else m + 9) + 2) / 5 + d - 1 in
  era * 146097 + (yoe * 365 + yoe / 4 - yoe / 100 + doy) - 719468.

Definition year_of_era (doe : Z) : Z := (doe - doe / 1460 + doe / 36524 - doe / 146096) / 365.
Definition day_of_year (doe : Z) : Z :=
  let yoe := year_of_era doe in doe - (365 * yoe + yoe / 4 - yoe / 100).

(** The month of a day of the year, counted from March, and its number. *)
Definition month_index (doy : Z) : Z := (5 * doy + 2) / 153.
Definition month_of (mp : Z) : Z := if mp <? 10 then mp + 3 else mp - 9.

Definition civil_from_days (z : Z) : Z * Z * Z :=
  let era := (z + 719468) / 146097 in
  let doe := (z + 719468) mod 146097 in
  let doy := day_of_year doe in
  let m := month_of (month_index doy) in
  (year_of_era doe + era * 400 + (if m <=? 2 then 1 else 0), m, doy - (153 * month_index doy + 2) / 5 + 1).

(** [date(y, m, d)] exists: it is the date of its day. *)
Definition valid_date (date : Z * Z * Z) : bool :=
  (1 <=? date.1.1) && (date.1.1 <=? 9999) && bool_decide (civil_from_days (days_from_civil date) = date).

(** ** Datetimes *)

(** [hh:mm:ss] and microseconds of a time span below a day. *)
Definition clock_text (us : Z) : pystr :=
  padded 2 (us / 3600000000) ++ [58] ++ padded 2 (us / 60000000 mod 60) ++ [58] ++ padded 2 (us / 1000000 mod 60).
Definition fraction_text (us : Z) : pystr :=
  if us mod 1000000 =? 0 then [] else [46] ++ padded 6 (us mod 1000000).

(** The offset, with its seconds only when it has some. *)
Definition offset_text (offset : Z) : pystr :=
  let a := Z.abs offset in
  [if offset <? 0 then 45 else 43] ++ padded 2 (a / 3600000000) ++ [58] ++ padded 2 (a / 60000000 mod 60) ++
  (if a mod 60000000 =? 0 then [] else [58] ++ padded 2 (a / 1000000 mod 60) ++ fraction_text a).

(** [d.isoformat()] *)
Definition isoformat (d : datetime) : pystr :=
  let '(y, m, day) := civil_from_days (dt_wall d / us_per_day) in
  let us := dt_wall d mod us_per_day in
  padded 4 y ++ [45] ++ padded 2 m ++ [45] ++ padded 2 day ++ [84] ++
  clock_text us ++ fraction_text us ++ offset_text (dt_offset d).

(** Readers of the printed forms: [None] when the text is of another form. *)
Definition read_number (width : nat) (s : pystr) : option (Z * pystr) :=
  if zlen (take width s) =? Z.of_nat width then n ← decimal (take width s); Some (n, drop width s) else None.
Definition read_char (c : Z) (s : pystr) : option pystr :=
  match s with c' :: s' => if c' =? c then Some s' else None | [] => None end.

Definition read_fraction (s : pystr) : option (Z * pystr) :=
  match read_char 46 s with
  | Some s => read_number 6 s
  | None => Some (0, s)
  end.

(** [hh:mm:ss[.ffffff]] *)
Definition read_clock (s : pystr) : option (Z * Z * Z * Z * pystr) :=
  '(h, s) ← read_number 2 s; s ← read_char 58 s;
  '(mi, s) ← read_number 2 s; s ← read_char 58 s;
  '(sec, s) ← read_number 2 s; '(us, s) ← read_fraction s;
  Some (h, mi, sec, us, s).

(** [+hh:mm[:ss[.ffffff]]], to the end: the sign and the fields *)
Definition read_offset (s : pystr) : option (bool * (Z * Z * Z * Z)) :=
  match s with
  | sign :: s =>
      if bool_decide (sign ∈ [43; 45]) then
        '(h, s) ← read_number 2 s; s ← read_char 58 s; '(mi, s) ← read_number 2 s;
        match s with
        | [] => Some (sign =? 45, (h, mi, 0, 0))
        | _ =>
            s ← read_char 58 s; '(sec, s) ← read_number 2 s; '(us, s) ← read_fraction s;
            match s with [] => Some (sign =? 45, (h, mi, sec, us)) | _ => None end
        end
      else None
  | [] => None
  end.

Record iso_fields := {
  if_date : Z * Z * Z;
  if_clock : Z * Z * Z * Z;
  if_negative : bool;
  if_offset : Z * Z * Z * Z }.

Definition read_iso (s : pystr) : option iso_fields :=
  '(y, s) ← read_number 4 s; s ← read_char 45 s;
  '(m, s) ← read_number 2 s; s ← read_char 45 s;
  '(d, s) ← read_number 2 s; s ← read_char 84 s;
  '(clock, s) ← read_clock s;
  '(negative, offset) ← read_offset s;
  Some {| if_date := (y, m, d); if_clock := clock; if_negative := negative; if_offset := offset |}.

(** [h], [mi], [sec] and [us] in microseconds, when they are those of a clock *)
Definition clock_value (c : Z * Z * Z * Z) : option Z :=
  let '(h, mi, sec, us) := c in
  if (h <? 24) && (mi <? 60) && (sec <? 60) then Some (((h * 60 + mi) * 60 + sec) * 1000000 + us) else None.

Section Iso.
(** [fromisoformat] of a text of another form ([None] is a naive datetime),
    the hour 24 included. *)
Variable fromisoformat_other : pystr -> result (option datetime).

Definition fromisoformat (text : pystr) : result (option datetime) :=
  match read_iso text with
  | None => fromisoformat_other text
  | Some f =>
      if (if_clock f).1.1.1 =? 24 then fromisoformat_other text
      else
        _ ← throw_if (negb (valid_date (if_date f))) ValueError;
        match clock_value (if_clock f), clock_value (if_offset f) with
        | Some time, Some offset =>
            mret (Some {| dt_wall := days_from_civil (if_date f) * us_per_day + time;
                          dt_offset := if if_negative f then - offset else offset |})
        | _, _ => Raise ValueError
        end
  end.
End Iso.

Example iso_ex : isoformat {| dt_wall := 1709208000123456; dt_offset := -16200000000 |}
  = u "2024-02-29T12:00:00.123456-04:30".
Proof. vm_compute. reflexivity. Qed.
Example iso_ex2 : fromisoformat (fun _ => Raise ValueError) (u "2024-02-29T12:00:00.123456-04:30")
  = Ok (Some {| dt_wall := 1709208000123456; dt_offset := -16200000000 |}).
Proof. vm_compute. reflexivity. Qed.
Example iso_ex3 : map (fun s => is_ok (fromisoformat (fun _ => Raise ValueError) (u s)))
  ["2023-02-29T12:00:00+00:00"; "2024-02-29T12:60:00+00:00"; "0000-01-01T00:00:00+00:00"; "9999-12-31T23:59:59+23:59:59.999999"]%string
  = [false; false; false; true].
Proof. vm_compute. reflexivity. Qed.

(** ** Round trips: digits *)

Lemma be_digits_length base w n : length (be_digits base w n) = w.
Proof. revert n. induction w as [|w IH]; intros n; cbn; [done|]. rewrite length_app, IH. cbn. lia. Qed.

Lemma be_digits_range base w n : 0 < base -> Forall (fun d => 0 <= d < base) (be_digits base w n).
Proof.
  intros Hb. revert n. induction w as [|w IH]; intros n; cbn; [constructor|].
  apply Forall_app. split; [apply IH|]. constructor; [by apply Z.mod_pos_bound|constructor].
Qed.

Lemma be_value_snoc base ds d : be_value base (ds ++ [d]) = be_value base ds * base + d.
Proof. unfold be_value. by rewrite foldl_app. Qed.

Lemma be_value_digits base w n : 0 < base -> 0 <= n < base ^ Z.of_nat w -> be_value base (be_digits base w n) = n.
Proof.
  intros Hb. revert n. induction w as [|w IH]; intros n Hn; [cbn in *; lia|].
  cbn [be_digits]. rewrite be_value_snoc, IH.
  - pose proof (Z.div_mod n base). lia.
  - rewrite Nat2Z.inj_succ, Z.pow_succ_r in Hn by lia. split; [apply Z.div_pos; lia|].
    apply Z.div_lt_upper_bound; lia.
Qed.

Lemma padded_length w n : length (padded w n) = w.
Proof. unfold padded. by rewrite length_fmap, be_digits_length. Qed.

Lemma decimal_padded w n : 0 <= n < 10 ^ Z.of_nat w -> decimal (padded w n) = Some n.
Proof.
  intros Hn. unfold decimal, padded. pose proof (be_digits_range 10 w n ltac:(lia)) as Hd.
  assert (forallb is_digit ((fun d => 48 + d) <$> be_digits 10 w n) = true) as ->.
  { apply Is_true_true, forallb_True, Forall_fmap. eapply Forall_impl; [exact Hd|]. intros d Hr.
    cbn in Hr |- *. unfold is_digit. rewrite Is_true_true, andb_true_iff, !Z.leb_le. lia. }
  f_equal. rewrite <- list_fmap_compose. rewrite <- (be_value_digits 10 w n ltac:(lia) Hn) at 2. f_equal.
  etrans; [|apply list_fmap_id]. apply list_fmap_ext. intros i d _. cbn. unfold compose. lia.
Qed.

Lemma read_number_padded w n s : 0 <= n < 10 ^ Z.of_nat w -> read_number w (padded w n ++ s) = Some (n, s).
Proof.
  intros Hn. unfold read_number. rewrite take_app_length', drop_app_length' by (symmetry; apply padded_length).
  unfold zlen. rewrite padded_length, Z.eqb_refl. cbn. by rewrite decimal_padded.
Qed.

(** ** Round trips: UUIDs *)

Lemma uuid_hex_digits r : 0 <= r -> uuid_hex r = hex_digit <$> be_digits 16 32 r.
Proof.
  intros Hr.
  enough (forall n r, 0 <= r ->
    (fun i => Z.land (Z.shiftr r (4 * (Z.of_nat n - 1 - Z.of_nat i))) 15) <$> seq 0 n = be_digits 16 n r) as Hgen.
  { unfold uuid_hex. rewrite <- (Hgen 32%nat r Hr), <- list_fmap_compose. done. }
  clear r Hr. induction n as [|n IH]; intros r Hr; [done|].
  rewrite seq_S, fmap_app. cbn [be_digits]. f_equal.
  - rewrite <- IH by (by apply Z.div_pos). apply list_fmap_ext. intros i k Hk. apply lookup_seq in Hk as [-> Hk].
    change 15 with (Z.ones 4). rewrite !Z.land_ones by lia. f_equal.
    rewrite !Z.shiftr_div_pow2 by lia. rewrite Z.div_div by (try apply Z.pow_pos_nonneg; lia).
    change 16 with (2 ^ 4). rewrite <- Z.pow_add_r by lia. f_equal. f_equal. lia.
  - cbn. change 15 with (Z.ones 4). rewrite Z.land_ones by lia. do 2 f_equal.
    rewrite Z.shiftr_div_pow2 by lia. replace (4 * _) with 0 by lia. by rewrite Z.div_1_r.
Qed.

Lemma remove_absent c sub s : c ∉ s -> remove (c :: sub) s = s.
Proof.
  unfold remove. induction s as [|c' s IH]; [done|]. rewrite not_elem_of_cons. intros [Hc Hs]. cbn [remove_from].
  unfold starts_with. rewrite bool_decide_false; [by rewrite IH|]. cbn. congruence.
Qed.

Lemma remove_char c s : remove [c] s = filter (fun x => x ≠ c) s.
Proof.
  unfold remove. induction s as [|x s IH]; [done|]. cbn [remove_from]. unfold starts_with.
  rewrite filter_cons. cbn. destruct (decide (x = c)) as [->|Hx].
  - rewrite bool_decide_true, decide_False by (done || auto). exact IH.
  - rewrite bool_decide_false, decide_True by congruence. by rewrite IH.
Qed.

Lemma drop_while_none f s : Forall (fun c => f c = false) s -> drop_while f s = s.
Proof. destruct 1 as [|c s Hc _]; cbn; [done|]. by rewrite Hc. Qed.

Lemma strip_chars_none f s : Forall (fun c => f c = false) s -> strip_chars f s = s.
Proof.
  intros Hs. unfold strip_chars. rewrite (drop_while_none f s) by done.
  rewrite drop_while_none by (by rewrite <- Permutation_rev). apply rev_involutive.
Qed.

Definition is_hex_char (c : Z) : Prop := 48 <= c <= 57 \/ 97 <= c <= 102.

Lemma hex_digit_char d : 0 <= d < 16 -> is_hex_char (hex_digit d) /\ hex_value (hex_digit d) = Some d.
Proof.
  intros Hd. assert (Hall : forallb (fun d => bool_decide (hex_value (hex_digit d) = Some d) &&
    ((48 <=? hex_digit d) && (hex_digit d <=? 57) || (97 <=? hex_digit d) && (hex_digit d <=? 102)))
    (Z.of_nat <$> seq 0 16) = true) by (vm_compute; reflexivity).
  rewrite forallb_forall in Hall. specialize (Hall d). destruct (andb_prop _ _ (Hall ltac:(
    apply list_elem_of_In, list_elem_of_fmap; exists (Z.to_nat d); rewrite elem_of_seq; lia))) as [H1 H2].
  apply bool_decide_eq_true in H1. split; [|done]. unfold is_hex_char.
  apply orb_true_iff in H2 as [[? ?]%andb_true_iff|[? ?]%andb_true_iff]; lia.
Qed.

Lemma uuid_hex_chars r : 0 <= r -> Forall is_hex_char (uuid_hex r) /\ length (uuid_hex r) = 32%nat.
Proof.
  intros Hr. rewrite uuid_hex_digits by done. split; [|by rewrite length_fmap, be_digits_length].
  apply Forall_fmap. eapply Forall_impl; [by apply (be_digits_range 16)|]. intros d Hd. by apply hex_digit_char.
Qed.

Lemma uuid_text_parts r : exists a b c d e, uuid_hex r = a ++ b ++ c ++ d ++ e /\
  uuid_text r = a ++ [45] ++ b ++ [45] ++ c ++ [45] ++ d ++ [45] ++ e.
Proof.
  set (h := uuid_hex r). exists (take 8 h), (take 4 (drop 8 h)), (take 4 (drop 12 h)), (take 4 (drop 16 h)), (drop 20 h).
  by split.
Qed.

Lemma hex_digits_uuid r : 0 <= r -> hex_digits (uuid_hex r) = Some (be_digits 16 32 r).
Proof.
  intros Hr. rewrite uuid_hex_digits by done. unfold hex_digits. apply mapM_Some.
  apply Forall2_fmap_l. pose proof (be_digits_range 16 32 r ltac:(lia)) as Hd.
  induction Hd as [|d ds Hd Hds IH]; constructor; [by apply hex_digit_char|exact IH].
Qed.

Lemma uuid_round_trip other r : 0 <= r < 2 ^ 128 -> uuid_of_text other (uuid_text r) = Ok r.
Proof.
  intros Hr. destruct (uuid_hex_chars r ltac:(lia)) as [Hc Hl].
  destruct (uuid_text_parts r) as (a&b&c&d&e&Hh&Ht). rewrite Hh, !Forall_app in Hc. destruct Hc as (Ha&Hb&Hcc&Hd&He).
  assert (Hall : Forall (fun x => is_hex_char x \/ x = 45) (uuid_text r)).
  { rewrite Ht, !Forall_app, !Forall_singleton. split_and!; auto; (eapply Forall_impl; [eassumption|]; intros x; by left). }
  assert (Hu : 117 ∉ uuid_text r).
  { intros Hin. rewrite Forall_forall in Hall. destruct (Hall _ Hin) as [Hx|Hx]; unfold is_hex_char in *; lia. }
  unfold uuid_of_text. change (u "urn:") with (117 :: u "rn:"). change (u "uuid:") with (117 :: u "uid:").
  rewrite !(remove_absent 117 _ (uuid_text r)) by done. rewrite strip_chars_none.
  2: { eapply Forall_impl; [exact Hall|]. intros x Hx. unfold is_brace, is_hex_char in *.
       apply orb_false_iff. rewrite !Z.eqb_neq. lia. }
  assert (remove [45] (uuid_text r) = uuid_hex r) as ->.
  { rewrite remove_char, Ht, Hh. rewrite !filter_app.
    assert (Hf : forall l, Forall is_hex_char l -> filter (fun x => x ≠ 45) l = l).
    { intros l Hf. induction Hf as [|x l Hx _ IH]; [done|]. rewrite filter_cons, decide_True; [by rewrite IH|].
      unfold is_hex_char in Hx. lia. }
    rewrite (Hf a Ha), (Hf b Hb), (Hf c Hcc), (Hf d Hd), (Hf e He). reflexivity. }
  unfold zlen. rewrite Hl. cbn [throw_if negb mbind result_bind]. change (Z.of_nat 32 =? 32) with true. cbn [negb].
  rewrite hex_digits_uuid, be_value_digits by (try lia; by rewrite <- (Z.pow_mul_r 2 4) by lia).
  cbn [mbind result_bind throw_if]. by rewrite (proj2 (Z.leb_le 0 r)), (proj2 (Z.ltb_lt r _)) by lia.
Qed.

(** ** Round trips: dates *)

Lemma year_of_era_bound doe : 0 <= doe < 146097 -> 0 <= year_of_era doe <= 399.
Proof. unfold year_of_era. intros. Z.div_mod_to_equations; lia. Qed.

Lemma day_of_year_bound doe : 0 <= doe < 146097 -> 0 <= day_of_year doe <= 365.
Proof. intros H. pose proof (year_of_era_bound _ H). unfold day_of_year, year_of_era in *. Z.div_mod_to_equations; lia. Qed.

(** The month and the day of the day [doy] of a year that begins in March. *)
Lemma month_day doy : 0 <= doy <= 365 ->
  0 <= month_index doy <= 11 /\ 1 <= doy - (153 * month_index doy + 2) / 5 + 1 <= 31.
Proof. unfold month_index. intros Hd. Z.div_mod_to_equations; lia. Qed.

Lemma month_of_index mp : 0 <= mp <= 11 ->
  1 <= month_of mp <= 12 /\ (if 2 <? month_of mp then month_of mp - 3 else month_of mp + 9) = mp.
Proof.
  unfold month_of. intros Hm. destruct (Z.ltb_spec mp 10); [destruct (Z.ltb_spec 2 (mp + 3))|destruct (Z.ltb_spec 2 (mp - 9))]; lia.
Qed.

Lemma civil_round_trip z : days_from_civil (civil_from_days z) = z.
Proof.
  unfold civil_from_days. set (era := (z + 719468) / 146097). set (doe := (z + 719468) mod 146097).
  assert (Hz : z + 719468 = 146097 * era + doe) by (apply Z.div_mod; lia).
  assert (Hdoe : 0 <= doe < 146097) by (apply Z.mod_pos_bound; lia).
  pose proof (year_of_era_bound doe Hdoe) as Hy. destruct (month_day (day_of_year doe) (day_of_year_bound doe Hdoe)) as [Hm _].
  destruct (month_of_index _ Hm) as [_ Hmp]. set (m := month_of (month_index (day_of_year doe))) in *.
  unfold days_from_civil. rewrite Hmp.
  assert ((if m <=? 2 then year_of_era doe + era * 400 + (if m <=? 2 then 1 else 0) - 1
           else year_of_era doe + era * 400 + (if m <=? 2 then 1 else 0)) = year_of_era doe + era * 400) as ->.
  { destruct (m <=? 2); lia. }
  rewrite Z.div_add, Z.mod_add, (Z.div_small (year_of_era doe)), (Z.mod_small (year_of_era doe)) by lia.
  pose proof (eq_refl : day_of_year doe =
    doe - (365 * year_of_era doe + year_of_era doe / 4 - year_of_era doe / 100)) as Hdoy.
  set (first := (153 * month_index (day_of_year doe) + 2) / 5). lia.
Qed.

Lemma civil_fields z : let '(_, m, d) := civil_from_days z in 1 <= m <= 12 /\ 1 <= d <= 31.
Proof.
  unfold civil_from_days. destruct (month_day _ (day_of_year_bound ((z + 719468) mod 146097) ltac:(apply Z.mod_pos_bound; lia))) as [Hm Hd].
  by destruct (month_of_index _ Hm).
Qed.

(** ** Round trips: datetimes *)

(** What a [datetime] can hold: a year from 1 to 9999 and an offset of less
    than a day. *)
Definition valid_datetime (d : datetime) : bool :=
  let y := (civil_from_days (dt_wall d / us_per_day)).1.1 in
  (1 <=? y) && (y <=? 9999) && (Z.abs (dt_offset d) <? us_per_day).

Lemma read_char_cons c s : read_char c (c :: s) = Some s.
Proof. cbn. by rewrite Z.eqb_refl. Qed.

Lemma read_fraction_text us s :
  (forall s', s ≠ 46 :: s') -> read_fraction (fraction_text us ++ s) = Some (us mod 1000000, s).
Proof.
  intros Hs. unfold fraction_text, read_fraction. destruct (Z.eqb_spec (us mod 1000000) 0) as [->|Hus]; cbn [app].
  - destruct s as [|c s]; [done|]. cbn. destruct (Z.eqb_spec c 46) as [->|]; [by destruct (Hs s)|done].
  - rewrite read_char_cons. apply read_number_padded. cbn. pose proof (Z.mod_pos_bound us 1000000). lia.
Qed.

(** The fields of a span below a day, and their value. *)
Lemma clock_fields us : 0 <= us < us_per_day ->
  0 <= us / 3600000000 < 24 /\ 0 <= us / 60000000 mod 60 < 60 /\ 0 <= us / 1000000 mod 60 < 60 /\
  ((us / 3600000000 * 60 + us / 60000000 mod 60) * 60 + us / 1000000 mod 60) * 1000000 + us mod 1000000 = us.
Proof. unfold us_per_day. intros. Z.div_mod_to_equations; lia. Qed.

Lemma clock_value_fields us : 0 <= us < us_per_day ->
  clock_value (us / 3600000000, us / 60000000 mod 60, us / 1000000 mod 60, us mod 1000000) = Some us.
Proof.
  intros Hus. destruct (clock_fields us Hus) as (H1&H2&H3&H4). unfold clock_value.
  rewrite (proj2 (Z.ltb_lt _ 24)), !(proj2 (Z.ltb_lt _ 60)) by lia. cbn [andb]. by rewrite H4.
Qed.

Lemma read_clock_text us s : 0 <= us < us_per_day -> (forall s', s ≠ 46 :: s') ->
  read_clock (clock_text us ++ fraction_text us ++ s) =
  Some (us / 3600000000, us / 60000000 mod 60, us / 1000000 mod 60, us mod 1000000, s).
Proof.
  intros Hus Hs. destruct (clock_fields us Hus) as (H1&H2&H3&_). unfold read_clock, clock_text.
  rewrite <- !(assoc_L (++)). rewrite read_number_padded by (cbn; lia). cbn [mbind option_bind app].
  rewrite read_char_cons. cbn [mbind option_bind]. rewrite read_number_padded by (cbn; lia). cbn [mbind option_bind].
  rewrite read_char_cons. cbn [mbind option_bind]. rewrite read_number_padded by (cbn; lia). cbn [mbind option_bind].
  by rewrite read_fraction_text.
Qed.

Lemma read_offset_text o : Z.abs o < us_per_day ->
  read_offset (offset_text o) = Some (o <? 0,
    (Z.abs o / 3600000000, Z.abs o / 60000000 mod 60,
     Z.abs o / 1000000 mod 60, Z.abs o mod 1000000)).
Proof.
  intros Ho. set (a := Z.abs o). assert (Ha : 0 <= a < us_per_day) by (unfold a; lia).
  destruct (clock_fields a Ha) as (H1&H2&H3&_). unfold read_offset, offset_text. fold a. cbn [app].
  rewrite bool_decide_true by (destruct (o <? 0); rewrite !elem_of_cons; auto).
  assert (((if o <? 0 then 45 else 43) =? 45) = (o <? 0)) as Hsign by by destruct (o <? 0).
  rewrite read_number_padded by (cbn; lia). cbn [mbind option_bind]. rewrite read_char_cons. cbn [mbind option_bind].
  destruct (Z.eqb_spec (a mod 60000000) 0) as [Hz|Hz].
  - rewrite read_number_padded by (cbn; lia). cbn [mbind option_bind]. rewrite Hsign.
    assert (a / 1000000 mod 60 = 0 /\ a mod 1000000 = 0) as [-> ->] by (Z.div_mod_to_equations; lia). done.
  - rewrite read_number_padded by (cbn; lia). cbn [mbind option_bind app]. rewrite read_char_cons. cbn [mbind option_bind].
    rewrite read_number_padded by (cbn; lia). cbn [mbind option_bind].
    rewrite <- (app_nil_r (fraction_text a)), read_fraction_text by done. cbn [mbind option_bind]. by rewrite Hsign.
Qed.

Lemma iso_round_trip other d : valid_datetime d = true -> fromisoformat other (isoformat d) = Ok (Some d).
Proof.
  unfold valid_datetime, fromisoformat, isoformat, read_iso. intros Hv. btauto_hyps.
  pose proof (civil_round_trip (dt_wall d / us_per_day)) as Hrt. pose proof (civil_fields (dt_wall d / us_per_day)) as Hf.
  destruct (civil_from_days (dt_wall d / us_per_day)) as [[y m] day] eqn:Hc. cbn [fst snd] in *.
  set (us := dt_wall d mod us_per_day). assert (Hus : 0 <= us < us_per_day) by (by apply Z.mod_pos_bound).
  rewrite read_number_padded by (cbn; lia). cbn [mbind option_bind app]. rewrite read_char_cons. cbn [mbind option_bind].
  rewrite read_number_padded by (cbn; lia). cbn [mbind option_bind app]. rewrite read_char_cons. cbn [mbind option_bind].
  rewrite read_number_padded by (cbn; lia). cbn [mbind option_bind app]. rewrite read_char_cons. cbn [mbind option_bind].
  rewrite read_clock_text; [|done|unfold offset_text; cbn; by destruct (_ <? _)]. cbn [mbind option_bind].
  rewrite read_offset_text by done. cbn [mbind option_bind if_clock if_date if_offset if_negative fst snd].
  destruct (clock_fields us Hus) as (H24&_). rewrite (proj2 (Z.eqb_neq _ 24)) by lia.
  unfold valid_date. rewrite Hrt, Hc, bool_decide_true by done. cbn [fst snd].
  rewrite (proj2 (Z.leb_le 1 y)), (proj2 (Z.leb_le y 9999)) by done. cbn [andb negb throw_if mbind result_bind].
  rewrite !clock_value_fields by lia. cbn. f_equal. f_equal. destruct d as [wall offset]. cbn in *. f_equal.
  - pose proof (Z.div_mod wall us_per_day ltac:(done)). unfold us. lia.
  - destruct (Z.ltb_spec offset 0); lia.
Qed.
