(* ===== verification/Codec.v ===== *)
(** * Codec: the envelope's blob format.

    Models [storage/codec.py] and the constructors of [domain/crypto.py] it
    calls: a fixed prefix, a canonical JSON header, and the four binary parts.
    [CodecFacts] shows that it is an [EnvelopeCodec]. *)

From S2P Require Import Prelude PyStr Utf8 Json Storage PyData.

Definition MAGIC : pybytes := u "LRBLOB01".
Definition FORMAT_VERSION : Z := 1.
Definition MAX_HEADER_BYTES : Z := 64 * 1024.
Definition MAX_BINARY_PART : Z := 512 * 1024 * 1024.

(** [_HEADER_PREFIX] is [>8sHI] and [_LENGTHS] is [>IIQI]. *)
Definition PREFIX_SIZE : nat := 14.
Definition LENGTHS_SIZE : nat := 20.

Definition REQUIRED_KEYS : list pystr :=
  [u "record_id"; u "generation"; u "configuration_revision"; u "schema_version"; u "algorithm";
   u "key_id"; u "key_provider_id"; u "key_version"; u "plaintext_frame_sizes"; u "created_at"].

(** ** [domain/crypto.py] *)

Definition make_key_handle (k : KeyHandle) : result KeyHandle :=
  _ ← require_nonempty (key_id k);
  _ ← require_nonempty (key_provider_id k);
  _ ← throw_if (key_version k <=? 0) ValueError;
  mret k.

Definition require_nonempty_bytes (b : pybytes) : result unit := throw_if (bool_decide (b = [])) ValueError.

Definition make_envelope (e : EncryptedRecordEnvelope) : result EncryptedRecordEnvelope :=
  _ ← require_nonempty (env_configuration_revision e);
  _ ← throw_if (env_schema_version e <=? 0) ValueError;
  _ ← require_nonempty (env_algorithm e);
  _ ← throw_if (bool_decide (env_plaintext_frame_sizes e = []) ||
                existsb (fun n => n <=? 0) (env_plaintext_frame_sizes e)) ValueError;
  _ ← require_nonempty_bytes (env_wrapped_data_key e);
  _ ← require_nonempty_bytes (env_nonce e);
  _ ← require_nonempty_bytes (env_ciphertext e);
  _ ← require_nonempty_bytes (env_associated_data_digest e);
  mret e.

(** ** Encoding *)

Definition validate_uuid (r : uuid) : result unit :=
  throw_if (negb (uuid_is_v4 r)) (StorageFailure INVALID_RECORD_ID).

Definition header_of (e : EncryptedRecordEnvelope) : list (pystr * json) :=
  [(u "record_id", JStr (uuid_text (env_record_id e)));
   (u "generation", JInt (env_generation e));
   (u "configuration_revision", JStr (env_configuration_revision e));
   (u "schema_version", JInt (env_schema_version e));
   (u "algorithm", JStr (env_algorithm e));
   (u "key_id", JStr (key_id (env_key e)));
   (u "key_provider_id", JStr (key_provider_id (env_key e)));
   (u "key_version", JInt (key_version (env_key e)));
   (u "plaintext_frame_sizes", JList (JInt <$> env_plaintext_frame_sizes e));
   (u "created_at", JStr (isoformat (env_created_at e)))].

Definition parts_of (e : EncryptedRecordEnvelope) : list pybytes :=
  [env_wrapped_data_key e; env_nonce e; env_ciphertext e; env_associated_data_digest e].

Definition pack_lengths (lengths : list Z) : pybytes :=
  mjoin (zip_with (fun w n => be_digits 256 w n) [4; 4; 8; 4]%nat lengths).

(** The prefix, the lengths, the header and the parts. *)
Definition blob_of (e : EncryptedRecordEnvelope) (header : pybytes) : pybytes :=
  MAGIC ++ be_digits 256 2 FORMAT_VERSION ++ be_digits 256 4 (zlen header) ++
  pack_lengths (zlen <$> parts_of e) ++ header ++ mjoin (parts_of e).

Definition encode_blob (e : EncryptedRecordEnvelope) : result pybytes :=
  _ ← validate_uuid (env_record_id e);
  text ← dumps (JDict (header_of e));
  header ← utf8_encode text;
  _ ← throw_if (MAX_HEADER_BYTES <? zlen header) (StorageFailure BLOB_TOO_LARGE);
  _ ← throw_if (existsb (fun p => bool_decide (p = []) || (MAX_BINARY_PART <? zlen p)) (parts_of e))
        (StorageFailure BLOB_TOO_LARGE);
  mret (blob_of e header).

(** ** Decoding *)

(** [data[first : first + n]] *)
Definition slice (first n : nat) (data : pybytes) : pybytes := take n (drop first data).

(** [d[key]], [type(v) is int], [isinstance(v, str) and v] *)
Definition field (d : list (pystr * json)) (key : pystr) : result json :=
  match dict_get d key with Some j => Ok j | None => Raise KeyError end.
Definition exact_int (j : json) : result Z :=
  match j with JInt n => Ok n | _ => Raise ValueError end.
Definition nonempty_string (j : json) : result pystr :=
  match j with JStr (c :: s) => Ok (c :: s) | _ => Raise ValueError end.

Record header_fields := {
  hf_record_id : uuid; hf_generation : Z; hf_schema_version : Z; hf_key_version : Z;
  hf_sizes : list Z; hf_created_at : datetime;
  hf_configuration_revision : pystr; hf_algorithm : pystr; hf_key_id : pystr; hf_key_provider_id : pystr }.

Section Decode.
Variable int16_other : pystr -> result Z.
Variable fromisoformat_other : pystr -> result (option datetime).

(** [UUID(value)]: [None] is a [TypeError]; what is no string has no method
    [replace]. *)
Definition uuid_of_json (j : json) : result uuid :=
  match j with
  | JStr s => uuid_of_text int16_other s
  | JNull => Raise TypeError
  | _ => Raise AttributeError
  end.
Definition datetime_of_json (j : json) : result (option datetime) :=
  match j with JStr s => fromisoformat fromisoformat_other s | _ => Raise TypeError end.

(** The body of the [try], from the dictionary on, and as a whole. *)
Definition header_from (raw : list (pystr * json)) : result header_fields :=
  _ ← throw_if (negb (has_keys raw REQUIRED_KEYS)) ValueError;
  record_id ← (j ← field raw (u "record_id"); uuid_of_json j);
  _ ← validate_uuid record_id;
  generation ← (j ← field raw (u "generation"); exact_int j);
  schema_version ← (j ← field raw (u "schema_version"); exact_int j);
  key_version ← (j ← field raw (u "key_version"); exact_int j);
  sizes_object ← field raw (u "plaintext_frame_sizes");
  sizes ← match sizes_object with JList l => map_ok exact_int l | _ => Raise ValueError end;
  created ← (j ← field raw (u "created_at"); datetime_of_json j);
  _ ← throw_if ((generation <=? 0) || (schema_version <=? 0) || (key_version <=? 0)) ValueError;
  match created with
  | None => Raise ValueError
  | Some created_at =>
      _ ← throw_if (bool_decide (sizes = []) || existsb (fun n => n <=? 0) sizes) ValueError;
      revision ← (j ← field raw (u "configuration_revision"); nonempty_string j);
      algorithm ← (j ← field raw (u "algorithm"); nonempty_string j);
      id ← (j ← field raw (u "key_id"); nonempty_string j);
      provider ← (j ← field raw (u "key_provider_id"); nonempty_string j);
      mret {| hf_record_id := record_id; hf_generation := generation; hf_schema_version := schema_version;
              hf_key_version := key_version; hf_sizes := sizes; hf_created_at := created_at;
              hf_configuration_revision := revision; hf_algorithm := algorithm;
              hf_key_id := id; hf_key_provider_id := provider |}
  end.

Definition parse_header (bytes : pybytes) : result header_fields :=
  text ← utf8_decode bytes;
  decoded ← loads_dict text;
  match decoded with JDict raw => header_from raw | _ => Raise ValueError end.

(** The [except]: these become a corruption, other exceptions pass. *)
Definition as_corruption {A} (r : result A) : result A :=
  match r with
  | Raise ValueError | Raise TypeError | Raise KeyError => Raise (StorageFailure CORRUPTION)
  | _ => r
  end.

(** The four parts from [cursor] on. *)
Fixpoint split_parts (data : pybytes) (cursor : nat) (lengths : list Z) : list pybytes :=
  match lengths with
  | [] => []
  | n :: lengths' => slice cursor (Z.to_nat n) data :: split_parts data (cursor + Z.to_nat n) lengths'
  end.

Definition unpack_lengths (b : pybytes) : list Z :=
  [be_value 256 (slice 0 4 b); be_value 256 (slice 4 4 b); be_value 256 (slice 8 8 b); be_value 256 (slice 16 4 b)].

Definition decode_blob (data : pybytes) (max_blob_bytes : Z) : result EncryptedRecordEnvelope :=
  _ ← throw_if (bool_decide (data = []) || (max_blob_bytes <? zlen data) ||
                (zlen data <? Z.of_nat (PREFIX_SIZE + LENGTHS_SIZE))) (StorageFailure CORRUPTION);
  let header_len := be_value 256 (slice 10 4 data) in
  _ ← throw_if (negb (bool_decide (slice 0 8 data = MAGIC)) ||
                negb (be_value 256 (slice 8 2 data) =? FORMAT_VERSION) ||
                negb ((1 <=? header_len) && (header_len <=? MAX_HEADER_BYTES))) (StorageFailure CORRUPTION);
  let lengths := unpack_lengths (slice PREFIX_SIZE LENGTHS_SIZE data) in
  _ ← throw_if (existsb (fun n => (n <=? 0) || (MAX_BINARY_PART <? n)) lengths) (StorageFailure CORRUPTION);
  let offset := (PREFIX_SIZE + LENGTHS_SIZE)%nat in
  _ ← throw_if (negb (Z.of_nat offset + header_len + sum_by (fun n => n) lengths =? zlen data))
        (StorageFailure CORRUPTION);
  f ← as_corruption (parse_header (slice offset (Z.to_nat header_len) data));
  match split_parts data (offset + Z.to_nat header_len) lengths with
  | [wrapped; nonce; ciphertext; digest] =>
      key ← make_key_handle {| key_id := hf_key_id f; key_provider_id := hf_key_provider_id f;
                               key_version := hf_key_version f |};
      make_envelope
        {| env_record_id := hf_record_id f; env_generation := hf_generation f;
           env_configuration_revision := hf_configuration_revision f;
           env_schema_version := hf_schema_version f; env_algorithm := hf_algorithm f; env_key := key;
           env_plaintext_frame_sizes := hf_sizes f; env_wrapped_data_key := wrapped; env_nonce := nonce;
           env_ciphertext := ciphertext; env_associated_data_digest := digest;
           env_created_at := hf_created_at f |}
  | _ => Raise ValueError
  end.
End Decode.

(** The envelopes the program constructs: the checks of the constructors, a
    date a [datetime] can hold, and text without surrogates. *)
Definition constructible (e : EncryptedRecordEnvelope) : bool :=
  is_ok (make_envelope e) && is_ok (make_key_handle (env_key e)) && (1 <=? env_generation e) &&
  valid_datetime (env_created_at e) &&
  forallb (fun s => forallb is_scalar s)
    [env_configuration_revision e; env_algorithm e; key_id (env_key e); key_provider_id (env_key e)].
