(* ===== verification/CodecFacts.v ===== *)
(** * CodecFacts: the blob format keeps its promises to the storage.

    Decoding inverts encoding on every envelope the program can construct;
    [blob_codec] is the storage's [EnvelopeCodec]. *)

From stdpp Require Import sorting.
From S2P Require Import Prelude PyStr Utf8 Json JsonFacts Storage PyData Codec.

(** ** The header *)

(** The header in the order of its keys. *)
Definition sorted_header (e : EncryptedRecordEnvelope) : list (pystr * json) :=
  [(u "algorithm", JStr (env_algorithm e));
   (u "configuration_revision", JStr (env_configuration_revision e));
   (u "created_at", JStr (isoformat (env_created_at e)));
   (u "generation", JInt (env_generation e));
   (u "key_id", JStr (key_id (env_key e)));
   (u "key_provider_id", JStr (key_provider_id (env_key e)));
   (u "key_version", JInt (key_version (env_key e)));
   (u "plaintext_frame_sizes", JList (JInt <$> env_plaintext_frame_sizes e));
   (u "record_id", JStr (uuid_text (env_record_id e)));
   (u "schema_version", JInt (env_schema_version e))].

Lemma header_lookups a b c d e f g h i j :
  let l := [(u "algorithm", a); (u "configuration_revision", b); (u "created_at", c); (u "generation", d);
    (u "key_id", e); (u "key_provider_id", f); (u "key_version", g); (u "plaintext_frame_sizes", h);
    (u "record_id", i); (u "schema_version", j)] in
  has_keys l REQUIRED_KEYS = true /\
  field l (u "algorithm") = Ok a /\ field l (u "configuration_revision") = Ok b /\
  field l (u "created_at") = Ok c /\ field l (u "generation") = Ok d /\ field l (u "key_id") = Ok e /\
  field l (u "key_provider_id") = Ok f /\ field l (u "key_version") = Ok g /\
  field l (u "plaintext_frame_sizes") = Ok h /\ field l (u "record_id") = Ok i /\
  field l (u "schema_version") = Ok j.
Proof. vm_compute. repeat split. Qed.

Lemma header_sorted e : header_of e ≡ₚ sorted_header e.
Proof.
  unfold header_of, sorted_header.
  generalize (u "record_id", JStr (uuid_text (env_record_id e))) as a,
    (u "generation", JInt (env_generation e)) as b,
    (u "configuration_revision", JStr (env_configuration_revision e)) as c,
    (u "schema_version", JInt (env_schema_version e)) as d,
    (u "algorithm", JStr (env_algorithm e)) as f,
    (u "key_id", JStr (key_id (env_key e))) as g,
    (u "key_provider_id", JStr (key_provider_id (env_key e))) as h,
    (u "key_version", JInt (key_version (env_key e))) as i,
    (u "plaintext_frame_sizes", JList (JInt <$> env_plaintext_frame_sizes e)) as j,
    (u "created_at", JStr (isoformat (env_created_at e))) as k.
  intros. solve_Permutation.
Qed.

Lemma ascii_scalar s : Forall (fun c => 0 <= c < 128) s -> forallb is_scalar s = true.
Proof.
  intros Hs. apply Is_true_true, forallb_True. eapply Forall_impl; [exact Hs|]. intros c Hc. cbn in Hc.
  apply Is_true_true. unfold is_scalar, is_surrogate.
  rewrite (proj2 (Z.leb_le 0 c)), (proj2 (Z.leb_le c 1114111)), (proj2 (Z.leb_gt 55296 c)) by lia. done.
Qed.

Lemma padded_ascii w n : Forall (fun c => 0 <= c < 128) (padded w n).
Proof.
  unfold padded. apply Forall_fmap. eapply Forall_impl; [by apply (be_digits_range 10)|].
  intros d Hd. cbn in *. lia.
Qed.

Lemma isoformat_ascii d : Forall (fun c => 0 <= c < 128) (isoformat d).
Proof.
  unfold isoformat, clock_text, offset_text, fraction_text. destruct (civil_from_days _) as [[y m] day].
  repeat first [ apply Forall_app; split | apply padded_ascii | exact (Forall_nil_2 _) | apply Forall_cons; split; [lia|]
               | apply Forall_nil; exact I | case_goal ].
Qed.

Lemma uuid_text_ascii r : 0 <= r -> Forall (fun c => 0 <= c < 128) (uuid_text r).
Proof.
  intros Hr. destruct (uuid_hex_chars r Hr) as [Hc _]. destruct (uuid_text_parts r) as (a&b&c&d&e&Hh&->).
  rewrite Hh in Hc. assert (Forall (fun c => 0 <= c < 128) (a ++ b ++ c ++ d ++ e)) as Hall.
  { eapply Forall_impl; [exact Hc|]. unfold is_hex_char. intros x Hx. lia. }
  rewrite !Forall_app in Hall. rewrite !Forall_app, !Forall_singleton.
  destruct Hall as (?&?&?&?&?). split_and!; done || lia.
Qed.

Lemma header_printable e :
  constructible e = true -> 0 <= env_record_id e -> printable (JDict (sorted_header e)) = true.
Proof.
  unfold constructible. cbn [forallb]. intros Hc Hr. btauto_hyps.
  unfold sorted_header. cbn [printable forallb fst snd].
  repeat match goal with H : forallb is_scalar _ = true |- _ => rewrite H; clear H end.
  rewrite (ascii_scalar _ (isoformat_ascii _)), (ascii_scalar _ (uuid_text_ascii _ Hr)).
  assert (forallb printable (JInt <$> env_plaintext_frame_sizes e) = true) as ->.
  { induction (env_plaintext_frame_sizes e); [done|by cbn]. }
  vm_compute. reflexivity.
Qed.

(** ** Slices *)

Lemma slice_app (pre x rest : pybytes) : slice (length pre) (length x) (pre ++ x ++ rest) = x.
Proof. unfold slice. by rewrite drop_app_length, take_app_length. Qed.

Lemma zlen_nat {A} (l : list A) : Z.to_nat (zlen l) = length l.
Proof. unfold zlen. lia. Qed.

Lemma split_parts_ok pre ps : split_parts (pre ++ mjoin ps) (length pre) (zlen <$> ps) = ps.
Proof.
  revert pre. induction ps as [|p ps IH]; intros pre; cbn; [done|]. rewrite zlen_nat. f_equal.
  - apply slice_app.
  - rewrite (assoc_L (++)). rewrite <- length_app. apply IH.
Qed.

Lemma zlen_mjoin (ps : list pybytes) : zlen (mjoin ps) = sum_by (fun n => n) (zlen <$> ps).
Proof.
  induction ps as [|p ps IH]; [done|]. change (mjoin (p :: ps)) with (p ++ mjoin ps).
  by rewrite zlen_app, IH, fmap_cons, sum_by_cons.
Qed.

Lemma unpack_pack a b c d :
  0 <= a < 2 ^ 32 -> 0 <= b < 2 ^ 32 -> 0 <= c < 2 ^ 64 -> 0 <= d < 2 ^ 32 ->
  unpack_lengths (pack_lengths [a; b; c; d]) = [a; b; c; d].
Proof.
  intros Ha Hb Hc Hd.
  transitivity [be_value 256 (be_digits 256 4 a); be_value 256 (be_digits 256 4 b);
                be_value 256 (be_digits 256 8 c); be_value 256 (be_digits 256 4 d)]; [reflexivity|].
  change (2 ^ 32) with (256 ^ Z.of_nat 4) in *. change (2 ^ 64) with (256 ^ Z.of_nat 8) in *.
  by rewrite !be_value_digits.
Qed.

(** ** The round trip *)

Section Codec.
Variable int16_other : pystr -> result Z.
Variable fromisoformat_other : pystr -> result (option datetime).

Lemma exact_int_ok n : exact_int (JInt n) = Ok n.
Proof. done. Qed.
Lemma uuid_of_json_text s : uuid_of_json int16_other (JStr s) = uuid_of_text int16_other s.
Proof. done. Qed.
Lemma datetime_of_json_text s :
  datetime_of_json fromisoformat_other (JStr s) = fromisoformat fromisoformat_other s.
Proof. done. Qed.

Lemma map_exact_int l : map_ok exact_int (JInt <$> l) = Ok l.
Proof. induction l as [|n l IH]; cbn; [done|]. cbn in IH. by rewrite IH. Qed.

Definition fields_of (e : EncryptedRecordEnvelope) : header_fields :=
  {| hf_record_id := env_record_id e; hf_generation := env_generation e;
     hf_schema_version := env_schema_version e; hf_key_version := key_version (env_key e);
     hf_sizes := env_plaintext_frame_sizes e; hf_created_at := env_created_at e;
     hf_configuration_revision := env_configuration_revision e; hf_algorithm := env_algorithm e;
     hf_key_id := key_id (env_key e); hf_key_provider_id := key_provider_id (env_key e) |}.

Lemma nonempty_string_ok s : require_nonempty s = Ok tt -> nonempty_string (JStr s) = Ok s.
Proof. unfold require_nonempty. rewrite throw_if_ok. by destruct s. Qed.

Lemma is_ok_true {A} (r : result A) : is_ok r = true -> exists a, r = Ok a.
Proof. destruct r; [by eexists|done]. Qed.

(** What the constructors have checked. *)
Record checked (e : EncryptedRecordEnvelope) : Prop := {
  ch_envelope : make_envelope e = Ok e;
  ch_key : make_key_handle (env_key e) = Ok (env_key e);
  ch_generation : 0 < env_generation e;
  ch_schema : 0 < env_schema_version e;
  ch_version : 0 < key_version (env_key e);
  ch_sizes : bool_decide (env_plaintext_frame_sizes e = []) ||
             existsb (fun n => n <=? 0) (env_plaintext_frame_sizes e) = false;
  ch_date : valid_datetime (env_created_at e) = true;
  ch_strings : Forall (fun s => nonempty_string (JStr s) = Ok s)
    [env_configuration_revision e; env_algorithm e; key_id (env_key e); key_provider_id (env_key e)] }.

Lemma make_envelope_ok e e' : make_envelope e = Ok e' ->
  e' = e /\ 0 < env_schema_version e /\
  bool_decide (env_plaintext_frame_sizes e = []) || existsb (fun n => n <=? 0) (env_plaintext_frame_sizes e) = false /\
  nonempty_string (JStr (env_configuration_revision e)) = Ok (env_configuration_revision e) /\
  nonempty_string (JStr (env_algorithm e)) = Ok (env_algorithm e).
Proof.
  unfold make_envelope. intros H. ok_steps. repeat match goal with x : unit |- _ => destruct x end.
  split_and!; auto using nonempty_string_ok. by apply Z.leb_gt.
Qed.

Lemma make_key_handle_ok k k' : make_key_handle k = Ok k' ->
  k' = k /\ 0 < key_version k /\
  nonempty_string (JStr (key_id k)) = Ok (key_id k) /\ nonempty_string (JStr (key_provider_id k)) = Ok (key_provider_id k).
Proof.
  unfold make_key_handle. intros H. ok_steps. repeat match goal with x : unit |- _ => destruct x end.
  split_and!; auto using nonempty_string_ok. by apply Z.leb_gt.
Qed.

Lemma constructible_checked e : constructible e = true -> checked e.
Proof.
  unfold constructible. intros Hc. btauto_hyps.
  repeat match goal with H : is_ok _ = true |- _ => apply is_ok_true in H as [? H] end.
  match goal with H : make_envelope _ = _ |- _ => pose proof H as He; apply make_envelope_ok in H as (->&?&?&?&?) end.
  match goal with H : make_key_handle _ = _ |- _ => pose proof H as Hk; apply make_key_handle_ok in H as (->&?&?&?) end.
  split; try done; try lia. by repeat constructor.
Qed.

Lemma header_from_ok e raw :
  checked e -> uuid_is_v4 (env_record_id e) = true -> has_keys raw REQUIRED_KEYS = true ->
  Forall (fun kv => field raw kv.1 = Ok kv.2) (sorted_header e) ->
  header_from int16_other fromisoformat_other raw = Ok (fields_of e).
Proof.
  intros [_ _ Hg Hs Hk Hn Hd Hstr] Hv Hkeys Hf.
  assert (Hr : 0 <= env_record_id e < 2 ^ 128) by (unfold uuid_is_v4 in Hv; btauto_hyps; lia).
  unfold sorted_header in Hf. rewrite !Forall_cons in Hf. cbn [fst snd] in Hf.
  destruct Hf as (F1&F2&F3&F4&F5&F6&F7&F8&F9&F10&_).
  rewrite !Forall_cons in Hstr. destruct Hstr as (S1&S2&S3&S4&_).
  unfold header_from, validate_uuid. rewrite Hkeys, throw_if_false, result_bind_ret.
  rewrite F9, result_bind_ret, uuid_of_json_text, uuid_round_trip, result_bind_ret by exact Hr.
  rewrite Hv, throw_if_false, result_bind_ret.
  rewrite F4, result_bind_ret, exact_int_ok, result_bind_ret, F10, result_bind_ret, exact_int_ok, result_bind_ret.
  rewrite F7, result_bind_ret, exact_int_ok, result_bind_ret, F8, result_bind_ret.
  rewrite map_exact_int, result_bind_ret, F3, result_bind_ret. rewrite datetime_of_json_text.
  rewrite iso_round_trip, result_bind_ret by exact Hd.
  rewrite (proj2 (Z.leb_gt (env_generation e) 0)), (proj2 (Z.leb_gt (env_schema_version e) 0)),
    (proj2 (Z.leb_gt (key_version (env_key e)) 0)) by assumption.
  cbn [orb]. rewrite throw_if_false, result_bind_ret. cbn iota.
  rewrite Hn, throw_if_false, result_bind_ret.
  rewrite F2, result_bind_ret, S1, result_bind_ret, F1, result_bind_ret, S2, result_bind_ret.
  rewrite F5, result_bind_ret, S3, result_bind_ret, F6, result_bind_ret, S4, result_bind_ret. reflexivity.
Qed.

Lemma parse_header_ok e text bytes :
  constructible e = true -> uuid_is_v4 (env_record_id e) = true ->
  dumps (JDict (header_of e)) = Ok text -> utf8_encode text = Ok bytes ->
  parse_header int16_other fromisoformat_other bytes = Ok (fields_of e).
Proof.
  intros Hc Hv Ht Hb. apply (dumps_perm _ _ _ (header_sorted e)) in Ht.
  assert (Hr : 0 <= env_record_id e) by (unfold uuid_is_v4 in Hv; btauto_hyps; lia).
  unfold parse_header. rewrite (utf8_round_trip _ _ Hb). cbn [mbind result_bind].
  rewrite (loads_dumps _ _ (header_printable e Hc Hr) Ht). cbn [mbind result_bind].
  destruct (header_lookups (JStr (env_algorithm e)) (JStr (env_configuration_revision e))
    (JStr (isoformat (env_created_at e))) (JInt (env_generation e)) (JStr (key_id (env_key e)))
    (JStr (key_provider_id (env_key e))) (JInt (key_version (env_key e)))
    (JList (JInt <$> env_plaintext_frame_sizes e)) (JStr (uuid_text (env_record_id e)))
    (JInt (env_schema_version e))) as (K&F1&F2&F3&F4&F5&F6&F7&F8&F9&F10).
  apply header_from_ok; [by apply constructible_checked|exact Hv|exact K|].
  repeat (constructor; [assumption|]). constructor.
Qed.

(** The length bounds make the packed lengths fit their fields. *)
Lemma parts_bounds e :
  existsb (fun p => bool_decide (p = []) || (MAX_BINARY_PART <? zlen p)) (parts_of e) = false ->
  Forall (fun p => 0 < zlen p <= MAX_BINARY_PART) (parts_of e).
Proof.
  intros Hx. apply Forall_forall. intros p Hp.
  assert (bool_decide (p = []) || (MAX_BINARY_PART <? zlen p) = false) as Hb.
  { apply not_true_iff_false. intros Ht. apply not_true_iff_false in Hx. apply Hx. apply existsb_exists.
    exists p. split; [by apply list_elem_of_In|done]. }
  btauto_hyps. split; [|done]. destruct p; [done|]. unfold zlen. cbn. lia.
Qed.

(** What encoding has checked. *)
Lemma encode_blob_ok e b : encode_blob e = Ok b ->
  exists text header, uuid_is_v4 (env_record_id e) = true /\ dumps (JDict (header_of e)) = Ok text /\
    utf8_encode text = Ok header /\ 0 < zlen header <= MAX_HEADER_BYTES /\
    Forall (fun p => 0 < zlen p <= MAX_BINARY_PART) (parts_of e) /\ b = blob_of e header.
Proof.
  unfold encode_blob, validate_uuid. intros He. apply result_bind_ok in He as (?&Hv%throw_if_ok&He).
  apply result_bind_ok in He as (text&Ht&He). apply result_bind_ok in He as (header&Hh&He).
  apply result_bind_ok in He as (?&Hm%throw_if_ok&He). apply result_bind_ok in He as (?&Hp%throw_if_ok&He).
  exists text, header. btauto_hyps. split_and!; try done; [|by apply parts_bounds|].
  - assert (exists t, text = 123 :: t) as [t ->].
    { cbn [dumps] in Ht. apply result_bind_ok in Ht as (items&_&Ht). injection Ht as <-. by eexists. }
    cbn in Hh. ok_steps. unfold zlen. cbn. lia.
  - assert (Hret : forall x y : pybytes, mret x = Ok y -> y = x) by (intros ? ? E; by injection E). by apply Hret.
Qed.

Lemma blob_parts e header :
  blob_of e header = (MAGIC ++ be_digits 256 2 FORMAT_VERSION ++ be_digits 256 4 (zlen header) ++
    pack_lengths (zlen <$> parts_of e)) ++ header ++ mjoin (parts_of e).
Proof. unfold blob_of. by rewrite <- !(assoc_L (++)). Qed.

(** The fields decoding reads of an encoded blob. *)
Lemma blob_fields e header :
  0 < zlen header <= MAX_HEADER_BYTES -> Forall (fun p => 0 < zlen p <= MAX_BINARY_PART) (parts_of e) ->
  let data := blob_of e header in
  zlen data = 34 + zlen header + sum_by (fun n => n) (zlen <$> parts_of e) /\
  be_value 256 (slice 10 4 data) = zlen header /\
  unpack_lengths (slice PREFIX_SIZE LENGTHS_SIZE data) = zlen <$> parts_of e /\
  slice 34 (Z.to_nat (zlen header)) data = header /\
  split_parts data (34 + Z.to_nat (zlen header)) (zlen <$> parts_of e) = parts_of e.
Proof.
  intros Hh Hp data.
  pose proof (blob_parts e header) as Hdata. fold data in Hdata.
  set (pre := MAGIC ++ be_digits 256 2 FORMAT_VERSION ++ be_digits 256 4 (zlen header) ++
    pack_lengths (zlen <$> parts_of e)) in Hdata.
  assert (Hpre : length pre = 34%nat) by reflexivity. split_and!.
  - rewrite Hdata, !zlen_app, zlen_mjoin. unfold zlen at 1. rewrite Hpre. lia.
  - change (slice 10 4 data) with (be_digits 256 4 (zlen header)). apply be_value_digits; [lia|].
    change (256 ^ Z.of_nat 4) with (2 ^ 32). unfold MAX_HEADER_BYTES in *. lia.
  - change (slice PREFIX_SIZE LENGTHS_SIZE data) with (pack_lengths (zlen <$> parts_of e)).
    unfold parts_of, MAX_BINARY_PART in *. rewrite !Forall_cons in Hp. destruct Hp as (P1&P2&P3&P4&_).
    cbn [fmap list_fmap]. apply unpack_pack; lia.
  - rewrite Hdata, <- Hpre, zlen_nat. apply slice_app.
  - rewrite Hdata, zlen_nat, <- Hpre, (assoc_L (++)), <- length_app. apply split_parts_ok.
Qed.

Lemma decode_encode e b max :
  constructible e = true -> encode_blob e = Ok b -> zlen b <= max ->
  decode_blob int16_other fromisoformat_other b max = Ok e.
Proof.
  intros Hc (text&header&Hv&Ht&Hu&Hh&Hp&->)%encode_blob_ok Hmax.
  destruct (blob_fields e header Hh Hp) as (Hlen&Hhl&Hlens&Hheader&Hsplit).
  destruct (constructible_checked e Hc) as [Hmk Hkey _ _ _ _ _ _].
  assert (Hsum : 0 <= sum_by (fun n => n) (zlen <$> parts_of e)).
  { apply sum_by_nonneg. intros n (p&->&_)%list_elem_of_fmap. apply zlen_nonneg. }
  unfold decode_blob. rewrite Hhl, Hlens.
  assert (bool_decide (blob_of e header = []) || (max <? zlen (blob_of e header)) ||
          (zlen (blob_of e header) <? Z.of_nat (PREFIX_SIZE + LENGTHS_SIZE)) = false) as ->.
  { rewrite bool_decide_false by (intros E; rewrite E in Hlen; change (zlen []) with 0 in Hlen; lia).
    rewrite (proj2 (Z.ltb_ge _ _) Hmax). apply Z.ltb_ge. change (Z.of_nat (PREFIX_SIZE + LENGTHS_SIZE)) with 34. lia. }
  rewrite throw_if_false, result_bind_ret.
  assert (negb (bool_decide (slice 0 8 (blob_of e header) = MAGIC)) ||
          negb (be_value 256 (slice 8 2 (blob_of e header)) =? FORMAT_VERSION) ||
          negb ((1 <=? zlen header) && (zlen header <=? MAX_HEADER_BYTES)) = false) as ->.
  { change (slice 0 8 (blob_of e header)) with MAGIC.
    change (slice 8 2 (blob_of e header)) with (be_digits 256 2 FORMAT_VERSION).
    rewrite bool_decide_true by done. rewrite (proj2 (Z.leb_le 1 _)), (proj2 (Z.leb_le _ MAX_HEADER_BYTES)) by lia.
    reflexivity. }
  rewrite throw_if_false, result_bind_ret.
  assert (existsb (fun n => (n <=? 0) || (MAX_BINARY_PART <? n)) (zlen <$> parts_of e) = false) as ->.
  { apply not_true_iff_false. intros (n&Hn%list_elem_of_In&Hx)%existsb_exists.
    apply list_elem_of_fmap in Hn as (p&->&Hin). rewrite Forall_forall in Hp. specialize (Hp p Hin).
    apply orb_true_iff in Hx as [?%Z.leb_le|?%Z.ltb_lt]; lia. }
  rewrite throw_if_false, result_bind_ret.
  rewrite Hlen. unfold PREFIX_SIZE, LENGTHS_SIZE. change (14 + 20)%nat with 34%nat. change (Z.of_nat 34) with 34.
  rewrite Z.eqb_refl. cbn [negb]. rewrite throw_if_false, result_bind_ret, Hheader, Hsplit.
  rewrite (parse_header_ok e text header Hc Hv Ht Hu). unfold as_corruption. rewrite result_bind_ret.
  unfold parts_of. cbn iota. unfold fields_of.
  cbn [hf_key_id hf_key_provider_id hf_key_version hf_record_id hf_generation hf_configuration_revision
       hf_schema_version hf_algorithm hf_sizes hf_created_at].
  destruct e as [? ? ? ? ? [? ? ?] ? ? ? ? ? ?]. cbn in Hmk, Hkey |- *. rewrite Hkey. cbn. exact Hmk.
Qed.
(** ** Truncated and extended blobs *)

Lemma throw_if_same {A} c x (k : unit -> result A) : k tt = Raise x -> (throw_if c x ≫= k) = Raise x.
Proof. by destruct c. Qed.

Lemma bad_length_corrupt data max :
  34 + be_value 256 (slice 10 4 data) + sum_by (fun n => n) (unpack_lengths (slice 14 20 data)) <> zlen data ->
  decode_blob int16_other fromisoformat_other data max = Raise (StorageFailure CORRUPTION).
Proof.
  intros Hlen. unfold decode_blob. do 3 apply throw_if_same. unfold PREFIX_SIZE, LENGTHS_SIZE.
  change (14 + 20)%nat with 34%nat. change (Z.of_nat 34) with 34. by rewrite (proj2 (Z.eqb_neq _ _) Hlen).
Qed.

Lemma resized_blob_corrupt e header rest max :
  0 < zlen header <= MAX_HEADER_BYTES -> Forall (fun p => 0 < zlen p <= MAX_BINARY_PART) (parts_of e) ->
  let pre := MAGIC ++ be_digits 256 2 FORMAT_VERSION ++ be_digits 256 4 (zlen header) ++
    pack_lengths (zlen <$> parts_of e) in
  zlen (pre ++ rest) <> zlen (blob_of e header) ->
  decode_blob int16_other fromisoformat_other (pre ++ rest) max = Raise (StorageFailure CORRUPTION).
Proof.
  intros Hh Hp pre Hne. destruct (blob_fields e header Hh Hp) as (Hlen&Hhl&Hlens&_).
  apply bad_length_corrupt.
  change (slice 10 4 (pre ++ rest)) with (slice 10 4 (blob_of e header)).
  change (slice 14 20 (pre ++ rest)) with (slice PREFIX_SIZE LENGTHS_SIZE (blob_of e header)).
  rewrite Hhl, Hlens. lia.
Qed.

Lemma short_blob_corrupt data max :
  zlen data < 34 -> decode_blob int16_other fromisoformat_other data max = Raise (StorageFailure CORRUPTION).
Proof.
  intros Hs. unfold decode_blob, throw_if. change (Z.of_nat (PREFIX_SIZE + LENGTHS_SIZE)) with 34.
  rewrite (proj2 (Z.ltb_lt _ _) Hs), orb_true_r. done.
Qed.

(** C31 (blob_round_trip): Encoding an envelope and decoding the blob gives the
    envelope back, whatever its strings, sizes and binary parts; a proper
    prefix of the blob, or the blob with bytes appended, is corruption. *)
Theorem blob_round_trip e b max :
  constructible e = true -> encode_blob e = Ok b -> zlen b <= max ->
  decode_blob int16_other fromisoformat_other b max = Ok e /\
  (forall n, (n < length b)%nat ->
     decode_blob int16_other fromisoformat_other (take n b) max = Raise (StorageFailure CORRUPTION)) /\
  (forall extra, extra <> [] ->
     decode_blob int16_other fromisoformat_other (b ++ extra) max = Raise (StorageFailure CORRUPTION)).
Proof.
  intros Hc He Hm. split; [by apply decode_encode|].
  apply encode_blob_ok in He as (text&header&_&_&_&Hh&Hp&->).
  pose proof (resized_blob_corrupt e header) as Hresized. pose proof (blob_parts e header) as Hb. cbv zeta in Hresized.
  set (pre := MAGIC ++ _) in *. assert (Hpre : length pre = 34%nat) by reflexivity. split.
  - intros n Hn. destruct (decide (n < 34)%nat) as [Hs|Hs].
    { apply short_blob_corrupt. unfold zlen. rewrite length_take. lia. }
    assert (Hl : zlen (take n (blob_of e header)) <> zlen (blob_of e header)).
    { unfold zlen. rewrite length_take. lia. }
    revert Hl. rewrite Hb at 1 3. rewrite take_app_ge by lia. by apply Hresized.
  - intros extra Hx.
    assert (Hl : zlen (blob_of e header ++ extra) <> zlen (blob_of e header)).
    { rewrite zlen_app. destruct extra; [done|]. unfold zlen. cbn. lia. }
    revert Hl. rewrite Hb at 1 3. rewrite <- (assoc_L (++) pre). by apply Hresized.
Qed.

(** The blob format is the codec the storage is proved against. *)
Definition blob_codec : EnvelopeCodec.
Proof.
  refine {| codec_valid := constructible; encode_envelope := encode_blob;
            decode_envelope := decode_blob int16_other fromisoformat_other |}.
  - exact decode_encode.
  - intros e b (text&header&_&_&_&_&_&->)%encode_blob_ok. discriminate.
  - by intros e b (text&header&Hv&_)%encode_blob_ok.
Defined.
End Codec.

(** ** Witnesses *)

Definition no_text {A} (_ : pystr) : result A := Raise ValueError.

Definition demo_envelope : EncryptedRecordEnvelope :=
  {| env_record_id := 2 ^ 63 + 4 * 2 ^ 76 + 5; env_generation := 7;
     env_configuration_revision := [233; 34; 128512]; env_schema_version := 1; env_algorithm := u "AES-256-GCM";
     env_key := {| key_id := u "k"; key_provider_id := u "gpg"; key_version := 2 |};
     env_plaintext_frame_sizes := [4096; 12]; env_wrapped_data_key := [1; 255]; env_nonce := [0; 2];
     env_ciphertext := [9; 8; 7]; env_associated_data_digest := [3];
     env_created_at := {| dt_wall := 63000000000123456; dt_offset := -5 * 3600 * 1000000 |} |}.

Definition demo_blob : pybytes := match encode_blob demo_envelope with Ok b => b | Raise _ => [] end.

Lemma blob_round_trip_witness :
  constructible demo_envelope = true /\ encode_blob demo_envelope = Ok demo_blob /\
  decode_blob no_text no_text demo_blob 4096 = Ok demo_envelope /\
  decode_blob no_text no_text (demo_blob ++ [0]) 4096 = Raise (StorageFailure CORRUPTION).
Proof.
  assert (Hc : constructible demo_envelope = true) by (vm_compute; reflexivity).
  assert (He : encode_blob demo_envelope = Ok demo_blob) by (vm_compute; reflexivity).
  assert (Hm : zlen demo_blob <= 4096) by (apply Z.leb_le; vm_compute; reflexivity).
  destruct (blob_round_trip no_text no_text demo_envelope demo_blob 4096 Hc He Hm) as (Hd&_&Hx).
  split; [exact Hc|]. split; [exact He|]. split; [exact Hd|]. apply Hx. discriminate.
Defined.

(** A well-formed blob, except that its header's [record_id] is a number: the
    decoder does not report corruption. *)
Definition forged_blob : result pybytes :=
  text ← dumps (JDict ((u "record_id", JInt 5) :: tail (header_of demo_envelope)));
  header ← utf8_encode text;
  mret (blob_of demo_envelope header).

Example nonstring_record_id_escapes :
  (b ← forged_blob; decode_blob no_text no_text b 4096) = Raise AttributeError.
Proof. vm_compute. reflexivity. Qed.
