(* ===== verification/StorageProps.v ===== *)
(** * StorageProps: the storage refines a map of envelopes, crashes included.

    Each operation, stopped by the fault injector wherever it may be, changes
    [content] as the operation of a finite map would, or not at all; recovery
    changes nothing of it and leaves no debris. *)

From S2P Require Import Prelude PyStr Storage StorageFacts Codec CodecFacts.

Section Operations.
Context `{EnvelopeCodec}.
Variables (sha256 : pybytes -> pybytes) (quota_bytes max_blob_bytes : Z).

Local Abbreviation content := (content sha256 max_blob_bytes).
Local Abbreviation wf := (wf sha256 max_blob_bytes).
Local Abbreviation decodes := (decode_row sha256 max_blob_bytes).

(** [s'] is [s] up to the record [id]. *)
Definition others_kept (id : uuid) (s s' : store) : Prop :=
  forall id', id' ≠ id -> content s' id' = content s id'.

(** What [get] sees: ready rows only. *)
Definition visible (s : store) (id : uuid) : option EncryptedRecordEnvelope :=
  match s_records s !! id with Some (_, READY) => content s id | _ => None end.

Lemma visible_content s id e : visible s id = Some e -> content s id = Some e.
Proof. unfold visible. by destruct (s_records s !! id) as [[md []]|]. Qed.

(** *** put *)

Lemma encoded_decodes e blob token s :
  codec_valid e = true -> encode_envelope e = Ok blob -> zlen blob <= max_blob_bytes ->
  blob_token (env_record_id e) = Ok token -> s_blobs s !! token = Some blob ->
  decodes (env_record_id e) (metadata_of e blob token (sha256 blob)) s = Ok e.
Proof.
  intros Hc He Hl Ht Hb. unfold decode_row, read_blob. cbn. rewrite (blob_token_path _ _ Ht). cbn.
  unfold read_regular_file. rewrite Hb.
  assert (0 < zlen blob).
  { pose proof (codec_nonempty _ _ He). unfold zlen. destruct blob; [done|]. cbn. lia. }
  rewrite (proj2 (Z.leb_gt _ _)), (proj2 (Z.ltb_ge _ _)) by lia. cbn.
  rewrite bool_decide_false by naive_solver. cbn.
  rewrite (codec_round_trip _ _ _ Hc He Hl). cbn. rewrite bool_decide_false by naive_solver. done.
Qed.

(** The [try] block of [put], from a store that knows nothing of the record. *)
Lemma put_steps_ok fault e blob token s :
  codec_valid e = true -> encode_envelope e = Ok blob -> zlen blob <= max_blob_bytes ->
  let id := env_record_id e in
  let md := metadata_of e blob token (sha256 blob) in
  blob_token id = Ok token -> wf s -> s_records s !! id = None -> s_intents s !! id = None ->
  wp (put_steps fault id md blob) (fun r s' =>
    wf s' /\ others_kept id s s' /\ (content s' id = None \/ content s' id = Some e) /\
    (r = Ok tt -> visible s' id = Some e)) s.
Proof.
  intros Hv He Hl id md Ht Hwf Hr Hi. unfold put_steps.
  pose proof (wf_add_intent _ _ id md s Hwf Hr Hi Ht) as Hwf1.
  pose proof (fun id' => content_add_intent _ _ id md s id' Hwf Hr Hi Ht) as Hc1.
  set (s1 := set_intents (<[id := md]> (s_intents s)) s) in *.
  assert (Hnone : content s1 id = None) by (rewrite Hc1; unfold content; by rewrite Hr, Hi).
  assert (Hstop : forall s' : store, wf s' -> (forall id', content s' id' = content s1 id') ->
    forall x, wf s' /\ others_kept id s s' /\ (content s' id = None \/ content s' id = Some e) /\
    (Raise x = Ok tt -> visible s' id = Some e)).
  { intros s' Hw Hc x. split; [done|]. split; [intros id' _; by rewrite Hc, Hc1|].
    split; [left; by rewrite Hc|done]. }
  apply wp_bind, wp_modify. apply wp_bind, wp_require; intros _; [|by apply Hstop].
  apply wp_bind. unfold write_blob_atomically. apply wp_bind, wp_lift.
  change (md_blob_token md) with token. rewrite (blob_token_path _ _ Ht).
  apply wp_bind, wp_gets, wp_bind, wp_require; intros Hb; [|by apply Hstop].
  apply wp_bind, wp_modify, wp_bind, wp_require; intros _;
    [|apply Hstop; [by apply wf_temporary|done]].
  apply wp_modify. cbn [set_temporary s_temporary s_blobs tail].
  assert (Hi1 : s_intents s1 !! id = Some md) by (cbn; by rewrite lookup_insert_eq).
  assert (Hd : decodes id md (set_blobs (<[md_blob_token md := blob]> (s_blobs s1)) s1) = Ok e).
  { apply encoded_decodes; [done..|]. cbn. by rewrite lookup_insert_eq. }
  assert (Hwf2 : wf (set_blobs (<[md_blob_token md := blob]> (s_blobs s1)) s1)).
  { apply (wf_write_blob _ _ id); [done..|]. by eexists; rewrite Hd. }
  pose proof (fun id' => content_write_blob _ _ id md blob s1 id' Hwf1 Hi1) as Hc2.
  change (set_temporary (s_temporary s1) s1) with s1.
  set (s2 := set_blobs (<[md_blob_token md := blob]> (s_blobs s1)) s1) in *.
  assert (Hsome : content s2 id = Some e).
  { unfold StorageFacts.content. rewrite (wf_disjoint _ _ _ Hwf1) by (by rewrite Hi1).
    change (s_intents s2) with (s_intents s1). rewrite Hi1. cbn. by rewrite Hd. }
  apply wp_bind, wp_require; intros _.
  2:{ split; [done|]. split; [intros id' Hne; rewrite Hc2; [apply Hc1|done..]|]. split; [by right|done]. }
  apply wp_modify.
  assert (Hd2 : is_Some (StorageFacts.ok (decodes id md s2))) by (rewrite Hd; by eexists).
  pose proof (wf_commit _ _ id md s2 Hwf2 Hi1 Hd2) as Hwf3.
  pose proof (fun id' => content_commit _ _ id md s2 id' Hwf2 Hi1) as Hc3.
  split; [done|]. split; [intros id' Hne; rewrite Hc3, Hc2; [apply Hc1|done..]|].
  rewrite Hc3. split; [by right|]. intros _. unfold visible. cbn. rewrite lookup_insert_eq.
  by rewrite <- Hsome, <- Hc3.
Qed.

Lemma put_ok fault e s :
  wf s -> codec_valid e = true ->
  let id := env_record_id e in
  wp (put sha256 quota_bytes max_blob_bytes fault e) (fun r s' =>
    wf s' /\ others_kept id s s' /\
    (content s' id = content s id \/ content s id = None /\ content s' id = Some e) /\
    (is_ok r = true -> s_records s !! id = None -> visible s' id = Some e)) s.
Proof.
  intros Hwf Hv id.
  assert (Hstop : forall x : exn, wf s /\ others_kept id s s /\
    (content s id = content s id \/ content s id = None /\ content s id = Some e) /\
    (is_ok (Raise x : result StoredRecordRef) = true -> s_records s !! id = None -> visible s id = Some e)).
  { intros x. split; [done|]. split; [done|]. split; [by left|done]. }
  unfold put. apply wp_bind, wp_lift. destruct (encode_envelope e) as [blob|] eqn:He; [|apply Hstop].
  apply wp_bind, wp_require; intros Hl; [|apply Hstop]. btauto_hyps.
  apply wp_bind, wp_lift. destruct (blob_token (env_record_id e)) as [token|] eqn:Ht; [|apply Hstop].
  apply wp_bind, wp_gets. fold id. destruct (s_records s !! id) as [[old st]|] eqn:Hr.
  { case_bool_decide; [apply wp_ret|apply wp_raise, Hstop].
    split; [done|]. split; [done|]. split; [by left|done]. }
  apply wp_bind, wp_gets, wp_bind, wp_require; intros _; [|apply Hstop].
  apply wp_bind, wp_gets, wp_bind, wp_try_except, wp_bind, wp_require; intros Hi; [|apply wp_raise, Hstop].
  btauto_hyps. eapply wp_mono; [by apply put_steps_ok|].
  assert (Hnone : content s id = None) by (unfold StorageFacts.content; by rewrite Hr, Hi).
  intros [[]|x] s' (Hw&Ho&Hc&Hok); [apply wp_ret|apply wp_raise].
  - split; [done|]. split; [done|]. specialize (Hok eq_refl). auto using visible_content.
  - split; [done|]. split; [done|]. split; [|done]. rewrite Hnone. naive_solver.
Qed.

(** *** get *)

Lemma get_ok id s : wf s -> get sha256 max_blob_bytes id s = (s, Ok (visible s id)).
Proof.
  intros Hwf. unfold get, visible, StorageFacts.content, gets, mbind, M_bind. cbn.
  destruct (s_records s !! id) as [[md []]|] eqn:Hr; try done.
  destruct (wf_ready _ _ _ Hwf _ _ Hr) as [e He]. by destruct (decodes id md s).
Qed.

(** *** delete *)

Lemma delete_ok fault id s :
  wf s ->
  wp (delete_record fault id) (fun r s' =>
    wf s' /\ others_kept id s s' /\
    (s_records s !! id = None -> s' = s /\ r = Ok false) /\
    (is_Some (s_records s !! id) -> content s' id = None) /\
    (r = Ok true -> s_records s' !! id = None /\ s_intents s' = s_intents s)) s.
Proof.
  intros Hwf. unfold delete_record. apply wp_bind, wp_gets.
  destruct (s_records s !! id) as [[md st]|] eqn:Hr.
  2:{ apply wp_ret. split; [done|]. split; [done|]. split; [done|]. split; [by intros []|done]. }
  pose proof (wf_mark_deleting _ _ id md st s Hwf Hr) as Hwf1.
  pose proof (fun id' => content_mark_deleting sha256 max_blob_bytes id md s id') as Hc1.
  apply wp_bind, wp_modify. set (s1 := set_records (<[id := (md, DELETING)]> (s_records s)) s) in *.
  assert (Hr1 : s_records s1 !! id = Some (md, DELETING)) by (cbn; by rewrite lookup_insert_eq).
  apply wp_bind, wp_require; intros _.
  - apply wp_bind, wp_lift. rewrite (wf_row_path _ _ _ _ _ _ Hwf Hr).
    apply wp_bind, wp_modify, wp_bind, wp_modify, wp_ret.
    pose proof (wf_drop_row _ _ id md DELETING s1 Hwf1 Hr1) as Hwf2.
    pose proof (fun id' => content_drop_row _ _ id md DELETING s1 id' Hwf1 Hr1) as Hc2.
    change (set_records _ _) with (drop_row id md s1). split; [done|].
    split; [intros id' Hne; rewrite Hc2, Hc1, !bool_decide_false by done; done|].
    split; [done|]. split; [intros _; by rewrite Hc2, bool_decide_true|].
    intros _. split; [|done]. cbn. by rewrite lookup_delete_eq.
  - split; [done|]. split; [intros id' Hne; by rewrite Hc1, bool_decide_false|].
    split; [done|]. split; [|done]. intros _. by rewrite Hc1, bool_decide_true.
Qed.

(** *** recover *)

(** A loop of [recover] with an invariant on what is left to do. *)
Lemma collect_ok {A} (f : A -> M store IntegrityReport) (I : list A -> store -> Prop) xs s :
  (forall x xs s, I (x :: xs) s -> wp (f x) (fun r s' => is_ok r = true /\ I xs s') s) ->
  I xs s -> wp (collect xs f) (fun r s' => is_ok r = true /\ I [] s') s.
Proof.
  intros Hf. revert s. induction xs as [|x xs IH]; intros s Hs; cbn; [by apply wp_ret|].
  apply wp_bind. eapply wp_mono; [by apply Hf|]. intros [a|] s' [? Hs']; [|done].
  apply wp_bind. eapply wp_mono; [by apply IH|]. intros [b|] s'' [? Hs'']; [|done]. by apply wp_ret.
Qed.

(** [s'] holds what [s] holds. *)
Definition same (s s' : store) : Prop := wf s' /\ forall id, content s' id = content s id.

Definition intents_left (s0 : store) (xs : list (uuid * metadata)) (s : store) : Prop :=
  same s0 s /\ NoDup xs.*1 /\ s_intents s = list_to_map xs /\ s_temporary s = [].

Lemma check_intent_ok id md e s :
  decodes id md s = Ok e -> check_intent sha256 max_blob_bytes id md s = Ok tt.
Proof.
  unfold decode_row, check_intent. destruct (read_blob _ _ _) as [blob|]; [|done]. cbn.
  case_bool_decide as H1; [done|]. cbn. destruct (decode_envelope _ _) as [e'|]; [|done]. cbn.
  case_bool_decide as H2; [done|]. intros _. rewrite bool_decide_false; [done|].
  intros [Hx|Hx]; [by apply H1; right|by apply H2; left].
Qed.

Lemma list_to_map_uncons (id : uuid) (md : metadata) (xs : list (uuid * metadata)) :
  NoDup (id :: xs.*1) -> delete id (<[id := md]> (list_to_map xs : gmap uuid metadata)) = list_to_map xs.
Proof. intros [Hx _]%NoDup_cons. apply delete_insert_id. by apply not_elem_of_list_to_map_1. Qed.

Lemma insert_ready id md s :
  wf s -> s_intents s !! id = Some md -> insert_or_ignore id md s = set_records (<[id := (md, READY)]> (s_records s)) s.
Proof.
  intros Hwf Hi. unfold insert_or_ignore. assert (Hr : s_records s !! id = None) by (apply (wf_disjoint _ _ _ Hwf); by rewrite Hi).
  rewrite bool_decide_true by done. rewrite (proj2 (List.forallb_forall _ _)); [done|].
  intros [id' [md' st]] Hin%list_elem_of_In%elem_of_map_to_list. cbn.
  rewrite bool_decide_false; [done|].
  apply (token_ne id' id); [congruence|by eapply wf_row_token|by eapply wf_intent_token].
Qed.

Lemma recover_intent_ok s0 x xs s :
  intents_left s0 (x :: xs) s ->
  wp (recover_intent sha256 max_blob_bytes x) (fun r s' => is_ok r = true /\ intents_left s0 xs s') s.
Proof.
  destruct x as [id md]. intros ([Hwf Hc]&Hnd&Hin&Htmp). cbn in *.
  assert (Hi : s_intents s !! id = Some md) by (rewrite Hin; by rewrite lookup_insert_eq).
  unfold recover_intent. apply wp_bind, wp_lift. rewrite (wf_intent_path _ _ _ _ _ Hwf Hi). apply wp_bind, wp_gets.
  case_bool_decide as Hb.
  - apply wp_bind, wp_modify, wp_ret. split; [done|].
    split; [split; [by eapply wf_drop_intent|intros id'; by erewrite content_drop_intent]|].
    split; [by eapply NoDup_cons_1_2|]. split; [|done]. cbn. by rewrite Hin, list_to_map_uncons.
  - destruct (wf_intent_blob _ _ _ Hwf _ _ Hi) as [?|Hd]; [done|].
    destruct (decodes id md s) as [e|] eqn:He; [|by destruct Hd].
    rewrite (check_intent_ok _ _ _ _ He). apply wp_bind, wp_modify. rewrite insert_ready by done.
    apply wp_bind, wp_modify, wp_ret. split; [done|]. cbn.
    split; [split|]; cbn.
    + apply (wf_commit _ _ id md s); [done..|]. rewrite He. by eexists.
    + intros id'. rewrite <- Hc. by apply (content_commit _ _ id md s).
    + split; [by eapply NoDup_cons_1_2|]. split; [|done]. cbn. by rewrite Hin, list_to_map_uncons.
Qed.

Definition settled_store (s : store) : Prop := s_intents s = ∅ /\ s_temporary s = [].

Lemma elem_of_rows_in c id md s :
  (id, md) ∈ rows_in c s <-> s_records s !! id = Some (md, c).
Proof.
  unfold rows_in. rewrite list_elem_of_omap. split.
  - intros ([id' [md' c']]&Hin%elem_of_map_to_list&Ho). cbn in Ho.
    case_bool_decide as Hc; [|done]. injection Ho as -> ->. by rewrite <- Hc.
  - intros Hr. exists (id, (md, c)). split; [by apply elem_of_map_to_list|]. cbn. by rewrite bool_decide_true.
Qed.

Definition deletions_left (s0 : store) (xs : list (uuid * metadata)) (s : store) : Prop :=
  same s0 s /\ settled_store s /\ forall id md, s_records s !! id = Some (md, DELETING) -> (id, md) ∈ xs.

Lemma recover_deletion_ok s0 x xs s :
  (deletions_left s0 (x :: xs) s /\ NoDup (x :: xs).*1 /\
   Forall (fun y => s_records s !! y.1 = Some (y.2, DELETING)) (x :: xs)) ->
  wp (recover_deletion x) (fun r s' => is_ok r = true /\
    (deletions_left s0 xs s' /\ NoDup xs.*1 /\
     Forall (fun y => s_records s' !! y.1 = Some (y.2, DELETING)) xs)) s.
Proof.
  destruct x as [id md]. intros (([Hwf Hc]&Hset&Hleft)&[Hni Hnd]%NoDup_cons&[Hr Hall]%Forall_cons).
  cbn in *. unfold recover_deletion. apply wp_bind, wp_lift. rewrite (wf_row_path _ _ _ _ _ _ Hwf Hr).
  apply wp_bind, wp_modify, wp_bind, wp_modify, wp_ret.
  split; [done|]. change (set_records _ _) with (drop_row id md s).
  assert (content s id = None) as Hn by (unfold StorageFacts.content; by rewrite Hr).
  split; [|split; [done|]].
  - split; [split; [by eapply wf_drop_row|]|split; [done|]].
    + intros id'. erewrite content_drop_row by done. rewrite <- Hc. case_bool_decide as Hd; [by rewrite Hd, Hn|done].
    + intros id' md'. cbn. rewrite lookup_delete_Some. intros [Hne Hr'].
      apply Hleft in Hr'. apply elem_of_cons in Hr' as [[= -> ->]|?]; done.
  - rewrite Forall_forall in Hall |- *. intros y Hy. cbn. rewrite lookup_delete_ne; [by apply Hall|].
    intros ->. apply Hni, list_elem_of_fmap. by exists y.
Qed.

Lemma verify_all_ok (s0 s : store) xs :
  s = s0 -> wf s -> Forall (fun y => s_records s !! y.1 = Some (y.2, READY)) xs ->
  wp (collect xs (verify_ready sha256 max_blob_bytes)) (fun r s' => is_ok r = true /\ s' = s0) s.
Proof.
  intros -> Hwf Hall. eapply wp_mono; [apply (collect_ok _
    (fun xs s => s = s0 /\ Forall (fun y => s_records s0 !! y.1 = Some (y.2, READY)) xs))|]; [|done|by intros ?? (?&?&?)].
  intros [id md] xs' s' [-> [Hr Hall']%Forall_cons]. cbn in Hr.
  unfold verify_ready. apply wp_bind, wp_gets.
  destruct (wf_ready _ _ _ Hwf _ _ Hr) as [e He]. destruct (decodes id md s0); [|done]. by apply wp_ret.
Qed.

Lemma no_orphans s : wf s -> orphans s = [].
Proof.
  intros Hwf. unfold orphans. destruct (filter _ _) as [|t l] eqn:E; [done|]. exfalso.
  assert (Ht : t ∈ filter (fun token => is_blob_file token = true /\ token ∉ referenced s) (map_to_list (s_blobs s)).*1) by (rewrite E; constructor).
  apply list_elem_of_filter in Ht as [[_ Hn] Hin]. apply Hn.
  apply list_elem_of_fmap in Hin as ([t' b]&->&Hin%elem_of_map_to_list).
  destruct (wf_named _ _ _ Hwf t') as (id&md&_&<-&[[st Hr]|Hi]); [by rewrite Hin|..];
    unfold referenced; apply elem_of_app; [left|right]; apply list_elem_of_fmap.
  - exists (id, (md, st)). split; [done|]. by apply elem_of_map_to_list.
  - exists (id, md). split; [done|]. by apply elem_of_map_to_list.
Qed.

Lemma rows_in_keys c s : NoDup (rows_in c s).*1.
Proof.
  unfold rows_in. assert (forall l : list (uuid * (metadata * CatalogState)), NoDup l.*1 ->
    NoDup (omap (fun r : uuid * (metadata * CatalogState) =>
      if bool_decide (r.2.2 = c) then Some (r.1, r.2.1) else None) l).*1) as Hl.
  { induction l as [|[k [md c']] l IH]; cbn; [constructor|]. intros [Hk Hnd]%NoDup_cons.
    case_bool_decide; cbn; [|auto]. apply NoDup_cons. split; [|auto]. intros Hin. apply Hk.
    apply list_elem_of_fmap in Hin as ([k' md']&->&Hin). apply list_elem_of_omap in Hin as ([k2 [m2 c2]]&Hin2&Ho).
    cbn in Ho. case_bool_decide; [|done]. injection Ho as -> ->. apply list_elem_of_fmap. by exists (k', (md', c2)). }
  apply Hl, NoDup_fst_map_to_list.
Qed.

(** Recovery settles the store and keeps what it holds. *)
Definition recovered (s0 s : store) : Prop :=
  same s0 s /\ settled_store s /\ (forall id md, s_records s !! id ≠ Some (md, DELETING)).

Lemma recover_ok s :
  wf s -> wp (recover sha256 max_blob_bytes) (fun r s' => is_ok r = true /\ recovered s s') s.
Proof.
  intros Hwf. unfold recover. apply wp_bind, wp_gets, wp_bind, wp_modify, wp_bind, wp_gets, wp_bind.
  eapply wp_mono.
  { apply (collect_ok _ (intents_left s)); [intros; by apply recover_intent_ok|].
    split; [split; [by apply wf_temporary|done]|]. split; [apply NoDup_fst_map_to_list|].
    split; [cbn; by rewrite list_to_map_to_list|done]. }
  intros [a|] s1 [Hok (Hsame1&_&Hi1&Ht1)]; [|done]. apply wp_bind, wp_gets, wp_bind.
  eapply wp_mono.
  { apply (collect_ok _ (fun xs s1' => deletions_left s xs s1' /\ NoDup xs.*1 /\
      Forall (fun y => s_records s1' !! y.1 = Some (y.2, DELETING)) xs)); [intros; by apply recover_deletion_ok|].
    split; [split; [done|split; [done|]]|split; [apply rows_in_keys|]].
    - intros id md. by rewrite elem_of_rows_in.
    - apply Forall_forall. intros [id md]. by rewrite elem_of_rows_in. }
  intros [b|] s2 [Hok2 ((Hsame2&Hset2&Hdel2)&_&_)]; [|done]. apply wp_bind, wp_gets, wp_bind.
  eapply wp_mono.
  { apply (verify_all_ok s2); [done|apply Hsame2|]. apply Forall_forall. intros [id md]. by rewrite elem_of_rows_in. }
  intros [c|] s3 [Hok3 ->]; [|done]. apply wp_bind, wp_gets. rewrite no_orphans by apply Hsame2. cbn.
  apply wp_bind, wp_ret, wp_ret. split; [done|]. split; [done|]. split; [done|].
  intros id md Hd. by apply Hdel2, elem_of_nil in Hd.
Qed.

Lemma visible_settled s id : settled_store s -> visible s id = content s id.
Proof.
  intros [Hi _]. unfold visible, StorageFacts.content. destruct (s_records s !! id) as [[md []]|]; try done.
  by rewrite Hi, lookup_empty.
Qed.

(** *** Histories *)

Inductive storage_op :=
  | SPut (e : EncryptedRecordEnvelope)
  | SDelete (id : uuid)
  | SGet (id : uuid)
  | SRecover.

(** A call, with the points where the fault injector raises during it. *)
Definition run_op (fault : fault_point -> bool) (op : storage_op) (s : store) : store :=
  match op with
  | SPut e => (put sha256 quota_bytes max_blob_bytes fault e s).1
  | SDelete id => (delete_record fault id s).1
  | SGet id => (get sha256 max_blob_bytes id s).1
  | SRecover => (recover sha256 max_blob_bytes s).1
  end.

(** The envelopes handed to the storage are ones the program can construct. *)
Definition op_valid (op : storage_op) : Prop :=
  match op with SPut e => codec_valid e = true | _ => True end.

Definition storage_step (s : store) (l : (fault_point -> bool) * storage_op) (s' : store) : Prop :=
  op_valid l.2 /\ run_op l.1 l.2 s = s'.

Lemma storage_step_ok s l s' :
  wf s -> storage_step s l s' ->
  wf s' /\ forall id,
    match l.2 with
    | SPut e => content s' id = content s id \/
                id = env_record_id e /\ content s id = None /\ content s' id = Some e
    | SDelete id' => content s' id = content s id \/ id = id' /\ content s' id = None
    | _ => content s' id = content s id
    end.
Proof.
  unfold storage_step. destruct l as [fault [e|id'|id'|]]; cbn; intros Hwf [Hv <-].
  - destruct (wp_elim _ _ _ (put_ok fault e s Hwf Hv)) as (Hw&Ho&Hc&_). split; [done|]. intros id.
    destruct (decide (id = env_record_id e)) as [->|Hne]; [|left; by apply Ho]. naive_solver.
  - destruct (wp_elim _ _ _ (delete_ok fault id' s Hwf)) as (Hw&Ho&Hn&Hc&_). split; [done|]. intros id.
    destruct (decide (id = id')) as [->|Hne]; [|left; by apply Ho].
    destruct (s_records s !! id') eqn:E; [right; split; [done|by apply Hc; eexists]|].
    left. by rewrite (proj1 (Hn eq_refl)).
  - by rewrite get_ok.
  - by destruct (wp_elim _ _ _ (recover_ok s Hwf)) as (_&[? ?]&_).
Qed.

Lemma history_wf s ls s' : wf s -> steps storage_step s ls s' -> wf s'.
Proof.
  intros Hwf Hs. eapply (steps_invariant storage_step wf); [|done|done].
  intros a l b Hl Ha. by apply (storage_step_ok a l b).
Qed.

(** C6 (put_is_atomic): Storing a record is atomic under crashes: wherever the
    fault injector stops [_put_sync], the store stays well formed, every other
    record is untouched, and after recovery the record is either stored
    exactly as given or as it was before; when the call returned for a new
    record, it is stored. *)
Theorem put_is_atomic fault e s :
  wf s -> codec_valid e = true ->
  let (s1, r) := put sha256 quota_bytes max_blob_bytes fault e s in
  let s2 := (recover sha256 max_blob_bytes s1).1 in
  wf s2 /\
  (forall id, id ≠ env_record_id e -> visible s2 id = content s id) /\
  (visible s2 (env_record_id e) = content s (env_record_id e) \/
   visible s2 (env_record_id e) = Some e) /\
  (is_ok r = true -> s_records s !! env_record_id e = None ->
   visible s1 (env_record_id e) = Some e /\ visible s2 (env_record_id e) = Some e).
Proof.
  intros Hwf Hv. pose proof (wp_elim _ _ _ (put_ok fault e s Hwf Hv)) as (Hw1&Ho&Hc&Hok).
  destruct (put _ _ _ fault e s) as [s1 r] eqn:Hput. cbn in *.
  destruct (wp_elim _ _ _ (recover_ok s1 Hw1)) as (_&[Hw2 Hc2]&Hset&_). split; [done|].
  pose proof (fun id => visible_settled _ id Hset) as Hvis.
  split; [intros id Hne; by rewrite Hvis, Hc2, Ho|].
  split; [rewrite Hvis, Hc2; naive_solver|]. intros Hr1 Hr. specialize (Hok Hr1 Hr). split; [done|].
  rewrite Hvis, Hc2. by apply visible_content.
Qed.

(** C7 (acknowledged_is_durable): A record stored under an id that had no row
    before, and whose storage was acknowledged, survives any further history
    of puts, gets, deletions of other records and recoveries, each of which
    may be cut short at any fault point: after a final recovery [get] answers
    exactly the envelope that was put. *)
Theorem acknowledged_is_durable fault e s s1 ref ls s2 :
  wf s -> codec_valid e = true -> s_records s !! env_record_id e = None ->
  put sha256 quota_bytes max_blob_bytes fault e s = (s1, Ok ref) ->
  steps storage_step s1 ls s2 -> Forall (fun l => l.2 ≠ SDelete (env_record_id e)) ls ->
  let s3 := (recover sha256 max_blob_bytes s2).1 in
  get sha256 max_blob_bytes (env_record_id e) s3 = (s3, Ok (Some e)).
Proof.
  intros Hwf Hv Hr Hput Hs Hls s3.
  destruct (wp_run _ _ _ _ _ Hput (put_ok fault e s Hwf Hv)) as (Hw1&_&_&Hok).
  pose proof (visible_content _ _ _ (Hok eq_refl Hr)) as Hc1.
  assert (wf s2 /\ content s2 (env_record_id e) = Some e) as [Hw2 Hc2].
  { clear Hput Hok. revert Hw1 Hc1 Hls. induction Hs as [s1|s1 l s1' ls s2 Hl Hs IH]; [done|].
    intros Hw1 Hc1 [Hne Hls]%Forall_cons.
    destruct (storage_step_ok _ _ _ Hw1 Hl) as [Hw1' Hc]. specialize (Hc (env_record_id e)).
    apply IH; [done| |done]. destruct l as [f [e'|id'|id'|]]; cbn in *; try congruence.
    - destruct Hc as [->|(_&Hx&_)]; congruence.
    - destruct Hc as [->|[<- _]]; [done|by destruct Hne]. }
  destruct (wp_elim _ _ _ (recover_ok s2 Hw2)) as (_&[Hw3 Hc3]&Hset&_).
  fold s3 in Hw3, Hc3, Hset. rewrite get_ok by done. by rewrite visible_settled, Hc3, Hc2.
Qed.

(** C8 (deleted_stays_deleted): A record whose deletion was acknowledged is
    gone: its blob is unlinked, and no further history without a new put of
    the record (crashes and recoveries included) makes it readable again. A
    deletion cut short by a crash is completed by recovery. *)
Theorem deleted_stays_deleted fault id s :
  wf s -> is_Some (s_records s !! id) ->
  let (s1, r) := delete_record fault id s in
  (r = Ok true -> forall token, blob_token id = Ok token -> s_blobs s1 !! token = None) /\
  (forall ls s2, steps storage_step s1 ls s2 ->
     Forall (fun l => forall e, l.2 = SPut e -> env_record_id e ≠ id) ls ->
     get sha256 max_blob_bytes id s2 = (s2, Ok None) /\
     let s3 := (recover sha256 max_blob_bytes s2).1 in
     get sha256 max_blob_bytes id s3 = (s3, Ok None)).
Proof.
  intros Hwf Hr. pose proof (wp_elim _ _ _ (delete_ok fault id s Hwf)) as (Hw1&_&_&Hc&Hu).
  destruct (delete_record fault id s) as [s1 r] eqn:Hdel. cbn in *. specialize (Hc Hr). split.
  - intros -> token Ht. destruct (Hu eq_refl) as [Hr1 Hi1]. 
    eapply (fresh_blob sha256 max_blob_bytes s1 id); [done|done| |done].
    rewrite Hi1. destruct (s_intents s !! id) eqn:E; [|done]. destruct Hr as [x Hr].
    rewrite (wf_disjoint _ _ _ Hwf) in Hr; [done|by rewrite E].
  - intros ls s2 Hs Hls. assert (wf s2 /\ content s2 id = None) as [Hw2 Hc2].
    { clear Hdel Hu. revert Hw1 Hc Hls. induction Hs as [s1|s1 l s1' ls s2 Hl Hs IH]; [done|].
      intros Hw1 Hc [Hne Hls]%Forall_cons. destruct (storage_step_ok _ _ _ Hw1 Hl) as [Hw1' Hc'].
      specialize (Hc' id). apply IH; [done| |done]. destruct l as [f [e'|id'|id'|]]; cbn in *; try congruence.
      - destruct Hc' as [->|(Hid&_)]; [done|]. by destruct (Hne e').
      - destruct Hc' as [->|[_ Hx]]; done. }
    rewrite get_ok by done. split; [unfold visible; rewrite Hc2; by destruct (s_records s2 !! id) as [[? []]|]|].
    destruct (wp_elim _ _ _ (recover_ok s2 Hw2)) as (_&[Hw3 Hc3]&Hset&_).
    cbv zeta. rewrite get_ok by done. by rewrite visible_settled, Hc3, Hc2.
Qed.

Lemma blob_path_raises t x : blob_path t = Raise x -> x = StorageFailure CORRUPTION.
Proof.
  unfold blob_path. destruct (split_on 47 t) as [|? [|? [|]]]; try congruence.
  unfold throw_if. destruct (_ || _); [|done]. cbv [mbind result_bind]. congruence.
Qed.

Lemma read_blob_ok s t blob :
  read_blob max_blob_bytes s t = Ok blob -> s_blobs s !! t = Some blob /\ 0 < zlen blob <= max_blob_bytes.
Proof.
  unfold read_blob. destruct (blob_path t) as [p|] eqn:Hp; [|done]. apply blob_path_id in Hp as ->. cbn.
  unfold read_regular_file. destruct (s_blobs s !! t) as [b|]; [|done].
  destruct (_ || _) eqn:Hl; [done|]. btauto_hyps. intros [= ->]. split; [done|lia].
Qed.

Lemma read_blob_raises s t x : read_blob max_blob_bytes s t = Raise x -> x = StorageFailure CORRUPTION.
Proof.
  unfold read_blob. destruct (blob_path t) as [p|y] eqn:Hp; cbn.
  - unfold read_regular_file. destruct (s_blobs s !! p); [destruct (_ || _)|]; congruence.
  - intros [= <-]. by eapply blob_path_raises.
Qed.

(** What a row that decodes is: every check of [_decode_row]. *)
Lemma decode_row_ok id md s e :
  decodes id md s = Ok e -> exists blob,
    s_blobs s !! md_blob_token md = Some blob /\ 0 < zlen blob <= max_blob_bytes /\
    (sha256 blob = md_blob_digest md /\ zlen blob = md_blob_bytes md) /\
    decode_envelope blob max_blob_bytes = Ok e /\ env_record_id e = id /\
    metadata_of e blob (md_blob_token md) (md_blob_digest md) = md.
Proof.
  unfold decode_row. destruct (read_blob _ _ _) as [blob|] eqn:Hb; [|done]. apply read_blob_ok in Hb as [Hb Hl]. cbn.
  case_bool_decide as Hdig; [done|]. cbn.
  destruct (decode_envelope blob max_blob_bytes) as [e'|] eqn:He; [|done]. cbn.
  case_bool_decide as Hmd; [done|]. intros Hok. apply ret_ok in Hok as ->. exists blob. split; [done|]. split; [lia|].
  split; [split; apply dec_stable; naive_solver|]. split; [done|]. split; apply dec_stable; naive_solver.
Qed.

(** An exception other than [StorageFailure] comes from the codec. *)
Lemma decode_row_raises id md s x :
  decodes id md s = Raise x -> (exists c, x = StorageFailure c) \/
  exists blob, s_blobs s !! md_blob_token md = Some blob /\ decode_envelope blob max_blob_bytes = Raise x.
Proof.
  unfold decode_row. destruct (read_blob _ _ _) as [blob|y] eqn:Hb; cbn.
  2:{ intros [= <-]. apply read_blob_raises in Hb. eauto. }
  apply read_blob_ok in Hb as [Hb _]. case_bool_decide; cbn; [intros [= <-]; eauto|].
  destruct (decode_envelope blob max_blob_bytes) as [e'|] eqn:He; cbn; [|intros [= <-]; eauto].
  case_bool_decide; cbn; [intros [= <-]; eauto|done].
Qed.

(** C9 (get_is_verified): On any store, corrupt or not, [get] returns an
    envelope only for a ready row whose token names a file that has the
    digest and the length of the row and decodes to that envelope, under that
    id, with the schema, key, ciphertext size and day of the row.  It returns
    nothing only when there is no ready row.  A storage failure (missing,
    altered or foreign blob) moves the blob to quarantine with its row, and
    the record is not visible again; only when the row's token is malformed
    does the failure leave the store as it was, since the path is checked
    again before the row is set aside.  Any other exception is the
    decoder's own and leaves the store as it was. *)
Theorem get_is_verified id s :
  let (s', r) := get sha256 max_blob_bytes id s in
  match r with
  | Ok (Some e) =>
      s' = s /\ env_record_id e = id /\ exists md blob,
        s_records s !! id = Some (md, READY) /\ s_blobs s !! md_blob_token md = Some blob /\
        sha256 blob = md_blob_digest md /\ zlen blob = md_blob_bytes md /\ 0 < zlen blob <= max_blob_bytes /\
        decode_envelope blob max_blob_bytes = Ok e /\
        env_schema_version e = md_schema_version md /\ env_key e = md_key md /\
        zlen (env_ciphertext e) = md_ciphertext_bytes md /\ utc_day (env_created_at e) = md_day_bucket md
  | Ok None => s' = s /\ forall md, s_records s !! id <> Some (md, READY)
  | Raise (StorageFailure _) =>
      exists md, s_records s !! id = Some (md, READY) /\
      if is_ok (blob_path (md_blob_token md))
      then s_records s' = <[id := (md, QUARANTINED)]> (s_records s) /\
           s_blobs s' = delete (md_blob_token md) (s_blobs s) /\
           s_quarantine s' = option_list (s_blobs s !! md_blob_token md) ++ s_quarantine s /\
           get sha256 max_blob_bytes id s' = (s', Ok None)
      else s' = s
  | Raise x => s' = s /\ exists md blob,
      s_records s !! id = Some (md, READY) /\ s_blobs s !! md_blob_token md = Some blob /\
      decode_envelope blob max_blob_bytes = Raise x
  end.
Proof.
  destruct (get sha256 max_blob_bytes id s) as [s' r] eqn:Hget. revert Hget.
  unfold get at 1, gets, mbind, M_bind. cbn.
  destruct (s_records s !! id) as [[md []]|] eqn:Hr; [|by intros [= <- <-]..].
  destruct (decodes id md s) as [e|x] eqn:Hd.
  - intros [= <- <-]. destruct (decode_row_ok _ _ _ _ Hd) as (blob&Hb&Hl&[Hs Hz]&He&Hid&Hm).
    split; [done|]. split; [done|]. exists md, blob. split_and!; try done; try lia; by rewrite <- Hm.
  - pose proof (decode_row_raises _ _ _ _ Hd) as Hx. destruct x.
    all: try (intros [= <- <-]; split; [done|]; exists md; destruct Hx as [[? ?]|(blob&?&?)]; [done|by exists blob]).
    clear Hx Hd. unfold quarantine_row, quarantine_path, modify, lift, mbind, M_bind.
    destruct (blob_path (md_blob_token md)) as [p|y] eqn:Hp.
    2:{ rewrite (blob_path_raises _ _ Hp) in *. intros [= <- <-]. exists md. by rewrite Hp. }
    pose proof (blob_path_id _ _ Hp) as ->.
    destruct (s_blobs s !! md_blob_token md) as [b|] eqn:Hb; intros [= <- <-]; exists md; (split; [done|]);
      rewrite Hp; cbn; unfold get, gets, mbind, M_bind; cbn; rewrite lookup_insert_eq, ?Hb; [done|].
    by rewrite delete_id.
Qed.

Lemma blobs_size_insert (m : gmap pystr pybytes) token blob :
  m !! token = None ->
  sum_by zlen (map_to_list (<[token := blob]> m)).*2 = zlen blob + sum_by zlen (map_to_list m).*2.
Proof.
  intros Hn. rewrite (sum_by_perm _ _ (blob :: (map_to_list m).*2)); [by rewrite sum_by_cons|].
  by rewrite map_to_list_insert.
Qed.

(** C10 (quota_is_respected): A put never takes the files on disk (blobs,
    temporaries and quarantine) over the quota, at any point where it may be
    cut short, unless they were over it already. *)
Theorem quota_is_respected fault e s :
  content_bytes_on_disk (put sha256 quota_bytes max_blob_bytes fault e s).1
  <= Z.max quota_bytes (content_bytes_on_disk s).
Proof.
  assert (Hs : content_bytes_on_disk s <= Z.max quota_bytes (content_bytes_on_disk s)) by lia.
  apply (wp_elim _ (fun _ s' => content_bytes_on_disk s' <= Z.max quota_bytes (content_bytes_on_disk s))).
  unfold put. apply wp_bind, wp_lift. destruct (encode_envelope e) as [blob|]; [|done].
  apply wp_bind, wp_require; intros _; [|done]. apply wp_bind, wp_lift.
  destruct (blob_token _) as [token|]; [|done]. apply wp_bind, wp_gets.
  destruct (s_records s !! env_record_id e) as [[old st]|]; [case_bool_decide; [by apply wp_ret|by apply wp_raise]|].
  apply wp_bind, wp_gets, wp_bind, wp_require; intros Hq; [|done]. btauto_hyps.
  apply wp_bind, wp_gets, wp_bind, wp_try_except, wp_bind, wp_require; intros _; [|by apply wp_raise].
  eapply (wp_mono _ (fun _ s' => content_bytes_on_disk s' <= Z.max quota_bytes (content_bytes_on_disk s)));
    [|intros [] ? ?; [by apply wp_ret|by apply wp_raise]].
  pose proof (zlen_nonneg blob). unfold content_bytes_on_disk in *.
  unfold put_steps. apply wp_bind, wp_modify, wp_bind, wp_require; intros _; [|done].
  unfold write_blob_atomically. apply wp_bind, wp_bind, wp_lift. destruct (blob_path _) as [p|]; [|done].
  apply wp_bind, wp_gets, wp_bind, wp_require; intros Hn; [|done].
  btauto_hyps. cbn in Hn. apply wp_bind, wp_modify, wp_bind, wp_require; intros _; [|cbn; rewrite sum_by_cons; lia].
  apply wp_modify. cbn. apply wp_bind, wp_require; intros _; [apply wp_modify|]; cbn;
    rewrite blobs_size_insert by done; lia.
Qed.

(** [quarantined_put_acknowledged]: A put of an envelope whose stored copy
    was found corrupt and quarantined is acknowledged although nothing is
    stored: [_put_sync] compares digests with the row without looking at its
    state, so the caller gets a reference and [get] still finds nothing. *)
Theorem quarantined_put_acknowledged fault e blob md s :
  encode_envelope e = Ok blob -> zlen blob <= max_blob_bytes ->
  s_records s !! env_record_id e = Some (md, QUARANTINED) -> md_blob_digest md = sha256 blob ->
  (exists ref, put sha256 quota_bytes max_blob_bytes fault e s = (s, Ok ref)) /\
  get sha256 max_blob_bytes (env_record_id e) s = (s, Ok None).
Proof.
  intros He Hl Hr Hd. pose proof (codec_encode_v4 _ _ He) as Hv. split.
  - unfold put, lift, require, gets, mbind, M_bind. cbn. rewrite He. cbn.
    rewrite (proj2 (Z.ltb_ge _ _)) by done. cbn. unfold blob_token. rewrite Hv, Hr.
    rewrite bool_decide_true by done. by eexists.
  - unfold get, gets, mbind, M_bind. cbn. by rewrite Hr.
Qed.
End Operations.

(** ** Witnesses, with the program's own blob format *)

#[export] Instance toy_codec : EnvelopeCodec :=
  blob_codec (fun _ => Raise ValueError) (fun _ => Raise ValueError).

Definition toy_id (n : Z) : uuid := 2 ^ 63 + 4 * 2 ^ 76 + n.
Definition toy_envelope (n : Z) : EncryptedRecordEnvelope :=
  {| env_record_id := toy_id n; env_generation := 1; env_configuration_revision := u "rev";
     env_schema_version := 1; env_algorithm := u "aead";
     env_key := {| key_id := u "k"; key_provider_id := u "p"; key_version := 1 |};
     env_plaintext_frame_sizes := [4]; env_wrapped_data_key := [1]; env_nonce := [2];
     env_ciphertext := [n]; env_associated_data_digest := [3];
     env_created_at := {| dt_wall := us_per_day; dt_offset := 0 |} |}.

Definition no_fault (p : fault_point) : bool := false.
Definition fault_only (q p : fault_point) : bool :=
  match q, p with
  | AfterWriteIntent, AfterWriteIntent | AfterTempFsync, AfterTempFsync
  | AfterBlobRename, AfterBlobRename | AfterDeleteMark, AfterDeleteMark => true
  | _, _ => false
  end.

Local Abbreviation toy_put := (put (fun b => b) 4096 1024).
Local Abbreviation toy_recover := (recover (fun b => b) 1024).
Local Abbreviation toy_wf := (wf (fun b => b) 1024).

(** A put that dies after the rename is completed by recovery; one that dies
    before it leaves nothing. *)
Example crash_points :
  map (fun q => (visible (fun b => b) 1024
                  (toy_recover (toy_put (fault_only q) (toy_envelope 1) empty_store).1).1 (toy_id 1)))
      [AfterWriteIntent; AfterTempFsync; AfterBlobRename]
  = [None; None; Some (toy_envelope 1)].
Proof. vm_compute. reflexivity. Qed.

Lemma put_is_atomic_witness :
  toy_wf empty_store /\
  exists s1 r, toy_put (fault_only AfterBlobRename) (toy_envelope 1) empty_store = (s1, r) /\
    toy_wf (toy_recover s1).1.
Proof.
  split; [apply empty_wf|].
  pose proof (put_is_atomic (fun b => b) 4096 1024 (fault_only AfterBlobRename) (toy_envelope 1)
    empty_store (empty_wf _ _) eq_refl) as H.
  destruct (put _ _ _ _ _ _) as [s1 r]. exists s1, r. split; [reflexivity|]. exact (proj1 H).
Defined.

Definition toy_s1 : store := (toy_put no_fault (toy_envelope 1) empty_store).1.
Definition toy_history : list ((fault_point -> bool) * storage_op) :=
  [(fault_only AfterTempFsync, SPut (toy_envelope 2)); (no_fault, SPut (toy_envelope 3));
   (fault_only AfterDeleteMark, SDelete (toy_id 3)); (no_fault, SRecover)].

Fixpoint run_history ls s : store :=
  match ls with [] => s | l :: ls' => run_history ls' (run_op (fun b => b) 4096 1024 l.1 l.2 s) end.

Lemma run_history_steps ls s :
  Forall (fun l => op_valid l.2) ls -> steps (storage_step (fun b => b) 4096 1024) s ls (run_history ls s).
Proof.
  intros Hv. revert s. induction Hv as [|l ls Hl Hv IH]; intros s; econstructor; [by split|apply IH].
Qed.

Lemma toy_history_valid : Forall (fun l => op_valid l.2) toy_history.
Proof. repeat constructor. Qed.

Lemma toy_s1_wf : toy_wf toy_s1.
Proof.
  apply (history_wf (fun b => b) 4096 1024 empty_store [(no_fault, SPut (toy_envelope 1))]);
    [apply empty_wf|]. econstructor; [split; reflexivity|constructor].
Qed.

Lemma acknowledged_is_durable_witness :
  toy_wf empty_store /\
  let s3 := (toy_recover (run_history toy_history toy_s1)).1 in
  get (fun b => b) 1024 (toy_id 1) s3 = (s3, Ok (Some (toy_envelope 1))).
Proof.
  split; [apply empty_wf|].
  apply (acknowledged_is_durable (fun b => b) 4096 1024 no_fault (toy_envelope 1) empty_store toy_s1
    {| ref_record_id := toy_id 1; ref_storage_id := take 2 (uuid_hex (toy_id 1)) ++ u "/" ++
       uuid_hex (toy_id 1) ++ u ".lre"; ref_schema_version := 1 |} toy_history).
  - apply empty_wf.
  - reflexivity.
  - apply lookup_empty.
  - rewrite (surjective_pairing (toy_put _ _ _)). by f_equal.
  - apply run_history_steps, toy_history_valid.
  - repeat constructor; discriminate.
Defined.

Lemma deleted_stays_deleted_witness :
  toy_wf toy_s1 /\ is_Some (s_records toy_s1 !! toy_id 1) /\
  exists s1 r, delete_record no_fault (toy_id 1) toy_s1 = (s1, r) /\
    get (fun b => b) 1024 (toy_id 1) (run_history toy_history s1) = (run_history toy_history s1, Ok None).
Proof.
  assert (Hs : is_Some (s_records toy_s1 !! toy_id 1)).
  { apply (bool_decide_eq_true_1 (is_Some _)). vm_compute. reflexivity. }
  split; [exact toy_s1_wf|]. split; [exact Hs|].
  pose proof (deleted_stays_deleted (fun b => b) 4096 1024 no_fault (toy_id 1) toy_s1 toy_s1_wf Hs) as H.
  destruct (delete_record no_fault (toy_id 1) toy_s1) as [s1 r]. exists s1, r. split; [reflexivity|].
  refine (proj1 (proj2 H toy_history (run_history toy_history s1) (run_history_steps _ _ toy_history_valid) _)).
  repeat constructor; cbn; try discriminate; intros e He; injection He as <-; vm_compute; discriminate.
Defined.

(** The first envelope's blob is corrupted on disk and read: its row is now
    quarantined. *)
Definition toy_corrupted : store :=
  let token := take 2 (uuid_hex (toy_id 1)) ++ u "/" ++ uuid_hex (toy_id 1) ++ u ".lre" in
  (get (fun b => b) 1024 (toy_id 1) (set_blobs (<[token := [0] ]> (s_blobs toy_s1)) toy_s1)).1.

Definition toy_quarantined (blob : pybytes) (s : store) : bool :=
  match s_records s !! toy_id 1 with
  | Some (md, QUARANTINED) => bool_decide (md_blob_digest md = blob)
  | _ => false
  end.

Definition toy_blob : pybytes :=
  match encode_envelope (toy_envelope 1) with Ok b => b | Raise _ => [] end.

Lemma toy_encoded : encode_envelope (toy_envelope 1) = Ok toy_blob.
Proof. vm_compute. reflexivity. Qed.

Lemma quarantined_put_acknowledged_witness :
  exists blob md, encode_envelope (toy_envelope 1) = Ok blob /\
    s_records toy_corrupted !! toy_id 1 = Some (md, QUARANTINED) /\
    get (fun b => b) 1024 (toy_id 1) toy_corrupted = (toy_corrupted, Ok None).
Proof.
  assert (Hq : toy_quarantined toy_blob toy_corrupted = true) by (vm_compute; reflexivity).
  unfold toy_quarantined in Hq. destruct (s_records toy_corrupted !! toy_id 1) as [[md []]|] eqn:Hr; try discriminate Hq.
  apply bool_decide_eq_true_1 in Hq. exists toy_blob, md.
  split; [exact toy_encoded|]. split; [reflexivity|].
  refine (proj2 (quarantined_put_acknowledged (fun b => b) 4096 1024 no_fault (toy_envelope 1) _ md
    toy_corrupted toy_encoded _ Hr Hq)).
  vm_compute. discriminate.
Defined.
