(* ===== verification/Catalog.v ===== *)
(** * Catalog: the ordered view of the stored records.

    Models the queries of [storage/operations.py] ([_stats_sync],
    [_page_ready_sync], [_list_candidates_sync]) and the rows they return
    ([ports/storage.py]), with the theorem that walking the pages visits every
    ready record once, in order.  Days are ordered as their ISO text and ids as
    their canonical text. *)

From stdpp Require Import sorting.
From S2P Require Import Prelude Storage StorageProps.

(** [ports/storage.py] *)
Record CatalogEntry := { ce_record_id : uuid; ce_day_bucket : Z; ce_blob_bytes : Z }.
#[export] Instance CatalogEntry_eq_dec : EqDecision CatalogEntry.
Proof. solve_decision. Defined.

Record CatalogPage := { cp_entries : list CatalogEntry; cp_complete : bool }.
Record StorageUsageReport := { su_ready_records : Z; su_ready_bytes : Z }.

(** [ORDER BY day_bucket, record_id] *)
Definition key_lt (d1 i1 d2 i2 : Z) : bool := (d1 <? d2) || ((d1 =? d2) && (i1 <? i2)).
Definition entry_lt (a b : CatalogEntry) : bool :=
  key_lt (ce_day_bucket a) (ce_record_id a) (ce_day_bucket b) (ce_record_id b).
Definition entry_le (a b : CatalogEntry) : Prop := entry_lt b a = false.
#[export] Instance entry_le_dec : RelDecision entry_le.
Proof. intros a b. unfold entry_le. apply _. Defined.

Definition entry_of (row : uuid * metadata) : CatalogEntry :=
  {| ce_record_id := row.1; ce_day_bucket := md_day_bucket row.2; ce_blob_bytes := md_blob_bytes row.2 |}.

(** The ready rows, in canonical order. *)
Definition ready_entries (s : store) : list CatalogEntry :=
  merge_sort entry_le (entry_of <$> rows_in READY s).

Definition stats (s : store) : StorageUsageReport :=
  {| su_ready_records := zlen (rows_in READY s);
     su_ready_bytes := sum_by (fun r => md_blob_bytes r.2) (rows_in READY s) |}.

Definition PAGE_LIMIT : Z := 10000.

(** The keyset condition, when both halves of the key are given. *)
Definition after_key (after_day : option Z) (after_id : option uuid) (e : CatalogEntry) : bool :=
  match after_day, after_id with
  | Some d, Some i => key_lt d i (ce_day_bucket e) (ce_record_id e)
  | _, _ => true
  end.

Definition page_ready (after_day : option Z) (after_id : option uuid) (limit : Z)
    : M store CatalogPage := fun s =>
  if (limit <=? 0) || (PAGE_LIMIT <? limit) then (s, Raise (StorageFailure IO_FAILURE))
  else
    let rows := take (Z.to_nat (limit + 1)) (List.filter (after_key after_day after_id) (ready_entries s)) in
    (s, Ok {| cp_entries := take (Z.to_nat limit) rows; cp_complete := zlen rows <=? limit |}).

Definition row_le (a b : uuid * metadata) : Prop := entry_le (entry_of a) (entry_of b).
#[export] Instance row_le_dec : RelDecision row_le.
Proof. intros a b. unfold row_le. apply _. Defined.

(** [DayRangeQuery] and [_list_candidates_sync]; a record comes with its key. *)
Definition list_candidates (start_day end_day limit : Z) (s : store)
    : result (list (uuid * metadata)) :=
  _ ← throw_if (end_day <? start_day) ValueError;
  _ ← throw_if (negb ((1 <=? limit) && (limit <=? 10000))) ValueError;
  let rows := filter (fun r => start_day <= md_day_bucket r.2 <= end_day) (rows_in READY s) in
  mret (take (Z.to_nat limit) (merge_sort row_le rows)).

(** ** The canonical order is total and the keys are distinct *)

Lemma key_lt_irrefl d i : key_lt d i d i = false.
Proof. unfold key_lt. rewrite !Z.ltb_irrefl, Z.eqb_refl. done. Qed.

Lemma key_lt_spec d1 i1 d2 i2 : key_lt d1 i1 d2 i2 = true <-> d1 < d2 \/ (d1 = d2 /\ i1 < i2).
Proof. unfold key_lt. by rewrite orb_true_iff, andb_true_iff, !Z.ltb_lt, Z.eqb_eq. Qed.

Lemma key_lt_nspec d1 i1 d2 i2 : key_lt d1 i1 d2 i2 = false <-> d2 < d1 \/ (d1 = d2 /\ i2 <= i1).
Proof. rewrite <- not_true_iff_false, key_lt_spec. lia. Qed.

#[export] Instance entry_le_trans : Transitive entry_le.
Proof. intros a b c. unfold entry_le, entry_lt. rewrite !key_lt_nspec. lia. Qed.

#[export] Instance entry_le_total : Total entry_le.
Proof. intros a b. unfold entry_le, entry_lt. rewrite !key_lt_nspec. lia. Qed.

Lemma ready_entries_perm s : ready_entries s ≡ₚ entry_of <$> rows_in READY s.
Proof. apply merge_sort_Permutation. Qed.

Lemma ready_entries_sorted s : StronglySorted entry_le (ready_entries s).
Proof. apply (StronglySorted_merge_sort entry_le). Qed.

Lemma ready_entries_sorted_lt s : StronglySorted (fun a b => entry_lt a b = true) (ready_entries s).
Proof.
  pose proof (ready_entries_sorted s) as Hs.
  assert (NoDup (ce_record_id <$> ready_entries s)) as Hnd.
  { rewrite ready_entries_perm, <- list_fmap_compose. exact (rows_in_keys READY s). }
  revert Hnd. induction Hs as [|a l Hs IH Ha]; [constructor|]. intros [Hn Hnd]%NoDup_cons.
  constructor; [by apply IH|]. rewrite Forall_forall in Ha |- *. intros b Hb. specialize (Ha b Hb).
  revert Ha. unfold entry_le, entry_lt. rewrite key_lt_nspec, key_lt_spec.
  intros [?|[? ?]]; [lia|]. assert (ce_record_id a ≠ ce_record_id b); [|lia].
  intros E. apply Hn. rewrite E. by apply list_elem_of_fmap_2.
Qed.

(** Past the [k]-th entry of the canonical order there is the rest of it. *)
Lemma filter_after l k e :
  StronglySorted (fun a b => entry_lt a b = true) l -> l !! k = Some e ->
  List.filter (after_key (Some (ce_day_bucket e)) (Some (ce_record_id e))) l = drop (S k) l.
Proof.
  intros Hs. revert k. induction Hs as [|a l Hs IH Ha]; intros k Hk; [done|].
  assert (Hall : forall l', (forall b, b ∈ l' -> entry_lt e b = true) ->
    List.filter (after_key (Some (ce_day_bucket e)) (Some (ce_record_id e))) l' = l').
  { intros l' Hl'. induction l' as [|b l' IH']; [done|]. cbn.
    assert (Hb : entry_lt e b = true) by (apply Hl'; constructor). unfold entry_lt in Hb. rewrite Hb.
    f_equal. apply IH'. intros x Hx. apply Hl'. by constructor. }
  rewrite Forall_forall in Ha. destruct k as [|k]; cbn in Hk.
  - injection Hk as ->. cbn. rewrite key_lt_irrefl. by apply Hall.
  - cbn. assert (He : entry_lt a e = true) by (apply Ha; by eapply list_elem_of_lookup_2).
    assert (key_lt (ce_day_bucket e) (ce_record_id e) (ce_day_bucket a) (ce_record_id a) = false) as ->.
    { revert He. unfold entry_lt. rewrite key_lt_spec, key_lt_nspec. lia. }
    by rewrite (IH k Hk).
Qed.

(** Where a walk of the pages is: [k] entries have been seen. *)
Definition cursor_at (s : store) (k : nat) (after_day : option Z) (after_id : option uuid) : Prop :=
  List.filter (after_key after_day after_id) (ready_entries s) = drop k (ready_entries s).

Lemma cursor_start s : cursor_at s 0 None None.
Proof. unfold cursor_at. rewrite drop_0. induction (ready_entries s) as [|e l IH]; cbn; [done|]. by rewrite IH. Qed.

(** A page at [k]: the next entries; when more remain, its last entry is the
    cursor of what follows, so no entry is skipped or seen twice. *)
Lemma page_ready_at s k d i limit :
  1 <= limit <= PAGE_LIMIT -> cursor_at s k d i ->
  let rest := drop k (ready_entries s) in
  page_ready d i limit s =
    (s, Ok {| cp_entries := take (Z.to_nat limit) rest; cp_complete := zlen rest <=? limit |}) /\
  ((zlen rest <=? limit) = false -> exists e,
     last (take (Z.to_nat limit) rest) = Some e /\
     cursor_at s (k + Z.to_nat limit) (Some (ce_day_bucket e)) (Some (ce_record_id e)) /\
     (k + Z.to_nat limit < length (ready_entries s))%nat).
Proof.
  intros Hl Hc rest. split.
  - unfold page_ready. rewrite (proj2 (Z.leb_gt _ _)), (proj2 (Z.ltb_ge _ _)) by lia. cbn [orb].
    rewrite Hc. fold rest. do 3 f_equal.
    + rewrite take_take. f_equal. lia.
    + unfold zlen. rewrite length_take. destruct (Z.leb_spec (Z.of_nat (length rest)) limit);
        destruct (Z.leb_spec (Z.of_nat (Z.to_nat (limit + 1) `min` length rest)) limit); lia.
  - intros Hlong%Z.leb_gt. unfold zlen in Hlong.
    assert (Hlen : length rest = (length (ready_entries s) - k)%nat) by (unfold rest; by rewrite length_drop).
    destruct (ready_entries s !! (k + (Z.to_nat limit - 1))%nat) as [e|] eqn:He.
    2:{ apply lookup_ge_None in He. lia. }
    exists e. split; [|split; [|lia]].
    + rewrite last_lookup, length_take. replace (pred (Z.to_nat limit `min` length rest)) with (Z.to_nat limit - 1)%nat by lia.
      rewrite lookup_take_lt by lia. unfold rest. by rewrite lookup_drop.
    + unfold cursor_at. rewrite (filter_after _ _ _ (ready_entries_sorted_lt s) He). f_equal. lia.
Qed.
