(* ===== verification/Policy.v ===== *)
(** * Policy: the capture policy engine and the boundary that enforces it.

    Models [domain/policy.py], [domain/metadata.py], [policy/engine.py],
    [policy/guard.py], [policy/enforcement.py] and [policy/capture_adapter.py].
    The engine's attributes are the record [engine]; a method holding [_lock]
    throughout is one atomic call.  Parameters stand for what the program gets
    from outside it: regular expressions ([re]), the IANA zone database
    ([ZoneInfo]), IP literals ([ipaddress]), the digest of an anonymous rule and
    [repr] of a float.  Durations are whole microseconds and an aware datetime
    has a fixed offset. *)

From S2P Require Import Prelude PyStr PyFloat.

(** ** [domain/policy.py] *)

Inductive PolicyOperation := SCREENSHOT | METADATA | OCR | INDEXING | SUMMARIZATION | REMOTE_PROVIDER.
#[export] Instance PolicyOperation_eq_dec : EqDecision PolicyOperation.
Proof. solve_decision. Defined.

Inductive PolicyPhase := PRE_CAPTURE | POST_CAPTURE | DOWNSTREAM.
#[export] Instance PolicyPhase_eq_dec : EqDecision PolicyPhase.
Proof. solve_decision. Defined.

(** Reason codes carry their module's prefix: other enumerations share names. *)
Inductive PolicyReasonCode :=
  | RC_PRIVACY_MODE | RC_SESSION_LOCKED | RC_EXPLICIT_RULE_DENY | RC_EXPLICIT_RULE_ALLOW
  | RC_TEMPORARY_SENSITIVE_WINDOW | RC_TEMPORARY_SENSITIVE_WORKSPACE | RC_SENSITIVE_APPLICATION
  | RC_SENSITIVE_TITLE | RC_SENSITIVE_WORKSPACE | RC_SENSITIVE_DOMAIN | RC_SOURCE_UNAVAILABLE
  | RC_REQUIRED_CONTEXT_MISSING | RC_MALFORMED_CONTEXT | RC_STALE_CONTEXT | RC_POLICY_CONFLICT
  | RC_DEFAULT_DENY | RC_DEFAULT_ALLOW | RC_REMOTE_NOT_AUTHORIZED | RC_POLICY_UNAVAILABLE
  | RC_STALE_AUTHORIZATION.
#[export] Instance PolicyReasonCode_eq_dec : EqDecision PolicyReasonCode.
Proof. solve_decision. Defined.

Definition reason_value (r : PolicyReasonCode) : pystr :=
  u match r with
    | RC_PRIVACY_MODE => "privacy-mode" | RC_SESSION_LOCKED => "session-locked"
    | RC_EXPLICIT_RULE_DENY => "explicit-rule-deny" | RC_EXPLICIT_RULE_ALLOW => "explicit-rule-allow"
    | RC_TEMPORARY_SENSITIVE_WINDOW => "temporary-sensitive-window"
    | RC_TEMPORARY_SENSITIVE_WORKSPACE => "temporary-sensitive-workspace"
    | RC_SENSITIVE_APPLICATION => "sensitive-application" | RC_SENSITIVE_TITLE => "sensitive-title"
    | RC_SENSITIVE_WORKSPACE => "sensitive-workspace" | RC_SENSITIVE_DOMAIN => "sensitive-domain"
    | RC_SOURCE_UNAVAILABLE => "source-unavailable"
    | RC_REQUIRED_CONTEXT_MISSING => "required-context-missing"
    | RC_MALFORMED_CONTEXT => "malformed-context" | RC_STALE_CONTEXT => "stale-context"
    | RC_POLICY_CONFLICT => "policy-conflict" | RC_DEFAULT_DENY => "default-deny"
    | RC_DEFAULT_ALLOW => "default-allow" | RC_REMOTE_NOT_AUTHORIZED => "remote-not-authorized"
    | RC_POLICY_UNAVAILABLE => "policy-unavailable" | RC_STALE_AUTHORIZATION => "stale-authorization"
    end.

Inductive SensitiveScope := SCOPE_WINDOW | SCOPE_WORKSPACE.
#[export] Instance SensitiveScope_eq_dec : EqDecision SensitiveScope.
Proof. solve_decision. Defined.

Record PolicyDecision := {
  pd_operation : PolicyOperation;
  pd_phase : PolicyPhase;
  pd_allowed : bool;
  pd_certain : bool;
  pd_reason_code : PolicyReasonCode;
  pd_policy_revision : pystr;
  pd_policy_generation : Z;
  pd_rule_id : option pystr }.

(** [PolicyDecision.__post_init__] *)
Definition make_decision (d : PolicyDecision) : result PolicyDecision :=
  _ ← require_nonempty (pd_policy_revision d);
  _ ← throw_if (pd_policy_generation d <=? 0) ValueError;
  _ ← match pd_rule_id d with Some r => require_nonempty r | None => mret tt end;
  mret d.

Record PolicyAuthorization := {
  pa_operation : PolicyOperation;
  pa_phase : PolicyPhase;
  pa_policy_revision : pystr;
  pa_policy_generation : Z;
  pa_capture_generation : Z }.

(** [PolicyAuthorization.__post_init__] *)
Definition make_authorization (a : PolicyAuthorization) : result PolicyAuthorization :=
  _ ← require_nonempty (pa_policy_revision a);
  _ ← throw_if (pa_policy_generation a <=? 0) ValueError;
  mret a.

Record PolicyStatus := {
  ps_policy_revision : pystr;
  ps_policy_generation : Z;
  ps_enabled_rule_count : Z;
  ps_privacy_mode : bool;
  ps_session_locked : bool;
  ps_healthy : bool;
  ps_last_error_code : option pystr }.

(** ** [domain/metadata.py] *)

(** A float is kept as what the engine can see of it: its [repr]. *)
Inductive MetadataScalar :=
  | MStr (s : pystr) | MInt (n : Z) | MFloat (repr : pystr) | MBool (b : bool) | MNone.
#[export] Instance MetadataScalar_eq_dec : EqDecision MetadataScalar.
Proof. solve_decision. Defined.

(** [str(value)] *)
Definition str_of_scalar (v : MetadataScalar) : pystr :=
  match v with
  | MStr s => s
  | MInt n => str_of_int n
  | MFloat r => r
  | MBool true => u "True"
  | MBool false => u "False"
  | MNone => u "None"
  end.

Record MetadataProvenance := {
  mp_source_id : pystr;
  mp_observed_at : datetime;
  mp_confidence : pyfloat;  (** [SourceConfidence.value] *)
  mp_adapter_revision : option pystr }.

Record ContextField := {
  cf_name : pystr;
  cf_value : MetadataScalar;
  cf_provenance : list MetadataProvenance }.

Record ContextMetadata := {
  cm_observed_at : datetime;
  cm_fields : list ContextField }.

(** [ContextMetadata.get] *)
Definition metadata_get (m : ContextMetadata) (name : pystr) : MetadataScalar :=
  match list_find (fun f => cf_name f = name) (cm_fields m) with
  | Some (_, f) => cf_value f
  | None => MNone
  end.

(** ** The configuration the engine reads ([config/models.py]) *)

Inductive RuleEffect := ALLOW | DENY.
#[export] Instance RuleEffect_eq_dec : EqDecision RuleEffect.
Proof. solve_decision. Defined.

Record PolicyTimeWindow := { tw_start : Z; tw_end : Z }.

Record CaptureRule := {
  cr_effect : RuleEffect;
  cr_rule_id : option pystr;
  cr_enabled : bool;
  cr_priority : Z;
  cr_operations : list PolicyOperation;
  cr_application : option pystr;
  cr_title_pattern : option pystr;
  cr_workspace : option pystr;
  cr_domain : option pystr;
  cr_include_subdomains : bool;
  cr_full_screen : option bool;
  cr_metadata_source : option pystr;
  cr_time_window : option PolicyTimeWindow }.

Record LocalRecallConfig := {
  lc_default_effect : RuleEffect;
  lc_timezone : pystr;
  lc_max_metadata_age : Z;
  lc_rules : list CaptureRule;
  lc_sensitive_applications : list pystr;
  lc_sensitive_workspaces : list pystr;
  lc_local_first : bool;             (** [profile is PrivacyProfile.LOCAL_FIRST] *)
  lc_remote_enabled : bool;
  lc_remote_providers : list bool    (** [provider.enabled] *) }.

(** ** [policy/engine.py] *)

Definition MAX_METADATA_TEXT : Z := 4096.
Definition BUILTIN_SENSITIVE_APPLICATIONS : list pystr :=
  u <$> ["1password"; "1password-browser"; "bitwarden"; "keepass"; "keepassxc"; "org.keepassxc.keepassxc"]%string.
Definition BUILTIN_LOCK_APPLICATIONS : list pystr :=
  u <$> ["i3lock"; "light-locker"; "slock"; "xsecurelock"]%string.
Definition BUILTIN_AUTH_APPLICATIONS : list pystr :=
  u <$> ["gcr-prompter"; "lxqt-policykit-agent"; "pinentry"; "pinentry-gtk-2"; "pinentry-qt";
         "polkit-gnome-authentication-agent-1"; "ssh-askpass"]%string.
Definition AUTH_TITLE_TOKENS : list pystr :=
  u <$> ["authentication required"; "enter password"; "password required"; "unlock keyring"]%string.
Definition capture_sensitive (op : PolicyOperation) : bool :=
  bool_decide (op ∈ [SCREENSHOT; OCR; INDEXING; SUMMARIZATION; REMOTE_PROVIDER]).

Inductive match_outcome := MATCH | NO_MATCH | UNKNOWN | MALFORMED.
#[export] Instance match_outcome_eq_dec : EqDecision match_outcome.
Proof. solve_decision. Defined.

Record PolicyEvaluationContext := {
  pc_metadata : ContextMetadata;
  pc_evaluated_at : datetime;
  pc_capture_generation : Z;
  pc_full_screen : option bool }.

Record TemporarySensitiveContext := {
  ts_scope : SensitiveScope;
  ts_value : MetadataScalar;
  ts_expires_at : datetime;
  ts_capture_generation : Z }.
#[export] Instance TemporarySensitiveContext_eq_dec : EqDecision TemporarySensitiveContext.
Proof. solve_decision. Defined.

(** *** Reading metadata *)

Definition scalar_field (m : ContextMetadata) (name : pystr) : MetadataScalar := metadata_get m name.

Definition string_field (m : ContextMetadata) (name : pystr) : option pystr :=
  match scalar_field m name with MStr s => Some s | _ => None end.

(** [isinstance(value, str | int)]: a [bool] is an [int]. *)
Definition sensitive_scope_value (scope : SensitiveScope) (m : ContextMetadata) : option MetadataScalar :=
  match scalar_field m (match scope with SCOPE_WINDOW => u "window.id" | SCOPE_WORKSPACE => u "workspace" end) with
  | MStr s => Some (MStr s)
  | MInt n => Some (MInt n)
  | MBool b => Some (MBool b)
  | _ => None
  end.

(** [==] on [str | int]: [True == 1]. *)
Definition int_of_scalar (v : MetadataScalar) : option Z :=
  match v with MInt n => Some n | MBool b => Some (if b then 1 else 0) | _ => None end.
Definition scalar_eqb (a b : MetadataScalar) : bool :=
  match a, b with
  | MStr s, MStr t => bool_decide (s = t)
  | _, _ => match int_of_scalar a, int_of_scalar b with Some x, Some y => x =? y | _, _ => false end
  end.

(** ["\x00" in s or len(s) > _MAX_METADATA_TEXT] *)
Definition malformed_text (s : pystr) : bool := bool_decide (0 ∈ s) || (MAX_METADATA_TEXT <? zlen s).

Definition match_of (b : bool) : match_outcome := if b then MATCH else NO_MATCH.

Definition match_text (m : ContextMetadata) (field_name expected : pystr) : match_outcome :=
  match scalar_field m field_name with
  | MNone => UNKNOWN
  | v => let text := str_of_scalar v in
         if malformed_text text then MALFORMED
         else match_of (bool_decide (casefold text = casefold expected))
  end.

Section Engine.
(** [ipaddress.ip_address(s).compressed], [re.compile] and [pattern.search],
    [ZoneInfo] and its UTC offset at a UTC instant, and the digest of
    [_anonymous_rule_id]. *)
Context {pattern zone : Type}.
Variable ip_compressed : pystr -> option pystr.
Variable re_compile : pystr -> result pattern.
Variable re_search : pattern -> pystr -> bool.
Variable zone_info : pystr -> result zone.
Variable zone_offset : zone -> Z -> Z.
Variable rule_digest : CaptureRule -> pystr.

Record CompiledRule := {
  co_rule : CaptureRule;
  co_rule_id : pystr;
  co_title_pattern : option pattern;
  co_normalized_domain : option pystr }.

Record engine := {
  e_configuration : LocalRecallConfig;
  e_revision : pystr;
  e_generation : Z;
  e_rules : list CompiledRule;
  e_timezone : zone;
  e_privacy_mode : bool;
  e_session_locked : bool;
  e_healthy : bool;
  e_last_error_code : option pystr;
  e_temporary : list TemporarySensitiveContext }.

(** *** Compiling rules *)

Definition valid_label (label : pystr) : bool :=
  (1 <=? zlen label) && (zlen label <=? 63) &&
  negb (bool_decide (head label = Some 45) || bool_decide (last label = Some 45)) &&
  forallb is_label_char label.

Definition normalize_domain (value : pystr) : result pystr :=
  let folded := casefold (strip value) in
  let normalized := if ends_with (u ".") folded then take (length folded - 1) folded else folded in
  _ ← throw_if (bool_decide (normalized = []) || (253 <? zlen normalized)) ValueError;
  match ip_compressed normalized with
  | Some compressed => mret (casefold compressed)
  | None =>
      let labels := split_on 46 normalized in
      _ ← throw_if (zlen labels <? 2) ValueError;
      _ ← throw_if (negb (forallb valid_label labels)) ValueError;
      mret normalized
  end.

Definition anonymous_rule_id (r : CaptureRule) : pystr := u "rule-" ++ rule_digest r.

Definition compile_rule (r : CaptureRule) : result CompiledRule :=
  pat ← match cr_title_pattern r with Some p => x ← re_compile p; mret (Some x) | None => mret None end;
  domain ← match cr_domain r with Some d => x ← normalize_domain d; mret (Some x) | None => mret None end;
  mret {| co_rule := r;
          co_rule_id := match cr_rule_id r with
                        | Some (c :: s) => c :: s
                        | _ => anonymous_rule_id r
                        end;
          co_title_pattern := pat; co_normalized_domain := domain |}.

Fixpoint compile_rules (rs : list CaptureRule) : result (list CompiledRule) :=
  match rs with
  | [] => mret []
  | r :: rs' => c ← compile_rule r; cs ← compile_rules rs'; mret (c :: cs)
  end.

Definition make_engine (configuration : LocalRecallConfig) (revision : pystr) : result engine :=
  _ ← require_nonempty revision;
  rules ← compile_rules (lc_rules configuration);
  tz ← zone_info (lc_timezone configuration);
  mret {| e_configuration := configuration; e_revision := revision; e_generation := 1;
          e_rules := rules; e_timezone := tz; e_privacy_mode := false;
          e_session_locked := false; e_healthy := true; e_last_error_code := None;
          e_temporary := [] |}.

(** *** State changes *)

Definition bump (e : engine) : engine :=
  {| e_configuration := e_configuration e; e_revision := e_revision e;
     e_generation := e_generation e + 1; e_rules := e_rules e; e_timezone := e_timezone e;
     e_privacy_mode := e_privacy_mode e; e_session_locked := e_session_locked e;
     e_healthy := e_healthy e; e_last_error_code := e_last_error_code e;
     e_temporary := e_temporary e |}.
Definition set_temporary (t : list TemporarySensitiveContext) (e : engine) : engine :=
  {| e_configuration := e_configuration e; e_revision := e_revision e;
     e_generation := e_generation e; e_rules := e_rules e; e_timezone := e_timezone e;
     e_privacy_mode := e_privacy_mode e; e_session_locked := e_session_locked e;
     e_healthy := e_healthy e; e_last_error_code := e_last_error_code e; e_temporary := t |}.
Definition set_flags (privacy locked healthy : bool) (err : option pystr) (e : engine) : engine :=
  {| e_configuration := e_configuration e; e_revision := e_revision e;
     e_generation := e_generation e; e_rules := e_rules e; e_timezone := e_timezone e;
     e_privacy_mode := privacy; e_session_locked := locked; e_healthy := healthy;
     e_last_error_code := err; e_temporary := e_temporary e |}.

Definition set_privacy_mode (active : bool) (e : engine) : engine :=
  if eqb (e_privacy_mode e) active then e
  else let e' := bump (set_flags active (e_session_locked e) (e_healthy e) (e_last_error_code e) e) in
       if active then set_temporary [] e' else e'.

Definition set_session_locked (locked : bool) (e : engine) : engine :=
  if eqb (e_session_locked e) locked then e
  else let e' := bump (set_flags (e_privacy_mode e) locked (e_healthy e) (e_last_error_code e) e) in
       if locked then set_temporary [] e' else e'.

(** [ttl] in microseconds; the marker expires on the evaluation's clock. *)
Definition mark_current_sensitive (scope : SensitiveScope) (c : PolicyEvaluationContext) (ttl : Z)
    : M engine unit :=
  _ ← require ((1000000 <=? ttl) && (ttl <=? 86400000000)) ValueError;
  match sensitive_scope_value scope (pc_metadata c) with
  | None => raise ValueError
  | Some value =>
      let marker := {| ts_scope := scope; ts_value := value;
        ts_expires_at := {| dt_wall := dt_wall (pc_evaluated_at c) + ttl;
                            dt_offset := dt_offset (pc_evaluated_at c) |};
        ts_capture_generation := pc_capture_generation c |} in
      modify (fun e => bump (set_temporary
        (filter (fun t => ts_scope t ≠ scope) (e_temporary e) ++ [marker]) e))
  end.

Definition clear_temporary_sensitive (scope : option SensitiveScope) (e : engine) : engine :=
  match scope with
  | None => match e_temporary e with [] => e | _ => bump (set_temporary [] e) end
  | Some s =>
      let retained := filter (fun t => ts_scope t ≠ s) (e_temporary e) in
      if bool_decide (retained = e_temporary e) then e else bump (set_temporary retained e)
  end.

Definition replace_policy (configuration : LocalRecallConfig) (revision : pystr) : M engine unit :=
  _ ← lift (require_nonempty revision);
  match (rules ← compile_rules (lc_rules configuration);
         tz ← zone_info (lc_timezone configuration); mret (rules, tz)) with
  | Raise x =>
      _ ← modify (fun e => bump (set_flags (e_privacy_mode e) (e_session_locked e) false
                                   (Some (u "policy-reload-invalid")) e));
      raise x
  | Ok (rules, tz) =>
      modify (fun e =>
        {| e_configuration := configuration; e_revision := revision;
           e_generation := e_generation e + 1; e_rules := rules; e_timezone := tz;
           e_privacy_mode := e_privacy_mode e; e_session_locked := e_session_locked e;
           e_healthy := true; e_last_error_code := None; e_temporary := [] |})
  end.

Definition policy_status (e : engine) : PolicyStatus :=
  {| ps_policy_revision := e_revision e; ps_policy_generation := e_generation e;
     ps_enabled_rule_count := zlen (filter (fun r => cr_enabled (co_rule r) = true) (e_rules e));
     ps_privacy_mode := e_privacy_mode e; ps_session_locked := e_session_locked e;
     ps_healthy := e_healthy e; ps_last_error_code := e_last_error_code e |}.

(** *** Evaluation *)

(** [_snapshot]: expired markers go away, and that is a change of policy.
    The engine it returns is the snapshot. *)
Definition snapshot_engine (now : datetime) (e : engine) : engine :=
  let temporary := filter (fun t => dt_utc now < dt_utc (ts_expires_at t)) (e_temporary e) in
  if bool_decide (temporary = e_temporary e) then e else bump (set_temporary temporary e).

Definition validate_context (s : engine) (c : PolicyEvaluationContext) : option PolicyReasonCode :=
  let m := pc_metadata c in
  let age := dt_utc (pc_evaluated_at c) - dt_utc (cm_observed_at m) in
  if bool_decide (cm_fields m = []) then Some RC_SOURCE_UNAVAILABLE
  else if (age <? 0) || (lc_max_metadata_age (e_configuration s) <? age) then Some RC_STALE_CONTEXT
  else if existsb (fun f => bool_decide (cf_provenance f = []) ||
                     match cf_value f with MStr t => malformed_text t | _ => false end) (cm_fields m)
  then Some RC_MALFORMED_CONTEXT
  else None.

Definition in_window (w : PolicyTimeWindow) (t : Z) : bool :=
  if tw_start w <? tw_end w then (tw_start w <=? t) && (t <? tw_end w)
  else (tw_start w <=? t) || (t <? tw_end w).

(** [evaluated_at.astimezone(tz)], its wall-clock time of day *)
Definition local_time (s : engine) (now : datetime) : Z :=
  (dt_utc now + zone_offset (e_timezone s) (dt_utc now)) mod us_per_day.

Definition domain_matches (include_subdomains : bool) (rule_domain domain : pystr) : bool :=
  bool_decide (domain = rule_domain) ||
  (include_subdomains && ends_with (u "." ++ rule_domain) domain).

(** One outcome per selector the rule has. *)
Definition selector_outcomes (r : CompiledRule) (s : engine) (c : PolicyEvaluationContext)
    : list match_outcome :=
  let rule := co_rule r in
  let m := pc_metadata c in
  match cr_application rule with Some a => [match_text m (u "application") a] | None => [] end
  ++ match co_title_pattern r with
     | Some p =>
         [match string_field m (u "window.title") with
          | None => UNKNOWN
          | Some title => if malformed_text title then MALFORMED else match_of (re_search p title)
          end]
     | None => []
     end
  ++ match cr_workspace rule with Some w => [match_text m (u "workspace") w] | None => [] end
  ++ match co_normalized_domain r with
     | Some d =>
         [match string_field m (u "url.domain") with
          | None => UNKNOWN
          | Some raw =>
              match normalize_domain raw with
              | Raise _ => MALFORMED
              | Ok domain => match_of (domain_matches (cr_include_subdomains rule) d domain)
              end
          end]
     | None => []
     end
  ++ match cr_full_screen rule with
     | Some b => [match pc_full_screen c with None => UNKNOWN | Some x => match_of (eqb x b) end]
     | None => []
     end
  ++ match cr_metadata_source rule with
     | Some src =>
         let ids := mjoin ((fun f => mp_source_id <$> cf_provenance f) <$> cm_fields m) in
         [if bool_decide (ids = []) then UNKNOWN else match_of (bool_decide (src ∈ ids))]
     | None => []
     end
  ++ match cr_time_window rule with
     | Some w => [match_of (in_window w (local_time s (pc_evaluated_at c)))]
     | None => []
     end.

Definition combine_outcomes (l : list match_outcome) : match_outcome :=
  if bool_decide (MALFORMED ∈ l) then MALFORMED
  else if bool_decide (NO_MATCH ∈ l) then NO_MATCH
  else if bool_decide (UNKNOWN ∈ l) then UNKNOWN
  else MATCH.

Definition match_rule (r : CompiledRule) (s : engine) (c : PolicyEvaluationContext) : match_outcome :=
  combine_outcomes (selector_outcomes r s c).

(** Both capture generation and the scope's current value agree. *)
Definition marker_applies (c : PolicyEvaluationContext) (t : TemporarySensitiveContext) : bool :=
  (ts_capture_generation t =? pc_capture_generation c) &&
  match sensitive_scope_value (ts_scope t) (pc_metadata c) with
  | Some v => scalar_eqb v (ts_value t)
  | None => false
  end.

Fixpoint temporary_scan (l : list TemporarySensitiveContext) (c : PolicyEvaluationContext)
    : option PolicyReasonCode :=
  match l with
  | [] => None
  | t :: l' =>
      if marker_applies c t
      then Some (match ts_scope t with
                 | SCOPE_WINDOW => RC_TEMPORARY_SENSITIVE_WINDOW
                 | SCOPE_WORKSPACE => RC_TEMPORARY_SENSITIVE_WORKSPACE
                 end)
      else temporary_scan l' c
  end.
Definition temporary_reason (s : engine) (c : PolicyEvaluationContext) : option PolicyReasonCode :=
  temporary_scan (e_temporary s) c.

Definition builtin_sensitive_reason (s : engine) (c : PolicyEvaluationContext)
    : option (PolicyReasonCode * pystr) :=
  let m := pc_metadata c in
  let application := casefold <$> string_field m (u "application") in
  let among l := match application with Some a => bool_decide (a ∈ l) | None => false end in
  if among BUILTIN_SENSITIVE_APPLICATIONS then Some (RC_SENSITIVE_APPLICATION, u "builtin-password-manager")
  else if among BUILTIN_LOCK_APPLICATIONS then Some (RC_SESSION_LOCKED, u "builtin-lock-screen")
  else if among BUILTIN_AUTH_APPLICATIONS then Some (RC_SENSITIVE_APPLICATION, u "builtin-auth-dialog")
  else if match string_field m (u "window.title") with
          | Some t => existsb (fun token => is_in token (casefold t)) AUTH_TITLE_TOKENS
          | None => false
          end
  then Some (RC_SENSITIVE_TITLE, u "builtin-auth-title")
  else if among (casefold <$> lc_sensitive_applications (e_configuration s))
  then Some (RC_SENSITIVE_APPLICATION, u "configured-sensitive-application")
  else if match scalar_field m (u "workspace") with
          | MNone => false
          | v => bool_decide (casefold (str_of_scalar v) ∈ casefold <$> lc_sensitive_workspaces (e_configuration s))
          end
  then Some (RC_SENSITIVE_WORKSPACE, u "configured-sensitive-workspace")
  else None.

Definition remote_authorized (s : engine) : bool :=
  let k := e_configuration s in
  lc_local_first k && lc_remote_enabled k && existsb (fun b => b) (lc_remote_providers k).

Definition decide_as (s : engine) (op : PolicyOperation) (ph : PolicyPhase) (allowed certain : bool)
    (r : PolicyReasonCode) (rule_id : option pystr) : result PolicyDecision :=
  make_decision {| pd_operation := op; pd_phase := ph; pd_allowed := allowed; pd_certain := certain;
    pd_reason_code := r; pd_policy_revision := e_revision s;
    pd_policy_generation := e_generation s; pd_rule_id := rule_id |}.
Definition deny (s : engine) op ph r (certain : bool) rule_id := decide_as s op ph false certain r rule_id.
Definition allow (s : engine) op ph r rule_id := decide_as s op ph true true r rule_id.

(** [(-priority, rule_id)], compared as tuples *)
Definition stronger (a b : CompiledRule) : bool :=
  let pa := - cr_priority (co_rule a) in
  let pb := - cr_priority (co_rule b) in
  (pa <? pb) || ((pa =? pb) && str_ltb (co_rule_id a) (co_rule_id b)).

(** [min(rules, key=...)]: the first of the smallest *)
Fixpoint strongest (r : CompiledRule) (rs : list CompiledRule) : CompiledRule :=
  match rs with
  | [] => r
  | r' :: rs' => strongest (if stronger r' r then r' else r) rs'
  end.

Definition applies_to (op : PolicyOperation) (r : CompiledRule) : bool :=
  cr_enabled (co_rule r) && bool_decide (op ∈ cr_operations (co_rule r)).

(** The loop over the rules: stopped by the first undecided one, or the
    matching denies and allows. *)
Fixpoint scan_rules (op : PolicyOperation) (s : engine) (c : PolicyEvaluationContext)
    (rs denies allows : list CompiledRule)
    : (PolicyReasonCode * pystr) + (list CompiledRule * list CompiledRule) :=
  match rs with
  | [] => inr (denies, allows)
  | r :: rs' =>
      if negb (applies_to op r) then scan_rules op s c rs' denies allows
      else match match_rule r s c with
           | MALFORMED => inl (RC_MALFORMED_CONTEXT, co_rule_id r)
           | UNKNOWN => inl (RC_REQUIRED_CONTEXT_MISSING, co_rule_id r)
           | NO_MATCH => scan_rules op s c rs' denies allows
           | MATCH =>
               match cr_effect (co_rule r) with
               | DENY => scan_rules op s c rs' (denies ++ [r]) allows
               | ALLOW => scan_rules op s c rs' denies (allows ++ [r])
               end
           end
  end.

Definition evaluate_snapshot (s : engine) (op : PolicyOperation) (ph : PolicyPhase)
    (c : PolicyEvaluationContext) : result PolicyDecision :=
  if negb (e_healthy s) then deny s op ph RC_POLICY_UNAVAILABLE true None
  else if e_privacy_mode s then deny s op ph RC_PRIVACY_MODE true None
  else if e_session_locked s then deny s op ph RC_SESSION_LOCKED true None
  else
    match (if capture_sensitive op then validate_context s c else None) with
    | Some r => deny s op ph r false None
    | None =>
        if bool_decide (op = REMOTE_PROVIDER) && negb (remote_authorized s)
        then deny s op ph RC_REMOTE_NOT_AUTHORIZED true None
        else
          match scan_rules op s c (e_rules s) [] [] with
          | inl (r, id) => deny s op ph r false (Some id)
          | inr (d :: ds, _) => deny s op ph RC_EXPLICIT_RULE_DENY true (Some (co_rule_id (strongest d ds)))
          | inr ([], allows) =>
              match temporary_reason s c with
              | Some r => deny s op ph r true None
              | None =>
                  match builtin_sensitive_reason s c with
                  | Some (r, id) => deny s op ph r true (Some id)
                  | None =>
                      match allows with
                      | a :: rest => allow s op ph RC_EXPLICIT_RULE_ALLOW (Some (co_rule_id (strongest a rest)))
                      | [] =>
                          match lc_default_effect (e_configuration s) with
                          | ALLOW => allow s op ph RC_DEFAULT_ALLOW None
                          | DENY => deny s op ph RC_DEFAULT_DENY true None
                          end
                      end
                  end
              end
          end
    end.

Definition evaluate (op : PolicyOperation) (ph : PolicyPhase) (c : PolicyEvaluationContext)
    : M engine PolicyDecision :=
  _ ← modify (snapshot_engine (pc_evaluated_at c));
  s ← gets (fun e => e);
  lift (evaluate_snapshot s op ph c).

(** The exception's text is the reason, with the rule in parentheses. *)
Definition denial_text (d : PolicyDecision) : pystr :=
  u "policy denied: " ++ reason_value (pd_reason_code d) ++
  match pd_rule_id d with Some r => u " (" ++ r ++ u ")" | None => [] end.

Definition authorize (op : PolicyOperation) (ph : PolicyPhase) (c : PolicyEvaluationContext)
    : M engine PolicyAuthorization :=
  d ← evaluate op ph c;
  if negb (pd_allowed d) || negb (pd_certain d) then raise (PermissionError (denial_text d))
  else lift (make_authorization
    {| pa_operation := op; pa_phase := ph; pa_policy_revision := pd_policy_revision d;
       pa_policy_generation := pd_policy_generation d;
       pa_capture_generation := pc_capture_generation c |}).

Definition is_authorization_current (a : PolicyAuthorization) (capture_generation : option Z)
    (e : engine) : bool :=
  if e_privacy_mode e || e_session_locked e || negb (e_healthy e) then false
  else if negb (bool_decide (pa_policy_revision a = e_revision e)) then false
  else if negb (pa_policy_generation a =? e_generation e) then false
  else match capture_generation with
       | None => true
       | Some g => pa_capture_generation a =? g
       end.

(** ** The enforcement boundary

    An action is any call on the state of the process, [T], the engine
    included. *)
Section Boundary.
Context {T A : Type} (engine_of : T -> engine) (put_engine : engine -> T -> T).

Definition on_engine {B} (m : M engine B) : M T B := zoom engine_of put_engine m.

(** [PolicyGuard.require_allowed] *)
Definition require_allowed (d : PolicyDecision) : result unit :=
  if pd_allowed d && pd_certain d then Ok tt
  else Raise (PermissionError (u "policy denied: " ++ reason_value (pd_reason_code d))).

(** [PolicyGuard.invoke] *)
Definition invoke (a : PolicyAuthorization) (capture_generation : Z) (action : M T A) : M T A :=
  current ← gets (fun t => is_authorization_current a (Some capture_generation) (engine_of t));
  if negb current then raise (PermissionError (u "policy denied: stale-authorization"))
  else action.

Definition boundary_capture (c : PolicyEvaluationContext) (action : M T A) : M T (PolicyAuthorization * A) :=
  a ← on_engine (authorize SCREENSHOT PRE_CAPTURE c);
  r ← invoke a (pc_capture_generation c) action;
  mret (a, r).

Definition boundary_persist (c : PolicyEvaluationContext) (a : PolicyAuthorization) (action : M T A) : M T A :=
  d ← on_engine (evaluate SCREENSHOT POST_CAPTURE c);
  _ ← lift (require_allowed d);
  invoke a (pc_capture_generation c) action.

Definition boundary_downstream (op : PolicyOperation) (c : PolicyEvaluationContext) (action : M T A) : M T A :=
  _ ← require (negb (bool_decide (op ∈ [SCREENSHOT; METADATA]))) ValueError;
  a ← on_engine (authorize op DOWNSTREAM c);
  invoke a (pc_capture_generation c) action.
End Boundary.

(** [CapturePolicyAdapter.evaluate]: what the capture service is told. *)
Inductive CaptureDecision :=
  | CaptureDeny (reason_code : pystr)
  | CaptureAllow (policy_revision : pystr) (allowed_fields : list pystr) (reason_code : pystr).

Definition adapter_evaluate (m : ContextMetadata) (now : datetime) (generation : Z) : M engine CaptureDecision :=
  d ← evaluate SCREENSHOT PRE_CAPTURE
        {| pc_metadata := m; pc_evaluated_at := now; pc_capture_generation := generation;
           pc_full_screen := None |};
  if negb (pd_allowed d) || negb (pd_certain d)
  then mret (CaptureDeny (reason_value (pd_reason_code d)))
  else mret (CaptureAllow (pd_policy_revision d) (cf_name <$> cm_fields m) (reason_value (pd_reason_code d))).
End Engine.
