(* ===== verification/PolicyFacts.v ===== *)
(** * PolicyFacts: what the policy engine promises.

    The invariant of the engine, the exact condition under which an operation
    is allowed, the independence from rule order, the life of an authorization
    and the enforcement boundary. *)

From S2P Require Import Prelude PyStr PyFloat Policy.

Section Facts.
Context {pattern zone : Type}.
Variable ip_compressed : pystr -> option pystr.
Variable re_compile : pystr -> result pattern.
Variable re_search : pattern -> pystr -> bool.
Variable zone_info : pystr -> result zone.
Variable zone_offset : zone -> Z -> Z.
Variable rule_digest : CaptureRule -> pystr.

Local Abbreviation engine := (engine (pattern := pattern) (zone := zone)).
Local Abbreviation CompiledRule := (CompiledRule (pattern := pattern)).
Local Abbreviation match_rule := (match_rule ip_compressed re_search zone_offset).
Local Abbreviation scan_rules := (scan_rules ip_compressed re_search zone_offset).
Local Abbreviation evaluate_snapshot := (evaluate_snapshot ip_compressed re_search zone_offset).
Local Abbreviation evaluate := (evaluate ip_compressed re_search zone_offset).
Local Abbreviation authorize := (authorize ip_compressed re_search zone_offset).
Local Abbreviation compile_rules := (compile_rules ip_compressed re_compile rule_digest).
Local Abbreviation replace_policy := (replace_policy ip_compressed re_compile zone_info rule_digest).
Local Abbreviation normalize_domain := (normalize_domain ip_compressed).

(** ** The invariant *)

Definition nonblank (s : pystr) : Prop := require_nonempty s = Ok tt.

Record engine_inv (e : engine) : Prop := {
  ei_revision : nonblank (e_revision e);
  ei_generation : 0 < e_generation e;
  ei_rule_ids : Forall (fun r => nonblank (co_rule_id r)) (e_rules e) }.

(** What validation guarantees of rule identifiers. *)
Definition valid_rule_ids (k : LocalRecallConfig) : Prop :=
  Forall (fun r => match cr_rule_id r with Some i => nonblank i | None => True end) (lc_rules k).

Lemma nonblank_head c s : is_space c = false -> nonblank (c :: s).
Proof.
  intros Hc. unfold nonblank, require_nonempty, is_blank. rewrite !bool_decide_false; [done| |done].
  unfold strip. cbn [drop_while]. rewrite Hc. cbn [rev]. intros Hs.
  assert (Hd : forall a : pystr, drop_while is_space (a ++ [c]) ≠ []).
  { induction a as [|x a IH]; cbn; [by rewrite Hc|]. by destruct (is_space x). }
  destruct (drop_while is_space (rev s ++ [c])) as [|y l] eqn:E; [by apply Hd in E|].
  apply (f_equal length) in Hs. rewrite length_rev in Hs. done.
Qed.

Lemma compile_rule_ids rs cs :
  Forall (fun r => match cr_rule_id r with Some i => nonblank i | None => True end) rs ->
  compile_rules rs = Ok cs -> Forall (fun r => nonblank (co_rule_id r)) cs.
Proof.
  intros Hall. revert cs. induction Hall as [|r rs Hr _ IH]; intros cs; cbn; [intros [= <-]; constructor|].
  destruct (compile_rule _ _ _ r) as [c|] eqn:Hc; [|done]. cbn.
  destruct (compile_rules rs) as [cs'|]; [|done]. cbn. intros [= <-]. constructor; [|by apply IH].
  revert Hc. unfold compile_rule. destruct (match cr_title_pattern r with Some _ => _ | None => _ end); [|done]. cbn.
  destruct (match cr_domain r with Some _ => _ | None => _ end); [|done]. cbn. intros [= <-]. cbn.
  destruct (cr_rule_id r) as [[|x s]|]; [|done|]; by apply nonblank_head.
Qed.

Lemma snapshot_inv now e : engine_inv e -> engine_inv (snapshot_engine now e).
Proof. intros []. unfold snapshot_engine. case_bool_decide; split; cbn; try done; lia. Qed.

(** ** The matched rules *)

Definition decided (op : PolicyOperation) (s : engine) c (r : CompiledRule) : Prop :=
  applies_to op r = true -> match_rule r s c = MATCH \/ match_rule r s c = NO_MATCH.

#[local] Instance decided_dec op s c r : Decision (decided op s c r).
Proof. unfold decided. apply _. Defined.

Definition matched (op : PolicyOperation) (s : engine) c (eff : RuleEffect) (r : CompiledRule) : bool :=
  applies_to op r && bool_decide (match_rule r s c = MATCH) && bool_decide (cr_effect (co_rule r) = eff).

Lemma scan_decided op s c rs ds als :
  Forall (decided op s c) rs ->
  scan_rules op s c rs ds als =
  inr (ds ++ List.filter (matched op s c DENY) rs, als ++ List.filter (matched op s c ALLOW) rs).
Proof.
  intros Hall. revert ds als. induction Hall as [|r rs Hr _ IH]; intros ds als; [cbn; by rewrite !app_nil_r|].
  cbn [Policy.scan_rules List.filter]. 
  assert (Hm : forall eff, matched op s c eff r = applies_to op r && bool_decide (match_rule r s c = MATCH) &&
    bool_decide (cr_effect (co_rule r) = eff)) by done. rewrite (Hm DENY), (Hm ALLOW).
  destruct (applies_to op r) eqn:Ha; cbn [negb andb]; [|apply IH].
  destruct (Hr Ha) as [-> | ->]; cbn; [|apply IH].
  destruct (cr_effect (co_rule r)); cbn; rewrite IH, <- app_assoc; done.
Qed.

Lemma scan_undecided op s c rs ds als :
  ~ Forall (decided op s c) rs ->
  exists x rule, scan_rules op s c rs ds als = inl (x, co_rule_id rule) /\ rule ∈ rs.
Proof.
  revert ds als. induction rs as [|r rs IH]; intros ds als Hn; [by destruct Hn|].
  assert (Hrec : forall ds als, decided op s c r ->
    exists x rule, scan_rules op s c rs ds als = inl (x, co_rule_id rule) /\ rule ∈ r :: rs).
  { intros ds' als' Hd. destruct (IH ds' als') as (x&rule&Hs&Hin); [|exists x, rule; by split; [|right]].
    intros Hall. apply Hn. by constructor. }
  unfold decided in Hrec. cbn [Policy.scan_rules].
  destruct (applies_to op r); cbn [negb]; [|by apply Hrec].
  destruct (match_rule r s c) eqn:Hm.
  - destruct (cr_effect (co_rule r)); apply Hrec; auto.
  - apply Hrec; auto.
  - eexists _, r. split; [done|constructor].
  - eexists _, r. split; [done|constructor].
Qed.

Lemma strongest_in (r : CompiledRule) rs : strongest r rs ∈ r :: rs.
Proof.
  revert r. induction rs as [|r' rs IH]; intros r; cbn; [constructor|].
  specialize (IH (if stronger r' r then r' else r)). destruct (stronger r' r); set_solver.
Qed.

(** ** Evaluation never fails, and says when it allows *)

Lemma decide_as_ok (s : engine) op ph allowed certain r id :
  engine_inv s -> match id with Some i => nonblank i | None => True end ->
  decide_as s op ph allowed certain r id =
  Ok {| pd_operation := op; pd_phase := ph; pd_allowed := allowed; pd_certain := certain;
        pd_reason_code := r; pd_policy_revision := e_revision s;
        pd_policy_generation := e_generation s; pd_rule_id := id |}.
Proof.
  intros [Hr Hg _] Hid. unfold decide_as, make_decision. cbn. rewrite Hr. cbn.
  rewrite (proj2 (Z.leb_gt _ _)) by done. cbn. destruct id as [i|]; cbn; [by rewrite Hid|done].
Qed.

(** The exact condition of an allow. *)
Record permits (s : engine) (op : PolicyOperation) (c : PolicyEvaluationContext) : Prop := {
  pm_healthy : e_healthy s = true;
  pm_privacy : e_privacy_mode s = false;
  pm_locked : e_session_locked s = false;
  pm_context : capture_sensitive op = true -> validate_context s c = None;
  pm_remote : op = REMOTE_PROVIDER -> remote_authorized s = true;
  pm_decided : Forall (decided op s c) (e_rules s);
  pm_no_deny : Forall (fun r => matched op s c DENY r = false) (e_rules s);
  pm_temporary : temporary_reason s c = None;
  pm_builtin : builtin_sensitive_reason s c = None;
  pm_granted : Exists (fun r => matched op s c ALLOW r = true) (e_rules s) \/
               lc_default_effect (e_configuration s) = ALLOW }.

Lemma filter_none {A} (f : A -> bool) l : List.filter f l = [] <-> Forall (fun x => f x = false) l.
Proof.
  induction l as [|x l IH]; cbn; [done|]. rewrite Forall_cons, <- IH. destruct (f x); [|naive_solver].
  split; [done|]. by intros [? _].
Qed.

Lemma filter_some {A} (f : A -> bool) l : List.filter f l ≠ [] <-> Exists (fun x => f x = true) l.
Proof.
  induction l as [|x l IH]; cbn; [by rewrite Exists_nil|]. rewrite Exists_cons, <- IH.
  destruct (f x); naive_solver.
Qed.

Lemma filter_ids (f : CompiledRule -> bool) l r :
  Forall (fun r => nonblank (co_rule_id r)) l -> r ∈ List.filter f l -> nonblank (co_rule_id r).
Proof. rewrite Forall_forall. intros Hl Hr. apply list_elem_of_In, List.filter_In in Hr as [Hr _]. by apply Hl, list_elem_of_In. Qed.

Lemma evaluate_snapshot_ok (s : engine) op ph c :
  engine_inv s -> exists d, evaluate_snapshot s op ph c = Ok d /\
    pd_policy_revision d = e_revision s /\ pd_policy_generation d = e_generation s /\
    (pd_allowed d = true <-> permits s op c) /\ (pd_allowed d = true -> pd_certain d = true).
Proof.
  intros Hs. pose proof (ei_rule_ids _ Hs) as Hids. unfold Policy.evaluate_snapshot, deny, allow.
  assert (Hno : forall r certain id, match id with Some i => nonblank i | None => True end ->
    ~ permits s op c -> exists d, decide_as s op ph false certain r id = Ok d /\
    pd_policy_revision d = e_revision s /\ pd_policy_generation d = e_generation s /\
    (pd_allowed d = true <-> permits s op c) /\ (pd_allowed d = true -> pd_certain d = true)).
  { intros r certain id Hid Hn. eexists. split; [by apply decide_as_ok|]. by split; [|split; [|split]]. }
  destruct (e_healthy s) eqn:Hh; cbn [negb]; [|apply Hno; [done|by intros []; congruence]].
  destruct (e_privacy_mode s) eqn:Hp; [apply Hno; [done|by intros []; congruence]|].
  destruct (e_session_locked s) eqn:Hl; [apply Hno; [done|by intros []; congruence]|].
  destruct (if capture_sensitive op then validate_context s c else None) eqn:Hc.
  { apply Hno; [done|]. intros []. destruct (capture_sensitive op); [|done]. rewrite pm_context0 in Hc; done. }
  destruct (bool_decide (op = REMOTE_PROVIDER) && negb (remote_authorized s)) eqn:Hr.
  { apply Hno; [done|]. btauto_hyps. intros []. rewrite pm_remote0 in *; done. }
  destruct (decide (Forall (decided op s c) (e_rules s))) as [Hd|Hd].
  2:{ destruct (scan_undecided op s c _ [] [] Hd) as (x&rule&->&Hin).
      apply Hno; [rewrite Forall_forall in Hids; by apply Hids|by intros []]. }
  rewrite scan_decided by done. cbn [app].
  destruct (List.filter (matched op s c DENY) (e_rules s)) as [|d ds] eqn:Hdeny.
  2:{ apply Hno; [apply (filter_ids (matched op s c DENY) (e_rules s)); [done|rewrite Hdeny; apply strongest_in]|].
      intros []. apply filter_none in pm_no_deny0. congruence. }
  destruct (temporary_reason s c) eqn:Ht; [apply Hno; [done|by intros []; congruence]|].
  destruct (builtin_sensitive_reason s c) as [[r id]|] eqn:Hb.
  { apply Hno; [|by intros []; congruence]. revert Hb. unfold builtin_sensitive_reason.
    repeat case_match; intros [= <- <-]; vm_compute; reflexivity. }
  assert (Hyes : forall r id, match id with Some i => nonblank i | None => True end -> permits s op c ->
    exists d, decide_as s op ph true true r id = Ok d /\
    pd_policy_revision d = e_revision s /\ pd_policy_generation d = e_generation s /\
    (pd_allowed d = true <-> permits s op c) /\ (pd_allowed d = true -> pd_certain d = true)).
  { intros r id Hid Hn. eexists. split; [by apply decide_as_ok|]. by split; [|split; [|split]]. }
  assert (Hperm : Exists (fun r => matched op s c ALLOW r = true) (e_rules s) \/
    lc_default_effect (e_configuration s) = ALLOW -> permits s op c).
  { intros Hg. split; try done.
    - intros Hsens. by rewrite Hsens in Hc.
    - intros ->. apply andb_false_iff in Hr as [Hr|Hr]; [by rewrite bool_decide_true in Hr|by apply negb_false_iff].
    - by apply filter_none. }
  destruct (List.filter (matched op s c ALLOW) (e_rules s)) as [|a rest] eqn:Hallow.
  - destruct (lc_default_effect (e_configuration s)) eqn:He; [apply Hyes; [done|apply Hperm; auto]|].
    apply Hno; [done|]. intros []. destruct pm_granted0 as [Hg|Hg]; [|congruence].
    apply filter_some in Hg. congruence.
  - apply Hyes; [apply (filter_ids (matched op s c ALLOW) (e_rules s)); [done|rewrite Hallow; apply strongest_in]|].
    apply Hperm. left. apply filter_some. by rewrite Hallow.
Qed.

(** C38 (evaluate_allows_iff): Evaluation is total and exact: from any
    well-formed engine it returns a decision (never raises), stamped with the
    current revision and generation, and that decision allows the operation
    exactly when the policy permits it: healthy, no privacy mode, no lock,
    a present, fresh and well-formed context for capture-sensitive
    operations, remote use authorized, every applicable rule decided, no deny
    rule and no temporary or built-in sensitive context matching, and an
    allow rule or an allowing default. What it allows it is certain of. *)
Theorem evaluate_allows_iff op ph c e :
  engine_inv e ->
  let (e', r) := evaluate op ph c e in
  e' = snapshot_engine (pc_evaluated_at c) e /\ engine_inv e' /\
  exists d, r = Ok d /\ pd_policy_revision d = e_revision e' /\
    pd_policy_generation d = e_generation e' /\ (pd_allowed d = true <-> permits e' op c) /\
    (pd_allowed d = true -> pd_certain d = true).
Proof.
  intros He. apply (snapshot_inv (pc_evaluated_at c)) in He. cbn.
  split; [done|]. split; [done|]. destruct (evaluate_snapshot_ok _ op ph c He) as (d&Hd&Hrest). by exists d.
Qed.

(** ** The order of the rules *)

Lemma strongest_min (r : CompiledRule) rs x : x ∈ r :: rs -> stronger x (strongest r rs) = false.
Proof.
  assert (Hirr : forall a : CompiledRule, stronger a a = false).
  { intros a. unfold stronger. by rewrite Z.ltb_irrefl, str_ltb_irrefl, andb_false_r. }
  assert (Htr : forall a b d : CompiledRule, stronger a b = false -> stronger b d = false -> stronger a d = false).
  { intros a b d. unfold stronger. rewrite !orb_false_iff, !andb_false_iff, !Z.ltb_ge, !Z.eqb_neq.
    intros [H1 H2] [H3 H4]. split; [lia|].
    destruct (decide (- cr_priority (co_rule a) = - cr_priority (co_rule d))) as [Heq|]; [right|by left].
    destruct H2 as [?|H2], H4 as [?|H4]; try lia.
    destruct (str_ltb (co_rule_id a) (co_rule_id d)) eqn:E; [|done].
    destruct (str_ltb (co_rule_id d) (co_rule_id b)) eqn:E2.
    - by rewrite (str_ltb_trans _ _ _ E E2) in H2.
    - rewrite (str_ltb_total _ _ H4 E2) in H2. congruence. }
  assert (Has : forall a b : CompiledRule, stronger a b = true -> stronger b a = false).
  { intros a b Hab. destruct (stronger b a) eqn:Hba; [|done]. revert Hab Hba. unfold stronger.
    rewrite !orb_true_iff, !andb_true_iff, !Z.ltb_lt, !Z.eqb_eq. intros [?|[? H1]] [?|[? H2]]; try lia.
    pose proof (str_ltb_trans _ _ _ H1 H2) as H3. by rewrite str_ltb_irrefl in H3. }
  revert r x. induction rs as [|r' rs IH]; intros r x Hx; cbn.
  - apply list_elem_of_singleton in Hx as ->. apply Hirr.
  - apply elem_of_cons in Hx as [->|Hx].
    + destruct (stronger r' r) eqn:E; [|by apply IH; constructor].
      eapply Htr; [by apply Has|]. by apply IH; constructor.
    + apply elem_of_cons in Hx as [->|Hx].
      * destruct (stronger r' r) eqn:E; [by apply IH; constructor|].
        eapply Htr; [exact E|]. by apply IH; constructor.
      * by apply IH; constructor.
Qed.

Lemma strongest_perm (r : CompiledRule) rs r' rs' :
  NoDup (co_rule_id <$> r :: rs) -> r :: rs ≡ₚ r' :: rs' -> strongest r rs = strongest r' rs'.
Proof.
  intros Hnd Hp. pose proof (strongest_in r rs) as H1. pose proof (strongest_in r' rs') as H2.
  assert (H1' : strongest r rs ∈ r' :: rs') by (by rewrite <- Hp).
  assert (H2' : strongest r' rs' ∈ r :: rs) by (by rewrite Hp).
  pose proof (strongest_min _ _ _ H1') as Ha. pose proof (strongest_min _ _ _ H2') as Hb.
  assert (Hid : co_rule_id (strongest r rs) = co_rule_id (strongest r' rs')).
  { revert Ha Hb. unfold stronger. rewrite !orb_false_iff, !andb_false_iff, !Z.ltb_ge, !Z.eqb_neq.
    intros [? Ha] [? Hb]. destruct Ha as [?|Ha], Hb as [?|Hb]; try lia. by apply str_ltb_total. }
  apply list_elem_of_lookup in H1 as [i Hi]. apply list_elem_of_lookup in H2' as [j Hj].
  assert (i = j) as <-; [|congruence].
  eapply (NoDup_lookup (co_rule_id <$> r :: rs)); [done|by rewrite list_lookup_fmap, Hi|].
  rewrite list_lookup_fmap, Hj. cbn. by rewrite Hid.
Qed.

Lemma filter_perm {A} (f : A -> bool) l l' : l ≡ₚ l' -> List.filter f l ≡ₚ List.filter f l'.
Proof.
  induction 1 as [|x l l' _ IH|x y l|l l' l'' _ IH1 _ IH2]; cbn; [done| | |by etrans].
  - destruct (f x); [by constructor|done].
  - destruct (f x), (f y); try done. by constructor.
Qed.

Lemma filter_nodup (f : CompiledRule -> bool) l :
  NoDup (co_rule_id <$> l) -> NoDup (co_rule_id <$> List.filter f l).
Proof.
  induction l as [|r l IH]; cbn; [done|]. intros [Hn Hnd]%NoDup_cons. destruct (f r); cbn; [|by apply IH].
  apply NoDup_cons. split; [|by apply IH]. intros Hin. apply Hn.
  apply list_elem_of_fmap in Hin as (r'&Hid&Hin). apply list_elem_of_In, List.filter_In in Hin as [Hin _].
  apply list_elem_of_fmap. exists r'. by rewrite list_elem_of_In.
Qed.

Definition with_rules (rs : list CompiledRule) (e : engine) : engine :=
  {| e_configuration := e_configuration e; e_revision := e_revision e;
     e_generation := e_generation e; e_rules := rs; e_timezone := e_timezone e;
     e_privacy_mode := e_privacy_mode e; e_session_locked := e_session_locked e;
     e_healthy := e_healthy e; e_last_error_code := e_last_error_code e;
     e_temporary := e_temporary e |}.

(** [rule_order_irrelevant]: Configuration order does not matter: with
    distinct rule identifiers, and every applicable rule decided in the
    context, any reordering of the rules gives the same decision, reported
    rule included (the highest priority, then the smallest identifier). *)
Theorem rule_order_irrelevant e rules' op ph c :
  NoDup (co_rule_id <$> e_rules e) -> e_rules e ≡ₚ rules' ->
  Forall (decided op e c) (e_rules e) ->
  evaluate_snapshot (with_rules rules' e) op ph c = evaluate_snapshot e op ph c.
Proof.
  intros Hnd Hp Hd. unfold Policy.evaluate_snapshot. cbn.
  assert (Hd' : Forall (decided op (with_rules rules' e) c) rules').
  { change (Forall (decided op e c) rules'). by rewrite <- Hp. }
  rewrite (scan_decided _ _ _ _ _ _ Hd), (scan_decided _ _ _ _ _ _ Hd'). cbn [app].
  change (matched op (with_rules rules' e) c) with (matched op e c).
  change (temporary_reason (with_rules rules' e) c) with (temporary_reason e c).
  change (builtin_sensitive_reason (with_rules rules' e) c) with (builtin_sensitive_reason e c).
  pose proof (filter_perm (matched op e c DENY) _ _ Hp) as HpD.
  pose proof (filter_perm (matched op e c ALLOW) _ _ Hp) as HpA.
  pose proof (filter_nodup (matched op e c DENY) _ Hnd) as HnD.
  pose proof (filter_nodup (matched op e c ALLOW) _ Hnd) as HnA.
  destruct (List.filter (matched op e c DENY) (e_rules e)) as [|d ds];
    destruct (List.filter (matched op e c DENY) rules') as [|d' ds'];
    [|by apply Permutation_nil_cons in HpD|by symmetry in HpD; apply Permutation_nil_cons in HpD|
     by rewrite (strongest_perm _ _ _ _ HnD HpD)].
  destruct (List.filter (matched op e c ALLOW) (e_rules e)) as [|a rest];
    destruct (List.filter (matched op e c ALLOW) rules') as [|a' rest'];
    [done|by apply Permutation_nil_cons in HpA|by symmetry in HpA; apply Permutation_nil_cons in HpA|
     by rewrite (strongest_perm _ _ _ _ HnA HpA)].
Qed.
End Facts.
