(* ===== verification/PolicyProps.v ===== *)
(** * PolicyProps: authorizations, the enforcement boundary and domains.

    An authorization dies with the first change of the engine; the boundary
    runs an action exactly when the policy permits it; a domain rule matches on
    label boundaries. *)

From S2P Require Import Prelude PyStr PyFloat Policy PolicyFacts.

Section Props.
Context {pattern zone : Type}.
Variable ip_compressed : pystr -> option pystr.
Variable re_compile : pystr -> result pattern.
Variable re_search : pattern -> pystr -> bool.
Variable zone_info : pystr -> result zone.
Variable zone_offset : zone -> Z -> Z.
Variable rule_digest : CaptureRule -> pystr.

Local Abbreviation engine := (engine (pattern := pattern) (zone := zone)).
Local Abbreviation evaluate := (evaluate ip_compressed re_search zone_offset).
Local Abbreviation authorize := (authorize ip_compressed re_search zone_offset).
Local Abbreviation permits := (permits ip_compressed re_search zone_offset).
Local Abbreviation replace_policy := (replace_policy ip_compressed re_compile zone_info rule_digest).
Local Abbreviation normalize_domain := (normalize_domain ip_compressed).

(** ** The life of an authorization *)

Inductive engine_op :=
  | EEvaluate (op : PolicyOperation) (ph : PolicyPhase) (c : PolicyEvaluationContext)
  | EPrivacy (active : bool)
  | ELock (locked : bool)
  | EMark (scope : SensitiveScope) (c : PolicyEvaluationContext) (ttl : Z)
  | EClear (scope : option SensitiveScope)
  | EReplace (configuration : LocalRecallConfig) (revision : pystr).

Definition run_engine_op (op : engine_op) (e : engine) : engine :=
  match op with
  | EEvaluate op ph c => (evaluate op ph c e).1
  | EPrivacy b => set_privacy_mode b e
  | ELock b => set_session_locked b e
  | EMark scope c ttl => (mark_current_sensitive scope c ttl e).1
  | EClear scope => clear_temporary_sensitive scope e
  | EReplace k rev => (replace_policy k rev e).1
  end.

Definition engine_step (e : engine) (op : engine_op) (e' : engine) : Prop := run_engine_op op e = e'.

(** Every method either changes nothing or moves to a new generation. *)
Lemma step_bumps e op e' : engine_step e op e' -> e' = e \/ e_generation e < e_generation e'.
Proof.
  intros <-. destruct op as [op ph c|b|b|scope c ttl|[s|]|k rev]; cbn.
  - change (evaluate op ph c e).1 with (snapshot_engine (pc_evaluated_at c) e). unfold snapshot_engine.
    case_bool_decide; [by left|right; cbn; lia].
  - unfold set_privacy_mode. destruct (eqb _ _); [by left|right]. destruct b; cbn; lia.
  - unfold set_session_locked. destruct (eqb _ _); [by left|right]. destruct b; cbn; lia.
  - unfold mark_current_sensitive, require, mbind, M_bind. destruct (_ && _); [|by left].
    destruct (sensitive_scope_value _ _); [right; cbn; lia|by left].
  - unfold clear_temporary_sensitive. case_bool_decide; [by left|right; cbn; lia].
  - unfold clear_temporary_sensitive. destruct (e_temporary e); [by left|right; cbn; lia].
  - unfold Policy.replace_policy, lift, mbind, M_bind. destruct (require_nonempty rev); [|by left].
    destruct (result_bind _ _ _ _) as [[rules tz]|]; right; cbn; lia.
Qed.

Lemma steps_bump e ops e' : steps engine_step e ops e' -> e' = e \/ e_generation e < e_generation e'.
Proof.
  induction 1 as [e|e op e1 ops e2 Hs _ IH]; [by left|].
  destruct (step_bumps _ _ _ Hs) as [->|?], IH as [->|?]; auto; right; lia.
Qed.

(** [revoked_forever]: A stale authorization never becomes current again:
    whatever the engine goes through afterwards (privacy and lock toggled on
    and off, markers, reloads of the same or another policy, expiry), an
    authorization issued no later than now that is not current stays so. *)
Theorem revoked_forever a g (e : engine) ops e' :
  pa_policy_generation a <= e_generation e ->
  is_authorization_current a g e = false -> steps engine_step e ops e' ->
  is_authorization_current a g e' = false.
Proof.
  intros Hg Hc Hs. destruct (steps_bump _ _ _ Hs) as [->|Hlt]; [done|].
  unfold is_authorization_current. destruct (_ || _); [done|]. destruct (negb _); [done|].
  by rewrite (proj2 (Z.eqb_neq _ _)) by lia.
Qed.

(** [change_revokes]: An authorization survives no change of policy state:
    once the engine has changed in any way since it was issued, it is not
    current, whatever happens next. *)
Theorem change_revokes op ph c (e e1 : engine) a g ops e2 ops' e3 :
  authorize op ph c e = (e1, Ok a) -> steps engine_step e1 ops e2 -> e2 ≠ e1 ->
  steps engine_step e2 ops' e3 -> is_authorization_current a g e3 = false.
Proof.
  intros Ha Hs Hne Hs'. assert (pa_policy_generation a = e_generation e1) as Hg.
  { revert Ha. unfold Policy.authorize, Policy.evaluate, modify, gets, lift, mbind, M_bind.
    destruct (evaluate_snapshot _ _ _ _ _ _ _) as [d|] eqn:Hd; [|done].
    destruct (_ || _) eqn:Hallow; [done|]. unfold make_authorization. cbn.
    destruct (require_nonempty _); [|done]. cbn. destruct (_ <=? 0); [done|]. intros [= <- <-]. cbn.
    revert Hd. unfold evaluate_snapshot, allow, deny, decide_as, make_decision, mbind, result_bind.
    cbn. repeat (case_match; try done); by intros [= <-]. }
  assert (e_generation e1 < e_generation e3) as Hlt.
  { destruct (steps_bump _ _ _ Hs) as [?|?]; [done|]. destruct (steps_bump _ _ _ Hs') as [->|?]; lia. }
  unfold is_authorization_current. destruct (_ || _); [done|]. destruct (negb _); [done|].
  by rewrite Hg, (proj2 (Z.eqb_neq _ _)) by lia.
Qed.

(** [failed_reload_fails_closed]: A policy reload that does not compile
    leaves the engine unhealthy in a new generation: every operation in every
    context is then denied as policy-unavailable, and every authorization
    issued before is stale, until a reload succeeds. *)
Theorem failed_reload_fails_closed k rev (e e1 : engine) x :
  engine_inv e -> nonblank rev -> replace_policy k rev e = (e1, Raise x) ->
  engine_inv e1 /\
  (forall op ph c, exists d, (evaluate op ph c e1).2 = Ok d /\ pd_allowed d = false /\
     pd_reason_code d = RC_POLICY_UNAVAILABLE) /\
  (forall a g, pa_policy_generation a <= e_generation e -> is_authorization_current a g e1 = false).
Proof.
  intros Hinv Hrev. unfold Policy.replace_policy, lift, mbind, M_bind. rewrite Hrev.
  destruct (result_bind _ _ _ _) as [[rules tz]|y]; [done|]. cbn. intros [= <- <-].
  assert (Hinv1 : engine_inv (bump (set_flags (e_privacy_mode e) (e_session_locked e) false
    (Some (u "policy-reload-invalid")) e))) by (destruct Hinv; split; cbn; [done|lia|done]).
  split; [done|]. split.
  - intros op ph c. apply (snapshot_inv (pc_evaluated_at c)) in Hinv1.
    set (e1 := bump _) in *. unfold Policy.evaluate, modify, gets, lift, mbind, M_bind. cbn [snd].
    unfold evaluate_snapshot, deny. assert (e_healthy (snapshot_engine (pc_evaluated_at c) e1) = false) as ->
      by (unfold snapshot_engine; by case_bool_decide). cbn [negb].
    eexists. split; [by apply decide_as_ok|done].
  - intros a g _. unfold is_authorization_current. cbn. by rewrite !orb_true_r.
Qed.

(** ** The boundary *)

Section Boundary.
Context {T A : Type} (engine_of : T -> engine) (put_engine : engine -> T -> T).
Hypothesis engine_of_put : forall e t, engine_of (put_engine e t) = e.

Local Abbreviation boundary_capture :=
  (boundary_capture (A := A) ip_compressed re_search zone_offset engine_of put_engine).
Local Abbreviation boundary_persist :=
  (boundary_persist (A := A) ip_compressed re_search zone_offset engine_of put_engine).

(** The state an evaluation in context [c] leaves. *)
Definition evaluated (c : PolicyEvaluationContext) (t : T) : T :=
  put_engine (snapshot_engine (pc_evaluated_at c) (engine_of t)) t.

Lemma permits_open (s : engine) op c :
  permits s op c -> e_privacy_mode s || e_session_locked s || negb (e_healthy s) = false.
Proof. intros []. by rewrite pm_privacy, pm_locked, pm_healthy. Qed.

(** [capture_runs_iff_permitted]: The capture boundary runs its action
    exactly when the policy permits a screenshot in that context, on the
    state the evaluation left, and hands out an authorization that is
    current there; otherwise nothing runs and the caller gets a
    PermissionError. *)
Theorem capture_runs_iff_permitted c (action : M T A) t :
  engine_inv (engine_of t) ->
  let t1 := evaluated c t in
  (permits (engine_of t1) SCREENSHOT c /\ exists a,
     is_authorization_current a (Some (pc_capture_generation c)) (engine_of t1) = true /\
     boundary_capture c action t = (r ← action; mret (a, r)) t1) \/
  (~ permits (engine_of t1) SCREENSHOT c /\ exists x,
     boundary_capture c action t = (t1, Raise (PermissionError x))).
Proof.
  intros Hinv t1. apply (snapshot_inv (pc_evaluated_at c)) in Hinv.
  unfold t1, evaluated. rewrite engine_of_put.
  set (e1 := snapshot_engine _ _) in *.
  destruct (evaluate_snapshot_ok ip_compressed re_search zone_offset e1 SCREENSHOT PRE_CAPTURE c Hinv)
    as (d&Hd&Hrev&Hgen&Hallow&Hcert).
  unfold boundary_capture, on_engine, zoom, Policy.authorize, Policy.evaluate, modify, gets, lift, mbind, M_bind.
  fold e1. rewrite Hd. cbn. destruct (pd_allowed d) eqn:Ha; cbn.
  - left. split; [by apply Hallow|]. rewrite (Hcert eq_refl). cbn. unfold make_authorization. cbn.
    rewrite Hrev, (ei_revision _ Hinv). cbn. rewrite Hgen, (proj2 (Z.leb_gt _ _)) by apply Hinv. cbn.
    eexists. unfold invoke, gets, mbind, M_bind.
    assert (Hcur : is_authorization_current {| pa_operation := SCREENSHOT; pa_phase := PRE_CAPTURE;
      pa_policy_revision := e_revision e1; pa_policy_generation := e_generation e1;
      pa_capture_generation := pc_capture_generation c |} (Some (pc_capture_generation c)) e1 = true).
    { unfold is_authorization_current. rewrite (permits_open e1 SCREENSHOT c) by by apply Hallow. cbn.
      by rewrite bool_decide_true, !Z.eqb_refl by done. }
    split; [exact Hcur|]. rewrite engine_of_put, Hcur. done.
  - right. split; [intros Hp; by apply Hallow in Hp|]. by eexists.
Qed.

(** [persist_rechecks]: Persistence is authorized twice: the action runs
    only when the policy permits a screenshot in the present context and
    the authorization given at capture time is still current; in every
    other case it does not run and the caller gets a PermissionError. *)
Theorem persist_rechecks c a (action : M T A) t :
  engine_inv (engine_of t) ->
  let t1 := evaluated c t in
  (permits (engine_of t1) SCREENSHOT c /\
   is_authorization_current a (Some (pc_capture_generation c)) (engine_of t1) = true /\
   boundary_persist c a action t = action t1) \/
  (~ (permits (engine_of t1) SCREENSHOT c /\
      is_authorization_current a (Some (pc_capture_generation c)) (engine_of t1) = true) /\
   exists x, boundary_persist c a action t = (t1, Raise (PermissionError x))).
Proof.
  intros Hinv t1. apply (snapshot_inv (pc_evaluated_at c)) in Hinv.
  unfold t1, evaluated. rewrite engine_of_put. set (e1 := snapshot_engine _ _) in *.
  destruct (evaluate_snapshot_ok ip_compressed re_search zone_offset e1 SCREENSHOT POST_CAPTURE c Hinv)
    as (d&Hd&_&_&Hallow&Hcert).
  unfold boundary_persist, on_engine, zoom, Policy.evaluate, modify, gets, lift, mbind, M_bind.
  fold e1. rewrite Hd. unfold require_allowed. destruct (pd_allowed d) eqn:Ha; cbn.
  - rewrite (Hcert eq_refl). unfold invoke, gets, mbind, M_bind. rewrite engine_of_put.
    destruct (is_authorization_current a _ e1) eqn:Hcur; cbn; [left; split; [by apply Hallow|done]|].
    right. split; [by intros []|by eexists].
  - right. split; [intros [Hp _]; by apply Hallow in Hp|by eexists].
Qed.
End Boundary.

(** ** Domains *)

(** A domain rule matches whole labels only: the
    labels of the rule's domain are the last labels of a domain it matches,
    and all of them when subdomains are not included, so a rule on
    example.com never matches notexample.com. *)
Theorem domain_label_boundary include_subdomains rule_domain domain :
  domain_matches include_subdomains rule_domain domain = true ->
  exists sub, split_on 46 domain = sub ++ split_on 46 rule_domain /\
              (include_subdomains = false -> sub = []).
Proof.
  unfold domain_matches. rewrite orb_true_iff, andb_true_iff, bool_decide_eq_true.
  intros [->|[-> Hends]]; [by exists []|]. apply ends_with_spec in Hends as [t ->].
  exists (split_on 46 t). split; [|done]. change (u "." ++ rule_domain) with (46 :: rule_domain).
  apply split_on_app.
Qed.

Lemma label_chars_kept s :
  Forall (fun c => is_label_char c = true \/ c = 46) s -> forallb folded s = true -> casefold s = s.
Proof.
  intros Hs Hf. apply casefold_id. rewrite Forall_forall in Hs |- *. intros c Hc.
  rewrite List.forallb_forall in Hf. split; [|apply Hf; by apply list_elem_of_In].
  destruct (Hs c Hc) as [Hl| ->]; [|lia]. revert Hl. unfold is_label_char.
  rewrite !orb_true_iff, !andb_true_iff, !Z.leb_le, Z.eqb_eq. lia.
Qed.

Lemma split_chars (P : Z -> Prop) s :
  Forall (Forall P) (split_on 46 s) -> Forall (fun c => P c \/ c = 46) s.
Proof.
  induction s as [|c s IH]; cbn; [constructor|]. destruct (Z.eqb_spec c 46) as [->|Hc].
  - intros [_ H]%Forall_cons. constructor; [by right|by apply IH].
  - destruct (split_on 46 s) as [|w ws] eqn:E; [by apply split_on_nonempty in E|].
    intros [[Hp Hw]%Forall_cons Hws]%Forall_cons. constructor; [by left|]. apply IH. by constructor.
Qed.

Lemma drop_while_id f s : Forall (fun c => f c = false) s -> drop_while f s = s.
Proof. destruct 1 as [|c s Hc _]; [done|]. cbn. by rewrite Hc. Qed.

Lemma strip_id s : Forall (fun c => is_space c = false) s -> strip s = s.
Proof.
  intros Hs. unfold strip. rewrite (drop_while_id is_space s) by done.
  rewrite drop_while_id, rev_involutive; [done|]. by apply Forall_rev.
Qed.

Lemma label_char_not_space c : is_label_char c = true \/ c = 46 -> is_space c = false.
Proof.
  intros Hc. unfold is_space. apply bool_decide_eq_false. rewrite !elem_of_cons, elem_of_nil.
  revert Hc. unfold is_label_char. rewrite !orb_true_iff, !andb_true_iff, !Z.leb_le, Z.eqb_eq. lia.
Qed.

(** The folded and trimmed text [normalize_domain] validates. *)
Definition host_of (value : pystr) : pystr :=
  let folded := casefold (strip value) in
  if ends_with (u ".") folded then take (length folded - 1) folded else folded.

(** Domain normalization is canonical: what it
    answers for a name (anything that is not an IP literal) is lower-case
    ASCII made of at least two well-formed labels, and normalizing it again
    gives it back. *)
Theorem normalize_domain_canonical value d :
  ip_compressed (host_of value) = None -> normalize_domain value = Ok d ->
  d = host_of value /\ forallb folded d = true /\ (2 <= length (split_on 46 d))%nat /\
  forallb valid_label (split_on 46 d) = true /\ normalize_domain d = Ok d.
Proof.
  intros Hip. unfold Policy.normalize_domain at 1. fold (host_of value).
  set (h := host_of value) in *. cbn.
  destruct (bool_decide (h = []) || (253 <? zlen h)) eqn:Hlen; [done|]. cbn. rewrite Hip.
  destruct (zlen (split_on 46 h) <? 2) eqn:Htwo; [done|]. cbn.
  destruct (forallb valid_label (split_on 46 h)) eqn:Hlabels; [|done]. cbn. intros [= <-].
  assert (Hfold : forallb folded h = true).
  { unfold h, host_of. pose proof (casefold_folded (strip value)) as Hf. destruct (ends_with _ _); [|done].
    rewrite List.forallb_forall in Hf |- *. intros x Hx. apply Hf. rewrite <- list_elem_of_In in *.
    by eapply (subseteq_take (length (casefold (strip value)) - 1)). }
  assert (Hchars : Forall (fun c => is_label_char c = true \/ c = 46) h).
  { apply split_chars. rewrite List.forallb_forall in Hlabels. apply Forall_forall. intros l Hl.
    apply list_elem_of_In, Hlabels in Hl. unfold valid_label in Hl. btauto_hyps.
    apply Forall_forall. rewrite List.forallb_forall in *. intros x Hx%list_elem_of_In. auto. }
  assert (Hdot : ends_with (u ".") h = false).
  { destruct (ends_with (u ".") h) eqn:E; [|done]. apply ends_with_spec in E as [t Ht].
    rewrite Ht in Hlabels. change (u ".") with [46] in Hlabels. rewrite split_on_app in Hlabels.
    rewrite List.forallb_app in Hlabels. btauto_hyps. done. }
  split; [done|]. split; [done|]. btauto_hyps. unfold zlen in Htwo. split; [lia|]. split; [done|].
  unfold Policy.normalize_domain.
  rewrite strip_id by (eapply Forall_impl; [exact Hchars|]; apply label_char_not_space).
  rewrite (label_chars_kept h) by done. rewrite Hdot, Hip. cbn.
  unfold zlen in *. rewrite bool_decide_false by done. rewrite (proj2 (Z.ltb_ge _ _)) by lia. cbn.
  rewrite (proj2 (Z.ltb_ge _ _)) by lia. cbn. by rewrite Hlabels.
Qed.
End Props.

(** ** Witnesses: a small policy, a pattern being a substring, a zone an offset *)

Definition demo_rule (effect : RuleEffect) (id : string) (priority : Z) (app : string) : CaptureRule :=
  {| cr_effect := effect; cr_rule_id := Some (u id); cr_enabled := true; cr_priority := priority;
     cr_operations := [SCREENSHOT; OCR]; cr_application := Some (u app); cr_title_pattern := None;
     cr_workspace := None; cr_domain := None; cr_include_subdomains := false; cr_full_screen := None;
     cr_metadata_source := None; cr_time_window := None |}.
Definition demo_rules : list CaptureRule :=
  [demo_rule ALLOW "edit" 5 "Emacs"; demo_rule DENY "mail" 0 "Mail"; demo_rule ALLOW "docs" 5 "EMACS"].
Definition demo_config (timezone : string) : LocalRecallConfig :=
  {| lc_default_effect := DENY; lc_timezone := u timezone; lc_max_metadata_age := 5000000;
     lc_rules := demo_rules; lc_sensitive_applications := []; lc_sensitive_workspaces := [];
     lc_local_first := false; lc_remote_enabled := false; lc_remote_providers := [] |}.

Definition demo_ip (s : pystr) : option pystr := None.
Definition demo_compile (p : pystr) : result pystr := Ok p.
Definition demo_zone (name : pystr) : result Z := if bool_decide (name = u "UTC") then Ok 0 else Raise (External 7).
Definition demo_offset (z : Z) (utc : Z) : Z := z.
Definition demo_digest (r : CaptureRule) : pystr := u "0".

Definition demo_provenance : list MetadataProvenance :=
  [{| mp_source_id := u "xorg"; mp_observed_at := {| dt_wall := 1000000; dt_offset := 0 |};
      mp_confidence := dec 9 1; mp_adapter_revision := None |}].
Definition demo_metadata (app : string) : ContextMetadata :=
  {| cm_observed_at := {| dt_wall := 1000000; dt_offset := 0 |};
     cm_fields := [{| cf_name := u "application"; cf_value := MStr (u app); cf_provenance := demo_provenance |};
                   {| cf_name := u "workspace"; cf_value := MInt 3; cf_provenance := demo_provenance |}] |}.
Definition demo_context (app : string) : PolicyEvaluationContext :=
  {| pc_metadata := demo_metadata app; pc_evaluated_at := {| dt_wall := 2000000; dt_offset := 0 |};
     pc_capture_generation := 1; pc_full_screen := None |}.

Definition demo_rules_compiled : list (CompiledRule (pattern := pystr)) :=
  match compile_rules demo_ip demo_compile demo_digest demo_rules with Ok cs => cs | Raise _ => [] end.
Definition demo_engine : engine (pattern := pystr) (zone := Z) :=
  {| e_configuration := demo_config "UTC"; e_revision := u "r1"; e_generation := 1;
     e_rules := demo_rules_compiled; e_timezone := 0; e_privacy_mode := false; e_session_locked := false;
     e_healthy := true; e_last_error_code := None; e_temporary := [] |}.

Example demo_engine_made :
  make_engine demo_ip demo_compile demo_zone demo_digest (demo_config "UTC") (u "r1") = Ok demo_engine.
Proof. vm_compute. reflexivity. Qed.

Lemma demo_engine_inv : engine_inv demo_engine.
Proof. split; [reflexivity|reflexivity|]. repeat constructor; reflexivity. Qed.

Lemma evaluate_allows_iff_witness :
  engine_inv demo_engine /\
  permits demo_ip is_in demo_offset (snapshot_engine (pc_evaluated_at (demo_context "emacs")) demo_engine)
    SCREENSHOT (demo_context "emacs").
Proof.
  split; [exact demo_engine_inv|].
  pose proof (evaluate_allows_iff demo_ip is_in demo_offset SCREENSHOT PRE_CAPTURE (demo_context "emacs")
    demo_engine demo_engine_inv) as H.
  destruct (evaluate _ _ _ _ _ _ _) as [e' r] eqn:E. cbv beta iota in H. destruct H as (He&_&d&Hr&_&_&Hiff&_). subst e'.
  apply Hiff. vm_compute in E. injection E as <-. injection Hr as <-. reflexivity.
Defined.

Lemma rule_order_irrelevant_witness :
  exists d, evaluate_snapshot demo_ip is_in demo_offset
    (with_rules (rev demo_rules_compiled) demo_engine) SCREENSHOT PRE_CAPTURE (demo_context "emacs") = Ok d /\
    pd_rule_id d = Some (u "docs").
Proof.
  rewrite (rule_order_irrelevant demo_ip is_in demo_offset demo_engine (rev demo_rules_compiled)).
  - eexists. split; [vm_compute; reflexivity|reflexivity].
  - apply (bool_decide_eq_true_1 (NoDup _)). vm_compute. reflexivity.
  - apply Permutation_rev.
  - apply (bool_decide_eq_true_1 (Forall _ _)). vm_compute. reflexivity.
Defined.

Definition demo_authorization : PolicyAuthorization :=
  {| pa_operation := SCREENSHOT; pa_phase := PRE_CAPTURE; pa_policy_revision := u "r1";
     pa_policy_generation := 1; pa_capture_generation := 1 |}.
Local Abbreviation demo_step := (engine_step demo_ip demo_compile is_in demo_zone demo_offset demo_digest).
Local Abbreviation demo_run := (run_engine_op demo_ip demo_compile is_in demo_zone demo_offset demo_digest).

Lemma revoked_forever_witness :
  is_authorization_current demo_authorization (Some 1) (set_session_locked true demo_engine) = false /\
  is_authorization_current demo_authorization (Some 1)
    (demo_run (ELock false) (set_session_locked true demo_engine)) = false.
Proof.
  split; [reflexivity|].
  refine (revoked_forever demo_ip demo_compile is_in demo_zone demo_offset demo_digest demo_authorization (Some 1)
    (set_session_locked true demo_engine) [ELock false] _ _ eq_refl _); [vm_compute; discriminate|].
  econstructor; [reflexivity|constructor].
Defined.

Lemma change_revokes_witness :
  is_authorization_current demo_authorization (Some 1)
    (demo_run (EPrivacy false) (demo_run (EPrivacy true) demo_engine)) = false.
Proof.
  refine (change_revokes demo_ip demo_compile is_in demo_zone demo_offset demo_digest SCREENSHOT PRE_CAPTURE
    (demo_context "emacs") demo_engine demo_engine demo_authorization (Some 1)
    [EPrivacy true] (demo_run (EPrivacy true) demo_engine) [EPrivacy false] _ _ _ _ _).
  - vm_compute. reflexivity.
  - econstructor; [reflexivity|constructor].
  - intros E. apply (f_equal e_generation) in E. vm_compute in E. discriminate E.
  - econstructor; [reflexivity|constructor].
Defined.

Lemma failed_reload_fails_closed_witness :
  exists e1, replace_policy demo_ip demo_compile demo_zone demo_digest (demo_config "Mars") (u "r2") demo_engine
    = (e1, Raise (External 7)) /\ is_authorization_current demo_authorization None e1 = false.
Proof.
  eexists. split; [vm_compute; reflexivity|].
  refine (proj2 (proj2 (failed_reload_fails_closed demo_ip demo_compile is_in demo_zone demo_offset demo_digest
    (demo_config "Mars") (u "r2") demo_engine _ (External 7) demo_engine_inv _ _)) demo_authorization None _);
    [reflexivity|vm_compute; reflexivity|vm_compute; discriminate].
Defined.

Lemma capture_runs_iff_permitted_witness :
  engine_inv demo_engine /\ exists t1 x,
    boundary_capture demo_ip is_in demo_offset (fun e => e) (fun e _ => e) (demo_context "mail")
      (mret 42) demo_engine = (t1, Raise (PermissionError x)).
Proof.
  split; [exact demo_engine_inv|].
  destruct (capture_runs_iff_permitted demo_ip is_in demo_offset (fun e => e) (fun e _ => e)
    (fun _ _ => eq_refl) (demo_context "mail") (mret 42) demo_engine demo_engine_inv) as [[Hp _]|[_ [x Hx]]].
  - exfalso. destruct Hp as [_ _ _ _ _ _ Hd _ _ _].
    pose proof (Forall_inv (Forall_inv_tail Hd)) as Hm. vm_compute in Hm. discriminate Hm.
  - eexists _, x. exact Hx.
Defined.

Lemma persist_rechecks_witness :
  engine_inv demo_engine /\
  exists t1 x, boundary_persist demo_ip is_in demo_offset (fun e => e) (fun e _ => e) (demo_context "mail")
    demo_authorization (mret 42) demo_engine = (t1, Raise (PermissionError x)).
Proof.
  split; [exact demo_engine_inv|].
  destruct (persist_rechecks demo_ip is_in demo_offset (fun e => e) (fun e _ => e)
    (fun _ _ => eq_refl) (demo_context "mail") demo_authorization (mret 42) demo_engine demo_engine_inv)
    as [[Hp _]|[_ [x Hx]]].
  - exfalso. destruct Hp as [_ _ _ _ _ _ Hd _ _ _].
    pose proof (Forall_inv (Forall_inv_tail Hd)) as Hm. vm_compute in Hm. discriminate Hm.
  - eexists _, x. exact Hx.
Defined.

Lemma domain_label_boundary_witness :
  domain_matches true (u "example.com") (u "a.example.com") = true /\
  domain_matches true (u "example.com") (u "notexample.com") = false /\
  exists sub, split_on 46 (u "a.example.com") = sub ++ split_on 46 (u "example.com").
Proof.
  split; [reflexivity|]. split; [reflexivity|].
  destruct (domain_label_boundary true (u "example.com") (u "a.example.com") eq_refl) as (sub&Hs&_).
  exists sub. exact Hs.
Defined.

Lemma normalize_domain_canonical_witness :
  normalize_domain demo_ip (u " Example.COM. ") = Ok (u "example.com") /\
  normalize_domain demo_ip (u "example.com") = Ok (u "example.com").
Proof.
  split; [vm_compute; reflexivity|].
  refine (proj2 (proj2 (proj2 (proj2 (normalize_domain_canonical demo_ip (u " Example.COM. ") (u "example.com") _ _)))));
    vm_compute; reflexivity.
Defined.
