(* ===== verification/Frames.v ===== *)
(** * Frames: captured and redacted frames, capture requests.

    Models [domain/frames.py] and the requests of [domain/capture.py].  Findings
    and allowlist decisions are only counted by the modelled code. *)

From S2P Require Import Prelude PyStr Policy.

(** ** [domain/frames.py] *)

Inductive PixelFormat := RGBA8 | RGB8 | GRAY8.
#[export] Instance PixelFormat_eq_dec : EqDecision PixelFormat.
Proof. solve_decision. Defined.

Definition bytes_per_pixel (f : PixelFormat) : Z :=
  match f with RGBA8 => 4 | RGB8 => 3 | GRAY8 => 1 end.

Definition validate_frame (width height stride : Z) (f : PixelFormat) (pixels : pybytes) : result unit :=
  _ ← throw_if ((width <=? 0) || (height <=? 0)) ValueError;
  _ ← throw_if (stride <? width * bytes_per_pixel f) ValueError;
  throw_if (negb (zlen pixels =? stride * height)) ValueError.

Record RawFrame := {
  rf_frame_id : uuid;
  rf_generation : Z;
  rf_captured_at : datetime;
  rf_width : Z;
  rf_height : Z;
  rf_stride : Z;
  rf_pixel_format : PixelFormat;
  rf_pixels : pybytes;
  rf_metadata : ContextMetadata }.

Definition make_raw_frame (f : RawFrame) : result RawFrame :=
  _ ← validate_frame (rf_width f) (rf_height f) (rf_stride f) (rf_pixel_format f) (rf_pixels f);
  mret f.

Record RedactedFrame := {
  df_frame_id : uuid;
  df_generation : Z;
  df_captured_at : datetime;
  df_width : Z;
  df_height : Z;
  df_stride : Z;
  df_pixel_format : PixelFormat;
  df_pixels : pybytes;
  df_metadata : ContextMetadata;
  df_ocr_text : list pystr;
  df_findings : Z;  (** how many *)
  df_policy_revision : pystr }.

Definition make_redacted_frame (f : RedactedFrame) : result RedactedFrame :=
  _ ← validate_frame (df_width f) (df_height f) (df_stride f) (df_pixel_format f) (df_pixels f);
  _ ← require_nonempty (df_policy_revision f);
  mret f.

Record RedactedRecord := {
  rc_record_id : uuid;
  rc_frame : RedactedFrame;
  rc_created_at : datetime }.

(** ** [domain/capture.py] *)

Record CaptureIntent := {
  ci_job_id : uuid;
  ci_generation : Z;
  ci_requested_at : datetime;
  ci_deadline_monotonic_ns : Z;
  ci_configuration_revision : pystr }.

Definition make_capture_intent (i : CaptureIntent) : result CaptureIntent :=
  _ ← throw_if (ci_deadline_monotonic_ns i <=? 0) ValueError;
  _ ← require_nonempty (ci_configuration_revision i);
  mret i.

Record CaptureAuthorization := {
  ca_policy_revision : pystr;
  ca_allowed_metadata_fields : list pystr }.

Record ApprovedCaptureRequest := {
  ar_intent : CaptureIntent;
  ar_metadata : ContextMetadata;
  ar_authorization : CaptureAuthorization }.

(** [ApprovedCaptureRequest.from_decision], with [require_authorization]. *)
Definition from_decision (intent : CaptureIntent) (m : ContextMetadata) (d : CaptureDecision)
    : result ApprovedCaptureRequest :=
  match d with
  | CaptureDeny reason => Raise (PermissionError (u "capture denied: " ++ reason))
  | CaptureAllow revision fields _ =>
      _ ← require_nonempty revision;
      mret {| ar_intent := intent; ar_metadata := m;
              ar_authorization := {| ca_policy_revision := revision; ca_allowed_metadata_fields := fields |} |}
  end.
