(* ===== verification/Adaptive.v ===== *)
(** * Adaptive: when to capture, and which frames are duplicates.

    Models [capture/adaptive.py]: the record [controller] holds the attributes
    of [AdaptiveCaptureController], each definition is one method, and
    [capture_if_due] is the flow over it and a capture backend.  Times are
    nanoseconds; cadence and threshold are floats. *)

From S2P Require Import Prelude PyStr PyFloat Policy Frames.

Inductive CaptureTriggerKind := TRIGGER_NONE | CADENCE | CONTEXT_CHANGE.
Inductive FrameDisposition := ACCEPT | COALESCE.
Inductive AdaptiveCaptureOutcome := SKIP | ADMIT | COALESCED.
#[export] Instance CaptureTriggerKind_eq_dec : EqDecision CaptureTriggerKind.
Proof. solve_decision. Defined.
#[export] Instance FrameDisposition_eq_dec : EqDecision FrameDisposition.
Proof. solve_decision. Defined.

Definition HASH_BITS : Z := 64.
Definition HASH_COLUMNS : nat := 9.
Definition HASH_ROWS : nat := 8.
Definition NS_PER_SECOND : Z := 1000000000.
Definition MAX_REVISION_LENGTH : Z := 256.
Definition MAX_CONTEXT_VALUE_LENGTH : Z := 4096.

Record DedupContext := {
  dc_generation : Z;
  dc_policy_revision : pystr;
  dc_configuration_revision : pystr;
  dc_application : option pystr;
  dc_workspace : option pystr;
  dc_window_id : option pystr }.
#[export] Instance DedupContext_eq_dec : EqDecision DedupContext.
Proof. solve_decision. Defined.

Definition require_bounded_text (s : pystr) (limit : Z) : result unit :=
  throw_if (bool_decide (s = []) || (limit <? zlen s)) ValueError.
Definition require_bounded_optional (s : option pystr) : result unit :=
  match s with Some s => require_bounded_text s MAX_CONTEXT_VALUE_LENGTH | None => mret tt end.

Definition make_dedup_context (c : DedupContext) : result DedupContext :=
  _ ← require_bounded_text (dc_policy_revision c) MAX_REVISION_LENGTH;
  _ ← require_bounded_text (dc_configuration_revision c) MAX_REVISION_LENGTH;
  _ ← require_bounded_optional (dc_application c);
  _ ← require_bounded_optional (dc_workspace c);
  _ ← require_bounded_optional (dc_window_id c);
  mret c.

Definition privacy_scope (c : DedupContext) : Z * pystr * pystr :=
  (dc_generation c, dc_policy_revision c, dc_configuration_revision c).
Definition metadata_key (c : DedupContext) : option pystr * option pystr * option pystr :=
  (dc_application c, dc_workspace c, dc_window_id c).

Record CaptureTriggerDecision := { td_kind : CaptureTriggerKind; td_effective_cadence_seconds : pyfloat }.
Record FrameDecision := {
  fd_disposition : FrameDisposition;
  fd_span_count : Z;
  fd_span_started_monotonic_ns : Z;
  fd_span_last_seen_monotonic_ns : Z }.
Record AdaptiveCaptureResult := {
  ac_outcome : AdaptiveCaptureOutcome;
  ac_trigger : CaptureTriggerDecision;
  ac_frame : option RawFrame;
  ac_frame_decision : option FrameDecision }.

(** ** [AdaptiveCaptureController] *)

Record controller := {
  c_cadence_seconds : pyfloat;
  c_change_threshold : pyfloat;
  c_debounce_ns : Z;
  c_max_backoff_multiplier : Z;
  c_backoff_multiplier : Z;
  c_last_capture_ns : option Z;
  c_last_capture_context : option DedupContext;
  c_pending_change_context : option DedupContext;
  c_pending_change_since_ns : option Z;
  c_last_dedup_context : option DedupContext;
  c_last_fingerprint : option Z;
  c_span_count : Z;
  c_span_started_ns : option Z;
  c_span_last_seen_ns : option Z }.

Definition make_controller (cadence threshold debounce : pyfloat) (max_multiplier : Z) : result controller :=
  _ ← throw_if (negb (flt (float_of 0) cadence && fle cadence (float_of 3600))) ValueError;
  _ ← throw_if (negb (fle (float_of 0) threshold && fle threshold (float_of 1))) ValueError;
  _ ← throw_if (negb (fle (float_of 0) debounce && fle debounce (float_of 60))) ValueError;
  _ ← throw_if ((max_multiplier <? 1) || (64 <? max_multiplier)) ValueError;
  _ ← throw_if (negb (Z.land max_multiplier (max_multiplier - 1) =? 0)) ValueError;
  debounce_ns ← int_of (fmul debounce (float_of NS_PER_SECOND));
  mret {| c_cadence_seconds := cadence; c_change_threshold := threshold; c_debounce_ns := debounce_ns;
          c_max_backoff_multiplier := max_multiplier; c_backoff_multiplier := 1;
          c_last_capture_ns := None; c_last_capture_context := None;
          c_pending_change_context := None; c_pending_change_since_ns := None;
          c_last_dedup_context := None; c_last_fingerprint := None; c_span_count := 0;
          c_span_started_ns := None; c_span_last_seen_ns := None |}.

Definition set_multiplier (n : Z) (c : controller) : controller :=
  {| c_cadence_seconds := c_cadence_seconds c; c_change_threshold := c_change_threshold c;
     c_debounce_ns := c_debounce_ns c; c_max_backoff_multiplier := c_max_backoff_multiplier c;
     c_backoff_multiplier := n;
     c_last_capture_ns := c_last_capture_ns c; c_last_capture_context := c_last_capture_context c;
     c_pending_change_context := c_pending_change_context c; c_pending_change_since_ns := c_pending_change_since_ns c;
     c_last_dedup_context := c_last_dedup_context c; c_last_fingerprint := c_last_fingerprint c;
     c_span_count := c_span_count c; c_span_started_ns := c_span_started_ns c;
     c_span_last_seen_ns := c_span_last_seen_ns c |}.
Definition set_capture (at_ns : option Z) (context : option DedupContext) (c : controller) : controller :=
  {| c_cadence_seconds := c_cadence_seconds c; c_change_threshold := c_change_threshold c;
     c_debounce_ns := c_debounce_ns c; c_max_backoff_multiplier := c_max_backoff_multiplier c;
     c_backoff_multiplier := c_backoff_multiplier c;
     c_last_capture_ns := at_ns; c_last_capture_context := context;
     c_pending_change_context := c_pending_change_context c; c_pending_change_since_ns := c_pending_change_since_ns c;
     c_last_dedup_context := c_last_dedup_context c; c_last_fingerprint := c_last_fingerprint c;
     c_span_count := c_span_count c; c_span_started_ns := c_span_started_ns c;
     c_span_last_seen_ns := c_span_last_seen_ns c |}.
Definition set_pending (context : option DedupContext) (since : option Z) (c : controller) : controller :=
  {| c_cadence_seconds := c_cadence_seconds c; c_change_threshold := c_change_threshold c;
     c_debounce_ns := c_debounce_ns c; c_max_backoff_multiplier := c_max_backoff_multiplier c;
     c_backoff_multiplier := c_backoff_multiplier c;
     c_last_capture_ns := c_last_capture_ns c; c_last_capture_context := c_last_capture_context c;
     c_pending_change_context := context; c_pending_change_since_ns := since;
     c_last_dedup_context := c_last_dedup_context c; c_last_fingerprint := c_last_fingerprint c;
     c_span_count := c_span_count c; c_span_started_ns := c_span_started_ns c;
     c_span_last_seen_ns := c_span_last_seen_ns c |}.
Definition set_span (context : option DedupContext) (fingerprint : option Z) (count : Z) (started last_seen : option Z)
    (c : controller) : controller :=
  {| c_cadence_seconds := c_cadence_seconds c; c_change_threshold := c_change_threshold c;
     c_debounce_ns := c_debounce_ns c; c_max_backoff_multiplier := c_max_backoff_multiplier c;
     c_backoff_multiplier := c_backoff_multiplier c;
     c_last_capture_ns := c_last_capture_ns c; c_last_capture_context := c_last_capture_context c;
     c_pending_change_context := c_pending_change_context c; c_pending_change_since_ns := c_pending_change_since_ns c;
     c_last_dedup_context := context; c_last_fingerprint := fingerprint;
     c_span_count := count; c_span_started_ns := started; c_span_last_seen_ns := last_seen |}.

Definition effective_cadence_seconds (c : controller) : pyfloat :=
  fmul (c_cadence_seconds c) (float_of (c_backoff_multiplier c)).

Definition clear_pending_change : controller -> controller := set_pending None None.
Definition reset_dedup_state : controller -> controller := set_span None None 0 None None.

Definition require_monotonic_ns (value : Z) : result unit := throw_if (value <? 0) ValueError.

(** [x < y] where [x] may be [None] and then nothing is tested. *)
Definition before (now : Z) (earlier : option Z) : bool :=
  match earlier with Some t => now <? t | None => false end.

Definition decide_trigger (kind : CaptureTriggerKind) (effective : pyfloat) : M controller CaptureTriggerDecision :=
  mret {| td_kind := kind; td_effective_cadence_seconds := effective |}.

(** The last two statements of [poll]. *)
Definition poll_cadence (last now : Z) (effective : pyfloat) : M controller CaptureTriggerDecision :=
  cadence_ns ← lift (int_of (fmul effective (float_of NS_PER_SECOND)));
  decide_trigger (if cadence_ns <=? now - last then CADENCE else TRIGGER_NONE) effective.

Definition poll (context : DedupContext) (now : Z) : M controller CaptureTriggerDecision :=
  _ ← lift (require_monotonic_ns now);
  c ← gets (fun c => c);
  let effective := effective_cadence_seconds c in
  match c_last_capture_ns c, c_last_capture_context c with
  | Some last, Some previous =>
      _ ← require (negb (now <? last)) ValueError;
      if bool_decide (privacy_scope context ≠ privacy_scope previous) then
        _ ← modify clear_pending_change;
        decide_trigger CADENCE effective
      else if bool_decide (metadata_key context ≠ metadata_key previous) then
        match c_pending_change_context c with
        | Some pending =>
            if bool_decide (metadata_key context ≠ metadata_key pending) then
              _ ← modify (set_pending (Some context) (Some now));
              poll_cadence last now effective
            else
              match c_pending_change_since_ns c with
              | None => raise RuntimeError
              | Some pending_since =>
                  _ ← require (negb (now <? pending_since)) ValueError;
                  if c_debounce_ns c <=? now - pending_since then
                    _ ← modify clear_pending_change;
                    decide_trigger CONTEXT_CHANGE effective
                  else poll_cadence last now effective
              end
        | None =>
            _ ← modify (set_pending (Some context) (Some now));
            poll_cadence last now effective
        end
      else
        _ ← modify clear_pending_change;
        poll_cadence last now effective
  | _, _ => decide_trigger CADENCE effective
  end.

Definition mark_capture_started (context : DedupContext) (now : Z) : M controller unit :=
  _ ← lift (require_monotonic_ns now);
  c ← gets (fun c => c);
  _ ← require (negb (before now (c_last_capture_ns c))) ValueError;
  _ ← modify (match c_last_capture_context c with
              | Some last => if bool_decide (privacy_scope context ≠ privacy_scope last)
                             then reset_dedup_state else fun c => c
              | None => fun c => c
              end);
  _ ← modify (set_capture (Some now) (Some context));
  modify clear_pending_change.

(** [n.bit_count()] of a non-negative integer *)
Fixpoint pos_bit_count (p : positive) : Z :=
  match p with xH => 1 | xO p' => pos_bit_count p' | xI p' => 1 + pos_bit_count p' end.
Definition bit_count (n : Z) : Z := match n with Zpos p => pos_bit_count p | _ => 0 end.

Definition accept_new_span (context : DedupContext) (fingerprint at_ns : Z) : M controller FrameDecision :=
  _ ← modify (set_span (Some context) (Some fingerprint) 1 (Some at_ns) (Some at_ns));
  mret {| fd_disposition := ACCEPT; fd_span_count := 1;
          fd_span_started_monotonic_ns := at_ns; fd_span_last_seen_monotonic_ns := at_ns |}.

(** [changed_bits / 64 <= threshold] *)
Definition near_duplicate (last fingerprint : Z) (threshold : pyfloat) : bool :=
  fle (fdiv (float_of (bit_count (Z.lxor last fingerprint))) (float_of HASH_BITS)) threshold.

Definition classify_frame (context : DedupContext) (fingerprint at_ns : Z) : M controller FrameDecision :=
  _ ← lift (require_monotonic_ns at_ns);
  _ ← require (negb ((fingerprint <? 0) || (Z.shiftl 1 HASH_BITS <=? fingerprint))) ValueError;
  c ← gets (fun c => c);
  _ ← require (negb (before at_ns (c_span_last_seen_ns c))) ValueError;
  match c_last_fingerprint c with
  | Some last =>
      if bool_decide (c_last_dedup_context c ≠ Some context) then accept_new_span context fingerprint at_ns
      else if near_duplicate last fingerprint (c_change_threshold c) then
        match c_span_started_ns c with
        | None => raise RuntimeError
        | Some started =>
            let count := c_span_count c + 1 in
            _ ← modify (set_span (c_last_dedup_context c) (Some last) count (Some started) (Some at_ns));
            mret {| fd_disposition := COALESCE; fd_span_count := count;
                    fd_span_started_monotonic_ns := started; fd_span_last_seen_monotonic_ns := at_ns |}
        end
      else accept_new_span context fingerprint at_ns
  | None => accept_new_span context fingerprint at_ns
  end.

Definition note_overload (c : controller) : controller :=
  set_multiplier (Z.min (c_max_backoff_multiplier c) (c_backoff_multiplier c * 2)) c.
Definition note_success (c : controller) : controller :=
  set_multiplier (Z.max 1 (c_backoff_multiplier c / 2)) c.
Definition reset (c : controller) : controller :=
  set_multiplier 1 (reset_dedup_state (clear_pending_change (set_capture None None c))).

(** ** The perceptual hash *)

(** [pixels[i]], for a non-negative index *)
Definition byte_at (pixels : pybytes) (i : Z) : result Z :=
  match pixels !! Z.to_nat i with Some b => Ok b | None => Raise IndexError end.

Definition sample_coordinate (index samples extent : Z) : Z :=
  if extent =? 1 then 0 else index * (extent - 1) / (samples - 1).

(** The brightness of the sample at column [sample_x] of row [y]. *)
Definition luma (pixels : pybytes) (width stride y : Z) (sample_x : nat) : result Z :=
  let x := sample_coordinate (Z.of_nat sample_x) (Z.of_nat HASH_COLUMNS) width in
  let offset := y * stride + x * 3 in
  red ← byte_at pixels offset;
  green ← byte_at pixels (offset + 1);
  blue ← byte_at pixels (offset + 2);
  mret ((299 * red + 587 * green + 114 * blue) / 1000).

(** The comparisons of one row, left to right. *)
Fixpoint row_bits (row : list Z) : list bool :=
  match row with
  | a :: (b :: _) as rest => (b <? a) :: row_bits rest
  | _ => []
  end.

Definition hash_row (pixels : pybytes) (width height stride : Z) (sample_y : nat) : result (list bool) :=
  let y := sample_coordinate (Z.of_nat sample_y) (Z.of_nat HASH_ROWS) height in
  row ← map_ok (luma pixels width stride y) (seq 0 HASH_COLUMNS);
  mret (row_bits row).

(** [fingerprint |= 1 << bit] for the bits in order, from bit 0. *)
Fixpoint pack_bits (bit : Z) (bs : list bool) (fingerprint : Z) : Z :=
  match bs with
  | [] => fingerprint
  | b :: bs' => pack_bits (bit + 1) bs' (if b then Z.lor fingerprint (Z.shiftl 1 bit) else fingerprint)
  end.

Definition perceptual_dhash_rgb8 (pixels : pybytes) (width height : Z) (stride : option Z) : result Z :=
  _ ← throw_if ((width <=? 0) || (height <=? 0)) ValueError;
  let row_bytes := width * 3 in
  let effective_stride := match stride with Some s => s | None => row_bytes end in
  _ ← throw_if (effective_stride <? row_bytes) ValueError;
  _ ← throw_if (negb (zlen pixels =? effective_stride * height)) ValueError;
  rows ← map_ok (hash_row pixels width height effective_stride) (seq 0 HASH_ROWS);
  mret (pack_bits 0 (mjoin rows) 0).

(** ** [AdaptiveCaptureFlow] *)

Definition metadata_text (m : ContextMetadata) (name : pystr) : option pystr :=
  match metadata_get m name with MStr (c :: s) => Some (c :: s) | _ => None end.
Definition metadata_identifier (m : ContextMetadata) (name : pystr) : option pystr :=
  match metadata_get m name with
  | MStr (c :: s) => Some (c :: s)
  | MInt n => Some (str_of_int n)
  | _ => None
  end.

Definition context_from_request (r : ApprovedCaptureRequest) : result DedupContext :=
  make_dedup_context
    {| dc_generation := ci_generation (ar_intent r);
       dc_policy_revision := ca_policy_revision (ar_authorization r);
       dc_configuration_revision := ci_configuration_revision (ar_intent r);
       dc_application := metadata_text (ar_metadata r) (u "application");
       dc_workspace := metadata_text (ar_metadata r) (u "workspace");
       dc_window_id := metadata_identifier (ar_metadata r) (u "window.id") |}.

Section Flow.
Context {W : Type}.
(** [backend.capture], on its own world. *)
Variable backend_capture : ApprovedCaptureRequest -> M W RawFrame.

Definition on_controller {A} (m : M controller A) : M (controller * W) A :=
  zoom fst (fun c s => (c, s.2)) m.
Definition on_backend {A} (m : M W A) : M (controller * W) A :=
  zoom snd (fun w s => (s.1, w)) m.

Definition capture_if_due (r : ApprovedCaptureRequest) (now : Z) : M (controller * W) AdaptiveCaptureResult :=
  context ← lift (context_from_request r);
  trigger ← on_controller (poll context now);
  if bool_decide (td_kind trigger = TRIGGER_NONE) then
    mret {| ac_outcome := SKIP; ac_trigger := trigger; ac_frame := None; ac_frame_decision := None |}
  else
    _ ← on_controller (mark_capture_started context now);
    frame ← on_backend (backend_capture r);
    _ ← require (rf_generation frame =? ci_generation (ar_intent r)) ValueError;
    _ ← require (bool_decide (rf_pixel_format frame = RGB8)) ValueError;
    fingerprint ← lift (perceptual_dhash_rgb8 (rf_pixels frame) (rf_width frame) (rf_height frame)
                          (Some (rf_stride frame)));
    decision ← on_controller (classify_frame context fingerprint now);
    if bool_decide (fd_disposition decision = COALESCE) then
      mret {| ac_outcome := COALESCED; ac_trigger := trigger; ac_frame := None;
              ac_frame_decision := Some decision |}
    else
      mret {| ac_outcome := ADMIT; ac_trigger := trigger; ac_frame := Some frame;
              ac_frame_decision := Some decision |}.
End Flow.
