(* ===== verification/AdaptiveFacts.v ===== *)
(** * AdaptiveFacts: the adaptive controller is consistent and its flow safe.

    The controller's attributes stay consistent whatever it is asked; frames
    are coalesced only with the frame that opened their span; a change of
    privacy scope always yields a fresh frame. *)

From S2P Require Import Prelude PyStr PyFloat Policy Frames Adaptive.

(** ** The perceptual hash *)

Lemma sample_bounds i n extent :
  0 <= i < n -> 2 <= n -> 1 <= extent -> 0 <= sample_coordinate i n extent < extent.
Proof.
  intros Hi Hn He. unfold sample_coordinate. destruct (Z.eqb_spec extent 1) as [->|Hne]; [lia|].
  split; [apply Z.div_pos; nia|]. apply Z.div_lt_upper_bound; nia.
Qed.

Lemma byte_at_ok pixels i : 0 <= i < zlen pixels -> exists b, byte_at pixels i = Ok b.
Proof.
  intros Hi. unfold byte_at, zlen in *. destruct (lookup_lt_is_Some_2 pixels (Z.to_nat i)) as [b ->]; [lia|by exists b].
Qed.

Lemma length_row_bits row : length (row_bits row) = (length row - 1)%nat.
Proof. induction row as [|a [|b row] IH]; cbn in *; [done..|]. rewrite IH. lia. Qed.

Lemma length_join_all {A} (n : nat) (ls : list (list A)) :
  Forall (fun l => length l = n) ls -> length (mjoin ls) = (n * length ls)%nat.
Proof.
  induction 1 as [|l ls Hl _ IH]; [cbn; lia|]. change (mjoin (l :: ls)) with (l ++ mjoin ls).
  rewrite length_app, Hl, IH. cbn. lia.
Qed.

Lemma lor_bound a b n : 0 <= n -> 0 <= a < 2 ^ n -> 0 <= b < 2 ^ n -> 0 <= Z.lor a b < 2 ^ n.
Proof.
  intros Hn Ha Hb. split; [apply Z.lor_nonneg; lia|].
  destruct (Z.eq_dec (Z.lor a b) 0) as [->|Hne]; [lia|].
  assert (0 < Z.lor a b) by (assert (0 <= Z.lor a b) by (apply Z.lor_nonneg; lia); lia).
  apply Z.log2_lt_pow2; [done|]. rewrite Z.log2_lor by lia.
  assert (Hlog : forall x, 0 <= x < 2 ^ n -> 0 < n -> Z.log2 x < n).
  { intros x Hx Hn'. destruct (Z.eq_dec x 0) as [->|]; [cbn; lia|]. apply Z.log2_lt_pow2; lia. }
  assert (0 < n) by (destruct (Z.eq_dec n 0) as [->|]; [cbn in Ha, Hb; assert (a = 0) by lia; assert (b = 0) by lia; by subst|lia]).
  pose proof (Hlog a Ha ltac:(done)). pose proof (Hlog b Hb ltac:(done)). lia.
Qed.

Lemma pack_bits_bound bs bit fp :
  0 <= bit -> 0 <= fp < 2 ^ bit -> 0 <= pack_bits bit bs fp < 2 ^ (bit + zlen bs).
Proof.
  revert bit fp. induction bs as [|b bs IH]; intros bit fp Hbit Hfp; cbn [pack_bits].
  - change (zlen (A:=bool) []) with 0. by rewrite Z.add_0_r.
  - replace (bit + zlen (b :: bs)) with (bit + 1 + zlen bs) by (unfold zlen; cbn; lia).
    assert (Hp : 2 ^ (bit + 1) = 2 * 2 ^ bit) by (rewrite Z.pow_add_r by lia; lia).
    apply IH; [lia|]. destruct b; [|lia]. rewrite Z.shiftl_1_l. apply lor_bound; lia.
Qed.

Lemma dhash_ok pixels width height stride :
  0 < width -> 0 < height -> width * 3 <= stride -> zlen pixels = stride * height ->
  exists fp, perceptual_dhash_rgb8 pixels width height (Some stride) = Ok fp /\ 0 <= fp < 2 ^ 64.
Proof.
  intros Hw Hh Hs Hlen. unfold perceptual_dhash_rgb8.
  rewrite (proj2 (Z.leb_gt width 0)), (proj2 (Z.leb_gt height 0)), (proj2 (Z.ltb_ge stride _)) by lia.
  rewrite (proj2 (Z.eqb_eq _ _) Hlen). cbn [orb negb throw_if mbind result_bind].
  assert (Hrow : forall i, i ∈ seq 0 HASH_ROWS -> exists b, hash_row pixels width height stride i = Ok b /\ length b = 8%nat).
  { intros i Hi%elem_of_seq. unfold hash_row.
    pose proof (sample_bounds (Z.of_nat i) (Z.of_nat HASH_ROWS) height) as Hy. unfold HASH_ROWS in *.
    specialize (Hy ltac:(lia) ltac:(lia) ltac:(lia)). set (y := sample_coordinate _ _ height) in *.
    destruct (map_ok_all (luma pixels width stride y) (fun _ => True) (seq 0 HASH_COLUMNS)) as (row&->&Hl&_).
    - intros j Hj%elem_of_seq. unfold luma.
      pose proof (sample_bounds (Z.of_nat j) (Z.of_nat HASH_COLUMNS) width) as Hx. unfold HASH_COLUMNS in *.
      specialize (Hx ltac:(lia) ltac:(lia) ltac:(lia)). set (x := sample_coordinate _ _ width) in *.
      assert (Hpos : 0 <= y * stride) by nia.
      assert (y * stride + x * 3 + 2 < zlen pixels) by nia.
      destruct (byte_at_ok pixels (y * stride + x * 3)) as [r ->]; [lia|].
      destruct (byte_at_ok pixels (y * stride + x * 3 + 1)) as [g ->]; [lia|].
      destruct (byte_at_ok pixels (y * stride + x * 3 + 2)) as [bl ->]; [lia|]. cbn. by eexists.
    - cbn. eexists. split; [done|]. rewrite length_row_bits, Hl. done. }
  destruct (map_ok_all _ _ _ Hrow) as (rows&->&Hl&Hrows). cbn. eexists. split; [done|].
  pose proof (pack_bits_bound (mjoin rows) 0 0) as Hb. unfold zlen in Hb.
  rewrite (length_join_all 8 rows Hrows), Hl in Hb. apply Hb; [lia|done].
Qed.

(** ** The controller's invariant *)

Definition pow2 (n : Z) : Prop := exists k, 0 <= k /\ n = 2 ^ k.
Definition both {A B} (a : option A) (b : option B) : Prop :=
  match a, b with Some _, Some _ | None, None => True | _, _ => False end.
Definition span_ok (context : option DedupContext) (fingerprint : option Z) (count : Z) (started last_seen : option Z) : Prop :=
  match context, fingerprint, started, last_seen with
  | Some _, Some fp, Some t0, Some t => 0 <= fp < 2 ^ 64 /\ 1 <= count /\ t0 <= t
  | None, None, None, None => count = 0
  | _, _, _, _ => False
  end.

Record controller_inv (c : controller) : Prop := {
  inv_max : pow2 (c_max_backoff_multiplier c);
  inv_multiplier : pow2 (c_backoff_multiplier c);
  inv_bound : 1 <= c_backoff_multiplier c <= c_max_backoff_multiplier c;
  inv_capture : both (c_last_capture_ns c) (c_last_capture_context c);
  inv_pending : both (c_pending_change_context c) (c_pending_change_since_ns c);
  inv_span : span_ok (c_last_dedup_context c) (c_last_fingerprint c) (c_span_count c)
               (c_span_started_ns c) (c_span_last_seen_ns c) }.

Lemma inv_set_capture t ctx c : controller_inv c -> controller_inv (set_capture (Some t) (Some ctx) c).
Proof. intros []. by split. Qed.
Lemma inv_set_pending t ctx c : controller_inv c -> controller_inv (set_pending (Some ctx) (Some t) c).
Proof. intros []. by split. Qed.
Lemma inv_clear_pending c : controller_inv c -> controller_inv (clear_pending_change c).
Proof. intros []. by split. Qed.
Lemma inv_reset_dedup c : controller_inv c -> controller_inv (reset_dedup_state c).
Proof. intros []. by split. Qed.
Lemma inv_set_span ctx fp n t0 t c :
  0 <= fp < 2 ^ 64 -> 1 <= n -> t0 <= t -> controller_inv c ->
  controller_inv (set_span (Some ctx) (Some fp) n (Some t0) (Some t) c).
Proof. intros ??? []. by split. Qed.
#[local] Hint Resolve inv_set_capture inv_set_pending inv_clear_pending inv_reset_dedup inv_set_span : core.

Lemma pow2_half n : pow2 n -> pow2 (Z.max 1 (n / 2)) /\ Z.max 1 (n / 2) <= n.
Proof.
  intros (k&Hk&->). destruct (Z.eq_dec k 0) as [->|Hne]; [split; [by exists 0|done]|].
  replace k with (Z.succ (k - 1)) by lia. rewrite Z.pow_succ_r by lia.
  rewrite (Z.mul_comm 2), Z.div_mul by lia. assert (0 < 2 ^ (k - 1)) by (apply Z.pow_pos_nonneg; lia).
  rewrite Z.max_r by lia. split; [exists (k - 1); split; [lia|done]|lia].
Qed.

Lemma pow2_double n m : pow2 n -> pow2 m -> pow2 (Z.min m (n * 2)).
Proof.
  intros (k&Hk&->) Hm. destruct (Z.min_spec m (2 ^ k * 2)) as [[_ ->]|[_ ->]]; [done|].
  exists (k + 1). rewrite Z.pow_add_r by lia. split; [lia|lia].
Qed.

Lemma pow2_pos n : pow2 n -> 1 <= n.
Proof. intros (k&Hk&->). assert (0 < 2 ^ k) by (apply Z.pow_pos_nonneg; lia). lia. Qed.

Lemma int_of_not_runtime x : int_of x ≠ Raise RuntimeError.
Proof. by destruct x. Qed.

(** The outcome of a controller call: consistent again, and none of the
    "missing timestamp" errors. *)
Definition consistent {A} (r : result A) (c : controller) : Prop := controller_inv c /\ r ≠ Raise RuntimeError.

Lemma poll_cadence_consistent last now x c : controller_inv c -> wp (poll_cadence last now x) consistent c.
Proof.
  intros Hc. unfold poll_cadence, decide_trigger. wp_steps. pose proof (int_of_not_runtime (fmul x (float_of NS_PER_SECOND))).
  destruct (int_of _); [wp_steps; by split|]. split; [done|congruence].
Qed.

Lemma poll_consistent context now c : controller_inv c -> wp (poll context now) consistent c.
Proof.
  intros Hc. unfold poll, decide_trigger. wp_step. wp_step. unfold require_monotonic_ns, throw_if.
  destruct (now <? 0); [by split|]. wp_steps.
  destruct (c_last_capture_ns c) as [last|]; [|by wp_steps].
  destruct (c_last_capture_context c) as [previous|]; [|by wp_steps].
  wp_steps; [|by split]. case_bool_decide; [wp_steps; split; [auto|done]|].
  case_bool_decide; [|wp_steps; apply poll_cadence_consistent; auto].
  destruct (c_pending_change_context c) as [pending|] eqn:Hp; [|wp_steps; apply poll_cadence_consistent; auto].
  case_bool_decide; [wp_steps; apply poll_cadence_consistent; auto|].
  pose proof (inv_pending c Hc) as Hb. rewrite Hp in Hb. destruct (c_pending_change_since_ns c) as [since|]; [|done].
  wp_steps; [|by split]. destruct (_ <=? _); [wp_steps; split; [auto|done]|by apply poll_cadence_consistent].
Qed.

Lemma mark_consistent context now c : controller_inv c -> wp (mark_capture_started context now) consistent c.
Proof.
  intros Hc. unfold mark_capture_started. wp_step. wp_step. unfold require_monotonic_ns, throw_if.
  destruct (now <? 0); [by split|]. wp_steps; [|by split]. split; [|done].
  destruct (c_last_capture_context c); [|auto]. case_bool_decide; auto.
Qed.

Lemma accept_consistent context fp t c :
  0 <= fp < 2 ^ 64 -> controller_inv c -> wp (accept_new_span context fp t) consistent c.
Proof. intros Hfp Hc. unfold accept_new_span. wp_steps. split; [apply inv_set_span; auto; lia|done]. Qed.

Lemma classify_consistent context fp t c : controller_inv c -> wp (classify_frame context fp t) consistent c.
Proof.
  intros Hc. unfold classify_frame. wp_step. wp_step. unfold require_monotonic_ns, throw_if.
  destruct (t <? 0); [by split|]. wp_steps; try (by split). btauto_hyps.
  assert (0 <= fp < 2 ^ 64) by (change (Z.shiftl 1 HASH_BITS) with (2 ^ 64) in *; lia).
  pose proof (inv_span c Hc) as Hspan. unfold span_ok in Hspan.
  destruct (c_last_fingerprint c) as [last|]; [|by apply accept_consistent].
  case_bool_decide; [by apply accept_consistent|]. destruct (near_duplicate _ _ _); [|by apply accept_consistent].
  destruct (c_last_dedup_context c) as [ctx|]; [|done].
  destruct (c_span_started_ns c) as [t0|]; [|done]. destruct (c_span_last_seen_ns c) as [t1|]; [|done].
  wp_steps. split; [|done]. cbn in *. apply inv_set_span; auto; lia.
Qed.

(** What the outside may ask of a controller. *)
Inductive controller_op :=
  | CPoll (context : DedupContext) (now : Z)
  | CMark (context : DedupContext) (now : Z)
  | CClassify (context : DedupContext) (fingerprint at_ns : Z)
  | COverload | CSuccess | CReset.

Definition discard {S A} (m : M S A) : M S unit := _ ← m; mret tt.
Definition run_controller_op (op : controller_op) : M controller unit :=
  match op with
  | CPoll context now => discard (poll context now)
  | CMark context now => mark_capture_started context now
  | CClassify context fp t => discard (classify_frame context fp t)
  | COverload => modify note_overload
  | CSuccess => modify note_success
  | CReset => modify reset
  end.

Lemma wp_discard_consistent {A} (m : M controller A) c : wp m consistent c -> wp (discard m) consistent c.
Proof.
  intros Hm. unfold discard. apply wp_bind. eapply wp_mono; [exact Hm|].
  intros [a|e] s' [? Hr]; [by wp_steps|]. split; [done|congruence].
Qed.

Lemma op_consistent op c : controller_inv c -> wp (run_controller_op op) consistent c.
Proof.
  intros Hc. destruct op; cbn.
  - by apply wp_discard_consistent, poll_consistent.
  - by apply mark_consistent.
  - by apply wp_discard_consistent, classify_consistent.
  - wp_steps. split; [|done]. destruct Hc. split; cbn; try done; [by apply pow2_double|lia].
  - wp_steps. split; [|done]. destruct Hc. pose proof (pow2_half _ inv_multiplier0) as [? ?].
    split; cbn; try done; lia.
  - wp_steps. split; [|done]. destruct Hc. pose proof (pow2_pos _ inv_max0). split; cbn; try done; by exists 0.
Qed.

Definition controller_step (c : controller) (op : controller_op) (c' : controller) : Prop :=
  c' = (run_controller_op op c).1.

Lemma made_consistent cadence threshold debounce m c :
  make_controller cadence threshold debounce m = Ok c -> controller_inv c.
Proof.
  unfold make_controller. intros H. ok_steps. btauto_hyps. subst.
  split; cbn; try done; try lia; try (by exists 0).
  assert (Hall : forallb (fun n => implb (Z.land n (n - 1) =? 0) (existsb (fun k => n =? 2 ^ k) [0;1;2;3;4;5;6]))
    (Z.of_nat <$> seq 1 64) = true) by (vm_compute; reflexivity).
  rewrite forallb_forall in Hall. specialize (Hall m). rewrite (proj2 (Z.eqb_eq (Z.land m (m - 1)) 0)) in Hall by done.
  cbn [implb] in Hall. rewrite existsb_exists in Hall. destruct Hall as (k&Hk&?).
  { apply list_elem_of_In, list_elem_of_fmap. exists (Z.to_nat m). rewrite elem_of_seq. lia. }
  exists k. btauto_hyps. split; [|done]. repeat (destruct Hk as [<-|Hk]; [lia|]). done.
Qed.

(** [controller_stays_consistent]: Whatever a controller is asked, in any
    order and with any arguments, the attributes stay consistent: every
    timestamp is there when the attribute that needs it is, so that the
    controller's internal errors ([RuntimeError]) never occur, the recorded
    fingerprint is a 64-bit number, and the backoff multiplier is a power of
    two between 1 and its maximum. *)
Theorem controller_stays_consistent cadence threshold debounce m c ops c' op :
  make_controller cadence threshold debounce m = Ok c ->
  steps controller_step c ops c' ->
  controller_inv c' /\ (run_controller_op op c').2 ≠ Raise RuntimeError.
Proof.
  intros Hc%made_consistent Hs.
  assert (controller_inv c') as Hc'.
  { apply (steps_invariant controller_step controller_inv c ops c'); [|done|done].
    intros a l b -> Ha. by destruct (op_consistent l a Ha) as [[]]. }
  split; [done|]. by destruct (op_consistent op c' Hc') as [[]].
Qed.

(** ** Spans *)

(** A span of [n] frames opened by [fingerprint] at [t0]. *)
Record in_span (context : DedupContext) (fingerprint t0 n : Z) (threshold : pyfloat) (c : controller) : Prop := {
  sp_context : c_last_dedup_context c = Some context;
  sp_fingerprint : c_last_fingerprint c = Some fingerprint;
  sp_started : c_span_started_ns c = Some t0;
  sp_count : c_span_count c = n;
  sp_threshold : c_change_threshold c = threshold }.

Lemma accepted_span context fp t c :
  wp (classify_frame context fp t)
    (fun r c' => forall d, r = Ok d -> fd_disposition d = ACCEPT -> in_span context fp t 1 (c_change_threshold c) c') c.
Proof.
  unfold classify_frame, accept_new_span. wp_step. wp_step. unfold require_monotonic_ns, throw_if.
  destruct (t <? 0); [done|]. wp_steps; try done.
  repeat first [case_bool_decide | case_goal]; wp_steps; try done; intros d [= <-] Hd; by split.
Qed.

Lemma coalesced_span context fp t anchor fp0 t0 n threshold c :
  in_span anchor fp0 t0 n threshold c ->
  wp (classify_frame context fp t)
    (fun r c' => forall d, r = Ok d -> fd_disposition d = COALESCE ->
       context = anchor /\ near_duplicate fp0 fp threshold = true /\
       fd_span_count d = n + 1 /\ fd_span_started_monotonic_ns d = t0 /\
       in_span anchor fp0 t0 (n + 1) threshold c') c.
Proof.
  intros [H1 H2 H3 H4 H5]. unfold classify_frame, accept_new_span. wp_step. wp_step. unfold require_monotonic_ns, throw_if.
  destruct (t <? 0); [done|]. wp_steps; try done. rewrite H2.
  case_bool_decide as Hctx; [wp_steps; by intros d [= <-]|].
  destruct (near_duplicate _ _ _) eqn:Hn; [|wp_steps; by intros d [= <-]].
  rewrite H3. wp_steps. intros d [= <-] _. cbn. rewrite H5 in Hn. rewrite H1 in *.
  split; [destruct (decide (Some anchor = Some context)) as [[= ->]|]; [done|by destruct Hctx]|].
  split_and!; [done|by rewrite H4|done|]. split; cbn; try done. by rewrite H4.
Qed.

Fixpoint classify_all (calls : list (DedupContext * Z * Z)) : M controller (list FrameDecision) :=
  match calls with
  | [] => mret []
  | (context, fp, t) :: calls' =>
      d ← classify_frame context fp t; ds ← classify_all calls'; mret (d :: ds)
  end.

Lemma span_run calls anchor fp0 t0 n threshold c c' ds :
  in_span anchor fp0 t0 n threshold c -> classify_all calls c = (c', Ok ds) ->
  Forall (fun d => fd_disposition d = COALESCE) ds ->
  Forall (fun call => call.1.1 = anchor /\ near_duplicate fp0 call.1.2 threshold = true) calls /\
  (forall i d, ds !! i = Some d -> fd_span_count d = n + 1 + Z.of_nat i /\ fd_span_started_monotonic_ns d = t0).
Proof.
  revert n c ds. induction calls as [|[[context fp] t] calls IH]; intros n c ds Hc Hrun Hds.
  { cbn in Hrun. injection Hrun as _ <-. split; [constructor|]. intros [|i] d Hi; discriminate Hi. }
  cbn in Hrun. unfold mbind, M_bind in Hrun. destruct (classify_frame context fp t c) as [c1 [d1|]] eqn:H1; [|done].
  destruct (classify_all calls c1) as [c2 [ds1|]] eqn:H2; [|done]. cbn in Hrun. injection Hrun as <- <-.
  apply Forall_cons in Hds as [Hd1 Hds].
  destruct (wp_run _ _ _ _ _ H1 (coalesced_span context fp t _ _ _ _ _ _ Hc) d1 eq_refl Hd1) as (->&Hn&Hcount&Hstart&Hc1).
  destruct (IH _ _ _ Hc1 H2 Hds) as [Hcalls Hspan]. split; [by constructor|].
  intros [|i] d Hi; cbn in Hi; [simplify_eq; lia|]. destruct (Hspan i d Hi). lia.
Qed.

(** [span_is_anchored]: Coalescing does not drift: every frame coalesced
    into a span has exactly the context of the frame that opened the span and
    is a near duplicate of that frame, not merely of its predecessor; the
    decisions count the span's frames and carry its start. *)
Theorem span_is_anchored context fp0 t0 c c1 d0 calls c2 ds :
  classify_frame context fp0 t0 c = (c1, Ok d0) -> fd_disposition d0 = ACCEPT ->
  classify_all calls c1 = (c2, Ok ds) -> Forall (fun d => fd_disposition d = COALESCE) ds ->
  Forall (fun call => call.1.1 = context /\ near_duplicate fp0 call.1.2 (c_change_threshold c) = true) calls /\
  (forall i d, ds !! i = Some d -> fd_span_count d = 2 + Z.of_nat i /\ fd_span_started_monotonic_ns d = t0).
Proof.
  intros H0 Hd0 Hrun Hds. pose proof (wp_run _ _ _ _ _ H0 (accepted_span context fp0 t0 c) d0 eq_refl Hd0) as Hspan.
  destruct (span_run _ _ _ _ _ _ _ _ _ Hspan Hrun Hds) as [Hcalls Hcount]. split; [done|].
  intros i d Hi. destruct (Hcount i d Hi). lia.
Qed.

(** ** The flow *)

Section Flow.
Context {W : Type}.
Variable backend_capture : ApprovedCaptureRequest -> M W RawFrame.

(** [privacy_change_forces_fresh]: A capture whose privacy scope (capture
    generation, policy revision, configuration revision) differs from the last
    capture's is always due and its frame is always admitted, never coalesced
    with a frame of the old scope, however similar the two are. *)
Theorem privacy_change_forces_fresh r now c w context previous last frame w' :
  context_from_request r = Ok context ->
  c_last_capture_context c = Some previous -> c_last_capture_ns c = Some last ->
  privacy_scope context ≠ privacy_scope previous -> 0 <= now -> last <= now ->
  backend_capture r w = (w', Ok frame) -> make_raw_frame frame = Ok frame ->
  rf_generation frame = ci_generation (ar_intent r) -> rf_pixel_format frame = RGB8 ->
  exists c' res, capture_if_due backend_capture r now (c, w) = ((c', w'), Ok res) /\
    ac_outcome res = ADMIT /\ ac_frame res = Some frame /\ td_kind (ac_trigger res) = CADENCE /\
    c_last_dedup_context c' = Some context.
Proof.
  intros Hctx Hprev Hlast Hscope Hnow Hle Hcap Hframe Hgen Hfmt.
  unfold make_raw_frame, validate_frame in Hframe. ok_steps. btauto_hyps.
  rewrite Hfmt in *. cbn [bytes_per_pixel] in *.
  destruct (dhash_ok (rf_pixels frame) (rf_width frame) (rf_height frame) (rf_stride frame)) as (fp&Hfp&Hrange); [lia..|].
  unfold capture_if_due, lift, mbind, M_bind at 1. rewrite Hctx.
  assert (Hpoll : poll context now c = (clear_pending_change c,
    Ok {| td_kind := CADENCE; td_effective_cadence_seconds := effective_cadence_seconds c |})).
  { unfold poll, lift, require_monotonic_ns, throw_if, gets, require, modify, decide_trigger, mbind, M_bind.
    rewrite (proj2 (Z.ltb_ge now 0)), Hlast, Hprev, (proj2 (Z.ltb_ge now last)) by lia. cbn.
    by rewrite bool_decide_true by done. }
  set (c1 := set_pending None None (set_capture (Some now) (Some context) (reset_dedup_state (clear_pending_change c)))).
  assert (Hmark : mark_capture_started context now (clear_pending_change c) = (c1, Ok tt)).
  { unfold mark_capture_started, lift, require_monotonic_ns, throw_if, gets, require, modify, before, mbind, M_bind. cbn.
    rewrite (proj2 (Z.ltb_ge now 0)), Hlast, (proj2 (Z.ltb_ge now last)), Hprev by lia. cbn.
    by rewrite bool_decide_true by done. }
  unfold M_bind at 1, on_controller, zoom. cbn [fst snd]. rewrite Hpoll. cbn [td_kind].
  rewrite bool_decide_false by done. unfold M_bind at 1. cbn [fst snd]. rewrite Hmark.
  unfold M_bind at 1, on_backend, zoom. cbn [fst snd]. rewrite Hcap.
  unfold require, M_bind at 1. rewrite (proj2 (Z.eqb_eq _ _) Hgen). unfold M_bind at 1. rewrite Hfmt, bool_decide_true by done.
  unfold M_bind at 1. rewrite Hfp. unfold M_bind at 1. cbn [fst snd].
  assert (Hclass : classify_frame context fp now c1 = (set_span (Some context) (Some fp) 1 (Some now) (Some now) c1,
    Ok {| fd_disposition := ACCEPT; fd_span_count := 1; fd_span_started_monotonic_ns := now;
          fd_span_last_seen_monotonic_ns := now |})).
  { unfold classify_frame, lift, require_monotonic_ns, throw_if, gets, require, before, mbind, M_bind.
    rewrite (proj2 (Z.ltb_ge now 0)), (proj2 (Z.ltb_ge fp 0)) by lia.
    change (Z.shiftl 1 HASH_BITS) with (2 ^ 64). by rewrite (proj2 (Z.leb_gt (2 ^ 64) fp)) by lia. }
  rewrite Hclass. cbn [fd_disposition]. rewrite bool_decide_false by done. eexists _, _. split; [done|]. done.
Qed.
End Flow.

(** ** Witnesses *)

Definition demo_controller : controller :=
  match make_controller (float_of 10) (dec 5 2) (dec 25 2) 8 with Ok c => c | Raise _ =>
    {| c_cadence_seconds := float_of 10; c_change_threshold := dec 5 2; c_debounce_ns := 0;
       c_max_backoff_multiplier := 1; c_backoff_multiplier := 1; c_last_capture_ns := None;
       c_last_capture_context := None; c_pending_change_context := None; c_pending_change_since_ns := None;
       c_last_dedup_context := None; c_last_fingerprint := None; c_span_count := 0;
       c_span_started_ns := None; c_span_last_seen_ns := None |} end.
Definition demo_dedup (generation : Z) (window : string) : DedupContext :=
  {| dc_generation := generation; dc_policy_revision := u "policy-a"; dc_configuration_revision := u "config-a";
     dc_application := Some (u "editor"); dc_workspace := Some (u "code"); dc_window_id := Some (u window) |}.

Fixpoint run_ops (ops : list controller_op) (c : controller) : controller :=
  match ops with [] => c | op :: ops' => run_ops ops' (run_controller_op op c).1 end.

Lemma run_ops_steps ops c : steps controller_step c ops (run_ops ops c).
Proof. revert c. induction ops as [|op ops IH]; intros c; econstructor; [reflexivity|apply IH]. Defined.

Definition demo_ops : list controller_op :=
  [CMark (demo_dedup 7 "41") 1000000000; CClassify (demo_dedup 7 "41") 5 1000000000;
   CPoll (demo_dedup 7 "42") 1100000000; COverload; CClassify (demo_dedup 7 "41") 4 1100000000].

Definition trigger_of (r : result CaptureTriggerDecision) : option CaptureTriggerKind :=
  match r with Ok d => Some (td_kind d) | Raise _ => None end.

(** As the unit tests of the controller have it. *)
Example demo_polls :
  (trigger_of (poll (demo_dedup 7 "42") 1200000000 (run_ops demo_ops demo_controller)).2,
   trigger_of (poll (demo_dedup 7 "42") 1400000000 (run_ops demo_ops demo_controller)).2,
   trigger_of (poll (demo_dedup 8 "42") 1200000000 (run_ops demo_ops demo_controller)).2,
   trigger_of (poll (demo_dedup 7 "41") 21000000000 (run_ops demo_ops demo_controller)).2)
  = (Some TRIGGER_NONE, Some CONTEXT_CHANGE, Some CADENCE, Some CADENCE).
Proof. vm_compute. reflexivity. Qed.

Lemma controller_stays_consistent_witness :
  make_controller (float_of 10) (dec 5 2) (dec 25 2) 8 = Ok demo_controller /\
  controller_inv (run_ops demo_ops demo_controller).
Proof.
  assert (Hm : make_controller (float_of 10) (dec 5 2) (dec 25 2) 8 = Ok demo_controller) by (vm_compute; reflexivity).
  split; [exact Hm|].
  exact (proj1 (controller_stays_consistent (float_of 10) (dec 5 2) (dec 25 2) 8 demo_controller demo_ops _ CReset Hm
    (run_ops_steps demo_ops demo_controller))).
Defined.

Lemma span_is_anchored_witness :
  exists c1 d0 c2 ds,
    classify_frame (demo_dedup 7 "41") 5 10 demo_controller = (c1, Ok d0) /\
    classify_all [(demo_dedup 7 "41", 4, 20); (demo_dedup 7 "41", 7, 30)] c1 = (c2, Ok ds) /\
    (forall i d, ds !! i = Some d -> fd_span_count d = 2 + Z.of_nat i /\ fd_span_started_monotonic_ns d = 10).
Proof.
  eexists _, _, _, _. split; [vm_compute; reflexivity|]. split; [vm_compute; reflexivity|].
  refine (proj2 (span_is_anchored (demo_dedup 7 "41") 5 10 demo_controller _ _
    [(demo_dedup 7 "41", 4, 20); (demo_dedup 7 "41", 7, 30)] _ _ _ _ _ _)); [vm_compute; reflexivity|reflexivity|vm_compute; reflexivity|].
  repeat constructor.
Defined.

Definition demo_frame : RawFrame :=
  {| rf_frame_id := 1; rf_generation := 8; rf_captured_at := {| dt_wall := 0; dt_offset := 0 |};
     rf_width := 1; rf_height := 1; rf_stride := 3; rf_pixel_format := RGB8; rf_pixels := [10; 20; 30];
     rf_metadata := {| cm_observed_at := {| dt_wall := 0; dt_offset := 0 |}; cm_fields := [] |} |}.
Definition demo_capture_request : ApprovedCaptureRequest :=
  {| ar_intent := {| ci_job_id := 1; ci_generation := 8; ci_requested_at := {| dt_wall := 0; dt_offset := 0 |};
       ci_deadline_monotonic_ns := 1; ci_configuration_revision := u "config-a" |};
     ar_metadata := {| cm_observed_at := {| dt_wall := 0; dt_offset := 0 |}; cm_fields := [] |};
     ar_authorization := {| ca_policy_revision := u "policy-a"; ca_allowed_metadata_fields := [] |} |}.

Lemma privacy_change_forces_fresh_witness :
  exists c' res,
    capture_if_due (fun _ w => (w, Ok demo_frame)) demo_capture_request 1200000000
      (run_ops demo_ops demo_controller, tt) = ((c', tt), Ok res) /\ ac_frame res = Some demo_frame.
Proof.
  destruct (privacy_change_forces_fresh (fun _ w => (w, Ok demo_frame)) demo_capture_request 1200000000
    (run_ops demo_ops demo_controller) tt
    {| dc_generation := 8; dc_policy_revision := u "policy-a"; dc_configuration_revision := u "config-a";
       dc_application := None; dc_workspace := None; dc_window_id := None |}
    (demo_dedup 7 "41") 1000000000 demo_frame tt) as (c'&res&H&_&Hf&_);
    [vm_compute; reflexivity..|discriminate|lia|lia|reflexivity|vm_compute; reflexivity|reflexivity|reflexivity|].
  exists c', res. split; [exact H|exact Hf].
Defined.
