(* ===== verification/Retention.v ===== *)
(** * Retention: planning, sweeping, collecting and purging.

    Models [retention/planner.py], [retention/engine.py], [retention/gc.py] and
    [retention/purge.py].  [RetentionStorage] is the protocol of the same name:
    the theorems of [RetentionFacts] use it through the canonical storage.  The
    [while True] page walks are structural on [fuel], the number of pages
    walked; [RetentionFacts] shows how many are enough.  A decrypted record is
    seen through its redacted metadata. *)

From S2P Require Import Prelude PyStr Storage Catalog Policy.

Class RetentionStorage (W : Type) := {
  rs_page_ready : option Z -> option uuid -> Z -> M W CatalogPage;
  rs_get : uuid -> M W (option EncryptedRecordEnvelope);
  rs_delete : uuid -> pystr -> M W bool;
  rs_recover : M W unit }.

(** ** [retention/planner.py] *)

Record ContextRetentionRule := { rr_field_name : pystr; rr_value : pystr; rr_max_age_days : Z }.
#[export] Instance ContextRetentionRule_eq_dec : EqDecision ContextRetentionRule.
Proof. solve_decision. Defined.

Definition make_context_rule (r : ContextRetentionRule) : result ContextRetentionRule :=
  _ ← throw_if (bool_decide (rr_field_name r ∉ [u "application"; u "workspace"])) ValueError;
  _ ← throw_if (bool_decide (rr_value r = []) || (256 <? zlen (rr_value r))) ValueError;
  _ ← throw_if (existsb (fun c => c <? 32) (rr_value r)) ValueError;
  _ ← throw_if (negb ((1 <=? rr_max_age_days r) && (rr_max_age_days r <=? 3650))) ValueError;
  mret r.

Record RetentionRules := {
  rl_max_age_days : Z;
  rl_max_bytes : Z;
  rl_max_records : Z;
  rl_low_watermark_bytes : option Z;
  rl_context_rules : list ContextRetentionRule }.

Definition make_rules (r : RetentionRules) : result RetentionRules :=
  _ ← throw_if (negb ((1 <=? rl_max_age_days r) && (rl_max_age_days r <=? 3650))) ValueError;
  _ ← throw_if ((rl_max_bytes r <=? 0) || (rl_max_records r <=? 0)) ValueError;
  _ ← throw_if (match rl_low_watermark_bytes r with Some low => rl_max_bytes r <? low | None => false end) ValueError;
  _ ← throw_if (negb (bool_decide (NoDup (rr_field_name <$> rl_context_rules r)))) ValueError;
  mret {| rl_max_age_days := rl_max_age_days r; rl_max_bytes := rl_max_bytes r;
          rl_max_records := rl_max_records r;
          rl_low_watermark_bytes := match rl_low_watermark_bytes r with
                                    | Some low => Some low
                                    | None => Some (rl_max_bytes r * 4 / 5)
                                    end;
          rl_context_rules := rl_context_rules r |}.

Record RetentionPlan := {
  rp_expired : list uuid;
  rp_evicted : list uuid;
  rp_reclaimed_bytes : Z;
  rp_dry_run : bool }.

(** The locals of [plan]'s loop. *)
Record plan_state := {
  ps_expired : list uuid;
  ps_candidates : list CatalogEntry;
  ps_decrypted : Z }.

(** [max((d, *ds))] and [min((d, *ds))] *)
Definition max_of (d : Z) (ds : list Z) : Z := foldl Z.max d ds.
Definition min_of (d : Z) (ds : list Z) : Z := foldl Z.min d ds.

Section Planner.
Context {W : Type} `{RetentionStorage W}.
(** [encryption.decrypt], when there is an encryption provider. *)
Variable decrypt : option (EncryptedRecordEnvelope -> M W ContextMetadata).
Variables (rules : RetentionRules) (today decrypt_budget : Z).

Definition cutoff_of (max_age_days : Z) : Z := today - max_age_days.
Definition global_cutoff : Z := cutoff_of (rl_max_age_days rules).
Definition rule_cutoffs : list Z := (fun r => cutoff_of (rr_max_age_days r)) <$> rl_context_rules rules.
Definition floor_cutoff : Z := min_of global_cutoff rule_cutoffs.
Definition ceil_cutoff : Z := max_of global_cutoff rule_cutoffs.

Definition matches_rule (m : ContextMetadata) (r : ContextRetentionRule) : bool :=
  match metadata_get m (rr_field_name r) with
  | MStr v => bool_decide (casefold v = casefold (rr_value r))
  | _ => false
  end.

(** The cutoff of a record with metadata [m]: the latest among the overrides
    that match it, or the global one. *)
Definition effective_cutoff (m : ContextMetadata) : Z :=
  match (fun r => cutoff_of (rr_max_age_days r)) <$> List.filter (matches_rule m) (rl_context_rules rules) with
  | [] => global_cutoff
  | d :: ds => max_of d ds
  end.

Definition expires_in_window (c : CatalogEntry) : M W bool :=
  match decrypt with
  | None => raise ScopeBudgetExceeded
  | Some dec =>
      envelope ← rs_get (ce_record_id c);
      match envelope with
      | None => mret true
      | Some e => m ← dec e; mret (ce_day_bucket c <? effective_cutoff m)
      end
  end.

Definition add_candidate (c : CatalogEntry) (st : plan_state) : plan_state :=
  {| ps_expired := ps_expired st; ps_candidates := ps_candidates st ++ [c];
     ps_decrypted := ps_decrypted st |}.
Definition add_expired (c : CatalogEntry) (st : plan_state) : plan_state :=
  {| ps_expired := ps_expired st ++ [ce_record_id c]; ps_candidates := ps_candidates st;
     ps_decrypted := ps_decrypted st |}.
Definition add_decrypted (st : plan_state) : plan_state :=
  {| ps_expired := ps_expired st; ps_candidates := ps_candidates st;
     ps_decrypted := ps_decrypted st + 1 |}.

(** The body of the inner loop. *)
Definition plan_entry (c : CatalogEntry) (st : plan_state) : M W plan_state :=
  let st := add_candidate c st in
  if ce_day_bucket c <? floor_cutoff then mret (add_expired c st)
  else if ceil_cutoff <=? ce_day_bucket c then mret st
  else
    let st := add_decrypted st in
    _ ← require (negb (decrypt_budget <? ps_decrypted st)) ScopeBudgetExceeded;
    expires ← expires_in_window c;
    mret (if (expires : bool) then add_expired c st else st).

Fixpoint plan_entries (cs : list CatalogEntry) (st : plan_state) : M W plan_state :=
  match cs with
  | [] => mret st
  | c :: cs' => st' ← plan_entry c st; plan_entries cs' st'
  end.

(** A page walk: [f] on each page's entries, [page.entries[-1]] the cursor. *)
Fixpoint walk_pages {A} (fuel : nat) (f : list CatalogEntry -> A -> M W A)
    (after_day : option Z) (after_id : option uuid) (acc : A) : M W A :=
  match fuel with
  | O => raise (External 99)
  | S fuel' =>
      page ← rs_page_ready after_day after_id PAGE_LIMIT;
      acc' ← f (cp_entries page) acc;
      if cp_complete page then mret acc'
      else match last (cp_entries page) with
           | None => raise IndexError
           | Some e => walk_pages fuel' f (Some (ce_day_bucket e)) (Some (ce_record_id e)) acc'
           end
  end.

(** The loop of [_eviction_set], from [evicted] and [freed]. *)
Fixpoint evict_loop (overflow must_free : Z) (already : list uuid) (cs : list CatalogEntry)
    (evicted : list uuid) (freed : Z) : list uuid :=
  match cs with
  | [] => evicted
  | c :: cs' =>
      if (overflow <=? zlen evicted) && (must_free <=? freed) then evicted
      else if bool_decide (ce_record_id c ∈ already) then evict_loop overflow must_free already cs' evicted freed
      else evict_loop overflow must_free already cs' (evicted ++ [ce_record_id c]) (freed + ce_blob_bytes c)
  end.

Definition eviction_set (candidates : list CatalogEntry) (expired : list uuid) : result (list uuid) :=
  let usage_bytes := sum_by ce_blob_bytes candidates in
  let overflow := Z.max (zlen candidates - rl_max_records rules) 0 in
  let pressure := Z.max (usage_bytes - rl_max_bytes rules) 0 in
  if (overflow =? 0) && (pressure =? 0) then mret []
  else
    match rl_low_watermark_bytes rules with
    | None => Raise ValueError
    | Some low =>
        let must_free := if 0 <? pressure then Z.max (usage_bytes - low) 0 else 0 in
        mret (evict_loop overflow must_free expired candidates [] 0)
    end.

Definition plan (fuel : nat) (dry_run : bool) : M W RetentionPlan :=
  st ← walk_pages fuel plan_entries None None
         {| ps_expired := []; ps_candidates := []; ps_decrypted := 0 |};
  evicted ← lift (eviction_set (ps_candidates st) (ps_expired st));
  let selected := ps_expired st ++ evicted in
  mret {| rp_expired := ps_expired st; rp_evicted := evicted;
          rp_reclaimed_bytes :=
            sum_by (fun c => if bool_decide (ce_record_id c ∈ selected) then ce_blob_bytes c else 0)
              (ps_candidates st);
          rp_dry_run := dry_run |}.

(** ** [retention/engine.py] *)

Record RetentionSweepResult := {
  sw_planned_count : Z; sw_deleted_count : Z; sw_reclaimed_bytes : Z; sw_dry_run : bool }.

(** [dict.fromkeys]: the first occurrence of each key. *)
Fixpoint dedup (seen l : list uuid) : list uuid :=
  match l with
  | [] => []
  | x :: l' => if bool_decide (x ∈ seen) then dedup seen l' else x :: dedup (x :: seen) l'
  end.

Fixpoint delete_all (reason : pystr) (ids : list uuid) (deleted : Z) : M W Z :=
  match ids with
  | [] => mret deleted
  | id :: ids' => d ← rs_delete id reason; delete_all reason ids' (if (d : bool) then deleted + 1 else deleted)
  end.

(** [audit.retention_sweep(count, bytes_reclaimed, dry_run)], when audited. *)
Variable audit_sweep : option (Z -> Z -> bool -> M W unit).
Definition emit_sweep (count reclaimed : Z) (dry_run : bool) : M W unit :=
  match audit_sweep with Some emit => emit count reclaimed dry_run | None => mret tt end.

Definition sweep (fuel : nat) (dry_run : bool) : M W RetentionSweepResult :=
  plan ← plan fuel dry_run;
  let selected := dedup [] (rp_expired plan ++ rp_evicted plan) in
  if dry_run then
    _ ← emit_sweep 0 0 true;
    mret {| sw_planned_count := zlen selected; sw_deleted_count := 0; sw_reclaimed_bytes := 0;
            sw_dry_run := true |}
  else
    deleted ← delete_all (u "retention-sweep") selected 0;
    _ ← emit_sweep deleted (rp_reclaimed_bytes plan) false;
    mret {| sw_planned_count := zlen selected; sw_deleted_count := deleted;
            sw_reclaimed_bytes := rp_reclaimed_bytes plan; sw_dry_run := false |}.
End Planner.

(** ** [retention/gc.py] and [retention/purge.py] *)

(** The derived stores and the key provider those engines drive. *)
Class DerivedStores (W : Type) := {
  ix_record_ids : M W (list uuid);
  ix_remove : list uuid -> M W unit;
  ix_clear : M W unit;
  ac_load : M W (option (list (list uuid)));   (** the clusters' source ids *)
  ac_replace_empty : M W unit;
  ac_reconcile_deleted : list uuid -> M W unit;
  kp_active_key : M W KeyHandle;
  kp_destroy : KeyHandle -> pystr -> M W bool }.

Section Engines.
Context {W : Type} `{RetentionStorage W} `{DerivedStores W}.

Definition canonical_ids (fuel : nat) : M W (list uuid) :=
  walk_pages fuel (fun es ids => mret (ids ++ (ce_record_id <$> es))) None None [].

Record GarbageCollectionResult := { gr_pruned_index_entries : Z; gr_rebuilt_activity : bool }.

Definition prune_index (canonical : list uuid) : M W Z :=
  indexed ← ix_record_ids;
  let stale := List.filter (fun r => negb (bool_decide (r ∈ canonical))) indexed in
  match stale with
  | [] => mret 0
  | _ => _ ← ix_remove stale; mret (zlen stale)
  end.

(** [tuple(members - canonical)]: the set's order is some order of it. *)
Definition rebuild_activity (canonical : list uuid) : M W bool :=
  snapshot ← ac_load;
  match snapshot with
  | None => mret false
  | Some clusters =>
      let stale := List.filter (fun r => negb (bool_decide (r ∈ canonical))) (dedup [] (mjoin clusters)) in
      match stale with
      | [] => mret false
      | _ => _ ← ac_reconcile_deleted stale; mret true
      end
  end.

Variable audit_gc : option (Z -> M W unit).
Definition collect_garbage (fuel : nat) : M W GarbageCollectionResult :=
  _ ← rs_recover;
  canonical ← canonical_ids fuel;
  pruned ← prune_index canonical;
  rebuilt ← rebuild_activity canonical;
  _ ← match audit_gc with Some emit => emit pruned | None => mret tt end;
  mret {| gr_pruned_index_entries := pruned; gr_rebuilt_activity := rebuilt |}.

Record PurgeAllResult := {
  pr_planned_count : Z; pr_deleted_count : Z; pr_key_destroyed : bool; pr_dry_run : bool }.

Definition destroy_active_key : M W bool :=
  handle ← try_except (k ← kp_active_key; mret (Some k))
    (fun x => match x with KeyProviderFailure KEY_NOT_FOUND => mret None | _ => raise x end);
  match handle with
  | None => mret false
  | Some k => kp_destroy k (u "purge-all")
  end.

Variable audit_purge : option (Z -> bool -> M W unit).
Definition purge (fuel : nat) (dry_run : bool) : M W PurgeAllResult :=
  planned ← canonical_ids fuel;
  if dry_run
  then mret {| pr_planned_count := zlen planned; pr_deleted_count := 0; pr_key_destroyed := false;
               pr_dry_run := true |}
  else
    deleted ← delete_all (u "purge-all") planned 0;
    _ ← ix_clear;
    _ ← ac_replace_empty;
    key_destroyed ← destroy_active_key;
    _ ← match audit_purge with Some emit => emit deleted key_destroyed | None => mret tt end;
    mret {| pr_planned_count := zlen planned; pr_deleted_count := deleted;
            pr_key_destroyed := key_destroyed; pr_dry_run := false |}.
End Engines.

(** ** The canonical storage as the engines' storage *)

Definition canonical_storage `{EnvelopeCodec} (sha256 : pybytes -> pybytes) (max_blob_bytes : Z)
    (fault : fault_point -> bool) : RetentionStorage store :=
  {| rs_page_ready := page_ready;
     rs_get := get sha256 max_blob_bytes;
     rs_delete id _ := delete_record fault id;
     rs_recover := (_ ← recover sha256 max_blob_bytes; mret tt) |}.
