(* ===== verification/RetentionFacts.v ===== *)
(** * RetentionFacts: retention over the canonical storage.

    The page walk is a fold over the canonical order; planning equals its
    unoptimised specification; eviction is the minimal oldest-first prefix; a
    sweep removes the selected records and no other. *)

From S2P Require Import Prelude PyStr Storage StorageFacts StorageProps Catalog Policy Retention.

Lemma max_of_ge d ds x : x ∈ d :: ds -> x <= max_of d ds.
Proof.
  unfold max_of. revert d x. induction ds as [|y ds IH]; intros d x Hx; cbn.
  - apply list_elem_of_singleton in Hx as ->. lia.
  - assert (forall a, a <= foldl Z.max a ds) as Hm by (intros a; apply IH; constructor).
    apply elem_of_cons in Hx as [->|Hx]; [pose proof (Hm (Z.max d y)); lia|].
    apply elem_of_cons in Hx as [->|Hx]; [pose proof (Hm (Z.max d y)); lia|].
    apply IH. by constructor.
Qed.

Lemma max_of_in d ds : max_of d ds ∈ d :: ds.
Proof.
  unfold max_of. revert d. induction ds as [|y ds IH]; intros d; cbn; [constructor|].
  pose proof (IH (Z.max d y)) as H. destruct (Z.max_spec d y) as [[? E]|[? E]]; rewrite E in *; set_solver.
Qed.

Lemma min_of_le d ds x : x ∈ d :: ds -> min_of d ds <= x.
Proof.
  unfold min_of. revert d x. induction ds as [|y ds IH]; intros d x Hx; cbn.
  - apply list_elem_of_singleton in Hx as ->. lia.
  - assert (forall a, foldl Z.min a ds <= a) as Hm by (intros a; apply IH; constructor).
    apply elem_of_cons in Hx as [->|Hx]; [pose proof (Hm (Z.min d y)); lia|].
    apply elem_of_cons in Hx as [->|Hx]; [pose proof (Hm (Z.min d y)); lia|].
    apply IH. by constructor.
Qed.

(** The records an eviction chooses from, oldest first. *)
Definition survivors (expired : list uuid) (cs : list CatalogEntry) : list CatalogEntry :=
  List.filter (fun c => negb (bool_decide (ce_record_id c ∈ expired))) cs.

(** [overflow] records and [must_free] bytes. *)
Definition enough (overflow must_free : Z) (l : list CatalogEntry) : Prop :=
  overflow <= zlen l /\ must_free <= sum_by ce_blob_bytes l.

Lemma evict_loop_spec overflow must_free already cs pre0 :
  exists pre rest,
    survivors already cs = pre ++ rest /\
    evict_loop overflow must_free already cs (ce_record_id <$> pre0) (sum_by ce_blob_bytes pre0)
      = ce_record_id <$> (pre0 ++ pre) /\
    (rest = [] \/ enough overflow must_free (pre0 ++ pre)) /\
    (forall k, (k < length pre)%nat -> ~ enough overflow must_free (pre0 ++ take k pre)).
Proof.
  revert pre0. induction cs as [|c cs IH]; intros pre0.
  - exists [], []. rewrite !app_nil_r. split; [done|]. split; [done|]. split; [by left|]. intros k Hk. cbn in Hk. lia.
  - cbn. assert (Hlen : zlen (ce_record_id <$> pre0) = zlen pre0) by (unfold zlen; by rewrite length_fmap).
    rewrite Hlen. destruct ((overflow <=? zlen pre0) && (must_free <=? sum_by ce_blob_bytes pre0)) eqn:E.
    + btauto_hyps. exists [], (survivors already (c :: cs)). rewrite !app_nil_r. split; [done|].
      split; [done|]. split; [by right|]. intros k Hk. cbn in Hk. lia.
    + case_bool_decide as Ha; cbn.
      * destruct (IH pre0) as (pre&rest&?&?&?&?). by exists pre, rest.
      * destruct (IH (pre0 ++ [c])) as (pre&rest&H1&H2&H3&H4).
        exists (c :: pre), rest. rewrite <- app_assoc in *. cbn in *. rewrite fmap_app, sum_by_app in H2.
        split; [by f_equal|]. split.
        { rewrite <- H2. f_equal. rewrite sum_by_cons. change (sum_by ce_blob_bytes []) with 0. lia. }
        split; [done|]. intros [|k] Hk; cbn.
        -- rewrite app_nil_r. intros [? ?]. apply andb_false_iff in E as [E|E]; btauto_hyps; lia.
        -- specialize (H4 k ltac:(lia)). by rewrite <- app_assoc in H4.
Qed.

Section Eviction.
Variable rules : RetentionRules.

Definition overflow_of (cs : list CatalogEntry) : Z := Z.max (zlen cs - rl_max_records rules) 0.
Definition must_free_of (low : Z) (cs : list CatalogEntry) : Z :=
  if rl_max_bytes rules <? sum_by ce_blob_bytes cs then Z.max (sum_by ce_blob_bytes cs - low) 0 else 0.

Lemma eviction_prefix low cs expired evicted :
  rl_low_watermark_bytes rules = Some low -> eviction_set rules cs expired = Ok evicted ->
  exists pre rest, survivors expired cs = pre ++ rest /\ evicted = ce_record_id <$> pre /\
    (rest = [] \/ enough (overflow_of cs) (must_free_of low cs) pre) /\
    (forall k, (k < length pre)%nat -> ~ enough (overflow_of cs) (must_free_of low cs) (take k pre)).
Proof.
  intros Hlow. unfold eviction_set. rewrite Hlow. fold (overflow_of cs).
  destruct ((overflow_of cs =? 0) && (Z.max (sum_by ce_blob_bytes cs - rl_max_bytes rules) 0 =? 0)) eqn:E.
  - intros [= <-]. exists [], (survivors expired cs). split; [done|]. split; [done|]. btauto_hyps.
    split; [right|intros k Hk; cbn in Hk; lia]. unfold enough, must_free_of.
    rewrite (proj2 (Z.ltb_ge _ _)) by lia. change (zlen (A:=CatalogEntry) []) with 0.
    change (sum_by ce_blob_bytes []) with 0. lia.
  - intros [= <-]. assert (Hm : (if 0 <? Z.max (sum_by ce_blob_bytes cs - rl_max_bytes rules) 0
      then Z.max (sum_by ce_blob_bytes cs - low) 0 else 0) = must_free_of low cs).
    { unfold must_free_of. destruct (Z.ltb_spec (rl_max_bytes rules) (sum_by ce_blob_bytes cs));
        [rewrite (proj2 (Z.ltb_lt _ _)) by lia|rewrite (proj2 (Z.ltb_ge _ _)) by lia]; done. }
    rewrite Hm. destruct (evict_loop_spec (overflow_of cs) (must_free_of low cs) expired cs []) as (pre&rest&H1&H2&H3&H4).
    exists pre, rest. split; [done|]. split; [exact H2|]. by split.
Qed.

(** [eviction_is_minimal]: Eviction is oldest-first and stops as soon as it
    may: what is evicted is the shortest prefix, in canonical order, of the
    records that do not expire anyway, that covers the record overflow and
    the bytes down to the low watermark (all of them if none does); nothing
    is evicted when both limits hold. *)
Theorem eviction_is_minimal low cs expired evicted :
  rl_low_watermark_bytes rules = Some low -> eviction_set rules cs expired = Ok evicted ->
  exists pre rest, survivors expired cs = pre ++ rest /\ evicted = ce_record_id <$> pre /\
    (rest = [] \/ enough (overflow_of cs) (must_free_of low cs) pre) /\
    (forall k, (k < length pre)%nat -> ~ enough (overflow_of cs) (must_free_of low cs) (take k pre)).
Proof. apply eviction_prefix. Qed.

Lemma survivors_app already a b : survivors already (a ++ b) = survivors already a ++ survivors already b.
Proof. apply List.filter_app. Qed.

Lemma survivors_cons already c cs :
  survivors already (c :: cs) =
  if bool_decide (ce_record_id c ∈ already) then survivors already cs else c :: survivors already cs.
Proof. unfold survivors. cbn. by destruct (bool_decide _). Qed.

Lemma survivors_id already cs :
  (forall c, c ∈ cs -> ce_record_id c ∉ already) -> survivors already cs = cs.
Proof.
  intros Hc. induction cs as [|c cs IH]; [done|]. rewrite survivors_cons, bool_decide_false by (apply Hc; constructor).
  f_equal. apply IH. intros x Hx. apply Hc. by constructor.
Qed.

Lemma survivors_none already cs :
  (forall c, c ∈ cs -> ce_record_id c ∈ already) -> survivors already cs = [].
Proof.
  intros Hc. induction cs as [|c cs IH]; [done|]. rewrite survivors_cons, bool_decide_true by (apply Hc; constructor).
  apply IH. intros x Hx. apply Hc. by constructor.
Qed.

Lemma survivors_both a b cs : survivors (a ++ b) cs = survivors b (survivors a cs).
Proof.
  induction cs as [|c cs IH]; [done|]. rewrite !survivors_cons, IH.
  rewrite (bool_decide_ext (ce_record_id c ∈ a ++ b) (ce_record_id c ∈ a \/ ce_record_id c ∈ b)) by apply elem_of_app.
  destruct (decide (ce_record_id c ∈ a)) as [Ha|Ha].
  - by rewrite !bool_decide_true by auto.
  - rewrite (bool_decide_false (_ ∈ a)), survivors_cons by done.
    by rewrite (bool_decide_ext (ce_record_id c ∈ a \/ ce_record_id c ∈ b) (ce_record_id c ∈ b)) by naive_solver.
Qed.

Lemma survivors_le already cs :
  (forall c, c ∈ cs -> 0 <= ce_blob_bytes c) ->
  zlen (survivors already cs) <= zlen cs /\
  sum_by ce_blob_bytes (survivors already cs) <= sum_by ce_blob_bytes cs.
Proof.
  intros Hc. induction cs as [|c cs IH]; [done|].
  destruct IH as [H1 H2]; [intros x Hx; apply Hc; by constructor|].
  assert (0 <= ce_blob_bytes c) by (apply Hc; constructor).
  rewrite survivors_cons. unfold zlen in *. destruct (bool_decide _); rewrite ?sum_by_cons; cbn [length]; lia.
Qed.

(** [plan_meets_limits]: Applying a plan brings storage within its limits:
    the records it leaves number at most [max_records] and occupy at most
    [max_bytes], and at most the low watermark when the high one was
    exceeded. *)
Theorem plan_meets_limits low cs expired evicted :
  rl_low_watermark_bytes rules = Some low -> low <= rl_max_bytes rules ->
  0 <= rl_max_records rules -> 0 <= low ->
  NoDup (ce_record_id <$> cs) -> (forall c, c ∈ cs -> 0 <= ce_blob_bytes c) ->
  eviction_set rules cs expired = Ok evicted ->
  let left := survivors (expired ++ evicted) cs in
  zlen left <= rl_max_records rules /\ sum_by ce_blob_bytes left <= rl_max_bytes rules /\
  (rl_max_bytes rules < sum_by ce_blob_bytes cs -> sum_by ce_blob_bytes left <= low).
Proof.
  intros Hlow Hle Hrec Hpos Hnd Hbytes Hev left.
  destruct (eviction_prefix low cs expired evicted Hlow Hev) as (pre&rest&Hsur&->&Hen&_).
  destruct (survivors_le expired cs Hbytes) as [Hc1 Hc2]. rewrite Hsur, zlen_app in Hc1.
  rewrite Hsur, sum_by_app in Hc2.
  assert (Hleft : left = rest).
  { unfold left. rewrite survivors_both, Hsur, survivors_app, survivors_none, survivors_id; [done| |].
    - assert (Hnd2 : NoDup (ce_record_id <$> survivors expired cs)).
      { clear -Hnd. induction cs as [|c cs IH]; [constructor|]. apply NoDup_cons in Hnd as [Hn Hnd].
        rewrite survivors_cons. destruct (bool_decide _); [by apply IH|]. apply NoDup_cons. split; [|by apply IH].
        intros Hin. apply Hn. apply list_elem_of_fmap in Hin as (x&Hx&Hin).
        apply list_elem_of_fmap. exists x. split; [done|].
        by apply list_elem_of_In, List.filter_In in Hin as [?%list_elem_of_In _]. }
      rewrite Hsur, fmap_app in Hnd2. apply NoDup_app in Hnd2 as (_&Hd&_).
      intros c Hc Hin. apply (Hd _ Hin). by apply list_elem_of_fmap_2.
    - intros c Hc. by apply list_elem_of_fmap_2. }
  rewrite Hleft. pose proof (zlen_nonneg pre). unfold enough, overflow_of, must_free_of in Hen.
  destruct Hen as [->|[H1 H2]].
  - change (zlen (A:=CatalogEntry) []) with 0. change (sum_by ce_blob_bytes []) with 0. lia.
  - assert (0 <= sum_by ce_blob_bytes pre).
    { apply sum_by_nonneg. intros c Hc. apply Hbytes.
      assert (c ∈ survivors expired cs) as Hin by (rewrite Hsur; apply elem_of_app; by left).
      by apply list_elem_of_In, List.filter_In in Hin as [?%list_elem_of_In _]. }
    split; [lia|]. destruct (Z.ltb_spec (rl_max_bytes rules) (sum_by ce_blob_bytes cs)); split; lia.
Qed.
End Eviction.

(** ** The page walk is a fold *)

Section Walk.
Context {W : Type} `{RetentionStorage W}.
(** The storage whose pages are walked *)
Variable view : W -> store.
Hypothesis pages : forall d i limit w, rs_page_ready d i limit w = (w, (page_ready d i limit (view w)).2).

(** [f] acts as the pure fold [g], page by page. *)
Definition folds {A} (f : list CatalogEntry -> A -> M W A) (g : list CatalogEntry -> A) (w : W) : Prop :=
  forall k n, f (take n (drop k (ready_entries (view w)))) (g (take k (ready_entries (view w)))) w =
    (w, Ok (g (take (k + n) (ready_entries (view w))))).

Lemma walk_pages_ok {A} (f : list CatalogEntry -> A -> M W A) g w fuel k d i :
  folds f g w -> cursor_at (view w) k d i -> (0 < fuel)%nat ->
  zlen (drop k (ready_entries (view w))) <= Z.of_nat fuel * PAGE_LIMIT ->
  walk_pages fuel f d i (g (take k (ready_entries (view w)))) w = (w, Ok (g (ready_entries (view w)))).
Proof.
  intros Hf. revert k d i. induction fuel as [|fuel IH]; intros k d i Hc Hpos Hfuel; [lia|].
  assert (Hlim : 1 <= PAGE_LIMIT <= PAGE_LIMIT) by (unfold PAGE_LIMIT; lia).
  destruct (page_ready_at (view w) k d i PAGE_LIMIT Hlim Hc) as [Hp Hnext].
  cbn [walk_pages]. unfold mbind, M_bind at 1. rewrite pages, Hp. cbn [cp_entries cp_complete snd]. unfold M_bind at 1. rewrite Hf.
  destruct (zlen (drop k (ready_entries (view w))) <=? PAGE_LIMIT) eqn:Hl.
  - unfold mret, M_ret. do 3 f_equal. apply take_ge. btauto_hyps. unfold zlen in *. rewrite length_drop in *. lia.
  - destruct (Hnext eq_refl) as (e&Hlast&Hcur&Hlt). rewrite Hlast. btauto_hyps.
    unfold zlen in *. rewrite length_drop in *. apply IH; [done|unfold PAGE_LIMIT in *; lia|].
    rewrite length_drop. unfold PAGE_LIMIT in *. lia.
Qed.
End Walk.

Lemma page_ready_keeps d i limit s : page_ready d i limit s = (s, (page_ready d i limit s).2).
Proof. unfold page_ready. by destruct (_ || _). Qed.

Section Plan.
Context `{EnvelopeCodec}.
Variables (sha256 : pybytes -> pybytes) (max_blob_bytes : Z) (fault : fault_point -> bool).
(** Decryption as the storage's callers see it: it does not write. *)
Variable dec : EncryptedRecordEnvelope -> result ContextMetadata.
Variables (rules : RetentionRules) (today decrypt_budget : Z).

#[local] Instance storage : RetentionStorage store := canonical_storage sha256 max_blob_bytes fault.

Local Abbreviation wf := (wf sha256 max_blob_bytes).
Local Abbreviation visible := (visible sha256 max_blob_bytes).
Local Abbreviation plan := (plan (Some (fun e => lift (dec e))) rules today decrypt_budget).
Local Abbreviation plan_entry := (plan_entry (Some (fun e => lift (dec e))) rules today decrypt_budget).
Local Abbreviation plan_entries := (plan_entries (Some (fun e => lift (dec e))) rules today decrypt_budget).
Local Abbreviation floor := (floor_cutoff rules today).
Local Abbreviation ceil := (ceil_cutoff rules today).
Local Abbreviation effective := (effective_cutoff rules today).

(** C40 (canonical_ids_complete): Walking the pages of the canonical storage
    until one says it is complete visits every ready record exactly once, in
    canonical order, and terminates within one page fetch per 10,000 records:
    this is what garbage collection and purge work from. *)
Theorem canonical_ids_complete s fuel :
  (0 < fuel)%nat -> zlen (rows_in READY s) <= Z.of_nat fuel * PAGE_LIMIT ->
  exists ids, canonical_ids fuel s = (s, Ok ids) /\ ids ≡ₚ (rows_in READY s).*1 /\ NoDup ids /\
    ids = ce_record_id <$> ready_entries s.
Proof.
  intros Hpos Hfuel. exists (ce_record_id <$> ready_entries s).
  assert (Hperm : ce_record_id <$> ready_entries s ≡ₚ (rows_in READY s).*1).
  { rewrite ready_entries_perm, <- list_fmap_compose. done. }
  split; [|split; [done|split; [rewrite Hperm; apply rows_in_keys|done]]].
  unfold canonical_ids.
  refine (walk_pages_ok (fun s => s) page_ready_keeps (fun es ids => mret (ids ++ (ce_record_id <$> es)))
    (fun es => ce_record_id <$> es) s fuel 0 None None _ _ _ _).
  - intros k n. unfold mret, M_ret. do 2 f_equal. rewrite <- fmap_app. f_equal.
    by rewrite take_take_drop.
  - apply cursor_start.
  - done.
  - rewrite drop_0. unfold zlen in *. by rewrite (Permutation_length (ready_entries_perm s)), length_fmap.
Qed.

(** *** What expires *)

Lemma effective_bounds m : floor <= effective m <= ceil.
Proof.
  unfold effective_cutoff, floor_cutoff, ceil_cutoff.
  destruct (_ <$> List.filter _ _) as [|d ds] eqn:E.
  - split; [apply min_of_le; constructor|apply max_of_ge; constructor].
  - assert (Hin : max_of d ds ∈ global_cutoff rules today :: rule_cutoffs rules today).
    { right. pose proof (max_of_in d ds) as Hm. rewrite <- E in Hm.
      apply list_elem_of_fmap in Hm as (r&->&Hr). apply list_elem_of_In, List.filter_In in Hr as [Hr _].
      unfold rule_cutoffs. apply list_elem_of_fmap. exists r. by rewrite list_elem_of_In. }
    split; [by apply min_of_le|by apply max_of_ge].
Qed.

(** The metadata a decryption of the record gives. *)
Variable meta : uuid -> ContextMetadata.
Definition readable (s : store) : Prop :=
  forall id md, s_records s !! id = Some (md, READY) ->
    exists e, visible s id = Some e /\ dec e = Ok (meta id).

(** The specification: no shortcut, every record against its own cutoff. *)
Definition expires (c : CatalogEntry) : bool := ce_day_bucket c <? effective (meta (ce_record_id c)).

Definition in_dispute (c : CatalogEntry) : bool := (floor <=? ce_day_bucket c) && (ce_day_bucket c <? ceil).

Definition planned (l : list CatalogEntry) : plan_state :=
  {| ps_expired := ce_record_id <$> List.filter expires l; ps_candidates := l;
     ps_decrypted := zlen (List.filter in_dispute l) |}.

Lemma planned_snoc l c :
  planned (l ++ [c]) =
  {| ps_expired := ps_expired (planned l) ++ (if expires c then [ce_record_id c] else []);
     ps_candidates := l ++ [c];
     ps_decrypted := ps_decrypted (planned l) + (if in_dispute c then 1 else 0) |}.
Proof.
  unfold planned. cbn. rewrite !List.filter_app, fmap_app, zlen_app. cbn.
  by destruct (expires c), (in_dispute c).
Qed.

Lemma plan_entry_ok s l c :
  wf s -> readable s -> c ∈ ready_entries s ->
  ps_decrypted (planned (l ++ [c])) <= decrypt_budget ->
  plan_entry c (planned l) s = (s, Ok (planned (l ++ [c]))).
Proof.
  intros Hwf Hread Hc. pose proof (effective_bounds (meta (ce_record_id c))) as Hb.
  rewrite planned_snoc. unfold Retention.plan_entry, expires, in_dispute. cbn [ps_decrypted]. intros Hbudget.
  destruct (Z.ltb_spec (ce_day_bucket c) floor) as [Hf|Hf].
  { rewrite (proj2 (Z.ltb_lt _ (effective _))), (proj2 (Z.leb_gt floor _)) by lia. cbn.
    unfold mret, M_ret, add_expired, add_candidate. cbn. by rewrite Z.add_0_r. }
  rewrite (proj2 (Z.leb_le floor _)) in * by lia. cbn [andb] in *.
  destruct (Z.leb_spec ceil (ce_day_bucket c)) as [Hce|Hce].
  { rewrite (proj2 (Z.ltb_ge _ (effective _))), (proj2 (Z.ltb_ge _ ceil)) by lia.
    unfold mret, M_ret, add_candidate. cbn. by rewrite app_nil_r, Z.add_0_r. }
  rewrite (proj2 (Z.ltb_lt _ ceil)) in * by lia.
  unfold require, mbind, M_bind. cbn [ps_decrypted add_decrypted add_candidate].
  rewrite (proj2 (Z.ltb_ge _ _)) by lia. cbn [negb]. unfold expires_in_window, mbind, M_bind.
  change (rs_get (ce_record_id c)) with (get sha256 max_blob_bytes (ce_record_id c)).
  rewrite get_ok by done.
  assert (exists md, s_records s !! ce_record_id c = Some (md, READY)) as [md Hmd].
  { rewrite ready_entries_perm in Hc. apply list_elem_of_fmap in Hc as ([id md]&->&Hin).
    exists md. by apply elem_of_rows_in. }
  destruct (Hread _ _ Hmd) as (e&->&Hdec). unfold lift. rewrite Hdec.
  unfold mret, M_ret. destruct (ce_day_bucket c <? effective _); [done|]. cbn. by rewrite app_nil_r.
Qed.

Lemma planned_decrypted_mono l l' : ps_decrypted (planned l) <= ps_decrypted (planned (l ++ l')).
Proof. unfold planned. cbn. rewrite List.filter_app, zlen_app. pose proof (zlen_nonneg (List.filter in_dispute l')). lia. Qed.

Lemma plan_entries_ok s l l' :
  wf s -> readable s -> Forall (fun c => c ∈ ready_entries s) l' ->
  ps_decrypted (planned (l ++ l')) <= decrypt_budget ->
  plan_entries l' (planned l) s = (s, Ok (planned (l ++ l'))).
Proof.
  intros Hwf Hread Hl'. revert l. induction Hl' as [|c l' Hc _ IH]; intros l Hb; cbn; [by rewrite app_nil_r|].
  rewrite (cons_middle c l l'), (assoc_L (++)) in *.
  unfold mbind, M_bind. rewrite plan_entry_ok; [by apply IH|done..|].
  etrans; [apply planned_decrypted_mono|exact Hb].
Qed.

(** What the planner should decide, from the canonical order. *)
Definition plan_spec (dry_run : bool) (l : list CatalogEntry) (evicted : list uuid) : RetentionPlan :=
  let expired := ce_record_id <$> List.filter expires l in
  {| rp_expired := expired; rp_evicted := evicted;
     rp_reclaimed_bytes :=
       sum_by (fun c => if bool_decide (ce_record_id c ∈ expired ++ evicted) then ce_blob_bytes c else 0) l;
     rp_dry_run := dry_run |}.

Lemma plan_run s fuel dry_run evicted :
  wf s -> readable s -> (0 < fuel)%nat -> zlen (rows_in READY s) <= Z.of_nat fuel * PAGE_LIMIT ->
  zlen (List.filter in_dispute (ready_entries s)) <= decrypt_budget ->
  eviction_set rules (ready_entries s) (ce_record_id <$> List.filter expires (ready_entries s)) = Ok evicted ->
  plan fuel dry_run s = (s, Ok (plan_spec dry_run (ready_entries s) evicted)).
Proof.
  intros Hwf Hread Hpos Hfuel Hbudget Hev.
  assert (Hwalk : walk_pages fuel plan_entries None None
    {| ps_expired := []; ps_candidates := []; ps_decrypted := 0 |} s = (s, Ok (planned (ready_entries s)))).
  { refine (walk_pages_ok (fun s => s) page_ready_keeps _ planned s fuel 0 None None _ (cursor_start s) Hpos _).
    - intros k n. rewrite plan_entries_ok; [by rewrite take_take_drop|done|done| |].
      + apply Forall_forall. intros c Hc. apply subseteq_take, subseteq_drop in Hc. done.
      + rewrite take_take_drop. etrans; [|exact Hbudget].
        rewrite <- (take_drop (k + n) (ready_entries s)) at 2. apply planned_decrypted_mono.
    - rewrite drop_0. unfold zlen in *. by rewrite (Permutation_length (ready_entries_perm s)), length_fmap. }
  unfold Retention.plan, mbind, M_bind at 1. rewrite Hwalk. unfold M_bind, lift. cbn [ps_candidates ps_expired planned].
  rewrite Hev. done.
Qed.

(** C39 (plan_equals_specification): Planning is its unoptimised
    specification: on a canonical storage whose ready records can be read and
    decrypted, within the decryption budget, the plan lists exactly the
    records older than their own effective cutoff (the global one, or the
    latest among the matching context overrides), in canonical order, with
    the eviction computed from all of them; the floor and ceiling shortcuts
    that skip decryption change nothing, and storage is untouched. *)
Theorem plan_equals_specification s fuel dry_run evicted :
  wf s -> readable s -> (0 < fuel)%nat -> zlen (rows_in READY s) <= Z.of_nat fuel * PAGE_LIMIT ->
  zlen (List.filter in_dispute (ready_entries s)) <= decrypt_budget ->
  eviction_set rules (ready_entries s) (ce_record_id <$> List.filter expires (ready_entries s)) = Ok evicted ->
  plan fuel dry_run s = (s, Ok (plan_spec dry_run (ready_entries s) evicted)).
Proof. apply plan_run. Qed.

(** *** Sweeping *)

Lemma delete_run id s :
  wf s -> fault AfterDeleteMark = false -> exists s',
    delete_record fault id s = (s', Ok (bool_decide (is_Some (s_records s !! id)))) /\
    s_records s' = delete id (s_records s).
Proof.
  intros Hwf Hf. unfold delete_record, fault_at, gets, modify, require, lift, mbind, M_bind. rewrite Hf. cbn.
  destruct (s_records s !! id) as [[md st]|] eqn:Hr.
  - rewrite (wf_row_path _ _ _ _ _ _ Hwf Hr). eexists. rewrite bool_decide_true by by eexists. split; [done|]. cbn. by rewrite delete_insert_eq.
  - exists s. rewrite bool_decide_false by by intros []. split; [done|]. by rewrite delete_id.
Qed.

Lemma delete_all_ok reason ids deleted s :
  wf s -> fault AfterDeleteMark = false -> exists s' n,
    delete_all reason ids deleted s = (s', Ok n) /\ wf s' /\
    forall id, visible s' id = if bool_decide (id ∈ ids) then None else visible s id.
Proof.
  intros Hwf Hf. revert s deleted Hwf. induction ids as [|x ids IH]; intros s deleted Hwf; cbn; [by exists s, deleted|].
  destruct (delete_run x s Hwf Hf) as (s1&Hd&Hr1). unfold mbind, M_bind.
  change (rs_delete x reason s) with (delete_record fault x s). rewrite Hd.
  destruct (wp_run _ _ _ _ _ Hd (delete_ok sha256 max_blob_bytes fault x s Hwf)) as (Hwf1&Ho&_).
  destruct (IH s1 (if bool_decide (is_Some (s_records s !! x)) then deleted + 1 else deleted) Hwf1) as (s'&n&Hrun&Hwf'&Hv).
  exists s', n. split; [done|]. split; [done|]. intros id. rewrite Hv.
  destruct (decide (id ∈ ids)) as [Hin|Hin].
  - by rewrite !bool_decide_true by (try constructor; done).
  - rewrite (bool_decide_false (id ∈ ids)) by done. destruct (decide (id = x)) as [->|Hne].
    + rewrite bool_decide_true by constructor. unfold StorageProps.visible. rewrite Hr1. by rewrite lookup_delete_eq.
    + rewrite bool_decide_false by (intros [?|?]%elem_of_cons; done). unfold StorageProps.visible.
      rewrite Hr1, lookup_delete_ne by done. by rewrite Ho.
Qed.

Lemma elem_of_dedup seen l x : x ∈ dedup seen l <-> x ∈ l /\ x ∉ seen.
Proof.
  revert seen. induction l as [|y l IH]; intros seen; cbn; [split; [by intros ?%elem_of_nil|by intros [?%elem_of_nil _]]|].
  case_bool_decide as Hy; rewrite ?elem_of_cons, IH, ?elem_of_cons; [naive_solver|].
  destruct (decide (x = y)) as [->|]; naive_solver.
Qed.

(** [sweep_deletes_the_plan]: A sweep deletes exactly the plan: afterwards
    the expired and the evicted records are not visible and every other
    record is as before; a dry run changes nothing and reports the same
    number of planned deletions. *)
Theorem sweep_deletes_the_plan s fuel evicted :
  wf s -> readable s -> fault AfterDeleteMark = false ->
  (0 < fuel)%nat -> zlen (rows_in READY s) <= Z.of_nat fuel * PAGE_LIMIT ->
  zlen (List.filter in_dispute (ready_entries s)) <= decrypt_budget ->
  eviction_set rules (ready_entries s) (ce_record_id <$> List.filter expires (ready_entries s)) = Ok evicted ->
  let sweep := sweep (Some (fun e => lift (dec e))) rules today decrypt_budget None fuel in
  let planned := plan_spec false (ready_entries s) evicted in
  let ids := rp_expired planned ++ rp_evicted planned in
  let count := zlen (dedup [] ids) in
  exists s' n,
    sweep false s = (s', Ok {| sw_planned_count := count; sw_deleted_count := n;
      sw_reclaimed_bytes := rp_reclaimed_bytes planned; sw_dry_run := false |}) /\ wf s' /\
    (forall id, visible s' id = if bool_decide (id ∈ ids) then None else visible s id) /\
    sweep true s = (s, Ok {| sw_planned_count := count; sw_deleted_count := 0;
      sw_reclaimed_bytes := 0; sw_dry_run := true |}).
Proof.
  intros Hwf Hread Hf Hpos Hfuel Hbudget Hev. cbv zeta.
  pose proof (fun dry => plan_run s fuel dry evicted Hwf Hread Hpos Hfuel Hbudget Hev) as Hplan.
  set (ids := rp_expired _ ++ _).
  destruct (delete_all_ok (u "retention-sweep") (dedup [] ids) 0 s Hwf Hf) as (s'&n&Hd&Hwf'&Hv).
  exists s', n. unfold Retention.sweep, emit_sweep, mbind, M_bind. rewrite !Hplan.
  change (rp_expired (plan_spec ?d _ _) ++ rp_evicted _) with ids. rewrite Hd.
  split; [done|]. split; [done|]. split; [|done]. intros id. rewrite Hv.
  rewrite (bool_decide_ext (id ∈ dedup [] ids) (id ∈ ids)); [done|].
  rewrite elem_of_dedup. split; [by intros []|]. intros ?. split; [done|apply not_elem_of_nil].
Qed.
End Plan.

(** [eviction_double_counts_expired]: Expired records are counted as pressure
    and not as relief: with two expired records holding all of the excess, the
    third, fresh record is evicted although what survives expiry is already
    under the low watermark and the record cap. *)
Theorem eviction_double_counts_expired :
  exists rules cs expired evicted,
    make_rules {| rl_max_age_days := 30; rl_max_bytes := 100; rl_max_records := 10;
      rl_low_watermark_bytes := None; rl_context_rules := [] |} = Ok rules /\
    eviction_set rules cs expired = Ok evicted /\
    zlen (survivors expired cs) <= rl_max_records rules /\
    rl_low_watermark_bytes rules = Some 80 /\ sum_by ce_blob_bytes (survivors expired cs) = 30 /\
    evicted = ce_record_id <$> survivors expired cs.
Proof.
  eexists _, [ {| ce_record_id := 1; ce_day_bucket := 0; ce_blob_bytes := 60 |};
               {| ce_record_id := 2; ce_day_bucket := 1; ce_blob_bytes := 60 |};
               {| ce_record_id := 3; ce_day_bucket := 90; ce_blob_bytes := 30 |} ], [1; 2], [3].
  split; [reflexivity|]. repeat split; try reflexivity. vm_compute. discriminate.
Qed.

(** ** Witnesses: one record, 99 days old, under a limit of 30 days *)

Definition toy_rules : RetentionRules :=
  {| rl_max_age_days := 30; rl_max_bytes := 100; rl_max_records := 10;
     rl_low_watermark_bytes := Some 80; rl_context_rules := [] |}.
Definition toy_metadata : ContextMetadata :=
  {| cm_observed_at := {| dt_wall := 0; dt_offset := 0 |}; cm_fields := [] |}.

Local Abbreviation toy_dec := (fun _ : EncryptedRecordEnvelope => Ok toy_metadata).

Definition readable_check (s : store) : bool :=
  forallb (fun r => bool_decide (is_Some (visible (fun b => b) 1024 s r.1))) (map_to_list (s_records s)).

Lemma readable_checked s :
  readable_check s = true -> readable (fun b => b) 1024 toy_dec (fun _ => toy_metadata) s.
Proof.
  intros Hc id md Hr. apply elem_of_map_to_list, list_elem_of_In in Hr.
  unfold readable_check in Hc. rewrite forallb_forall in Hc. specialize (Hc _ Hr). cbn in Hc.
  apply bool_decide_eq_true_1 in Hc as [e He]. by exists e.
Qed.

Lemma toy_readable : readable (fun b => b) 1024 toy_dec (fun _ => toy_metadata) toy_s1.
Proof. apply readable_checked. vm_compute. reflexivity. Qed.

Lemma canonical_ids_complete_witness :
  exists ids, canonical_ids (H := canonical_storage (fun b => b) 1024 no_fault) 1 toy_s1 = (toy_s1, Ok ids) /\
    ids ≡ₚ (rows_in READY toy_s1).*1 /\ NoDup ids /\ ids = ce_record_id <$> ready_entries toy_s1.
Proof.
  refine (canonical_ids_complete (fun b => b) 1024 no_fault toy_s1 1 _ _); [lia|].
  apply Z.leb_le. vm_compute. reflexivity.
Defined.

Lemma plan_equals_specification_witness :
  plan (H := canonical_storage (fun b => b) 1024 no_fault) (Some (fun e => lift (toy_dec e))) toy_rules 100 0 1 false toy_s1 =
  (toy_s1, Ok (plan_spec toy_rules 100 (fun _ => toy_metadata) false (ready_entries toy_s1) [])).
Proof.
  refine (plan_equals_specification (fun b => b) 1024 no_fault toy_dec toy_rules 100 0 (fun _ => toy_metadata)
    toy_s1 1 false [] toy_s1_wf toy_readable _ _ _ _); [lia|..].
  - apply Z.leb_le. vm_compute. reflexivity.
  - apply Z.leb_le. vm_compute. reflexivity.
  - vm_compute. reflexivity.
Defined.

(** The sweep removes the record. *)
Lemma sweep_deletes_the_plan_witness :
  exists s' n, sweep (H := canonical_storage (fun b => b) 1024 no_fault) (Some (fun e => lift (toy_dec e)))
      toy_rules 100 0 None 1 false toy_s1 = (s', Ok n) /\
    visible (fun b => b) 1024 s' (toy_id 1) = None.
Proof.
  destruct (sweep_deletes_the_plan (fun b => b) 1024 no_fault toy_dec toy_rules 100 0 (fun _ => toy_metadata)
    toy_s1 1 [] toy_s1_wf toy_readable eq_refl) as (s'&n&Hs&_&Hv&_).
  - lia.
  - apply Z.leb_le. vm_compute. reflexivity.
  - apply Z.leb_le. vm_compute. reflexivity.
  - vm_compute. reflexivity.
  - eexists s', _. split; [exact Hs|]. rewrite Hv, bool_decide_true; [reflexivity|].
    apply (bool_decide_eq_true_1 (_ ∈ _)). vm_compute. reflexivity.
Defined.

Definition toy_entry (id day bytes : Z) : CatalogEntry :=
  {| ce_record_id := id; ce_day_bucket := day; ce_blob_bytes := bytes |}.
Definition toy_entries : list CatalogEntry := [toy_entry 1 1 40; toy_entry 2 2 40; toy_entry 3 2 40].

Lemma eviction_is_minimal_witness :
  exists pre rest, survivors [] toy_entries = pre ++ rest /\ [1] = ce_record_id <$> pre /\
    (rest = [] \/ enough (overflow_of toy_rules toy_entries) (must_free_of toy_rules 80 toy_entries) pre).
Proof.
  destruct (eviction_is_minimal toy_rules 80 toy_entries [] [1] eq_refl eq_refl) as (pre&rest&?&?&?&_).
  by exists pre, rest.
Defined.

Lemma plan_meets_limits_witness :
  let left := survivors ([] ++ [1]) toy_entries in
  zlen left <= 10 /\ sum_by ce_blob_bytes left <= 100 /\
  (100 < sum_by ce_blob_bytes toy_entries -> sum_by ce_blob_bytes left <= 80).
Proof.
  refine (plan_meets_limits toy_rules 80 toy_entries [] [1] eq_refl _ _ _ _ _ eq_refl).
  - cbn. lia.
  - cbn. lia.
  - lia.
  - apply (bool_decide_eq_true_1 (NoDup _)). vm_compute. reflexivity.
  - intros c Hc. repeat (apply elem_of_cons in Hc as [->|Hc]; [cbn; lia|]). by apply elem_of_nil in Hc.
Defined.
