(* ===== verification/Retrieval.v ===== *)
(** * Retrieval: which redacted passages a query may see.

    Models [retrieval/service.py] and the rows of [ports/storage.py] it reads;
    [resolve_time_range]'s result ([retrieval/time.py]) is an argument.  The
    service's collaborators (storage, encryption, retrieval policy, semantic
    search) are the operations of [RetrievalPorts] on an arbitrary world, each
    free to change it and to raise. *)

From stdpp Require Import sorting.
From S2P Require Import Prelude PyStr PyFloat Policy Frames Storage.

Definition MAX_RESULT_LIMIT : Z := 1000.
Definition MAX_CANDIDATE_LIMIT : Z := 10000.
Definition MAX_EXCERPT_CHARS : nat := 4096.

(** ** [ports/storage.py] *)

Record DayRangeQuery := { dq_start_day : Z; dq_end_day : Z; dq_limit : Z }.
Definition make_day_range (d : DayRangeQuery) : result DayRangeQuery :=
  _ ← throw_if (dq_end_day d <? dq_start_day d) ValueError;
  _ ← throw_if (negb ((1 <=? dq_limit d) && (dq_limit d <=? 10000))) ValueError;
  mret d.

Record CatalogRecord := {
  cr_record : StoredRecordRef;
  cr_day_bucket : Z;
  cr_blob_bytes : Z;
  cr_key : KeyHandle }.

(** ** The query *)

Record ResolvedTimeRange := { tr_start_at : datetime; tr_end_at : datetime }.
Definition make_time_range (t : ResolvedTimeRange) : result ResolvedTimeRange :=
  _ ← throw_if (dt_utc (tr_end_at t) <=? dt_utc (tr_start_at t)) ValueError;
  mret t.

(** [^[a-z][a-z0-9_.-]{0,127}$] *)
Definition is_lower (c : Z) : bool := (97 <=? c) && (c <=? 122).
Definition is_name_char (c : Z) : bool :=
  is_lower c || ((48 <=? c) && (c <=? 57)) || bool_decide (c ∈ [95; 46; 45]).
Definition valid_field_name (s : pystr) : bool :=
  match s with
  | [] => false
  | c :: s' => is_lower c && forallb is_name_char s' && (zlen s' <=? 127)
  end.

Record MetadataFilter := { mf_field_name : pystr; mf_value : MetadataScalar }.
Definition make_metadata_filter (f : MetadataFilter) : result MetadataFilter :=
  _ ← throw_if (negb (valid_field_name (mf_field_name f))) ValueError;
  mret f.

Record RetrievalQuery := {
  rq_time_range : ResolvedTimeRange;
  rq_application : option pystr;
  rq_workspace : option pystr;
  rq_keywords : list pystr;
  rq_semantic_text : option pystr;
  rq_metadata_filters : list MetadataFilter;
  rq_limit : Z;
  rq_candidate_limit : Z;
  rq_query_id : uuid }.

Definition require_optional (s : option pystr) : result unit :=
  match s with Some s => require_nonempty s | None => mret tt end.

(** The constructor keeps the keywords stripped and casefolded. *)
Definition make_retrieval_query (q : RetrievalQuery) : result RetrievalQuery :=
  _ ← require_optional (rq_application q);
  _ ← require_optional (rq_workspace q);
  _ ← require_optional (rq_semantic_text q);
  let keywords := (fun k => casefold (strip k)) <$> rq_keywords q in
  _ ← throw_if (existsb (fun k => bool_decide (k = [])) keywords) ValueError;
  _ ← throw_if (negb (bool_decide (NoDup keywords))) ValueError;
  _ ← throw_if (negb (bool_decide (NoDup (mf_field_name <$> rq_metadata_filters q)))) ValueError;
  _ ← throw_if (negb ((1 <=? rq_limit q) && (rq_limit q <=? MAX_RESULT_LIMIT))) ValueError;
  _ ← throw_if (negb ((1 <=? rq_candidate_limit q) && (rq_candidate_limit q <=? MAX_CANDIDATE_LIMIT))) ValueError;
  _ ← throw_if (rq_candidate_limit q <? rq_limit q) ValueError;
  mret {| rq_time_range := rq_time_range q; rq_application := rq_application q;
          rq_workspace := rq_workspace q; rq_keywords := keywords;
          rq_semantic_text := rq_semantic_text q; rq_metadata_filters := rq_metadata_filters q;
          rq_limit := rq_limit q; rq_candidate_limit := rq_candidate_limit q;
          rq_query_id := rq_query_id q |}.

Record RetrievalPolicyDecision := {
  pn_allowed : bool;
  pn_remote_provider_eligible : bool;
  pn_policy_revision : pystr;
  pn_reason_code : pystr }.
Definition make_policy_decision (d : RetrievalPolicyDecision) : result RetrievalPolicyDecision :=
  _ ← require_nonempty (pn_policy_revision d);
  _ ← require_nonempty (pn_reason_code d);
  _ ← throw_if (negb (pn_allowed d) && pn_remote_provider_eligible d) ValueError;
  mret d.

Record SemanticCandidate := { sc_record_id : uuid; sc_captured_at : datetime; sc_score : pyfloat }.

(** [low <= x <= high] *)
Definition in_range (low high : Z) (x : pyfloat) : bool := fle (float_of low) x && fle x (float_of high).

(** ** Passages *)

Record RetrievedMetadataProvenance := {
  rp_field_name : pystr;
  rp_source_id : pystr;
  rp_observed_at : datetime;
  rp_confidence : pyfloat;
  rp_adapter_revision : option pystr }.
Definition make_provenance (p : RetrievedMetadataProvenance) : result RetrievedMetadataProvenance :=
  _ ← require_nonempty (rp_field_name p);
  _ ← require_nonempty (rp_source_id p);
  _ ← throw_if (negb (in_range 0 1 (rp_confidence p))) ValueError;
  mret p.

Record RetrievedPassage := {
  ps_record_id : uuid;
  ps_captured_at : datetime;
  ps_excerpt : pystr;
  ps_score : pyfloat;
  ps_metadata_provenance : list RetrievedMetadataProvenance;
  ps_redaction_policy_revision : pystr;
  ps_redaction_finding_count : Z }.
Definition make_passage (p : RetrievedPassage) : result RetrievedPassage :=
  _ ← throw_if (negb (in_range (-1) 1 (ps_score p))) ValueError;
  _ ← require_nonempty (ps_redaction_policy_revision p);
  _ ← throw_if (ps_redaction_finding_count p <? 0) ValueError;
  mret p.

Record RetrievalBatch := {
  rb_query_id : uuid;
  rb_passages : list RetrievedPassage;
  rb_remote_provider_eligible : bool;
  rb_policy_revision : pystr }.
Definition make_batch (b : RetrievalBatch) : result RetrievalBatch :=
  _ ← require_nonempty (rb_policy_revision b);
  _ ← throw_if (negb (bool_decide (NoDup (ps_record_id <$> rb_passages b)))) ValueError;
  mret b.

Definition metadata_matches (r : RedactedRecord) (name expected : pystr) : bool :=
  match metadata_get (df_metadata (rc_frame r)) name with
  | MStr s => bool_decide (casefold s = casefold expected)
  | _ => false
  end.

(** [type(actual) is type(expected) and actual == expected]; a float is known
    by its [repr], which tells numbers apart except the two zeros. *)
Definition scalar_same (a b : MetadataScalar) : bool :=
  match a, b with
  | MFloat x, MFloat y =>
      (bool_decide (x = y) && negb (bool_decide (x = u "nan"))) ||
      (bool_decide (x ∈ [u "0.0"; u "-0.0"]) && bool_decide (y ∈ [u "0.0"; u "-0.0"]))
  | _, _ => bool_decide (a = b)
  end.

(** The first field of that name decides. *)
Definition metadata_filter_matches (r : RedactedRecord) (f : MetadataFilter) : bool :=
  match list_find (fun x => cf_name x = mf_field_name f) (cm_fields (df_metadata (rc_frame r))) with
  | Some (_, x) => scalar_same (cf_value x) (mf_value f)
  | None => false
  end.

Definition optional_matches (r : RedactedRecord) (name : pystr) (expected : option pystr) : bool :=
  match expected with Some s => metadata_matches r name s | None => true end.

Definition matches (q : RetrievalQuery) (r : RedactedRecord) : bool :=
  let captured := dt_utc (df_captured_at (rc_frame r)) in
  let range := rq_time_range q in
  if negb ((dt_utc (tr_start_at range) <=? captured) && (captured <? dt_utc (tr_end_at range))) then false
  else if negb (optional_matches r (u "application") (rq_application q)) then false
  else if negb (optional_matches r (u "workspace") (rq_workspace q)) then false
  else if existsb (fun f => negb (metadata_filter_matches r f)) (rq_metadata_filters q) then false
  else
    match rq_keywords q with
    | [] => true
    | keywords =>
        let haystack := casefold (join 10 (df_ocr_text (rc_frame r))) in
        negb (existsb (fun k => negb (is_in k haystack)) keywords)
    end.

Definition provenance_of (r : RedactedRecord) : result (list RetrievedMetadataProvenance) :=
  map_ok make_provenance
    (mjoin ((fun f =>
       (fun p => {| rp_field_name := cf_name f; rp_source_id := mp_source_id p;
                    rp_observed_at := mp_observed_at p; rp_confidence := mp_confidence p;
                    rp_adapter_revision := mp_adapter_revision p |}) <$> cf_provenance f)
       <$> cm_fields (df_metadata (rc_frame r)))).

(** [max(xs, default=0.0)] *)
Definition max_confidence (xs : list pyfloat) : pyfloat :=
  match xs with [] => float_of 0 | x :: xs' => foldl fmax x xs' end.

Definition passage (r : RedactedRecord) (q : RetrievalQuery) (semantic_score : option pyfloat)
    : result RetrievedPassage :=
  let text := join 10 (df_ocr_text (rc_frame r)) in
  provenance ← provenance_of r;
  let score :=
    match semantic_score with
    | Some s => s
    | None =>
        match rq_keywords q with
        | [] => max_confidence (rp_confidence <$> provenance)
        | keywords =>
            let haystack := casefold text in
            fdiv (float_of (zlen (List.filter (fun k => is_in k haystack) keywords))) (float_of (zlen keywords))
        end
    end in
  make_passage
    {| ps_record_id := rc_record_id r; ps_captured_at := df_captured_at (rc_frame r);
       ps_excerpt := take MAX_EXCERPT_CHARS text; ps_score := score;
       ps_metadata_provenance := provenance;
       ps_redaction_policy_revision := df_policy_revision (rc_frame r);
       ps_redaction_finding_count := df_findings (rc_frame r) |}.

(** The sort key [(-score, captured_at, str(record_id))]. *)
Definition passage_lt (a b : RetrievedPassage) : bool :=
  if negb (feq (fopp (ps_score a)) (fopp (ps_score b))) then flt (fopp (ps_score a)) (fopp (ps_score b))
  else if negb (dt_utc (ps_captured_at a) =? dt_utc (ps_captured_at b))
  then dt_utc (ps_captured_at a) <? dt_utc (ps_captured_at b)
  else ps_record_id a <? ps_record_id b.
Definition passage_le (a b : RetrievedPassage) : Prop := passage_lt b a = false.
#[export] Instance passage_le_dec : RelDecision passage_le.
Proof. intros a b. unfold passage_le. apply _. Defined.

(** ** The service *)

Class RetrievalPorts (W : Type) := {
  authorize_query : RetrievalQuery -> M W RetrievalPolicyDecision;
  authorize_record : RetrievalQuery -> RedactedRecord -> M W RetrievalPolicyDecision;
  storage_candidates : DayRangeQuery -> M W (list CatalogRecord);
  storage_get : uuid -> M W (option EncryptedRecordEnvelope);
  decrypt : EncryptedRecordEnvelope -> M W RedactedRecord;
  semantic_search : option (pystr -> datetime -> datetime -> Z -> M W (list SemanticCandidate)) }.

Section Service.
Context {W : Type} `{RetrievalPorts W}.

Definition empty_batch (q : RetrievalQuery) (revision : pystr) : result RetrievalBatch :=
  make_batch {| rb_query_id := rq_query_id q; rb_passages := [];
                rb_remote_provider_eligible := false; rb_policy_revision := revision |}.

Definition day_range (q : RetrievalQuery) : result DayRangeQuery :=
  make_day_range
    {| dq_start_day := dt_utc (tr_start_at (rq_time_range q)) / us_per_day;
       dq_end_day := (dt_utc (tr_end_at (rq_time_range q)) - 1) / us_per_day;
       dq_limit := rq_candidate_limit q |}.

Definition candidate_id (c : CatalogRecord) : uuid := ref_record_id (cr_record c).

(** The loop over the hits: the best score of each candidate. *)
Definition best_scores (ids : list uuid) (hits : list SemanticCandidate) : gmap uuid pyfloat :=
  foldl (fun scores h =>
    if bool_decide (sc_record_id h ∈ ids)
    then <[sc_record_id h := fmax (default (float_of (-1)) (scores !! sc_record_id h)) (sc_score h)]> scores
    else scores) ∅ hits.

Definition semantic_scores (q : RetrievalQuery) (cs : list CatalogRecord) : M W (gmap uuid pyfloat) :=
  match rq_semantic_text q with
  | None => mret ∅
  | Some text =>
      match semantic_search with
      | None => raise RuntimeError
      | Some search =>
          hits ← search text (tr_start_at (rq_time_range q)) (tr_end_at (rq_time_range q)) (rq_candidate_limit q);
          mret (best_scores (candidate_id <$> cs) hits)
      end
  end.

Definition skipped (q : RetrievalQuery) (scores : gmap uuid pyfloat) (id : uuid) : bool :=
  bool_decide (rq_semantic_text q ≠ None) && bool_decide (scores !! id = None).

(** The loop over the candidates: [inl] when the policy revision changed under
    it, with the new one; otherwise the passages and the eligibility. *)
Fixpoint scan_candidates (q : RetrievalQuery) (revision : pystr) (scores : gmap uuid pyfloat)
    (cs : list CatalogRecord) (passages : list RetrievedPassage) (eligible : bool)
    : M W (pystr + list RetrievedPassage * bool) :=
  match cs with
  | [] => mret (inr (passages, eligible))
  | c :: cs' =>
      let id := candidate_id c in
      if skipped q scores id then scan_candidates q revision scores cs' passages eligible
      else
        envelope ← storage_get id;
        match envelope with
        | None => scan_candidates q revision scores cs' passages eligible
        | Some e =>
            record ← decrypt e;
            if negb (matches q record) then scan_candidates q revision scores cs' passages eligible
            else
              decision ← authorize_record q record;
              if bool_decide (pn_policy_revision decision ≠ revision)
              then mret (inl (pn_policy_revision decision))
              else if negb (pn_allowed decision) then scan_candidates q revision scores cs' passages eligible
              else
                again ← storage_get id;
                match again with
                | None => scan_candidates q revision scores cs' passages eligible
                | Some _ =>
                    let eligible' := eligible && pn_remote_provider_eligible decision in
                    p ← lift (passage record q (scores !! id));
                    scan_candidates q revision scores cs' (passages ++ [p]) eligible'
                end
        end
  end.

Definition retrieve (q : RetrievalQuery) : M W RetrievalBatch :=
  query_decision ← authorize_query q;
  if negb (pn_allowed query_decision) then lift (empty_batch q (pn_policy_revision query_decision))
  else
    days ← lift (day_range q);
    candidates ← storage_candidates days;
    scores ← semantic_scores q candidates;
    if bool_decide (rq_semantic_text q ≠ None) && bool_decide (scores = ∅)
    then lift (empty_batch q (pn_policy_revision query_decision))
    else
      found ← scan_candidates q (pn_policy_revision query_decision) scores candidates []
                (pn_remote_provider_eligible query_decision);
      match found with
      | inl revision => lift (empty_batch q revision)
      | inr (passages, eligible) =>
          lift (make_batch
            {| rb_query_id := rq_query_id q;
               rb_passages := take (Z.to_nat (rq_limit q)) (merge_sort passage_le passages);
               rb_remote_provider_eligible := eligible;
               rb_policy_revision := pn_policy_revision query_decision |})
      end.
End Service.
