(* ===== verification/RetrievalFacts.v ===== *)
(** * RetrievalFacts: retrieval shows what the policy grants, and all of it.

    Whatever the collaborators do meanwhile, a passage that is returned was
    decrypted from a stored record inside the query's scope, granted under the
    query's own policy revision and still stored afterwards; when they do not
    change, the answer is exactly its specification. *)

From stdpp Require Import sorting relations.
From S2P Require Import Prelude PyStr PyFloat Policy Frames Storage Retrieval.

(** ** The ranking *)

#[export] Instance passage_le_total : Total passage_le.
Proof.
  intros a b. unfold passage_le, passage_lt. rewrite (feq_sym (fopp (ps_score b))).
  destruct (feq _ _); cbn.
  - rewrite (Z.eqb_sym (dt_utc (ps_captured_at b))). destruct (_ =? _); cbn; rewrite !Z.ltb_ge; lia.
  - destruct (flt (fopp (ps_score b)) (fopp (ps_score a))) eqn:E; [|by left].
    right. by apply flt_asym.
Qed.

Lemma Sorted_take {A} (R : A -> A -> Prop) n l : Sorted R l -> Sorted R (take n l).
Proof.
  revert n. induction l as [|x l IH]; intros [|n] Hl; try (by constructor).
  apply Sorted_inv in Hl as [Hl Hx]. cbn. constructor; [by apply IH|].
  destruct l as [|y l]; [by destruct n|]. destruct n; [constructor|]. cbn. constructor. by inversion Hx.
Qed.

(** ** The scope of a query

    The record was captured in the time range; its application and workspace
    are those asked for, up to case; of each metadata filter, the first field
    of that name has the value; and every keyword occurs in its text. *)

Record in_scope (q : RetrievalQuery) (r : RedactedRecord) : Prop := {
  is_time : dt_utc (tr_start_at (rq_time_range q)) <= dt_utc (df_captured_at (rc_frame r)) < dt_utc (tr_end_at (rq_time_range q));
  is_application s : rq_application q = Some s ->
    exists v, metadata_get (df_metadata (rc_frame r)) (u "application") = MStr v /\ casefold v = casefold s;
  is_workspace s : rq_workspace q = Some s ->
    exists v, metadata_get (df_metadata (rc_frame r)) (u "workspace") = MStr v /\ casefold v = casefold s;
  is_filter f : f ∈ rq_metadata_filters q ->
    exists i x, cm_fields (df_metadata (rc_frame r)) !! i = Some x /\ cf_name x = mf_field_name f /\
      (forall j y, cm_fields (df_metadata (rc_frame r)) !! j = Some y -> (j < i)%nat -> cf_name y <> mf_field_name f) /\
      scalar_same (cf_value x) (mf_value f) = true;
  is_keyword k : k ∈ rq_keywords q -> exists a b, casefold (join 10 (df_ocr_text (rc_frame r))) = a ++ k ++ b }.

Lemma optional_matches_spec r name expected :
  optional_matches r name expected = true <->
  forall s, expected = Some s -> exists v, metadata_get (df_metadata (rc_frame r)) name = MStr v /\ casefold v = casefold s.
Proof.
  unfold optional_matches, metadata_matches. destruct expected as [t|]; [|done]. split.
  - intros Hm s [= <-]. destruct (metadata_get _ name) as [v| | | |]; try done. exists v. split; [done|]. exact (bool_decide_eq_true_1 _ Hm).
  - intros Hs. destruct (Hs t eq_refl) as (v&->&Hv). by apply bool_decide_eq_true_2.
Qed.

Lemma metadata_filter_spec r f :
  metadata_filter_matches r f = true <->
  exists i x, cm_fields (df_metadata (rc_frame r)) !! i = Some x /\ cf_name x = mf_field_name f /\
    (forall j y, cm_fields (df_metadata (rc_frame r)) !! j = Some y -> (j < i)%nat -> cf_name y <> mf_field_name f) /\
    scalar_same (cf_value x) (mf_value f) = true.
Proof.
  unfold metadata_filter_matches. split.
  - destruct (list_find _ _) as [[i x]|] eqn:E; [|done]. apply list_find_Some in E as (Hi&Hn&Hb). intros Hv. by exists i, x.
  - intros (i&x&Hi&Hn&Hb&Hv). rewrite (proj2 (list_find_Some _ _ i x)); [done|]. by split.
Qed.

Lemma existsb_negb {A} (f : A -> bool) l : existsb (fun x => negb (f x)) l = negb (forallb f l).
Proof. induction l as [|x l IH]; cbn; [done|]. rewrite IH. by rewrite negb_andb. Qed.

Lemma matches_conj q r : matches q r =
  ((dt_utc (tr_start_at (rq_time_range q)) <=? dt_utc (df_captured_at (rc_frame r))) &&
   (dt_utc (df_captured_at (rc_frame r)) <? dt_utc (tr_end_at (rq_time_range q)))) &&
  (optional_matches r (u "application") (rq_application q) && (optional_matches r (u "workspace") (rq_workspace q) &&
   (forallb (metadata_filter_matches r) (rq_metadata_filters q) &&
    forallb (fun k => is_in k (casefold (join 10 (df_ocr_text (rc_frame r))))) (rq_keywords q)))).
Proof.
  unfold matches. cbv zeta. match goal with |- context [negb (?a && ?b)] => destruct (a && b) end; [|done]. cbn [negb andb].
  destruct (optional_matches r (u "application") _); [|done]. cbn [negb andb].
  destruct (optional_matches r (u "workspace") _); [|done]. cbn [negb andb].
  rewrite existsb_negb. destruct (forallb (metadata_filter_matches r) _); [|done]. cbn [negb andb].
  destruct (rq_keywords q) as [|k ks]; [done|]. by rewrite existsb_negb, negb_involutive.
Qed.

Lemma matches_spec q r : matches q r = true <-> in_scope q r.
Proof.
  rewrite matches_conj, !andb_true_iff, !optional_matches_spec, !List.forallb_forall, Z.leb_le, Z.ltb_lt. split.
  - intros (Ht&Ha&Hw&Hf&Hk). split; [done..| |].
    + intros f Hin. apply metadata_filter_spec, Hf. by apply list_elem_of_In.
    + intros k Hin. apply is_in_spec, Hk. by apply list_elem_of_In.
  - intros [Ht Ha Hw Hf Hk]. split_and!; try done; try lia.
    + intros f Hin. apply metadata_filter_spec, Hf. by apply list_elem_of_In.
    + intros k Hin. apply is_in_spec, Hk. by apply list_elem_of_In.
Qed.

(** ** What a granted passage is *)

Section Service.
Context {W : Type} `{RetrievalPorts W}.

(** One call to a collaborator. *)
Inductive port_call : W -> W -> Prop :=
  | call_query q w w' r : authorize_query q w = (w', r) -> port_call w w'
  | call_record q x w w' r : authorize_record q x w = (w', r) -> port_call w w'
  | call_candidates d w w' r : storage_candidates d w = (w', r) -> port_call w w'
  | call_get id w w' r : storage_get id w = (w', r) -> port_call w w'
  | call_decrypt e w w' r : decrypt e w = (w', r) -> port_call w w'
  | call_search f text a b n w w' r :
      semantic_search = Some f -> f text a b n w = (w', r) -> port_call w w'.

Local Abbreviation calls := (rtc port_call).

(** The life of passage [p] between [w] and [w']: record [r] was stored,
    decrypted, in scope, granted under [revision], and stored still; the
    passage is its text. *)
Record granted (q : RetrievalQuery) (revision : pystr) (eligible : bool) (p : RetrievedPassage) (w w' : W)
    : Prop := Granted {
  gr_id : uuid; gr_envelope : EncryptedRecordEnvelope; gr_again : EncryptedRecordEnvelope;
  gr_record : RedactedRecord; gr_score : option pyfloat; gr_decision : RetrievalPolicyDecision;
  gr_w1 : W; gr_w2 : W; gr_w3 : W; gr_w4 : W; gr_w5 : W;
  gr_before : calls w gr_w1;
  gr_stored : storage_get gr_id gr_w1 = (gr_w2, Ok (Some gr_envelope));
  gr_decrypted : decrypt gr_envelope gr_w2 = (gr_w3, Ok gr_record);
  gr_in_scope : in_scope q gr_record;
  gr_decided : authorize_record q gr_record gr_w3 = (gr_w4, Ok gr_decision);
  gr_allowed : pn_allowed gr_decision = true;
  gr_revision : pn_policy_revision gr_decision = revision;
  gr_eligible : eligible = true -> pn_remote_provider_eligible gr_decision = true;
  gr_still_stored : storage_get gr_id gr_w4 = (gr_w5, Ok (Some gr_again));
  gr_passage : passage gr_record q gr_score = Ok p;
  gr_content : ps_record_id p = rc_record_id gr_record /\ ps_captured_at p = df_captured_at (rc_frame gr_record) /\
    ps_excerpt p = take 4096 (join 10 (df_ocr_text (rc_frame gr_record)));
  gr_after : calls gr_w5 w' }.

Lemma granted_mono q revision el el' p w w' w'' :
  granted q revision el p w w' -> (el' = true -> el = true) -> calls w' w'' -> granted q revision el' p w w''.
Proof. intros [] Hel Hc. econstructor; eauto. by etrans. Qed.

Lemma granted_passage q revision el p w w' :
  granted q revision el p w w' -> exists r score, in_scope q r /\ passage r q score = Ok p.
Proof. intros []. eauto. Qed.

Lemma passage_content r q score p : passage r q score = Ok p ->
  ps_record_id p = rc_record_id r /\ ps_captured_at p = df_captured_at (rc_frame r) /\
  ps_excerpt p = take 4096 (join 10 (df_ocr_text (rc_frame r))).
Proof. unfold passage, make_passage. intros Hp. ok_steps. done. Qed.

(** Symbolic execution over the ports: a call is one step further. *)
Lemma wp_call {A} (m : M W A) (Q : result A -> W -> Prop) w :
  (forall w' r, m w = (w', r) -> port_call w w') ->
  (forall w' r, m w = (w', r) -> calls w w' -> Q r w') -> wp m Q w.
Proof. intros H1 H2. split. destruct (m w) as [w' r] eqn:E. apply H2; [done|]. apply rtc_once. by eapply H1. Qed.

Hint Constructors port_call : core.
Ltac port w r H := apply wp_bind, wp_call; [by eauto|intros w r H ?; destruct r as [r|]; [|exact I]].

Lemma scan_granted q revision scores cs passages eligible w0 w :
  calls w0 w -> Forall (fun p => granted q revision eligible p w0 w) passages ->
  wp (scan_candidates q revision scores cs passages eligible)
    (fun r w' => match r with
       | Ok (inr (ps, el)) =>
           Forall (fun p => granted q revision el p w0 w') ps /\ (el = true -> eligible = true)
       | _ => True end) w.
Proof.
  revert passages eligible w. induction cs as [|c cs IH]; intros passages eligible w Hw Hps; cbn [scan_candidates].
  { apply wp_ret. auto. }
  destruct (skipped q scores (candidate_id c)); [by apply IH|].
  assert (Hnext : forall w', calls w w' ->
    wp (scan_candidates q revision scores cs passages eligible)
    (fun r w'' => match r with
       | Ok (inr (ps, el)) =>
           Forall (fun p => granted q revision el p w0 w'') ps /\ (el = true -> eligible = true)
       | _ => True end) w').
  { intros w' Hc. apply IH; [by etrans|]. eapply Forall_impl; [exact Hps|]. intros p Hp. by apply (granted_mono _ _ _ _ _ _ _ _ Hp). }
  port w1 e Hget. destruct e as [e|]; [|by apply Hnext].
  port w2 r Hdec. destruct (matches q r) eqn:Hm; cbn [negb]; [|by apply Hnext; etrans]. apply matches_spec in Hm.
  port w3 d Haut. case_bool_decide as Hrev; [by apply wp_ret|]. destruct (decide (pn_policy_revision d = revision)) as [Hr|]; [|done].
  assert (calls w w3) by (by etrans; [|etrans]).
  destruct (pn_allowed d) eqn:Ha; cbn [negb]; [|by apply Hnext].
  port w4 e' Hagain. assert (calls w w4) by (by etrans). destruct e' as [e'|]; [|by apply Hnext].
  apply wp_bind, wp_lift. destruct (passage r q _) as [p|] eqn:Hp; [|exact I].
  eapply wp_mono; [apply IH|].
  - by etrans.
  - apply Forall_app. split.
    + eapply Forall_impl; [exact Hps|]. intros x Hx. eapply granted_mono; [exact Hx| |done].
      by intros [? _]%andb_true_iff.
    + constructor; [|constructor]. econstructor; try eassumption; [|by eapply passage_content|reflexivity].
      by intros [_ ?]%andb_true_iff.
  - intros [[|[ps el]]|] w' Hout; [done| |done]. destruct Hout as [? Hel].
    split; [done|]. intros Htrue%Hel. by apply andb_true_iff in Htrue as [? _].
Qed.

Lemma empty_batch_ok q revision (Q : result RetrievalBatch -> W -> Prop) w :
  (forall b, rb_passages b = [] -> rb_remote_provider_eligible b = false -> Q (Ok b) w) ->
  (forall e, Q (Raise e) w) -> wp (lift (empty_batch q revision)) Q w.
Proof.
  intros H1 H2. apply wp_lift. destruct (empty_batch q revision) as [b|e] eqn:Hb; [|apply H2].
  unfold empty_batch, make_batch in Hb. ok_steps. by apply H1.
Qed.

(** What [retrieve] answers after the decision [d] of the query, taken at [w0]. *)
Record answer_ok (q : RetrievalQuery) (d : RetrievalPolicyDecision) (w0 : W) (b : RetrievalBatch) (w' : W) : Prop := {
  ao_eligible : rb_remote_provider_eligible b = true -> pn_allowed d = true /\ pn_remote_provider_eligible d = true;
  ao_revision : rb_passages b ≠ [] -> pn_allowed d = true /\ pn_policy_revision d = rb_policy_revision b;
  ao_granted :
    Forall (fun p => granted q (rb_policy_revision b) (rb_remote_provider_eligible b) p w0 w') (rb_passages b);
  ao_ranked : Sorted passage_le (rb_passages b);
  ao_limit : (length (rb_passages b) <= Z.to_nat (rq_limit q))%nat;
  ao_nodup : NoDup (ps_record_id <$> rb_passages b) }.

Lemma answer_empty q d w0 b w' :
  rb_passages b = [] -> rb_remote_provider_eligible b = false -> answer_ok q d w0 b w'.
Proof. intros Hp He. split; rewrite ?Hp, ?He; try done; try (by constructor). cbn. lia. Qed.

Lemma retrieve_ok q w w0 d :
  authorize_query q w = (w0, Ok d) ->
  wp (retrieve q) (fun r w' => forall b, r = Ok b -> answer_ok q d w0 b w') w.
Proof.
  intros Hq. set (Q := fun (r : result RetrievalBatch) (w' : W) => forall b, r = Ok b -> answer_ok q d w0 b w').
  assert (Hempty : forall revision w1, wp (lift (empty_batch q revision)) Q w1).
  { intros revision w1. apply empty_batch_ok; [|by intros e ?].
    intros b' Hp He ? [= <-]. by apply answer_empty. }
  unfold retrieve. apply wp_bind. split. rewrite Hq. cbn.
  destruct (pn_allowed d) eqn:Ha; cbn [negb]; [|apply Hempty].
  apply wp_bind, wp_lift. destruct (day_range q) as [days|]; [|by intros ?].
  apply wp_bind, wp_call; [by eauto|]. intros w1 [cs|] Hc Hc'; [|by intros ?].
  apply wp_bind. unfold semantic_scores.
  assert (Hscan : forall scores w2, calls w0 w2 -> wp
    (if bool_decide (rq_semantic_text q ≠ None) && bool_decide (scores = ∅)
     then lift (empty_batch q (pn_policy_revision d))
     else found ← scan_candidates q (pn_policy_revision d) scores cs [] (pn_remote_provider_eligible d);
          match found with
          | inl revision => lift (empty_batch q revision)
          | inr (passages, eligible) => lift (make_batch
              {| rb_query_id := rq_query_id q;
                 rb_passages := take (Z.to_nat (rq_limit q)) (merge_sort passage_le passages);
                 rb_remote_provider_eligible := eligible;
                 rb_policy_revision := pn_policy_revision d |})
          end) Q w2).
  { intros scores w2 Hw2. destruct (_ && _); [apply Hempty|]. apply wp_bind.
    eapply wp_mono; [by apply scan_granted|].
    intros [[revision|[ps el]]|] w3 Hps; [apply Hempty| |by intros ?]. destruct Hps as [Hps Hel].
    apply wp_lift. unfold make_batch. intros b' Hb. ok_steps. btauto_hyps. split; cbn in *; auto.
    - apply Forall_take. rewrite Forall_forall in Hps |- *. intros p Hp. apply Hps.
      by rewrite merge_sort_Permutation in Hp.
    - apply Sorted_take, (Sorted_merge_sort passage_le).
    - rewrite length_take. lia. }
  destruct (rq_semantic_text q) as [text|] eqn:Ht; [|apply wp_ret; by apply Hscan].
  destruct semantic_search as [f|] eqn:Hf; [|apply wp_raise; by intros ?].
  apply wp_bind, wp_call; [by eauto|]. intros w2 [hits|] Hh Hh'; [|by intros ?].
  apply wp_ret. apply Hscan. by etrans.
Qed.

Lemma retrieve_answer q w w' b :
  retrieve q w = (w', Ok b) ->
  exists d w0, authorize_query q w = (w0, Ok d) /\ answer_ok q d w0 b w'.
Proof.
  intros Hrun. destruct (authorize_query q w) as [w0 [d|]] eqn:Hq.
  2: { unfold retrieve, mbind, M_bind in Hrun. by rewrite Hq in Hrun. }
  exists d, w0. split; [done|]. exact (wp_run _ _ _ _ _ Hrun (retrieve_ok q w w0 d Hq) b eq_refl).
Qed.

(** C37 (retrieved_is_granted): A query shows only what the policy grants,
    whatever the storage, the policy, the decryption and the semantic search
    do between two calls: a query that returns passages was allowed; each
    passage is the first 4096 characters of the text of a record that was stored at
    the time, decrypted, inside the query's scope (time range, application,
    workspace, metadata filters, keywords), allowed by a decision of the
    query's own policy revision, and still stored after that decision; the
    passages are of distinct records and at most as many as asked for; and the
    batch is offered to remote providers only if the query's decision and the
    decision of every passage say so. *)
Theorem retrieved_is_granted q w w' b :
  retrieve q w = (w', Ok b) ->
  exists d w0, authorize_query q w = (w0, Ok d) /\
    (rb_remote_provider_eligible b = true -> pn_allowed d = true /\ pn_remote_provider_eligible d = true) /\
    (rb_passages b ≠ [] -> pn_allowed d = true /\ pn_policy_revision d = rb_policy_revision b) /\
    Forall (fun p => granted q (rb_policy_revision b) (rb_remote_provider_eligible b) p w0 w') (rb_passages b) /\
    NoDup (ps_record_id <$> rb_passages b) /\ (length (rb_passages b) <= Z.to_nat (rq_limit q))%nat.
Proof. intros (d&w0&Hq&[])%retrieve_answer. by exists d, w0. Qed.

Lemma passage_ok r q score p :
  passage r q score = Ok p ->
  ps_captured_at p = df_captured_at (rc_frame r) /\ in_range (-1) 1 (ps_score p) = true /\
  (length (ps_excerpt p) <= MAX_EXCERPT_CHARS)%nat.
Proof.
  unfold passage, make_passage. intros Hp. ok_steps. btauto_hyps.
  split_and!; [done|done|]. cbn [ps_excerpt]. rewrite length_take. lia.
Qed.

(** [retrieval_is_bounded]: What a query returns is bounded and ranked: at
    most [limit] passages, of distinct records, captured inside the half-open
    time range of the query, with a score between -1 and 1 and an excerpt of
    at most 4096 characters, best score first, then oldest, then by id. *)
Theorem retrieval_is_bounded q w w' b :
  retrieve q w = (w', Ok b) ->
  (length (rb_passages b) <= Z.to_nat (rq_limit q))%nat /\ NoDup (ps_record_id <$> rb_passages b) /\
  Sorted passage_le (rb_passages b) /\
  Forall (fun p =>
    dt_utc (tr_start_at (rq_time_range q)) <= dt_utc (ps_captured_at p) < dt_utc (tr_end_at (rq_time_range q)) /\
    in_range (-1) 1 (ps_score p) = true /\ (length (ps_excerpt p) <= MAX_EXCERPT_CHARS)%nat) (rb_passages b).
Proof.
  intros (d&w0&_&[_ _ Hg ? ? ?])%retrieve_answer. split_and!; [done..|].
  eapply Forall_impl; [exact Hg|]. intros p (r&score&Hm&Hp)%granted_passage. destruct (passage_ok _ _ _ _ Hp) as (->&?&?).
  split; [apply Hm|done].
Qed.
End Service.

(** ** Nothing is left out *)

(** Collaborators that do not change during a query and do not fail. *)
Record steady := {
  sd_query : RetrievalQuery -> RetrievalPolicyDecision;
  sd_record : RetrievalQuery -> RedactedRecord -> RetrievalPolicyDecision;
  sd_candidates : DayRangeQuery -> list CatalogRecord;
  sd_get : uuid -> option EncryptedRecordEnvelope;
  sd_decrypt : EncryptedRecordEnvelope -> RedactedRecord;
  sd_search : option (pystr -> datetime -> datetime -> Z -> list SemanticCandidate) }.

Definition steady_ports (env : steady) : RetrievalPorts unit :=
  {| authorize_query q := mret (sd_query env q);
     authorize_record q r := mret (sd_record env q r);
     storage_candidates d := mret (sd_candidates env d);
     storage_get id := mret (sd_get env id);
     decrypt e := mret (sd_decrypt env e);
     semantic_search :=
       match sd_search env with
       | Some f => Some (fun text a b n => mret (f text a b n))
       | None => None
       end |}.

Section Steady.
Variable env : steady.
Local Instance the_ports : RetrievalPorts unit := steady_ports env.

(** The record a candidate shows to the query, with its semantic score. *)
Definition visible (q : RetrievalQuery) (scores : gmap uuid pyfloat) (c : CatalogRecord)
    : option (RedactedRecord * option pyfloat) :=
  let id := candidate_id c in
  e ← (if skipped q scores id then None else sd_get env id);
  let r := sd_decrypt env e in
  if matches q r && pn_allowed (sd_record env q r) then Some (r, scores !! id) else None.

Definition steady_scores (q : RetrievalQuery) (cs : list CatalogRecord) : result (gmap uuid pyfloat) :=
  match rq_semantic_text q, sd_search env with
  | None, _ => Ok ∅
  | Some _, None => Raise RuntimeError
  | Some text, Some f =>
      Ok (best_scores (candidate_id <$> cs)
            (f text (tr_start_at (rq_time_range q)) (tr_end_at (rq_time_range q)) (rq_candidate_limit q)))
  end.

Definition retrieve_spec (q : RetrievalQuery) : result RetrievalBatch :=
  let d := sd_query env q in
  if negb (pn_allowed d) then empty_batch q (pn_policy_revision d)
  else
    days ← day_range q;
    let cs := sd_candidates env days in
    scores ← steady_scores q cs;
    if bool_decide (rq_semantic_text q ≠ None) && bool_decide (scores = ∅)
    then empty_batch q (pn_policy_revision d)
    else
      let shown := omap (visible q scores) cs in
      passages ← map_ok (fun x => passage x.1 q x.2) shown;
      make_batch
        {| rb_query_id := rq_query_id q;
           rb_passages := take (Z.to_nat (rq_limit q)) (merge_sort passage_le passages);
           rb_remote_provider_eligible := pn_remote_provider_eligible d &&
             forallb (fun x => pn_remote_provider_eligible (sd_record env q x.1)) shown;
           rb_policy_revision := pn_policy_revision d |}.

Lemma bind_some_id {A B} (x : A) (k : A -> option B) : Some x ≫= k = k x.
Proof. done. Qed.

Lemma scan_steady q revision scores cs passages eligible :
  (forall r, pn_policy_revision (sd_record env q r) = revision) ->
  scan_candidates q revision scores cs passages eligible tt =
  (tt, more ← map_ok (fun x => passage x.1 q x.2) (omap (visible q scores) cs);
       mret (inr (passages ++ more, eligible &&
         forallb (fun x => pn_remote_provider_eligible (sd_record env q x.1)) (omap (visible q scores) cs)))).
Proof.
  intros Hrev. revert passages eligible. induction cs as [|c cs IH]; intros passages eligible.
  { cbn. by rewrite app_nil_r, andb_true_r. }
  cbn [scan_candidates omap list_omap]. unfold visible at 1 4.
  destruct (skipped q scores (candidate_id c)); [apply IH|].
  unfold mbind at 1, M_bind at 1. cbn [storage_get the_ports steady_ports mret M_ret option_bind].
  destruct (sd_get env (candidate_id c)) as [e|] eqn:He; [|apply IH]. rewrite !bind_some_id.
  unfold mbind at 1, M_bind at 1. cbn [decrypt the_ports steady_ports mret M_ret].
  destruct (matches q (sd_decrypt env e)); cbn [negb andb]; [|apply IH].
  unfold mbind at 1, M_bind at 1. cbn [authorize_record the_ports steady_ports mret M_ret].
  rewrite bool_decide_false by (intros Hne; by apply Hne).
  destruct (pn_allowed (sd_record env q (sd_decrypt env e))) eqn:Ha; cbn [negb]; [|apply IH].
  unfold mbind at 1, M_bind at 1. cbn [storage_get the_ports steady_ports mret M_ret].
  unfold mbind at 1, M_bind at 1, lift at 1.
  cbn [map_ok forallb fst snd]. destruct (passage _ q _) as [p|]; [|done]. cbn.
  rewrite IH, andb_assoc. f_equal. destruct (map_ok _ _) as [more|]; [|done]. cbn. by rewrite <- app_assoc.
Qed.

(** With steady collaborators of one policy revision, the answer in terms of
    the candidates each considered on its own. *)
Lemma retrieve_steady q :
  (forall r, pn_policy_revision (sd_record env q r) = pn_policy_revision (sd_query env q)) ->
  retrieve q tt = (tt, retrieve_spec q).
Proof.
  intros Hrev. unfold retrieve, retrieve_spec.
  unfold mbind at 1, M_bind at 1. cbn [authorize_query the_ports steady_ports mret M_ret].
  destruct (pn_allowed (sd_query env q)); cbn [negb]; [|done].
  unfold mbind at 1, M_bind at 1, lift at 1. destruct (day_range q) as [days|]; [|done].
  unfold mbind at 1, M_bind at 1. cbn [storage_candidates the_ports steady_ports mret M_ret mbind result_bind].
  set (cs := sd_candidates env days).
  assert (Hs : semantic_scores q cs tt = (tt, steady_scores q cs)).
  { unfold semantic_scores, steady_scores. destruct (rq_semantic_text q); [|done].
    cbn [semantic_search the_ports steady_ports]. by destruct (sd_search env). }
  unfold mbind at 1, M_bind at 1. rewrite Hs. destruct (steady_scores q cs) as [scores|]; [|done].
  cbn [mbind result_bind]. destruct (_ && bool_decide (scores = ∅)); [done|].
  unfold mbind at 1, M_bind at 1. rewrite scan_steady by done.
  destruct (map_ok _ _) as [ps|]; done.
Qed.

(** [retrieval_is_complete]: with such collaborators and no semantic text,
    every stored candidate of the days that is in scope and allowed is
    returned, unless as many passages as were asked for are. *)
Theorem retrieval_is_complete q days b c e :
  (forall r, pn_policy_revision (sd_record env q r) = pn_policy_revision (sd_query env q)) ->
  rq_semantic_text q = None -> pn_allowed (sd_query env q) = true -> day_range q = Ok days ->
  retrieve q tt = (tt, Ok b) ->
  c ∈ sd_candidates env days -> sd_get env (candidate_id c) = Some e -> in_scope q (sd_decrypt env e) ->
  pn_allowed (sd_record env q (sd_decrypt env e)) = true ->
  exists p, passage (sd_decrypt env e) q None = Ok p /\
    (p ∈ rb_passages b \/ length (rb_passages b) = Z.to_nat (rq_limit q)).
Proof.
  intros Hrev Ht Ha Hd Hrun Hc He Hin Hal. rewrite (retrieve_steady q Hrev) in Hrun. injection Hrun as Hrun. revert Hrun.
  unfold retrieve_spec, steady_scores. rewrite Ha, Hd, Ht. cbn [negb mbind result_bind].
  rewrite (bool_decide_false (@None pystr <> None)) by (intros Hx; by apply Hx). cbn [andb].
  intros Hrun. apply result_bind_ok in Hrun as (ps&Hps&Hb). unfold make_batch in Hb. ok_steps. cbn [rb_passages].
  assert (Hv : (sd_decrypt env e, None) ∈ omap (visible q ∅) (sd_candidates env days)).
  { apply list_elem_of_omap. exists c. split; [done|]. unfold visible, skipped. rewrite Ht.
    rewrite (bool_decide_false (@None pystr <> None)) by (intros Hx; by apply Hx). cbn [andb]. rewrite He. cbn.
    by rewrite (proj2 (matches_spec _ _) Hin), Hal. }
  apply map_ok_Forall2 in Hps. apply list_elem_of_lookup in Hv as [i Hi].
  destruct (Forall2_lookup_l _ _ _ _ _ Hps Hi) as (p&Hip&Hp). exists p. split; [exact Hp|].
  destruct (decide (length ps <= Z.to_nat (rq_limit q))%nat) as [Hl|Hl].
  - left. rewrite take_ge by (by rewrite merge_sort_Permutation). rewrite merge_sort_Permutation. by eapply list_elem_of_lookup_2.
  - right. rewrite length_take, merge_sort_Permutation. lia.
Qed.
End Steady.

(** ** A concrete query *)

Definition demo_time (s : Z) : datetime := {| dt_wall := s * 1000000; dt_offset := 0 |}.
Definition demo_record (n : Z) (at_s : Z) (app : string) (text : string) : RedactedRecord :=
  {| rc_record_id := n;
     rc_frame := {| df_frame_id := n; df_generation := 1; df_captured_at := demo_time at_s;
                    df_width := 1; df_height := 1; df_stride := 1; df_pixel_format := GRAY8; df_pixels := [0];
                    df_metadata := {| cm_observed_at := demo_time at_s;
                      cm_fields := [{| cf_name := u "application"; cf_value := MStr (u app);
                        cf_provenance := [{| mp_source_id := u "xorg"; mp_observed_at := demo_time at_s;
                          mp_confidence := dec 9 1; mp_adapter_revision := None |}] |}] |};
                    df_ocr_text := [u text]; df_findings := 0; df_policy_revision := u "redact-1" |};
     rc_created_at := demo_time at_s |}.

(** Records 1 and 2 are editor frames, 3 is out of range, 4 is denied. *)
Definition demo_records : list (uuid * RedactedRecord) :=
  [(1, demo_record 1 100 "Editor" "Release plan"); (2, demo_record 2 200 "editor" "the release RELEASE notes");
   (3, demo_record 3 900 "Editor" "release"); (4, demo_record 4 300 "Editor" "release secret")].

Definition demo_envelope (n : Z) : EncryptedRecordEnvelope :=
  {| env_record_id := n; env_generation := 1; env_configuration_revision := u "rev";
     env_schema_version := 1; env_algorithm := u "aead";
     env_key := {| key_id := u "k"; key_provider_id := u "p"; key_version := 1 |};
     env_plaintext_frame_sizes := [4]; env_wrapped_data_key := [1]; env_nonce := [2];
     env_ciphertext := [n]; env_associated_data_digest := [3]; env_created_at := demo_time 0 |}.

Definition demo_decision (allowed : bool) : RetrievalPolicyDecision :=
  {| pn_allowed := allowed; pn_remote_provider_eligible := allowed;
     pn_policy_revision := u "p1"; pn_reason_code := u "ok" |}.

Definition demo_env : steady :=
  {| sd_query q := demo_decision true;
     sd_record q r := demo_decision (negb (rc_record_id r =? 4));
     sd_candidates d := (fun x => {| cr_record := {| ref_record_id := x.1; ref_storage_id := u "t"; ref_schema_version := 1 |};
       cr_day_bucket := 0; cr_blob_bytes := 10; cr_key := env_key (demo_envelope 0) |}) <$> demo_records;
     sd_get id := if bool_decide (id ∈ demo_records.*1) then Some (demo_envelope id) else None;
     sd_decrypt e := match list_find (fun x => x.1 = env_record_id e) demo_records with
                     | Some (_, (_, r)) => r | None => demo_record 0 0 "" "" end;
     sd_search := None |}.

Definition demo_query : RetrievalQuery :=
  {| rq_time_range := {| tr_start_at := demo_time 50; tr_end_at := demo_time 500 |};
     rq_application := Some (u "EDITOR"); rq_workspace := None;
     rq_keywords := [u "release"]; rq_semantic_text := None; rq_metadata_filters := [];
     rq_limit := 10; rq_candidate_limit := 100; rq_query_id := 7 |}.

Definition demo_batch : RetrievalBatch :=
  match retrieve_spec demo_env demo_query with
  | Ok b => b
  | Raise _ => {| rb_query_id := 0; rb_passages := []; rb_remote_provider_eligible := false; rb_policy_revision := [] |}
  end.

Example demo_retrieval :
  (make_retrieval_query demo_query, ps_record_id <$> rb_passages demo_batch, rb_remote_provider_eligible demo_batch)
  = (Ok demo_query, [1; 2], true).
Proof. vm_compute. reflexivity. Qed.

Lemma demo_run : @retrieve unit (steady_ports demo_env) demo_query tt = (tt, Ok demo_batch).
Proof. vm_compute. reflexivity. Defined.

Lemma retrieved_is_granted_witness :
  @retrieve unit (steady_ports demo_env) demo_query tt = (tt, Ok demo_batch) /\
  exists d w0, @authorize_query unit (steady_ports demo_env) demo_query tt = (w0, Ok d) /\ pn_allowed d = true.
Proof.
  split; [exact demo_run|].
  destruct (@retrieved_is_granted unit (steady_ports demo_env) demo_query tt tt demo_batch demo_run)
    as (d&w0&Hq&_&Hr&_).
  exists d, w0. split; [exact Hq|]. apply Hr. vm_compute. discriminate.
Defined.

Lemma retrieval_is_bounded_witness :
  @retrieve unit (steady_ports demo_env) demo_query tt = (tt, Ok demo_batch) /\
  (length (rb_passages demo_batch) <= 10)%nat.
Proof.
  split; [exact demo_run|].
  exact (proj1 (@retrieval_is_bounded unit (steady_ports demo_env) demo_query tt tt demo_batch demo_run)).
Defined.

Lemma retrieval_is_complete_witness :
  @retrieve unit (steady_ports demo_env) demo_query tt = (tt, Ok demo_batch) /\
  exists p, passage (demo_record 2 200 "editor" "the release RELEASE notes") demo_query None = Ok p /\
    (p ∈ rb_passages demo_batch \/ length (rb_passages demo_batch) = 10%nat).
Proof.
  split; [exact demo_run|].
  refine (retrieval_is_complete demo_env demo_query {| dq_start_day := 0; dq_end_day := 0; dq_limit := 100 |} demo_batch
    {| cr_record := {| ref_record_id := 2; ref_storage_id := u "t"; ref_schema_version := 1 |};
       cr_day_bucket := 0; cr_blob_bytes := 10; cr_key := env_key (demo_envelope 0) |} (demo_envelope 2) _ eq_refl eq_refl _ demo_run _ _ _ _).
  - reflexivity.
  - vm_compute. reflexivity.
  - do 1 constructor 2. constructor 1.
  - vm_compute. reflexivity.
  - apply matches_spec. vm_compute. reflexivity.
  - vm_compute. reflexivity.
Defined.
