(* ===== verification/Egress.v ===== *)
(** * Egress: model routing and the egress gate.

    Models [domain/privacy.py], [domain/providers.py] and [routing.py]: which
    provider a request may be routed to, and what may be sent to a remote one.
    [SecretDetector] is what the gate uses of [redaction/detector.py].  A
    frozenset is a [gset]. *)

From stdpp Require Import sorting.
From S2P Require Import Prelude PyStr Utf8.

(** ** [domain/privacy.py] and [domain/providers.py] *)

Inductive PrivacyClass :=
  | PUBLIC | OPERATIONAL_METADATA | REDACTED_CONTENT | ENCRYPTED_CONTENT | RAW_CAPTURE | SECRET_MATERIAL.
Inductive ProviderLocation := LOCAL | REMOTE.
Inductive ModelCapability := GENERATION | EMBEDDING | VISION.
Inductive GenerationRole := EXTRACTION | SUMMARIZATION | ANSWERING.
Inductive EgressDataClass := REDACTED_TEXT | APPROVED_METADATA | REDACTED_IMAGE.

#[export] Instance PrivacyClass_eq_dec : EqDecision PrivacyClass.
Proof. solve_decision. Defined.
#[export] Instance ProviderLocation_eq_dec : EqDecision ProviderLocation.
Proof. solve_decision. Defined.
#[export] Instance ModelCapability_eq_dec : EqDecision ModelCapability.
Proof. solve_decision. Defined.
#[export] Instance EgressDataClass_eq_dec : EqDecision EgressDataClass.
Proof. solve_decision. Defined.

(** The integer values of the [IntEnum]. *)
Definition privacy_value (p : PrivacyClass) : Z :=
  match p with
  | PUBLIC => 0 | OPERATIONAL_METADATA => 10 | REDACTED_CONTENT => 20
  | ENCRYPTED_CONTENT => 30 | RAW_CAPTURE => 40 | SECRET_MATERIAL => 50
  end.
Definition privacy_of (n : Z) : option PrivacyClass :=
  list_find (fun p => privacy_value p = n)
    [PUBLIC; OPERATIONAL_METADATA; REDACTED_CONTENT; ENCRYPTED_CONTENT; RAW_CAPTURE; SECRET_MATERIAL]
  ≫= fun x => Some x.2.
#[export] Instance PrivacyClass_countable : Countable PrivacyClass.
Proof. refine (inj_countable privacy_value privacy_of _). by intros []. Defined.

Definition capability_code (c : ModelCapability) : Z :=
  match c with GENERATION => 0 | EMBEDDING => 1 | VISION => 2 end.
#[export] Instance ModelCapability_countable : Countable ModelCapability.
Proof.
  refine (inj_countable capability_code
    (fun n => if n =? 0 then Some GENERATION else if n =? 1 then Some EMBEDDING else Some VISION) _).
  by intros [].
Defined.

Definition data_class_code (c : EgressDataClass) : Z :=
  match c with REDACTED_TEXT => 0 | APPROVED_METADATA => 1 | REDACTED_IMAGE => 2 end.
#[export] Instance EgressDataClass_countable : Countable EgressDataClass.
Proof.
  refine (inj_countable data_class_code
    (fun n => if n =? 0 then Some REDACTED_TEXT else if n =? 1 then Some APPROVED_METADATA else Some REDACTED_IMAGE) _).
  by intros [].
Defined.

Record EgressAuthorization := {
  ea_authorization_id : pystr;
  ea_provider_id : pystr;
  ea_data_classes : gset EgressDataClass;
  ea_max_payload_bytes : Z }.

Definition make_egress_authorization (a : EgressAuthorization) : result EgressAuthorization :=
  _ ← require_nonempty (ea_authorization_id a);
  _ ← require_nonempty (ea_provider_id a);
  _ ← throw_if (bool_decide (ea_data_classes a = ∅)) ValueError;
  _ ← throw_if (ea_max_payload_bytes a <=? 0) ValueError;
  mret a.

Record ProviderCapabilities := {
  pv_provider_id : pystr;
  pv_location : ProviderLocation;
  pv_capabilities : gset ModelCapability;
  pv_accepted_privacy_classes : gset PrivacyClass;
  pv_max_input_bytes : Z;
  pv_supports_vision : bool;
  pv_max_context_tokens : option Z;
  pv_supports_structured_output : bool;
  pv_available : bool }.

Definition make_provider_capabilities (p : ProviderCapabilities) : result ProviderCapabilities :=
  _ ← require_nonempty (pv_provider_id p);
  _ ← throw_if (bool_decide (pv_capabilities p = ∅)) ValueError;
  _ ← throw_if (bool_decide (pv_accepted_privacy_classes p = ∅)) ValueError;
  _ ← throw_if (pv_max_input_bytes p <=? 0) ValueError;
  _ ← throw_if (pv_supports_vision p && negb (bool_decide (VISION ∈ pv_capabilities p))) ValueError;
  _ ← throw_if (match pv_max_context_tokens p with Some n => n <=? 0 | None => false end) ValueError;
  mret p.

Definition accepts (p : ProviderCapabilities) (c : PrivacyClass) : bool :=
  bool_decide (c ∈ pv_accepted_privacy_classes p).

Record GenerationRequest := {
  gn_prompt : pystr;
  gn_context : list pystr;
  gn_privacy_class : PrivacyClass;
  gn_max_output_tokens : Z;
  gn_model_hint : option pystr;
  gn_role : GenerationRole }.

Definition make_generation_request (g : GenerationRequest) : result GenerationRequest :=
  _ ← require_nonempty (gn_prompt g);
  _ ← throw_if (gn_max_output_tokens g <=? 0) ValueError;
  mret g.

Record GenerationResponse := {
  gs_text : pystr;
  gs_provider_id : pystr;
  gs_model_id : pystr;
  gs_input_tokens : option Z;
  gs_output_tokens : option Z }.

Record RoutingRequest := {
  rr_capability : ModelCapability;
  rr_privacy_class : PrivacyClass;
  rr_allow_remote : bool;
  rr_egress_authorization_id : option pystr;
  rr_data_classes : gset EgressDataClass;
  rr_authorization : option EgressAuthorization }.

Definition require_optional (s : option pystr) : result unit :=
  match s with Some s => require_nonempty s | None => mret tt end.

Definition make_routing_request (r : RoutingRequest) : result RoutingRequest :=
  _ ← require_optional (rr_egress_authorization_id r);
  _ ← match rr_authorization r with
      | None => mret tt
      | Some a =>
          _ ← throw_if (negb (rr_allow_remote r)) ValueError;
          throw_if (bool_decide (rr_egress_authorization_id r ∉ [None; Some (ea_authorization_id a)])) ValueError
      end;
  mret r.

Record RoutingDecision := {
  rd_provider_id : pystr;
  rd_location : ProviderLocation;
  rd_capability : ModelCapability;
  rd_egress_authorization_id : option pystr;
  rd_reason_code : pystr }.

Definition make_routing_decision (d : RoutingDecision) : result RoutingDecision :=
  _ ← require_nonempty (rd_provider_id d);
  _ ← require_nonempty (rd_reason_code d);
  _ ← throw_if (bool_decide (rd_location d = REMOTE) && bool_decide (rd_egress_authorization_id d = None)) ValueError;
  _ ← require_optional (rd_egress_authorization_id d);
  mret d.

(** ** [routing.py]: the routing policy *)

Inductive RoutingMode := PRIVACY_STRICT | LOCAL_ONLY | LOCAL_FIRST | REMOTE_EXPLICIT.
#[export] Instance RoutingMode_eq_dec : EqDecision RoutingMode.
Proof. solve_decision. Defined.

Definition REMOTE_PRIVACY_CLASSES : gset PrivacyClass := {[PUBLIC; OPERATIONAL_METADATA; REDACTED_CONTENT]}.

Definition provider_matches (p : ProviderCapabilities) (r : RoutingRequest) (location : ProviderLocation) : bool :=
  bool_decide (pv_location p = location) && pv_available p &&
  bool_decide (rr_capability r ∈ pv_capabilities p) && accepts p (rr_privacy_class r).

(** The dictionary of [_route_local]; it has no entry for the remote mode. *)
Definition local_reason (mode : RoutingMode) : result pystr :=
  match mode with
  | PRIVACY_STRICT => Ok (u "privacy-strict-local")
  | LOCAL_ONLY => Ok (u "local-only")
  | LOCAL_FIRST => Ok (u "local-first")
  | REMOTE_EXPLICIT => Raise KeyError
  end.

Fixpoint route_local (mode : RoutingMode) (r : RoutingRequest) (ps : list ProviderCapabilities)
    : result RoutingDecision :=
  match ps with
  | [] => if bool_decide (mode = PRIVACY_STRICT)
          then Raise (NoRouteError (u "privacy-strict-local-only"))
          else Raise (NoRouteError (u "local-unavailable"))
  | p :: ps' =>
      if negb (provider_matches p r LOCAL) then route_local mode r ps'
      else
        reason ← local_reason mode;
        make_routing_decision
          {| rd_provider_id := pv_provider_id p; rd_location := LOCAL; rd_capability := rr_capability r;
             rd_egress_authorization_id := None; rd_reason_code := reason |}
  end.

(** The loop of [_route_remote], under an authorization. *)
Fixpoint scan_remote (a : EgressAuthorization) (r : RoutingRequest) (ps : list ProviderCapabilities)
    : result RoutingDecision :=
  match ps with
  | [] => Raise (NoRouteError (u "remote-unavailable"))
  | p :: ps' =>
      if negb (bool_decide (pv_provider_id p = ea_provider_id a)) then scan_remote a r ps'
      else if negb (provider_matches p r REMOTE) then scan_remote a r ps'
      else make_routing_decision
        {| rd_provider_id := pv_provider_id p; rd_location := REMOTE; rd_capability := rr_capability r;
           rd_egress_authorization_id := Some (ea_authorization_id a);
           rd_reason_code := u "remote-explicit-authorized" |}
  end.

Definition route_remote (r : RoutingRequest) (ps : list ProviderCapabilities) : result RoutingDecision :=
  match (if negb (rr_allow_remote r) then None else rr_authorization r) with
  | None => Raise (NoRouteError (u "egress-authorization-required"))
  | Some a =>
      _ ← throw_if (match rr_egress_authorization_id r with
                    | Some id => negb (bool_decide (id = ea_authorization_id a))
                    | None => false
                    end) (NoRouteError (u "egress-authorization-mismatch"));
      _ ← throw_if (bool_decide (rr_privacy_class r ∉ REMOTE_PRIVACY_CLASSES)) (NoRouteError (u "privacy-class-denied"));
      _ ← throw_if (bool_decide (rr_data_classes r = ∅)) (NoRouteError (u "egress-data-class-required"));
      _ ← throw_if (negb (bool_decide (rr_data_classes r ⊆ ea_data_classes a)))
            (NoRouteError (u "egress-data-class-denied"));
      scan_remote a r ps
  end.

Definition route (mode : RoutingMode) (r : RoutingRequest) (ps : list ProviderCapabilities) : result RoutingDecision :=
  if bool_decide (mode = REMOTE_EXPLICIT) then route_remote r ps else route_local mode r ps.

(** ** [routing.py]: the egress gate *)

Record EgressPayload := {
  ep_text : pystr;
  ep_metadata : list (pystr * pystr);
  ep_image : pybytes }.

Definition make_payload (p : EgressPayload) : result EgressPayload :=
  _ ← throw_if (bool_decide (ep_text p = []) && bool_decide (ep_metadata p = []) && bool_decide (ep_image p = [])) ValueError;
  _ ← throw_if (existsb (fun m => bool_decide (m.1 = [])) (ep_metadata p)) ValueError;
  _ ← throw_if (negb (bool_decide (NoDup (ep_metadata p).*1))) ValueError;
  mret p.

Definition data_classes (p : EgressPayload) : gset EgressDataClass :=
  (if bool_decide (ep_text p = []) then ∅ else {[REDACTED_TEXT]}) ∪
  (if bool_decide (ep_metadata p = []) then ∅ else {[APPROVED_METADATA]}) ∪
  (if bool_decide (ep_image p = []) then ∅ else {[REDACTED_IMAGE]}).

Record ApprovedEgressPayload := {
  ap_authorization_id : pystr;
  ap_provider_id : pystr;
  ap_data_classes : gset EgressDataClass;
  ap_payload_bytes : Z;
  ap_payload_sha256 : pystr;
  ap_text : pystr;
  ap_metadata : list (pystr * pystr);
  ap_image : pybytes }.

(** What the gate asks of the detector: whether [scan(text).matches] is
    non-empty and whether [sensitive_metadata_name] finds a name. *)
Class SecretDetector := {
  scan_matches : pystr -> bool;
  sensitive_metadata_name : pystr -> bool }.

(** [n.to_bytes(8, "big")] *)
Definition to_bytes8 (n : Z) : result pybytes :=
  if (0 <=? n) && (n <? 2 ^ 64)
  then Ok ((fun i => n / 2 ^ (8 * (7 - Z.of_nat i)) mod 256) <$> seq 0 8)
  else Raise OverflowError.

Section Gate.
Context `{SecretDetector}.
(** [hashlib.sha256(b).hexdigest()] *)
Variable sha256_hex : pybytes -> pystr.

Definition scan_text (text : pystr) : result unit :=
  throw_if (negb (bool_decide (text = [])) && scan_matches text) (EgressDeniedError (u "secret-detected")).

Fixpoint scan_metadata (ms : list (pystr * pystr)) : result unit :=
  match ms with
  | [] => mret tt
  | (name, value) :: ms' =>
      _ ← throw_if (sensitive_metadata_name name) (EgressDeniedError (u "sensitive-metadata"));
      _ ← scan_text value;
      scan_metadata ms'
  end.

(** [add]: the size so far and the bytes the digest was updated with. *)
Definition add (kind content : pybytes) (acc : Z * pybytes) : result (Z * pybytes) :=
  len ← to_bytes8 (zlen content);
  mret (acc.1 + zlen content, acc.2 ++ kind ++ len ++ content).

(** The metadata is added in the order of [sorted(payload.metadata)]. *)
Fixpoint add_metadata (ms : list (pystr * pystr)) (acc : Z * pybytes) : result (Z * pybytes) :=
  match ms with
  | [] => mret acc
  | (name, value) :: ms' =>
      n ← utf8_encode name;
      acc ← add (u "metadata-name") n acc;
      v ← utf8_encode value;
      acc ← add (u "metadata-value") v acc;
      add_metadata ms' acc
  end.

Definition measured (p : EgressPayload) : result (Z * pybytes) :=
  acc ← (if bool_decide (ep_text p = []) then mret (0, [])
         else t ← utf8_encode (ep_text p); add (u "text") t (0, []));
  acc ← add_metadata (merge_sort pair_le (ep_metadata p)) acc;
  if bool_decide (ep_image p = []) then mret acc else add (u "image") (ep_image p) acc.

Definition measure (p : EgressPayload) : result (Z * pystr) :=
  acc ← measured p;
  mret (acc.1, sha256_hex acc.2).

Definition approve (p : EgressPayload) (a : EgressAuthorization) : result ApprovedEgressPayload :=
  _ ← throw_if (negb (bool_decide (data_classes p ⊆ ea_data_classes a)))
        (EgressDeniedError (u "egress-data-class-denied"));
  _ ← scan_text (ep_text p);
  _ ← scan_metadata (ep_metadata p);
  sized ← measure p;
  _ ← throw_if (ea_max_payload_bytes a <? sized.1) (EgressDeniedError (u "payload-too-large"));
  mret {| ap_authorization_id := ea_authorization_id a; ap_provider_id := ea_provider_id a;
          ap_data_classes := data_classes p; ap_payload_bytes := sized.1;
          ap_payload_sha256 := sized.2; ap_text := ep_text p; ap_metadata := ep_metadata p;
          ap_image := ep_image p |}.
End Gate.
