(* ===== verification/EgressFacts.v ===== *)
(** * EgressFacts: what may leave the machine.

    Routing is exact (the first eligible provider, remote only under a grant),
    the egress gate approves exactly the payloads within the grant that the
    detector finds clean, and the digest it records commits to the payload. *)

From stdpp Require Import sorting.
From S2P Require Import Prelude PyStr Utf8 Egress.

(** ** Routing *)

(** The objects the caller holds passed their constructors' checks. *)
Definition valid_request (r : RoutingRequest) : Prop :=
  make_routing_request r = Ok r /\
  forall a, rr_authorization r = Some a -> make_egress_authorization a = Ok a.
Definition valid_providers (ps : list ProviderCapabilities) : Prop :=
  Forall (fun p => make_provider_capabilities p = Ok p) ps.

(** The specification: which provider may serve a request, ... *)
Definition eligible (mode : RoutingMode) (r : RoutingRequest) (p : ProviderCapabilities) : bool :=
  match mode, rr_authorization r with
  | REMOTE_EXPLICIT, Some a => bool_decide (pv_provider_id p = ea_provider_id a) && provider_matches p r REMOTE
  | REMOTE_EXPLICIT, None => false
  | _, _ => provider_matches p r LOCAL
  end.

(** ... what a remote route needs, ... *)
Definition granted (r : RoutingRequest) : Prop :=
  exists a, rr_allow_remote r = true /\ rr_authorization r = Some a /\
    rr_privacy_class r ∈ REMOTE_PRIVACY_CLASSES /\
    rr_data_classes r ≠ ∅ /\ rr_data_classes r ⊆ ea_data_classes a.

(** ... and the decision that names it. *)
Definition decision_of (mode : RoutingMode) (r : RoutingRequest) (p : ProviderCapabilities) : RoutingDecision :=
  {| rd_provider_id := pv_provider_id p;
     rd_location := if bool_decide (mode = REMOTE_EXPLICIT) then REMOTE else LOCAL;
     rd_capability := rr_capability r;
     rd_egress_authorization_id :=
       if bool_decide (mode = REMOTE_EXPLICIT) then ea_authorization_id <$> rr_authorization r else None;
     rd_reason_code := match mode with
                       | PRIVACY_STRICT => u "privacy-strict-local"
                       | LOCAL_ONLY => u "local-only"
                       | LOCAL_FIRST => u "local-first"
                       | REMOTE_EXPLICIT => u "remote-explicit-authorized"
                       end |}.

(** [p] is the first of [ps] that [f] accepts. *)
Definition first_of {A} (f : A -> bool) (ps : list A) (p : A) : Prop :=
  exists pre post, ps = pre ++ p :: post /\ f p = true /\ Forall (fun q => f q = false) pre.

Lemma first_of_nil {A} (f : A -> bool) p : ~ first_of f [] p.
Proof. intros ([|??]&?&?&_); done. Qed.

Lemma first_of_cons {A} (f : A -> bool) q ps p :
  first_of f (q :: ps) p <-> if f q then p = q else first_of f ps p.
Proof.
  split.
  - intros (pre&post&Hps&Hp&Hpre). destruct pre as [|x pre]; simplify_eq/=; [by rewrite Hp|].
    apply Forall_cons in Hpre as [-> Hpre]. by exists pre, post.
  - destruct (f q) eqn:Hq; [intros ->; by exists [], ps|].
    intros (pre&post&->&Hp&Hpre). exists (q :: pre), post. split; [done|]. split; [done|by constructor].
Qed.

Lemma first_of_unique {A} (f : A -> bool) ps p q : first_of f ps p -> first_of f ps q -> p = q.
Proof.
  induction ps as [|x ps IH]; [by intros ?%first_of_nil|]. rewrite !first_of_cons.
  destruct (f x); [by intros -> ->|done].
Qed.

Lemma first_of_none {A} (f : A -> bool) ps p : Forall (fun q => f q = false) ps -> ~ first_of f ps p.
Proof.
  intros Hf (pre&post&->&Hp&_). apply Forall_app in Hf as [_ Hf]. apply Forall_cons in Hf as [Hf _]. congruence.
Qed.

Definition no_route {A} (r : result A) : Prop := exists reason, r = Raise (NoRouteError reason).

Lemma route_local_exact mode r ps :
  valid_providers ps -> mode ≠ REMOTE_EXPLICIT ->
  (exists p, first_of (eligible mode r) ps p /\ route_local mode r ps = Ok (decision_of mode r p)) \/
  (Forall (fun p => eligible mode r p = false) ps /\ no_route (route_local mode r ps)).
Proof.
  intros Hps Hm. assert (Hel : eligible mode r = fun p => provider_matches p r LOCAL) by (by destruct mode).
  rewrite Hel. induction Hps as [|p ps Hp _ IH]; cbn.
  - right. split; [constructor|]. unfold no_route. case_bool_decide; eauto.
  - destruct (provider_matches p r LOCAL) eqn:E; cbn.
    + left. exists p. split; [by rewrite first_of_cons, E|].
      unfold make_provider_capabilities in Hp. apply result_bind_ok in Hp as ([]&Hp&_).
      unfold make_routing_decision, decision_of. rewrite bool_decide_false by done.
      destruct mode; cbn; rewrite ?Hp; done.
    + destruct IH as [(q&Hq&?)|[Hf ?]].
      * left. exists q. split; [by rewrite first_of_cons, E|done].
      * right. split; [by constructor|done].
Qed.

Lemma scan_remote_exact a r ps :
  valid_providers ps -> make_egress_authorization a = Ok a -> rr_authorization r = Some a ->
  (exists p, first_of (eligible REMOTE_EXPLICIT r) ps p /\ scan_remote a r ps = Ok (decision_of REMOTE_EXPLICIT r p)) \/
  (Forall (fun p => eligible REMOTE_EXPLICIT r p = false) ps /\ no_route (scan_remote a r ps)).
Proof.
  intros Hps Ha Hr. assert (Hel : forall p, eligible REMOTE_EXPLICIT r p =
    bool_decide (pv_provider_id p = ea_provider_id a) && provider_matches p r REMOTE) by (intros p; cbn; by rewrite Hr).
  unfold make_egress_authorization in Ha. apply result_bind_ok in Ha as ([]&Ha&_).
  induction Hps as [|p ps Hp _ IH]; cbn; [right; split; [constructor|eexists; done]|].
  destruct (eligible REMOTE_EXPLICIT r p) eqn:E.
  - left. exists p. split; [by rewrite first_of_cons, E|]. rewrite Hel in E. apply andb_true_iff in E as [-> ->]. cbn.
    unfold make_provider_capabilities in Hp. apply result_bind_ok in Hp as ([]&Hp&_).
    unfold make_routing_decision, decision_of. cbn. rewrite Hp, Hr. cbn. by rewrite Ha.
  - assert (scan_remote a r (p :: ps) = scan_remote a r ps) as Hscan.
    { rewrite Hel in E. cbn. destruct (bool_decide _); cbn in *; [by rewrite E|done]. }
    cbn in Hscan. rewrite Hscan. destruct IH as [(q&Hq&?)|[Hf ?]].
    + left. exists q. split; [by rewrite first_of_cons, E|done].
    + right. split; [by constructor|done].
Qed.

Lemma route_remote_exact r ps :
  valid_request r -> valid_providers ps ->
  (exists p, first_of (eligible REMOTE_EXPLICIT r) ps p /\ (REMOTE_EXPLICIT = REMOTE_EXPLICIT -> granted r) /\
     route_remote r ps = Ok (decision_of REMOTE_EXPLICIT r p)) \/
  ((forall p, ~ (first_of (eligible REMOTE_EXPLICIT r) ps p /\ (REMOTE_EXPLICIT = REMOTE_EXPLICIT -> granted r))) /\
     no_route (route_remote r ps)).
Proof.
  intros [Hreq Hauth] Hps. unfold route_remote.
  unfold make_routing_request in Hreq. destruct (rr_authorization r) as [a|] eqn:Ha; cycle 1.
  { right. split; [|destruct (negb _); eexists; done]. intros p [(_&_&_&He&_) _]. cbn in He. by rewrite Ha in He. }
  ok_steps. btauto_hyps. match goal with H : rr_allow_remote r = true |- _ => rewrite H; rename H into Hallow end.
  cbn. match goal with H : ~ (_ ∉ [None; _]) |- _ => rename H into Hid end.
  assert (Hid' : rr_egress_authorization_id r = None \/ rr_egress_authorization_id r = Some (ea_authorization_id a)).
  { destruct (decide (rr_egress_authorization_id r ∈ [None; Some (ea_authorization_id a)])) as [Hin|]; [|done].
    set_solver. }
  assert ((match rr_egress_authorization_id r with
           | Some id => negb (bool_decide (id = ea_authorization_id a)) | None => false end) = false) as ->.
  { destruct Hid' as [->| ->]; [done|]. by rewrite bool_decide_true. }
  cbn. destruct (decide (rr_privacy_class r ∈ REMOTE_PRIVACY_CLASSES)) as [Hpc|Hpc]; cycle 1.
  { right. rewrite (bool_decide_true (_ ∉ _)) by done. split; [|by eexists]. intros p [_ Hg].
    by destruct (Hg eq_refl) as (?&_&_&?&_). }
  rewrite (bool_decide_false (_ ∉ _)) by auto. cbn.
  destruct (decide (rr_data_classes r = ∅)) as [Hdc|Hdc].
  { right. rewrite (bool_decide_true (_ = ∅)) by done. split; [|by eexists]. intros p [_ Hg].
    by destruct (Hg eq_refl) as (?&_&_&_&?&_). }
  rewrite (bool_decide_false (_ = ∅)) by done. cbn.
  destruct (decide (rr_data_classes r ⊆ ea_data_classes a)) as [Hsub|Hsub]; cycle 1.
  { right. rewrite bool_decide_false by done. split; [|by eexists].
    intros p [_ Hg]. destruct (Hg eq_refl) as (a'&_&Ha'&_&_&?). congruence. }
  rewrite bool_decide_true by done. cbn.
  destruct (scan_remote_exact a r ps Hps (Hauth a eq_refl) Ha) as [(p&Hp&Hs)|[Hf Hn]].
  + left. exists p. split; [done|]. split; [|done]. intros _. by exists a.
  + right. split; [|done]. intros p [Hp _]. by apply (first_of_none _ _ p Hf).
Qed.

(** [route_exact]: Routing is total and exact: it answers with the first
    eligible provider, and in the remote mode only when the request carries a
    grant for its privacy class and data classes; in every other case it
    raises [NoRouteError].  So nothing is routed to a remote provider in a
    local mode, nor to any provider but the one the authorization names. *)
Theorem route_exact mode r ps :
  valid_request r -> valid_providers ps ->
  (forall d, route mode r ps = Ok d <->
     exists p, first_of (eligible mode r) ps p /\ (mode = REMOTE_EXPLICIT -> granted r) /\ d = decision_of mode r p) /\
  ((exists d, route mode r ps = Ok d) \/ no_route (route mode r ps)).
Proof.
  intros Hreq Hps.
  cut ((exists p, first_of (eligible mode r) ps p /\ (mode = REMOTE_EXPLICIT -> granted r) /\
          route mode r ps = Ok (decision_of mode r p)) \/
       ((forall p, ~ (first_of (eligible mode r) ps p /\ (mode = REMOTE_EXPLICIT -> granted r))) /\
          no_route (route mode r ps))).
  { intros [(p&Hp&Hg&Hr)|[Hno [reason Hr]]]; rewrite Hr; split; try (by eauto).
    - intros d. split; [intros [= <-]; by eauto|]. intros (q&Hq&_&->). by rewrite (first_of_unique _ _ _ _ Hp Hq).
    - intros d. split; [done|]. intros (p&?&?&_). destruct (Hno p). done.
    - right. by eexists. }
  unfold route. destruct (decide (mode = REMOTE_EXPLICIT)) as [->|Hm].
  - rewrite bool_decide_true by done. by apply route_remote_exact.
  - rewrite bool_decide_false by done. destruct (route_local_exact mode r ps Hps Hm) as [(p&Hp&Hs)|[Hf Hn]].
    + left. exists p. by split.
    + right. split; [|done]. intros p [Hp _]. by apply (first_of_none _ _ p Hf).
Qed.

(** ** The gate *)

(** What the digest is computed over: tagged, length-prefixed parts. *)
Definition enc (s : pystr) : pybytes := match utf8_encode s with Ok b => b | Raise _ => [] end.
Definition len8 (n : Z) : pybytes := (fun i => n / 2 ^ (8 * (7 - Z.of_nat i)) mod 256) <$> seq 0 8.
Definition frame (part : pybytes * pybytes) : pybytes := part.1 ++ len8 (zlen part.2) ++ part.2.
Definition frames (parts : list (pybytes * pybytes)) : pybytes := mjoin (frame <$> parts).
Definition metadata_parts (ms : list (pystr * pystr)) : list (pybytes * pybytes) :=
  mjoin ((fun m => [(u "metadata-name", enc m.1); (u "metadata-value", enc m.2)]) <$> ms).
Definition parts (p : EgressPayload) : list (pybytes * pybytes) :=
  (if bool_decide (ep_text p = []) then [] else [(u "text", enc (ep_text p))]) ++
  metadata_parts (merge_sort pair_le (ep_metadata p)) ++
  (if bool_decide (ep_image p = []) then [] else [(u "image", ep_image p)]).

Definition payload_size (p : EgressPayload) : Z := sum_by (fun part => zlen part.2) (parts p).
Definition encodable (s : pystr) : bool := is_ok (utf8_encode s).
(** Every string has an encoding and no part reaches 2^64 bytes. *)
Definition measurable (p : EgressPayload) : Prop :=
  encodable (ep_text p) = true /\
  Forall (fun m => encodable m.1 = true /\ encodable m.2 = true) (ep_metadata p) /\
  Forall (fun part => zlen part.2 < 2 ^ 64) (parts p).

Lemma utf8_enc s : encodable s = true -> utf8_encode s = Ok (enc s).
Proof. unfold encodable, enc. by destruct (utf8_encode s). Qed.

Lemma enc_inj s s' : encodable s = true -> encodable s' = true -> enc s = enc s' -> s = s'.
Proof. intros H%utf8_enc H'%utf8_enc He. rewrite He in H. by eapply utf8_encode_inj. Qed.

Lemma enc_nil s : encodable s = true -> enc s = [] -> s = [].
Proof. intros Hs He. by apply (enc_inj s []). Qed.

Lemma add_ok kind content acc acc' :
  add kind content acc = Ok acc' <->
  zlen content < 2 ^ 64 /\ acc' = (acc.1 + zlen content, acc.2 ++ frame (kind, content)).
Proof.
  unfold add, to_bytes8. pose proof (zlen_nonneg content).
  destruct (Z.ltb_spec (zlen content) (2 ^ 64)); rewrite (proj2 (Z.leb_le 0 _)) by done; cbn.
  - split; [by intros [= <-]|by intros [_ ->]].
  - split; [done|lia].
Qed.

(** Adding a list of parts, all at once. *)
Definition added (ps : list (pybytes * pybytes)) (acc : Z * pybytes) : Z * pybytes :=
  (acc.1 + sum_by (fun part => zlen part.2) ps, acc.2 ++ frames ps).

Lemma added_nil acc : added [] acc = acc.
Proof. destruct acc. unfold added, frames. cbn. rewrite app_nil_r. f_equal. change (sum_by _ []) with 0. lia. Qed.

Lemma added_app ps qs acc : added (ps ++ qs) acc = added qs (added ps acc).
Proof.
  unfold added, frames. cbn. rewrite sum_by_app, fmap_app, join_app, (assoc_L (++)). f_equal. lia.
Qed.

Lemma added_one part acc : added [part] acc = (acc.1 + zlen part.2, acc.2 ++ frame part).
Proof.
  unfold added, frames. rewrite sum_by_cons. change (sum_by _ []) with 0. cbn. rewrite app_nil_r. f_equal. lia.
Qed.

Lemma add_metadata_ok ms acc acc' :
  add_metadata ms acc = Ok acc' <->
  Forall (fun m => encodable m.1 = true /\ encodable m.2 = true) ms /\
  Forall (fun part => zlen part.2 < 2 ^ 64) (metadata_parts ms) /\
  acc' = added (metadata_parts ms) acc.
Proof.
  revert acc. induction ms as [|[n v] ms IH]; intros acc; cbn [add_metadata].
  { unfold metadata_parts. cbn -[added]. rewrite added_nil. split; [intros [= <-]; by split_and!|by intros (_&_&->)]. }
  rewrite !Forall_cons. cbn [fst snd].
  change (metadata_parts ((n, v) :: ms))
    with ([(u "metadata-name", enc n)] ++ [(u "metadata-value", enc v)] ++ metadata_parts ms).
  rewrite !added_app, !added_one, !Forall_app, !Forall_singleton. cbn [fst snd]. split.
  - intros H. apply result_bind_ok in H as (bn&Hn&H). apply result_bind_ok in H as (a1&[H1 ->]%add_ok&H).
    apply result_bind_ok in H as (bv&Hv&H). apply result_bind_ok in H as (a2&[H2 ->]%add_ok&H).
    apply IH in H as (H3&H4&->). unfold encodable, enc. rewrite Hn, Hv. by split_and!.
  - intros ([[Hn%utf8_enc Hv%utf8_enc] H3]&(H1&H2&H4)&->). rewrite Hn. cbn.
    rewrite (proj2 (add_ok _ _ acc _) (conj H1 eq_refl)). cbn. rewrite Hv. cbn.
    rewrite (proj2 (add_ok _ _ _ _) (conj H2 eq_refl)). cbn. by apply IH.
Qed.

(** An optional leading or trailing part. *)
Lemma add_text_ok p acc :
  let ps := if bool_decide (ep_text p = []) then [] else [(u "text", enc (ep_text p))] in
  (if bool_decide (ep_text p = []) then mret (0, [])
   else t ← utf8_encode (ep_text p); add (u "text") t (0, [])) = Ok acc <->
  encodable (ep_text p) = true /\ Forall (fun part => zlen part.2 < 2 ^ 64) ps /\ acc = added ps (0, []).
Proof.
  case_bool_decide as Ht; cbn zeta.
  - rewrite added_nil, Ht. split; [by intros [= <-]|by intros (_&_&->)].
  - rewrite result_bind_ok, added_one, Forall_singleton. split.
    + intros (b&Hb&[H1 ->]%add_ok). unfold encodable, enc. by rewrite Hb.
    + intros (Hb%utf8_enc&H1&->). eexists. split; [exact Hb|]. by apply add_ok.
Qed.

Lemma add_image_ok p acc acc' :
  let ps := if bool_decide (ep_image p = []) then [] else [(u "image", ep_image p)] in
  (if bool_decide (ep_image p = []) then mret acc else add (u "image") (ep_image p) acc) = Ok acc' <->
  Forall (fun part => zlen part.2 < 2 ^ 64) ps /\ acc' = added ps acc.
Proof.
  case_bool_decide; cbn zeta.
  - rewrite added_nil. split; [by intros [= <-]|by intros (_&->)].
  - by rewrite add_ok, added_one, Forall_singleton.
Qed.

Lemma measured_ok p acc :
  measured p = Ok acc <-> measurable p /\ acc = (payload_size p, frames (parts p)).
Proof.
  assert (Hfin : (payload_size p, frames (parts p)) = added (parts p) (0, [])) by done.
  assert (Hperm := merge_sort_Permutation pair_le (ep_metadata p)).
  unfold measured, measurable. rewrite Hfin. unfold parts. rewrite !Forall_app, !added_app. split.
  - intros H. apply result_bind_ok in H as (a1&(H1&H2&->)%add_text_ok&H).
    apply result_bind_ok in H as (a2&(H3&H4&->)%add_metadata_ok&[H5 ->]%add_image_ok).
    rewrite Hperm in H3. by split_and!.
  - intros ((H1&H3&H2&H4&H5)&->). rewrite <- Hperm in H3.
    rewrite (proj2 (add_text_ok p _) (conj H1 (conj H2 eq_refl))). cbn [mbind result_bind].
    rewrite (proj2 (add_metadata_ok _ _ _) (conj H3 (conj H4 eq_refl))). cbn [mbind result_bind].
    by apply add_image_ok.
Qed.

Section Gate.
Context `{SecretDetector}.
Variable sha256_hex : pybytes -> pystr.

(** No secret in the text or a metadata value, no sensitive metadata name. *)
Definition clean_text (s : pystr) : bool := bool_decide (s = []) || negb (scan_matches s).
Definition clean (p : EgressPayload) : bool :=
  clean_text (ep_text p) &&
  forallb (fun m => negb (sensitive_metadata_name m.1) && clean_text m.2) (ep_metadata p).

Lemma scan_text_ok s x : scan_text s = Ok x <-> clean_text s = true.
Proof.
  unfold scan_text, clean_text. rewrite throw_if_ok. by destruct (bool_decide _), (scan_matches s).
Qed.

Lemma scan_metadata_ok ms x :
  scan_metadata ms = Ok x <-> forallb (fun m => negb (sensitive_metadata_name m.1) && clean_text m.2) ms = true.
Proof.
  destruct x. induction ms as [|[n v] ms IH]; cbn [scan_metadata forallb fst snd]; [done|].
  rewrite !andb_true_iff, <- IH, negb_true_iff. rewrite result_bind_ok. split.
  - intros (?&?%throw_if_ok&H1). apply result_bind_ok in H1 as (?&?%scan_text_ok&?). done.
  - intros ((Hn&Hv%(scan_text_ok v tt))&Hm). exists tt. rewrite throw_if_ok. split; [done|]. by rewrite Hv.
Qed.

Definition approved (p : EgressPayload) (a : EgressAuthorization) : ApprovedEgressPayload :=
  {| ap_authorization_id := ea_authorization_id a; ap_provider_id := ea_provider_id a;
     ap_data_classes := data_classes p; ap_payload_bytes := payload_size p;
     ap_payload_sha256 := sha256_hex (frames (parts p));
     ap_text := ep_text p; ap_metadata := ep_metadata p; ap_image := ep_image p |}.

Lemma approve_ok p a r :
  approve sha256_hex p a = Ok r <->
  data_classes p ⊆ ea_data_classes a /\ clean p = true /\ measurable p /\
  payload_size p <= ea_max_payload_bytes a /\ r = approved p a.
Proof.
  unfold approve, measure, clean. rewrite andb_true_iff. split.
  - intros H1. apply result_bind_ok in H1 as (?&H2%throw_if_ok&H1).
    apply result_bind_ok in H1 as (?&H3%scan_text_ok&H1). apply result_bind_ok in H1 as (?&H4%scan_metadata_ok&H1).
    apply result_bind_ok in H1 as (?&H5&H1). apply result_bind_ok in H1 as (?&H6%throw_if_ok&[= <-]).
    apply result_bind_ok in H5 as (?&[H5 ->]%measured_ok&[= <-]). cbn in H6. btauto_hyps. by split_and!.
  - intros (H2&(H3%(scan_text_ok _ tt)&H4%(scan_metadata_ok _ tt))&H5&H6&->).
    rewrite bool_decide_true by done. cbn. rewrite H3. cbn. rewrite H4. cbn.
    rewrite (proj2 (measured_ok p _) (conj H5 eq_refl)). cbn. by rewrite (proj2 (Z.ltb_ge _ _) H6).
Qed.

(** [approve_exact]: The egress gate is exact: a payload is approved if and
    only if its data classes are all granted, no secret is detected in its
    text or its metadata, it can be encoded, and it fits the granted size;
    and the approval names the authorization and carries the payload
    unchanged with its size and digest. *)
Theorem approve_exact p a r :
  approve sha256_hex p a = Ok r <->
  data_classes p ⊆ ea_data_classes a /\ clean p = true /\ measurable p /\
  payload_size p <= ea_max_payload_bytes a /\ r = approved p a.
Proof. apply approve_ok. Qed.
End Gate.

(** ** The digest *)

Definition is_kind (k : pybytes) : bool :=
  bool_decide (k ∈ [u "text"; u "metadata-name"; u "metadata-value"; u "image"]).

Lemma kind_prefix k k' r r' : is_kind k = true -> is_kind k' = true -> k ++ r = k' ++ r' -> k = k' /\ r = r'.
Proof.
  unfold is_kind. rewrite !bool_decide_eq_true. intros Hk Hk'.
  repeat (apply elem_of_cons in Hk as [->|Hk]); [..|by apply elem_of_nil in Hk];
    repeat (apply elem_of_cons in Hk' as [->|Hk']); try (by apply elem_of_nil in Hk');
    vm_compute; intros [=]; by subst.
Qed.

Lemma bytes_inj (k : nat) m n :
  0 <= m < 2 ^ (8 * Z.of_nat k) -> 0 <= n < 2 ^ (8 * Z.of_nat k) ->
  (forall i, 0 <= i < Z.of_nat k -> m / 2 ^ (8 * i) mod 256 = n / 2 ^ (8 * i) mod 256) -> m = n.
Proof.
  revert m n. induction k as [|k IH]; intros m n Hm Hn Heq; [change (8 * Z.of_nat 0) with 0 in *; lia|].
  assert (Hp : 2 ^ (8 * Z.of_nat (S k)) = 256 * 2 ^ (8 * Z.of_nat k)).
  { replace (8 * Z.of_nat (S k)) with (8 + 8 * Z.of_nat k) by lia. by rewrite Z.pow_add_r by lia. }
  rewrite Hp in *. assert (Hdiv : m / 256 = n / 256).
  { apply IH.
    - split; [apply Z.div_pos; lia|apply Z.div_lt_upper_bound; lia].
    - split; [apply Z.div_pos; lia|apply Z.div_lt_upper_bound; lia].
    - intros i Hi. assert (H256 : forall x, x / 256 / 2 ^ (8 * i) = x / 2 ^ (8 * (i + 1))).
      { intros x. rewrite Z.div_div by lia. f_equal. replace (8 * (i + 1)) with (8 + 8 * i) by lia.
        by rewrite Z.pow_add_r by lia. }
      rewrite !H256. apply Heq. lia. }
  pose proof (Heq 0 ltac:(lia)) as H0. change (2 ^ (8 * 0)) with 1 in H0. rewrite !Z.div_1_r in H0.
  rewrite (Z.div_mod m 256), (Z.div_mod n 256) by lia. congruence.
Qed.

Lemma len8_inj m n : 0 <= m < 2 ^ 64 -> 0 <= n < 2 ^ 64 -> len8 m = len8 n -> m = n.
Proof.
  intros Hm Hn Heq. apply (bytes_inj 8); [done..|]. intros i Hi.
  assert (Hl : len8 m !! Z.to_nat (7 - i) = len8 n !! Z.to_nat (7 - i)) by by rewrite Heq. unfold len8 in Hl.
  rewrite !list_lookup_fmap, lookup_seq_lt in Hl by lia. injection Hl.
  by replace (7 - Z.of_nat (Z.to_nat (7 - i))) with i by lia.
Qed.

Lemma frames_inj ps qs :
  Forall (fun part => is_kind part.1 = true /\ zlen part.2 < 2 ^ 64) ps ->
  Forall (fun part => is_kind part.1 = true /\ zlen part.2 < 2 ^ 64) qs ->
  frames ps = frames qs -> ps = qs.
Proof.
  assert (Hnil : forall k c rest, is_kind k = true -> [] = frame (k, c) ++ rest -> False).
  { intros k c rest Hk He. destruct k; [|done]. vm_compute in Hk. done. }
  intros Hps. revert qs. induction Hps as [|[k c] ps [Hk Hc] _ IH]; intros qs Hqs He;
    destruct Hqs as [|[k' c'] qs [Hk' Hc'] Hqs]; unfold frames in He; cbn [fmap list_fmap mjoin list_join] in He.
  - done.
  - by apply Hnil in He.
  - symmetry in He. by apply Hnil in He.
  - unfold frame in He. cbn [fst snd] in *. rewrite <- !(assoc_L (++)) in He.
    apply kind_prefix in He as [-> He]; [|done..].
    apply app_inj_1 in He as [Hl He]; [|done].
    pose proof (zlen_nonneg c). pose proof (zlen_nonneg c'). apply len8_inj in Hl; [|lia..].
    apply app_inj_1 in He as [-> He]; [|unfold zlen in Hl; lia]. f_equal. by apply IH.
Qed.

(** The contents of the parts of a kind. *)
Definition contents (k : pybytes) (ps : list (pybytes * pybytes)) : list pybytes :=
  snd <$> List.filter (fun part => bool_decide (part.1 = k)) ps.

Lemma contents_app k ps qs : contents k (ps ++ qs) = contents k ps ++ contents k qs.
Proof. unfold contents. by rewrite List.filter_app, fmap_app. Qed.

Lemma contents_metadata k ms :
  contents k (metadata_parts ms) =
  if bool_decide (k = u "metadata-name") then enc <$> ms.*1
  else if bool_decide (k = u "metadata-value") then enc <$> ms.*2 else [].
Proof.
  induction ms as [|[n v] ms IH]; [by repeat case_bool_decide|].
  change (metadata_parts ((n, v) :: ms))
    with ([(u "metadata-name", enc n); (u "metadata-value", enc v)] ++ metadata_parts ms).
  rewrite contents_app, IH. unfold contents. cbn [List.filter fst snd].
  repeat case_bool_decide; subst; try done; congruence.
Qed.

Lemma parts_valid p :
  measurable p -> Forall (fun part => is_kind part.1 = true /\ zlen part.2 < 2 ^ 64) (parts p).
Proof.
  intros (_&_&Hlen). apply Forall_and. split; [|done]. unfold parts, metadata_parts.
  rewrite !Forall_app. split_and!.
  - case_bool_decide; constructor; [vm_compute; reflexivity|constructor].
  - apply Forall_forall. intros part (l&Hin&(m&->&_)%list_elem_of_fmap)%list_elem_of_join.
    apply elem_of_cons in Hin as [->|[->|?%elem_of_nil]%elem_of_cons]; [vm_compute; reflexivity..|done].
  - case_bool_decide; constructor; [vm_compute; reflexivity|constructor].
Qed.

Lemma map_enc_inj l l' :
  Forall (fun s => encodable s = true) l -> Forall (fun s => encodable s = true) l' -> enc <$> l = enc <$> l' -> l = l'.
Proof.
  intros Hl. revert l'. induction Hl as [|s l Hs _ IH]; intros l' Hl' He; destruct Hl' as [|s' l' Hs' Hl']; [done..|].
  cbn in He. injection He as He1 He2. f_equal; [by apply enc_inj|by apply IH].
Qed.

Lemma contents_optional k k0 c (absent : bool) :
  contents k (if absent then [] else [(k0, c)]) = if bool_decide (k = k0) && negb absent then [c] else [].
Proof.
  destruct absent; [by rewrite andb_false_r|]. unfold contents. cbn. rewrite andb_true_r.
  rewrite (bool_decide_ext (k0 = k) (k = k0)) by done. by destruct (bool_decide _).
Qed.

(** The encoded text, the encoded metadata and the image, from the parts. *)
Lemma contents_parts p :
  measurable p ->
  mjoin (contents (u "text") (parts p)) = enc (ep_text p) /\
  contents (u "metadata-name") (parts p) = enc <$> (merge_sort pair_le (ep_metadata p)).*1 /\
  contents (u "metadata-value") (parts p) = enc <$> (merge_sort pair_le (ep_metadata p)).*2 /\
  mjoin (contents (u "image") (parts p)) = ep_image p.
Proof.
  intros (Ht&_). unfold parts. rewrite !contents_app, !contents_metadata.
  rewrite !contents_optional.
  repeat match goal with |- context [bool_decide (u ?a = u ?b)] =>
    first [rewrite (bool_decide_true (u a = u b)) by done | rewrite (bool_decide_false (u a = u b)) by discriminate] end.
  cbn [andb app]. rewrite ?app_nil_r. split_and!; try done.
  - case_bool_decide as He; cbn; [by rewrite He|by rewrite app_nil_r].
  - case_bool_decide as He; cbn; [by rewrite He|by rewrite app_nil_r].
Qed.

(** [digest_commits]: The digest recorded in an approval commits to the
    payload: two payloads whose digests are computed over the same bytes have
    the same text, the same image and the same metadata up to the order the
    caller listed it in. *)
Theorem digest_commits p q n m b :
  measured p = Ok (n, b) -> measured q = Ok (m, b) ->
  n = m /\ ep_text p = ep_text q /\ ep_metadata p ≡ₚ ep_metadata q /\ ep_image p = ep_image q.
Proof.
  intros [Hp [= -> Hb]]%measured_ok [Hq [= -> Hb']]%measured_ok.
  assert (Hparts : parts p = parts q) by (apply frames_inj; [by apply parts_valid..|congruence]).
  destruct (contents_parts p Hp) as (Ht&Hn&Hv&Hi). destruct (contents_parts q Hq) as (Ht'&Hn'&Hv'&Hi').
  rewrite Hparts in *. destruct Hp as (Htp&Hmp&_), Hq as (Htq&Hmq&_).
  split; [by unfold payload_size; rewrite Hparts|]. split; [by apply enc_inj; congruence|]. split; [|congruence].
  rewrite <- (merge_sort_Permutation pair_le (ep_metadata p)), <- (merge_sort_Permutation pair_le (ep_metadata q)).
  rewrite <- (merge_sort_Permutation pair_le (ep_metadata p)) in Hmp.
  rewrite <- (merge_sort_Permutation pair_le (ep_metadata q)) in Hmq.
  apply reflexive_eq. rewrite <- (zip_fst_snd (merge_sort pair_le (ep_metadata p))), <- (zip_fst_snd (merge_sort pair_le (ep_metadata q))).
  f_equal; apply map_enc_inj; try congruence; rewrite Forall_fmap; (eapply Forall_impl; [eassumption|by intros ? []]).
Qed.

(** ** Witnesses *)

#[local] Instance demo_detector : SecretDetector :=
  {| scan_matches := is_in (u "AKIA"); sensitive_metadata_name := fun n => bool_decide (n = u "password") |}.

Definition demo_grant : EgressAuthorization :=
  {| ea_authorization_id := u "a1"; ea_provider_id := u "cloud";
     ea_data_classes := {[REDACTED_TEXT]}; ea_max_payload_bytes := 1000 |}.
Definition demo_request : RoutingRequest :=
  {| rr_capability := GENERATION; rr_privacy_class := REDACTED_CONTENT; rr_allow_remote := true;
     rr_egress_authorization_id := None; rr_data_classes := {[REDACTED_TEXT]};
     rr_authorization := Some demo_grant |}.
Definition demo_provider (id : string) (location : ProviderLocation) : ProviderCapabilities :=
  {| pv_provider_id := u id; pv_location := location; pv_capabilities := {[GENERATION]};
     pv_accepted_privacy_classes := {[REDACTED_CONTENT]}; pv_max_input_bytes := 4096;
     pv_supports_vision := false; pv_max_context_tokens := None; pv_supports_structured_output := true;
     pv_available := true |}.
Definition demo_providers : list ProviderCapabilities :=
  [demo_provider "ollama" LOCAL; demo_provider "other" REMOTE; demo_provider "cloud" REMOTE].

Example demo_routes :
  (rd_provider_id <$> match route REMOTE_EXPLICIT demo_request demo_providers with Ok d => Some d | Raise _ => None end,
   rd_provider_id <$> match route LOCAL_FIRST demo_request demo_providers with Ok d => Some d | Raise _ => None end)
  = (Some (u "cloud"), Some (u "ollama")).
Proof. vm_compute. reflexivity. Qed.

Lemma route_exact_witness :
  valid_request demo_request /\ valid_providers demo_providers /\
  (exists d, route REMOTE_EXPLICIT demo_request demo_providers = Ok d) /\ granted demo_request.
Proof.
  assert (Hr : valid_request demo_request) by (split; [reflexivity|intros a [= <-]; reflexivity]).
  assert (Hp : valid_providers demo_providers) by (repeat constructor).
  destruct (route_exact REMOTE_EXPLICIT demo_request demo_providers Hr Hp) as [Hex _].
  split; [exact Hr|]. split; [exact Hp|].
  destruct (route REMOTE_EXPLICIT demo_request demo_providers) as [d|e] eqn:Hd; [|vm_compute in Hd; discriminate Hd].
  split; [by exists d|]. destruct (proj1 (Hex d) eq_refl) as (p&_&Hg&_). exact (Hg eq_refl).
Defined.

Definition demo_payload (metadata : list (pystr * pystr)) : EgressPayload :=
  {| ep_text := u "what did I read"; ep_metadata := metadata; ep_image := [] |}.

Lemma digest_commits_witness :
  exists n b,
    measured (demo_payload [(u "app", u "emacs"); (u "ws", u "3")]) = Ok (n, b) /\
    measured (demo_payload [(u "ws", u "3"); (u "app", u "emacs")]) = Ok (n, b) /\
    [(u "app", u "emacs"); (u "ws", u "3")] ≡ₚ [(u "ws", u "3"); (u "app", u "emacs")].
Proof.
  eexists _, _. split; [vm_compute; reflexivity|]. split; [vm_compute; reflexivity|].
  eapply (digest_commits (demo_payload [(u "app", u "emacs"); (u "ws", u "3")])
    (demo_payload [(u "ws", u "3"); (u "app", u "emacs")])); vm_compute; reflexivity.
Defined.
