(* ===== verification/Answering.v ===== *)
(** * Answering: answers that cite the record, and nothing else.

    Models [answering/models.py], [answering/evidence.py] and
    [answering/service.py].  The question planner ([answering/planner.py], a
    set of regular expressions), the retrieval service and the model providers
    are the operations of [AnsweringPorts]; routing and the egress gate are
    those of [Egress], the JSON of a generated answer that of [Json]. *)

From stdpp Require Import sorting.
From S2P Require Import Prelude PyStr PyFloat Utf8 Json Policy Retrieval Egress.

(** ** [answering/models.py] *)

Inductive AnswerMode := CONCISE | TIMELINE.
Inductive AnswerClaimKind := OBSERVED | INFERENCE.
#[export] Instance AnswerMode_eq_dec : EqDecision AnswerMode.
Proof. solve_decision. Defined.
#[export] Instance AnswerClaimKind_eq_dec : EqDecision AnswerClaimKind.
Proof. solve_decision. Defined.

Definition mode_value (m : AnswerMode) : pystr :=
  match m with CONCISE => u "concise" | TIMELINE => u "timeline" end.

(** [AnswerClaimKind(value)] *)
Definition claim_kind_of (value : pystr) : result AnswerClaimKind :=
  if bool_decide (value = u "observed") then Ok OBSERVED
  else if bool_decide (value = u "inference") then Ok INFERENCE
  else Raise ValueError.

Record AnswerCitation := { ct_record_id : uuid; ct_captured_at : datetime }.

Record AnswerClaim := {
  cl_kind : AnswerClaimKind;
  cl_text : pystr;
  cl_citations : list AnswerCitation }.
Definition make_claim (c : AnswerClaim) : result AnswerClaim :=
  _ ← require_nonempty (cl_text c);
  _ ← throw_if (bool_decide (cl_citations c = [])) ValueError;
  _ ← throw_if (negb (bool_decide (NoDup (ct_record_id <$> cl_citations c)))) ValueError;
  mret c.

Record CitedAnswer := {
  an_mode : AnswerMode;
  an_claims : list AnswerClaim;
  an_insufficient_evidence : bool;
  an_policy_revision : pystr }.
Definition make_answer (a : CitedAnswer) : result CitedAnswer :=
  _ ← require_nonempty (an_policy_revision a);
  let none := match an_claims a with [] => true | _ => false end in
  _ ← throw_if (an_insufficient_evidence a && negb none) ValueError;
  _ ← throw_if (negb (an_insufficient_evidence a) && none) ValueError;
  mret a.

(** ** [answering/evidence.py] *)

Definition MAX_CLAIMS : Z := 32.
Definition MAX_CLAIM_CHARS : Z := 4096.

Record EvidenceItem := { ei_label : pystr; ei_passage : RetrievedPassage }.
Definition make_item (i : EvidenceItem) : result EvidenceItem :=
  _ ← require_nonempty (ei_label i);
  mret i.

(** [EvidenceTable] *)
Definition make_table (items : list EvidenceItem) : result (list EvidenceItem) :=
  _ ← throw_if (negb (bool_decide (NoDup (ei_label <$> items)))) ValueError;
  _ ← throw_if (negb (bool_decide (NoDup ((fun i => ps_record_id (ei_passage i)) <$> items)))) ValueError;
  mret items.

(** [f"E{index}"] *)
Definition evidence_label (index : Z) : pystr := 69 :: str_of_int index.

Fixpoint label_from (index : Z) (ps : list RetrievedPassage) : result (list EvidenceItem) :=
  match ps with
  | [] => mret []
  | p :: ps' =>
      item ← make_item {| ei_label := evidence_label index; ei_passage := p |};
      items ← label_from (index + 1) ps';
      mret (item :: items)
  end.

Definition build_evidence_table (b : RetrievalBatch) (minimum_score : pyfloat) : result (list EvidenceItem) :=
  _ ← throw_if (negb (in_range (-1) 1 minimum_score)) ValueError;
  items ← label_from 1 (List.filter (fun p => fle minimum_score (ps_score p)) (rb_passages b));
  make_table items.

(** The pairs become a dictionary, unless a key comes twice. *)
Fixpoint reject_duplicate_keys_from (d : list (pystr * json)) (pairs : list (pystr * json)) : result json :=
  match pairs with
  | [] => mret (JDict d)
  | (key, value) :: pairs' =>
      if bool_decide (is_Some (dict_get d key)) then Raise ValueError
      else reject_duplicate_keys_from (dict_set d key value) pairs'
  end.
Definition reject_duplicate_keys : list (pystr * json) -> result json := reject_duplicate_keys_from [].

(** [json.loads(text, object_pairs_hook=_reject_duplicate_keys)] *)
Definition strict_decoder : decoder := {| digits_error := ValueError; hook := reject_duplicate_keys |}.
Definition load_json_object (text : pystr) : result (list (pystr * json)) :=
  match loads strict_decoder text with
  | Raise e => Raise e
  | Ok (JDict d) => Ok d
  | Ok _ => Raise ValueError
  end.

Definition find_label (table : list EvidenceItem) (label : pystr) : option EvidenceItem :=
  snd <$> list_find (fun i => ei_label i = label) table.

Definition normalize_support_text (text : pystr) : pystr := casefold (join 32 (words text)).
Definition observed_supported (text : pystr) (items : list EvidenceItem) : bool :=
  let claim := normalize_support_text text in
  existsb (fun i => is_in claim (normalize_support_text (ps_excerpt (ei_passage i)))) items.

(** All labels, when every element is a string. *)
Definition label_of (j : json) : result pystr :=
  match j with JStr s => Ok s | _ => Raise ValueError end.
Definition item_of (table : list EvidenceItem) (label : pystr) : result EvidenceItem :=
  match find_label table label with Some i => Ok i | None => Raise ValueError end.

Definition citation_of (i : EvidenceItem) : AnswerCitation :=
  {| ct_record_id := ps_record_id (ei_passage i); ct_captured_at := ps_captured_at (ei_passage i) |}.

(** [_parse_claim]; its errors are all [ValueError], so the checks on the
    labels are made one by one. *)
Definition parse_claim (table : list EvidenceItem) (raw : json) : result AnswerClaim :=
  match raw with
  | JDict d =>
      _ ← throw_if (negb (has_keys d [u "kind"; u "text"; u "evidence_ids"])) ValueError;
      match dict_get d (u "kind"), dict_get d (u "text"), dict_get d (u "evidence_ids") with
      | Some (JStr kind_value), Some (JStr text), Some evidence =>
          _ ← throw_if (bool_decide (strip text = []) || (MAX_CLAIM_CHARS <? zlen text)) ValueError;
          kind ← claim_kind_of kind_value;
          match evidence with
          | JList objects =>
              _ ← throw_if (bool_decide (objects = [])) ValueError;
              ids ← map_ok label_of objects;
              _ ← throw_if (negb (bool_decide (NoDup ids))) ValueError;
              selected ← map_ok (item_of table) ids;
              _ ← throw_if (bool_decide (kind = OBSERVED) && negb (observed_supported text selected)) ValueError;
              make_claim {| cl_kind := kind; cl_text := strip text; cl_citations := citation_of <$> selected |}
          | _ => Raise ValueError
          end
      | _, _, _ => Raise ValueError
      end
  | _ => Raise ValueError
  end.

(** The timeline order: the earliest citation, ties by record. *)
Definition citation_lt (a b : AnswerCitation) : bool :=
  (dt_utc (ct_captured_at a) <? dt_utc (ct_captured_at b)) ||
  ((dt_utc (ct_captured_at a) =? dt_utc (ct_captured_at b)) && (ct_record_id a <? ct_record_id b)).
Fixpoint earliest_of (c : AnswerCitation) (cs : list AnswerCitation) : AnswerCitation :=
  match cs with
  | [] => c
  | c' :: cs' => earliest_of (if citation_lt c' c then c' else c) cs'
  end.
(** [_timeline_key] compares the earliest citations; a claim has one. *)
Definition timeline_lt (a b : AnswerClaim) : bool :=
  match cl_citations a, cl_citations b with
  | x :: xs, y :: ys => citation_lt (earliest_of x xs) (earliest_of y ys)
  | _, _ => false
  end.
Definition timeline_le (a b : AnswerClaim) : Prop := timeline_lt b a = false.
#[export] Instance timeline_le_dec : RelDecision timeline_le.
Proof. intros a b. unfold timeline_le. apply _. Defined.

Definition parse_generated_claims (text : pystr) (table : list EvidenceItem) (mode : AnswerMode)
    (policy_revision : pystr) : result CitedAnswer :=
  _ ← require_nonempty text;
  raw ← load_json_object text;
  match dict_get raw (u "claims") with
  | Some (JList raw_claims) =>
      _ ← throw_if (negb (has_keys raw [u "claims"])) ValueError;
      _ ← throw_if (bool_decide (raw_claims = []) || (MAX_CLAIMS <? zlen raw_claims)) ValueError;
      claims ← map_ok (parse_claim table) raw_claims;
      make_answer
        {| an_mode := mode;
           an_claims := if bool_decide (mode = TIMELINE) then merge_sort timeline_le claims else claims;
           an_insufficient_evidence := false; an_policy_revision := policy_revision |}
  | _ => Raise ValueError
  end.

(** ** [answering/service.py] *)

Definition MAX_OUTPUT_TOKENS : Z := 1024.
Definition REMOTE_DATA_CLASSES : gset EgressDataClass := {[REDACTED_TEXT]}.

Record PlannedAnswerQuery := { pq_retrieval_query : RetrievalQuery; pq_resolved_time_expression : pystr }.

(** [GenerationProvider] and [RemoteGenerationProvider]: capabilities, and what
    a generation is asked of them. *)
Record GenerationProvider (W R : Type) := {
  gp_capabilities : M W ProviderCapabilities;
  gp_generate : R -> M W GenerationResponse }.
#[global] Arguments gp_capabilities {W R}.
#[global] Arguments gp_generate {W R}.

Class AnsweringPorts (W : Type) := {
  plan_answer_query : pystr -> datetime -> pystr -> result PlannedAnswerQuery;
  retrieval : RetrievalQuery -> M W RetrievalBatch;
  local_providers : list (GenerationProvider W GenerationRequest);
  remote_providers : list (GenerationProvider W ApprovedEgressPayload) }.

Definition generation_prompt (mode : AnswerMode) : pystr :=
  u "Use only the supplied redacted evidence. Return JSON with exactly one top-level key " ++
  u "named claims. claims must be a non-empty array of objects with exactly kind, text, and " ++
  u "evidence_ids. kind is observed or inference. evidence_ids must contain only supplied " ++
  u "opaque evidence labels. Observed text must be copied exactly from cited evidence; " ++
  u "inference may synthesize but must remain explicitly typed as inference. Do not emit " ++
  u "record IDs, timestamps, citation syntax, or unavailable facts. Answer mode: " ++ mode_value mode ++ u ".".

Definition generation_context (table : list EvidenceItem) : list pystr :=
  (fun i => ei_label i ++ u ": " ++ ps_excerpt (ei_passage i)) <$> table.

Definition remote_prompt (prompt : pystr) (context : list pystr) : pystr :=
  prompt ++ [10; 10] ++ u "Evidence:" ++ [10] ++ join 10 context.

Definition validate_generation_capabilities (c : ProviderCapabilities) (prompt : pystr) (context : list pystr)
    : result unit :=
  _ ← throw_if (negb (pv_supports_structured_output c)) AnsweringFailure;
  p ← utf8_encode prompt;
  items ← map_ok utf8_encode context;
  throw_if (pv_max_input_bytes c <? zlen p + sum_by zlen items) AnsweringFailure.

Section Service.
Context {W : Type} `{AnsweringPorts W} `{SecretDetector}.
Variable sha256_hex : pybytes -> pystr.
(** The attributes of the service: the routing policy's mode, whether there
    is an egress gate, and the score below which evidence is dropped. *)
Variables (mode_of_routing : RoutingMode) (egress_gate : bool) (minimum_score : pyfloat).

Definition make_service : result unit :=
  _ ← throw_if (negb (in_range (-1) 1 minimum_score)) ValueError;
  throw_if (match local_providers, remote_providers with [], [] => true | _, _ => false end) ValueError.

Fixpoint provider_capabilities {R} (ps : list (GenerationProvider W R)) : M W (list ProviderCapabilities) :=
  match ps with
  | [] => mret []
  | p :: ps' => c ← gp_capabilities p; cs ← provider_capabilities ps'; mret (c :: cs)
  end.

(** [zip(providers, capabilities, strict=True)]: the lengths are equal. *)
Fixpoint select_provider {R} (provider_id : pystr) (ps : list (GenerationProvider W R))
    (cs : list ProviderCapabilities) : result (GenerationProvider W R * ProviderCapabilities) :=
  match ps, cs with
  | [], [] => Raise AnsweringFailure
  | p :: ps', c :: cs' =>
      if bool_decide (pv_provider_id c = provider_id) then Ok (p, c) else select_provider provider_id ps' cs'
  | _, _ => Raise ValueError
  end.

Definition generate_local (provider_id prompt : pystr) (context : list pystr) (cs : list ProviderCapabilities)
    : M W GenerationResponse :=
  selected ← lift (select_provider provider_id local_providers cs);
  _ ← lift (validate_generation_capabilities selected.2 prompt context);
  request ← lift (make_generation_request
    {| gn_prompt := prompt; gn_context := context; gn_privacy_class := REDACTED_CONTENT;
       gn_max_output_tokens := MAX_OUTPUT_TOKENS; gn_model_hint := None; gn_role := ANSWERING |});
  gp_generate selected.1 request.

Definition generate_remote (provider_id prompt : pystr) (context : list pystr) (cs : list ProviderCapabilities)
    (b : RetrievalBatch) (authorization : option EgressAuthorization) : M W GenerationResponse :=
  _ ← require (rb_remote_provider_eligible b) AnsweringFailure;
  match authorization with
  | None => raise AnsweringFailure
  | Some a =>
      _ ← require (bool_decide (ea_provider_id a = provider_id)) AnsweringFailure;
      _ ← require egress_gate AnsweringFailure;
      selected ← lift (select_provider provider_id remote_providers cs);
      _ ← lift (validate_generation_capabilities selected.2 prompt context);
      payload ← lift (make_payload {| ep_text := remote_prompt prompt context; ep_metadata := []; ep_image := [] |});
      approved ← lift (approve sha256_hex payload a);
      gp_generate selected.1 approved
  end.

Definition routing_request (authorization : option EgressAuthorization) : RoutingRequest :=
  {| rr_capability := GENERATION; rr_privacy_class := REDACTED_CONTENT;
     rr_allow_remote := bool_decide (is_Some authorization);
     rr_egress_authorization_id := ea_authorization_id <$> authorization;
     rr_data_classes := match authorization with Some _ => REMOTE_DATA_CLASSES | None => ∅ end;
     rr_authorization := authorization |}.

Definition answer (question : pystr) (now : datetime) (timezone : pystr) (mode : AnswerMode)
    (authorization : option EgressAuthorization) : M W CitedAnswer :=
  planned ← lift (plan_answer_query question now timezone);
  b ← retrieval (pq_retrieval_query planned);
  table ← lift (build_evidence_table b minimum_score);
  if bool_decide (table = []) then
    lift (make_answer {| an_mode := mode; an_claims := []; an_insufficient_evidence := true;
                         an_policy_revision := rb_policy_revision b |})
  else
    local_capabilities ← provider_capabilities local_providers;
    remote_capabilities ← provider_capabilities remote_providers;
    request ← lift (make_routing_request (routing_request authorization));
    decision ← lift (route mode_of_routing request (local_capabilities ++ remote_capabilities));
    let prompt := generation_prompt mode in
    let context := generation_context table in
    response ←
      (if bool_decide (rd_location decision = LOCAL)
       then generate_local (rd_provider_id decision) prompt context local_capabilities
       else generate_remote (rd_provider_id decision) prompt context remote_capabilities b authorization);
    _ ← require (bool_decide (gs_provider_id response = rd_provider_id decision)) AnsweringFailure;
    lift (parse_generated_claims (gs_text response) table mode (rb_policy_revision b)).
End Service.
