(* ===== verification/AnsweringFacts.v ===== *)
(** * AnsweringFacts: answers rest on the evidence, and little leaves.

    Every claim of an answer cites retrieved evidence, an observed one quotes
    it; whatever a model generates is either such an answer or a [ValueError];
    a remote model is sent nothing but one approved payload under a grant. *)

From stdpp Require Import sorting.
From S2P Require Import Prelude PyStr PyFloat Utf8 Json JsonFacts Policy Retrieval RetrievalFacts Egress EgressFacts Answering.

(** ** Normalised text *)

Lemma words_from_drop s : words_from [] (drop_while is_space s) = words_from [] s.
Proof. induction s as [|c s IH]; [done|]. cbn. destruct (is_space c) eqn:E; cbn; [done|by rewrite E]. Qed.

Lemma words_from_trailing sp cur s :
  Forall (fun c => is_space c = true) sp -> words_from cur (s ++ sp) = words_from cur s.
Proof.
  intros Hsp. assert (Hempty : words_from [] sp = []).
  { induction Hsp as [|c sp Hc _ IH]; cbn; [done|]. by rewrite Hc. }
  revert cur. induction s as [|c s IH]; intros cur; cbn.
  - destruct Hsp as [|c sp Hc Hsp]; [done|]. cbn in Hempty |- *. rewrite Hc in Hempty |- *. cbn in Hempty.
    by rewrite Hempty.
  - by rewrite !IH.
Qed.

Lemma drop_while_split f s : exists pre, s = pre ++ drop_while f s /\ Forall (fun c => f c = true) pre.
Proof.
  induction s as [|c s (pre&IH&Hp)]; [by exists []|]. cbn. destruct (f c) eqn:E; [|by exists []].
  exists (c :: pre). cbn. split; [by f_equal|by constructor].
Qed.

(** White space is dropped at the end of [t] alike. *)
Lemma drop_end_split t : exists post,
  t = rev (drop_while is_space (rev t)) ++ post /\ Forall (fun c => is_space c = true) post.
Proof.
  destruct (drop_while_split is_space (rev t)) as (post&Ht&Hq). exists (rev post). split.
  - rewrite <- rev_app_distr, <- Ht. symmetry. apply rev_involutive.
  - apply Forall_forall. intros c Hc. rewrite Forall_forall in Hq. apply Hq.
    by rewrite list_elem_of_In, in_rev, <- list_elem_of_In.
Qed.

Lemma normalize_strip s : normalize_support_text (strip s) = normalize_support_text s.
Proof.
  unfold normalize_support_text, words. rewrite <- (words_from_drop s). unfold strip.
  destruct (drop_end_split (drop_while is_space s)) as (post&Hs&Hq). rewrite Hs at 2.
  by rewrite words_from_trailing.
Qed.

Lemma strip_length s : zlen (strip s) <= zlen s.
Proof.
  unfold strip. destruct (drop_while_split is_space s) as (pre&Hs&_).
  destruct (drop_end_split (drop_while is_space s)) as (post&Ht&_).
  rewrite Hs at 2. rewrite Ht at 2. rewrite !zlen_app.
  pose proof (zlen_nonneg pre). pose proof (zlen_nonneg post). lia.
Qed.

(** ** Evidence *)

(** The passages of a batch that count as evidence. *)
Definition strong (minimum_score : pyfloat) (b : RetrievalBatch) : list RetrievedPassage :=
  List.filter (fun p => fle minimum_score (ps_score p)) (rb_passages b).

Lemma label_from_ok n ps items : label_from n ps = Ok items -> ei_passage <$> items = ps.
Proof.
  revert n items. induction ps as [|p ps IH]; intros n items Hl; cbn in Hl; [by injection Hl as <-|].
  ok_steps. unfold make_item in *. ok_steps. cbn. f_equal. by eapply IH.
Qed.

Lemma build_ok b minimum table :
  build_evidence_table b minimum = Ok table ->
  ei_passage <$> table = strong minimum b /\ NoDup ((fun i => ps_record_id (ei_passage i)) <$> table).
Proof.
  unfold build_evidence_table, make_table. intros H1. ok_steps. btauto_hyps. split; [by eapply label_from_ok|done].
Qed.

Lemma find_label_ok table label i : item_of table label = Ok i -> i ∈ table /\ ei_label i = label.
Proof.
  unfold item_of, find_label. destruct (list_find _ table) as [[k j]|] eqn:E; cbn; [|done].
  intros [= <-]. apply list_find_Some in E as (Hi&Hl&_). split; [exact (list_elem_of_lookup_2 _ _ _ Hi)|exact Hl].
Qed.

(** A claim that rests on the evidence [table]. *)
Record supported (table : list EvidenceItem) (c : AnswerClaim) : Prop := {
  su_text : is_blank (cl_text c) = false;
  su_length : zlen (cl_text c) <= MAX_CLAIM_CHARS;
  su_cited : cl_citations c ≠ [];
  su_distinct : NoDup (ct_record_id <$> cl_citations c);
  su_evidence : forall ct, ct ∈ cl_citations c -> exists i, i ∈ table /\ ct = citation_of i;
  su_observed : cl_kind c = OBSERVED -> exists i, i ∈ table /\ citation_of i ∈ cl_citations c /\
    is_in (normalize_support_text (cl_text c)) (normalize_support_text (ps_excerpt (ei_passage i))) = true }.

Lemma selected_in_table table ids selected i :
  map_ok (item_of table) ids = Ok selected -> i ∈ selected -> i ∈ table.
Proof.
  intros Hs%map_ok_Forall2 Hi. apply list_elem_of_lookup in Hi as [k Hk].
  destruct (Forall2_lookup_r _ _ _ _ _ Hs Hk) as (label&_&Hl). exact (proj1 (find_label_ok _ _ _ Hl)).
Qed.

Lemma parse_claim_supported table raw c : parse_claim table raw = Ok c -> supported table c.
Proof.
  unfold parse_claim. destruct raw as [| | | | | |d]; try done. intros Hc. ok_step.
  destruct (dict_get d (u "kind")) as [[]|]; try done. destruct (dict_get d (u "text")) as [[| | | |text| |]|]; try done.
  destruct (dict_get d (u "evidence_ids")) as [evidence|]; [|done]. do 2 ok_step. rename x1 into kind.
  destruct evidence as [| | | | |objects|]; try done. do 3 ok_step. ok_step. rename x3 into selected. ok_step.
  unfold make_claim in Hc. ok_steps. cbn [cl_text cl_citations] in *.
  match goal with E : require_nonempty _ = _ |- _ => unfold require_nonempty in E; apply throw_if_ok in E end.
  btauto_hyps. split; cbn [cl_text cl_citations cl_kind]; try done.
  - pose proof (strip_length text). lia.
  - intros ct (i&->&Hi)%list_elem_of_fmap. exists i. split; [by eapply selected_in_table|done].
  - intros ->. match goal with E : _ && _ = false |- _ => rewrite bool_decide_true in E by done; cbn in E end.
    btauto_hyps. unfold observed_supported in *.
    match goal with E : existsb _ _ = true |- _ => apply existsb_exists in E as (i&Hi%list_elem_of_In&Hin) end.
    exists i. rewrite normalize_strip. split_and!; [by eapply selected_in_table|by apply list_elem_of_fmap_2|done].
Qed.

#[export] Instance timeline_le_total : Total timeline_le.
Proof.
  intros a b. unfold timeline_le, timeline_lt.
  destruct (cl_citations a) as [|x xs], (cl_citations b) as [|y ys]; auto.
  unfold citation_lt. rewrite !orb_false_iff, !andb_false_iff, !Z.ltb_ge, !Z.eqb_neq. lia.
Qed.

(** What an answer to [table] may be. *)
Record grounded (table : list EvidenceItem) (mode : AnswerMode) (revision : pystr) (a : CitedAnswer) : Prop := {
  go_mode : an_mode a = mode;
  go_revision : an_policy_revision a = revision;
  go_some : an_claims a ≠ [];
  go_sufficient : an_insufficient_evidence a = false;
  go_few : zlen (an_claims a) <= MAX_CLAIMS;
  go_claims : Forall (supported table) (an_claims a);
  go_order : mode = TIMELINE -> Sorted timeline_le (an_claims a) }.

Lemma parse_grounded text table mode revision a :
  parse_generated_claims text table mode revision = Ok a -> grounded table mode revision a.
Proof.
  unfold parse_generated_claims. intros Ha. do 2 ok_step. rename x0 into raw.
  destruct (dict_get raw (u "claims")) as [[| | | | |raw_claims|]|]; try done. do 3 ok_step. rename x2 into claims.
  assert (Hc : Forall (supported table) claims /\ length claims = length raw_claims).
  { match goal with E : map_ok _ _ = _ |- _ => apply map_ok_Forall2 in E as Hf end. split; [|symmetry; by eapply Forall2_length].
    apply Forall_lookup. intros k c Hk. destruct (Forall2_lookup_r _ _ _ _ _ Hf Hk) as (j&_&Hj).
    by eapply parse_claim_supported. }
  destruct Hc as [Hc Hl]. unfold make_answer in Ha. ok_steps. cbn in *. btauto_hyps.
  assert (Hz : zlen claims <= MAX_CLAIMS) by (unfold zlen in *; lia).
  split; cbn; try done.
  - intros E. by rewrite E in *.
  - case_bool_decide; [|done]. unfold zlen in *. by rewrite merge_sort_Permutation.
  - case_bool_decide; [|done]. by rewrite merge_sort_Permutation.
  - intros ->. rewrite bool_decide_true by done. apply (Sorted_merge_sort timeline_le).
Qed.

(** ** Malformed generations *)

Lemma reject_errors pairs : value_error_only (reject_duplicate_keys pairs).
Proof.
  unfold reject_duplicate_keys. generalize (@nil (pystr * json)). induction pairs as [|[k v] pairs IH]; intros d; cbn; [done|].
  case_bool_decide; [done|apply IH].
Qed.

Lemma require_nonempty_errors s : value_error_only (require_nonempty s).
Proof. unfold require_nonempty. apply value_error_throw_if. Qed.
#[local] Hint Resolve require_nonempty_errors : value_error.

(** The next statement of a body, when its errors are [ValueError]. *)
Ltac value_errors :=
  repeat first
    [ exact I | reflexivity | solve [eauto with value_error]
    | apply value_error_bind; [|intros ? _]
    | apply value_error_map_ok; intros ?
    | case_goal ].

Lemma parse_claim_errors table raw : value_error_only (parse_claim table raw).
Proof. unfold parse_claim, claim_kind_of, make_claim, label_of, item_of. value_errors. Qed.

(** [malformed_output_is_rejected]: Whatever text a model generates, the
    parser terminates and either gives an answer or raises [ValueError]; no
    other exception, and no endless scan, comes out of it. *)
Theorem malformed_output_is_rejected text table mode revision :
  value_error_only (parse_generated_claims text table mode revision).
Proof.
  unfold parse_generated_claims, load_json_object, make_answer.
  apply value_error_bind; [apply require_nonempty_errors|intros _ _].
  apply value_error_bind; [|intros raw _; pose proof parse_claim_errors; value_errors].
  pose proof (loads_total strict_decoder reject_errors text eq_refl) as Hl.
  destruct (loads _ text) as [[]|]; done.
Qed.

(** ** The service *)

#[local] Opaque generation_prompt.

Lemma wp_havoc {S A} (m : M S A) (Q : result A -> S -> Prop) s : (forall r s', Q r s') -> wp m Q s.
Proof. intros H. split. apply H. Qed.

Section Service.
Context {W : Type} `{AnsweringPorts W} `{SecretDetector}.
Variable sha256_hex : pybytes -> pystr.
Variables (mode_of_routing : RoutingMode) (egress_gate : bool) (minimum_score : pyfloat).
Local Abbreviation ask := (answer sha256_hex mode_of_routing egress_gate minimum_score).

(** What a citation of [c] may point to: a retrieved passage, strong enough. *)
Definition cites (b : RetrievalBatch) (c : AnswerClaim) (p : RetrievedPassage) : Prop :=
  p ∈ rb_passages b /\ fle minimum_score (ps_score p) = true /\
  {| ct_record_id := ps_record_id p; ct_captured_at := ps_captured_at p |} ∈ cl_citations c.

Record claim_ok (b : RetrievalBatch) (c : AnswerClaim) : Prop := {
  ok_text : is_blank (cl_text c) = false /\ zlen (cl_text c) <= MAX_CLAIM_CHARS;
  ok_distinct : cl_citations c ≠ [] /\ NoDup (ct_record_id <$> cl_citations c);
  ok_evidence : forall ct, ct ∈ cl_citations c -> exists p, cites b c p /\
    ct = {| ct_record_id := ps_record_id p; ct_captured_at := ps_captured_at p |};
  ok_observed : cl_kind c = OBSERVED -> exists p, cites b c p /\
    is_in (normalize_support_text (cl_text c)) (normalize_support_text (ps_excerpt p)) = true }.

Lemma supported_ok b table c :
  ei_passage <$> table = strong minimum_score b -> supported table c -> claim_ok b c.
Proof.
  intros Ht [].
  assert (Hi : forall i, i ∈ table -> citation_of i ∈ cl_citations c -> cites b c (ei_passage i)).
  { intros i Hi Hc. assert (ei_passage i ∈ strong minimum_score b) as Hs.
    { rewrite <- Ht. by apply list_elem_of_fmap_2. }
    apply list_elem_of_In, filter_In in Hs as [Hb Hs]. split_and!; [by apply list_elem_of_In|done|done]. }
  split; [done|done| |].
  - intros ct Hct. destruct (su_evidence0 ct Hct) as (i&Hit&->). exists (ei_passage i). split; [by apply Hi|done].
  - intros Hk. destruct (su_observed0 Hk) as (i&Hit&Hc&Hin). exists (ei_passage i). split; [by apply Hi|done].
Qed.

(** What the service may answer to a retrieved batch. *)
Record answer_to (b : RetrievalBatch) (mode : AnswerMode) (a : CitedAnswer) : Prop := {
  at_revision : an_policy_revision a = rb_policy_revision b;
  at_mode : an_mode a = mode;
  at_few : zlen (an_claims a) <= MAX_CLAIMS;
  at_claims : Forall (claim_ok b) (an_claims a);
  at_insufficient : an_insufficient_evidence a = true <-> strong minimum_score b = [];
  at_empty : an_insufficient_evidence a = true <-> an_claims a = [];
  at_order : mode = TIMELINE -> Sorted timeline_le (an_claims a) }.

Lemma grounded_answer b table mode a :
  ei_passage <$> table = strong minimum_score b -> table ≠ [] ->
  grounded table mode (rb_policy_revision b) a -> answer_to b mode a.
Proof.
  intros Ht Hne []. split; try done.
  - eapply Forall_impl; [done|]. intros c. by apply supported_ok.
  - rewrite go_sufficient0. split; [done|]. intros E. rewrite E in Ht. by destruct table.
  - by rewrite go_sufficient0.
Qed.

(** C35 (answer_is_cited): Every answer the service gives is grounded in what it
    retrieved for the planned question, whatever the model generates and
    whichever provider generates it: at most 32 claims, each with a non-blank
    text of at most 4096 characters that cites distinct retrieved passages of
    at least the minimum score, and nothing else; an observed claim quotes one
    of the passages it cites, up to white space and letter case; a timeline is
    in order; the answer says "insufficient evidence" exactly when no passage
    reaches the minimum score, and then claims nothing. *)
Theorem answer_is_cited question now timezone mode authorization w w' a :
  ask question now timezone mode authorization w = (w', Ok a) ->
  exists planned w1 b,
    plan_answer_query question now timezone = Ok planned /\
    retrieval (pq_retrieval_query planned) w = (w1, Ok b) /\ answer_to b mode a.
Proof.
  intros Hrun.
  destruct (plan_answer_query question now timezone) as [planned|] eqn:Hp.
  2: { unfold answer, mbind, M_bind, lift in Hrun. by rewrite Hp in Hrun. }
  destruct (retrieval (pq_retrieval_query planned) w) as [w1 [b|]] eqn:Hb.
  2: { unfold answer, mbind, M_bind, lift in Hrun. rewrite Hp in Hrun. by rewrite Hb in Hrun. }
  exists planned, w1, b. split; [done|]. split; [done|].
  enough (wp (ask question now timezone mode authorization)
            (fun r _ => forall a, r = Ok a -> answer_to b mode a) w) as Hwp
    by exact (wp_run _ _ _ _ _ Hrun Hwp a eq_refl).
  unfold answer. apply wp_bind, wp_lift. rewrite Hp. apply wp_bind. split. rewrite Hb. cbn.
  apply wp_bind, wp_lift. destruct (build_evidence_table b minimum_score) as [table|] eqn:Ht; [|by intros ?].
  apply build_ok in Ht as [Ht _]. case_bool_decide as Hnil.
  - apply wp_lift. intros a' Ha. unfold make_answer in Ha. ok_steps. cbn in Ht.
    split; cbn; try done.
  - repeat (apply wp_bind; apply wp_havoc; intros [?|] ?; [|by intros ?]).
    apply wp_lift. intros a' Ha%parse_grounded. by eapply grounded_answer.
Qed.

(** *** What a remote model gets *)

(** What has been sent to remote models, in a world that remembers it. *)
Variable sent : W -> list ApprovedEgressPayload.
Definition quiet {A} (m : M W A) : Prop := forall w w' r, m w = (w', r) -> sent w' = sent w.

(** Only [generate] of a remote provider sends, and it sends its argument. *)
Record only_remote_sends : Prop := {
  os_retrieval : forall q, quiet (retrieval q);
  os_local : forall p, p ∈ local_providers -> quiet (gp_capabilities p) /\ forall g, quiet (gp_generate p g);
  os_remote : forall p, p ∈ remote_providers -> quiet (gp_capabilities p) /\
    forall ap w w' r, gp_generate p ap w = (w', r) -> sent w' = sent w ++ [ap] }.
Hypothesis Hsends : only_remote_sends.

Lemma wp_quiet {A} (m : M W A) (Q : result A -> W -> Prop) w :
  quiet m -> (forall r w', sent w' = sent w -> Q r w') -> wp m Q w.
Proof. intros Hm HQ. split. destruct (m w) as [w' r] eqn:E. apply HQ. by eapply Hm. Qed.

Lemma capabilities_quiet {R} (ps : list (GenerationProvider W R)) :
  (forall p, p ∈ ps -> quiet (gp_capabilities p)) -> quiet (provider_capabilities ps).
Proof.
  induction ps as [|p ps IH]; intros Hps w w' r Hrun; cbn in Hrun; [by injection Hrun as <- <-|].
  unfold mbind, M_bind in Hrun. destruct (gp_capabilities p w) as [w1 [c|]] eqn:E1.
  2: { injection Hrun as <- <-. by eapply Hps; [constructor|]. }
  assert (E1' : sent w1 = sent w) by (by eapply Hps; [constructor|]).
  destruct (provider_capabilities ps w1) as [w2 [cs|]] eqn:E2; injection Hrun as <- <-; rewrite <- E1';
    (eapply IH; [|exact E2]); intros x Hx; apply Hps; by constructor.
Qed.

Lemma selected_provider {R} id (ps : list (GenerationProvider W R)) cs x :
  select_provider id ps cs = Ok x -> x.1 ∈ ps.
Proof.
  revert cs. induction ps as [|p ps IH]; intros [|c cs] Hx; cbn in Hx; try done.
  case_bool_decide; [injection Hx as <-; constructor|constructor; by eapply IH].
Qed.

Lemma route_local_location m r ps d : route_local m r ps = Ok d -> rd_location d = LOCAL.
Proof.
  induction ps as [|p ps IH]; cbn; [by case_bool_decide|]. destruct (provider_matches p r LOCAL); cbn [negb]; [|done].
  unfold make_routing_decision. intros Hd. by ok_steps.
Qed.

(** A payload the gate approved for [a], made of the labelled evidence. *)
Record evidence_payload (a : EgressAuthorization) (mode : AnswerMode) (table : list EvidenceItem)
    (ap : ApprovedEgressPayload) : Prop := {
  ev_text : ap_text ap = remote_prompt (generation_prompt mode) (generation_context table);
  ev_rest : ap_metadata ap = [] /\ ap_image ap = [];
  ev_grant : ap_authorization_id ap = ea_authorization_id a /\ ap_provider_id ap = ea_provider_id a;
  ev_clean : scan_matches (ap_text ap) = false;
  ev_class : REDACTED_TEXT ∈ ea_data_classes a;
  ev_size : ap_payload_bytes ap <= ea_max_payload_bytes a }.

Lemma remote_prompt_nonempty prompt context : remote_prompt prompt context ≠ [].
Proof. unfold remote_prompt. by destruct prompt. Qed.

Lemma approved_evidence a mode table payload ap :
  make_payload {| ep_text := remote_prompt (generation_prompt mode) (generation_context table);
                  ep_metadata := []; ep_image := [] |} = Ok payload ->
  approve sha256_hex payload a = Ok ap -> evidence_payload a mode table ap.
Proof.
  unfold make_payload. intros Hp (Hd&Hc&_&Hs&->)%approve_ok. ok_steps. btauto_hyps.
  unfold clean, clean_text in Hc. unfold data_classes in Hd. cbn [ep_text ep_metadata ep_image forallb] in *.
  pose proof (remote_prompt_nonempty (generation_prompt mode) (generation_context table)) as Hne.
  rewrite (bool_decide_false (remote_prompt _ _ = []) Hne) in Hc, Hd.
  rewrite andb_true_r in Hc. cbn [orb] in Hc. apply negb_true_iff in Hc.
  split; try done. apply Hd. set_solver.
Qed.

(** C36 (only_granted_evidence_leaves): Answering a question sends nothing to a
    remote model, or exactly one payload, and this even when the call fails
    afterwards. A payload is sent only under an authorization, in the explicit
    remote mode, with an egress gate, for a batch whose passages may all be
    sent; it is the prompt with the labelled evidence of that batch and
    nothing else, approved by the gate for that authorization: no secret
    detected, redacted text granted, within the granted size. *)
Theorem only_granted_evidence_leaves question now timezone mode authorization w w' r :
  ask question now timezone mode authorization w = (w', r) ->
  sent w' = sent w \/
  exists a planned w1 b table ap,
    authorization = Some a /\ mode_of_routing = REMOTE_EXPLICIT /\ egress_gate = true /\
    plan_answer_query question now timezone = Ok planned /\
    retrieval (pq_retrieval_query planned) w = (w1, Ok b) /\ rb_remote_provider_eligible b = true /\
    build_evidence_table b minimum_score = Ok table /\
    evidence_payload a mode table ap /\ sent w' = sent w ++ [ap].
Proof.
  intros Hrun.
  pattern w'. match goal with |- ?P _ => set (Sent := P) end.
  enough (wp (ask question now timezone mode authorization) (fun _ => Sent) w) as Hwp
    by exact (wp_run _ _ _ _ _ Hrun Hwp).
  unfold answer. apply wp_bind, wp_lift. destruct (plan_answer_query _ _ _) as [planned|] eqn:Hp; [|by left].
  apply wp_bind. split. destruct (retrieval (pq_retrieval_query planned) w) as [w1 [b|]] eqn:Hb; cbn.
  2: { left. by eapply os_retrieval. }
  assert (Hw1 : sent w1 = sent w) by (by eapply os_retrieval).
  apply wp_bind, wp_lift. destruct (build_evidence_table b minimum_score) as [table|] eqn:Ht; [|by left].
  case_bool_decide; [apply wp_lift; by left|].
  apply wp_bind, wp_quiet; [apply capabilities_quiet; intros p Hpl; by apply os_local|].
  intros [lc|] w2 Hw2; [|left; congruence].
  apply wp_bind, wp_quiet; [apply capabilities_quiet; intros p Hpl; by apply os_remote|].
  intros [rc|] w3 Hw3; [|left; congruence].
  assert (Hw : sent w3 = sent w) by congruence.
  apply wp_bind, wp_lift. destruct (make_routing_request _) as [request|]; [|by left].
  apply wp_bind, wp_lift. destruct (route _ _ _) as [decision|] eqn:Hroute; [|by left].
  apply wp_bind, (wp_mono _ (fun _ => Sent)).
  2: { intros [response|] w4 H4; [|done]. apply wp_bind, wp_require; [|done].
       intros _. apply wp_lift. done. }
  case_bool_decide as Hlocal.
  - (* local *)
    unfold generate_local. apply wp_bind, wp_lift.
    destruct (select_provider _ _ _) as [x|] eqn:Hx; [|by left]. apply selected_provider in Hx.
    apply wp_bind, wp_lift. destruct (validate_generation_capabilities _ _ _); [|by left].
    apply wp_bind, wp_lift. destruct (make_generation_request _) as [g|]; [|by left].
    apply wp_quiet; [by apply os_local|]. intros _ w4 Hw4. left. congruence.
  - (* remote *)
    assert (mode_of_routing = REMOTE_EXPLICIT) as Hmode.
    { unfold route in Hroute. case_bool_decide; [done|]. by apply route_local_location in Hroute. }
    unfold generate_remote. apply wp_bind, wp_require; [intros He|by left].
    destruct authorization as [a|]; [|apply wp_raise; by left].
    apply wp_bind, wp_require; [intros Hid|by left]. apply wp_bind, wp_require; [intros Hgate|by left].
    apply wp_bind, wp_lift. destruct (select_provider _ _ _) as [x|] eqn:Hx; [|by left]. apply selected_provider in Hx.
    apply wp_bind, wp_lift. destruct (validate_generation_capabilities _ _ _); [|by left].
    apply wp_bind, wp_lift. destruct (make_payload _) as [payload|] eqn:Hpay; [|by left].
    apply wp_bind, wp_lift. destruct (approve _ _ _) as [ap|] eqn:Hap; [|by left].
    split. destruct (gp_generate x.1 ap w3) as [w4 r4] eqn:Hgen. right.
    exists a, planned, w1, b, table, ap. split_and!; try done; [by eapply approved_evidence|].
    rewrite <- Hw. by eapply (os_remote Hsends).
Qed.
End Service.

(** ** A concrete question *)

#[local] Transparent generation_prompt.

(** The world: what the remote model was sent. *)
Definition sent_log : Type := list ApprovedEgressPayload.

Definition demo_detector : SecretDetector :=
  {| scan_matches s := is_in (u "password") s; sensitive_metadata_name s := false |}.

Definition demo_provider (location : ProviderLocation) (id : string) : ProviderCapabilities :=
  {| pv_provider_id := u id; pv_location := location; pv_capabilities := {[GENERATION]};
     pv_accepted_privacy_classes := {[REDACTED_CONTENT]}; pv_max_input_bytes := 4096;
     pv_supports_vision := false; pv_max_context_tokens := None;
     pv_supports_structured_output := true; pv_available := true |}.

Definition demo_text : pystr :=
  requote (u "{'claims': [{'kind': 'observed', 'text': ' release  PLAN ', 'evidence_ids': ['E1']}]}").
Definition demo_response (id : string) : GenerationResponse :=
  {| gs_text := demo_text; gs_provider_id := u id; gs_model_id := u "m"; gs_input_tokens := None;
     gs_output_tokens := None |}.

Definition demo_ports : AnsweringPorts sent_log :=
  {| plan_answer_query question now timezone :=
       Ok {| pq_retrieval_query := demo_query; pq_resolved_time_expression := u "today" |};
     retrieval q := mret demo_batch;
     local_providers := [{| gp_capabilities := mret (demo_provider LOCAL "local");
                            gp_generate _ := mret (demo_response "local") |}];
     remote_providers := [{| gp_capabilities := mret (demo_provider REMOTE "remote");
                             gp_generate ap := _ ← modify (fun l => l ++ [ap]); mret (demo_response "remote") |}] |}.

Definition demo_grant : EgressAuthorization :=
  {| ea_authorization_id := u "grant"; ea_provider_id := u "remote"; ea_data_classes := {[REDACTED_TEXT]};
     ea_max_payload_bytes := 4096 |}.

Definition demo_question : pystr := u "What did I plan today?".
Definition demo_digest (b : pybytes) : pystr := u "digest".
Definition demo_ask (authorization : option EgressAuthorization) : M sent_log CitedAnswer :=
  @answer sent_log demo_ports demo_detector demo_digest REMOTE_EXPLICIT true (dec 2 1)
    demo_question (demo_time 600) (u "UTC") TIMELINE authorization.

Definition demo_answer : CitedAnswer :=
  {| an_mode := TIMELINE;
     an_claims := [{| cl_kind := OBSERVED; cl_text := u "release  PLAN";
       cl_citations := [{| ct_record_id := 1; ct_captured_at := demo_time 100 |}] |}];
     an_insufficient_evidence := false; an_policy_revision := u "p1" |}.

(** Without a grant the explicit remote mode refuses; with one it answers. *)
Example demo_asked :
  ((demo_ask None []).2, (demo_ask (Some demo_grant) []).2, length (demo_ask (Some demo_grant) []).1)
  = (Raise (NoRouteError (u "egress-authorization-required")), Ok demo_answer, 1%nat).
Proof. vm_compute. reflexivity. Qed.

Definition demo_after : sent_log := (demo_ask (Some demo_grant) []).1.
Lemma demo_asking : demo_ask (Some demo_grant) [] = (demo_after, Ok demo_answer).
Proof. vm_compute. reflexivity. Defined.

Lemma answer_is_cited_witness :
  demo_ask (Some demo_grant) [] = (demo_after, Ok demo_answer) /\
  exists b : RetrievalBatch, answer_to (dec 2 1) b TIMELINE demo_answer.
Proof.
  split; [exact demo_asking|].
  destruct (@answer_is_cited sent_log demo_ports demo_detector demo_digest REMOTE_EXPLICIT true (dec 2 1)
    demo_question (demo_time 600) (u "UTC") TIMELINE (Some demo_grant) [] demo_after demo_answer demo_asking)
    as (planned&w1&b&_&_&Hb).
  exists b. exact Hb.
Defined.

Lemma demo_sends : @only_remote_sends sent_log demo_ports (fun l => l).
Proof.
  split.
  - intros q w w' r Hr. injection Hr as Hr _. congruence.
  - intros p Hp. apply list_elem_of_singleton in Hp as ->. split; [|intros g]; intros w w' r Hr; cbn in Hr; injection Hr as <- _; reflexivity.
  - intros p Hp. apply list_elem_of_singleton in Hp as ->. split; [|intros ap]; intros w w' r Hr; cbn in Hr; injection Hr as <- _; reflexivity.
Defined.

Lemma only_granted_evidence_leaves_witness :
  @only_remote_sends sent_log demo_ports (fun l => l) /\
  demo_ask (Some demo_grant) [] = (demo_after, Ok demo_answer) /\
  exists ap, demo_after = [ap] /\ ap_authorization_id ap = u "grant".
Proof.
  split; [exact demo_sends|]. split; [exact demo_asking|].
  destruct (@only_granted_evidence_leaves sent_log demo_ports demo_detector demo_digest REMOTE_EXPLICIT true (dec 2 1)
    (fun l => l) demo_sends demo_question (demo_time 600) (u "UTC") TIMELINE (Some demo_grant) [] demo_after
    (Ok demo_answer) demo_asking)
    as [E|(a&planned&w1&b&table&ap&Ha&_&_&_&_&_&_&Hap&E)].
  - exfalso. revert E. vm_compute. discriminate.
  - exists ap. injection Ha as <-. split; [exact E|]. exact (proj1 (ev_grant _ _ _ _ Hap)).
Defined.
