(* ===== verification/Safety.v ===== *)
(** * Safety: the session-safety controller.

    Models [session/safety.py]: observations of the session lock and of user
    idleness, their normalisation ([resolve_idle_observations]), the
    controller that turns them into instructions to the policy engine and the
    lifecycle actor ([SessionSafetyController]), and the preflight that runs
    before a start ([SessionSafetyPreflight]).  The record [safety] holds the
    controller's attributes and the state of its collaborators, which are the
    class [SafetyPorts]; each definition is one method.  The controller's lock
    makes every public method one step.  Timezone-awareness is built into
    [datetime]; a raising clock or policy is not modelled. *)

From S2P Require Import Prelude PyStr PyFloat Gate Lifecycle.

Inductive LockState := LOCKED | UNLOCKED | LOCK_UNKNOWN.
Inductive IdleState := IDLE_IDLE | IDLE_ACTIVE | IDLE_UNKNOWN.
Inductive SessionSafetyFailureCode :=
  | UNAVAILABLE | TIMEOUT | DISCONNECTED | MALFORMED | STALE | PERMISSION_DENIED
  | WRONG_SESSION | SOURCE_CONFLICT | LIFECYCLE_REJECTED.
Inductive SessionSafetyHealth := HEALTHY | DEGRADED.
Inductive IdleResumeBehavior := IMMEDIATE | ACTIVE_GRACE | MANUAL.
#[export] Instance LockState_eq_dec : EqDecision LockState.
Proof. solve_decision. Defined.
#[export] Instance IdleState_eq_dec : EqDecision IdleState.
Proof. solve_decision. Defined.
#[export] Instance SessionSafetyFailureCode_eq_dec : EqDecision SessionSafetyFailureCode.
Proof. solve_decision. Defined.
#[export] Instance SessionSafetyHealth_eq_dec : EqDecision SessionSafetyHealth.
Proof. solve_decision. Defined.
#[export] Instance IdleResumeBehavior_eq_dec : EqDecision IdleResumeBehavior.
Proof. solve_decision. Defined.

Definition lock_value (s : LockState) : pystr :=
  match s with LOCKED => u "locked" | UNLOCKED => u "unlocked" | LOCK_UNKNOWN => u "unknown" end.
Definition idle_value (s : IdleState) : pystr :=
  match s with IDLE_IDLE => u "idle" | IDLE_ACTIVE => u "active" | IDLE_UNKNOWN => u "unknown" end.

Definition MAX_IDLE_SECONDS : pyfloat := float_of (7 * 24 * 60 * 60).

(** [_IDENTIFIER.fullmatch(s)]: [^[a-z][a-z0-9_.-]{0,127}$] *)
Definition is_lower (c : Z) : bool := (97 <=? c) && (c <=? 122).
Definition is_identifier_char (c : Z) : bool :=
  is_lower c || ((48 <=? c) && (c <=? 57)) || (c =? 95) || (c =? 46) || (c =? 45).
Definition is_identifier (s : pystr) : bool :=
  match s with
  | [] => false
  | c :: s' => is_lower c && forallb is_identifier_char s' && (zlen s' <=? 127)
  end.

(** ** Observations *)

Record LockObservation := {
  lo_state : LockState;
  lo_observed_at : datetime;
  lo_source_id : pystr;
  lo_source_revision : pystr;
  lo_failure_code : option SessionSafetyFailureCode }.

Record IdleObservation := {
  io_state : IdleState;
  io_observed_at : datetime;
  io_source_id : pystr;
  io_source_revision : pystr;
  io_idle_seconds : option pyfloat;
  io_failure_code : option SessionSafetyFailureCode }.

Definition validate_observation (source_id source_revision : pystr) : result unit :=
  _ ← throw_if (negb (is_identifier source_id)) ValueError;
  throw_if (negb (is_identifier source_revision)) ValueError.

Definition make_lock_observation (o : LockObservation) : result LockObservation :=
  _ ← validate_observation (lo_source_id o) (lo_source_revision o);
  _ ← throw_if (bool_decide (is_Some (lo_failure_code o)) && negb (bool_decide (lo_state o = LOCK_UNKNOWN)))
        ValueError;
  mret o.

Definition make_idle_observation (o : IdleObservation) : result IdleObservation :=
  _ ← validate_observation (io_source_id o) (io_source_revision o);
  _ ← throw_if (match io_idle_seconds o with
                | None => false
                | Some x => negb (is_finite x) || negb (fle (float_of 0) x && fle x MAX_IDLE_SECONDS)
                end) ValueError;
  _ ← throw_if (bool_decide (is_Some (io_failure_code o)) && negb (bool_decide (io_state o = IDLE_UNKNOWN)))
        ValueError;
  mret o.

Definition unknown_lock (at_ : datetime) (source_id source_revision : pystr) (code : SessionSafetyFailureCode)
    : result LockObservation :=
  make_lock_observation
    {| lo_state := LOCK_UNKNOWN; lo_observed_at := at_; lo_source_id := source_id;
       lo_source_revision := source_revision; lo_failure_code := Some code |}.
Definition unknown_idle (at_ : datetime) (source_id source_revision : pystr) (code : SessionSafetyFailureCode)
    : result IdleObservation :=
  make_idle_observation
    {| io_state := IDLE_UNKNOWN; io_observed_at := at_; io_source_id := source_id;
       io_source_revision := source_revision; io_idle_seconds := None; io_failure_code := Some code |}.

(** ** Settings and status *)

Record IdleSettings := {
  is_enabled : bool;
  is_pause_capture : bool;
  is_threshold_seconds : pyfloat;
  is_resume_behavior : IdleResumeBehavior;
  is_active_grace_seconds : pyfloat;
  is_max_observation_age_seconds : pyfloat }.

(** The field bounds and [validate_resume_behavior]. *)
Definition make_idle_settings (s : IdleSettings) : result IdleSettings :=
  let zero := float_of 0 in
  _ ← throw_if (negb (flt zero (is_threshold_seconds s) && fle (is_threshold_seconds s) (float_of 86400))) ValueError;
  _ ← throw_if (negb (fle zero (is_active_grace_seconds s) && fle (is_active_grace_seconds s) (float_of 300))) ValueError;
  _ ← throw_if (negb (flt zero (is_max_observation_age_seconds s) &&
                      fle (is_max_observation_age_seconds s) (float_of 300))) ValueError;
  _ ← throw_if (bool_decide (is_resume_behavior s = ACTIVE_GRACE) && fle (is_active_grace_seconds s) zero) ValueError;
  _ ← throw_if (negb (bool_decide (is_resume_behavior s = ACTIVE_GRACE)) &&
                negb (feq (is_active_grace_seconds s) zero)) ValueError;
  mret s.

Record SessionSafetyState := {
  ss_lock : LockObservation;
  ss_idle : IdleObservation;
  ss_idle_pause_enabled : bool }.

(** [SessionSafetyState.capture_blocked] and [effective_reason]. *)
Definition state_blocked (s : SessionSafetyState) : bool :=
  negb (bool_decide (lo_state (ss_lock s) = UNLOCKED)) ||
  (ss_idle_pause_enabled s && bool_decide (io_state (ss_idle s) = IDLE_IDLE)).
Definition effective_reason (s : SessionSafetyState) : option pystr :=
  match lo_state (ss_lock s) with
  | LOCKED => Some (u "locked")
  | LOCK_UNKNOWN => Some (u "lock-unknown")
  | UNLOCKED =>
      if ss_idle_pause_enabled s && bool_decide (io_state (ss_idle s) = IDLE_IDLE) then Some (u "idle") else None
  end.

Record SessionSafetyStatus := {
  st_lock_state : LockState;
  st_idle_state : IdleState;
  st_lock_source_id : pystr;
  st_idle_source_id : pystr;
  st_health : SessionSafetyHealth;
  st_idle_threshold_seconds : pyfloat;
  st_current_generation : option Z;
  st_last_failure_code : option SessionSafetyFailureCode }.

Record SessionSafetyAuditEvent := {
  sa_control : pystr;
  sa_previous_state : pystr;
  sa_current_state : pystr;
  sa_source_id : pystr;
  sa_generation : option Z;
  sa_reason_code : pystr;
  sa_occurred_at : datetime }.

Definition AUDIT_STATES : list pystr := [u "locked"; u "unlocked"; u "unknown"; u "idle"; u "active"].
Definition make_audit_event (e : SessionSafetyAuditEvent) : result SessionSafetyAuditEvent :=
  _ ← throw_if (bool_decide (sa_control e ∉ [u "lock"; u "idle"])) ValueError;
  _ ← throw_if (bool_decide (sa_previous_state e ∉ AUDIT_STATES)) ValueError;
  _ ← throw_if (bool_decide (sa_current_state e ∉ AUDIT_STATES)) ValueError;
  _ ← throw_if (negb (is_identifier (sa_source_id e))) ValueError;
  _ ← throw_if (match sa_generation e with Some g => g <=? 0 | None => false end) ValueError;
  _ ← throw_if (negb (is_identifier (sa_reason_code e))) ValueError;
  mret e.

(** ** [resolve_idle_observations] *)

(** [(a - b).total_seconds()] *)
Definition seconds_between (a b : datetime) : pyfloat := int_div (dt_utc a - dt_utc b) 1000000.
Definition FUTURE_TOLERANCE : pyfloat := fopp (float_of 2).

Definition normalize_idle (settings : IdleSettings) (now : datetime) (o : IdleObservation) : result IdleObservation :=
  let age := seconds_between now (io_observed_at o) in
  if flt age FUTURE_TOLERANCE || flt (is_max_observation_age_seconds settings) age
  then unknown_idle now (io_source_id o) (io_source_revision o) (if flt age FUTURE_TOLERANCE then MALFORMED else STALE)
  else
    match io_idle_seconds o with
    | None => Ok o
    | Some x => make_idle_observation
        {| io_state := if fle (is_threshold_seconds settings) x then IDLE_IDLE else IDLE_ACTIVE;
           io_observed_at := io_observed_at o; io_source_id := io_source_id o;
           io_source_revision := io_source_revision o; io_idle_seconds := Some x; io_failure_code := None |}
    end.

(** [{source_id: index for index, source_id in enumerate(order)}.get(id, len(rank))] *)
Fixpoint index_in (order : list pystr) (i : Z) (id : pystr) : option Z :=
  match order with
  | [] => None
  | s :: order' =>
      match index_in order' (i + 1) id with
      | Some j => Some j
      | None => if bool_decide (s = id) then Some i else None
      end
  end.
Definition rank_of (order : list pystr) (id : pystr) : Z :=
  match index_in order 0 id with Some i => i | None => zlen (remove_dups order) end.

Definition key_ltb (order : list pystr) (a b : IdleObservation) : bool :=
  (rank_of order (io_source_id a) <? rank_of order (io_source_id b)) ||
  ((rank_of order (io_source_id a) =? rank_of order (io_source_id b)) &&
   str_ltb (io_source_id a) (io_source_id b)).

(** [min(candidates, key=...)]: the first of the least *)
Definition select_min {A} (ltb : A -> A -> bool) (candidates : list A) : result A :=
  match candidates with
  | [] => Raise ValueError
  | c :: cs => Ok (foldl (fun best x => if ltb x best then x else best) c cs)
  end.

Definition in_state (s : IdleState) (l : list IdleObservation) : list IdleObservation :=
  filter (fun o => io_state o = s) l.
Definition has_state (s : IdleState) (l : list IdleObservation) : bool :=
  existsb (fun o => bool_decide (io_state o = s)) l.

Definition resolve_idle_observations (observations : list IdleObservation) (settings : IdleSettings)
    (source_order : list pystr) (now : datetime) : result (IdleObservation * bool) :=
  if bool_decide (observations = [])
  then o ← unknown_idle now (u "none") (u "none-v1") UNAVAILABLE; mret (o, false)
  else
    normalized ← map_ok (normalize_idle settings now) observations;
    let has_idle := has_state IDLE_IDLE normalized in
    let has_active := has_state IDLE_ACTIVE normalized in
    let candidates := if has_idle then in_state IDLE_IDLE normalized
                      else if has_active then in_state IDLE_ACTIVE normalized else normalized in
    selected ← select_min (key_ltb source_order) candidates;
    mret (selected, has_idle && has_active).

(** ** The collaborators *)

Class SafetyPorts (W : Type) := {
  sp_now : W -> datetime * W;
  sp_monotonic_ns : W -> Z * W;
  sp_set_session_locked : bool -> W -> W;
  sp_privacy_mode : W -> bool;
  sp_apply : bool -> TransitionReason -> M W LifecycleCommandResult;
  sp_emit : SessionSafetyAuditEvent -> M W unit }.

(** ** [SessionSafetyController] *)

Record safety (W : Type) := mk_safety {
  sf_settings : IdleSettings;
  sf_source_order : list pystr;
  sf_has_audit : bool;
  sf_ttl_ns : Z;
  sf_lock : LockObservation;
  sf_idle : IdleObservation;
  sf_lock_received_ns : Z;
  sf_active_since_ns : option Z;
  sf_manual_idle_latch : bool;
  sf_idle_uncertain_latch : bool;
  sf_blocked : bool;
  sf_block_reason : option TransitionReason;
  sf_last_generation : option Z;
  sf_last_failure : SessionSafetyFailureCode;
  sf_world : W }.
Arguments mk_safety {W}.
Arguments sf_settings {W}. Arguments sf_source_order {W}. Arguments sf_has_audit {W}. Arguments sf_ttl_ns {W}. Arguments sf_lock {W}. Arguments sf_idle {W}. Arguments sf_lock_received_ns {W}. Arguments sf_active_since_ns {W}.
Arguments sf_manual_idle_latch {W}. Arguments sf_idle_uncertain_latch {W}. Arguments sf_blocked {W}. Arguments sf_block_reason {W}. Arguments sf_last_generation {W}. Arguments sf_last_failure {W}. Arguments sf_world {W}.

Section Setters.
Context {W : Type}.
Implicit Type s : safety W.
Definition set_settings (settings : IdleSettings) s : safety W :=
  mk_safety settings (sf_source_order s) (sf_has_audit s) (sf_ttl_ns s) (sf_lock s) (sf_idle s)
    (sf_lock_received_ns s) (sf_active_since_ns s) (sf_manual_idle_latch s) (sf_idle_uncertain_latch s)
    (sf_blocked s) (sf_block_reason s) (sf_last_generation s) (sf_last_failure s) (sf_world s).
Definition set_lock (lock : LockObservation) s : safety W :=
  mk_safety (sf_settings s) (sf_source_order s) (sf_has_audit s) (sf_ttl_ns s) lock (sf_idle s)
    (sf_lock_received_ns s) (sf_active_since_ns s) (sf_manual_idle_latch s) (sf_idle_uncertain_latch s)
    (sf_blocked s) (sf_block_reason s) (sf_last_generation s) (sf_last_failure s) (sf_world s).
Definition set_idle (idle : IdleObservation) s : safety W :=
  mk_safety (sf_settings s) (sf_source_order s) (sf_has_audit s) (sf_ttl_ns s) (sf_lock s) idle
    (sf_lock_received_ns s) (sf_active_since_ns s) (sf_manual_idle_latch s) (sf_idle_uncertain_latch s)
    (sf_blocked s) (sf_block_reason s) (sf_last_generation s) (sf_last_failure s) (sf_world s).
Definition set_received (lock_received_ns : Z) s : safety W :=
  mk_safety (sf_settings s) (sf_source_order s) (sf_has_audit s) (sf_ttl_ns s) (sf_lock s) (sf_idle s)
    lock_received_ns (sf_active_since_ns s) (sf_manual_idle_latch s) (sf_idle_uncertain_latch s)
    (sf_blocked s) (sf_block_reason s) (sf_last_generation s) (sf_last_failure s) (sf_world s).
Definition set_active_since (active_since_ns : option Z) s : safety W :=
  mk_safety (sf_settings s) (sf_source_order s) (sf_has_audit s) (sf_ttl_ns s) (sf_lock s) (sf_idle s)
    (sf_lock_received_ns s) active_since_ns (sf_manual_idle_latch s) (sf_idle_uncertain_latch s)
    (sf_blocked s) (sf_block_reason s) (sf_last_generation s) (sf_last_failure s) (sf_world s).
Definition set_manual_latch (manual_idle_latch : bool) s : safety W :=
  mk_safety (sf_settings s) (sf_source_order s) (sf_has_audit s) (sf_ttl_ns s) (sf_lock s) (sf_idle s)
    (sf_lock_received_ns s) (sf_active_since_ns s) manual_idle_latch (sf_idle_uncertain_latch s)
    (sf_blocked s) (sf_block_reason s) (sf_last_generation s) (sf_last_failure s) (sf_world s).
Definition set_uncertain (idle_uncertain_latch : bool) s : safety W :=
  mk_safety (sf_settings s) (sf_source_order s) (sf_has_audit s) (sf_ttl_ns s) (sf_lock s) (sf_idle s)
    (sf_lock_received_ns s) (sf_active_since_ns s) (sf_manual_idle_latch s) idle_uncertain_latch
    (sf_blocked s) (sf_block_reason s) (sf_last_generation s) (sf_last_failure s) (sf_world s).
Definition set_block (blocked : bool) (block_reason : option TransitionReason) s : safety W :=
  mk_safety (sf_settings s) (sf_source_order s) (sf_has_audit s) (sf_ttl_ns s) (sf_lock s) (sf_idle s)
    (sf_lock_received_ns s) (sf_active_since_ns s) (sf_manual_idle_latch s) (sf_idle_uncertain_latch s)
    blocked block_reason (sf_last_generation s) (sf_last_failure s) (sf_world s).
Definition set_generation (last_generation : option Z) s : safety W :=
  mk_safety (sf_settings s) (sf_source_order s) (sf_has_audit s) (sf_ttl_ns s) (sf_lock s) (sf_idle s)
    (sf_lock_received_ns s) (sf_active_since_ns s) (sf_manual_idle_latch s) (sf_idle_uncertain_latch s)
    (sf_blocked s) (sf_block_reason s) last_generation (sf_last_failure s) (sf_world s).
Definition set_failure (last_failure : SessionSafetyFailureCode) s : safety W :=
  mk_safety (sf_settings s) (sf_source_order s) (sf_has_audit s) (sf_ttl_ns s) (sf_lock s) (sf_idle s)
    (sf_lock_received_ns s) (sf_active_since_ns s) (sf_manual_idle_latch s) (sf_idle_uncertain_latch s)
    (sf_blocked s) (sf_block_reason s) (sf_last_generation s) last_failure (sf_world s).
Definition set_world (world : W) s : safety W :=
  mk_safety (sf_settings s) (sf_source_order s) (sf_has_audit s) (sf_ttl_ns s) (sf_lock s) (sf_idle s)
    (sf_lock_received_ns s) (sf_active_since_ns s) (sf_manual_idle_latch s) (sf_idle_uncertain_latch s)
    (sf_blocked s) (sf_block_reason s) (sf_last_generation s) (sf_last_failure s) world.
End Setters.

Section Controller.
Context {W : Type} `{SafetyPorts W}.

Local Abbreviation MS := (M (safety W)).

Definition query {A} (q : W -> A * W) : MS A := fun s =>
  let (x, w) := q (sf_world s) in (set_world w s, Ok x).
Definition call {A} (m : M W A) : MS A := zoom sf_world set_world m.
Definition clock_now : MS datetime := query sp_now.
Definition monotonic_ns : MS Z := query sp_monotonic_ns.
Definition set_policy_locked (locked : bool) : MS unit :=
  modify (fun s => set_world (sp_set_session_locked locked (sf_world s)) s).

(** A rejected or failed instruction: the policy stays locked, and the
    controller counts itself as blocked. *)
Definition reject_lifecycle : MS unit :=
  _ ← modify (set_failure LIFECYCLE_REJECTED);
  _ ← set_policy_locked true;
  modify (set_block true (Some SESSION_LOCKED)).

Definition apply_lifecycle (blocked : bool) (reason : TransitionReason) : MS unit :=
  answer ← try_except (r ← call (sp_apply blocked reason); mret (Some r)) (fun _ => mret None);
  match answer with
  | None => reject_lifecycle
  | Some r =>
      _ ← modify (set_generation (snap_generation (res_snapshot r)));
      if negb (res_accepted r) then reject_lifecycle
      else modify (set_block blocked (if blocked then Some reason else None))
  end.

Definition emit_audit (control previous_state current_state source_id reason_code : pystr) : MS unit :=
  has_sink ← gets sf_has_audit;
  if negb has_sink then mret tt
  else
    try_except
      (generation ← gets sf_last_generation;
       now ← clock_now;
       event ← lift (make_audit_event
         {| sa_control := control; sa_previous_state := previous_state; sa_current_state := current_state;
            sa_source_id := source_id; sa_generation := generation; sa_reason_code := reason_code;
            sa_occurred_at := now |});
       call (sp_emit event))
      (fun _ =>
         _ ← modify (set_failure LIFECYCLE_REJECTED);
         _ ← set_policy_locked true;
         apply_lifecycle true SESSION_LOCKED).

Definition idle_blocked : MS bool :=
  s ← gets (fun s => s);
  let settings := sf_settings s in
  if negb (is_enabled settings) || negb (is_pause_capture settings) then mret false
  else if bool_decide (io_state (sf_idle s) = IDLE_IDLE) then mret true
  else if sf_idle_uncertain_latch s then mret true
  else if bool_decide (is_resume_behavior settings = MANUAL) && sf_manual_idle_latch s then mret true
  else
    match sf_active_since_ns s with
    | Some since =>
        if bool_decide (is_resume_behavior settings = ACTIVE_GRACE)
        then
          now ← monotonic_ns;
          grace ← lift (int_of (fmul (is_active_grace_seconds settings) (float_of 1000000000)));
          if now - since <? grace then mret true
          else _ ← modify (set_active_since None); mret false
        else mret false
    | None => mret false
    end.

Definition desired_block_reason : MS (option TransitionReason) :=
  lock ← gets sf_lock;
  if negb (bool_decide (lo_state lock = UNLOCKED)) then mret (Some SESSION_LOCKED)
  else
    idle ← idle_blocked;
    mret (if idle : bool then Some IDLE else None).

Definition reconcile : MS unit :=
  desired ← desired_block_reason;
  s ← gets (fun s => s);
  match desired with
  | Some reason =>
      if sf_blocked s && bool_decide (sf_block_reason s = Some reason) then mret tt
      else apply_lifecycle true reason
  | None =>
      if negb (sf_blocked s) then modify (set_block false None)
      else if sp_privacy_mode (sf_world s) then mret tt
      else apply_lifecycle false
             (if bool_decide (sf_block_reason s = Some SESSION_LOCKED) then SESSION_UNLOCKED else ACTIVE)
  end.

Definition normalize_lock (o : LockObservation) : MS LockObservation :=
  now ← clock_now;
  ttl ← gets sf_ttl_ns;
  let age := seconds_between now (lo_observed_at o) in
  if flt age FUTURE_TOLERANCE
  then lift (unknown_lock now (lo_source_id o) (lo_source_revision o) MALFORMED)
  else if bool_decide (lo_state o = UNLOCKED) && flt (fdiv (float_of ttl) (float_of 1000000000)) age
  then lift (unknown_lock now (lo_source_id o) (lo_source_revision o) STALE)
  else mret o.

(** [apply_lock] from the normalised observation on. *)
Definition accept_lock (normalized : LockObservation) : MS unit :=
  previous ← gets sf_lock;
  _ ← modify (set_lock normalized);
  received ← monotonic_ns;
  _ ← modify (set_received received);
  _ ← match lo_failure_code normalized with Some c => modify (set_failure c) | None => mret tt end;
  _ ← set_policy_locked (negb (bool_decide (lo_state normalized = UNLOCKED)));
  _ ← (if bool_decide (lo_state previous = lo_state normalized) then mret tt
       else emit_audit (u "lock") (lock_value (lo_state previous)) (lock_value (lo_state normalized))
              (lo_source_id normalized) (u "lock-state"));
  reconcile.

Definition apply_lock (o : LockObservation) : MS unit :=
  normalized ← normalize_lock o;
  accept_lock normalized.

Definition resolve_idle (observations : list IdleObservation) : MS (IdleObservation * bool) :=
  s ← gets (fun s => s);
  now ← clock_now;
  lift (resolve_idle_observations observations (sf_settings s) (sf_source_order s) now).

Definition update_resume_latches (previous current : IdleObservation) : MS unit :=
  s ← gets (fun s => s);
  match io_state current with
  | IDLE_IDLE => _ ← modify (set_active_since None); modify (set_uncertain false)
  | IDLE_UNKNOWN =>
      if sf_blocked s && bool_decide (sf_block_reason s = Some IDLE) then modify (set_uncertain true) else mret tt
  | IDLE_ACTIVE =>
      _ ← modify (set_uncertain false);
      if negb (bool_decide (io_state previous = IDLE_IDLE)) then mret tt
      else
        match is_resume_behavior (sf_settings s) with
        | MANUAL => modify (set_manual_latch true)
        | ACTIVE_GRACE => now ← monotonic_ns; modify (set_active_since (Some now))
        | IMMEDIATE => mret tt
        end
  end.

Definition note_conflict (conflict : bool) : MS unit :=
  if conflict then modify (set_failure SOURCE_CONFLICT) else mret tt.

Definition apply_idle (observations : list IdleObservation) : MS unit :=
  previous ← gets sf_idle;
  resolved ← resolve_idle observations;
  let normalized := resolved.1 in
  _ ← modify (set_idle normalized);
  _ ← match io_failure_code normalized with Some c => modify (set_failure c) | None => mret tt end;
  _ ← note_conflict resolved.2;
  _ ← update_resume_latches previous normalized;
  _ ← (if bool_decide (io_state previous = io_state normalized) then mret tt
       else emit_audit (u "idle") (idle_value (io_state previous)) (idle_value (io_state normalized))
              (io_source_id normalized) (u "idle-state"));
  reconcile.

Definition replace_idle_settings (settings : IdleSettings) : MS unit :=
  previous ← gets sf_idle;
  _ ← modify (set_settings settings);
  _ ← (match io_idle_seconds previous with
       | None => mret tt
       | Some _ =>
           resolved ← resolve_idle [previous];
           _ ← modify (set_idle resolved.1);
           _ ← note_conflict resolved.2;
           update_resume_latches previous resolved.1
       end);
  reconcile.

Definition acknowledge_idle_resume : MS unit :=
  _ ← modify (set_manual_latch false);
  reconcile.

Definition expire_lock (previous : LockObservation) : MS unit :=
  now ← clock_now;
  o ← lift (unknown_lock now (lo_source_id previous) (lo_source_revision previous) STALE);
  _ ← modify (set_lock o);
  _ ← modify (set_failure STALE);
  _ ← set_policy_locked true;
  emit_audit (u "lock") (lock_value (lo_state previous)) (lock_value LOCK_UNKNOWN)
    (lo_source_id previous) (u "lock-stale").

Definition refresh : MS unit :=
  s ← gets (fun s => s);
  _ ← (if bool_decide (lo_state (sf_lock s) = UNLOCKED)
       then
         now ← monotonic_ns;
         if sf_ttl_ns s <? now - sf_lock_received_ns s then expire_lock (sf_lock s) else mret tt
       else mret tt);
  reconcile.

(** The properties [capture_blocked] and [block_reason], and [status]. *)
Definition capture_blocked : MS bool :=
  blocked ← gets sf_blocked;
  if blocked : bool then mret true
  else desired ← desired_block_reason; mret (bool_decide (is_Some desired)).
Definition block_reason : MS (option TransitionReason) :=
  reason ← gets sf_block_reason;
  match reason with Some r => mret (Some r) | None => desired_block_reason end.

Definition status (s : safety W) : SessionSafetyStatus :=
  let degraded :=
    bool_decide (lo_state (sf_lock s) = LOCK_UNKNOWN) ||
    (is_enabled (sf_settings s) && bool_decide (is_Some (io_failure_code (sf_idle s)))) ||
    bool_decide (sf_last_failure s = SOURCE_CONFLICT) in
  {| st_lock_state := lo_state (sf_lock s); st_idle_state := io_state (sf_idle s);
     st_lock_source_id := lo_source_id (sf_lock s); st_idle_source_id := io_source_id (sf_idle s);
     st_health := if degraded then DEGRADED else HEALTHY;
     st_idle_threshold_seconds := is_threshold_seconds (sf_settings s);
     st_current_generation := sf_last_generation s;
     st_last_failure_code := if degraded then Some (sf_last_failure s) else None |}.

(** [__init__] *)
Definition make_safety (settings : IdleSettings) (source_order : list pystr) (has_audit : bool)
    (lock_state_ttl_seconds : pyfloat) (w : W) : result (safety W) :=
  _ ← throw_if (fle lock_state_ttl_seconds (float_of 0) || flt (float_of 300) lock_state_ttl_seconds) ValueError;
  _ ← throw_if (negb (bool_decide (NoDup source_order))) ValueError;
  _ ← throw_if (negb (forallb is_identifier source_order)) ValueError;
  ttl_ns ← int_of (fmul lock_state_ttl_seconds (float_of 1000000000));
  let (now, w) := sp_now w in
  lock ← unknown_lock now (u "startup") (u "startup-v1") STALE;
  idle ← unknown_idle now (u "none") (u "none-v1") UNAVAILABLE;
  let (received, w) := sp_monotonic_ns w in
  mret {| sf_settings := settings; sf_source_order := source_order; sf_has_audit := has_audit; sf_ttl_ns := ttl_ns;
          sf_lock := lock; sf_idle := idle; sf_lock_received_ns := received; sf_active_since_ns := None;
          sf_manual_idle_latch := false; sf_idle_uncertain_latch := false; sf_blocked := false;
          sf_block_reason := None; sf_last_generation := None; sf_last_failure := STALE;
          sf_world := sp_set_session_locked true w |}.
End Controller.

(** ** [SessionSafetyPreflight] *)

(** The sources, the base preflight and the policy.  [pp_observe] runs one
    observation task per source to its end: the lock source's outcome and the
    idle sources' outcomes in order; it raises when the tasks cannot be run. *)
Class PreflightPorts (W : Type) := {
  pp_lock_source_id : pystr;
  pp_idle_source_ids : list pystr;
  pp_observe : Z -> Z -> M W (result LockObservation * list (result IdleObservation));
  pp_set_session_locked : bool -> W -> W;
  pp_base_check : LifecyclePreflightRequest -> M W LifecyclePreflightResult;
  pp_now : W -> datetime * W }.

Section Preflight.
Context {W : Type} `{PreflightPorts W}.
Variables (idle_settings : IdleSettings) (source_order : list pystr).

Definition make_preflight : result unit :=
  _ ← throw_if (negb (bool_decide (NoDup pp_idle_source_ids))) ValueError;
  throw_if (negb (bool_decide (NoDup source_order))) ValueError.

Definition preflight_now : M W datetime := fun w => let (t, w') := pp_now w in (w', Ok t).

Definition lock_or_unknown (outcome : result LockObservation) : M W LockObservation :=
  match outcome with
  | Ok o => mret o
  | Raise _ => now ← preflight_now; lift (unknown_lock now pp_lock_source_id (u "source-v1") UNAVAILABLE)
  end.

(** [zip(..., strict=True)] raises when the lengths differ. *)
Fixpoint idle_or_unknown (ids : list pystr) (outcomes : list (result IdleObservation)) : M W (list IdleObservation) :=
  match ids, outcomes with
  | [], [] => mret []
  | id :: ids', outcome :: outcomes' =>
      o ← match outcome with
          | Ok o => mret o
          | Raise _ => now ← preflight_now; lift (unknown_idle now id (u "source-v1") UNAVAILABLE)
          end;
      os ← idle_or_unknown ids' outcomes';
      mret (o :: os)
  | _, _ => raise ValueError
  end.

Definition collect (generation deadline : Z) : M W (LockObservation * list IdleObservation) :=
  outcomes ← pp_observe generation deadline;
  lock ← lock_or_unknown outcomes.1;
  idle ← idle_or_unknown pp_idle_source_ids outcomes.2;
  mret (lock, idle).

Definition start_paused (reason : TransitionReason) : result LifecyclePreflightResult :=
  make_preflight_result true None (Some reason).

(** The observations, or an unknown lock when they cannot be had. *)
Definition observe_all (request : LifecyclePreflightRequest) : M W (LockObservation * list IdleObservation) :=
  _ ← require (negb (pr_deadline_monotonic_ns request <=? 0)) ValueError;
  try_except (collect (pr_generation request) (pr_deadline_monotonic_ns request))
    (fun _ => lock ← lock_or_unknown (Raise RuntimeError); mret (lock, [])).

Definition check (request : LifecyclePreflightRequest) : M W LifecyclePreflightResult :=
  observed ← observe_all request;
  let lock := observed.1 in
  _ ← modify (pp_set_session_locked (negb (bool_decide (lo_state lock = UNLOCKED))));
  base ← pp_base_check request;
  if negb (pf_ready base) then mret base
  else if negb (bool_decide (lo_state lock = UNLOCKED)) then lift (start_paused SESSION_LOCKED)
  else if is_enabled idle_settings && is_pause_capture idle_settings
  then
    now ← preflight_now;
    resolved ← lift (resolve_idle_observations observed.2 idle_settings source_order now);
    if bool_decide (io_state resolved.1 = IDLE_IDLE) then lift (start_paused IDLE) else mret base
  else mret base.
End Preflight.
