(* ===== verification/SafetyFacts.v ===== *)
(** * SafetyFacts: the session-safety controller fails closed.

    The controller is proved against a log of the calls it makes
    ([logged_ports]): whatever its collaborators answer, what it has told the
    policy engine and the lifecycle actor agrees with its own attributes. *)

From S2P Require Import Prelude PyStr PyFloat Gate Lifecycle Safety.

(** ** The log of calls *)

Inductive logged_call :=
  | LLock (locked : bool)
  | LApply (blocked : bool) (reason : TransitionReason) (privacy_mode accepted : bool)
  | LEmit (event : SessionSafetyAuditEvent) (delivered : bool).

Definition accepted_of (r : result LifecycleCommandResult) : bool :=
  match r with Ok x => res_accepted x | Raise _ => false end.

Section Log.
Context {W : Type} `{SafetyPorts W}.

#[export] Instance logged_ports : SafetyPorts (W * list logged_call) := {|
  sp_now := fun wl => let (t, w) := sp_now wl.1 in (t, (w, wl.2));
  sp_monotonic_ns := fun wl => let (t, w) := sp_monotonic_ns wl.1 in (t, (w, wl.2));
  sp_set_session_locked := fun b wl => (sp_set_session_locked b wl.1, LLock b :: wl.2);
  sp_privacy_mode := fun wl => sp_privacy_mode wl.1;
  sp_apply := fun b r wl =>
    let (w, x) := sp_apply b r wl.1 in
    ((w, LApply b r (sp_privacy_mode wl.1) (accepted_of x) :: wl.2), x);
  sp_emit := fun e wl => let (w, x) := sp_emit e wl.1 in ((w, LEmit e (is_ok x) :: wl.2), x) |}.
End Log.

(** The last instruction to the policy. *)
Fixpoint policy_locked (l : list logged_call) : bool :=
  match l with
  | [] => false
  | LLock b :: _ => b
  | _ :: l' => policy_locked l'
  end.

(** The block in force in the lifecycle: what the last accepted call asked for. *)
Fixpoint in_force (l : list logged_call) : bool * option TransitionReason :=
  match l with
  | [] => (false, None)
  | LApply b r _ true :: _ => (b, if b then Some r else None)
  | _ :: l' => in_force l'
  end.

(** The last call to the lifecycle was refused, or failed. *)
Fixpoint refused (l : list logged_call) : bool :=
  match l with
  | [] => false
  | LApply _ _ _ ok :: _ => negb ok
  | _ :: l' => refused l'
  end.

(** Every call that was refused or failed is followed at once by one that
    tells the policy that the session is locked. *)
Fixpoint refusals_lock (l : list logged_call) : bool :=
  match l with
  | [] => true
  | LApply _ _ _ false :: _ => false
  | LLock true :: LApply _ _ _ false :: l' => refusals_lock l'
  | _ :: l' => refusals_lock l'
  end.

(** The controller's own account: the last call decides, and one that was not
    accepted counts as a session lock. *)
Fixpoint account_after (l : list logged_call) : bool * option TransitionReason :=
  match l with
  | [] => (false, None)
  | LApply b r _ true :: _ => (b, if b then Some r else None)
  | LApply _ _ _ false :: _ => (true, Some SESSION_LOCKED)
  | _ :: l' => account_after l'
  end.

Lemma account_refused l : refused l = true -> account_after l = (true, Some SESSION_LOCKED).
Proof. by induction l as [|[b|b r p []|e d] l IH]. Qed.
Lemma account_in_force l : refused l = false -> account_after l = in_force l.
Proof. by induction l as [|[b|b r p []|e d] l IH]. Qed.

Lemma refusals_lock_cons c l : refusals_lock l = true -> match c with LApply _ _ _ ok => ok = true | _ => True end -> refusals_lock (c :: l) = true.
Proof. destruct c as [[]|b r p []|e d]; cbn; try done. by destruct l as [|[|b' r' p' []|] l]. Qed.

(** ** What the outside may do *)

Inductive safety_op :=
  | OpLock (o : LockObservation)
  | OpIdle (os : list IdleObservation)
  | OpSettings (settings : IdleSettings)
  | OpAcknowledge
  | OpRefresh.

Definition run_safety_op {W} `{SafetyPorts W} (op : safety_op) : M (safety W) unit :=
  match op with
  | OpLock o => apply_lock o
  | OpIdle os => apply_idle os
  | OpSettings settings => replace_idle_settings settings
  | OpAcknowledge => acknowledge_idle_resume
  | OpRefresh => refresh
  end.

(** Settings in range, whose grace period is a number of nanoseconds. *)
Definition settings_ok (st : IdleSettings) : bool :=
  is_ok (make_idle_settings st) && is_ok (int_of (fmul (is_active_grace_seconds st) (float_of 1000000000))).
Definition op_ok (op : safety_op) : bool :=
  match op with
  | OpLock o => is_ok (make_lock_observation o)
  | OpIdle os => forallb (fun o => is_ok (make_idle_observation o)) os
  | OpSettings st => settings_ok st
  | _ => true
  end.

(** ** Observations stay valid *)

Lemma make_lock_ok o o' : make_lock_observation o = Ok o' -> o' = o.
Proof. unfold make_lock_observation. intros Ho. ok_steps. congruence. Qed.
Lemma make_idle_ok o o' : make_idle_observation o = Ok o' -> o' = o.
Proof. unfold make_idle_observation. intros Ho. ok_steps. congruence. Qed.

Lemma unknown_lock_ok t o code : is_ok (make_lock_observation o) = true ->
  let o' := {| lo_state := LOCK_UNKNOWN; lo_observed_at := t; lo_source_id := lo_source_id o;
               lo_source_revision := lo_source_revision o; lo_failure_code := Some code |} in
  unknown_lock t (lo_source_id o) (lo_source_revision o) code = Ok o' /\ make_lock_observation o' = Ok o'.
Proof.
  unfold unknown_lock, make_lock_observation. cbn.
  destruct (validate_observation (lo_source_id o) (lo_source_revision o)) as [[]|]; done.
Qed.

Lemma unknown_idle_ok t o code : is_ok (make_idle_observation o) = true ->
  let o' := {| io_state := IDLE_UNKNOWN; io_observed_at := t; io_source_id := io_source_id o;
               io_source_revision := io_source_revision o; io_idle_seconds := None;
               io_failure_code := Some code |} in
  unknown_idle t (io_source_id o) (io_source_revision o) code = Ok o' /\ make_idle_observation o' = Ok o'.
Proof.
  unfold unknown_idle, make_idle_observation. cbn.
  destruct (validate_observation (io_source_id o) (io_source_revision o)) as [[]|]; done.
Qed.

(** ** Resolving idle observations *)

(** What one observation says at [now]. *)
Definition idle_reading (st : IdleSettings) (now : datetime) (o : IdleObservation) : IdleState :=
  let age := seconds_between now (io_observed_at o) in
  if flt age FUTURE_TOLERANCE || flt (is_max_observation_age_seconds st) age then IDLE_UNKNOWN
  else match io_idle_seconds o with
       | None => io_state o
       | Some x => if fle (is_threshold_seconds st) x then IDLE_IDLE else IDLE_ACTIVE
       end.

(** What they say together: one idle source is enough. *)
Definition overall_reading (rs : list IdleState) : IdleState :=
  if bool_decide (IDLE_IDLE ∈ rs) then IDLE_IDLE
  else if bool_decide (IDLE_ACTIVE ∈ rs) then IDLE_ACTIVE else IDLE_UNKNOWN.

Definition valid_idle (o : IdleObservation) : Prop := is_ok (make_idle_observation o) = true.

(** [n] is what normalising [o] gives. *)
Record reads (st : IdleSettings) (now : datetime) (o n : IdleObservation) : Prop := {
  rd_state : io_state n = idle_reading st now o;
  rd_source : io_source_id n = io_source_id o;
  rd_valid : valid_idle n }.

Lemma ok_valid o : make_idle_observation o = Ok o -> valid_idle o.
Proof. unfold valid_idle. by intros ->. Qed.

Lemma normalize_idle_ok st now o :
  valid_idle o -> exists n, normalize_idle st now o = Ok n /\ reads st now o n.
Proof.
  intros Hv. unfold normalize_idle.
  assert (forall b, b = flt (seconds_between now (io_observed_at o)) FUTURE_TOLERANCE ||
    flt (is_max_observation_age_seconds st) (seconds_between now (io_observed_at o)) ->
    idle_reading st now o = if b then IDLE_UNKNOWN else match io_idle_seconds o with
       | None => io_state o
       | Some x => if fle (is_threshold_seconds st) x then IDLE_IDLE else IDLE_ACTIVE end) as Hr by (by intros ? ->).
  destruct (_ || _); specialize (Hr _ eq_refl).
  - destruct (unknown_idle_ok now o (if flt (seconds_between now (io_observed_at o)) FUTURE_TOLERANCE then MALFORMED else STALE) Hv)
      as [-> Hn]. eexists. split; [done|]. split; [by rewrite Hr|done|by apply ok_valid].
  - destruct (io_idle_seconds o) as [x|] eqn:Hx; [|exists o; by split].
    set (n := {| io_state := _; io_observed_at := _; io_source_id := _; io_source_revision := _;
                 io_idle_seconds := _; io_failure_code := _ |}).
    assert (make_idle_observation n = Ok n) as Hn.
    { revert Hv. unfold valid_idle, make_idle_observation. cbn. rewrite Hx.
      destruct (validate_observation _ _) as [[]|]; [|done]. cbn. by destruct (negb (is_finite x) || _). }
    rewrite Hn. eexists. split; [done|]. split; [by rewrite Hr|done|by apply ok_valid].
Qed.

Lemma normalize_all_ok st now os : Forall valid_idle os ->
  exists ns, map_ok (normalize_idle st now) os = Ok ns /\ Forall2 (reads st now) os ns.
Proof.
  induction 1 as [|o os Ho _ IH]; cbn; [by exists []|].
  destruct (normalize_idle_ok st now o Ho) as (n&->&Hn). destruct IH as (ns&->&Hns). cbn. eexists. split; [done|by constructor].
Qed.

(** ** [min] *)

Section Min.
Context {A : Type} (ltb : A -> A -> bool).
Hypothesis ltb_asym : forall a b, ltb a b = true -> ltb b a = false.
Hypothesis ltb_trans : forall a b c, ltb b a = false -> ltb c b = false -> ltb c a = false.

Lemma ltb_irrefl a : ltb a a = false.
Proof. destruct (ltb a a) eqn:E; [|done]. rewrite <- E. by apply ltb_asym. Qed.

Lemma min_step (x c m : A) :
  ltb (if ltb x c then x else c) m = false -> ltb c m = false /\ ltb x m = false.
Proof.
  destruct (ltb x c) eqn:E; intros Hm; (split; [|]); try done.
  - eapply ltb_trans; [exact Hm|by apply ltb_asym].
  - by eapply ltb_trans.
Qed.

Lemma select_min_spec l : l ≠ [] ->
  exists m, select_min ltb l = Ok m /\ m ∈ l /\ forall x, x ∈ l -> ltb x m = false.
Proof.
  destruct l as [|c cs]; [done|]. intros _. cbn. eexists. split; [done|].
  revert c. induction cs as [|x cs IH]; intros c; cbn.
  - split; [constructor|]. intros x ->%list_elem_of_singleton. apply ltb_irrefl.
  - destruct (IH (if ltb x c then x else c)) as [Hin Hle]. split.
    + apply elem_of_cons in Hin as [->|Hin]; [|by do 2 right]. destruct (ltb x c); [by right; left|by left].
    + destruct (min_step x c _ (Hle _ ltac:(left))) as [Hc Hx].
      intros y [->|[->|Hy]%elem_of_cons]%elem_of_cons; [done..|]. apply Hle. by right.
Qed.
End Min.

Lemma str_ltb_asym a b : str_ltb a b = true -> str_ltb b a = false.
Proof.
  intros Hab. destruct (str_ltb b a) eqn:Hba; [|done].
  rewrite <- (str_ltb_irrefl a). symmetry. by eapply str_ltb_trans.
Qed.

Lemma key_ltb_asym order a b : key_ltb order a b = true -> key_ltb order b a = false.
Proof.
  unfold key_ltb. rewrite orb_true_iff, orb_false_iff, andb_true_iff, andb_false_iff, Z.ltb_lt, Z.ltb_ge, Z.eqb_eq, Z.eqb_neq.
  intros [?|[? ?%str_ltb_asym]]; split; auto; lia.
Qed.

Lemma key_ltb_trans order a b c :
  key_ltb order b a = false -> key_ltb order c b = false -> key_ltb order c a = false.
Proof.
  unfold key_ltb. rewrite !orb_false_iff, !andb_false_iff, !Z.ltb_ge, !Z.eqb_neq.
  intros [? [?|?]] [? [?|?]]; (split; [lia|]); try (left; lia).
  destruct (Z.eq_dec (rank_of order (io_source_id c)) (rank_of order (io_source_id a))); [|by left].
  right. by eapply str_ltb_cotrans.
Qed.

Lemma key_ltb_total order a b :
  key_ltb order a b = false -> key_ltb order b a = false -> io_source_id a = io_source_id b.
Proof.
  unfold key_ltb. rewrite !orb_false_iff, !andb_false_iff, !Z.ltb_ge, !Z.eqb_neq.
  intros [? [?|?]] [? [?|?]]; try lia. by apply str_ltb_total.
Qed.

(** ** The resolution *)

Lemma has_state_spec (x : IdleState) ns : has_state x ns = bool_decide (x ∈ io_state <$> ns).
Proof.
  unfold has_state. induction ns as [|n ns IH]; [by rewrite bool_decide_false by set_solver|].
  cbn [existsb fmap list_fmap]. rewrite IH. apply eq_true_iff_eq.
  rewrite orb_true_iff, !bool_decide_eq_true, elem_of_cons. naive_solver.
Qed.

Lemma overall_in rs : rs ≠ [] -> overall_reading rs ∈ rs.
Proof.
  intros Hne. unfold overall_reading. case_bool_decide; [done|]. case_bool_decide; [done|].
  destruct rs as [|[] rs]; [done|set_solver..].
Qed.

(** The candidates are the normalised observations in the overall state. *)
Lemma candidates_spec ns n :
  n ∈ (if has_state IDLE_IDLE ns then in_state IDLE_IDLE ns
       else if has_state IDLE_ACTIVE ns then in_state IDLE_ACTIVE ns else ns) <->
  n ∈ ns /\ io_state n = overall_reading (io_state <$> ns).
Proof.
  rewrite !has_state_spec. unfold overall_reading, in_state.
  case_bool_decide as H1; [rewrite list_elem_of_filter; naive_solver|].
  case_bool_decide as H2; [rewrite list_elem_of_filter; naive_solver|].
  split; [|naive_solver]. intros Hn. split; [done|].
  pose proof (list_elem_of_fmap_2 io_state _ _ Hn). destruct (io_state n); done.
Qed.

(** What resolving non-empty observations gives. *)
Record resolved (os : list IdleObservation) (st : IdleSettings) (order : list pystr) (now : datetime)
    (o : IdleObservation) (conflict : bool) : Prop := {
  rs_state : io_state o = overall_reading (idle_reading st now <$> os);
  rs_conflict : conflict = true <->
    IDLE_IDLE ∈ idle_reading st now <$> os /\ IDLE_ACTIVE ∈ idle_reading st now <$> os;
  rs_valid : valid_idle o;
  rs_source : exists o0, o0 ∈ os /\ io_source_id o = io_source_id o0 /\ idle_reading st now o0 = io_state o;
  rs_least : forall o1, o1 ∈ os -> idle_reading st now o1 = io_state o -> key_ltb order o1 o = false }.

Lemma Forall2_in {A B} (P : A -> B -> Prop) l k : Forall2 P l k ->
  (forall x, x ∈ l -> exists y, y ∈ k /\ P x y) /\ (forall y, y ∈ k -> exists x, x ∈ l /\ P x y).
Proof.
  induction 1 as [|x y l k Hp _ [IH1 IH2]]; [split; intros ? []%elem_of_nil|]. split.
  - intros x' [->|Hx]%elem_of_cons; [exists y; split; [left|done]|].
    destruct (IH1 x' Hx) as (y'&?&?). exists y'. split; [by right|done].
  - intros y' [->|Hy]%elem_of_cons; [exists x; split; [left|done]|].
    destruct (IH2 y' Hy) as (x'&?&?). exists x'. split; [by right|done].
Qed.

Lemma reads_states st now os ns : Forall2 (reads st now) os ns -> io_state <$> ns = idle_reading st now <$> os.
Proof. induction 1 as [|o n os ns []]; [done|]. cbn. by f_equal. Qed.

Lemma resolve_idle_ok os st order now : os ≠ [] -> Forall valid_idle os ->
  exists o conflict, resolve_idle_observations os st order now = Ok (o, conflict) /\
    resolved os st order now o conflict.
Proof.
  intros Hne Hv. unfold resolve_idle_observations. rewrite bool_decide_false by done.
  destruct (normalize_all_ok st now os Hv) as (ns&->&Hns). rewrite result_bind_ret. cbv zeta.
  pose proof (candidates_spec ns) as Hcand. pose proof (reads_states _ _ _ _ Hns) as Hst.
  set (cands := if has_state IDLE_IDLE ns then _ else _) in *.
  assert (Hnn : ns ≠ []) by (intros ->; by apply Forall2_nil_inv_r in Hns).
  destruct (select_min_spec (key_ltb order) (key_ltb_asym order) (key_ltb_trans order) cands) as (m&->&Hm&Hle).
  { intros Hc. assert (overall_reading (io_state <$> ns) ∈ io_state <$> ns) as (n&Hn&Hin)%list_elem_of_fmap.
    { apply overall_in. by destruct ns. }
    assert (n ∈ cands) as Hx by (by apply Hcand). rewrite Hc in Hx. by apply elem_of_nil in Hx. }
  rewrite result_bind_ret. eexists _, _. split; [done|]. apply Hcand in Hm as [Hm Hms].
  rewrite !has_state_spec, Hst in *.
  destruct (proj2 (Forall2_in _ _ _ Hns) _ Hm) as (o0&Ho0&[Hs0 Hi0 Hv0]). split.
  - done.
  - by rewrite andb_true_iff, !bool_decide_eq_true.
  - done.
  - exists o0. by rewrite <- Hs0.
  - intros o1 Ho1 Hr. destruct (proj1 (Forall2_in _ _ _ Hns) _ Ho1) as (n1&Hn1&[Hs1 Hi1 _]).
    assert (n1 ∈ cands) as Hx%Hle by (apply Hcand; split; [done|congruence]).
    revert Hx. unfold key_ltb. by rewrite Hi1.
Qed.

(** [resolution_is_conservative]: Resolving idle observations never fails
    and never trusts a stale or future one.  One current source that says idle
    (a duration of at least the threshold, or its own word where it has no
    duration) makes the result idle, whatever the others say; a conflict is
    reported exactly when another current source says active.  The answer is
    that of the preferred source among those that agree with it, and neither
    the state, the source nor the conflict depends on the order in which the
    observations arrive. *)
Theorem resolution_is_conservative os st order now :
  Forall valid_idle os ->
  (os = [] -> exists o, resolve_idle_observations os st order now = Ok (o, false) /\ io_state o = IDLE_UNKNOWN) /\
  (os ≠ [] -> exists o conflict, resolve_idle_observations os st order now = Ok (o, conflict) /\
    resolved os st order now o conflict /\
    forall os', os ≡ₚ os' -> exists o', resolve_idle_observations os' st order now = Ok (o', conflict) /\
      io_state o' = io_state o /\ io_source_id o' = io_source_id o).
Proof.
  intros Hv. split; [intros ->; by eexists|]. intros Hne.
  destruct (resolve_idle_ok os st order now Hne Hv) as (o&c&He&Ho). exists o, c. split; [done|]. split; [done|].
  intros os' Hp. destruct (resolve_idle_ok os' st order now) as (o'&c'&He'&Ho').
  { intros ->. by apply Permutation_nil_r in Hp. }
  { by rewrite <- Hp. }
  assert (Hin : forall x, x ∈ os' <-> x ∈ os) by (intros; by rewrite Hp).
  assert (Hst : forall r, r ∈ idle_reading st now <$> os' <-> r ∈ idle_reading st now <$> os) by (intros; by rewrite Hp).
  destruct Ho as [Hs Hc _ (o0&Ho0&Hi0&Hr0) Hl], Ho' as [Hs' Hc' _ (o1&Ho1&Hi1&Hr1) Hl'].
  assert (io_state o' = io_state o) as Heq.
  { rewrite Hs, Hs'. unfold overall_reading. by rewrite !(bool_decide_ext _ _ (Hst _)). }
  exists o'. rewrite He'. split; [do 2 f_equal|split; [done|]].
  - apply eq_true_iff_eq. rewrite Hc, Hc', !Hst. done.
  - rewrite Hi0, Hi1. apply (key_ltb_total order).
    + specialize (Hl o1). rewrite Hin in Ho1. specialize (Hl Ho1). unfold key_ltb in *. rewrite Hi0 in Hl. apply Hl. congruence.
    + specialize (Hl' o0). rewrite <- Hin in Ho0. specialize (Hl' Ho0). unfold key_ltb in *. rewrite Hi1 in Hl'. apply Hl'. congruence.
Qed.

(** ** What the collaborators preserve, the controller preserves *)

Section World.
Context {V : Type} `{SafetyPorts V}.
Variables (P : V -> Prop) (unlock_ok : Prop).
Hypothesis P_now : forall w, P w -> P (sp_now w).2.
Hypothesis P_monotonic : forall w, P w -> P (sp_monotonic_ns w).2.
Hypothesis P_lock : forall w, P w -> P (sp_set_session_locked true w).
Hypothesis P_unlock : unlock_ok -> forall w, P w -> P (sp_set_session_locked false w).
Hypothesis P_apply : forall b r w, P w -> P (sp_apply b r w).1.
Hypothesis P_emit : forall e w, P w -> P (sp_emit e w).1.

Definition on_its_world (s : safety V) : Prop := P (sf_world s).

Lemma world_modify (f : safety V -> safety V) :
  (forall s, sf_world (f s) = sf_world s) -> preserves on_its_world (modify f).
Proof. intros Hf s Hs. split. unfold on_its_world in *. cbn. by rewrite Hf. Qed.
Lemma world_query {A} (q : V -> A * V) : (forall w, P w -> P (q w).2) -> preserves on_its_world (query q).
Proof. intros Hq s Hs. split. unfold query. specialize (Hq _ Hs). by destruct (q (sf_world s)). Qed.
Lemma world_call {A} (m : M V A) : (forall w, P w -> P (m w).1) -> preserves on_its_world (call m).
Proof. intros Hm s Hs. split. unfold call, zoom. specialize (Hm _ Hs). by destruct (m (sf_world s)). Qed.
Lemma world_now : preserves on_its_world clock_now.
Proof. by apply world_query. Qed.
Lemma world_monotonic : preserves on_its_world monotonic_ns.
Proof. by apply world_query. Qed.
Lemma world_locked b : b = true \/ unlock_ok -> preserves on_its_world (set_policy_locked b).
Proof. intros Hb s Hs. split. destruct b; [by apply P_lock|]. apply P_unlock; [by destruct Hb|done]. Qed.
#[local] Hint Resolve world_now world_monotonic world_call world_locked : preserves.
#[local] Hint Extern 2 (preserves _ (modify _)) => apply world_modify; done : preserves.

Ltac through :=
  cbv zeta;
  first [ solve [eauto 3 with preserves]
        | apply preserves_bind; [|intros ?]; through
        | apply preserves_try_except; [|intros ?]; through
        | case_match; through ].

Lemma world_apply_lifecycle b r : preserves on_its_world (apply_lifecycle b r).
Proof. unfold apply_lifecycle, reject_lifecycle. through. Qed.
#[local] Hint Resolve world_apply_lifecycle : preserves.
Lemma world_emit_audit a b c d e : preserves on_its_world (emit_audit a b c d e).
Proof. unfold emit_audit. through. Qed.
Lemma world_desired : preserves on_its_world desired_block_reason.
Proof. unfold desired_block_reason, idle_blocked. through. Qed.
#[local] Hint Resolve world_emit_audit world_desired : preserves.
Lemma world_reconcile : preserves on_its_world reconcile.
Proof. unfold reconcile. through. Qed.
Lemma world_resolve os : preserves on_its_world (resolve_idle os).
Proof. unfold resolve_idle. through. Qed.
Lemma world_latches a b : preserves on_its_world (update_resume_latches a b).
Proof. unfold update_resume_latches. through. Qed.
Lemma world_normalize_lock o : preserves on_its_world (normalize_lock o).
Proof. unfold normalize_lock. through. Qed.
#[local] Hint Resolve world_reconcile world_resolve world_latches world_normalize_lock : preserves.

Lemma world_accept_lock n : lo_state n ≠ UNLOCKED \/ unlock_ok -> preserves on_its_world (accept_lock n).
Proof.
  intros Hn. unfold accept_lock.
  assert (negb (bool_decide (lo_state n = UNLOCKED)) = true \/ unlock_ok) by (case_bool_decide; naive_solver). through.
Qed.
#[local] Hint Resolve world_accept_lock : preserves.

Lemma world_op op : (forall o, op ≠ OpLock o) \/ unlock_ok -> preserves on_its_world (run_safety_op op).
Proof.
  intros Hop. destruct op as [o|os|st| |]; cbn [run_safety_op].
  - destruct Hop as [Hop|Hop]; [by destruct (Hop o)|]. unfold apply_lock. through.
  - unfold apply_idle, note_conflict. through.
  - unfold replace_idle_settings, note_conflict. through.
  - unfold acknowledge_idle_resume. through.
  - unfold refresh, expire_lock. through.
Qed.
End World.

(** ** The controller *)

Section Controller.
Context {W : Type} `{SafetyPorts W}.
Local Abbreviation LW := (W * list logged_call)%type.
Implicit Type s : safety LW.

Definition log (s : safety LW) : list logged_call := (sf_world s).2.

(** The controller's account follows its calls, and refusals lock the policy. *)
Definition account_ok (s : safety LW) : Prop :=
  (sf_blocked s, sf_block_reason s) = account_after (log s) /\ refusals_lock (log s) = true.

(** The attributes that only the operations on observations and settings change. *)
Record same (s s' : safety LW) : Prop := {
  sm_settings : sf_settings s' = sf_settings s;
  sm_order : sf_source_order s' = sf_source_order s;
  sm_lock : sf_lock s' = sf_lock s;
  sm_idle : sf_idle s' = sf_idle s;
  sm_manual : sf_manual_idle_latch s' = sf_manual_idle_latch s;
  sm_uncertain : sf_idle_uncertain_latch s' = sf_idle_uncertain_latch s }.

Lemma same_refl s : same s s.
Proof. by split. Qed.
Lemma same_trans s1 s2 s3 : same s1 s2 -> same s2 s3 -> same s1 s3.
Proof. intros [] []. split; congruence. Qed.

Record safe_inv (s : safety LW) : Prop := {
  iv_settings : settings_ok (sf_settings s) = true;
  iv_lock : is_ok (make_lock_observation (sf_lock s)) = true;
  iv_idle : valid_idle (sf_idle s);
  iv_block : account_ok s }.

(** Unless the session is known to be unlocked, the policy has been told that
    it is locked. *)
Definition policy_safe (s : safety LW) : Prop :=
  lo_state (sf_lock s) = UNLOCKED \/ policy_locked (log s) = true.

(** Why idleness still blocks capture. *)
Definition idle_hold (s : safety LW) : bool :=
  let st := sf_settings s in
  is_enabled st && is_pause_capture st &&
  (bool_decide (io_state (sf_idle s) = IDLE_IDLE) || sf_idle_uncertain_latch s ||
   (bool_decide (is_resume_behavior st = MANUAL) && sf_manual_idle_latch s) ||
   (bool_decide (is_resume_behavior st = ACTIVE_GRACE) && bool_decide (is_Some (sf_active_since_ns s)))).

(** Every operation ends with the block in force that the state asks for, and
    with no block it does not ask for, except while privacy mode delays the
    release or after an instruction that was not accepted. *)
Record settled (s : safety LW) : Prop := {
  sd_lock : lo_state (sf_lock s) ≠ UNLOCKED -> sf_blocked s = true /\ sf_block_reason s = Some SESSION_LOCKED;
  sd_idle : idle_hold s = true -> sf_blocked s = true /\ (sf_block_reason s = Some IDLE \/ sf_block_reason s = Some SESSION_LOCKED);
  sd_release : lo_state (sf_lock s) = UNLOCKED -> idle_hold s = false -> sf_blocked s = true ->
    sp_privacy_mode (sf_world s) = true \/ policy_locked (log s) = true }.

(** The calls an operation adds to the log. *)
Definition is_release (c : logged_call) : Prop := match c with LApply false _ _ _ => True | _ => False end.
Definition grew (P : logged_call -> Prop) (s s' : safety LW) : Prop :=
  exists new, log s' = new ++ log s /\ Forall (fun c => is_release c -> P c) new.

Lemma grew_refl P s s' : log s' = log s -> grew P s s'.
Proof. intros Hl. by exists []. Qed.
Lemma grew_trans P s1 s2 s3 : grew (fun _ => False) s1 s2 -> grew P s2 s3 -> grew P s1 s3.
Proof.
  intros (n1&H1&F1) (n2&H2&F2). exists (n2 ++ n1). rewrite H2, H1, (assoc_L (++)). split; [done|].
  apply Forall_app. split; [done|]. eapply Forall_impl; [exact F1|]. by intros c Hc []%Hc.
Qed.

Lemma wp_query {A} (q : LW -> A * LW) Q s : (forall x w, q (sf_world s) = (x, w) -> Q (Ok x) (set_world w s)) ->
  wp (query q) Q s.
Proof. intros HQ. split. unfold query. destruct (q (sf_world s)) as [x w]. by apply HQ. Qed.

Lemma wp_clock Q s : (forall t w, Q (Ok t) (set_world (w, log s) s)) -> wp clock_now Q s.
Proof. intros HQ. apply wp_query. intros x w. cbn. destruct (sp_now _) as [t w']. intros [= <- <-]. apply HQ. Qed.
Lemma wp_monotonic Q s : (forall t w, Q (Ok t) (set_world (w, log s) s)) -> wp monotonic_ns Q s.
Proof. intros HQ. apply wp_query. intros x w. cbn. destruct (sp_monotonic_ns _) as [t w']. intros [= <- <-]. apply HQ. Qed.

(** One instruction to the lifecycle. *)
Lemma apply_lifecycle_ok b r s :
  wp (apply_lifecycle b r) (fun res s' => res = Ok tt /\ same s s' /\ sf_active_since_ns s' = sf_active_since_ns s /\
    exists ok : bool, log s' = (if ok then [] else [LLock true]) ++ LApply b r (sp_privacy_mode (sf_world s)) ok :: log s /\
      (sf_blocked s', sf_block_reason s') = account_after (log s') /\
      (refusals_lock (log s) = true -> refusals_lock (log s') = true)) s.
Proof.
  unfold apply_lifecycle, reject_lifecycle, call, set_policy_locked. wp_steps.
  apply wp_of_run. intros [w l] res Hres. cbn in Hres. destruct (sp_apply b r (sf_world s).1) as [w' x] eqn:Hx.
  injection Hres as <- <- <-. destruct x as [x|e]; wp_steps.
  - destruct (res_accepted x) eqn:Ha; cbn; wp_steps; (split; [done|]); (split; [done|]); (split; [done|]).
    + exists true. split; [done|]. cbn. done.
    + exists false. done.
  - split; [done|]. split; [done|]. split; [done|]. by exists false.
Qed.

(** A step that leaves observations, settings and latches alone, and keeps
    the accounts with the collaborators in order. *)
Record calm (s s' : safety LW) : Prop := {
  cm_same : same s s';
  cm_block : account_ok s -> account_ok s';
  cm_policy : policy_locked (log s) = true -> policy_locked (log s') = true }.

Lemma calm_trans s1 s2 s3 : calm s1 s2 -> calm s2 s3 -> calm s1 s3.
Proof. intros [S1 B1 P1] [S2 B2 P2]. split; auto. by eapply same_trans. Qed.

Lemma calm_inv s s' : calm s s' -> safe_inv s -> safe_inv s'.
Proof. intros [[] ? _] []. split; [congruence| congruence | congruence | auto]. Qed.

Lemma calm_policy s s' : calm s s' -> policy_safe s -> policy_safe s'.
Proof. intros [[] _ ?] [Hu|Hp]; [left; congruence|right; auto]. Qed.

Lemma apply_lifecycle_calm b r s :
  wp (apply_lifecycle b r) (fun res s' => res = Ok tt /\ calm s s' /\ idle_hold s' = idle_hold s /\
    grew (fun c => b = false /\ exists ok, c = LApply false r (sp_privacy_mode (sf_world s)) ok) s s' /\
    ((sf_blocked s', sf_block_reason s') = (b, if b then Some r else None) \/
     (sf_blocked s', sf_block_reason s') = (true, Some SESSION_LOCKED) /\ policy_locked (log s') = true)) s.
Proof.
  eapply wp_mono; [apply apply_lifecycle_ok|]. intros res s' (->&Hsame&Hsince&ok&Hlog&Hblock&Hrl).
  split; [done|]. split; [|split; [|split]].
  - split; [done|intros [_ Hl]; split; auto|]. rewrite Hlog. by destruct ok.
  - destruct Hsame. unfold idle_hold. by rewrite Hsince, sm_settings0, sm_idle0, sm_manual0, sm_uncertain0.
  - exists ((if ok then [] else [LLock true]) ++ [LApply b r (sp_privacy_mode (sf_world s)) ok]). split.
    + rewrite Hlog. by destruct ok.
    + destruct ok; repeat constructor; cbn; destruct b; try done; by eexists.
  - rewrite Hblock, Hlog. destruct ok; [by left|by right].
Qed.

(** A state of the same view whose log has grown by [new]. *)
Lemma calm_log s s' new :
  same s s' -> log s' = new ++ log s -> (sf_blocked s', sf_block_reason s') = (sf_blocked s, sf_block_reason s) ->
  Forall (fun c => c = LLock true \/ exists e d, c = LEmit e d) new -> calm s s' /\ grew (fun _ => False) s s'.
Proof.
  intros Hs Hl Hb Hn. split; [split; [done|unfold account_ok; rewrite Hl, Hb; intros [-> Hr]|rewrite Hl; intros Hp]|].
  - clear Hl. induction Hn as [|c new [->|(e&d&->)] _ [IH IHr]]; [done|..]; (split; [exact IH|by apply refusals_lock_cons]).
  - clear Hl. induction Hn as [|c new [->|(e&d&->)] _ IH]; done.
  - exists new. split; [done|]. eapply Forall_impl; [exact Hn|]. by intros c [->|(e&d&->)].
Qed.

Lemma emit_audit_calm control previous current source reason s :
  wp (emit_audit control previous current source reason)
    (fun res s' => res = Ok tt /\ calm s s' /\ grew (fun _ => False) s s') s.
Proof.
  unfold emit_audit, set_policy_locked. wp_steps. destruct (sf_has_audit s); cbn; wp_steps.
  2:{ split; [done|]. by apply (calm_log _ _ []). }
  apply wp_clock. intros t w. wp_steps.
  assert (Hfail : forall s1, calm s s1 /\ grew (fun _ => False) s s1 -> wp (apply_lifecycle true SESSION_LOCKED)
      (fun res s' => res = Ok tt /\ calm s s' /\ grew (fun _ => False) s s') s1).
  { intros s1 [Hc Hg]. eapply wp_mono; [apply apply_lifecycle_calm|]. intros res s' (->&Hc'&_&Hg'&_).
    split; [done|]. split; [by eapply calm_trans|]. eapply grew_trans; [exact Hg|].
    destruct Hg' as (new&Hn&Hf). exists new. split; [done|]. eapply Forall_impl; [exact Hf|]. naive_solver. }
  destruct (make_audit_event _) as [event|e]; wp_steps.
  2:{ apply Hfail, (calm_log _ _ [LLock true]); try done. repeat constructor. }
  unfold call. wp_steps. apply wp_of_run. intros [w' l'] res Hres. cbn in Hres.
  destruct (sp_emit event w) as [w2 x]. injection Hres as <- <- <-.
  destruct x as [[]|e]; wp_steps.
  - split; [done|]. apply (calm_log _ _ [LEmit event true]); try done. rewrite !Forall_cons, Forall_nil. eauto 10.
  - apply Hfail, (calm_log _ _ [LLock true; LEmit event false]); try done. rewrite !Forall_cons, Forall_nil. eauto 10.
Qed.

Lemma idle_blocked_ok s : settings_ok (sf_settings s) = true ->
  wp idle_blocked (fun res s' => res = Ok (idle_hold s') /\ calm s s' /\ log s' = log s /\
    sf_blocked s' = sf_blocked s /\ sf_block_reason s' = sf_block_reason s) s.
Proof.
  intros Hst. unfold idle_blocked. wp_steps.
  assert (Hsame : forall b, idle_hold s = b -> Ok b = Ok (idle_hold s) /\ calm s s /\ log s = log s /\
    sf_blocked s = sf_blocked s /\ sf_block_reason s = sf_block_reason s).
  { intros b <-. split; [done|]. split; [by split|done]. }
  pose proof (eq_refl (idle_hold s)) as Hh. unfold idle_hold at 2 in Hh.
  destruct (is_enabled _) eqn:He; cbn; wp_steps; [|by apply Hsame].
  destruct (is_pause_capture _) eqn:Hp; cbn; wp_steps; [|by apply Hsame]. cbn [andb] in Hh.
  case_bool_decide as Hi; wp_steps; [by apply Hsame|]. cbn [orb] in Hh.
  destruct (sf_idle_uncertain_latch s) eqn:Hu; wp_steps; [by apply Hsame|]. cbn [orb] in Hh.
  destruct (_ && sf_manual_idle_latch s) eqn:Hm; wp_steps; [by apply Hsame|]. cbn [orb] in Hh.
  destruct (sf_active_since_ns s) as [since|] eqn:Hs; wp_steps; [|apply Hsame; by rewrite Hh, andb_false_r].
  case_bool_decide as Hb; wp_steps; [|by apply Hsame].
  apply wp_monotonic. intros now w. wp_steps. unfold settings_ok in Hst. apply andb_true_iff in Hst as [_ Hg].
  destruct (int_of _) as [grace|]; [|done]. destruct (now - since <? grace); wp_steps; unfold idle_hold; cbn;
    rewrite ?He, ?Hp, ?Hu, ?Hm, ?Hs, ?(bool_decide_false _ Hi), ?andb_false_r; cbn.
  - rewrite bool_decide_true by done. split; [done|]. split; [by split|done].
  - split; [done|]. split; [by split|done].
Qed.

Lemma desired_ok s : settings_ok (sf_settings s) = true ->
  wp desired_block_reason (fun res s' => calm s s' /\ log s' = log s /\ sf_blocked s' = sf_blocked s /\
    sf_block_reason s' = sf_block_reason s /\
    ((lo_state (sf_lock s') ≠ UNLOCKED /\ res = Ok (Some SESSION_LOCKED)) \/
     (lo_state (sf_lock s') = UNLOCKED /\ res = Ok (if idle_hold s' then Some IDLE else None)))) s.
Proof.
  intros Hst. unfold desired_block_reason. wp_steps. case_bool_decide as Hl; cbn; wp_steps.
  - eapply wp_mono; [by apply idle_blocked_ok|]. intros res s' (->&Hc&?&?&?). wp_steps.
    repeat (split; [done|]). right. by rewrite (sm_lock _ _ (cm_same _ _ Hc)).
  - split; [by split|]. repeat (split; [done|]). by left.
Qed.

(** What a release needs. *)
Definition released (s : safety LW) (c : logged_call) : Prop :=
  exists reason ok, c = LApply false reason false ok /\ (reason = SESSION_UNLOCKED \/ reason = ACTIVE) /\
    lo_state (sf_lock s) = UNLOCKED /\ idle_hold s = false.

(** How a call to [_reconcile] ends. *)
Definition reconciled (s : safety LW) (res : result unit) (s' : safety LW) : Prop :=
  res = Ok tt /\ calm s s' /\ settled s' /\ grew (released s') s s'.

Lemma block_reconciled r s :
  (lo_state (sf_lock s) ≠ UNLOCKED /\ r = SESSION_LOCKED) \/
  (lo_state (sf_lock s) = UNLOCKED /\ idle_hold s = true /\ r = IDLE) ->
  wp (apply_lifecycle true r) (reconciled s) s.
Proof.
  intros Hr. eapply wp_mono; [apply apply_lifecycle_calm|]. intros res s2 (->&Hc2&Hh2&(new&Hn&Hnew)&Hb2).
  split; [done|]. split; [done|]. pose proof (sm_lock _ _ (cm_same _ _ Hc2)) as Hk2. split.
  - assert (sf_blocked s2 = true /\ (sf_block_reason s2 = Some r \/ sf_block_reason s2 = Some SESSION_LOCKED)) as [Hbl Hre].
    { destruct Hb2 as [[= -> ->]|[[= -> ->] _]]; auto. }
    split; rewrite ?Hk2, ?Hh2; destruct Hr as [[Hl ->]|(Hl&Hi&->)]; try congruence.
    + intros _. split; [done|]. by destruct Hre.
    + intros _. split; [done|]. right. by destruct Hre.
    + intros _. by split.
  - exists new. split; [done|]. eapply Forall_impl; [exact Hnew|]. cbn. intros c Hx Hrel. by destruct (Hx Hrel).
Qed.

Lemma release_reconciled r s :
  lo_state (sf_lock s) = UNLOCKED -> idle_hold s = false -> sp_privacy_mode (sf_world s) = false ->
  (r = SESSION_UNLOCKED \/ r = ACTIVE) -> wp (apply_lifecycle false r) (reconciled s) s.
Proof.
  intros Hl Hi Hpm Hr. eapply wp_mono; [apply apply_lifecycle_calm|]. intros res s2 (->&Hc2&Hh2&(new&Hn&Hnew)&Hb2).
  split; [done|]. split; [done|]. pose proof (sm_lock _ _ (cm_same _ _ Hc2)) as Hk2. split.
  - split; rewrite ?Hk2, ?Hh2; [congruence..|]. intros _ _ Hb. right.
    destruct Hb2 as [[= Hb' _]|[_ Hp]]; [congruence|done].
  - exists new. split; [done|]. eapply Forall_impl; [exact Hnew|]. cbn. intros c Hx Hrel.
    destruct (Hx Hrel) as (_&ok&->). exists r, ok. cbn in Hpm. by rewrite Hk2, Hh2, Hpm.
Qed.

Lemma stay_reconciled s s' : calm s s' -> log s' = log s -> settled s' -> reconciled s (Ok tt) s'.
Proof. intros Hc Hl Hs. split; [done|]. split; [done|]. split; [done|]. by apply grew_refl. Qed.

Lemma reconciled_trans s s1 res s2 : calm s s1 -> log s1 = log s -> reconciled s1 res s2 -> reconciled s res s2.
Proof.
  intros Hc Hl (->&Hc2&Hs2&Hg2). split; [done|]. split; [by eapply calm_trans|]. split; [done|].
  eapply grew_trans; [by apply grew_refl|done].
Qed.

Lemma account_after_false l r : account_after l = (false, r) -> r = None.
Proof. induction l as [|[b|[] r' p []|e d] l IH]; cbn; try done; by intros [= <-]. Qed.

Lemma reconcile_ok s :
  settings_ok (sf_settings s) = true -> account_ok s -> wp reconcile (reconciled s) s.
Proof.
  intros Hst Hblk. unfold reconcile. wp_steps. eapply wp_mono; [by apply desired_ok|].
  intros res s1 (Hc1&Hl1&Hb1&Hr1&Hd). pose proof (cm_block _ _ Hc1 Hblk) as Hblk1.
  assert (Hgo : forall b r, wp (apply_lifecycle b r) (reconciled s1) s1 -> wp (apply_lifecycle b r) (reconciled s) s1).
  { intros b r Hw. eapply wp_mono; [exact Hw|]. intros. by eapply reconciled_trans. }
  destruct Hd as [[Hlock ->]|[Hlock ->]]; wp_steps.
  - destruct (sf_blocked s1 && bool_decide (sf_block_reason s1 = Some SESSION_LOCKED)) eqn:Eb; wp_steps.
    + btauto_hyps. apply stay_reconciled; [done|done|]. split; [done|by auto|congruence].
    + apply Hgo, block_reconciled. by left.
  - destruct (idle_hold s1) eqn:Eh; wp_steps.
    + destruct (sf_blocked s1 && bool_decide (sf_block_reason s1 = Some IDLE)) eqn:Eb; wp_steps.
      * btauto_hyps. apply stay_reconciled; [done|done|]. split; [congruence|by auto|congruence].
      * apply Hgo, block_reconciled. by right.
    + destruct (sf_blocked s1) eqn:Eb; cbn; wp_steps.
      * destruct (sp_privacy_mode (sf_world s1).1) eqn:Epm; wp_steps.
        -- apply stay_reconciled; [done|done|]. split; [done|by rewrite Eh|by left].
        -- apply Hgo, release_reconciled; [done..|]. case_bool_decide; auto.
      * assert (calm s (set_block false None s1)) as Hc2.
        { eapply calm_trans; [exact Hc1|]. split; [by split| |done]. intros [Hb Hrl]. split; [|exact Hrl].
          change (log (set_block false None s1)) with (log s1). rewrite Eb in Hb. cbn.
          rewrite <- Hb. by rewrite (account_after_false _ _ (eq_sym Hb)). }
        apply stay_reconciled; [done|done|]. split; [done| |done].
        change (idle_hold (set_block false None s1)) with (idle_hold s1). by rewrite Eh.
Qed.

(** ** The operations *)

Definition good (s : safety LW) : Prop := safe_inv s /\ policy_safe s.
(** On the way from [s], nothing released yet. *)
Definition on_the_way (s s1 : safety LW) : Prop := good s1 /\ grew (fun _ => False) s s1.

(** How an operation ends. *)
Definition op_done (s : safety LW) (res : result unit) (s' : safety LW) : Prop :=
  res = Ok tt /\ good s' /\ settled s' /\ grew (released s') s s'.

Lemma way_refl s : good s -> on_the_way s s.
Proof. intros Hg. split; [done|by apply grew_refl]. Qed.

Lemma way_calm s s1 s2 : on_the_way s s1 -> calm s1 s2 -> grew (fun _ => False) s1 s2 -> on_the_way s s2.
Proof.
  intros [[] Hg] Hc Hg2. split; [|by eapply grew_trans]. split; [by eapply calm_inv|by eapply calm_policy].
Qed.

(** A change of the controller's own attributes. *)
Lemma way_attributes s s1 s2 :
  on_the_way s s1 -> log s2 = log s1 -> sf_lock s2 = sf_lock s1 ->
  (sf_blocked s2, sf_block_reason s2) = (sf_blocked s1, sf_block_reason s1) ->
  settings_ok (sf_settings s2) = true -> valid_idle (sf_idle s2) -> on_the_way s s2.
Proof.
  intros [[[] Hp] Hg] Hl Hk Hb Hst Hi. split; [split; [split|]|].
  - done.
  - by rewrite Hk.
  - done.
  - unfold account_ok. by rewrite Hb, Hl.
  - unfold policy_safe. by rewrite Hk, Hl.
  - destruct Hg as (new&Hn&Hf). exists new. by rewrite Hl.
Qed.

Lemma reconcile_done s s1 : on_the_way s s1 -> wp reconcile (op_done s) s1.
Proof.
  intros [[Hi Hp] Hg]. destruct Hi as [Hst Hlk Hid Hb]. eapply wp_mono; [by apply reconcile_ok|].
  intros res s' (->&Hc&Hs&Hg'). split; [done|]. split; [split|].
  - by eapply calm_inv; [|split].
  - by eapply calm_policy.
  - split; [done|by eapply grew_trans].
Qed.

(** The audit of a change, then [_reconcile]. *)
Lemma audit_done s s1 (unchanged : bool) control previous current source reason :
  on_the_way s s1 ->
  wp (if unchanged then mret tt else emit_audit control previous current source reason)
    (fun res s2 => match res with Ok _ => wp reconcile (op_done s) s2 | Raise e => op_done s (Raise e) s2 end) s1.
Proof.
  intros Hw. destruct unchanged; [by apply wp_ret, reconcile_done|].
  eapply wp_mono; [apply emit_audit_calm|]. intros res s2 (->&Hc&Hg). by eapply reconcile_done, way_calm.
Qed.

(** An observation that is kept as unlocked is recent. *)
Lemma normalize_lock_ok o s : is_ok (make_lock_observation o) = true ->
  wp (normalize_lock o) (fun res s' => exists n w, res = Ok n /\ s' = set_world (w, log s) s /\
    is_ok (make_lock_observation n) = true /\
    (lo_state n = UNLOCKED -> n = o)) s.
Proof.
  intros Ho. unfold normalize_lock. wp_steps. apply wp_clock. intros now w. wp_steps.
  destruct (flt _ FUTURE_TOLERANCE); wp_steps.
  { destruct (unknown_lock_ok now o MALFORMED Ho) as [-> Hn]. eexists _, w. split; [done|]. split; [done|]. by rewrite Hn. }
  destruct (_ && _); wp_steps; [|by exists o, w].
  destruct (unknown_lock_ok now o STALE Ho) as [-> Hn]. eexists _, w. split; [done|]. split; [done|]. by rewrite Hn.
Qed.

Lemma apply_lock_done o s : is_ok (make_lock_observation o) = true -> good s -> wp (apply_lock o) (op_done s) s.
Proof.
  intros Ho [[] Hp]. unfold apply_lock. apply wp_bind. eapply wp_mono; [by apply normalize_lock_ok|].
  intros res s1 (n&w&->&->&Hn&_). unfold accept_lock. wp_steps. apply wp_monotonic. intros t w2. wp_steps.
  assert (Hway : forall s2, sf_settings s2 = sf_settings s -> sf_lock s2 = n -> sf_idle s2 = sf_idle s ->
    (sf_blocked s2, sf_block_reason s2) = (sf_blocked s, sf_block_reason s) ->
    log s2 = LLock (negb (bool_decide (lo_state n = UNLOCKED))) :: log s -> on_the_way s s2).
  { intros s2 E1 E2 E3 E4 E5. split; [split; [split|]|].
    - congruence.
    - congruence.
    - congruence.
    - match goal with H : account_ok s |- _ => destruct H as [Hb Hrl] end. unfold account_ok. rewrite E4, E5.
      split; [exact Hb|by apply refusals_lock_cons].
    - unfold policy_safe. rewrite E2, E5. cbn. case_bool_decide; auto.
    - eexists [_]. rewrite E5. split; [done|by repeat constructor]. }
  unfold set_policy_locked. destruct (lo_failure_code n); wp_steps.
  all: by apply audit_done, Hway.
Qed.

(** The latches are the controller's own. *)
Lemma latches_way previous current s s1 :
  on_the_way s s1 ->
  wp (update_resume_latches previous current) (fun res s2 => res = Ok tt /\ on_the_way s s2) s1.
Proof.
  intros Hw. pose proof Hw as [[[] _] _]. unfold update_resume_latches. wp_steps.
  assert (Hgo : forall s2, log s2 = log s1 -> sf_lock s2 = sf_lock s1 -> sf_settings s2 = sf_settings s1 ->
    sf_idle s2 = sf_idle s1 -> (sf_blocked s2, sf_block_reason s2) = (sf_blocked s1, sf_block_reason s1) ->
    Ok tt = Ok tt /\ on_the_way s s2).
  { intros s2 E1 E2 E3 E4 E5. split; [done|]. apply (way_attributes s s1); try done; congruence. }
  destruct (io_state current); wp_steps; [by apply Hgo| |].
  - case_bool_decide; cbn; wp_steps; [|by apply Hgo]. destruct (is_resume_behavior _); wp_steps; [by apply Hgo| |by apply Hgo].
    apply wp_monotonic. intros t w. wp_steps. by apply Hgo.
  - destruct (_ && _); wp_steps; by apply Hgo.
Qed.

Lemma resolve_idle_way os s s1 : Forall valid_idle os -> on_the_way s s1 ->
  wp (resolve_idle os) (fun res s2 => exists o c, res = Ok (o, c) /\ valid_idle o /\ on_the_way s s2) s1.
Proof.
  intros Hv Hw. pose proof Hw as [[[] _] _]. unfold resolve_idle. wp_steps. apply wp_clock. intros now w. wp_steps.
  assert (on_the_way s (set_world (w, log s1) s1)) as Hw2 by by apply (way_attributes s s1).
  destruct (decide (os = [])) as [->|Hne].
  - eexists _, _. split; [reflexivity|]. by split.
  - destruct (resolve_idle_ok os (sf_settings s1) (sf_source_order s1) now Hne Hv) as (o&c&->&Hr).
    exists o, c. split; [done|]. split; [apply Hr|done].
Qed.

Lemma apply_idle_done os s : Forall valid_idle os -> good s -> wp (apply_idle os) (op_done s) s.
Proof.
  intros Hv Hg. unfold apply_idle. wp_steps. eapply wp_mono; [by apply resolve_idle_way, way_refl|].
  intros res s1 (o&c&->&Ho&Hw). pose proof Hw as [[[] _] _]. wp_steps.
  assert (Hset : forall s2, log s2 = log s1 -> sf_lock s2 = sf_lock s1 -> sf_settings s2 = sf_settings s1 ->
    sf_idle s2 = o -> (sf_blocked s2, sf_block_reason s2) = (sf_blocked s1, sf_block_reason s1) -> on_the_way s s2).
  { intros s2 E1 E2 E3 E4 E5. apply (way_attributes s s1); try done; congruence. }
  unfold note_conflict. destruct (io_failure_code o), c; wp_steps.
  all: eapply wp_mono; [by apply latches_way, Hset|]; intros r s3 (->&Hw3); by apply wp_bind, audit_done.
Qed.

Lemma replace_settings_done st s : settings_ok st = true -> good s -> wp (replace_idle_settings st) (op_done s) s.
Proof.
  intros Hst Hg. pose proof (way_refl s Hg) as Hw. destruct Hg as [[] _]. unfold replace_idle_settings. wp_steps.
  assert (Hw1 : on_the_way s (set_settings st s)) by by apply (way_attributes s s).
  destruct (io_idle_seconds (sf_idle s)); wp_steps; [|by apply reconcile_done].
  eapply wp_mono; [apply resolve_idle_way; [|exact Hw1]; by repeat constructor|]. intros res s1 (o&c&->&Ho&Hw2). wp_steps.
  pose proof Hw2 as [[[] _] _].
  assert (Hset : forall s2, log s2 = log s1 -> sf_lock s2 = sf_lock s1 -> sf_settings s2 = sf_settings s1 ->
    sf_idle s2 = o -> (sf_blocked s2, sf_block_reason s2) = (sf_blocked s1, sf_block_reason s1) -> on_the_way s s2).
  { intros s2 E1 E2 E3 E4 E5. apply (way_attributes s s1); try done; congruence. }
  unfold note_conflict. destruct c; wp_steps; (eapply wp_mono; [by apply latches_way, Hset|]); intros r s3 (->&Hw3);
    by apply reconcile_done.
Qed.

Lemma refresh_done s : good s -> wp refresh (op_done s) s.
Proof.
  intros Hg. pose proof (way_refl s Hg) as Hw. destruct Hg as [[] Hp]. unfold refresh. wp_steps.
  case_bool_decide; wp_steps; [|by apply reconcile_done]. apply wp_monotonic. intros t w. wp_steps.
  destruct (_ <? _); wp_steps; [|by apply reconcile_done, (way_attributes s s)].
  unfold expire_lock. wp_steps. apply wp_clock. intros now w2. wp_steps.
  destruct (unknown_lock_ok now (sf_lock s) STALE) as [-> Hn]; [done|]. unfold set_policy_locked. wp_steps.
  apply (audit_done s _ false). split; [split; [split|]|].
  - done.
  - cbn. by rewrite Hn.
  - done.
  - match goal with H : account_ok s |- _ => destruct H as [Hb Hrl] end. split; [exact Hb|by apply refusals_lock_cons].
  - by right.
  - eexists [_]. split; [done|by repeat constructor].
Qed.

Lemma run_op_done op s : op_ok op = true -> good s -> wp (run_safety_op op) (op_done s) s.
Proof.
  intros Hop Hg. destruct op as [o|os|st| |]; cbn in *.
  - by apply apply_lock_done.
  - apply apply_idle_done; [|done]. apply Is_true_true, forallb_True in Hop.
    eapply Forall_impl; [exact Hop|]. intros o Ho. by apply Is_true_true.
  - by apply replace_settings_done.
  - unfold acknowledge_idle_resume. wp_steps. apply reconcile_done. destruct Hg as [[] Hp].
    by apply (way_attributes s s); [apply way_refl; split; [split|]|..].
  - by apply refresh_done.
Qed.

Definition safety_step (s : safety LW) (op : safety_op) (s' : safety LW) : Prop :=
  op_ok op = true /\ (run_safety_op op s).1 = s'.

Lemma make_safety_good st order audit ttl w s :
  settings_ok st = true -> make_safety st order audit ttl (w, []) = Ok s ->
  good s /\ lo_state (sf_lock s) = LOCK_UNKNOWN /\ log s = [LLock true].
Proof.
  intros Hst Hm. unfold make_safety in Hm. ok_steps. cbn in Hm. destruct (sp_now w) as [t w1]. ok_steps.
  cbn in Hm. destruct (sp_monotonic_ns w1) as [n w2]. injection Hm as <-.
  match goal with E : unknown_lock _ _ _ _ = Ok _ |- _ => injection E as <- end.
  match goal with E : unknown_idle _ _ _ _ = Ok _ |- _ => injection E as <- end.
  split; [split; [by split|by right]|done].
Qed.

Lemma history_good s ops s' : good s -> steps safety_step s ops s' -> good s'.
Proof.
  intros Hg Hs. eapply (steps_invariant safety_step good); [|done|done].
  intros a l b [Hop <-] Ha. by apply (wp_elim _ _ _ (run_op_done l a Hop Ha)).
Qed.

(** C32 (controller_fails_closed): Whatever observations a controller is given,
    in whatever order and however its collaborators answer (rejecting,
    raising, failing to audit), every operation returns normally and ends with
    the policy told that the session is locked unless it is known to be
    unlocked.  When the last call to the lifecycle was accepted, the
    controller's account of the block is the block in force there, and while
    the session is not unlocked, or idleness holds, that is a block for it.
    When the last call was refused or failed, the lifecycle may be unblocked:
    then the policy was told at once that the session is locked, and the
    controller counts itself blocked for it.  A block is kept without a cause
    only in privacy mode or while the policy is locked. *)
Theorem controller_fails_closed st order audit ttl w s0 ops s op s' :
  settings_ok st = true -> make_safety st order audit ttl (w, []) = Ok s0 ->
  steps safety_step s0 ops s -> safety_step s op s' ->
  (run_safety_op op s).2 = Ok tt /\
  (lo_state (sf_lock s') <> UNLOCKED -> policy_locked (log s') = true) /\
  (refused (log s') = false ->
     (sf_blocked s', sf_block_reason s') = in_force (log s') /\
     (lo_state (sf_lock s') <> UNLOCKED -> in_force (log s') = (true, Some SESSION_LOCKED)) /\
     (idle_hold s' = true -> exists r, in_force (log s') = (true, Some r) /\ (r = IDLE \/ r = SESSION_LOCKED))) /\
  (refused (log s') = true -> sf_blocked s' = true /\ sf_block_reason s' = Some SESSION_LOCKED) /\
  refusals_lock (log s') = true /\
  (lo_state (sf_lock s') = UNLOCKED -> idle_hold s' = false -> sf_blocked s' = true ->
     sp_privacy_mode (sf_world s') = true \/ policy_locked (log s') = true).
Proof.
  intros Hst Hm Hs [Hop <-]. destruct (make_safety_good _ _ _ _ _ _ Hst Hm) as [Hg _].
  destruct (wp_elim _ _ _ (run_op_done op s Hop (history_good _ _ _ Hg Hs))) as (Hr&[[_ _ _ [Hb Hrl]] Hp]&[Hlk Hid Hrel]&_).
  split; [done|]. split; [intros Hl; by destruct Hp|]. split; [|split; [|by split]].
  - intros Hf. rewrite (account_in_force _ Hf) in Hb. split; [done|]. rewrite <- Hb. split.
    + intros Hl. by destruct (Hlk Hl) as [-> ->].
    + intros Hi. destruct (Hid Hi) as [-> [->| ->]]; eauto.
  - intros Hf. rewrite (account_refused _ Hf) in Hb. by injection Hb.
Qed.

(** C33 (release_is_safe): The lifecycle is told to release a block only by an
    operation that leaves the session unlocked, not idle, with no resume latch
    or grace period running, and while privacy mode is off. *)
Theorem release_is_safe st order audit ttl w s0 ops s op s' :
  settings_ok st = true -> make_safety st order audit ttl (w, []) = Ok s0 ->
  steps safety_step s0 ops s -> safety_step s op s' ->
  exists new, log s' = new ++ log s /\ forall reason privacy ok, LApply false reason privacy ok ∈ new ->
    privacy = false /\ (reason = SESSION_UNLOCKED \/ reason = ACTIVE) /\
    lo_state (sf_lock s') = UNLOCKED /\ idle_hold s' = false.
Proof.
  intros Hst Hm Hs [Hop <-]. destruct (make_safety_good _ _ _ _ _ _ Hst Hm) as [Hg _].
  destruct (wp_elim _ _ _ (run_op_done op s Hop (history_good _ _ _ Hg Hs))) as (_&_&_&new&Hn&Hf).
  exists new. split; [done|]. intros reason privacy ok Hin. rewrite Forall_forall in Hf.
  destruct (Hf _ Hin I) as (r&ok'&E&?&?&?). by injection E as -> -> _.
Qed.

(** *** Unlocking the policy *)

Definition is_unlock (c : logged_call) : bool := match c with LLock false => true | _ => false end.
Definition unlocks (l : list logged_call) : nat := length (filter (fun c => is_unlock c = true) l).

Section Unlocks.
Variable k : nat.
Local Abbreviation times := (on_its_world (fun w : LW => unlocks w.2 = k)).

Lemma times_ports :
  (forall w : LW, unlocks w.2 = k -> unlocks (sp_now w).2.2 = k) /\
  (forall w : LW, unlocks w.2 = k -> unlocks (sp_monotonic_ns w).2.2 = k) /\
  (forall b r (w : LW), unlocks w.2 = k -> unlocks (sp_apply b r w).1.2 = k) /\
  (forall e (w : LW), unlocks w.2 = k -> unlocks (sp_emit e w).1.2 = k).
Proof.
  split_and!; intros; cbn; repeat match goal with |- context [let (_, _) := ?p in _] => destruct p end; done.
Qed.

Lemma times_accept_lock n : lo_state n ≠ UNLOCKED -> preserves times (accept_lock n).
Proof. intros Hn. destruct times_ports as (?&?&?&?). apply (world_accept_lock _ False); auto. done. Qed.

Lemma times_op op : (forall o, op ≠ OpLock o) -> preserves times (run_safety_op op).
Proof. intros Hop. destruct times_ports as (?&?&?&?). apply (world_op _ False); auto. done. Qed.
End Unlocks.

(** [o] says unlocked, and is neither from the future nor older than the
    time to live. *)
Definition fresh_unlock (o : LockObservation) (s : safety LW) : Prop :=
  let age := seconds_between (sp_now (sf_world s).1).1 (lo_observed_at o) in
  lo_state o = UNLOCKED /\ flt age FUTURE_TOLERANCE = false /\
  flt (fdiv (float_of (sf_ttl_ns s)) (float_of 1000000000)) age = false.

Lemma normalize_lock_fresh o s :
  wp (normalize_lock o) (fun res s' => log s' = log s /\ forall n, res = Ok n -> lo_state n = UNLOCKED -> fresh_unlock o s) s.
Proof.
  unfold normalize_lock, clock_now, query, fresh_unlock. apply wp_bind, wp_of_run. intros s1 res. cbn.
  destruct (sp_now (sf_world s).1) as [now w]. intros [= <- <-]. wp_steps.
  destruct (flt _ FUTURE_TOLERANCE) eqn:E1; wp_steps.
  { split; [done|]. intros n Hn. by apply make_lock_ok in Hn as ->. }
  destruct (_ && _) eqn:E2; wp_steps; (split; [done|]); intros n Hn.
  - by apply make_lock_ok in Hn as ->.
  - injection Hn as <-. intros Hu. rewrite bool_decide_true in E2 by done. done.
Qed.

(** [unlock_is_fresh]: The policy engine is told that the session is
    unlocked only while a lock observation is processed that says so and is
    at most two seconds in the future and no older than the time to live. *)
Theorem unlock_is_fresh op s :
  let s' := (run_safety_op op s).1 in
  unlocks (log s') = unlocks (log s) \/ exists o, op = OpLock o /\ fresh_unlock o s.
Proof.
  cbv zeta. pose (Q := fun s' : safety LW => unlocks (log s') = unlocks (log s) \/
    exists o, op = OpLock o /\ fresh_unlock o s).
  assert (Hsame : forall s1 s2, log s1 = log s -> on_its_world (fun w => unlocks w.2 = unlocks (log s1)) s2 -> Q s2).
  { intros s1 s2 Hl Hu. left. unfold on_its_world in Hu. unfold log in *. by rewrite Hu, Hl. }
  assert ((exists o, op = OpLock o) \/ forall o, op ≠ OpLock o) as [[o ->]|Hop] by (destruct op; naive_solver).
  2:{ fold (Q (run_safety_op op s).1). eapply (Hsame s); [done|]. by apply (wp_elim _ _ _ (times_op _ op Hop s eq_refl)). }
  apply (wp_elim _ (fun _ => Q)). cbn [run_safety_op]. unfold apply_lock. apply wp_bind.
  eapply wp_mono; [apply normalize_lock_fresh|]. intros res s1 [Hl Hf]. destruct res as [n|e]; [|by left; rewrite Hl].
  destruct (decide (lo_state n = UNLOCKED)) as [Hu|Hu].
  - apply wp_of_run. intros s2 r _. right. exists o. split; [done|]. by eapply Hf.
  - eapply wp_mono; [by apply (times_accept_lock (unlocks (log s1)) n Hu s1)|]. intros r s2. by apply Hsame.
Qed.
End Controller.
