(* ===== verification/SafetyProps.v ===== *)
(** * SafetyProps: the session-safety controller in its place.

    The controller over the real policy engine and the real lifecycle actor,
    with other clients interleaved ([system]); the preflight; and runs of the
    controller on concrete collaborators. *)

From S2P Require Import Prelude PyStr PyFloat Gate GateFacts Lifecycle LifecycleFacts LifecycleProps.
From S2P Require Import Policy PolicyFacts PolicyProps Safety SafetyFacts.

(** ** The composed system *)

Section System.
Context {pattern zone : Type}.
Variable ip_compressed : pystr -> option pystr.
Variable re_compile : pystr -> result pattern.
Variable re_search : pattern -> pystr -> bool.
Variable zone_info : pystr -> result zone.
Variable zone_offset : zone -> Z -> Z.
Variable rule_digest : CaptureRule -> pystr.

Context {L : Type} `{LifecyclePorts L}.
Variables (me preflight_timeout stop_timeout : Z).
(** The clock and the audit sink. *)
Context {X : Type}.
Variable clock : X -> datetime * X.
Variable monotonic : X -> Z * X.
Variable audit : SessionSafetyAuditEvent -> M X unit.

Local Abbreviation engine := (engine (pattern := pattern) (zone := zone)).

Record system := mk_system { sy_engine : engine; sy_actor : actor L; sy_rest : X }.
Definition put_engine (e : engine) (s : system) : system := mk_system e (sy_actor s) (sy_rest s).
Definition put_actor (a : actor L) (s : system) : system := mk_system (sy_engine s) a (sy_rest s).
Definition put_rest (x : X) (s : system) : system := mk_system (sy_engine s) (sy_actor s) x.

(** [LifecycleAutomaticCaptureBlockSink.apply]: the answer to a
    [SetAutomaticCaptureBlock]. *)
Definition ask_block (blocked : bool) (reason : TransitionReason) : M (actor L) LifecycleCommandResult :=
  answer ← on_receive me preflight_timeout stop_timeout (SetAutomaticCaptureBlock blocked reason);
  match answer with ReplyCommand r => mret r | ReplySnapshot _ => raise TypeError end.
#[local] Arguments ask_block : simpl never.

#[local] Instance system_ports : SafetyPorts system := {|
  sp_now := fun s => let (t, x) := clock (sy_rest s) in (t, put_rest x s);
  sp_monotonic_ns := fun s => let (t, x) := monotonic (sy_rest s) in (t, put_rest x s);
  sp_set_session_locked := fun b s => put_engine (set_session_locked b (sy_engine s)) s;
  sp_privacy_mode := fun s => e_privacy_mode (sy_engine s);
  sp_apply := fun b r => zoom sy_actor put_actor (ask_block b r);
  sp_emit := fun e => zoom sy_rest put_rest (audit e) |}.

Local Abbreviation LS := (system * list logged_call)%type.
Local Abbreviation run_engine_op := (run_engine_op ip_compressed re_compile re_search zone_info zone_offset rule_digest).

(** What may happen: an operation of the controller, a message to the actor
    from another client, another call on the policy engine. *)
Inductive system_event :=
  | Controller (op : safety_op)
  | Inbox (m : message)
  | Engine (op : engine_op).

Definition event_ok (ev : system_event) : Prop :=
  match ev with
  | Controller op => op_ok op = true
  | Inbox m => releases_block m = false
  | Engine op => match op with ELock _ => False | _ => True end
  end.

Definition on_system (f : system -> system) (s : safety LS) : safety LS :=
  set_world (f (sf_world s).1, log s) s.

Definition run_event (ev : system_event) (s : safety LS) : safety LS :=
  match ev with
  | Controller op => (run_safety_op op s).1
  | Inbox m => on_system (fun y => put_actor (on_receive me preflight_timeout stop_timeout m (sy_actor y)).1 y) s
  | Engine op => on_system (fun y => put_engine (run_engine_op op (sy_engine y)) y) s
  end.
Definition system_step (s : safety LS) (ev : system_event) (s' : safety LS) : Prop :=
  event_ok ev /\ run_event ev s = s'.

(** The last instruction to the lifecycle. *)
Fixpoint last_instruction (l : list logged_call) : option bool :=
  match l with
  | [] => None
  | LApply b _ _ _ :: _ => Some b
  | _ :: l' => last_instruction l'
  end.

(** The engine and the actor are as the log says. *)
Record linked (w : LS) : Prop := {
  lk_engine : e_session_locked (sy_engine w.1) = policy_locked w.2;
  lk_actor : actor_inv me (sy_actor w.1);
  lk_block : last_instruction w.2 = Some true -> blocked_state (abs (sy_actor w.1)) }.

Lemma locked_flag b (e : engine) : e_session_locked (set_session_locked b e) = b.
Proof. unfold set_session_locked. destruct (eqb _ _) eqn:E; [by apply eqb_prop in E|]. by destruct b. Qed.

Lemma ask_block_actor b r a : actor_inv me a ->
  actor_inv me (ask_block b r a).1 /\ (b = true -> blocked_state (abs (ask_block b r a).1)).
Proof.
  intros Ha. set (a' := (ask_block b r a).1).
  assert (receives me preflight_timeout stop_timeout a (SetAutomaticCaptureBlock b r) a') as Hr.
  { unfold a', ask_block, receives, mbind, M_bind. destruct (on_receive _ _ _ _ a) as [a1 [[|]|]]; done. }
  destruct (receives_outcome _ _ _ _ _ _ Hr Ha) as [Ha' Hin]. split; [done|]. intros ->.
  apply block_latches in Hin. split; [done|]. by apply (proj2 Ha').
Qed.

Lemma linked_ports :
  (forall w : LS, linked w -> linked (sp_now w).2) /\
  (forall w : LS, linked w -> linked (sp_monotonic_ns w).2) /\
  (forall b (w : LS), linked w -> linked (sp_set_session_locked b w)) /\
  (forall b r (w : LS), linked w -> linked (sp_apply b r w).1) /\
  (forall e (w : LS), linked w -> linked (sp_emit e w).1).
Proof.
  split_and!; intros; cbn.
  - destruct H0, (clock _). by split.
  - destruct H0, (monotonic _). by split.
  - destruct H0. split; [apply locked_flag|done..].
  - destruct H0 as [He Ha Hb]. unfold zoom. destruct (ask_block_actor b r _ Ha) as [Ha' Hb'].
    destruct (ask_block b r _) as [a' res]. cbn in *. split; [exact He|exact Ha'|].
    intros [= ->]. by apply Hb'.
  - destruct H0. unfold zoom. destruct (audit _ _). by split.
Qed.

Lemma linked_controller op s :
  linked (sf_world s) -> linked (sf_world (run_safety_op op s).1).
Proof.
  intros Hl. destruct linked_ports as (H1&H2&H3&H4&H5).
  apply (wp_elim (run_safety_op op) (fun _ s' => linked (sf_world s')) s).
  exact (world_op linked True H1 H2 (H3 true) (fun _ => H3 false) H4 H5 op (or_intror I) s Hl).
Qed.

Lemma engine_op_flag op (e : engine) :
  match op with ELock _ => False | _ => True end -> e_session_locked (run_engine_op op e) = e_session_locked e.
Proof.
  intros Hop. destruct op as [op ph c|b|b|scope c ttl|[s|]|k rev]; cbn; try done.
  - change (e_session_locked (snapshot_engine (pc_evaluated_at c) e) = e_session_locked e).
    unfold snapshot_engine. by case_bool_decide.
  - unfold set_privacy_mode. destruct (eqb _ _); [done|]. by destruct b.
  - unfold mark_current_sensitive, require, mbind, M_bind. destruct (_ && _); [|done].
    by destruct (sensitive_scope_value _ _).
  - unfold clear_temporary_sensitive. by case_bool_decide.
  - unfold clear_temporary_sensitive. by destruct (e_temporary e).
  - unfold Policy.replace_policy, lift, mbind, M_bind. destruct (require_nonempty rev); [|done].
    by destruct (result_bind _ _ _ _) as [[rules tz]|].
Qed.

Lemma linked_event ev s s' :
  system_step s ev s' -> good s /\ linked (sf_world s) -> good s' /\ linked (sf_world s').
Proof.
  intros [Hok <-] [Hg Hl]. destruct ev as [op|m|op]; cbn in *.
  - split; [|by apply linked_controller]. by apply (wp_elim _ _ _ (run_op_done op s Hok Hg)).
  - split; [destruct Hg as [[] Hp]; by split|]. destruct Hl as [He Ha Hb].
    destruct (receives_outcome me preflight_timeout stop_timeout (sy_actor (sf_world s).1) m _ eq_refl Ha) as [Ha' Hin].
    split; [done..|]. intros Hi. by eapply blocked_state_kept; [|apply Hb|].
  - split; [destruct Hg as [[] Hp]; by split|]. destruct Hl as [He Ha Hb].
    split; [|done..]. cbn. by rewrite engine_op_flag.
Qed.

(** A locked engine runs no capture. *)
Lemma locked_boundary {A} c (action : M system A) (y : system) :
  e_session_locked (sy_engine y) = true ->
  exists x, boundary_capture ip_compressed re_search zone_offset sy_engine put_engine c action y =
    (put_engine (snapshot_engine (pc_evaluated_at c) (sy_engine y)) y, Raise x).
Proof.
  intros Hl. unfold boundary_capture, on_engine, zoom, Policy.authorize, Policy.evaluate, modify, gets, lift, mbind, M_bind.
  set (e1 := snapshot_engine _ _).
  assert (e_session_locked e1 = true) as Hl1 by (unfold e1, snapshot_engine; by case_bool_decide).
  assert (match evaluate_snapshot ip_compressed re_search zone_offset e1 SCREENSHOT PRE_CAPTURE c with
          | Ok d => pd_allowed d = false | Raise _ => True end) as Hd.
  { unfold evaluate_snapshot, deny, decide_as, make_decision. rewrite Hl1.
    destruct (negb (e_healthy e1)), (e_privacy_mode e1); cbn;
      repeat match goal with |- context [require_nonempty ?x] => destruct (require_nonempty x); cbn; [|done] end;
      by destruct (_ <=? 0). }
  destruct (evaluate_snapshot _ _ _ e1 _ _ _) as [d|x]; [|by exists x]. rewrite Hd. cbn. by eexists.
Qed.

Lemma make_linked st order has_audit ttl e a x s0 :
  actor_inv me a -> make_safety st order has_audit ttl (mk_system e a x, []) = Ok s0 -> linked (sf_world s0).
Proof.
  intros Ha Hm. unfold make_safety in Hm. ok_steps. cbn in Hm. destruct (clock x) as [t y1]. ok_steps.
  cbn in Hm. destruct (monotonic y1) as [n y2]. injection Hm as <-. split; [apply locked_flag|done|done].
Qed.

(** C34 (locked_session_is_quiet): In the whole system, with other clients
    sending the lifecycle actor any messages but releases and calling the
    policy engine in any way but its lock: after an operation of the
    controller, and as long as the session is not known to be unlocked, the
    capture boundary runs no capture action and no authorization is current;
    and once the lifecycle has been told to block, and not told to release
    since, the actor is not recording. *)
Theorem locked_session_is_quiet st order has_audit ttl e a x s0 evs s :
  settings_ok st = true -> actor_inv me a ->
  make_safety st order has_audit ttl (mk_system e a x, []) = Ok s0 ->
  steps system_step s0 evs s ->
  let y := (sf_world s).1 in
  (lo_state (sf_lock s) ≠ UNLOCKED ->
    (forall A c (action : M system A), exists y' err,
       boundary_capture ip_compressed re_search zone_offset sy_engine put_engine c action y = (y', Raise err) /\
       sy_actor y' = sy_actor y /\ sy_rest y' = sy_rest y) /\
    (forall auth g, is_authorization_current auth g (sy_engine y) = false)) /\
  (last_instruction (log s) = Some true -> g_state (a_gate (sy_actor y)) ≠ RECORDING).
Proof.
  intros Hst Ha Hm Hs y. destruct (make_safety_good _ _ _ _ _ _ Hst Hm) as [Hg0 [Hk0 Hl0]].
  assert (good s /\ linked (sf_world s)) as [[_ Hp] [He _ Hb]].
  { eapply (steps_invariant system_step (fun s => good s /\ linked (sf_world s))); [|exact Hs|].
    - intros s1 ev s2 Hstep. exact (linked_event ev s1 s2 Hstep).
    - split; [done|]. by eapply make_linked. }
  split; [|intros Hi; by apply (Hb Hi)]. intros Hlock. destruct Hp as [Hp|Hp]; [done|].
  unfold log in Hp. rewrite <- He in Hp. split.
  - intros A c action. destruct (locked_boundary c action y Hp) as [err Herr]. eexists _, err. by split.
  - intros auth g. unfold is_authorization_current. subst y. by rewrite Hp, orb_true_r.
Qed.
End System.

(** ** The preflight *)

Section Preflight.
Context {W : Type} `{PreflightPorts W}.
Variables (settings : IdleSettings) (order : list pystr).
Local Abbreviation check := (check settings order).

Lemma fallback_unknown x w w' lock : lock_or_unknown (Raise x) w = (w', Ok lock) -> lo_state lock = LOCK_UNKNOWN.
Proof.
  unfold lock_or_unknown, preflight_now, lift, mbind, M_bind. destruct (pp_now w).
  destruct (unknown_lock _ _ _ _) eqn:Hu; [|done]. apply make_lock_ok in Hu as ->. by intros [= _ <-].
Qed.

(** An unlocked observation comes from the lock source itself. *)
Lemma observed_unlocked request w w1 lock idles :
  observe_all request w = (w1, Ok (lock, idles)) -> lo_state lock = UNLOCKED ->
  exists w0 outcomes, pp_observe (pr_generation request) (pr_deadline_monotonic_ns request) w =
    (w0, Ok (Ok lock, outcomes)).
Proof.
  intros Hrun Hu. assert (Hno : forall x w2 w3 lock', lock_or_unknown (Raise x) w2 = (w3, Ok lock') -> lock' ≠ lock).
  { intros x w2 w3 lock' Hf ->. apply fallback_unknown in Hf. congruence. }
  assert (Hlast : forall w2, (lock0 ← lock_or_unknown (Raise RuntimeError); mret (lock0, [])) w2 ≠ (w1, Ok (lock, idles))).
  { intros w2. unfold mbind, M_bind. destruct (lock_or_unknown (Raise RuntimeError) w2) as [w3 [l|x]] eqn:Hf; [|done].
    intros [= _ <- _]. by eapply Hno. }
  revert Hrun. unfold observe_all, require, try_except, collect. unfold mbind at 1, M_bind at 1.
  destruct (negb _); [|done]. unfold mbind at 1, M_bind at 1.
  destruct (pp_observe _ _ w) as [w0 [[out outs]|x]]; [|by intros Hr; destruct (Hlast w0)]. cbn [fst snd].
  unfold mbind at 1, M_bind at 1. destruct (lock_or_unknown out w0) as [w2 [l|x]] eqn:Hl; [|by intros Hr; destruct (Hlast w2)].
  unfold mbind at 1, M_bind at 1. destruct (idle_or_unknown _ outs w2) as [w3 [os|x]]; [|by intros Hr; destruct (Hlast w3)].
  intros [= _ -> _]. destruct out as [o|x]; [|by destruct (Hno _ _ _ _ Hl)]. injection Hl as _ ->. by eexists _, _.
Qed.

Lemma check_run request w w1 lock idles :
  observe_all request w = (w1, Ok (lock, idles)) ->
  let unlocked := bool_decide (lo_state lock = UNLOCKED) in
  check request w =
    let (w2, base) := pp_base_check request (pp_set_session_locked (negb unlocked) w1) in
    match base with
    | Raise e => (w2, Raise e)
    | Ok p =>
        (if negb (pf_ready p) then mret p
         else if negb unlocked then lift (start_paused SESSION_LOCKED)
         else if is_enabled settings && is_pause_capture settings
         then
           now ← preflight_now;
           resolved ← lift (resolve_idle_observations idles settings order now);
           if bool_decide (io_state resolved.1 = IDLE_IDLE) then lift (start_paused IDLE) else mret p
         else mret p) w2
    end.
Proof. intros Hobs unlocked. unfold Safety.check. unfold mbind at 1, M_bind at 1. by rewrite Hobs. Qed.

(** [preflight_guards_start]: A start that the preflight lets go straight
    into recording has an observation of the lock source itself saying
    unlocked, the base checks' consent, and, when idleness pauses capture, no
    idle user; without that observation the policy is told that the session
    is locked before the base checks run, and a start they allow begins
    paused. *)
Theorem preflight_guards_start request w w1 lock idles :
  observe_all request w = (w1, Ok (lock, idles)) ->
  let unlocked := bool_decide (lo_state lock = UNLOCKED) in
  let (w2, base) := pp_base_check request (pp_set_session_locked (negb unlocked) w1) in
  match base with
  | Raise e => check request w = (w2, Raise e)
  | Ok p =>
      if negb (pf_ready p) then check request w = (w2, Ok p)
      else if unlocked
      then
        (exists w0 outcomes, pp_observe (pr_generation request) (pr_deadline_monotonic_ns request) w =
           (w0, Ok (Ok lock, outcomes))) /\
        forall w' p', check request w = (w', Ok p') -> pf_start_paused_reason p' = None ->
          p' = p /\
          (is_enabled settings && is_pause_capture settings = true ->
           exists now o conflict, resolve_idle_observations idles settings order now = Ok (o, conflict) /\
             io_state o ≠ IDLE_IDLE)
      else check request w =
        (w2, Ok {| pf_ready := true; pf_fault_code := None; pf_start_paused_reason := Some SESSION_LOCKED |})
  end.
Proof.
  intros Hobs unlocked. rewrite (check_run _ _ _ _ _ Hobs). fold unlocked.
  destruct (pp_base_check request _) as [w2 [p|e]]; [|done].
  destruct (negb (pf_ready p)); [done|]. unfold unlocked. case_bool_decide as Hu; cbn [negb]; [|done].
  split; [by eapply observed_unlocked|]. intros w' p'.
  destruct (is_enabled settings && is_pause_capture settings) eqn:He; [|by intros [= <- <-]].
  unfold preflight_now, mbind, M_bind. destruct (pp_now w2) as [now w3]. unfold lift at 1.
  destruct (resolve_idle_observations idles settings order now) as [[o c]|] eqn:Hr; [|done]. cbn [fst].
  case_bool_decide as Hi; [by intros [= <- <-]|]. intros [= <- <-] _. split; [done|]. intros _. by exists now, o, c.
Qed.
End Preflight.

(** ** Runs *)

(** A world whose clock stands still between operations, whose lifecycle
    answers from a list ([false]: the ask times out) and whose audit sink may
    be broken. *)
Record demo := { dm_seconds : Z; dm_answers : list bool; dm_audit_ok : bool; dm_privacy : bool }.
Definition dm_datetime (n : Z) : datetime := {| dt_wall := n * 1000000; dt_offset := 0 |}.

Definition demo_result : LifecycleCommandResult :=
  {| res_accepted := true; res_changed := true;
     res_snapshot := {| snap_state := PAUSED; snap_generation := Some 2; snap_privacy_mode := false;
                        snap_healthy := true |};
     res_reason_code := u "ok"; res_fault_code := None |}.

#[local] Instance demo_ports : SafetyPorts demo := {|
  sp_now := fun w => (dm_datetime (dm_seconds w), w);
  sp_monotonic_ns := fun w => (dm_seconds w * 1000000000, w);
  sp_set_session_locked := fun _ w => w;
  sp_privacy_mode := dm_privacy;
  sp_apply := fun _ _ w =>
    ({| dm_seconds := dm_seconds w; dm_answers := tail (dm_answers w); dm_audit_ok := dm_audit_ok w;
        dm_privacy := dm_privacy w |},
     match dm_answers w with false :: _ => Raise (External 3) | _ => Ok demo_result end);
  sp_emit := fun _ w => (w, if dm_audit_ok w then Ok tt else Raise (External 4)) |}.

Definition demo_idle_settings (b : IdleResumeBehavior) (grace : Z) : IdleSettings :=
  {| is_enabled := true; is_pause_capture := true; is_threshold_seconds := float_of 180; is_resume_behavior := b;
     is_active_grace_seconds := float_of grace; is_max_observation_age_seconds := float_of 5 |}.

Definition demo_world (answers : list bool) (audit_ok : bool) : demo :=
  {| dm_seconds := 1000; dm_answers := answers; dm_audit_ok := audit_ok; dm_privacy := false |}.
Definition demo_start (st : IdleSettings) (w : demo) : result (safety (demo * list logged_call)) :=
  make_safety st [u "activitywatch"; u "xorg-idle"] true (float_of 5) (w, []).

Definition demo_lock (s : LockState) (at_ : Z) : safety_op :=
  OpLock {| lo_state := s; lo_observed_at := dm_datetime at_; lo_source_id := u "logind";
            lo_source_revision := u "login1-v1"; lo_failure_code := None |}.
Definition demo_idle (source : string) (seconds at_ : Z) : IdleObservation :=
  {| io_state := IDLE_ACTIVE; io_observed_at := dm_datetime at_; io_source_id := u source;
     io_source_revision := u "v1"; io_idle_seconds := Some (float_of seconds); io_failure_code := None |}.

Fixpoint run_safety (ops : list safety_op) (s : safety (demo * list logged_call)) : safety (demo * list logged_call) :=
  match ops with [] => s | op :: ops' => run_safety ops' (run_safety_op op s).1 end.

(** The calls made, oldest first, without the audit events. *)
Definition calls (s : safety (demo * list logged_call)) : list logged_call :=
  rev (filter (fun c => match c with LEmit _ _ => false | _ => true end = true) (log s)).

Definition demo_run (st : IdleSettings) (w : demo) (ops : list safety_op)
    : result (list logged_call * bool * option TransitionReason * bool) :=
  s ← demo_start st w;
  let s' := run_safety ops s in
  mret (calls s', sf_blocked s', sf_block_reason s', bool_decide (st_health (status s') = HEALTHY)).

(** Unlocking releases nothing when nothing was blocked; locking blocks once;
    unlocking releases. *)
Example lock_cycle :
  demo_run (demo_idle_settings IMMEDIATE 0) (demo_world [] true)
    [demo_lock UNLOCKED 1000; demo_lock LOCKED 1000; demo_lock LOCKED 1000; demo_lock UNLOCKED 998]
  = Ok ([LLock true; LLock false; LLock true; LApply true SESSION_LOCKED false true; LLock true; LLock false;
         LApply false SESSION_UNLOCKED false true], false, None, false).
Proof. vm_compute. reflexivity. Qed.

(** The audit of the unlock fails: the lifecycle is blocked, and released
    again by the same call; the status is healthy while the policy still
    counts the session as locked. *)
Example failed_audit_is_undone :
  demo_run {| is_enabled := false; is_pause_capture := true; is_threshold_seconds := float_of 180;
              is_resume_behavior := IMMEDIATE; is_active_grace_seconds := float_of 0;
              is_max_observation_age_seconds := float_of 5 |}
    (demo_world [] false) [demo_lock UNLOCKED 1000]
  = Ok ([LLock true; LLock false; LLock true; LApply true SESSION_LOCKED false true;
         LApply false SESSION_UNLOCKED false true], false, None, true).
Proof. vm_compute. reflexivity. Qed.

(** A block the lifecycle did not take is never sent again while the session
    stays locked. *)
Example lost_block_is_not_retried :
  demo_run (demo_idle_settings IMMEDIATE 0) (demo_world [false] true)
    [demo_lock UNLOCKED 1000; demo_lock LOCKED 1000; demo_lock LOCKED 1000; OpRefresh; demo_lock LOCK_UNKNOWN 1000]
  = Ok ([LLock true; LLock false; LLock true; LApply true SESSION_LOCKED false false; LLock true; LLock true; LLock true],
        true, Some SESSION_LOCKED, false).
Proof. vm_compute. reflexivity. Qed.

(** ** Witnesses *)

Definition demo_settings : IdleSettings := demo_idle_settings IMMEDIATE 0.
Definition demo_order : list pystr := [u "activitywatch"; u "xorg-idle"].
Definition startup_lock : LockObservation :=
  {| lo_state := LOCK_UNKNOWN; lo_observed_at := dm_datetime 1000; lo_source_id := u "startup";
     lo_source_revision := u "startup-v1"; lo_failure_code := Some STALE |}.
Definition startup_idle : IdleObservation :=
  {| io_state := IDLE_UNKNOWN; io_observed_at := dm_datetime 1000; io_source_id := u "none";
     io_source_revision := u "none-v1"; io_idle_seconds := None; io_failure_code := Some UNAVAILABLE |}.
Definition started {V} (w : V) : safety V :=
  mk_safety demo_settings demo_order true 5000000000 startup_lock startup_idle 1000000000000 None false false
    false None None STALE w.

Definition demo_s0 : safety (demo * list logged_call) := started (demo_world [] true, [LLock true]).

Lemma demo_started : make_safety demo_settings demo_order true (float_of 5) (demo_world [] true, []) = Ok demo_s0.
Proof. vm_compute. reflexivity. Qed.

Lemma run_safety_steps ops s :
  Forall (fun op => op_ok op = true) ops -> steps safety_step s ops (run_safety ops s).
Proof. intros Hv. revert s. induction Hv as [|op ops Ho _ IH]; intros s; econstructor; [by split|apply IH]. Qed.

(** Locked, then idle past the threshold on one source while the other says
    active, then unlocked: the block stays, for idleness. *)
Definition demo_history : list safety_op :=
  [demo_lock LOCKED 1000; OpIdle [demo_idle "activitywatch" 200 998; demo_idle "xorg-idle" 1 999]].

Definition demo_history2 : list safety_op := demo_history ++ [demo_lock UNLOCKED 999].

Lemma demo_history_ok : Forall (fun op => op_ok op = true) demo_history.
Proof. repeat constructor. Qed.
Lemma demo_history2_ok : Forall (fun op => op_ok op = true) demo_history2.
Proof. repeat constructor. Qed.

Lemma resolution_is_conservative_witness :
  exists o, resolve_idle_observations [demo_idle "activitywatch" 200 998; demo_idle "xorg-idle" 1 999]
    demo_settings demo_order (dm_datetime 1000) = Ok (o, true) /\ io_state o = IDLE_IDLE.
Proof.
  assert (Hv : Forall valid_idle [demo_idle "activitywatch" 200 998; demo_idle "xorg-idle" 1 999])
    by (repeat constructor).
  destruct (resolution_is_conservative _ demo_settings demo_order (dm_datetime 1000) Hv) as [_ Hne].
  destruct (Hne ltac:(discriminate)) as (o&c&He&[Hs Hc _ _ _]&_). exists o.
  assert (c = true) as -> by (apply Hc; vm_compute; split; [left|right; left]). split; [exact He|].
  rewrite Hs. vm_compute. reflexivity.
Defined.

Lemma controller_fails_closed_witness :
  let s' := (run_safety_op (demo_lock UNLOCKED 999) (run_safety demo_history demo_s0)).1 in
  (sf_blocked s', sf_block_reason s') = in_force (log s') /\ in_force (log s') = (true, Some IDLE).
Proof.
  cbv zeta.
  destruct (controller_fails_closed demo_settings demo_order true (float_of 5) (demo_world [] true) demo_s0
    demo_history (run_safety demo_history demo_s0) (demo_lock UNLOCKED 999) _ eq_refl demo_started
    (run_safety_steps _ _ demo_history_ok) (conj eq_refl eq_refl)) as (_&_&Hset&_).
  split; [|vm_compute; reflexivity]. refine (proj1 (Hset _)). vm_compute. reflexivity.
Defined.

Definition active_release (c : logged_call) : bool :=
  match c with LApply false ACTIVE false true => true | _ => false end.

Lemma release_is_safe_witness :
  let s := run_safety demo_history2 demo_s0 in
  let s' := (run_safety_op (OpIdle [demo_idle "xorg-idle" 1 999]) s).1 in
  exists new, log s' = new ++ log s /\ LApply false ACTIVE false true ∈ new /\ idle_hold s' = false.
Proof.
  cbv zeta.
  destruct (release_is_safe demo_settings demo_order true (float_of 5) (demo_world [] true) demo_s0
    demo_history2 (run_safety demo_history2 demo_s0)
    (OpIdle [demo_idle "xorg-idle" 1 999]) _ eq_refl demo_started
    (run_safety_steps _ _ demo_history2_ok) (conj eq_refl eq_refl)) as (new&Hn&Hrel).
  assert (Hin : LApply false ACTIVE false true ∈ new).
  { apply (f_equal (existsb active_release)) in Hn. rewrite existsb_app in Hn.
    assert (existsb active_release (log (run_safety demo_history2 demo_s0)) = false) as Hs by (vm_compute; reflexivity).
    rewrite Hs, orb_false_r in Hn. symmetry in Hn. vm_compute (existsb active_release (log _)) in Hn.
    apply existsb_exists in Hn as (c&Hc&Hr). apply list_elem_of_In in Hc.
    destruct c as [|[] [] [] []|]; try discriminate Hr. exact Hc. }
  exists new. split; [exact Hn|]. split; [exact Hin|]. apply (Hrel ACTIVE false true Hin).
Defined.

(** A locked session over the demo policy engine and the scripted actor,
    recording when the controller starts: another client resumes it, and the
    policy engine changes its privacy mode. *)
Definition demo_clock (x : Z) : datetime * Z := (dm_datetime x, x).
Definition demo_monotonic (x : Z) : Z * Z := (x * 1000000000, x).
Definition demo_audit (_ : SessionSafetyAuditEvent) : M Z unit := mret tt.

Local Abbreviation demo_system := (system (pattern := pystr) (zone := Z) (L := script) (X := Z)).
#[local] Instance demo_system_ports : SafetyPorts demo_system := system_ports 7 50 100 demo_clock demo_monotonic demo_audit.

Definition demo_y0 : demo_system := {| sy_engine := demo_engine; sy_actor := recording; sy_rest := 1000 |}.
Definition demo_sys0 : safety (demo_system * list logged_call) :=
  started ({| sy_engine := set_session_locked true demo_engine; sy_actor := recording; sy_rest := 1000 |}, [LLock true]).

Lemma demo_sys_started :
  make_safety demo_settings demo_order true (float_of 5) (demo_y0, []) = Ok demo_sys0.
Proof. vm_compute. reflexivity. Qed.

Local Abbreviation demo_event := (run_event demo_ip demo_compile is_in demo_zone demo_offset demo_digest 7 50 100
  demo_clock demo_monotonic demo_audit).
Definition demo_events : list system_event :=
  [Controller (demo_lock UNLOCKED 1000); Controller (demo_lock LOCKED 1000); Inbox (ResumeCapture USER_RESUME);
   Engine (EPrivacy true); Engine (EPrivacy false)].
Fixpoint run_events (evs : list system_event) (s : safety (demo_system * list logged_call))
    : safety (demo_system * list logged_call) :=
  match evs with [] => s | ev :: evs' => run_events evs' (demo_event ev s) end.

Lemma run_events_steps evs s : Forall event_ok evs ->
  steps (system_step demo_ip demo_compile is_in demo_zone demo_offset demo_digest 7 50 100 demo_clock
    demo_monotonic demo_audit) s evs (run_events evs s).
Proof. intros Hv. revert s. induction Hv as [|ev evs Ho _ IH]; intros s; econstructor; [by split|apply IH]. Qed.

Lemma demo_events_ok : Forall event_ok demo_events.
Proof. repeat constructor. Qed.

Lemma locked_session_is_quiet_witness :
  let y := (sf_world (run_events demo_events demo_sys0)).1 in
  g_state (a_gate (sy_actor demo_y0)) = RECORDING /\
  g_state (a_gate (sy_actor y)) ≠ RECORDING /\
  exists y' err, boundary_capture (A := unit) demo_ip is_in demo_offset sy_engine (put_engine (L := script) (X := Z))
    (demo_context "emacs") (raise (External 9)) y = (y', Raise err) /\ sy_actor y' = sy_actor y.
Proof.
  cbv zeta. split; [reflexivity|].
  destruct (locked_session_is_quiet demo_ip demo_compile is_in demo_zone demo_offset demo_digest 7 50 100
    demo_clock demo_monotonic demo_audit demo_settings demo_order true (float_of 5) demo_engine recording 1000
    demo_sys0 demo_events (run_events demo_events demo_sys0) eq_refl recording_inv demo_sys_started
    (run_events_steps _ _ demo_events_ok)) as [Hq Hr].
  split; [apply Hr; vm_compute; reflexivity|].
  destruct Hq as [Hb _]; [vm_compute; discriminate|].
  destruct (Hb unit (demo_context "emacs") (raise (External 9))) as (y'&err&Hy&Ha&_). exists y', err.
  split; [exact Hy|exact Ha].
Defined.

(** The lock source cannot be reached; the base checks agree. *)
#[local] Instance demo_preflight : PreflightPorts (list bool) := {|
  pp_lock_source_id := u "logind";
  pp_idle_source_ids := [u "xorg-idle"];
  pp_observe := fun _ _ => mret (Raise (External 5), [Ok (demo_idle "xorg-idle" 1 999)]);
  pp_set_session_locked := fun b w => b :: w;
  pp_base_check := fun _ => mret {| pf_ready := true; pf_fault_code := None; pf_start_paused_reason := None |};
  pp_now := fun w => (dm_datetime 1000, w) |}.
Definition demo_request : LifecyclePreflightRequest :=
  {| pr_configuration := {| cfg_revision := u "r1"; cfg_capture_permitted := true |}; pr_generation := 1;
     pr_deadline_monotonic_ns := 5; pr_cancellation := {| permit_generation := 1; permit_revision := u "r1"; permit_event := 1%nat |} |}.

Lemma preflight_guards_start_witness :
  check demo_settings demo_order demo_request [] =
    ([true], Ok {| pf_ready := true; pf_fault_code := None; pf_start_paused_reason := Some SESSION_LOCKED |}).
Proof.
  exact (preflight_guards_start demo_settings demo_order demo_request [] []
    {| lo_state := LOCK_UNKNOWN; lo_observed_at := dm_datetime 1000; lo_source_id := u "logind";
       lo_source_revision := u "source-v1"; lo_failure_code := Some UNAVAILABLE |}
    [demo_idle "xorg-idle" 1 999] eq_refl).
Defined.
