(* ===== verification/Deletion.v ===== *)
(** * Deletion: selective deletion that survives a crash.

    Models [timeline/deletion.py]: the journal (one owner-only JSON file,
    replaced atomically) and the coordinator that takes a deletion through its
    phases.  The journal's directory distinguishes what a reader sees from what
    a power cut leaves; every file-system call may fail; the storage, the
    semantic index and the activity reconciler are the operations of
    [DeletionPorts] on an arbitrary world, each free to raise half-way.  A
    process that dies is a run whose remaining calls all fail. *)

From S2P Require Import Prelude PyStr Utf8 Json Storage PyData Codec.

Definition JOURNAL_VERSION : Z := 1.
Definition MAX_JOURNAL_BYTES : Z := 64 * 1024.
Definition MAX_RECORD_IDS : Z := 10000.

Inductive DeletionPhase := PLANNED | RECORDS_DELETED | DERIVED_RECONCILED.
#[export] Instance DeletionPhase_eq_dec : EqDecision DeletionPhase.
Proof. solve_decision. Defined.

Definition phase_value (p : DeletionPhase) : pystr :=
  match p with
  | PLANNED => u "planned"
  | RECORDS_DELETED => u "records-deleted"
  | DERIVED_RECONCILED => u "derived-reconciled"
  end.
(** [DeletionPhase(value)] *)
Definition phase_of_value (s : pystr) : result DeletionPhase :=
  if bool_decide (s = u "planned") then Ok PLANNED
  else if bool_decide (s = u "records-deleted") then Ok RECORDS_DELETED
  else if bool_decide (s = u "derived-reconciled") then Ok DERIVED_RECONCILED
  else Raise ValueError.
Definition phase_rank (p : DeletionPhase) : Z :=
  match p with PLANNED => 0 | RECORDS_DELETED => 1 | DERIVED_RECONCILED => 2 end.

(** [c.isascii() and (c.isalnum() or c in '-_')] *)
Definition is_request_char (c : Z) : bool :=
  ((48 <=? c) && (c <=? 57)) || ((65 <=? c) && (c <=? 90)) || ((97 <=? c) && (c <=? 122)) ||
  (c =? 45) || (c =? 95).

Definition validate_request_id (request_id : pystr) : result unit :=
  _ ← throw_if (negb ((1 <=? zlen request_id) && (zlen request_id <=? 128))) ValueError;
  throw_if (negb (forallb is_request_char request_id)) ValueError.

Definition validate_record_ids (record_ids : list uuid) : result unit :=
  _ ← throw_if (bool_decide (record_ids = [])) ValueError;
  _ ← throw_if (MAX_RECORD_IDS <? zlen record_ids) ValueError;
  throw_if (negb (bool_decide (NoDup record_ids))) ValueError.

Record DeletionState := { ds_request_id : pystr; ds_record_ids : list uuid; ds_phase : DeletionPhase }.
#[export] Instance DeletionState_eq_dec : EqDecision DeletionState.
Proof. solve_decision. Defined.

Definition make_state (st : DeletionState) : result DeletionState :=
  _ ← validate_request_id (ds_request_id st);
  _ ← validate_record_ids (ds_record_ids st);
  mret st.

Record DeletionTransactionResult := {
  dr_request_id : pystr; dr_deleted_count : Z; dr_recovered : bool }.

(** ** The journal's file format *)

Definition journal_json (st : DeletionState) : list (pystr * json) :=
  [(u "phase", JStr (phase_value (ds_phase st)));
   (u "record_ids", JList ((fun r => JStr (uuid_text r)) <$> ds_record_ids st));
   (u "request_id", JStr (ds_request_id st));
   (u "version", JInt JOURNAL_VERSION)].

Definition journal_payload (st : DeletionState) : result pybytes :=
  text ← dumps (JDict (journal_json st)); utf8_encode text.

Definition JOURNAL_KEYS : list pystr := [u "phase"; u "record_ids"; u "request_id"; u "version"].

Section Parse.
(** [UUID] on text outside its usual form; whether a JSON number with a point
    equals 1; and [json.loads] on bytes it does not take for UTF-8 or that are
    not strictly UTF-8. *)
Variable int16_other : pystr -> result Z.
Variable float_is_one : pystr -> bool.
Variable loads_other : pybytes -> result json.

Definition string_items (j : json) : result (list pystr) :=
  match j with
  | JList l => map_ok (fun i => match i with JStr s => Ok s | _ => Raise ValueError end) l
  | _ => Raise ValueError
  end.
Definition any_string (j : json) : result pystr :=
  match j with JStr s => Ok s | _ => Raise ValueError end.

(** From the decoded value on. What is no dictionary fails [set(raw)], the
    comparison, or the first subscript. *)
Definition state_of_json (j : json) : result DeletionState :=
  match j with
  | JDict raw =>
      _ ← throw_if (negb (has_keys raw JOURNAL_KEYS)) ValueError;
      version ← field raw (u "version");
      _ ← throw_if (negb (equals_one float_is_one version)) ValueError;
      raw_ids ← (v ← field raw (u "record_ids"); string_items v);
      request_id ← (v ← field raw (u "request_id"); any_string v);
      phase ← (v ← field raw (u "phase"); any_string v);
      record_ids ← map_ok (uuid_of_text int16_other) raw_ids;
      phase ← phase_of_value phase;
      make_state {| ds_request_id := request_id; ds_record_ids := record_ids; ds_phase := phase |}
  | _ => Raise TypeError
  end.

(** The [try] of [_load_sync]. *)
Definition parse_journal (b : pybytes) : result DeletionState :=
  match (j ← loads_bytes loads_other b; state_of_json j) with
  | Raise ValueError | Raise TypeError | Raise KeyError => Raise RuntimeError
  | r => r
  end.
End Parse.

(** ** The journal's directory *)

(** What [lstat] tells of the journal's directory. *)
Record root_info := { ri_directory : bool; ri_owner_only : bool }.

(** The constructor: the directory it uses, made when there is none. *)
Definition prepare_root (root : option root_info) : result root_info :=
  match root with
  | Some info =>
      _ ← throw_if (negb (ri_directory info)) ValueError;
      _ ← throw_if (negb (ri_owner_only info)) ValueError;
      mret info
  | None => mret {| ri_directory := true; ri_owner_only := true |}
  end.

(** What [lstat] tells of a file, and its bytes. *)
Record journal_file := { jf_regular : bool; jf_owner_only : bool; jf_bytes : pybytes }.

(** The file readers see, the one a power cut would leave, and whether the
    temporary path exists. *)
Record journal_dir := {
  jd_file : option journal_file; jd_durable : option journal_file; jd_temporary : bool }.
Definition empty_dir : journal_dir := {| jd_file := None; jd_durable := None; jd_temporary := false |}.

(** The journal, the outcomes of the coming file-system calls (then they
    succeed), and the rest of the process. *)
Record machine (W : Type) := { m_dir : journal_dir; m_io : list bool; m_world : W }.
Arguments m_dir {W}. Arguments m_io {W}. Arguments m_world {W}.

Definition set_dir {W} (d : journal_dir) (m : machine W) : machine W :=
  {| m_dir := d; m_io := m_io m; m_world := m_world m |}.
Definition set_world {W} (w : W) (m : machine W) : machine W :=
  {| m_dir := m_dir m; m_io := m_io m; m_world := w |}.

Definition OSError : exn := External 5.

Section Journal.
Context {W : Type}.
Variable int16_other : pystr -> result Z.
Variable float_is_one : pystr -> bool.
Variable loads_other : pybytes -> result json.

Local Abbreviation MJ := (M (machine W)).

(** A file-system call: it fails and changes nothing, or goes on. *)
Definition io : MJ unit := fun m =>
  match m_io m with
  | [] => (m, Ok tt)
  | ok :: rest => ({| m_dir := m_dir m; m_io := rest; m_world := m_world m |}, if ok then Ok tt else Raise OSError)
  end.
Definition change_dir (f : journal_dir -> journal_dir) : MJ unit := modify (fun m => set_dir (f (m_dir m)) m).

Definition set_temporary (b : bool) (d : journal_dir) : journal_dir :=
  {| jd_file := jd_file d; jd_durable := jd_durable d; jd_temporary := b |}.
Definition set_file (f : option journal_file) (d : journal_dir) : journal_dir :=
  {| jd_file := f; jd_durable := jd_durable d; jd_temporary := jd_temporary d |}.
Definition sync_dir (d : journal_dir) : journal_dir :=
  {| jd_file := jd_file d; jd_durable := jd_file d; jd_temporary := jd_temporary d |}.

Definition fsync_directory : MJ unit := _ ← io; change_dir sync_dir.

(** The file a replacement leaves: mode 0600, ours. *)
Definition own_file (payload : pybytes) : journal_file :=
  {| jf_regular := true; jf_owner_only := true; jf_bytes := payload |}.

Definition load_sync : MJ (option DeletionState) :=
  file ← gets (fun m => jd_file (m_dir m));
  match file with
  | None => mret None
  | Some f =>
      _ ← require (jf_regular f) RuntimeError;
      _ ← require (jf_owner_only f) RuntimeError;
      _ ← require ((0 <? zlen (jf_bytes f)) && (zlen (jf_bytes f) <=? MAX_JOURNAL_BYTES)) RuntimeError;
      _ ← io;
      st ← lift (parse_journal int16_other float_is_one loads_other (jf_bytes f));
      mret (Some st)
  end.

(** The descriptor's bytes are not kept: nothing reads the temporary file
    before it replaces the journal. *)
Definition write_sync (st : DeletionState) : MJ unit :=
  payload ← lift (journal_payload st);
  _ ← require (zlen payload <=? MAX_JOURNAL_BYTES) ValueError;
  stale ← gets (fun m => jd_temporary (m_dir m));
  _ ← (if stale : bool then _ ← io; _ ← change_dir (set_temporary false); fsync_directory else mret tt);
  _ ← io;
  _ ← change_dir (set_temporary true);
  _ ← try_except (_ ← io; io)
        (fun e => _ ← io; _ ← change_dir (set_temporary false); raise e);
  _ ← io;
  _ ← change_dir (fun d => set_temporary false (set_file (Some (own_file payload)) d));
  fsync_directory.

Definition clear_sync : MJ unit :=
  file ← gets (fun m => jd_file (m_dir m));
  match file with
  | None => mret tt
  | Some f =>
      _ ← require (jf_regular f) RuntimeError;
      _ ← io;
      _ ← change_dir (set_file None);
      fsync_directory
  end.

Definition begin_deletion (request_id : pystr) (record_ids : list uuid) : MJ DeletionState :=
  st ← lift (make_state {| ds_request_id := request_id; ds_record_ids := record_ids; ds_phase := PLANNED |});
  current ← load_sync;
  match current with
  | Some current =>
      _ ← require (bool_decide (ds_request_id current = request_id) &&
                   bool_decide (ds_record_ids current = record_ids)) RuntimeError;
      mret current
  | None => _ ← write_sync st; mret st
  end.

Definition advance (phase : DeletionPhase) : MJ DeletionState :=
  current ← load_sync;
  match current with
  | None => raise RuntimeError
  | Some current =>
      _ ← require (negb (phase_rank phase <? phase_rank (ds_phase current))) RuntimeError;
      _ ← require (negb (phase_rank (ds_phase current) + 1 <? phase_rank phase)) RuntimeError;
      replacement ← lift (make_state {| ds_request_id := ds_request_id current;
                                        ds_record_ids := ds_record_ids current; ds_phase := phase |});
      _ ← write_sync replacement;
      mret replacement
  end.
End Journal.

(** ** The coordinator *)

(** [DeletionStorage] (its answer is [DeleteResult.deleted]),
    [DeletionSemanticIndex] and [ActivityDeletionReconciler]. *)
Class DeletionPorts (W : Type) := {
  storage_delete : uuid -> M W bool;
  index_remove : list uuid -> M W unit;
  reconcile_deleted : list uuid -> M W unit }.

Section Coordinator.
Context {W : Type} `{DeletionPorts W}.
Variable int16_other : pystr -> result Z.
Variable float_is_one : pystr -> bool.
Variable loads_other : pybytes -> result json.

Local Abbreviation MJ := (M (machine W)).
Local Abbreviation load_sync := (load_sync int16_other float_is_one loads_other).
Local Abbreviation advance := (advance int16_other float_is_one loads_other).
Local Abbreviation begin_deletion := (begin_deletion int16_other float_is_one loads_other).

Definition on_world {A} (m : M W A) : MJ A := zoom m_world set_world m.

(** The three [if]s of [_resume]. *)
Definition resume_planned (st : DeletionState) : MJ DeletionState :=
  if bool_decide (ds_phase st = PLANNED) then
    _ ← for_each (ds_record_ids st) (fun id => _ ← on_world (storage_delete id); mret tt);
    advance RECORDS_DELETED
  else mret st.
Definition resume_deleted (st : DeletionState) : MJ DeletionState :=
  if bool_decide (ds_phase st = RECORDS_DELETED) then
    _ ← on_world (index_remove (ds_record_ids st));
    _ ← on_world (reconcile_deleted (ds_record_ids st));
    advance DERIVED_RECONCILED
  else mret st.
Definition resume_reconciled (st : DeletionState) : MJ unit :=
  if bool_decide (ds_phase st = DERIVED_RECONCILED) then clear_sync else mret tt.

Definition resume (st : DeletionState) (recovered : bool) : MJ DeletionTransactionResult :=
  st ← resume_planned st;
  st ← resume_deleted st;
  _ ← resume_reconciled st;
  mret {| dr_request_id := ds_request_id st; dr_deleted_count := zlen (ds_record_ids st);
          dr_recovered := recovered |}.

Definition delete_records (request_id : pystr) (record_ids : list uuid) : MJ DeletionTransactionResult :=
  _ ← lift (validate_request_id request_id);
  _ ← lift (validate_record_ids record_ids);
  st ← begin_deletion request_id record_ids;
  resume st false.

Definition recover_deletions : MJ (option DeletionTransactionResult) :=
  st ← load_sync;
  match st with
  | None => mret None
  | Some st => r ← resume st true; mret (Some r)
  end.
End Coordinator.
