(* ===== verification/DeletionFacts.v ===== *)
(** * DeletionFacts: the deletion journal and its coordinator keep their word.

    The journal's format and its capacity; what a file-system failure leaves;
    the invariant that ties the phase on disk to what has been deleted, and the
    system in which runs, failures, power cuts and other work alternate. *)

From stdpp Require Import sorting.
From S2P Require Import Prelude PyStr Utf8 Json JsonFacts Storage PyData Codec CodecFacts Deletion.

(** ** The format *)

Lemma request_char_plain c : is_request_char c = true -> plain c = true.
Proof.
  unfold is_request_char, plain. rewrite !orb_true_iff, !andb_true_iff, !negb_true_iff, !Z.eqb_neq, !Z.eqb_eq, !Z.leb_le.
  lia.
Qed.

Lemma hex_char_plain c : is_hex_char c -> plain c = true.
Proof. unfold is_hex_char, plain. rewrite !andb_true_iff, !negb_true_iff, !Z.eqb_neq, !Z.leb_le. lia. Qed.

Lemma forallb_impl {A} (f g : A -> bool) l : (forall x, f x = true -> g x = true) -> forallb f l = true -> forallb g l = true.
Proof. rewrite !List.forallb_forall. auto. Qed.

Lemma uuid_text_plain r : 0 <= r -> forallb plain (uuid_text r) = true /\ length (uuid_text r) = 36%nat.
Proof.
  intros Hr. destruct (uuid_hex_chars r Hr) as [Hc Hl]. destruct (uuid_text_parts r) as (a&b&c&d&e&Hh&->).
  rewrite Hh in Hc, Hl. rewrite !length_app in *. cbn [length]. split; [|lia].
  apply Is_true_true, forallb_True. rewrite !Forall_app in Hc. destruct Hc as (?&?&?&?&?).
  rewrite !Forall_app, !Forall_singleton.
  split_and!; done || (eapply Forall_impl; [eassumption|]; intros x Hx; apply Is_true_true; by apply hex_char_plain).
Qed.

(** The states the program constructs. *)
Definition uuid_ok (r : uuid) : bool := (0 <=? r) && (r <? 2 ^ 128).
Definition valid_state (st : DeletionState) : Prop :=
  make_state st = Ok st /\ forallb uuid_ok (ds_record_ids st) = true.

Definition quoted (s : pystr) : pystr := 34 :: s ++ [34].

Definition payload_text (st : DeletionState) : pystr :=
  requote (u "{'phase':") ++ quoted (phase_value (ds_phase st)) ++ requote (u ",'record_ids':") ++
  (91 :: join 44 ((fun r => quoted (uuid_text r)) <$> ds_record_ids st) ++ [93]) ++
  requote (u ",'request_id':") ++ quoted (ds_request_id st) ++ requote (u ",'version':") ++ u "1" ++ [125].

Lemma make_state_ok st st' : make_state st = Ok st' ->
  st' = st /\ 1 <= zlen (ds_request_id st) <= 128 /\ forallb is_request_char (ds_request_id st) = true /\
  ds_record_ids st ≠ [] /\ zlen (ds_record_ids st) <= MAX_RECORD_IDS /\ NoDup (ds_record_ids st).
Proof. unfold make_state, validate_request_id, validate_record_ids. intros H. ok_steps. btauto_hyps. split_and!; done || lia. Qed.

Lemma make_state_phase st p : make_state st = Ok st ->
  make_state {| ds_request_id := ds_request_id st; ds_record_ids := ds_record_ids st; ds_phase := p |} =
  Ok {| ds_request_id := ds_request_id st; ds_record_ids := ds_record_ids st; ds_phase := p |}.
Proof. unfold make_state. cbn. destruct (validate_request_id _); cbn; [|done]. by destruct (validate_record_ids _). Qed.

Lemma phase_round_trip p : phase_of_value (phase_value p) = Ok p.
Proof. by destruct p. Qed.
Lemma phase_plain p : forallb plain (phase_value p) = true.
Proof. by destruct p. Qed.

Lemma request_plain st : valid_state st -> forallb plain (ds_request_id st) = true.
Proof. intros [(_&_&Hc&_)%make_state_ok _]. by apply (forallb_impl _ _ _ request_char_plain). Qed.

Lemma uuid_ok_range st r : valid_state st -> r ∈ ds_record_ids st -> 0 <= r < 2 ^ 128.
Proof. intros [_ H] Hr. rewrite List.forallb_forall in H. apply list_elem_of_In, H in Hr. unfold uuid_ok in Hr. btauto_hyps. lia. Qed.

Lemma journal_items a b c d :
  let l := [(u "phase", a); (u "record_ids", b); (u "request_id", c); (u "version", d)] in
  merge_sort pair_le l = l.
Proof. vm_compute. reflexivity. Qed.

(** The printed dictionary, from its printed values. *)
Lemma journal_text a b c d :
  123 :: join 44 (dumps_item <$> [(u "phase", a); (u "record_ids", b); (u "request_id", c); (u "version", d)]) ++ [125] =
  requote (u "{'phase':") ++ a ++ requote (u ",'record_ids':") ++ b ++ requote (u ",'request_id':") ++ c ++
  requote (u ",'version':") ++ d ++ [125].
Proof. cbn. repeat (rewrite <- (assoc_L (++)); cbn). reflexivity. Qed.

Lemma journal_dumps st : valid_state st -> dumps (JDict (journal_json st)) = Ok (payload_text st).
Proof.
  intros Hst. unfold journal_json. cbn [dumps map_ok].
  rewrite (map_ok_fmap dumps (fun r => JStr (uuid_text r)) (fun r => quoted (uuid_text r))).
  2:{ intros r Hr. cbn [dumps]. unfold mret, result_ret. rewrite dumps_string_plain; [done|].
      apply uuid_text_plain. by apply (uuid_ok_range st). }
  change (dumps_int JOURNAL_VERSION) with (Ok (u "1")).
  unfold mret, result_ret, mbind, result_bind.
  rewrite (dumps_string_plain _ (phase_plain _)), (dumps_string_plain _ (request_plain _ Hst)), journal_items, journal_text.
  reflexivity.
Qed.

Lemma quoted_ascii s : forallb plain s = true -> Forall ascii (quoted s).
Proof.
  intros H. unfold quoted. constructor; [unfold ascii; lia|]. rewrite Forall_app, Forall_singleton.
  split; [by apply plain_ascii|unfold ascii; lia].
Qed.

Lemma payload_ascii st : valid_state st -> Forall ascii (payload_text st).
Proof.
  intros Hst. unfold payload_text. rewrite !Forall_app, Forall_cons, !Forall_app.
  assert (Hc : forall s, forallb (fun c => (0 <=? c) && (c <? 128)) s = true -> Forall ascii s).
  { intros s. rewrite List.forallb_forall, Forall_forall. intros H c Hc%list_elem_of_In. apply H in Hc.
    btauto_hyps. by split. }
  split_and!; try (apply Hc; reflexivity); try (unfold ascii; lia).
  - apply quoted_ascii, phase_plain.
  - apply join_ascii; [unfold ascii; lia|]. apply Forall_fmap, Forall_forall. intros r Hr. cbn.
    apply quoted_ascii. apply uuid_text_plain. by apply (uuid_ok_range st).
  - by apply quoted_ascii, request_plain.
Qed.

Lemma journal_payload_text st : valid_state st -> journal_payload st = Ok (payload_text st).
Proof. intros Hst. unfold journal_payload. rewrite journal_dumps, result_bind_ret by done. by apply utf8_ascii, payload_ascii. Qed.

(** ** Its capacity *)

Lemma quoted_length s : zlen (quoted s) = zlen s + 2.
Proof. unfold quoted, zlen. cbn. rewrite length_app. cbn. lia. Qed.

Lemma join_length sep l k : l ≠ [] -> Forall (fun s => zlen s = k) l -> zlen (join sep l) = (k + 1) * zlen l - 1.
Proof.
  induction l as [|p l IH]; intros Hne H; [done|]. apply Forall_cons in H as [Hp Hl].
  destruct l as [|q l]; [change (join sep [p]) with p; change (zlen [p]) with 1; lia|].
  rewrite join_cons, zlen_app. change (zlen (sep :: join sep (q :: l))) with (zlen ([sep] ++ join sep (q :: l))).
  rewrite zlen_app, IH, Hp by done. unfold zlen. cbn [length]. lia.
Qed.

Lemma zlen_fmap {A B} (f : A -> B) l : zlen (f <$> l) = zlen l.
Proof. unfold zlen. by rewrite length_fmap. Qed.

Lemma payload_length st : valid_state st ->
  zlen (payload_text st) = 55 + zlen (phase_value (ds_phase st)) + zlen (ds_request_id st) + 39 * zlen (ds_record_ids st).
Proof.
  intros Hst. destruct (make_state_ok _ _ (proj1 Hst)) as (_&_&_&Hne&_).
  unfold payload_text. rewrite !zlen_app, !quoted_length.
  change (91 :: join 44 ((fun r => quoted (uuid_text r)) <$> ds_record_ids st) ++ [93])
    with ([91] ++ join 44 ((fun r => quoted (uuid_text r)) <$> ds_record_ids st) ++ [93]).
  rewrite !zlen_app, (join_length _ _ 38).
  - rewrite zlen_fmap. change (zlen (requote (u "{'phase':"))) with 9. change (zlen (requote (u ",'record_ids':"))) with 14.
    change (zlen (requote (u ",'request_id':"))) with 14. change (zlen (requote (u ",'version':"))) with 11.
    change (zlen (u "1")) with 1. change (zlen [91]) with 1. change (zlen [93]) with 1. change (zlen [125]) with 1. lia.
  - intros E. apply fmap_nil_inv in E. done.
  - apply Forall_fmap, Forall_forall. intros r Hr. cbn. rewrite quoted_length.
    destruct (uuid_text_plain r) as [_ Hl]; [by apply (uuid_ok_range st)|]. transitivity (Z.of_nat 36 + 2); [|done]. by rewrite <- Hl.
Qed.

(** ** Reading it back *)

Section Parse.
Variable int16_other : pystr -> result Z.
Variable float_is_one : pystr -> bool.
Variable loads_other : pybytes -> result json.
Local Abbreviation parse_journal := (parse_journal int16_other float_is_one loads_other).

Lemma journal_printable st : valid_state st -> printable (JDict (journal_json st)) = true.
Proof.
  intros Hst. assert (Hp : forall s, forallb plain s = true -> forallb is_scalar s = true).
  { intros s Hs. apply ascii_scalar. exact (plain_ascii s Hs). }
  unfold journal_json. cbn [printable forallb fst snd]. rewrite (Hp _ (phase_plain _)), (Hp _ (request_plain _ Hst)).
  assert (forallb printable ((fun r => JStr (uuid_text r)) <$> ds_record_ids st) = true) as ->; [|reflexivity].
  apply List.forallb_forall. intros j Hj%list_elem_of_In. apply list_elem_of_fmap in Hj as (r&->&Hr).
  apply Hp, uuid_text_plain. by apply (uuid_ok_range st).
Qed.

Lemma string_items_ok (l : list uuid) : string_items (JList ((fun r => JStr (uuid_text r)) <$> l)) = Ok (uuid_text <$> l).
Proof. cbn [string_items]. by apply map_ok_fmap. Qed.

Lemma journal_fields a b c d :
  let raw := [(u "phase", a); (u "record_ids", b); (u "request_id", c); (u "version", d)] in
  has_keys raw JOURNAL_KEYS = true /\ field raw (u "phase") = Ok a /\ field raw (u "record_ids") = Ok b /\
  field raw (u "request_id") = Ok c /\ field raw (u "version") = Ok d.
Proof. vm_compute. repeat split. Qed.

Lemma state_of_journal st : valid_state st -> state_of_json int16_other float_is_one (JDict (journal_json st)) = Ok st.
Proof.
  intros Hst. unfold state_of_json, journal_json.
  destruct (journal_fields (JStr (phase_value (ds_phase st)))
    (JList ((fun r => JStr (uuid_text r)) <$> ds_record_ids st)) (JStr (ds_request_id st)) (JInt JOURNAL_VERSION))
    as (K&F1&F2&F3&F4).
  rewrite K, throw_if_false, result_bind_ret, F4, result_bind_ret.
  change (equals_one float_is_one (JInt JOURNAL_VERSION)) with true.
  rewrite throw_if_false, result_bind_ret, F2, result_bind_ret, string_items_ok, result_bind_ret.
  rewrite F3, result_bind_ret. cbn [any_string]. rewrite result_bind_ret, F1, result_bind_ret. cbn [any_string].
  rewrite result_bind_ret, (map_ok_fmap _ uuid_text id).
  2:{ intros r Hr. apply uuid_round_trip. by apply (uuid_ok_range st). }
  rewrite result_bind_ret, phase_round_trip, result_bind_ret, list_fmap_id. destruct Hst as [Hst _]. by destruct st.
Qed.

Lemma journal_parses st : valid_state st -> parse_journal (payload_text st) = Ok st.
Proof.
  intros Hst. unfold Deletion.parse_journal, loads_bytes.
  assert (starts_as_utf8 (payload_text st) = true) as -> by reflexivity.
  rewrite (utf8_round_trip (payload_text st)) by (by apply utf8_ascii, payload_ascii).
  rewrite (loads_dumps _ _ (journal_printable st Hst) (journal_dumps st Hst)), result_bind_ret.
  by rewrite state_of_journal.
Qed.

(** Whatever the file holds, a state that is read is one the program could
    have written. *)
Lemma parse_valid b st : parse_journal b = Ok st -> valid_state st.
Proof.
  unfold Deletion.parse_journal. destruct (loads_bytes _ b) as [j|e]; [|by destruct e].
  rewrite result_bind_ret. destruct (state_of_json _ _ j) as [st'|e] eqn:E; [|by destruct e]. intros [= ->].
  unfold state_of_json in E. destruct j; try done. ok_steps.
  match goal with H : make_state _ = Ok _ |- _ => pose proof H as Hm; apply make_state_ok in Hm as [-> _] end.
  split; [done|]. cbn. match goal with H : map_ok (uuid_of_text _) _ = Ok _ |- _ => apply map_ok_Forall2 in H as Hu end.
  apply List.forallb_forall. intros r Hr%list_elem_of_In. apply list_elem_of_lookup_1 in Hr as [i Hi].
  destruct (Forall2_lookup_r _ _ _ _ _ Hu Hi) as (t&_&Ht). unfold uuid_of_text in Ht. ok_steps.
  by apply negb_false_iff.
Qed.

(** [journal_round_trip]: every state the coordinator writes has a payload,
    whose size is known, and reading the payload gives the state back; whatever
    other bytes the journal holds, what is read from them is a valid state. *)
Theorem journal_round_trip st :
  valid_state st ->
  (exists b, journal_payload st = Ok b /\
    zlen b = 55 + zlen (phase_value (ds_phase st)) + zlen (ds_request_id st) + 39 * zlen (ds_record_ids st) /\
    parse_journal b = Ok st) /\
  forall b st', parse_journal b = Ok st' -> valid_state st'.
Proof.
  intros Hst. split; [|exact parse_valid]. exists (payload_text st).
  auto using journal_payload_text, payload_length, journal_parses.
Qed.
End Parse.

#[global] Arguments payload_text : simpl never.

(** ** The journal as an atomic register *)

(** The payload of a state fits in the file. *)
Definition fits (st : DeletionState) : Prop := zlen (payload_text st) <= MAX_JOURNAL_BYTES.

(** The file [f] is what the journal holding [o] leaves. *)
Definition holds (o : option DeletionState) (f : option journal_file) : Prop :=
  match o with
  | None => f = None
  | Some st => valid_state st /\ fits st /\ f = Some (own_file (payload_text st))
  end.

(** Both what readers see and what a power cut leaves. *)
Definition versions (P : option journal_file -> Prop) (d : journal_dir) : Prop := P (jd_file d) /\ P (jd_durable d).

Section Journal.
Context {W : Type}.
Variable int16_other : pystr -> result Z.
Variable float_is_one : pystr -> bool.
Variable loads_other : pybytes -> result json.
Implicit Types (m : machine W) (st : DeletionState).
Local Abbreviation load_sync := (load_sync (W:=W) int16_other float_is_one loads_other).
Local Abbreviation advance := (advance (W:=W) int16_other float_is_one loads_other).
Local Abbreviation begin_deletion := (begin_deletion (W:=W) int16_other float_is_one loads_other).

(** [m'] differs from [m] at most in the calls that are left. *)
Definition same_files m m' : Prop := m_dir m' = m_dir m /\ m_world m' = m_world m.

Lemma wp_io (Q : result unit -> machine W -> Prop) m :
  (forall r m', same_files m m' -> r = Ok tt \/ r = Raise OSError -> Q r m') -> wp io Q m.
Proof. intros H. split. unfold io. destruct (m_io m) as [|[] l]; apply H; cbn; auto; by split. Qed.

Lemma payload_nonempty st : 0 < zlen (payload_text st).
Proof. unfold payload_text, zlen. cbn [requote]. rewrite length_app. cbn. lia. Qed.

(** A read sees what the journal holds, or fails; it changes nothing. *)
Lemma load_ok o m : holds o (jd_file (m_dir m)) ->
  wp load_sync (fun r m' => same_files m m' /\ (r = Ok o \/ r = Raise OSError)) m.
Proof.
  intros Ho. unfold Deletion.load_sync. apply wp_bind, wp_gets. destruct o as [st|]; cbn in Ho.
  2:{ rewrite Ho. apply wp_ret. split; [by split|by left]. }
  destruct Ho as (Hst&Hf&->). cbn [jf_regular jf_owner_only jf_bytes own_file].
  apply wp_bind, wp_require; [intros _|done]. apply wp_bind, wp_require; [intros _|done].
  assert ((0 <? zlen (payload_text st)) && (zlen (payload_text st) <=? MAX_JOURNAL_BYTES) = true) as Hsize.
  { apply andb_true_iff. split; [apply Z.ltb_lt, payload_nonempty|by apply Z.leb_le]. }
  apply wp_bind, wp_require; intros Hc; [clear Hc|exfalso; revert Hc; apply not_false_iff_true, Hsize].
  apply wp_bind, wp_io. intros r m' Hm [->| ->]; [|split; [done|by right]].
  apply wp_bind, wp_lift. rewrite journal_parses by done. apply wp_ret. split; [done|by left].
Qed.

(** A write replaces the journal or leaves it, in both versions. *)
Lemma write_ok (P : option journal_file -> Prop) st m :
  valid_state st -> versions P (m_dir m) -> (fits st -> P (Some (own_file (payload_text st)))) ->
  wp (write_sync st) (fun r m' => m_world m' = m_world m /\ versions P (m_dir m') /\
    (jd_file (m_dir m') = jd_file (m_dir m) \/ jd_file (m_dir m') = Some (own_file (payload_text st)) /\ fits st) /\
    (r = Ok tt -> holds (Some st) (jd_file (m_dir m')) /\ jd_durable (m_dir m') = jd_file (m_dir m'))) m.
Proof.
  intros Hst [Hf Hd] Hnew. unfold write_sync. rewrite journal_payload_text by done.
  apply wp_bind, wp_lift, wp_bind, wp_require; intros Hfit; btauto_hyps.
  2:{ split_and!; try done. by left. }
  fold (fits st) in Hfit. specialize (Hnew Hfit).
  apply wp_bind, wp_gets, wp_bind.
  set (J m' := m_world m' = m_world m /\ jd_file (m_dir m') = jd_file (m_dir m) /\ P (jd_durable (m_dir m'))).
  assert (HJ : forall (r : result unit) m', r <> Ok tt -> J m' -> m_world m' = m_world m /\ versions P (m_dir m') /\
    (jd_file (m_dir m') = jd_file (m_dir m) \/ jd_file (m_dir m') = Some (own_file (payload_text st)) /\ fits st) /\
    (r = Ok tt -> holds (Some st) (jd_file (m_dir m')) /\ jd_durable (m_dir m') = jd_file (m_dir m'))).
  { intros r m' Hr (Hw&Hf'&Hd'). unfold versions. rewrite Hf'. split_and!; try done. by left. }
  assert (Hio : forall (Q : result unit -> machine W -> Prop) m', J m' ->
    (forall r m'', (r = Ok tt \/ r = Raise OSError) -> J m'' -> Q r m'') -> wp io Q m').
  { intros Q m' (Hw&Hf'&Hd') HQ. apply wp_io. intros r m'' [E1 E2] Hr. apply HQ; [done|]. unfold J. by rewrite E1, E2. }
  eapply (wp_mono _ (fun _ m' => J m')).
  { destruct (jd_temporary (m_dir m)); [|by apply wp_ret].
    apply wp_bind, Hio; [done|]. intros r m1 [->| ->] H1; [|done]. apply wp_bind, wp_modify.
    apply wp_bind, Hio; [done|]. intros r m2 [->| ->] (Hw2&Hf2&Hd2); [|done]. apply wp_modify.
    split_and!; [done..|]. cbn. by rewrite Hf2. }
  intros [[]|] m1 H1; [|by apply HJ].
  apply wp_bind, Hio; [done|]. intros r m2 [->| ->] H2; [|by apply HJ]. apply wp_bind, wp_modify.
  apply wp_bind. eapply (wp_mono _ (fun _ m' => J m')).
  { apply wp_try_except, wp_bind, Hio; [done|]. assert (Hcatch : forall e m', J m' ->
      wp (_ ← io; _ ← change_dir (set_temporary false); raise e : M (machine W) unit) (fun _ m' => J m') m').
    { intros e m' Hm. apply wp_bind, Hio; [done|]. intros r m'' [->| ->] Hm'; [|done].
      apply wp_bind, wp_modify, wp_raise. done. }
    intros r m3 [->| ->] H3; [|by apply Hcatch]. apply Hio; [done|]. intros r m4 [->| ->] H4; [done|by apply Hcatch]. }
  intros [[]|] m3 H3; [|by apply HJ].
  apply wp_bind, Hio; [done|]. intros r m4 [->| ->] (Hw4&Hf4&Hd4); [|by apply HJ].
  apply wp_bind, wp_modify, wp_bind, wp_io. intros r m5 [E1 E2] [->| ->]; cbn in E1, E2.
  - apply wp_modify. unfold versions. cbn. rewrite E1, E2. cbn. split_and!; try done. by right.
  - unfold versions. rewrite E1, E2. cbn. split_and!; try done. by right.
Qed.

Lemma clear_ok (P : option journal_file -> Prop) st m :
  holds (Some st) (jd_file (m_dir m)) -> versions P (m_dir m) -> P None ->
  wp clear_sync (fun r m' => m_world m' = m_world m /\ versions P (m_dir m') /\
    (jd_file (m_dir m') = jd_file (m_dir m) \/ jd_file (m_dir m') = None) /\
    (r = Ok tt -> jd_file (m_dir m') = None /\ jd_durable (m_dir m') = None)) m.
Proof.
  intros (_&_&Ho) [Hf Hd] Hnew. unfold clear_sync. apply wp_bind, wp_gets. rewrite Ho in *.
  apply wp_bind, wp_require; [intros _|done]. apply wp_bind, wp_io. intros r m1 [E1 E2] [->| ->].
  2:{ unfold versions. rewrite E1, E2, Ho. split_and!; try done. by left. }
  apply wp_bind, wp_modify, wp_bind, wp_io. intros r m2 [E3 E4] [->| ->]; cbn in E3, E4.
  - apply wp_modify. unfold versions. cbn. rewrite E3, E4, E2. cbn. split_and!; try done. by right.
  - unfold versions. rewrite E3, E4, E2. cbn. rewrite E1. split_and!; try done. by right.
Qed.
End Journal.

Definition sample_state : DeletionState :=
  {| ds_request_id := u "req_1"; ds_record_ids := [2 ^ 100; 7]; ds_phase := RECORDS_DELETED |}.

Lemma journal_round_trip_witness :
  valid_state sample_state /\
  exists b, journal_payload sample_state = Ok b /\ zlen b = 153 /\
    parse_journal (fun _ => Raise ValueError) (fun _ => false) (fun _ => Raise ValueError) b = Ok sample_state.
Proof.
  assert (Hv : valid_state sample_state) by (split; vm_compute; reflexivity). split; [exact Hv|].
  destruct (journal_round_trip (fun _ => Raise ValueError) (fun _ => false) (fun _ => Raise ValueError) sample_state Hv)
    as [(b&H1&H2&H3) _].
  exists b. split; [exact H1|]. split; [exact H2|exact H3].
Defined.
