(* ===== verification/DeletionProps.v ===== *)
(** * DeletionProps: a deletion that has begun is finished, and only it.

    What the coordinator needs of its collaborators is the class
    [DeletionLaws]; the invariant ties the phase in the journal to what has
    been erased.  The system lets runs, file-system failures, power cuts and
    other work alternate. *)

From S2P Require Import Prelude PyStr Json Storage StorageFacts StorageProps PyData Codec CodecFacts Deletion DeletionFacts.

(** ** The contract of the collaborators *)

Section Erasure.
Context {W : Type} (stored indexed summarized : W -> uuid -> Prop).

(** From [w] to [w']: no record but [ids] leaves the storage, none comes back,
    and what the storage lacks enters no derived data. *)
Record touches (ids : list uuid) (w w' : W) : Prop := {
  tc_shrinks x : stored w' x -> stored w x;
  tc_others x : x ∉ ids -> stored w x -> stored w' x;
  tc_index x : ~ stored w x -> indexed w' x -> indexed w x;
  tc_summary x : ~ stored w x -> summarized w' x -> summarized w x }.

Lemma touches_refl ids w : touches ids w w.
Proof. by split. Qed.

Lemma touches_trans ids w w' w'' : touches ids w w' -> touches ids w' w'' -> touches ids w w''.
Proof. intros [] []. split; intros x; naive_solver. Qed.

Lemma touches_mono ids ids' w w' : touches ids w w' -> (forall x, x ∈ ids -> x ∈ ids') -> touches ids' w w'.
Proof. intros [] Hi. split; intros x; naive_solver. Qed.

Definition erased (w : W) (x : uuid) : Prop := ~ stored w x /\ ~ indexed w x /\ ~ summarized w x.

(** What the phase in the journal says of the world. *)
Definition progress (w : W) (st : DeletionState) : Prop :=
  match ds_phase st with
  | PLANNED => True
  | RECORDS_DELETED => forall x, x ∈ ds_record_ids st -> ~ stored w x
  | DERIVED_RECONCILED => forall x, x ∈ ds_record_ids st -> erased w x
  end.

Lemma progress_touches ids w w' st : touches ids w w' -> progress w st -> progress w' st.
Proof.
  intros [] Hp. unfold progress in *. destruct (ds_phase st); [done| |].
  - intros x Hx Hs. apply (Hp x Hx). auto.
  - intros x Hx. destruct (Hp x Hx) as (?&?&?). split_and!; auto.
Qed.
End Erasure.

Class DeletionLaws (W : Type) `{DeletionPorts W} := {
  dl_inv : W -> Prop;
  stored : W -> uuid -> Prop;
  indexed : W -> uuid -> Prop;
  summarized : W -> uuid -> Prop;
  (** no call is going to fail *)
  healthy : W -> Prop;
  storage_delete_law id w : dl_inv w ->
    wp (storage_delete id) (fun r w' => dl_inv w' /\ touches stored indexed summarized [id] w w' /\
      (is_ok r = true -> ~ stored w' id) /\ (healthy w -> healthy w' /\ is_ok r = true)) w;
  index_remove_law ids w : dl_inv w -> (forall x, x ∈ ids -> ~ stored w x) ->
    wp (index_remove ids) (fun r w' => dl_inv w' /\ touches stored indexed summarized [] w w' /\
      (is_ok r = true -> forall x, x ∈ ids -> ~ indexed w' x) /\ (healthy w -> healthy w' /\ is_ok r = true)) w;
  reconcile_law ids w : dl_inv w -> (forall x, x ∈ ids -> ~ stored w x) ->
    wp (reconcile_deleted ids) (fun r w' => dl_inv w' /\ touches stored indexed summarized [] w w' /\
      (is_ok r = true -> forall x, x ∈ ids -> ~ summarized w' x) /\ (healthy w -> healthy w' /\ is_ok r = true)) w }.

(** ** The invariant of the coordinator *)

Section Coordinator.
Context {W : Type} `{DeletionLaws W}.
Variable int16_other : pystr -> result Z.
Variable float_is_one : pystr -> bool.
Variable loads_other : pybytes -> result json.
Implicit Types (m : machine W) (st : DeletionState) (w : W).

Local Abbreviation touches := (touches stored indexed summarized).
Local Abbreviation erased := (erased stored indexed summarized).
Local Abbreviation progress := (progress stored indexed summarized).
Local Abbreviation load_sync := (load_sync (W:=W) int16_other float_is_one loads_other).
Local Abbreviation advance := (advance (W:=W) int16_other float_is_one loads_other).
Local Abbreviation begin_deletion := (begin_deletion (W:=W) int16_other float_is_one loads_other).
Local Abbreviation resume := (resume int16_other float_is_one loads_other).
Local Abbreviation delete_records := (delete_records int16_other float_is_one loads_other).
Local Abbreviation recover_deletions := (recover_deletions int16_other float_is_one loads_other).

(** A file of the journal that the world bears out. *)
Definition justified w (f : option journal_file) : Prop :=
  exists o, holds o f /\ match o with Some st => progress w st | None => True end.

Definition Inv m : Prop := dl_inv (m_world m) /\ versions (justified (m_world m)) (m_dir m).

Lemma justified_touches ids w w' f : touches ids w w' -> justified w f -> justified w' f.
Proof. intros Ht (o&Ho&Hp). exists o. split; [done|]. destruct o; [|done]. by eapply progress_touches. Qed.

Lemma inv_world ids m w' : Inv m -> dl_inv w' -> touches ids (m_world m) w' -> Inv (set_world w' m).
Proof. intros [_ [Hf Hd]] Hw Ht. split; [done|]. split; by eapply justified_touches. Qed.

Lemma inv_same m m' : same_files m m' -> Inv m -> Inv m'.
Proof. intros [E1 E2]. unfold Inv. by rewrite E1, E2. Qed.

Definition with_phase st p : DeletionState :=
  {| ds_request_id := ds_request_id st; ds_record_ids := ds_record_ids st; ds_phase := p |}.

Lemma valid_phase st p : valid_state st -> valid_state (with_phase st p).
Proof. intros [Hm Hu]. split; [by apply make_state_phase|done]. Qed.

(** One write, under the invariant. *)
Lemma inv_write st m :
  Inv m -> valid_state st -> progress (m_world m) st ->
  wp (write_sync st) (fun r m' => Inv m' /\ m_world m' = m_world m /\
    (jd_file (m_dir m') = jd_file (m_dir m) \/ holds (Some st) (jd_file (m_dir m'))) /\
    (r = Ok tt -> holds (Some st) (jd_file (m_dir m')))) m.
Proof.
  intros [Hw Hv] Hst Hp. eapply wp_mono; [apply (write_ok (justified (m_world m))); [done..|]|].
  - intros Hfit. by exists (Some st).
  - intros r m' (Ew&Hv'&Hf&Hok). unfold Inv. rewrite Ew. split_and!; try done.
    + destruct Hf as [Hf|[Hf Hfit]]; [by left|by right].
    + intros Hr. by apply Hok.
Qed.

Lemma begin_deletion_ok request_id ids m :
  Inv m -> forallb uuid_ok ids = true ->
  wp (begin_deletion request_id ids) (fun r m' => Inv m' /\ m_world m' = m_world m /\
    forall st, r = Ok st -> holds (Some st) (jd_file (m_dir m')) /\ progress (m_world m) st /\
      ds_request_id st = request_id /\ ds_record_ids st = ids) m.
Proof.
  intros Hm Hids. unfold Deletion.begin_deletion. apply wp_bind, wp_lift.
  destruct (make_state _) as [st|e] eqn:Hst; [|done].
  pose proof (make_state_ok _ _ Hst) as [-> _]. set (st := {| ds_request_id := request_id |}) in *.
  assert (Hvalid : valid_state st) by done.
  destruct Hm as [Hw [(o&Ho&Hp) Hd]].
  assert (Hm : Inv m) by (split; [done|]; split; [by exists o|done]).
  apply wp_bind. eapply wp_mono; [by apply load_ok|]. intros r m1 [Hs [->| ->]].
  2:{ split; [by eapply inv_same|]. split; [apply Hs|done]. }
  pose proof (inv_same _ _ Hs Hm) as Hm1. destruct Hs as [E1 E2].
  destruct o as [current|].
  - apply wp_bind, wp_require; intros Hc; [|by rewrite E2]. btauto_hyps. apply wp_ret.
    split; [done|]. split; [done|]. intros ? [= <-]. by rewrite E1.
  - apply wp_bind. eapply wp_mono; [by apply (inv_write st)|]. intros [[]|e] m2 (Hm2&Ew&Hf&Hok); rewrite E2 in *; [|done].
    apply wp_ret. split; [done|]. split; [done|]. intros ? [= <-]. split_and!; try done. by apply Hok.
Qed.

Lemma advance_ok p st m :
  Inv m -> holds (Some st) (jd_file (m_dir m)) -> phase_rank p = phase_rank (ds_phase st) + 1 ->
  progress (m_world m) (with_phase st p) ->
  wp (advance p) (fun r m' => Inv m' /\ m_world m' = m_world m /\
    (holds (Some st) (jd_file (m_dir m')) \/ holds (Some (with_phase st p)) (jd_file (m_dir m'))) /\
    forall st', r = Ok st' -> st' = with_phase st p /\ holds (Some st') (jd_file (m_dir m'))) m.
Proof.
  intros Hm Hst Hrank Hp. unfold Deletion.advance. apply wp_bind. eapply wp_mono; [by apply load_ok|].
  intros r m1 [Hs [->| ->]].
  2:{ split; [by eapply inv_same|]. split; [apply Hs|]. destruct Hs as [-> _]. split; [by left|done]. }
  pose proof (inv_same _ _ Hs Hm) as Hm1. destruct Hs as [E1 E2].
  assert (Hfail : forall e : exn, Inv m1 /\ m_world m1 = m_world m /\
    (holds (Some st) (jd_file (m_dir m1)) \/ holds (Some (with_phase st p)) (jd_file (m_dir m1))) /\
    forall st', Raise e = Ok st' -> st' = with_phase st p /\ holds (Some st') (jd_file (m_dir m1))).
  { intros e. rewrite E1. split_and!; try done. by left. }
  apply wp_bind, wp_require; intros _; [|apply Hfail]. apply wp_bind, wp_require; intros _; [|apply Hfail].
  destruct Hst as (Hvalid&Hfits&Hfile). apply wp_bind, wp_lift. rewrite make_state_phase by apply Hvalid.
  apply wp_bind. eapply wp_mono; [apply (inv_write (with_phase st p)); [done|by apply valid_phase|by rewrite E2]|].
  intros [[]|e] m2 (Hm2&Ew&Hf&Hok).
  - apply wp_ret. specialize (Hok eq_refl). split_and!; try done; [by rewrite Ew|by right|]. by intros ? [= <-].
  - split_and!; try done; [by rewrite Ew|]. destruct Hf as [Hf|Hf]; [left|by right]. rewrite Hf, E1. done.
Qed.

(** What every piece of a run of the coordinator keeps. *)
Definition kept (ids : list uuid) m m' : Prop := Inv m' /\ touches ids (m_world m) (m_world m').

Lemma kept_trans ids m m' m'' : kept ids m m' -> kept ids m' m'' -> kept ids m m''.
Proof. intros [_ H1] [Hi H2]. split; [done|]. exact (touches_trans _ _ _ _ _ _ _ H1 H2). Qed.

Lemma kept_world ids m m' : Inv m' -> m_world m' = m_world m -> kept ids m m'.
Proof. intros Hi E. split; [done|]. rewrite E. apply touches_refl. Qed.

(** A collaborator's call. *)
Lemma on_world_ok {A} (call : M W A) (post : result A -> W -> Prop) m :
  Inv m ->
  wp call (fun r w' => dl_inv w' /\ touches [] (m_world m) w' /\ post r w') (m_world m) ->
  wp (on_world call) (fun r m' => kept [] m m' /\ m_dir m' = m_dir m /\ post r (m_world m')) m.
Proof.
  intros Hm Hc. apply wp_zoom. eapply wp_mono; [exact Hc|]. intros r w' (Hw&Ht&Hp).
  split; [|by split]. split; [|done]. by eapply inv_world.
Qed.

(** The loop over the records: the ones before [ids] are gone. *)
Lemma delete_loop_ok all ids m :
  Inv m -> (forall x, x ∈ ids -> x ∈ all) ->
  wp (for_each ids (fun id => _ ← on_world (storage_delete id); mret tt)) (fun r m' =>
    kept all m m' /\ m_dir m' = m_dir m /\ (r = Ok tt -> forall x, x ∈ ids -> ~ stored (m_world m') x)) m.
Proof.
  revert m. induction ids as [|id ids IH]; intros m Hm Hall; cbn [for_each].
  - apply wp_ret. split; [by apply kept_world|]. split; [done|]. by intros _ x Hx%not_elem_of_nil.
  - apply wp_bind, wp_bind, wp_zoom. eapply wp_mono; [apply storage_delete_law, Hm|].
    intros r w1 (Hw1&Ht1&Hok&_).
    assert (Hk : kept all m (set_world w1 m)).
    { split; [by eapply inv_world|]. eapply touches_mono; [exact Ht1|]. intros x Hx%list_elem_of_singleton. subst.
      apply Hall. constructor. }
    destruct r as [b|e]; [|by split; [exact Hk|]]. apply wp_ret.
    eapply wp_mono; [apply IH; [apply Hk|]; intros x Hx; apply Hall; by constructor|].
    intros r m2 (Hk2&Hd&Hdone). split; [by eapply kept_trans|]. split; [done|].
    intros -> x [->|Hx]%elem_of_cons; [|by apply Hdone]. intros Hs. apply (Hok eq_refl).
    by eapply (tc_shrinks _ _ _ _ _ _ (proj2 Hk2)).
Qed.

(** The journal still holds the transaction of [st], in some phase. *)
Definition tracked st m : Prop := exists p, holds (Some (with_phase st p)) (jd_file (m_dir m)).

Lemma tracked_holds st m : holds (Some st) (jd_file (m_dir m)) -> tracked st m.
Proof. intros H1. exists (ds_phase st). by destruct st. Qed.

Lemma tracked_phase st st' m : ds_record_ids st' = ds_record_ids st -> ds_request_id st' = ds_request_id st ->
  tracked st' m -> tracked st m.
Proof. intros E1 E2 [p Hp]. exists p. unfold with_phase in *. by rewrite <- E1, <- E2. Qed.

(** The outcome of one [if] of [resume], entered with [st]. *)
Definition stage st (reached : DeletionPhase -> Prop) m (r : result DeletionState) m' : Prop :=
  kept (ds_record_ids st) m m' /\ (is_ok r = false -> tracked st m') /\
  forall st', r = Ok st' -> holds (Some st') (jd_file (m_dir m')) /\ progress (m_world m') st' /\
    reached (ds_phase st') /\ ds_record_ids st' = ds_record_ids st /\ ds_request_id st' = ds_request_id st.

(** An advance closes a stage. *)
Lemma advance_stage p st reached m m1 :
  kept (ds_record_ids st) m m1 -> holds (Some st) (jd_file (m_dir m1)) ->
  phase_rank p = phase_rank (ds_phase st) + 1 -> progress (m_world m1) (with_phase st p) -> reached p ->
  wp (advance p) (stage st reached m) m1.
Proof.
  intros Hk Hst Hrank Hp Hr. eapply wp_mono; [apply (advance_ok p st); [apply Hk|done..]|].
  intros r m2 (Hi2&Ew&Hf&Hok). split; [eapply kept_trans; [exact Hk|by apply kept_world]|].
  split; [intros _; destruct Hf as [Hf|Hf]; [by apply tracked_holds|by eexists]|].
  intros st' ->. destruct (Hok st' eq_refl) as [-> Hh]. by rewrite Ew.
Qed.

Lemma resume_planned_ok st m :
  Inv m -> holds (Some st) (jd_file (m_dir m)) -> progress (m_world m) st ->
  wp (resume_planned int16_other float_is_one loads_other st) (stage st (fun p => p <> PLANNED) m) m.
Proof.
  intros Hm Hst Hp. unfold resume_planned. case_bool_decide as Hph.
  2:{ apply wp_ret. split; [by apply kept_world|]. split; [done|]. by intros ? [= <-]. }
  apply wp_bind. eapply wp_mono; [by apply delete_loop_ok|]. intros [[]|e] m1 (Hk1&Hd1&Hgone).
  2:{ split; [done|]. split; [intros _; apply tracked_holds; by rewrite Hd1|done]. }
  apply advance_stage; [done|by rewrite Hd1|by rewrite Hph| |done]. intros x Hx. by apply Hgone.
Qed.

Lemma kept_weaken ids m m' : kept [] m m' -> kept ids m m'.
Proof. intros [Hi Ht]. split; [done|]. eapply touches_mono; [exact Ht|]. by intros x Hx%not_elem_of_nil. Qed.

Lemma still_gone (ids ids' : list uuid) m m' : kept ids' m m' ->
  (forall x, x ∈ ids -> ~ stored (m_world m) x) -> forall x, x ∈ ids -> ~ stored (m_world m') x.
Proof. intros [_ Ht] Hg x Hx Hs. apply (Hg x Hx). by eapply (tc_shrinks _ _ _ _ _ _ Ht). Qed.

Lemma resume_deleted_ok st m :
  Inv m -> holds (Some st) (jd_file (m_dir m)) -> progress (m_world m) st -> ds_phase st <> PLANNED ->
  wp (resume_deleted int16_other float_is_one loads_other st) (stage st (fun p => p = DERIVED_RECONCILED) m) m.
Proof.
  intros Hm Hst Hp Hne. unfold resume_deleted. case_bool_decide as Hph.
  2:{ apply wp_ret. split; [by apply kept_world|]. split; [done|]. intros ? [= <-]. split_and!; try done.
      by destruct (ds_phase st). }
  set (ids := ds_record_ids st).
  assert (Hg1 : forall x, x ∈ ids -> ~ stored (m_world m) x) by (unfold DeletionProps.progress in Hp; rewrite Hph in Hp; exact Hp).
  apply wp_bind. eapply wp_mono; [apply on_world_ok; [done|apply index_remove_law; [apply Hm|exact Hg1]]|].
  assert (Hfail : forall (e : exn) m', kept [] m m' -> m_dir m' = m_dir m -> stage st (fun p => p = DERIVED_RECONCILED) m (Raise e) m').
  { intros e m' Hk Hd. split; [by apply kept_weaken|]. split; [intros _; apply tracked_holds; by rewrite Hd|done]. }
  intros [[]|e] m2 (Hk2&Hd2&Hx2&_); [|by apply Hfail]. specialize (Hx2 eq_refl).
  pose proof (still_gone _ _ _ _ Hk2 Hg1) as Hg2.
  apply wp_bind. eapply wp_mono; [apply on_world_ok; [apply Hk2|apply reconcile_law; [apply Hk2|exact Hg2]]|].
  intros r3 m3 (Hk3&Hd3&Hx3&_). pose proof (kept_trans _ _ _ _ Hk2 Hk3) as Hk.
  destruct r3 as [[]|e]; [|apply Hfail; [done|by rewrite Hd3]]. specialize (Hx3 eq_refl).
  apply advance_stage; [by apply kept_weaken|by rewrite Hd3, Hd2|by rewrite Hph| |done].
  intros x Hx. split_and!; [by apply (still_gone ids _ _ _ Hk3)| |by apply Hx3].
  intros Hs. apply (Hx2 x Hx). eapply (tc_index _ _ _ _ _ _ (proj2 Hk3)); [by apply Hg2|done].
Qed.

(** What a resumed transaction leaves when it fails, and when it is done. *)
Definition outcome st (recovered : bool) m (r : result DeletionTransactionResult) m' : Prop :=
  kept (ds_record_ids st) m m' /\
  (is_ok r = false -> tracked st m' \/ forall x, x ∈ ds_record_ids st -> erased (m_world m') x) /\
  forall res, r = Ok res ->
    res = {| dr_request_id := ds_request_id st; dr_deleted_count := zlen (ds_record_ids st); dr_recovered := recovered |} /\
    jd_file (m_dir m') = None /\ forall x, x ∈ ds_record_ids st -> erased (m_world m') x.

Lemma resumed_ok st recovered m :
  Inv m -> holds (Some st) (jd_file (m_dir m)) -> progress (m_world m) st ->
  wp (resume st recovered) (outcome st recovered m) m.
Proof.
  intros Hm Hst Hp. unfold Deletion.resume. apply wp_bind.
  eapply wp_mono; [by apply resume_planned_ok|]. intros r m1 (Hk1&Ht1&H1).
  destruct r as [st1|e]; [|split; [done|]; split; [left; by apply Ht1|done]].
  destruct (H1 st1 eq_refl) as (Hst1&Hp1&Hph1&Hids1&Hreq1). clear H1 Ht1.
  apply wp_bind. eapply wp_mono; [apply resume_deleted_ok; [apply Hk1|done..]|]. intros r m2 (Hk2&Ht2&H2).
  rewrite Hids1 in Hk2. pose proof (kept_trans _ _ _ _ Hk1 Hk2) as Hk.
  destruct r as [st2|e]; [|split; [done|]; split; [left; apply (tracked_phase st st1); [done..|by apply Ht2]|done]].
  destruct (H2 st2 eq_refl) as (Hst2&Hp2&Hph2&Hids2&Hreq2). clear H2 Ht2.
  unfold resume_reconciled. rewrite bool_decide_true by done. apply wp_bind. destruct (proj1 Hk2) as [Hw2 Hv2].
  assert (Her : forall x, x ∈ ds_record_ids st -> erased (m_world m2) x).
  { intros x Hx. unfold DeletionProps.progress in Hp2. rewrite Hph2 in Hp2. apply Hp2. by rewrite Hids2, Hids1. }
  eapply wp_mono; [apply (clear_ok (justified (m_world m2)) st2); [done..|by exists None]|].
  intros r m3 (Ew&Hv3&_&Hok).
  assert (Hk3 : kept (ds_record_ids st) m m3).
  { eapply kept_trans; [exact Hk|]. apply kept_world; [|done]. unfold Inv. by rewrite Ew. }
  destruct r as [[]|e]; [apply wp_ret|]; (split; [done|]; rewrite Ew; split; [by right|]); [|done].
  intros res [= <-]. rewrite Hids2, Hids1, Hreq2, Hreq1. split; [done|]. split; [by apply Hok|done].
Qed.

(** A run of [delete]: it fails before it touches the world, or the journal
    knows of it, or all is done. *)
Lemma delete_records_ok request_id ids m :
  Inv m -> forallb uuid_ok ids = true ->
  wp (delete_records request_id ids) (fun r m' => kept ids m m' /\
    (is_ok r = false -> m_world m' = m_world m \/
       tracked {| ds_request_id := request_id; ds_record_ids := ids; ds_phase := PLANNED |} m' \/
       forall x, x ∈ ids -> erased (m_world m') x) /\
    forall res, r = Ok res ->
      res = {| dr_request_id := request_id; dr_deleted_count := zlen ids; dr_recovered := false |} /\
      jd_file (m_dir m') = None /\ forall x, x ∈ ids -> erased (m_world m') x) m.
Proof.
  intros Hm Hids. pose proof (kept_world ids _ _ Hm eq_refl) as Hk0.
  unfold Deletion.delete_records. apply wp_bind, wp_lift. destruct (validate_request_id _); [|by split; [|split; [left|]]].
  apply wp_bind, wp_lift. destruct (validate_record_ids _); [|by split; [|split; [left|]]].
  apply wp_bind. eapply wp_mono; [by apply begin_deletion_ok|]. intros r m1 (Hm1&Ew&Hr).
  pose proof (kept_world ids _ _ Hm1 Ew) as Hk1. destruct r as [st|e]; [|by split; [|split; [left|]]].
  destruct (Hr st eq_refl) as (Hst&Hp&<-&<-). rewrite <- Ew in Hp.
  eapply wp_mono; [by apply resumed_ok|]. intros r m2 (Hk2&Ht2&H2).
  split; [by eapply kept_trans|]. split; [|exact H2]. intros Hr2. right.
  destruct (Ht2 Hr2) as [[p Hp2]|?]; [left; by exists p|by right].
Qed.

Lemma holds_inj st st' f : holds (Some st) f -> holds (Some st') f -> st = st'.
Proof.
  intros (Hv&_&->) (Hv'&_&E). apply (f_equal (from_option jf_bytes [])) in E.
  change (payload_text st = payload_text st') in E. pose proof (journal_parses int16_other float_is_one loads_other _ Hv) as H1.
  rewrite E, journal_parses in H1 by done. congruence.
Qed.

Lemma recover_none m : jd_file (m_dir m) = None -> recover_deletions m = (m, Ok None).
Proof. intros E. unfold Deletion.recover_deletions, Deletion.load_sync, gets, mbind, M_bind. by rewrite E. Qed.

Lemma holds_progress st m : Inv m -> holds (Some st) (jd_file (m_dir m)) -> progress (m_world m) st.
Proof.
  intros [_ [(o&Ho&Hp) _]] Hst. destruct o as [st'|]; [by rewrite (holds_inj _ _ _ Hst Ho)|].
  destruct Hst as (_&_&E). cbn in Ho. congruence.
Qed.

Lemma recovery_ok st m :
  Inv m -> holds (Some st) (jd_file (m_dir m)) ->
  wp recover_deletions (fun r m' => kept (ds_record_ids st) m m' /\ r <> Ok None /\
    (is_ok r = false -> tracked st m' \/ forall x, x ∈ ds_record_ids st -> erased (m_world m') x) /\
    forall res, r = Ok (Some res) ->
    res = {| dr_request_id := ds_request_id st; dr_deleted_count := zlen (ds_record_ids st); dr_recovered := true |} /\
    jd_file (m_dir m') = None /\ forall x, x ∈ ds_record_ids st -> erased (m_world m') x) m.
Proof.
  intros Hm Hst. pose proof (holds_progress _ _ Hm Hst) as Hp. unfold Deletion.recover_deletions. apply wp_bind.
  eapply wp_mono; [by apply load_ok|]. intros r m1 [Hs Hr]. pose proof (inv_same _ _ Hs Hm) as Hm1.
  destruct Hs as [E1 E2]. assert (Hk : kept (ds_record_ids st) m m1) by by apply kept_world.
  destruct Hr as [->| ->].
  2:{ split; [done|]. split; [done|]. split; [intros _; left; apply tracked_holds; by rewrite E1|done]. }
  apply wp_bind. eapply wp_mono; [apply resumed_ok; [done|by rewrite E1|by rewrite E2]|]. intros r m2 (Hk2&Ht2&H2).
  destruct r as [res|e]; [apply wp_ret|]; (split; [by eapply kept_trans|]; split; [done|]; split; [by auto|]); [|done].
  intros ? [= <-]. by apply H2.
Qed.

(** ** Without failures *)

Definition calm m : Prop := m_io m = [] /\ healthy (m_world m).

(** The payload fits in every phase. *)
Definition fits_all st : Prop := fits (with_phase st DERIVED_RECONCILED).

Lemma fits_phase st p : valid_state st -> fits_all st -> fits (with_phase st p).
Proof.
  intros Hv. unfold fits_all, fits. rewrite !payload_length by (by apply valid_phase).
  cbn [with_phase ds_phase ds_request_id ds_record_ids]. change (zlen (phase_value DERIVED_RECONCILED)) with 18.
  assert (zlen (phase_value p) <= 18) by (by destruct p). lia.
Qed.

Lemma wp_io_calm (Q : result unit -> machine W -> Prop) m : m_io m = [] -> Q (Ok tt) m -> wp io Q m.
Proof. intros E HQ. split. unfold io. by rewrite E. Qed.

(** Takes a file-system call or a primitive of a run in which none fails. *)
Ltac calm_step := first
  [ apply wp_bind | apply wp_modify | apply wp_gets | apply wp_ret | apply wp_try_except
  | apply wp_io_calm; [reflexivity|] | progress cbn beta iota ].

Lemma load_calm st m : m_io m = [] -> holds (Some st) (jd_file (m_dir m)) -> load_sync m = (m, Ok (Some st)).
Proof.
  intros Hio (Hv&Hf&E). unfold Deletion.load_sync, gets, require, mbind, M_bind. rewrite E. cbn [own_file jf_regular jf_owner_only jf_bytes].
  assert ((0 <? zlen (payload_text st)) && (zlen (payload_text st) <=? MAX_JOURNAL_BYTES) = true) as Hsize.
  { apply andb_true_iff. split; [apply Z.ltb_lt, payload_nonempty|by apply Z.leb_le]. }
  setoid_rewrite Hsize. unfold io. rewrite Hio. unfold lift. by rewrite journal_parses.
Qed.

Lemma write_calm st m : m_io m = [] -> valid_state st -> fits st ->
  wp (write_sync st) (fun r m' => r = Ok tt /\ m_io m' = [] /\ m_world m' = m_world m) m.
Proof.
  intros Hio Hv Hf. unfold write_sync. rewrite journal_payload_text by done. destruct m as [d io_ w]. cbn in Hio. subst io_.
  apply wp_bind, wp_lift, wp_bind, wp_require; intros Hc; [|by apply Z.leb_gt in Hc; unfold fits in Hf; lia].
  apply wp_bind, wp_gets. cbn. destruct (jd_temporary d); unfold fsync_directory, change_dir; repeat calm_step; done.
Qed.

Lemma clear_calm st m : m_io m = [] -> holds (Some st) (jd_file (m_dir m)) ->
  wp clear_sync (fun r m' => r = Ok tt /\ m_io m' = [] /\ m_world m' = m_world m) m.
Proof.
  intros Hio (_&_&E). destruct m as [d io_ w]. cbn in *. subst io_. unfold clear_sync, fsync_directory, change_dir.
  apply wp_bind, wp_gets. cbn. rewrite E. apply wp_bind, wp_require; [intros _|done]. repeat calm_step; done.
Qed.

Definition succeeds {A} (r : result A) m' : Prop := is_ok r = true /\ calm m'.

Lemma advance_calm p st m :
  calm m -> holds (Some st) (jd_file (m_dir m)) -> phase_rank p = phase_rank (ds_phase st) + 1 -> fits_all st ->
  wp (advance p) succeeds m.
Proof.
  intros [Hio Hh] Hst Hrank Hf. unfold Deletion.advance. apply wp_bind, wp_of_run. intros ? ? E. rewrite (load_calm st) in E by done.
  injection E as <- <-. apply wp_bind, wp_require; intros Hc; [|apply negb_false_iff, Z.ltb_lt in Hc; lia].
  apply wp_bind, wp_require; intros Hc'; [|apply negb_false_iff, Z.ltb_lt in Hc'; lia].
  destruct Hst as (Hv&_). apply wp_bind, wp_lift. rewrite make_state_phase by apply Hv.
  apply wp_bind. eapply wp_mono; [apply (write_calm (with_phase st p)); [done|by apply valid_phase|by apply fits_phase]|].
  intros r m' (->&Hio'&Ew). apply wp_ret. split; [done|]. split; [done|by rewrite Ew].
Qed.

Lemma delete_loop_calm ids m : Inv m -> calm m ->
  wp (for_each ids (fun id => _ ← on_world (storage_delete id); mret tt)) succeeds m.
Proof.
  revert m. induction ids as [|id ids IH]; intros m Hm [Hio Hh]; cbn [for_each]; [by apply wp_ret|].
  apply wp_bind, wp_bind, wp_zoom. eapply wp_mono; [apply storage_delete_law, Hm|].
  intros r w1 (Hw1&Ht1&_&Hok). destruct (Hok Hh) as [Hh1 Hr]. destruct r; [|done].
  apply wp_ret, IH; [by eapply inv_world|by split].
Qed.

(** A collaborator that has no reason to fail. *)
Lemma on_world_calm {A} (call : M W A) (Q : result A -> W -> Prop) m :
  Inv m -> calm m ->
  wp call (fun r w' => dl_inv w' /\ touches [] (m_world m) w' /\ Q r w' /\ (healthy (m_world m) -> healthy w' /\ is_ok r = true)) (m_world m) ->
  wp (on_world call) (fun r m' => kept [] m m' /\ m_dir m' = m_dir m /\ succeeds r m') m.
Proof.
  intros Hm [Hio Hh] Hc. apply wp_zoom. eapply wp_mono; [exact Hc|]. intros r w' (Hw&Ht&_&Hok).
  destruct (Hok Hh) as [Hh' Hr]. split; [split; [by eapply inv_world|done]|]. by repeat split.
Qed.

Lemma resume_planned_calm st m : Inv m -> calm m -> holds (Some st) (jd_file (m_dir m)) -> fits_all st ->
  wp (resume_planned int16_other float_is_one loads_other st) succeeds m.
Proof.
  intros Hm Hc Hst Hf. unfold resume_planned. case_bool_decide as Hph; [|by apply wp_ret].
  apply wp_bind. eapply wp_mono; [apply wp_conj; [by apply (delete_loop_ok (ds_record_ids st))|by apply delete_loop_calm]|].
  intros r m1 [(Hk&Hd&_) [Hr Hc1]]. destruct r; [|done]. apply (advance_calm _ st); [done|by rewrite Hd|by rewrite Hph|done].
Qed.

Lemma resume_deleted_calm st m : Inv m -> calm m -> holds (Some st) (jd_file (m_dir m)) -> progress (m_world m) st ->
  fits_all st -> ds_phase st <> PLANNED ->
  wp (resume_deleted int16_other float_is_one loads_other st) succeeds m.
Proof.
  intros Hm Hc Hst Hp Hf Hne. unfold resume_deleted. case_bool_decide as Hph; [|by apply wp_ret].
  assert (Hg1 : forall x, x ∈ ds_record_ids st -> ~ stored (m_world m) x)
    by (unfold DeletionProps.progress in Hp; rewrite Hph in Hp; exact Hp).
  apply wp_bind. eapply wp_mono; [eapply on_world_calm; [done|done|apply index_remove_law; [apply Hm|exact Hg1]]|].
  intros r m2 (Hk2&Hd2&Hr2&Hc2). destruct r; [|done]. pose proof (still_gone _ _ _ _ Hk2 Hg1) as Hg2.
  apply wp_bind. eapply wp_mono; [eapply on_world_calm; [apply Hk2|done|apply reconcile_law; [apply Hk2|exact Hg2]]|].
  intros r m3 (Hk3&Hd3&Hr3&Hc3). destruct r; [|done].
  apply (advance_calm _ st); [done|by rewrite Hd3, Hd2|by rewrite Hph|done].
Qed.

Lemma fits_all_same st st' : valid_state st -> valid_state st' -> ds_record_ids st' = ds_record_ids st -> ds_request_id st' = ds_request_id st ->
  fits_all st -> fits_all st'.
Proof. destruct st, st'. cbn. by intros _ _ -> ->. Qed.

Lemma resume_calm st recovered m : Inv m -> calm m -> holds (Some st) (jd_file (m_dir m)) -> fits_all st ->
  wp (resume st recovered) succeeds m.
Proof.
  intros Hm Hc Hst Hf. pose proof (holds_progress _ _ Hm Hst) as Hp. unfold Deletion.resume. apply wp_bind.
  eapply wp_mono; [apply wp_conj; [by apply resume_planned_ok|by apply resume_planned_calm]|].
  intros r m1 [(Hk1&_&H1) [Hr1 Hc1]]. destruct r as [st1|]; [|done].
  destruct (H1 st1 eq_refl) as (Hst1&Hp1&Hph1&Hids1&Hreq1). clear H1.
  assert (Hf1 : fits_all st1) by (apply (fits_all_same st); [apply Hst|apply Hst1|done..]).
  apply wp_bind. eapply wp_mono; [apply wp_conj; [apply resume_deleted_ok; [apply Hk1|done..]|apply resume_deleted_calm; [apply Hk1|done..]]|].
  intros r m2 [(Hk2&_&H2) [Hr2 Hc2]]. destruct r as [st2|]; [|done].
  destruct (H2 st2 eq_refl) as (Hst2&Hp2&Hph2&Hids2&Hreq2). clear H2.
  unfold resume_reconciled. rewrite bool_decide_true by done. apply wp_bind.
  eapply wp_mono; [apply (clear_calm st2); [apply Hc2|done]|]. intros r m3 (->&Hio&Ew).
  apply wp_ret. split; [done|]. split; [done|]. rewrite Ew. apply Hc2.
Qed.

Lemma recover_calm st m : Inv m -> calm m -> holds (Some st) (jd_file (m_dir m)) -> fits_all st ->
  wp recover_deletions succeeds m.
Proof.
  intros Hm Hc Hst Hf. unfold Deletion.recover_deletions. apply wp_bind, wp_of_run. intros ? ? E.
  rewrite (load_calm st) in E by (done || apply Hc). injection E as <- <-. apply wp_bind.
  eapply wp_mono; [by apply resume_calm|]. intros r m1 [Hr Hc1]. destruct r; [|done]. by apply wp_ret.
Qed.

(** ** The system

    Runs of the coordinator, each with the file-system calls that fail in it,
    alternate with power cuts and with whatever else the process does; other
    work may not bring back a record under deletion. *)

Inductive event :=
  | EDelete (request_id : pystr) (ids : list uuid) (faults : list bool) (r : result DeletionTransactionResult)
  | ERecover (faults : list bool) (r : result (option DeletionTransactionResult))
  | EPowerCut (temporary : bool)
  | EWork (w : W).

Definition with_io (faults : list bool) m : machine W :=
  {| m_dir := m_dir m; m_io := faults; m_world := m_world m |}.

Definition after_power_cut (temporary : bool) (d : journal_dir) : journal_dir :=
  {| jd_file := jd_durable d; jd_durable := jd_durable d; jd_temporary := temporary |}.

(** [x] is named by a version of the journal. *)
Definition pending m (x : uuid) : Prop :=
  exists st, (holds (Some st) (jd_file (m_dir m)) \/ holds (Some st) (jd_durable (m_dir m))) /\ x ∈ ds_record_ids st.

Inductive step : machine W -> event -> machine W -> Prop :=
  | step_delete m request_id ids faults r m' :
      forallb uuid_ok ids = true -> delete_records request_id ids (with_io faults m) = (m', r) ->
      step m (EDelete request_id ids faults r) m'
  | step_recover m faults r m' :
      recover_deletions (with_io faults m) = (m', r) -> step m (ERecover faults r) m'
  | step_power_cut m temporary : step m (EPowerCut temporary) (set_dir (after_power_cut temporary (m_dir m)) m)
  | step_work m w :
      dl_inv w ->
      (forall x, pending m x -> ~ stored (m_world m) x -> ~ stored w x /\
         (~ indexed (m_world m) x -> ~ indexed w x) /\ (~ summarized (m_world m) x -> ~ summarized w x)) ->
      step m (EWork w) (set_world w m).

(** The process before the first deletion. *)
Definition initial m : Prop := dl_inv (m_world m) /\ jd_file (m_dir m) = None /\ jd_durable (m_dir m) = None.

Lemma initial_inv m : initial m -> Inv m.
Proof. intros (Hw&Hf&Hd). split; [done|]. split; [rewrite Hf|rewrite Hd]; by exists None. Qed.

Lemma inv_io faults m : Inv m -> Inv (with_io faults m).
Proof. done. Qed.

Lemma recover_inv m m' r : Inv m -> recover_deletions m = (m', r) -> Inv m'.
Proof.
  intros Hm E. pose proof Hm as [_ [(o&Ho&_) _]]. destruct o as [st|].
  - apply (wp_run _ _ _ _ _ E (recovery_ok st m Hm Ho)).
  - rewrite recover_none in E by done. by injection E as <- _.
Qed.

Lemma step_inv m e m' : step m e m' -> Inv m -> Inv m'.
Proof.
  intros Hs Hm. destruct Hs as [m request_id ids faults r m' Hu E|m faults r m' E|m b|m w Hw Hp].
  - exact (proj1 (proj1 (wp_run _ _ _ _ _ E (delete_records_ok request_id ids _ (inv_io faults m Hm) Hu)))).
  - exact (recover_inv _ _ _ (inv_io faults m Hm) E).
  - destruct Hm as [Hw [Hf Hd]]. by split.
  - destruct Hm as [_ [(o&Ho&Hpo) (o'&Ho'&Hpo')]]. split; [done|].
    assert (Hprog : forall st, holds (Some st) (jd_file (m_dir m)) \/ holds (Some st) (jd_durable (m_dir m)) ->
      progress (m_world m) st -> progress w st).
    { intros st Hst. unfold DeletionProps.progress. destruct (ds_phase st); [done| |]; intros H1 x Hx.
      - apply (Hp x); [by exists st|by apply H1].
      - destruct (H1 x Hx) as (?&?&?). destruct (Hp x) as (?&?&?); [by exists st|done|]. split_and!; auto. }
    split; [exists o; split; [done|]; destruct o; auto|exists o'; split; [done|]; destruct o'; auto].
Qed.

Lemma history_inv m0 es m : initial m0 -> steps step m0 es m -> Inv m.
Proof. intros Hinit Hs. eapply (steps_invariant step Inv); eauto using step_inv, initial_inv. Qed.

(** What a run may say and do. *)
Definition run_honest (st : DeletionState) (recovered : bool) m (r : result DeletionTransactionResult) m' : Prop :=
  touches (ds_record_ids st) (m_world m) (m_world m') /\
  match r with
  | Ok res =>
      res = {| dr_request_id := ds_request_id st; dr_deleted_count := zlen (ds_record_ids st); dr_recovered := recovered |} /\
      jd_file (m_dir m') = None /\ forall x, x ∈ ds_record_ids st -> erased (m_world m') x
  | Raise _ =>
      m_world m' = m_world m \/ tracked st m' \/ forall x, x ∈ ds_record_ids st -> erased (m_world m') x
  end.

Definition honest m (e : event) m' : Prop :=
  match e with
  | EDelete request_id ids _ r =>
      run_honest {| ds_request_id := request_id; ds_record_ids := ids; ds_phase := PLANNED |} false m r m'
  | ERecover _ r =>
      match r with
      | Ok None => jd_file (m_dir m) = None /\ m_world m' = m_world m
      | Ok (Some res) => exists st, holds (Some st) (jd_file (m_dir m)) /\ run_honest st true m (Ok res) m'
      | Raise x => exists st, holds (Some st) (jd_file (m_dir m)) /\ run_honest st true m (Raise x) m'
      end
  | EPowerCut _ => m_world m' = m_world m
  | EWork _ => True
  end.

(** C18 (deletion_is_honest): in every history of deletions, recoveries,
    file-system failures, power cuts and other work, a run removes no record
    but the ones of its transaction; when it reports success all of them are
    gone from the storage, the semantic index and the activity snapshot, and
    the journal is empty; when it fails, it has changed nothing, or the journal
    still holds the transaction, or all of it was already done. *)
Theorem deletion_is_honest m0 es m e m' :
  initial m0 -> steps step m0 es m -> step m e m' -> honest m e m'.
Proof.
  intros Hinit Hs Hst. pose proof (history_inv _ _ _ Hinit Hs) as Hm.
  destruct Hst as [m request_id ids faults r m' Hu E|m faults r m' E|m b|m w Hw Hp]; cbn [honest]; [| |done|done].
  - destruct (wp_run _ _ _ _ _ E (delete_records_ok request_id ids _ (inv_io faults m Hm) Hu)) as (Hk&Hf&Hok).
    split; [apply Hk|]. destruct r as [res|x]; [by apply Hok|by apply Hf].
  - pose proof Hm as [_ [(o&Ho&_) _]]. destruct o as [st|].
    + destruct (wp_run _ _ _ _ _ E (recovery_ok st _ (inv_io faults m Hm) Ho)) as (Hk&Hn&Hf&Hok).
      destruct r as [[res|]|x]; [|done|]; exists st; (split; [done|]; split; [apply Hk|]); [by apply Hok|right; by apply Hf].
    + rewrite recover_none in E by done. by injection E as <- <-.
Qed.

(** C19 (begun_deletion_completes): whatever failed or was interrupted before,
    when the journal holds a transaction whose payload fits the journal's size
    limit in every phase (the condition [oversized_deletion_wedges] shows to
    be needed), then once nothing fails any more a single recovery finishes
    the transaction and reports it honestly. *)
Theorem begun_deletion_completes m0 es m st :
  initial m0 -> steps step m0 es m ->
  holds (Some st) (jd_file (m_dir m)) -> fits_all st -> healthy (m_world m) ->
  exists res m', step m (ERecover [] (Ok (Some res))) m' /\ run_honest st true m (Ok res) m'.
Proof.
  intros Hinit Hs Hst Hf Hh. pose proof (history_inv _ _ _ Hinit Hs) as Hm.
  destruct (recover_deletions (with_io [] m)) as [m' r] eqn:E.
  destruct (wp_run _ _ _ _ _ E (recover_calm st _ (inv_io [] m Hm) (conj eq_refl Hh) Hst Hf)) as [Hr _].
  destruct (wp_run _ _ _ _ _ E (recovery_ok st _ (inv_io [] m Hm) Hst)) as (Hk&Hn&_&Hok).
  destruct r as [[res|]|]; [|done|done]. exists res, m'. split; [by constructor|]. split; [apply Hk|by apply Hok].
Qed.

(** ** Transactions that outgrow the journal *)

Lemma advance_too_big p st m :
  holds (Some st) (jd_file (m_dir m)) -> ~ fits (with_phase st p) ->
  wp (advance p) (fun r m' => is_ok r = false /\ same_files m m') m.
Proof.
  intros Hst Hf. unfold Deletion.advance. apply wp_bind. eapply wp_mono; [by apply load_ok|].
  intros r m1 [Hs [->| ->]]; [|done].
  apply wp_bind, wp_require; intros _; [|done]. apply wp_bind, wp_require; intros _; [|done].
  destruct Hst as (Hv&_&_). apply wp_bind, wp_lift. rewrite make_state_phase by apply Hv.
  apply wp_bind. unfold write_sync. apply wp_bind, wp_lift.
  change {| ds_request_id := ds_request_id st; ds_record_ids := ds_record_ids st; ds_phase := p |} with (with_phase st p).
  rewrite journal_payload_text by (by apply valid_phase).
  apply wp_bind, wp_require; intros Hc; [|done]. by apply Z.leb_le in Hc.
Qed.

Definition wedged st m : Prop :=
  Inv m /\ holds (Some st) (jd_file (m_dir m)) /\ ds_phase st = PLANNED /\ ~ fits (with_phase st RECORDS_DELETED).

Lemma resume_wedged st recovered m : wedged st m ->
  wp (resume st recovered) (fun r m' => is_ok r = false /\ wedged st m') m.
Proof.
  intros (Hm&Hst&Hph&Hf). unfold Deletion.resume, resume_planned. rewrite bool_decide_true by done.
  apply wp_bind, wp_bind. eapply wp_mono; [by apply (delete_loop_ok (ds_record_ids st))|]. intros r m1 (Hk&Hd&_).
  assert (Hw1 : wedged st m1) by (split; [apply Hk|by rewrite Hd]). destruct r as [[]|e]; [|done].
  eapply wp_mono; [apply (advance_too_big RECORDS_DELETED st); [by rewrite Hd|done]|].
  intros r m2 [Hr [E1 E2]]. destruct r; [done|]. split; [done|]. destruct Hw1 as (Hm1&?&?&?).
  split; [by eapply inv_same|]. by rewrite E1.
Qed.

Lemma recover_wedged st m : wedged st m -> wp recover_deletions (fun r m' => is_ok r = false /\ wedged st m') m.
Proof.
  intros Hw. pose proof Hw as (Hm&Hst&_). unfold Deletion.recover_deletions. apply wp_bind.
  eapply wp_mono; [by apply load_ok|]. intros r m1 [Hs Hr].
  assert (Hw1 : wedged st m1) by (destruct Hw as (?&?&?&?); split; [by eapply inv_same|]; by rewrite (proj1 Hs)).
  destruct Hr as [->| ->]; [|done]. apply wp_bind. eapply wp_mono; [by apply resume_wedged|].
  intros r m2 [Hr Hw2]. by destruct r.
Qed.

Lemma delete_wedged st request_id ids m : wedged st m ->
  wp (delete_records request_id ids) (fun r m' => is_ok r = false /\ wedged st m') m.
Proof.
  intros Hw. pose proof Hw as (Hm&Hst&_). unfold Deletion.delete_records, Deletion.begin_deletion.
  apply wp_bind, wp_lift. destruct (validate_request_id _); [|done].
  apply wp_bind, wp_lift. destruct (validate_record_ids _); [|done].
  apply wp_bind, wp_bind, wp_lift. destruct (make_state _); [|done].
  apply wp_bind. eapply wp_mono; [by apply load_ok|]. intros r m1 [Hs Hr].
  assert (Hw1 : wedged st m1) by (destruct Hw as (?&?&?&?); split; [by eapply inv_same|]; by rewrite (proj1 Hs)).
  destruct Hr as [->| ->]; [|done]. apply wp_bind, wp_require; intros _; [|done]. apply wp_ret. by apply resume_wedged.
Qed.

(** C20 (oversized_deletion_wedges): a transaction whose journal fits while it
    is planned but not once its records are deleted is never finished: every
    recovery, every retry and every other deletion fails, with any faults, and
    the journal keeps holding it. *)
Theorem oversized_deletion_wedges m0 es m st e m' :
  initial m0 -> steps step m0 es m ->
  holds (Some st) (jd_file (m_dir m)) -> ds_phase st = PLANNED -> ~ fits (with_phase st RECORDS_DELETED) ->
  step m e m' ->
  match e with
  | EDelete _ _ _ r => is_ok r = false /\ holds (Some st) (jd_file (m_dir m'))
  | ERecover _ r => is_ok r = false /\ holds (Some st) (jd_file (m_dir m'))
  | EPowerCut _ => True
  | EWork _ => holds (Some st) (jd_file (m_dir m'))
  end.
Proof.
  intros Hinit Hs Hst Hph Hf Hstep. pose proof (history_inv _ _ _ Hinit Hs) as Hm.
  assert (Hw : forall faults, wedged st (with_io faults m)) by (intros faults; by split; [apply inv_io|]).
  destruct Hstep as [m request_id ids faults r m' Hu E|m faults r m' E|m b|m w Hwd Hp]; [| |done|done].
  - destruct (wp_run _ _ _ _ _ E (delete_wedged st request_id ids _ (Hw faults))) as [Hr (_&Hst'&_)]. by split.
  - destruct (wp_run _ _ _ _ _ E (recover_wedged st _ (Hw faults))) as [Hr (_&Hst'&_)]. by split.
Qed.

(** Such a transaction is accepted. *)
Lemma oversized_is_accepted st m :
  Inv m -> m_io m = [] -> jd_file (m_dir m) = None -> valid_state st -> ds_phase st = PLANNED ->
  fits st -> ~ fits (with_phase st RECORDS_DELETED) ->
  wp (delete_records (ds_request_id st) (ds_record_ids st)) (fun r m' => is_ok r = false /\ wedged st m') m.
Proof.
  intros Hm Hio Hn Hv Hph Hf Hnf.
  assert (E : {| ds_request_id := ds_request_id st; ds_record_ids := ds_record_ids st; ds_phase := PLANNED |} = st)
    by (destruct st; cbn in *; by subst).
  unfold Deletion.delete_records, Deletion.begin_deletion. pose proof Hv as [Hmk Hu]. rewrite E, Hmk. unfold make_state in Hmk.
  apply wp_bind, wp_lift. destruct (validate_request_id _); [|done].
  apply wp_bind, wp_lift. destruct (validate_record_ids _); [|done].
  apply wp_bind, wp_bind, wp_lift, wp_bind. apply wp_of_run. intros m1 r1 E1.
  unfold Deletion.load_sync, gets, mbind, M_bind in E1. rewrite Hn in E1. injection E1 as <- <-.
  apply wp_bind. eapply wp_mono; [apply wp_conj; [apply (inv_write st)|by apply (write_calm st)]|].
  - done.
  - done.
  - by unfold DeletionProps.progress; rewrite Hph.
  - intros r m1 [(Hm1&Ew&_&Hok) (->&_&_)]. apply wp_ret, resume_wedged. split; [done|]. by split; [apply Hok|].
Qed.
End Coordinator.

(** ** The coordinator over the encrypted storage

    The storage is the program's; the identifiers the semantic index and the
    activity snapshot mention are sets. *)

Record vault := {
  va_store : store;
  va_index : gset uuid;
  va_summaries : gset uuid;
  (** whether the coming deletes die after marking the row; whether the index is out of order *)
  va_faults : list bool;
  va_down : bool }.

Lemma delete_record_rows `{EnvelopeCodec} fault id s :
  wp (delete_record fault id) (fun r s' =>
    (forall x, x <> id -> s_records s' !! x = s_records s !! x) /\
    (is_Some (s_records s' !! id) -> is_Some (s_records s !! id)) /\
    (is_ok r = true -> s_records s' !! id = None) /\
    (fault AfterDeleteMark = false ->
     (forall md st, s_records s !! id = Some (md, st) -> is_ok (blob_path (md_blob_token md)) = true) -> is_ok r = true)) s.
Proof.
  unfold delete_record. apply wp_bind, wp_gets. destruct (s_records s !! id) as [[md st]|] eqn:Hr.
  2:{ apply wp_ret. by rewrite Hr. }
  apply wp_bind, wp_modify, wp_bind, wp_require; intros Hf.
  - apply wp_bind, wp_lift. destruct (blob_path _) as [p|] eqn:Hp.
    + apply wp_bind, wp_modify, wp_bind, wp_modify, wp_ret. cbn. rewrite lookup_delete_eq. split_and!; try done.
      intros x Hx. by rewrite lookup_delete_ne, lookup_insert_ne.
    + cbn. split_and!; try done; [intros x Hx; by rewrite lookup_insert_ne|].
      intros _ Hall. specialize (Hall _ _ eq_refl). by rewrite Hp in Hall.
  - cbn. split_and!; try done; [intros x Hx; by rewrite lookup_insert_ne|].
    intros E. by rewrite E in Hf.
Qed.

Section Vault.
Context `{EnvelopeCodec}.
Variables (sha256 : pybytes -> pybytes) (max_blob_bytes : Z).

Definition set_store (s : store) (v : vault) : vault :=
  {| va_store := s; va_index := va_index v; va_summaries := va_summaries v;
     va_faults := tail (va_faults v); va_down := va_down v |}.

#[local] Instance vault_ports : DeletionPorts vault := {
  storage_delete id v :=
    let (s, r) := delete_record (fun _ => hd false (va_faults v)) id (va_store v) in (set_store s v, r);
  index_remove ids v :=
    if va_down v then (v, Raise RuntimeError)
    else ({| va_store := va_store v; va_index := va_index v ∖ list_to_set ids; va_summaries := va_summaries v;
             va_faults := va_faults v; va_down := va_down v |}, Ok tt);
  reconcile_deleted ids v :=
    ({| va_store := va_store v; va_index := va_index v;
        va_summaries := filter (fun x => is_Some (s_records (va_store v) !! x) /\ x ∉ ids) (va_summaries v);
        va_faults := va_faults v; va_down := va_down v |}, Ok tt) }.

Definition va_inv (v : vault) : Prop := wf sha256 max_blob_bytes (va_store v).
Definition va_stored (v : vault) (x : uuid) : Prop := is_Some (s_records (va_store v) !! x).
Definition va_indexed (v : vault) (x : uuid) : Prop := x ∈ va_index v.
Definition va_summarized (v : vault) (x : uuid) : Prop := x ∈ va_summaries v.
Definition va_healthy (v : vault) : Prop := va_faults v = [] /\ va_down v = false.
Local Abbreviation vtouches := (touches va_stored va_indexed va_summarized).

Lemma vault_delete_law id v : va_inv v ->
  wp (storage_delete id) (fun r v' => va_inv v' /\ vtouches [id] v v' /\
    (is_ok r = true -> ~ va_stored v' id) /\ (va_healthy v -> va_healthy v' /\ is_ok r = true)) v.
Proof.
  intros Hw. apply wp_of_run. intros v' r E. cbn in E.
  destruct (delete_record _ id (va_store v)) as [s r'] eqn:Ed. injection E as <- <-.
  destruct (wp_run _ _ _ _ _ Ed (delete_record_rows _ id (va_store v))) as (H1&H2&H3&H4).
  destruct (wp_run _ _ _ _ _ Ed (delete_ok sha256 max_blob_bytes _ id (va_store v) Hw)) as (Hw'&_).
  split; [exact Hw'|]. split; [split; unfold va_stored; cbn; try done|split].
  - intros x Hx. destruct (decide (x = id)) as [->|Hne]; [by apply H2|by rewrite <- H1].
  - intros x Hx Hs. rewrite H1; [done|]. intros ->. apply Hx. constructor.
  - unfold va_stored. cbn. intros Hr Hs. rewrite (H3 Hr) in Hs. by destruct Hs.
  - intros [Hf Hd]. split; [split; cbn; [by rewrite Hf|done]|]. apply H4; [by rewrite Hf|].
    intros md st Hr. by rewrite (wf_row_path _ _ _ _ _ _ Hw Hr).
Qed.

Lemma vault_index_law ids v : va_inv v ->
  wp (index_remove ids) (fun r v' => va_inv v' /\ vtouches [] v v' /\
    (is_ok r = true -> forall x, x ∈ ids -> ~ va_indexed v' x) /\ (va_healthy v -> va_healthy v' /\ is_ok r = true)) v.
Proof.
  intros Hw. split. cbn. destruct (va_down v) eqn:Hd; cbn.
  - split; [exact Hw|]. split; [apply touches_refl|]. split; [done|]. intros [_ Hd']. congruence.
  - split; [exact Hw|]. split; [split; unfold va_stored, va_indexed, va_summarized; cbn; set_solver|].
    split; [unfold va_indexed; cbn; set_solver|]. by intros [].
Qed.

Lemma vault_reconcile_law ids v : va_inv v ->
  wp (reconcile_deleted ids) (fun r v' => va_inv v' /\ vtouches [] v v' /\
    (is_ok r = true -> forall x, x ∈ ids -> ~ va_summarized v' x) /\ (va_healthy v -> va_healthy v' /\ is_ok r = true)) v.
Proof.
  intros Hw. split. cbn. split; [exact Hw|].
  split; [split; unfold va_stored, va_indexed, va_summarized; cbn; set_solver|].
  split; [|by intros []]. unfold va_summarized. cbn. intros _ x Hx [[_ Hn] _]%elem_of_filter. done.
Qed.

#[local] Instance vault_laws : DeletionLaws vault := {
  dl_inv := va_inv; stored := va_stored; indexed := va_indexed; summarized := va_summarized; healthy := va_healthy;
  storage_delete_law := vault_delete_law;
  index_remove_law ids v Hw _ := vault_index_law ids v Hw;
  reconcile_law ids v Hw _ := vault_reconcile_law ids v Hw }.
End Vault.

(** ** Runs *)

Definition no_int16 (s : pystr) : result Z := Raise ValueError.
Definition no_float (s : pystr) : bool := false.
Definition no_loads (b : pybytes) : result json := Raise ValueError.

#[local] Existing Instance vault_ports.
#[local] Instance toy_laws : DeletionLaws vault := vault_laws (fun b => b) 1024.

Definition toy_s2 : store := (put (fun b => b) 4096 1024 no_fault (toy_envelope 2) toy_s1).1.
Definition toy_vault : vault :=
  {| va_store := toy_s2; va_index := {[ toy_id 1; toy_id 2 ]}; va_summaries := {[ toy_id 1; toy_id 2 ]};
     va_faults := []; va_down := false |}.
Definition toy_machine : machine vault := {| m_dir := empty_dir; m_io := []; m_world := toy_vault |}.

Definition toy_delete (faults : list bool) (m : machine vault) :=
  delete_records no_int16 no_float no_loads (u "r1") [toy_id 1] (with_io faults m).
Definition toy_recover_deletions (faults : list bool) (m : machine vault) :=
  recover_deletions no_int16 no_float no_loads (with_io faults m).

Definition toy_gone (m : machine vault) (n : Z) : bool :=
  bool_decide (s_records (va_store (m_world m)) !! toy_id n = None) &&
  bool_decide (toy_id n ∉ va_index (m_world m)) && bool_decide (toy_id n ∉ va_summaries (m_world m)).

(** Wherever the process dies after the journal has been written (five calls),
    power cut included, the next recovery finishes the deletion and leaves the
    other record alone; before that nothing is deleted. *)
Example dying_anywhere :
  forallb (fun k =>
    let m1 := (toy_delete (replicate k true ++ replicate 30 false) toy_machine).1 in
    let m2 := (toy_recover_deletions [] (set_dir (after_power_cut true (m_dir m1)) m1)).1 in
    Bool.eqb (toy_gone m2 1) (5 <=? Z.of_nat k) && negb (toy_gone m2 2) && bool_decide (jd_file (m_dir m2) = None))
    (seq 0 22) = true.
Proof. vm_compute. reflexivity. Qed.

(** The journal's directory could not be synced and the deletion failed; the
    retry takes the journal as it finds it and deletes the record.  A power
    cut then loses the journal, and nothing removes what is derived from the
    record. *)
Example unsynced_journal_is_trusted :
  let m1 := (toy_delete [true; true; true; true; false] toy_machine).1 in
  let m2 := (toy_delete [true; false] m1).1 in
  let m3 := set_dir (after_power_cut false (m_dir m2)) m2 in
  (toy_recover_deletions [] m3).2 = Ok None /\ s_records (va_store (m_world m3)) !! toy_id 1 = None /\
  bool_decide (toy_id 1 ∈ va_index (m_world m3)) = true.
Proof. vm_compute. repeat split. Qed.

Lemma toy_s2_wf : wf (fun b => b) 1024 toy_s2.
Proof.
  apply (history_wf (fun b => b) 4096 1024 toy_s1 [(no_fault, SPut (toy_envelope 2))]);
    [exact toy_s1_wf|]. econstructor; [split; reflexivity|constructor].
Qed.

Lemma toy_initial : @initial vault vault_ports toy_laws toy_machine.
Proof. split; [exact toy_s2_wf|done]. Qed.

(** A deletion that dies when the first record is gone. *)
Definition toy_faults : list bool := replicate 5 true ++ replicate 9 false.
Definition toy_m1 : machine vault := (toy_delete toy_faults toy_machine).1.
Definition toy_r1 := (toy_delete toy_faults toy_machine).2.
Definition toy_m2 : machine vault := (toy_recover_deletions [] toy_m1).1.
Definition toy_r2 := (toy_recover_deletions [] toy_m1).2.
Definition toy_state : DeletionState :=
  {| ds_request_id := u "r1"; ds_record_ids := [toy_id 1]; ds_phase := PLANNED |}.

Local Abbreviation toy_step :=
  (@step vault vault_ports toy_laws no_int16 no_float no_loads).

Lemma toy_steps : steps toy_step toy_machine [EDelete (u "r1") [toy_id 1] toy_faults toy_r1] toy_m1.
Proof.
  econstructor; [|constructor]. apply step_delete; [vm_compute; reflexivity|apply surjective_pairing].
Qed.

Lemma toy_m1_holds : holds (Some toy_state) (jd_file (m_dir toy_m1)).
Proof. split; [split; vm_compute; reflexivity|]. split; [vm_compute; discriminate|]. vm_compute. reflexivity. Qed.

Lemma deletion_is_honest_witness :
  toy_step toy_m1 (ERecover [] toy_r2) toy_m2 /\
  @honest vault vault_ports toy_laws toy_m1 (ERecover [] toy_r2) toy_m2.
Proof.
  assert (Hstep : toy_step toy_m1 (ERecover [] toy_r2) toy_m2).
  { apply step_recover, surjective_pairing. }
  split; [exact Hstep|].
  exact (deletion_is_honest no_int16 no_float no_loads toy_machine _ toy_m1 _ toy_m2 toy_initial toy_steps Hstep).
Defined.

Lemma begun_deletion_completes_witness :
  exists res m', toy_step toy_m1 (ERecover [] (Ok (Some res))) m' /\
    @run_honest vault vault_ports toy_laws toy_state true toy_m1 (Ok res) m'.
Proof.
  apply (begun_deletion_completes no_int16 no_float no_loads toy_machine _ toy_m1 toy_state toy_initial toy_steps toy_m1_holds).
  - vm_compute. discriminate.
  - split; vm_compute; reflexivity.
Defined.

(** ** A deletion of 1678 records *)

Lemma make_state_intro request_id ids p :
  1 <= zlen request_id <= 128 -> forallb is_request_char request_id = true -> 1 <= zlen ids <= MAX_RECORD_IDS -> NoDup ids ->
  let st := {| ds_request_id := request_id; ds_record_ids := ids; ds_phase := p |} in make_state st = Ok st.
Proof.
  intros [H1 H2] Hc [H3 H4] Hn. unfold make_state, validate_request_id, validate_record_ids. cbn [ds_request_id ds_record_ids].
  rewrite (proj2 (Z.leb_le _ _) H1), (proj2 (Z.leb_le _ _) H2), Hc, (proj2 (Z.ltb_ge _ _) H4).
  rewrite (bool_decide_false (ids = [])) by (intros ->; by apply H3). by rewrite bool_decide_true.
Qed.

Definition many : list uuid := (fun n => 2 ^ 100 + n) <$> seqZ 0 1678.
Definition many_request : pystr := replicate 32 48.
Definition many_state : DeletionState :=
  {| ds_request_id := many_request; ds_record_ids := many; ds_phase := PLANNED |}.

Lemma many_length : zlen many = 1678.
Proof. unfold many, zlen. rewrite length_fmap, length_seqZ. reflexivity. Qed.

Lemma many_valid : valid_state many_state.
Proof.
  split.
  - apply make_state_intro; [done|done|by rewrite many_length|].
    apply NoDup_fmap_2; [intros x y; lia|apply NoDup_seqZ].
  - apply List.forallb_forall. intros r Hr%list_elem_of_In. apply list_elem_of_fmap in Hr as (n&->&Hn%elem_of_seqZ).
    unfold uuid_ok. apply andb_true_iff. rewrite Z.leb_le, Z.ltb_lt. lia.
Qed.

Lemma many_sizes : fits many_state /\ ~ fits (with_phase many_state RECORDS_DELETED).
Proof.
  unfold fits. rewrite !payload_length by (exact many_valid || apply valid_phase, many_valid).
  cbn [ds_phase ds_request_id ds_record_ids many_state with_phase]. rewrite many_length.
  change (zlen many_request) with 32. change (zlen (phase_value PLANNED)) with 7.
  change (zlen (phase_value RECORDS_DELETED)) with 15. unfold MAX_JOURNAL_BYTES. lia.
Qed.

Definition many_machine : machine vault := (delete_records no_int16 no_float no_loads many_request many (with_io [] toy_machine)).1.
Definition many_result := (delete_records no_int16 no_float no_loads many_request many (with_io [] toy_machine)).2.

Lemma many_steps : steps toy_step toy_machine [EDelete many_request many [] many_result] many_machine.
Proof.
  econstructor; [|constructor]. apply step_delete; [exact (proj2 many_valid)|apply surjective_pairing].
Qed.

Definition many_after : machine vault := (toy_recover_deletions [] many_machine).1.
Definition many_answer := (toy_recover_deletions [] many_machine).2.

Lemma oversized_deletion_wedges_witness :
  toy_step many_machine (ERecover [] many_answer) many_after /\
  is_ok many_answer = false /\ holds (Some many_state) (jd_file (m_dir many_after)).
Proof.
  assert (Hstep : toy_step many_machine (ERecover [] many_answer) many_after)
    by (apply step_recover, surjective_pairing).
  split; [exact Hstep|].
  pose proof (wp_elim _ _ _ (oversized_is_accepted no_int16 no_float no_loads many_state (with_io [] toy_machine)
    (initial_inv _ toy_initial) eq_refl eq_refl many_valid eq_refl (proj1 many_sizes) (proj2 many_sizes))) as Hw.
  destruct Hw as (_&_&Hh&_).
  exact (oversized_deletion_wedges no_int16 no_float no_loads toy_machine _ many_machine many_state _ many_after
    toy_initial many_steps Hh eq_refl (proj2 many_sizes) Hstep).
Defined.
