(* ===== verification/PyLib.v ===== *)
(** * PyLib: what the snapshot files leave to Python's library.

    [PyLibrary] collects the library's behaviour outside the forms the program
    writes (unusual UUID and date texts, encodings other than UTF-8) and the
    text of a float, of which only the documented round trip is used.
    [sample_library] is one such library. *)

From S2P Require Import Prelude PyStr PyFloat Json JsonFacts Storage PyData Codec.

Class PyLibrary := {
  lib_int16 : pystr -> result Z;
  lib_fromisoformat : pystr -> result (option datetime);
  lib_loads : pybytes -> result json;
  lib_key_handle : pystr -> pystr -> pystr -> result KeyHandle;
  (** [repr(x)], and [float(text)] of a literal or of a string *)
  lib_repr : pyfloat -> pystr;
  lib_float : pystr -> result pyfloat;
  (** the integer a literal with a point equals *)
  lib_integral : pystr -> result Z;
  lib_repr_text x : is_finite x = true -> float_text (lib_repr x) = true;
  lib_repr_round_trip x : is_finite x = true -> lib_float (lib_repr x) = Ok x }.

Section Library.
Context {L : PyLibrary}.

(** A literal with a point equals [n]. *)
Definition float_equals (n : Z) (literal : pystr) : bool :=
  match lib_float literal with Ok x => feq x (float_of n) | Raise _ => false end.

(** [float.__repr__] in the printer's hands *)
Definition float_literal (x : pyfloat) : pystr :=
  match x with
  | S754_nan => u "NaN"
  | S754_infinity s => if s then u "-Infinity" else u "Infinity"
  | x => lib_repr x
  end.

(** [j[key]]: what is no dictionary refuses a string subscript. *)
Definition subscript (j : json) (key : pystr) : result json :=
  match j with JDict d => field d key | _ => Raise TypeError end.

(** [not j] *)
Definition falsy (j : json) : bool :=
  match j with
  | JNull | JBool false | JInt 0 | JStr [] | JList [] | JDict [] => true
  | JFloat literal => float_equals 0 literal
  | _ => false
  end.

(** [iter(j)] *)
Definition iterate (j : json) : result (list json) :=
  match j with
  | JList l => Ok l
  | JStr s => Ok ((fun c => JStr [c]) <$> s)
  | JDict d => Ok (JStr <$> d.*1)
  | _ => Raise TypeError
  end.

(** [require_nonempty(j)] of a decoded value, and the string it is. *)
Definition required_string (j : json) : result pystr :=
  match j with
  | JStr s => _ ← require_nonempty s; mret s
  | j => if falsy j then Raise ValueError else Raise AttributeError
  end.

(** [UUID(j)]: what is no string has no [replace]. *)
Definition parse_uuid (j : json) : result uuid :=
  match j with
  | JStr s => uuid_of_text lib_int16 s
  | JNull => Raise TypeError
  | _ => Raise AttributeError
  end.

(** [datetime.fromisoformat(j)] *)
Definition parse_datetime (j : json) : result (option datetime) :=
  match j with JStr s => fromisoformat lib_fromisoformat s | _ => Raise TypeError end.

(** [float(j)]: an integer is rounded to the nearest float. *)
Definition parse_float (j : json) : result pyfloat :=
  match j with
  | JFloat literal => lib_float literal
  | JStr s => lib_float s
  | JInt n => if is_finite (float_of n) then Ok (float_of n) else Raise OverflowError
  | JBool b => Ok (float_of (if b then 1 else 0))
  | _ => Raise TypeError
  end.
End Library.

(** ** A library *)

(** The mantissa and the binary exponent, in decimal. *)
Definition sample_repr (x : pyfloat) : pystr :=
  let text (s : bool) (m e : Z) :=
    (if s then [45] else []) ++ str_of_nonneg m ++ 101 :: (if e <? 0 then 45 else 43) :: str_of_nonneg (Z.abs e) in
  match x with
  | S754_zero s => text s 0 0
  | S754_finite s m e => text s (Zpos m) e
  | _ => []
  end.

Definition sample_float (t : pystr) : result pyfloat :=
  let '(s, t) := match t with c :: t' => if c =? 45 then (true, t') else (false, t) | [] => (false, []) end in
  match span_digits t with
  | (ds, _ :: g :: es) =>
      let e := if g =? 45 then - digits_value es else digits_value es in
      match digits_value ds with
      | 0 => Ok (S754_zero s)
      | Zpos m => Ok (S754_finite s m e)
      | _ => Raise ValueError
      end
  | _ => Raise ValueError
  end.

Lemma digit_not c : is_digit c = true -> c <> 45 /\ c <> 43 /\ c <> 46 /\ c <> 101 /\ c <> 69.
Proof. unfold is_digit. intros H. btauto_hyps. lia. Qed.

Definition sample_text (s : bool) (m e : Z) : pystr :=
  (if s then [45] else []) ++ str_of_nonneg m ++ 101 :: (if e <? 0 then 45 else 43) :: str_of_nonneg (Z.abs e).

Lemma span_mantissa m rest : 0 <= m -> span_digits (str_of_nonneg m ++ 101 :: rest) = (str_of_nonneg m, 101 :: rest).
Proof.
  intros Hm. destruct (str_of_nonneg_ok m Hm) as (Hd&_).
  induction Hd as [|c ds Hc _ IH]; cbn [app span_digits]; [done|]. by rewrite Hc, IH.
Qed.

Lemma sample_float_text s m e : 0 <= m ->
  sample_float (sample_text s m e) =
  match m with 0 => Ok (S754_zero s) | Zpos p => Ok (S754_finite s p e) | _ => Raise ValueError end.
Proof.
  intros Hm. unfold sample_float, sample_text. destruct (str_of_nonneg_ok m Hm) as (Hd&Hv&d&ds&Hs&_).
  destruct (str_of_nonneg_ok (Z.abs e)) as (_&He&_); [lia|].
  assert (Hsign : forall b : bool, (match (if b then [45] else []) ++ str_of_nonneg m ++ 101 :: (if e <? 0 then 45 else 43) :: str_of_nonneg (Z.abs e) with
    c :: t' => if c =? 45 then (true, t') else (false, (if b then [45] else []) ++ str_of_nonneg m ++ 101 :: (if e <? 0 then 45 else 43) :: str_of_nonneg (Z.abs e)) | [] => (false, []) end)
    = (b, str_of_nonneg m ++ 101 :: (if e <? 0 then 45 else 43) :: str_of_nonneg (Z.abs e))).
  { intros []; [done|]. rewrite Hs in Hd |- *. apply Forall_cons in Hd as [Hd _]. cbn [app].
    by rewrite (proj2 (Z.eqb_neq d 45)) by apply digit_not, Hd. }
  rewrite Hsign, span_mantissa, Hv, He by done. destruct m; try done.
  destruct (Z.ltb_spec e 0); [change (45 =? 45) with true|change (43 =? 45) with false]; cbn iota; do 2 f_equal; lia.
Qed.

Lemma sample_text_ascii s m e : 0 <= m -> forallb (fun c => (0 <=? c) && (c <? 128)) (sample_text s m e) = true.
Proof.
  intros Hm. destruct (str_of_nonneg_ok m Hm) as (Hd&_). destruct (str_of_nonneg_ok (Z.abs e)) as (Hed&_); [lia|].
  assert (Hasc : forall l, Forall (fun c => is_digit c = true) l -> forallb (fun c => (0 <=? c) && (c <? 128)) l = true).
  { intros l Hl. apply List.forallb_forall. intros c Hc%list_elem_of_In. rewrite Forall_forall in Hl. apply Hl in Hc.
    unfold is_digit in Hc. btauto_hyps. apply andb_true_iff. rewrite Z.leb_le, Z.ltb_lt. lia. }
  unfold sample_text. rewrite !forallb_app. cbn [forallb]. rewrite (Hasc _ Hd), (Hasc _ Hed). by destruct s, (e <? 0).
Qed.

Lemma sample_text_float s m e : 0 <= m -> float_text (sample_text s m e) = true.
Proof.
  intros Hm. unfold float_text. apply andb_true_iff. split; [by apply sample_text_ascii|].
  destruct (str_of_nonneg_ok m Hm) as (Hd&_&d&ds&Hs&Hz). destruct (str_of_nonneg_ok (Z.abs e)) as (Hed&_&ed&eds&Hes&_); [lia|].
  set (g := if e <? 0 then 45 else 43). set (es := str_of_nonneg (Z.abs e)) in *.
  assert (Hint : span_integer (str_of_nonneg m ++ 101 :: g :: es) = (str_of_nonneg m, 101 :: g :: es)).
  { pose proof (span_mantissa m (g :: es) Hm) as Hsp. rewrite Hs in Hsp |- *. cbn [app span_integer] in *.
    destruct (Z.eqb_spec d 48) as [->|]; [|done]. by destruct (Hz eq_refl) as [-> _]. }
  assert (Hexp : span_exponent (101 :: g :: es) = (101 :: g :: es, [])).
  { pose proof (span_digits_all es [] Hed I) as Hall. rewrite app_nil_r in Hall. cbn [span_exponent].
    change ((101 =? 101) || (101 =? 69)) with true. cbn iota. rewrite Hall, Hes.
    by replace ((g =? 43) || (g =? 45)) with true by (unfold g; by destruct (e <? 0)). }
  assert (Hd45 : d =? 45 = false).
  { apply Z.eqb_neq. rewrite Hs in Hd. apply Forall_cons in Hd as [Hd _]. by apply digit_not. }
  unfold scan_number, sample_text. fold g es. destruct s; cbn [app].
  - change (45 =? 45) with true. cbn iota beta. rewrite Hint, Hs. cbn [span_fraction]. change (101 =? 46) with false. cbn iota.
    rewrite Hexp. cbn iota. by apply bool_decide_eq_true.
  - rewrite Hs. cbn [app]. rewrite Hd45. rewrite Hs in Hint. cbn [app] in Hint. rewrite Hint. cbn [span_fraction].
    change (101 =? 46) with false. cbn iota. rewrite Hexp. cbn iota. by apply bool_decide_eq_true.
Qed.

#[export] Instance sample_library : PyLibrary.
Proof.
  refine {| lib_int16 _ := Raise ValueError; lib_fromisoformat _ := Raise ValueError; lib_loads _ := Raise ValueError;
            lib_key_handle _ _ _ := Raise ValueError;
            lib_repr := sample_repr; lib_float := sample_float; lib_integral _ := Raise ValueError |}.
  - intros []; try done; intros _; by apply sample_text_float.
  - intros []; try done; intros _; by apply (sample_float_text _ (Z.pos _)) || by apply (sample_float_text _ 0 0).
Defined.
