(* ===== verification/Sealed.v ===== *)
(** * Sealed: snapshots encrypted into one owner-only file.

    The semantic index ([index/semantic.py]) and the activity store
    ([activity/store.py]) keep their state the same way, with the same code: a
    snapshot is encrypted under a fresh data key, the key is wrapped by the key
    provider ([ports/keys.py]), and the JSON of both replaces a file.  The
    provider, the cipher ([crypto/bindings.py]) and the random source are the
    operations of [SealPorts]. *)

From S2P Require Import Prelude PyStr Utf8 Json PyLib Storage PyData Codec.

(** ** base64 *)

Definition base64_char (n : Z) : Z :=
  if n <? 26 then 65 + n else if n <? 52 then 71 + n else if n <? 62 then n - 4 else if n =? 62 then 43 else 47.
Definition base64_value (c : Z) : option Z :=
  if (65 <=? c) && (c <=? 90) then Some (c - 65)
  else if (97 <=? c) && (c <=? 122) then Some (c - 71)
  else if (48 <=? c) && (c <=? 57) then Some (c + 4)
  else if c =? 43 then Some 62 else if c =? 47 then Some 63 else None.

(** [base64.b64encode(b).decode("ascii")] *)
Fixpoint b64 (b : pybytes) : pystr :=
  match b with
  | [] => []
  | [x] => [base64_char (x / 4); base64_char (x mod 4 * 16); 61; 61]
  | [x; y] => [base64_char (x / 4); base64_char (x mod 4 * 16 + y / 16); base64_char (y mod 16 * 4); 61]
  | x :: y :: z :: b' =>
      base64_char (x / 4) :: base64_char (x mod 4 * 16 + y / 16) :: base64_char (y mod 16 * 4 + z / 64)
      :: base64_char (z mod 64) :: b64 b'
  end.

(** [base64.b64decode(s, validate=True)]; the unused bits of the last group are
    not looked at. *)
Fixpoint b64decode (s : pystr) : result pybytes :=
  match s with
  | [] => Ok []
  | a :: b :: c :: d :: s' =>
      match base64_value a, base64_value b with
      | Some va, Some vb =>
          let x := va * 4 + vb / 16 in
          if (c =? 61) && (d =? 61) && bool_decide (s' = []) then Ok [x]
          else
            match base64_value c with
            | None => Raise ValueError
            | Some vc =>
                let y := vb mod 16 * 16 + vc / 4 in
                if (d =? 61) && bool_decide (s' = []) then Ok [x; y]
                else
                  match base64_value d with
                  | None => Raise ValueError
                  | Some vd => rest ← b64decode s'; mret (x :: y :: vc mod 4 * 64 + vd :: rest)
                  end
            end
      | _, _ => Raise ValueError
      end
  | _ => Raise ValueError
  end.
Definition unb64 (j : json) : result pybytes :=
  match j with JStr s => b64decode s | _ => Raise ValueError end.

Example b64_ex : b64 (u "hello!!") = u "aGVsbG8hIQ==" /\ b64decode (u "aGVsbG8hIQ==") = Ok (u "hello!!") /\
  b64decode (u "aGVsb") = Raise ValueError /\ b64decode (u "aG=s") = Raise ValueError.
Proof. vm_compute. repeat split. Qed.

(** ** The collaborators *)

Inductive KeyPurpose := KP_RECORD | KP_INDEX | KP_SUMMARY | KP_BACKUP.
#[export] Instance KeyPurpose_eq_dec : EqDecision KeyPurpose.
Proof. solve_decision. Defined.

Definition KEY_BYTES : Z := 32.
Definition NONCE_BYTES : Z := 24.

(** The cipher raises [CryptoError] on a ciphertext that does not verify. *)
Definition CryptoError : exn := External 6.

Class SealPorts (W : Type) := {
  active_key : KeyPurpose -> M W KeyHandle;
  wrap_data_key : KeyHandle -> pybytes -> pybytes -> M W pybytes;
  unwrap_data_key : KeyHandle -> pybytes -> pybytes -> M W pybytes;
  random_bytes : Z -> M W pybytes;
  (** message or ciphertext, associated data, nonce, key *)
  aead_encrypt : pybytes -> pybytes -> pybytes -> pybytes -> result pybytes;
  aead_decrypt : pybytes -> pybytes -> pybytes -> pybytes -> result pybytes }.

(** What tells the two stores apart: the key's purpose, the associated data,
    and whether the length of the nonce is checked on reading. *)
Record seal_kind := { sk_purpose : KeyPurpose; sk_aad : pybytes; sk_check_nonce : bool }.
Definition index_seal : seal_kind :=
  {| sk_purpose := KP_INDEX; sk_aad := u "local-recall-semantic-index-v1"; sk_check_nonce := false |}.
Definition activity_seal : seal_kind :=
  {| sk_purpose := KP_SUMMARY; sk_aad := u "local-recall-activity-state-v1"; sk_check_nonce := true |}.

Definition SEAL_ALGORITHM : pystr := u "xchacha20-poly1305-ietf".
Definition SEAL_FORMAT_VERSION : Z := 1.

Record sealed := { se_key : KeyHandle; se_wrapped : pybytes; se_nonce : pybytes; se_ciphertext : pybytes }.

Definition sealed_json (s : sealed) : list (pystr * json) :=
  [(u "algorithm", JStr SEAL_ALGORITHM);
   (u "ciphertext", JStr (b64 (se_ciphertext s)));
   (u "format_version", JInt SEAL_FORMAT_VERSION);
   (u "key", JDict [(u "id", JStr (key_id (se_key s))); (u "provider", JStr (key_provider_id (se_key s)));
                    (u "version", JInt (key_version (se_key s)))]);
   (u "nonce", JStr (b64 (se_nonce s)));
   (u "wrapped_data_key", JStr (b64 (se_wrapped s)))].

Definition sealed_payload (s : sealed) : result pybytes :=
  text ← dumps (JDict (sealed_json s)); utf8_encode text.

Section Seal.
Context {L : PyLibrary} {W : Type} `{SealPorts W}.
Variable kind : seal_kind.

(** [KeyHandle(raw_key["id"], raw_key["provider"], raw_key["version"])]: the
    strings are stripped, the version compared with 0. *)
Definition handle_of_json (raw_key : json) : result KeyHandle :=
  id ← subscript raw_key (u "id");
  provider ← subscript raw_key (u "provider");
  version ← subscript raw_key (u "version");
  id ← required_string id;
  provider ← required_string provider;
  match version with
  | JInt n => make_key_handle {| key_id := id; key_provider_id := provider; key_version := n |}
  | JBool true => make_key_handle {| key_id := id; key_provider_id := provider; key_version := 1 |}
  | JBool false => Raise ValueError
  | JFloat literal => lib_key_handle id provider literal
  | _ => Raise TypeError
  end.

Definition is_algorithm (j : json) : bool :=
  match j with JStr s => bool_decide (s = SEAL_ALGORITHM) | _ => false end.

(** The fields of a payload, from the decoded value on. *)
Definition sealed_of_json (raw : json) : result sealed :=
  version ← subscript raw (u "format_version");
  _ ← throw_if (negb (equals_one (float_equals 1) version)) ValueError;
  algorithm ← subscript raw (u "algorithm");
  _ ← throw_if (negb (is_algorithm algorithm)) ValueError;
  raw_key ← subscript raw (u "key");
  key ← handle_of_json raw_key;
  wrapped ← (j ← subscript raw (u "wrapped_data_key"); unb64 j);
  nonce ← (j ← subscript raw (u "nonce"); unb64 j);
  ciphertext ← (j ← subscript raw (u "ciphertext"); unb64 j);
  _ ← throw_if (sk_check_nonce kind && negb (zlen nonce =? NONCE_BYTES)) ValueError;
  mret {| se_key := key; se_wrapped := wrapped; se_nonce := nonce; se_ciphertext := ciphertext |}.

Definition parse_sealed (payload : pybytes) : result sealed :=
  raw ← loads_bytes lib_loads payload; sealed_of_json raw.

Definition encrypt_snapshot (plaintext : pybytes) : M W pybytes :=
  key ← active_key (sk_purpose kind);
  data_key ← random_bytes KEY_BYTES;
  wrapped ← wrap_data_key key data_key (sk_aad kind);
  nonce ← random_bytes NONCE_BYTES;
  ciphertext ← lift (aead_encrypt plaintext (sk_aad kind) nonce data_key);
  lift (sealed_payload {| se_key := key; se_wrapped := wrapped; se_nonce := nonce; se_ciphertext := ciphertext |}).

(** The failures [_decrypt_snapshot] turns into the store's own. *)
Definition authentication_error (e : exn) : bool :=
  match e with
  | KeyError | TypeError | ValueError => true
  | e => bool_decide (e = CryptoError)
  end.

(** [IndexFailure] and [ActivityStoreFailure] are [RuntimeError]s. *)
Definition decrypt_snapshot (payload : pybytes) : M W pybytes :=
  try_except
    (s ← lift (parse_sealed payload);
     data_key ← unwrap_data_key (se_key s) (se_wrapped s) (sk_aad kind);
     lift (aead_decrypt (se_ciphertext s) (sk_aad kind) (se_nonce s) data_key))
    (fun e => raise (if authentication_error e then RuntimeError else e)).
End Seal.

(** ** The file *)

Record file := { fl_regular : bool; fl_owner_only : bool; fl_bytes : pybytes }.

(** The path of the temporary file beside [path]: fixed for the index, while
    the activity store's carries the process id. *)
Definition index_temporary (name : pystr) : pystr := u "." ++ name ++ u ".tmp".
Definition activity_temporary (pid : Z) (name : pystr) : pystr := u "." ++ name ++ u "." ++ str_of_int pid ++ u ".tmp".

(** A file replaced through a temporary one: the file, the name of the
    temporary this process uses, the temporaries in the directory, and the
    outcomes of the coming file-system calls (then they succeed). *)
Record slot := { sl_file : option file; sl_temporary_name : pystr; sl_temporaries : gset pystr; sl_io : list bool }.
Definition empty_slot (temporary_name : pystr) : slot :=
  {| sl_file := None; sl_temporary_name := temporary_name; sl_temporaries := ∅; sl_io := [] |}.
(** The temporary path of this process exists. *)
Definition sl_temporary (s : slot) : bool := bool_decide (sl_temporary_name s ∈ sl_temporaries s).

Definition FileError : exn := External 5.

Definition slot_call : M slot unit := fun s =>
  match sl_io s with
  | [] => (s, Ok tt)
  | ok :: rest => ({| sl_file := sl_file s; sl_temporary_name := sl_temporary_name s;
                      sl_temporaries := sl_temporaries s; sl_io := rest |},
                   if ok then Ok tt else Raise FileError)
  end.
(** The temporary of this process is created, or gone. *)
Definition put_temporary (b : bool) (s : slot) : slot :=
  {| sl_file := sl_file s; sl_temporary_name := sl_temporary_name s;
     sl_temporaries := if b then {[sl_temporary_name s]} ∪ sl_temporaries s else sl_temporaries s ∖ {[sl_temporary_name s]};
     sl_io := sl_io s |}.
Definition put_file (f : option file) (s : slot) : slot :=
  {| sl_file := f; sl_temporary_name := sl_temporary_name s; sl_temporaries := sl_temporaries s; sl_io := sl_io s |}.

(** [_atomic_write]: [O_EXCL] fails when the temporary path exists.  The
    directory is synced last; what a power cut leaves is not modelled here. *)
Definition atomic_write (payload : pybytes) : M slot unit :=
  exists_ ← gets sl_temporary;
  _ ← require (negb exists_) FileError;
  _ ← slot_call;
  _ ← modify (put_temporary true);
  _ ← try_except (_ ← slot_call; slot_call)
        (fun e => _ ← slot_call; _ ← modify (put_temporary false); raise e);
  _ ← slot_call;
  _ ← modify (fun s => put_temporary false
        (put_file (Some {| fl_regular := true; fl_owner_only := true; fl_bytes := payload |}) s));
  slot_call.

(** [_read_owner_file], and the test for existence before it.  The activity
    store looks at the size before it reads; the index afterwards, and it
    refuses an empty file. *)
Definition read_owner_file (max_bytes : Z) (refuse_empty : bool) : M slot (option pybytes) :=
  f ← gets sl_file;
  match f with
  | None => mret None
  | Some f =>
      _ ← require (fl_regular f) RuntimeError;
      _ ← require (fl_owner_only f) RuntimeError;
      _ ← require (refuse_empty || negb (max_bytes <? zlen (fl_bytes f))) RuntimeError;
      _ ← slot_call;
      _ ← require (negb ((max_bytes <? zlen (fl_bytes f)) || refuse_empty && bool_decide (fl_bytes f = []))) RuntimeError;
      mret (Some (fl_bytes f))
  end.

Definition unlink_slot : M slot unit :=
  f ← gets sl_file;
  match f with
  | None => mret tt
  | Some _ => _ ← slot_call; modify (put_file None)
  end.
