(* ===== verification/SealedFacts.v ===== *)
(** * SealedFacts: what is sealed is read back.

    Under the laws of the cipher and of the key provider, a file that holds a
    sealed snapshot gives that snapshot or an error, and replacing the file is
    all or nothing. *)

From stdpp Require Import sorting.
From S2P Require Import Prelude PyStr Utf8 Json JsonFacts PyLib Storage PyData Codec CodecFacts Sealed.

(** ** base64 *)

Definition is_byte (x : Z) : Prop := 0 <= x < 256.
Definition is_bytes (b : pybytes) : Prop := Forall is_byte b.

Lemma base64_value_char n : 0 <= n < 64 -> base64_value (base64_char n) = Some n /\ base64_char n <> 61 /\
  plain (base64_char n) = true.
Proof.
  intros Hn. unfold base64_char, base64_value, plain.
  repeat match goal with
  | |- context [if ?b then _ else _] => destruct b eqn:?; btauto_hyps
  | H : _ && _ = false |- _ => apply andb_false_iff in H as [H|H]
  end; btauto_hyps; try lia;
  (split; [f_equal; lia|split; [lia|rewrite !andb_true_iff, !negb_true_iff, !Z.eqb_neq, !Z.leb_le; lia]]).
Qed.

Lemma div_range x a b : 0 <= x < a * b -> 0 < a -> 0 <= x / a < b.
Proof. intros [H1 H2] Ha. split; [apply Z.div_pos; lia|apply Z.div_lt_upper_bound; lia]. Qed.

(** The three bytes of a group, cut into four six-bit numbers. *)
Lemma b64_group x y z : is_byte x -> is_byte y -> is_byte z ->
  0 <= x / 4 < 64 /\ 0 <= x mod 4 * 16 + y / 16 < 64 /\ 0 <= y mod 16 * 4 + z / 64 < 64 /\ 0 <= z mod 64 < 64 /\
  x / 4 * 4 + (x mod 4 * 16 + y / 16) / 16 = x /\
  (x mod 4 * 16 + y / 16) mod 16 * 16 + (y mod 16 * 4 + z / 64) / 4 = y /\
  (y mod 16 * 4 + z / 64) mod 4 * 64 + z mod 64 = z.
Proof.
  unfold is_byte. intros Hx Hy Hz. Z.div_mod_to_equations. lia.
Qed.

Lemma b64_round_trip b : is_bytes b -> b64decode (b64 b) = Ok b /\ forallb plain (b64 b) = true.
Proof.
  remember (length b) as n eqn:Hn. revert b Hn.
  induction (lt_wf n) as [n _ IH]. intros b -> Hb.
  destruct b as [|x [|y [|z b]]]; cbn [b64].
  - done.
  - apply Forall_cons in Hb as [Hx _]. destruct (b64_group x 0 0) as (H1&H2&_&_&H3&_); [done|by split..|].
    change (0 / 16) with 0 in *. rewrite Z.add_0_r in *.
    destruct (base64_value_char _ H1) as (E1&_&P1). destruct (base64_value_char _ H2) as (E2&_&P2).
    cbn [b64decode forallb]. rewrite E1, E2, P1, P2, H3. done.
  - apply Forall_cons in Hb as [Hx [Hy _]%Forall_cons]. destruct (b64_group x y 0) as (H1&H2&H3&_&H4&H5&_); [done..|by split|].
    change (0 / 64) with 0 in *. rewrite Z.add_0_r in *.
    destruct (base64_value_char _ H1) as (E1&_&P1). destruct (base64_value_char _ H2) as (E2&_&P2).
    destruct (base64_value_char _ H3) as (E3&N3&P3).
    cbn [b64decode forallb]. rewrite E1, E2, E3, P1, P2, P3. rewrite (proj2 (Z.eqb_neq _ _) N3). cbn. rewrite H4, H5. done.
  - apply Forall_cons in Hb as [Hx [Hy [Hz Hb]%Forall_cons]%Forall_cons].
    destruct (b64_group x y z) as (H1&H2&H3&H4&H5&H6&H7); [done..|].
    destruct (base64_value_char _ H1) as (E1&_&P1). destruct (base64_value_char _ H2) as (E2&_&P2).
    destruct (base64_value_char _ H3) as (E3&N3&P3). destruct (base64_value_char _ H4) as (E4&N4&P4).
    destruct (IH (length b)) with (b := b) as [IH1 IH2]; [cbn; lia|done|done|].
    cbn [b64decode forallb]. rewrite E1, E2, E3, E4, P1, P2, P3, P4.
    rewrite (proj2 (Z.eqb_neq _ _) N3), (proj2 (Z.eqb_neq _ _) N4). cbn [andb]. rewrite IH1, IH2, H5, H6.
    cbn. by rewrite H7.
Qed.

(** ** The payload *)

Definition handle_ok (k : KeyHandle) : bool :=
  is_ok (make_key_handle k) && forallb is_scalar (key_id k) && forallb is_scalar (key_provider_id k).
Definition sealed_ok (s : sealed) : Prop :=
  handle_ok (se_key s) = true /\ is_bytes (se_wrapped s) /\ is_bytes (se_nonce s) /\ is_bytes (se_ciphertext s).

Lemma plain_scalar s : forallb plain s = true -> forallb is_scalar s = true.
Proof. intros Hs. apply ascii_scalar. exact (plain_ascii s Hs). Qed.

Lemma sealed_printable s : sealed_ok s -> printable (JDict (sealed_json s)) = true.
Proof.
  intros (Hk&Hw&Hn&Hc). unfold handle_ok in Hk. btauto_hyps. unfold sealed_json. cbn [printable forallb fst snd].
  rewrite !(plain_scalar (b64 _)) by (by apply b64_round_trip).
  repeat match goal with H : forallb is_scalar _ = true |- _ => rewrite H; clear H end. vm_compute. reflexivity.
Qed.

Lemma sealed_fields a b c d e f :
  let raw := JDict [(u "algorithm", a); (u "ciphertext", b); (u "format_version", c); (u "key", d); (u "nonce", e);
                    (u "wrapped_data_key", f)] in
  subscript raw (u "algorithm") = Ok a /\ subscript raw (u "ciphertext") = Ok b /\
  subscript raw (u "format_version") = Ok c /\ subscript raw (u "key") = Ok d /\ subscript raw (u "nonce") = Ok e /\
  subscript raw (u "wrapped_data_key") = Ok f.
Proof. vm_compute. repeat split. Qed.

Lemma handle_fields a b c :
  let raw := JDict [(u "id", a); (u "provider", b); (u "version", c)] in
  subscript raw (u "id") = Ok a /\ subscript raw (u "provider") = Ok b /\ subscript raw (u "version") = Ok c.
Proof. vm_compute. repeat split. Qed.

Section Payload.
Context {L : PyLibrary}.
Variable kind : seal_kind.
Local Abbreviation parse_sealed := (parse_sealed kind).

Lemma handle_round_trip k : handle_ok k = true ->
  handle_of_json (JDict [(u "id", JStr (key_id k)); (u "provider", JStr (key_provider_id k));
    (u "version", JInt (key_version k))]) = Ok k.
Proof.
  unfold handle_ok. intros Hk. btauto_hyps. unfold handle_of_json.
  destruct (handle_fields (JStr (key_id k)) (JStr (key_provider_id k)) (JInt (key_version k))) as (->&->&->).
  cbn [mbind result_bind required_string]. match goal with H : is_ok _ = true |- _ => apply is_ok_true in H as [k' Hm] end.
  pose proof (make_key_handle_ok _ _ Hm) as [-> _]. unfold make_key_handle in Hm.
  destruct (require_nonempty (key_id k)) eqn:E1; [|done]. cbn in Hm.
  destruct (require_nonempty (key_provider_id k)) eqn:E2; [|done]. cbn in Hm. cbn.
  unfold make_key_handle. destruct k as [i p v]. cbn in *. rewrite E1. cbn. rewrite E2. cbn. exact Hm.
Qed.

Lemma sealed_round_trip s b :
  sealed_ok s -> (sk_check_nonce kind = true -> zlen (se_nonce s) = NONCE_BYTES) -> sealed_payload s = Ok b ->
  parse_sealed b = Ok s.
Proof.
  intros Hs Hlen. unfold sealed_payload. intros Hb. apply result_bind_ok in Hb as (text&Ht&Hb).
  assert (starts_as_utf8 b = true) as Hstart.
  { apply (dict_starts_utf8 (sealed_json s) text); [unfold sealed_json; discriminate|done..]. }
  unfold Sealed.parse_sealed, loads_bytes. rewrite Hstart, (utf8_round_trip _ _ Hb).
  rewrite (loads_dumps _ _ (sealed_printable _ Hs) Ht), result_bind_ret. unfold sealed_of_json, sealed_json.
  destruct (sealed_fields (JStr SEAL_ALGORITHM) (JStr (b64 (se_ciphertext s))) (JInt SEAL_FORMAT_VERSION)
    (JDict [(u "id", JStr (key_id (se_key s))); (u "provider", JStr (key_provider_id (se_key s)));
            (u "version", JInt (key_version (se_key s)))]) (JStr (b64 (se_nonce s))) (JStr (b64 (se_wrapped s))))
    as (F1&F2&F3&F4&F5&F6).
  destruct Hs as (Hk&Hw&Hn&Hc). rewrite F3, result_bind_ret, F1.
  change (equals_one (float_equals 1) (JInt SEAL_FORMAT_VERSION)) with true. cbn [negb]. rewrite throw_if_false, !result_bind_ret.
  assert (is_algorithm (JStr SEAL_ALGORITHM) = true) as -> by reflexivity. cbn [negb].
  rewrite throw_if_false, result_bind_ret, F4, result_bind_ret, handle_round_trip, result_bind_ret by done.
  rewrite F6, result_bind_ret. cbn [unb64]. rewrite (proj1 (b64_round_trip _ Hw)), result_bind_ret.
  rewrite F5, result_bind_ret. cbn [unb64]. rewrite (proj1 (b64_round_trip _ Hn)), result_bind_ret.
  rewrite F2, result_bind_ret. cbn [unb64]. rewrite (proj1 (b64_round_trip _ Hc)), result_bind_ret.
  assert (sk_check_nonce kind && negb (zlen (se_nonce s) =? NONCE_BYTES) = false) as ->.
  { destruct (sk_check_nonce kind); [|done]. cbn. rewrite Hlen by done. by rewrite Z.eqb_refl. }
  by destruct s.
Qed.
End Payload.

(** ** Sealing and opening *)

(** What the stores rely on: the provider unwraps what it wrapped, the cipher
    decrypts what it encrypted. *)
Class SealLaws (W : Type) `{SealPorts W} := {
  (** key, associated data, data key, wrapped data key *)
  wraps : KeyHandle -> pybytes -> pybytes -> pybytes -> Prop;
  (** no call is going to fail *)
  ports_ready : W -> Prop;
  (** a handle the provider knows *)
  usable : KeyHandle -> Prop;
  wraps_inj k aad m m' c : wraps k aad m c -> wraps k aad m' c -> m = m';
  active_key_law p : steady ports_ready (active_key p) (fun k => handle_ok k = true /\ key_version k < 2 ^ 64 /\ usable k);
  random_bytes_law n : 0 <= n -> steady ports_ready (random_bytes n) (fun b => is_bytes b /\ zlen b = n);
  wrap_law k m aad : usable k -> is_bytes m -> zlen m = KEY_BYTES ->
    steady ports_ready (wrap_data_key k m aad) (fun c => wraps k aad m c /\ is_bytes c);
  unwrap_law k m aad c : wraps k aad m c -> steady ports_ready (unwrap_data_key k c aad) (fun m' => m' = m);
  aead_law p aad n k c : aead_encrypt p aad n k = Ok c -> is_bytes c /\ aead_decrypt c aad n k = Ok p;
  aead_total p aad n k : is_bytes p -> zlen n = NONCE_BYTES -> zlen k = KEY_BYTES -> is_ok (aead_encrypt p aad n k) = true }.

Section Sealing.
Context {L : PyLibrary} {W : Type} `{SL : SealLaws W}.
Variable kind : seal_kind.
Local Abbreviation decrypt_snapshot := (decrypt_snapshot kind).

(** The bytes [b] are a sealing of [p]. *)
Definition sealed_as (p b : pybytes) : Prop :=
  exists s m, sealed_payload s = Ok b /\ sealed_ok s /\ zlen (se_nonce s) = NONCE_BYTES /\
    wraps (se_key s) (sk_aad kind) m (se_wrapped s) /\
    aead_encrypt p (sk_aad kind) (se_nonce s) m = Ok (se_ciphertext s).

Lemma sealed_as_inj p p' b : sealed_as p b -> sealed_as p' b -> p = p'.
Proof.
  intros (s&m&Hb&Hs&Hl&Hw&He) (s'&m'&Hb'&Hs'&Hl'&Hw'&He').
  pose proof (sealed_round_trip kind s b Hs (fun _ => Hl) Hb) as E.
  rewrite (sealed_round_trip kind s' b Hs' (fun _ => Hl') Hb') in E.
  injection E as ->. rewrite (wraps_inj _ _ _ _ _ Hw' Hw) in He'. apply aead_law in He as [_ He], He' as [_ He']. congruence.
Qed.

Lemma sealed_payload_total s : sealed_ok s -> key_version (se_key s) < 2 ^ 64 -> exists b, sealed_payload s = Ok b.
Proof.
  intros Hs Hv. pose proof Hs as (Hk&_). unfold handle_ok in Hk. btauto_hyps.
  match goal with H : is_ok _ = true |- _ => apply is_ok_true in H as [k' Hm] end.
  apply make_key_handle_ok in Hm as (_&Hpos&_). destruct (dumps_int_total (key_version (se_key s))) as [t Ht]; [lia|].
  unfold sealed_payload. destruct (dumps (JDict (sealed_json s))) as [text|e] eqn:E.
  - rewrite result_bind_ret. destruct (utf8_encode_ok text) as [Hx|[b Hb]]; [|by exists b].
    exfalso. pose proof (dumps_ascii _ _ (sealed_printable s Hs) E) as Ha. by rewrite utf8_ascii in Hx.
  - exfalso. unfold sealed_json in E. cbn [dumps map_ok] in E. rewrite Ht in E.
    change (dumps_int SEAL_FORMAT_VERSION) with (Ok (u "1")) in E. done.
Qed.

Lemma encrypt_ok p : is_bytes p -> steady ports_ready (encrypt_snapshot kind p) (sealed_as p).
Proof.
  intros Hp. unfold encrypt_snapshot. eapply steady_bind; [apply active_key_law|]. intros k (Hk&Hv&Hu).
  eapply steady_bind; [by apply random_bytes_law|]. intros m [Hmb Hml].
  eapply steady_bind; [by apply wrap_law|]. intros c [Hw Hcb].
  eapply steady_bind; [by apply random_bytes_law|]. intros n [Hnb Hnl].
  eapply (steady_bind _ _ _ (fun ct => aead_encrypt p (sk_aad kind) n m = Ok ct)).
  { apply steady_lift; [done|by apply aead_total]. }
  intros ct He. pose proof (aead_law _ _ _ _ _ He) as [Hctb _].
  set (s := {| se_key := k; se_wrapped := c; se_nonce := n; se_ciphertext := ct |}).
  assert (Hs : sealed_ok s) by (repeat split; done). destruct (sealed_payload_total s Hs Hv) as [b Hb].
  apply steady_lift; rewrite Hb; [|done]. intros ? [= <-]. by exists s, m.
Qed.

Lemma decrypt_ok p b : sealed_as p b -> steady ports_ready (decrypt_snapshot b) (fun p' => p' = p).
Proof.
  intros (s&m&Hb&Hs&Hl&Hw&He) w. unfold Sealed.decrypt_snapshot. apply wp_try_except, wp_bind, wp_lift.
  rewrite (sealed_round_trip kind s b Hs (fun _ => Hl) Hb).
  apply wp_bind. eapply wp_mono; [by eapply unwrap_law|]. intros r w1 [H1 R1]. destruct r as [m'|e].
  - rewrite (H1 m' eq_refl). apply wp_lift. rewrite (proj2 (aead_law _ _ _ _ _ He)).
    split; [by intros ? [= <-]|]. intros Hr. split; [by apply R1|done].
  - apply wp_raise. split; [done|]. intros Hr. by destruct (R1 Hr).
Qed.
End Sealing.

(** ** The file *)

Definition owned_file (payload : pybytes) : file := {| fl_regular := true; fl_owner_only := true; fl_bytes := payload |}.

(** Nothing stands in the way of a write. *)
Definition slot_calm (s : slot) : Prop := sl_io s = [] /\ sl_temporary s = false.

Lemma put_temporary_ok b s : sl_temporary (put_temporary b s) = b.
Proof. unfold sl_temporary. destruct b; [apply bool_decide_eq_true|apply bool_decide_eq_false]; cbn; set_solver. Qed.

Lemma wp_slot_call (Q : result unit -> slot -> Prop) s :
  (forall r s', sl_file s' = sl_file s -> sl_temporary s' = sl_temporary s -> (sl_io s = [] -> sl_io s' = [] /\ r = Ok tt) ->
     r = Ok tt \/ r = Raise FileError -> Q r s') -> wp slot_call Q s.
Proof. intros H. split. unfold slot_call. destruct (sl_io s) as [|[] l] eqn:E; apply H; try reflexivity; cbn; auto; by intros. Qed.

(** All or nothing; nothing is written over a temporary file left behind. *)
Lemma atomic_write_ok payload s :
  wp (atomic_write payload) (fun r s' =>
    (sl_file s' = sl_file s /\ r <> Ok tt \/ sl_file s' = Some (owned_file payload)) /\
    (r = Ok tt -> sl_file s' = Some (owned_file payload) /\ sl_temporary s' = false) /\
    (slot_calm s -> slot_calm s' /\ r = Ok tt) /\
    (sl_temporary s = true -> s' = s /\ r = Raise FileError)) s.
Proof.
  unfold atomic_write. apply wp_bind, wp_gets, wp_bind, wp_require; intros Ht; btauto_hyps.
  2:{ split; [by left|]. split; [done|]. split; [|done]. intros [_ Hf]. congruence. }
  set (C s' := (sl_io s = [] -> sl_io s' = [])). set (J s' := sl_file s' = sl_file s /\ C s').
  assert (Hfail : forall (r : result unit) s', r <> Ok tt -> sl_file s' = sl_file s -> (sl_io s = [] -> r = Ok tt) ->
    (sl_file s' = sl_file s /\ r <> Ok tt \/ sl_file s' = Some (owned_file payload)) /\
    (r = Ok tt -> sl_file s' = Some (owned_file payload) /\ sl_temporary s' = false) /\
    (slot_calm s -> slot_calm s' /\ r = Ok tt) /\ (sl_temporary s = true -> s' = s /\ r = Raise FileError)).
  { intros r s' Hr Hf Hc. split; [by left|]. split; [done|]. split; [intros [Hi _]; by apply Hc in Hi|congruence]. }
  assert (Hcall : forall (Q : result unit -> slot -> Prop) s', J s' ->
    (forall r s'', J s'' -> sl_temporary s'' = sl_temporary s' -> (sl_io s = [] -> r = Ok tt) ->
       r = Ok tt \/ r = Raise FileError -> Q r s'') -> wp slot_call Q s').
  { intros Q s' [Hf Hc] HQ. apply wp_slot_call. intros r s'' E1 E2 Hio Hr. apply HQ; [split; [by rewrite E1|]|done| |done];
      intros Hi; by apply Hio, Hc. }
  apply wp_bind, Hcall; [split; [done|exact id]|]. intros r s1 [Hf1 Hc1] Ht1 Hr1 [->| ->]; [|by apply Hfail].
  apply wp_bind, wp_modify, wp_bind. eapply (wp_mono _ (fun r s' => J s' /\ (sl_io s = [] -> r = Ok tt))).
  { assert (Hcatch : forall e s', J s' -> (sl_io s = [] -> Raise e = Ok tt :> result unit) ->
      wp (_ ← slot_call; _ ← modify (put_temporary false); raise e : M slot unit) (fun r s' => J s' /\ (sl_io s = [] -> r = Ok tt)) s').
    { intros e s' Hs' He. apply wp_bind, Hcall; [done|]. intros r s'' Hs'' _ Hr [->| ->]; [|by split].
      apply wp_bind, wp_modify, wp_raise. split; [exact Hs''|]. intros Hi. by apply He in Hi. }
    apply wp_try_except, wp_bind, Hcall; [exact (conj Hf1 Hc1)|]. intros r s2 Hs2 _ Hr [->| ->]; [|by apply Hcatch].
    apply Hcall; [done|]. intros r s3 Hs3 _ Hr3 [->| ->]; [by split|by apply Hcatch]. }
  intros [[]|e] s3 [Hs3 Hr3]; [|by apply Hfail; [|apply Hs3|]].
  apply wp_bind, Hcall; [done|]. intros r s4 [Hf4 Hc4] _ Hr4 [->| ->]; [|by apply Hfail].
  apply wp_bind, wp_modify, wp_slot_call. intros r s5 E1 E2 Hio Hr. rewrite put_temporary_ok in E2. cbn in E1, Hio.
  split; [by right|]. split; [done|]. split; [|congruence]. intros [Hi _]. destruct (Hio (Hc4 Hi)). by split.
Qed.

Lemma read_ok max_bytes refuse_empty s :
  wp (read_owner_file max_bytes refuse_empty) (fun r s' =>
    sl_file s' = sl_file s /\ sl_temporary s' = sl_temporary s /\
    match sl_file s with
    | None => r = Ok None /\ s' = s
    | Some f => forall b, r = Ok b -> b = Some (fl_bytes f)
    end /\
    (forall payload, sl_file s = Some (owned_file payload) -> payload <> [] -> zlen payload <= max_bytes -> slot_calm s ->
       slot_calm s' /\ r = Ok (Some payload))) s.
Proof.
  unfold read_owner_file. apply wp_bind, wp_gets. destruct (sl_file s) as [f|] eqn:E; [|by apply wp_ret].
  assert (Hbad : forall x : exn, (f <> owned_file (fl_bytes f) \/ fl_bytes f = [] \/ max_bytes < zlen (fl_bytes f)) ->
    forall s', sl_file s' = sl_file s -> sl_temporary s' = sl_temporary s ->
    sl_file s' = Some f /\ sl_temporary s' = sl_temporary s /\ (forall b, Raise x = Ok b -> b = Some (fl_bytes f)) /\
    (forall payload, Some f = Some (owned_file payload) -> payload <> [] -> zlen payload <= max_bytes -> slot_calm s ->
       slot_calm s' /\ Raise x = Ok (Some payload))).
  { intros x Hx s' -> ->. split_and!; try done. intros payload [= ->] Hne Hl _. cbn in Hx. destruct Hx as [[]|[|]]; done || lia. }
  apply wp_bind, wp_require; intros H1; [|apply Hbad; [|done..]; left; intros Ef; by rewrite Ef in H1].
  apply wp_bind, wp_require; intros H2; [|apply Hbad; [|done..]; left; intros Ef; by rewrite Ef in H2].
  apply wp_bind, wp_require; intros H0; [|apply Hbad; [|done..]; right; right; apply orb_false_iff in H0 as [_ H0]; by btauto_hyps].
  apply wp_bind, wp_slot_call. intros r s' E1 E2 Hio [->| ->].
  - apply wp_bind, wp_require; intros H3.
    + apply wp_ret. rewrite E1, E2. split_and!; try done; [by intros ? [= <-]|]. intros payload [= ->] _ _ [Hi Ht].
      split; [|done]. split; [by apply Hio|by rewrite E2].
    + apply Hbad; [right|by rewrite E1|done]. apply negb_false_iff, orb_true_iff in H3 as [H3|H3]; btauto_hyps; auto.
  - rewrite E1, E2. split_and!; try done. intros payload _ _ _ [Hi _]. by destruct (Hio Hi).
Qed.

Lemma unlink_ok s :
  wp unlink_slot (fun r s' => (sl_file s' = sl_file s \/ sl_file s' = None) /\ sl_temporary s' = sl_temporary s /\
    (r = Ok tt -> sl_file s' = None) /\ (slot_calm s -> slot_calm s' /\ r = Ok tt)) s.
Proof.
  unfold unlink_slot. apply wp_bind, wp_gets. destruct (sl_file s) as [f|] eqn:E; [|apply wp_ret; split_and!; auto].
  apply wp_bind, wp_slot_call. intros r s' E1 E2 Hio [->| ->].
  - apply wp_modify. cbn. split_and!; auto. intros [Hi Ht]. split; [|done]. split; cbn; [by apply Hio|change (sl_temporary s' = false); by rewrite E2].
  - rewrite E1. split_and!; auto; [done|]. intros [Hi _]. by destruct (Hio Hi).
Qed.

(** ** A key provider and a cipher

    that seal nothing, for the examples. *)

Definition toy_key : KeyHandle := {| key_id := u "k1"; key_provider_id := u "keyring"; key_version := 1 |}.

#[export] Instance toy_seal : SealPorts unit := {
  active_key _ := mret toy_key;
  wrap_data_key _ m _ := mret m;
  unwrap_data_key _ c _ := mret c;
  random_bytes n := mret (replicate (Z.to_nat n) 7);
  aead_encrypt p _ _ _ := if forallb (fun x => (0 <=? x) && (x <? 256)) p then Ok p else Raise ValueError;
  aead_decrypt c _ _ _ := Ok c }.

Lemma toy_bytes p : forallb (fun x => (0 <=? x) && (x <? 256)) p = true <-> is_bytes p.
Proof.
  rewrite forallb_Forall. unfold is_bytes, is_byte. apply Forall_iff. intros x. by rewrite andb_true_iff, Z.leb_le, Z.ltb_lt.
Qed.

#[export, refine] Instance toy_seal_laws : SealLaws unit := {
  wraps k aad m c := k = toy_key /\ m = c;
  ports_ready _ := True;
  usable k := k = toy_key }.
Proof.
  - by intros k aad m m' c [_ ->] [_ ->].
  - intros p s. split. split; [|done]. intros a [= <-]. done.
  - intros n Hn s. split. split; [|done]. intros a [= <-]. split; [by apply Forall_replicate|].
    unfold zlen. rewrite length_replicate. lia.
  - intros k m aad -> Hm _ s. split. split; [|done]. by intros a [= <-].
  - intros k m aad c [-> ->] s. split. split; [|done]. by intros a [= <-].
  - intros p aad n k c. cbn. destruct (forallb _ p) eqn:E; [|done]. intros [= <-]. split; [by apply toy_bytes|done].
  - intros p aad n k Hp _ _. cbn. by rewrite (proj2 (toy_bytes p) Hp).
Defined.
