(* ===== verification/SemanticIndex.v ===== *)
(** * SemanticIndex: the encrypted vector index.

    Models [index/semantic.py]: the documents and queries, the snapshot and its
    JSON, the cosine score, and the operations of [EncryptedSemanticIndex] on
    its two files (active and checkpoint of a rebuild).  The operation lock
    makes each operation one step.  The embedding provider
    ([ports/providers.py]) is the class [EmbeddingPorts]; keys and cipher are
    [SealPorts]. *)

From stdpp Require Import sorting.
From S2P Require Import Prelude PyStr Utf8 PyFloat Json PyLib Storage PyData Codec Egress Sealed.

Definition IndexModelMismatch : exn := External 7.
Definition ZeroDivisionError : exn := External 8.
(** [IndexFailure] is a [RuntimeError]. *)
Definition IndexFailure : exn := RuntimeError.

(** ** Documents, queries, embeddings *)

Record IndexDocument := {
  id_record_id : uuid;
  id_captured_at : datetime;
  id_text : pystr;
  id_approved_metadata : list pystr;
  id_privacy_class : PrivacyClass }.
Definition make_document (d : IndexDocument) : result IndexDocument :=
  _ ← require_nonempty (id_text d);
  _ ← throw_if (existsb (fun item => bool_decide (item = [])) (id_approved_metadata d)) ValueError;
  _ ← throw_if (negb (bool_decide (id_privacy_class d = REDACTED_CONTENT))) ValueError;
  mret d.
Definition embedding_text (d : IndexDocument) : pystr := join 10 (id_text d :: id_approved_metadata d).

Record SemanticQuery := {
  sq_text : pystr;
  sq_start_at : option datetime;
  sq_end_at : option datetime;
  sq_limit : Z }.
Definition make_semantic_query (q : SemanticQuery) : result SemanticQuery :=
  _ ← require_nonempty (sq_text q);
  _ ← throw_if (match sq_start_at q, sq_end_at q with Some s, Some e => dt_utc e <=? dt_utc s | _, _ => false end) ValueError;
  _ ← throw_if (negb ((1 <=? sq_limit q) && (sq_limit q <=? 10000))) ValueError;
  mret q.

Record EmbeddingRequest := { er_inputs : list pystr; er_privacy_class : PrivacyClass }.
Definition make_embedding_request (r : EmbeddingRequest) : result EmbeddingRequest :=
  _ ← throw_if (bool_decide (er_inputs r = []) || existsb (fun item => bool_decide (item = [])) (er_inputs r)) ValueError;
  mret r.

Record EmbeddingResponse := {
  es_provider_id : pystr;
  es_model_id : pystr;
  es_vectors : list (list pyfloat) }.
Definition make_embedding_response (r : EmbeddingResponse) : result EmbeddingResponse :=
  _ ← require_nonempty (es_provider_id r);
  _ ← require_nonempty (es_model_id r);
  _ ← throw_if (bool_decide (es_vectors r = []) || existsb (fun v => bool_decide (v = [])) (es_vectors r)) ValueError;
  _ ← throw_if (match es_vectors r with
                | [] => true
                | v :: vs => negb (forallb (fun v' => zlen v' =? zlen v) vs)
                end) ValueError;
  mret r.

Class EmbeddingPorts (W : Type) := { embed : EmbeddingRequest -> M W EmbeddingResponse }.

(** ** The snapshot *)

Record Entry := { en_record_id : uuid; en_captured_at : datetime; en_vector : list pyfloat }.
Record Snapshot := { sn_model_id : pystr; sn_dimensions : Z; sn_entries : list Entry }.
Record IndexManifest := { im_model_id : pystr; im_dimensions : Z; im_record_count : Z }.
Definition manifest_of (s : Snapshot) : IndexManifest :=
  {| im_model_id := sn_model_id s; im_dimensions := sn_dimensions s; im_record_count := zlen (sn_entries s) |}.

Definition MAX_SNAPSHOT_BYTES : Z := 512 * 1024 * 1024.

Section Encoding.
Context {L : PyLibrary}.

Definition entry_json (e : Entry) : json :=
  JDict [(u "captured_at", JStr (isoformat (en_captured_at e)));
         (u "record_id", JStr (uuid_text (en_record_id e)));
         (u "vector", JList ((fun x => JFloat (float_literal x)) <$> en_vector e))].
Definition snapshot_json (s : Snapshot) : list (pystr * json) :=
  [(u "dimensions", JInt (sn_dimensions s));
   (u "entries", JList (entry_json <$> sn_entries s));
   (u "model_id", JStr (sn_model_id s))].
Definition encode_snapshot (s : Snapshot) : result pybytes :=
  text ← dumps (JDict (snapshot_json s)); utf8_encode text.

(** An entry as read, its date perhaps naive. *)
Definition decoded_entry (item : json) : result (uuid * option datetime * list pyfloat) :=
  id ← (j ← subscript item (u "record_id"); parse_uuid j);
  captured_at ← (j ← subscript item (u "captured_at"); parse_datetime j);
  vector ← (j ← subscript item (u "vector"); values ← iterate j; map_ok parse_float values);
  mret (id, captured_at, vector).
Definition aware_entry (e : uuid * option datetime * list pyfloat) : option Entry :=
  t ← e.1.2; Some {| en_record_id := e.1.1; en_captured_at := t; en_vector := e.2 |}.

(** [dimensions <= 0] is refused; what is no number does not compare. *)
Definition dimensions_of_json (j : json) : result Z :=
  n ← match j with
      | JInt n => Ok n
      | JBool b => Ok (if b then 1 else 0)
      | JFloat literal => lib_integral literal
      | _ => Raise TypeError
      end;
  _ ← throw_if (n <=? 0) ValueError;
  mret n.

Definition snapshot_of_json (raw : json) : result Snapshot :=
  model_id ← subscript raw (u "model_id");
  dimensions ← subscript raw (u "dimensions");
  raw_entries ← subscript raw (u "entries");
  items ← iterate raw_entries;
  entries ← map_ok decoded_entry items;
  model_id ← required_string model_id;
  dimensions ← dimensions_of_json dimensions;
  _ ← throw_if (existsb (fun e => bool_decide (e.1.2 = None)) entries) ValueError;
  _ ← throw_if (existsb (fun e => negb (zlen e.2 =? dimensions)) entries) ValueError;
  mret {| sn_model_id := model_id; sn_dimensions := dimensions; sn_entries := omap aware_entry entries |}.

(** The failures that become an [IndexFailure]. *)
Definition payload_error (e : exn) : bool :=
  match e with KeyError | TypeError | ValueError => true | _ => false end.
Definition decode_snapshot (payload : pybytes) : result Snapshot :=
  match raw ← loads_bytes lib_loads payload; snapshot_of_json raw with
  | Ok s => Ok s
  | Raise e => Raise (if payload_error e then IndexFailure else e)
  end.
End Encoding.

(** ** Checks and scores *)

Definition has_duplicates (ids : list uuid) : bool := negb (bool_decide (NoDup ids)).

Definition validate_documents (documents : list IndexDocument) : result unit :=
  _ ← throw_if (bool_decide (documents = [])) ValueError;
  _ ← throw_if (existsb (fun d => negb (bool_decide (id_privacy_class d = REDACTED_CONTENT))) documents) ValueError;
  throw_if (has_duplicates (id_record_id <$> documents)) ValueError.

Definition embedding_request (documents : list IndexDocument) : result EmbeddingRequest :=
  make_embedding_request {| er_inputs := embedding_text <$> documents; er_privacy_class := REDACTED_CONTENT |}.

(** [zip(xs, ys, strict=True)] *)
Fixpoint zip_strict {A B} (xs : list A) (ys : list B) : result (list (A * B)) :=
  match xs, ys with
  | [], [] => mret []
  | x :: xs, y :: ys => zs ← zip_strict xs ys; mret ((x, y) :: zs)
  | _, _ => Raise ValueError
  end.

Definition entry_of (p : IndexDocument * list pyfloat) : Entry :=
  {| en_record_id := id_record_id p.1; en_captured_at := id_captured_at p.1; en_vector := p.2 |}.
Definition entries_of (documents : list IndexDocument) (response : EmbeddingResponse) : result (list Entry) :=
  pairs ← zip_strict documents (es_vectors response);
  mret (map entry_of pairs).

(** [len(response.vectors[0])] *)
Definition first_dimension (response : EmbeddingResponse) : result Z :=
  match es_vectors response with v :: _ => Ok (zlen v) | [] => Raise IndexError end.

Definition validate_response (response : EmbeddingResponse) (inputs : nat) : result unit :=
  _ ← throw_if (negb (Nat.eqb (length (es_vectors response)) inputs)) IndexFailure;
  dimension ← first_dimension response;
  _ ← throw_if ((dimension <=? 0) || existsb (fun v => negb (zlen v =? dimension)) (es_vectors response)) IndexFailure;
  throw_if (existsb (existsb (fun value => negb (is_finite value))) (es_vectors response)) IndexFailure.

Definition require_compatible (s : Snapshot) (response : EmbeddingResponse) : result unit :=
  _ ← throw_if (negb (bool_decide (es_model_id response = sn_model_id s))) IndexModelMismatch;
  dimension ← first_dimension response;
  throw_if (negb (dimension =? sn_dimensions s)) IndexModelMismatch.

Definition within (q : SemanticQuery) (captured_at : datetime) : bool :=
  match sq_start_at q with Some s => dt_utc s <=? dt_utc captured_at | None => true end &&
  match sq_end_at q with Some e => dt_utc captured_at <? dt_utc e | None => true end.

Definition norm (v : list pyfloat) : pyfloat := fsqrt (fsum ((fun x => fmul x x) <$> v)).

(** Python's [min] and [max] keep the first of two that do not compare. *)
Definition cosine (left right : list pyfloat) : result pyfloat :=
  pairs ← zip_strict left right;
  let numerator := fsum (map (fun '(a, b) => fmul a b) pairs) in
  let left_norm := norm left in
  let right_norm := norm right in
  if feq left_norm (float_of 0) || feq right_norm (float_of 0) then mret (float_of 0)
  else
    _ ← throw_if (feq (fmul left_norm right_norm) (float_of 0)) ZeroDivisionError;
    mret (fmax (float_of 0) (fmin (float_of 1) (fdiv numerator (fmul left_norm right_norm)))).

Record SemanticHit := { sh_record_id : uuid; sh_captured_at : datetime; sh_score : pyfloat }.

(** The sort key [(-score, captured_at, str(record_id))]. *)
Definition hit_lt (a b : SemanticHit) : bool :=
  if negb (feq (fopp (sh_score a)) (fopp (sh_score b))) then flt (fopp (sh_score a)) (fopp (sh_score b))
  else if negb (dt_utc (sh_captured_at a) =? dt_utc (sh_captured_at b))
  then dt_utc (sh_captured_at a) <? dt_utc (sh_captured_at b)
  else sh_record_id a <? sh_record_id b.
Definition hit_le (a b : SemanticHit) : Prop := hit_lt b a = false.
#[export] Instance hit_le_dec : RelDecision hit_le.
Proof. intros a b. unfold hit_le. apply _. Defined.

Definition matches_prefix (s : Snapshot) (documents : list IndexDocument) : bool :=
  negb (zlen documents <? zlen (sn_entries s)) &&
  forallb (fun '(e, d) => en_record_id e =? id_record_id d) (zip (sn_entries s) documents).

(** [entries[e.record_id] = e] *)
Fixpoint dict_put (entries : list Entry) (e : Entry) : list Entry :=
  match entries with
  | [] => [e]
  | x :: entries' => if en_record_id x =? en_record_id e then e :: entries' else x :: dict_put entries' e
  end.
Definition entry_le (a b : Entry) : Prop := en_record_id a <= en_record_id b.
#[export] Instance entry_le_dec : RelDecision entry_le.
Proof. intros a b. unfold entry_le. apply _. Defined.

(** [range(0, len(l), n)], as the slices it makes; [fuel] bounds their number. *)
Fixpoint slices {A} (fuel : nat) (n : nat) (l : list A) : list (list A) :=
  match fuel with
  | O => []
  | S fuel' => match l with [] => [] | _ => take n l :: slices fuel' n (drop n l) end
  end.

(** ** The operations *)

(** The two files, and what the provider and the key store keep. *)
Record index (W : Type) := { ix_active : slot; ix_checkpoint : slot; ix_world : W }.
Arguments ix_active {W}. Arguments ix_checkpoint {W}. Arguments ix_world {W}.

Inductive area := Active | Checkpoint.
#[export] Instance area_eq_dec : EqDecision area.
Proof. solve_decision. Defined.

Section Operations.
Context {L : PyLibrary} {W : Type} `{SealPorts W} `{EmbeddingPorts W}.
Local Abbreviation MI := (M (index W)).

Definition slot_of (p : area) (i : index W) : slot := match p with Active => ix_active i | Checkpoint => ix_checkpoint i end.
Definition set_slot (p : area) (s : slot) (i : index W) : index W :=
  match p with
  | Active => {| ix_active := s; ix_checkpoint := ix_checkpoint i; ix_world := ix_world i |}
  | Checkpoint => {| ix_active := ix_active i; ix_checkpoint := s; ix_world := ix_world i |}
  end.
Definition set_ports (w : W) (i : index W) : index W :=
  {| ix_active := ix_active i; ix_checkpoint := ix_checkpoint i; ix_world := w |}.
Definition on_slot {A} (p : area) (m : M slot A) : MI A := zoom (slot_of p) (set_slot p) m.
Definition on_ports {A} (m : M W A) : MI A := zoom ix_world set_ports m.

Definition save (p : area) (s : Snapshot) : MI unit :=
  plaintext ← lift (encode_snapshot s);
  payload ← on_ports (encrypt_snapshot index_seal plaintext);
  _ ← require (negb (MAX_SNAPSHOT_BYTES <? zlen payload)) IndexFailure;
  on_slot p (atomic_write payload).

Definition load (p : area) : MI (option Snapshot) :=
  payload ← on_slot p (read_owner_file MAX_SNAPSHOT_BYTES true);
  match payload with
  | None => mret None
  | Some payload =>
      plaintext ← on_ports (decrypt_snapshot index_seal payload);
      s ← lift (decode_snapshot plaintext);
      mret (Some s)
  end.

Definition manifest : MI IndexManifest :=
  s ← load Active;
  match s with Some s => mret (manifest_of s) | None => raise IndexFailure end.

Definition add (documents : list IndexDocument) : MI IndexManifest :=
  _ ← lift (validate_documents documents);
  current ← load Active;
  match current with
  | None => raise IndexFailure
  | Some current =>
      request ← lift (embedding_request documents);
      response ← on_ports (embed request);
      _ ← lift (validate_response response (length documents));
      _ ← lift (require_compatible current response);
      added ← lift (entries_of documents response);
      let entries := foldl dict_put (foldl dict_put [] (sn_entries current)) added in
      let replacement := {| sn_model_id := sn_model_id current; sn_dimensions := sn_dimensions current;
                            sn_entries := merge_sort entry_le entries |} in
      _ ← save Active replacement;
      mret (manifest_of replacement)
  end.

Definition remove_entries (record_ids : list uuid) (s : Snapshot) : Snapshot :=
  {| sn_model_id := sn_model_id s; sn_dimensions := sn_dimensions s;
     sn_entries := filter (fun e => en_record_id e ∉ record_ids) (sn_entries s) |}.

Definition remove (record_ids : list uuid) : MI IndexManifest :=
  _ ← lift (throw_if (bool_decide (record_ids = [])) ValueError);
  _ ← lift (throw_if (has_duplicates record_ids) ValueError);
  current ← load Active;
  match current with
  | None => mret {| im_model_id := u "uninitialized"; im_dimensions := 0; im_record_count := 0 |}
  | Some current =>
      let replacement := remove_entries record_ids current in
      _ ← save Active replacement;
      mret (manifest_of replacement)
  end.

Definition record_ids : MI (list uuid) :=
  s ← load Active;
  mret match s with Some s => en_record_id <$> sn_entries s | None => [] end.

Definition clear : MI unit := on_slot Active unlink_slot.

Definition hit_of (query_vector : list pyfloat) (e : Entry) : result SemanticHit :=
  score ← cosine query_vector (en_vector e);
  mret {| sh_record_id := en_record_id e; sh_captured_at := en_captured_at e; sh_score := score |}.

Definition search (q : SemanticQuery) : MI (list SemanticHit) :=
  s ← load Active;
  match s with
  | None => mret []
  | Some s =>
      request ← lift (make_embedding_request {| er_inputs := [sq_text q]; er_privacy_class := REDACTED_CONTENT |});
      response ← on_ports (embed request);
      _ ← lift (validate_response response 1);
      _ ← lift (require_compatible s response);
      query_vector ← lift (match es_vectors response with v :: _ => Ok v | [] => Raise IndexError end);
      hits ← lift (map_ok (hit_of query_vector) (filter (fun e => within q (en_captured_at e)) (sn_entries s)));
      mret (take (Z.to_nat (sq_limit q)) (merge_sort hit_le hits))
  end.

(** One batch of a rebuild; [model] is the model and its dimensions, once
    known. *)
Definition rebuild_batch (batch : list IndexDocument) (model : option (pystr * Z)) (entries : list Entry)
    : MI ((pystr * Z) * list Entry) :=
  request ← lift (embedding_request batch);
  response ← on_ports (embed request);
  _ ← lift (validate_response response (length batch));
  dimension ← lift (first_dimension response);
  model ← lift (match model with
                | None => Ok (es_model_id response, dimension)
                | Some (model_id, dimensions) =>
                    _ ← throw_if (negb (bool_decide (es_model_id response = model_id)) || negb (dimension =? dimensions))
                          IndexModelMismatch;
                    mret (model_id, dimensions)
                end);
  added ← lift (entries_of batch response);
  let entries := entries ++ added in
  _ ← save Checkpoint {| sn_model_id := model.1; sn_dimensions := model.2; sn_entries := entries |};
  mret (model, entries).

Fixpoint rebuild_batches (batches : list (list IndexDocument)) (model : option (pystr * Z)) (entries : list Entry)
    : MI (option (pystr * Z) * list Entry) :=
  match batches with
  | [] => mret (model, entries)
  | batch :: batches' =>
      p ← rebuild_batch batch model entries;
      rebuild_batches batches' (Some p.1) p.2
  end.

(** What a rebuild starts from: the checkpoint, when it fits the documents. *)
Definition resume_from (checkpoint : option Snapshot) (documents : list IndexDocument) : option (pystr * Z) * list Entry :=
  match checkpoint with
  | Some c => if matches_prefix c documents then (Some (sn_model_id c, sn_dimensions c), sn_entries c) else (None, [])
  | None => (None, [])
  end.

Definition rebuild (documents : list IndexDocument) (batch_size : Z) : MI IndexManifest :=
  _ ← lift (validate_documents documents);
  _ ← lift (throw_if (batch_size <=? 0) ValueError);
  checkpoint ← load Checkpoint;
  let start := resume_from checkpoint documents in
  let rest := drop (length start.2) documents in
  p ← rebuild_batches (slices (length rest) (Z.to_nat batch_size) rest) start.1 start.2;
  match p.1 with
  | None => raise ValueError
  | Some (model_id, dimensions) =>
      let replacement := {| sn_model_id := model_id; sn_dimensions := dimensions; sn_entries := p.2 |} in
      _ ← save Active replacement;
      _ ← on_slot Checkpoint unlink_slot;
      mret (manifest_of replacement)
  end.
End Operations.
