(* ===== verification/SemanticIndexFacts.v ===== *)
(** * SemanticIndexFacts: the index keeps what it was given.

    The snapshot is read back as written; every operation refines an operation
    on a map from records to vectors, and leaves the old map or the new one
    when it fails; a search ranks the entries of its window. *)

From stdpp Require Import sorting.
From S2P Require Import Prelude PyStr Utf8 PyFloat Json JsonFacts PyLib Storage PyData Codec CodecFacts Egress DeletionFacts Sealed SealedFacts SemanticIndex.

(** ** The snapshot *)

Definition entry_ok (dimensions : Z) (e : Entry) : Prop :=
  uuid_ok (en_record_id e) = true /\ valid_datetime (en_captured_at e) = true /\
  forallb is_finite (en_vector e) = true /\ zlen (en_vector e) = dimensions.

Record snapshot_ok (s : Snapshot) : Prop := {
  so_model : require_nonempty (sn_model_id s) = Ok tt;
  so_scalar : forallb is_scalar (sn_model_id s) = true;
  so_dimensions : 0 < sn_dimensions s < 2 ^ 64;
  so_entries : Forall (entry_ok (sn_dimensions s)) (sn_entries s);
  so_unique : NoDup (en_record_id <$> sn_entries s) }.

Lemma entry_fields a b c :
  let raw := JDict [(u "captured_at", a); (u "record_id", b); (u "vector", c)] in
  subscript raw (u "captured_at") = Ok a /\ subscript raw (u "record_id") = Ok b /\ subscript raw (u "vector") = Ok c.
Proof. vm_compute. repeat split. Qed.

Lemma snapshot_fields a b c :
  let raw := JDict [(u "dimensions", a); (u "entries", b); (u "model_id", c)] in
  subscript raw (u "dimensions") = Ok a /\ subscript raw (u "entries") = Ok b /\ subscript raw (u "model_id") = Ok c.
Proof. vm_compute. repeat split. Qed.

Section RoundTrip.
Context {L : PyLibrary}.

Lemma uuid_ok_bounds r : uuid_ok r = true -> 0 <= r < 2 ^ 128.
Proof. unfold uuid_ok. intros H. btauto_hyps. lia. Qed.

Lemma entry_printable d e : entry_ok d e -> printable (entry_json e) = true /\ small_ints (entry_json e) = true.
Proof.
  intros (Hu%uuid_ok_bounds&Hd&Hf&_). unfold entry_json. cbn [printable small_ints forallb fst snd].
  rewrite (ascii_scalar _ (isoformat_ascii _)), (ascii_scalar _ (uuid_text_ascii _ (proj1 Hu))).
  rewrite !forallb_fmap. cbn [printable small_ints].
  assert (H0 : forallb (fun x => printable (JFloat (float_literal x))) (en_vector e) = true /\
               forallb (fun x => small_ints (JFloat (float_literal x))) (en_vector e) = true).
  { apply forallb_Forall in Hf. split; apply forallb_Forall; (eapply Forall_impl; [exact Hf|]); intros x Hx; [|done].
    cbn. destruct x; try done; by apply lib_repr_text. }
  cbn [printable small_ints] in H0. destruct H0 as [-> ->]. split; vm_compute; reflexivity.
Qed.

Lemma snapshot_printable s : snapshot_ok s ->
  printable (JDict (snapshot_json s)) = true /\ small_ints (JDict (snapshot_json s)) = true.
Proof.
  intros [Hm Hs Hd He _]. unfold snapshot_json. cbn [printable small_ints forallb fst snd]. rewrite Hs, !forallb_fmap.
  assert (H0 : forallb (fun x => printable (entry_json x)) (sn_entries s) = true /\
               forallb (fun x => small_ints (entry_json x)) (sn_entries s) = true).
  { split; apply forallb_Forall; (eapply Forall_impl; [exact He|]); intros e Hok; by apply (entry_printable _ _ Hok). }
  destruct H0 as [-> ->]. split; [vm_compute; reflexivity|].
  rewrite !andb_true_r. apply andb_true_iff. rewrite Z.leb_le, Z.ltb_lt. lia.
Qed.

Lemma float_read_back x : is_finite x = true -> parse_float (JFloat (float_literal x)) = Ok x.
Proof. intros Hx. cbn. destruct x; try done; by apply lib_repr_round_trip. Qed.

Lemma entry_round_trip d e : entry_ok d e ->
  decoded_entry (entry_json e) = Ok (en_record_id e, Some (en_captured_at e), en_vector e).
Proof.
  intros (Hu%uuid_ok_bounds&Hd&Hf&_). unfold decoded_entry, entry_json.
  destruct (entry_fields (JStr (isoformat (en_captured_at e))) (JStr (uuid_text (en_record_id e)))
    (JList ((fun x => JFloat (float_literal x)) <$> en_vector e))) as (->&->&->).
  rewrite !result_bind_ret. cbn [parse_uuid parse_datetime iterate].
  rewrite uuid_round_trip, result_bind_ret, iso_round_trip, !result_bind_ret by done.
  rewrite (map_ok_fmap parse_float (fun x => JFloat (float_literal x)) id), result_bind_ret; [by rewrite list_fmap_id|].
  intros x Hx. apply float_read_back. apply forallb_Forall in Hf. rewrite Forall_forall in Hf. auto.
Qed.

(** [index_round_trip]: a snapshot of the index (a model's name, its
    dimensions, entries with finite vectors) can always be encoded, and
    decoding the bytes gives the snapshot back, every float included. *)
Theorem index_round_trip s :
  snapshot_ok s -> exists b, encode_snapshot s = Ok b /\ decode_snapshot b = Ok s.
Proof.
  intros Hs. destruct (snapshot_printable s Hs) as [Hp Hi]. destruct (dict_encodes _ Hp Hi) as (text&b&Ht&Hb).
  exists b. split; [unfold encode_snapshot; by rewrite Ht|].
  unfold decode_snapshot. rewrite (dict_bytes_round_trip lib_loads (snapshot_json s) text b) by (unfold snapshot_json; done).
  rewrite result_bind_ret. unfold snapshot_of_json, snapshot_json.
  destruct (snapshot_fields (JInt (sn_dimensions s)) (JList (entry_json <$> sn_entries s)) (JStr (sn_model_id s))) as (->&->&->).
  destruct Hs as [Hm _ Hd He _]. rewrite !result_bind_ret. cbn [iterate]. rewrite result_bind_ret.
  rewrite (map_ok_fmap decoded_entry entry_json (fun e => (en_record_id e, Some (en_captured_at e), en_vector e))).
  2:{ intros e Hel. rewrite Forall_forall in He. by eapply entry_round_trip, He. }
  rewrite result_bind_ret. cbn [required_string]. rewrite Hm, !result_bind_ret.
  change (dimensions_of_json (JInt (sn_dimensions s))) with (_ ← throw_if (sn_dimensions s <=? 0) ValueError; mret (sn_dimensions s) : result Z).
  rewrite (proj2 (Z.leb_gt _ _)), throw_if_false, !result_bind_ret by lia.
  assert (Hall : forall f, (forall e, entry_ok (sn_dimensions s) e -> f (en_record_id e, Some (en_captured_at e), en_vector e) = false) ->
    existsb f ((fun e => (en_record_id e, Some (en_captured_at e), en_vector e)) <$> sn_entries s) = false).
  { intros f Hf. induction He as [|e l Hok _ IH]; [done|]. rewrite fmap_cons. cbn [existsb]. by rewrite Hf, IH. }
  rewrite !Hall by (intros e (_&_&_&Hl); cbn [snd fst]; [by rewrite ?Hl, ?Z.eqb_refl]).
  rewrite !throw_if_false, !result_bind_ret.
  assert (omap aware_entry ((fun e => (en_record_id e, Some (en_captured_at e), en_vector e)) <$> sn_entries s) = sn_entries s) as ->.
  { clear. induction (sn_entries s) as [|e l IH]; [done|]. rewrite fmap_cons. cbn. rewrite IH. by destruct e. }
  by destruct s.
Qed.

Lemma encode_bytes s b : snapshot_ok s -> encode_snapshot s = Ok b -> is_bytes b.
Proof.
  intros [Hp _]%snapshot_printable Hb. unfold encode_snapshot in Hb. apply result_bind_ok in Hb as (text&Ht&Hb).
  pose proof (dumps_ascii _ _ Hp Ht) as Ha. rewrite (utf8_ascii _ Ha) in Hb. injection Hb as <-.
  eapply Forall_impl; [exact Ha|]. unfold ascii, is_byte. intros c. lia.
Qed.
End RoundTrip.

(** ** Entries as a map *)

Definition keyed (e : Entry) : uuid * (datetime * list pyfloat) := (en_record_id e, (en_captured_at e, en_vector e)).
Definition entry_map (l : list Entry) : gmap uuid (datetime * list pyfloat) := list_to_map (keyed <$> l).

Lemma keyed_fst l : (keyed <$> l).*1 = en_record_id <$> l.
Proof. rewrite <- list_fmap_compose. done. Qed.

Lemma entry_map_lookup l e : NoDup (en_record_id <$> l) -> e ∈ l -> entry_map l !! en_record_id e = Some (en_captured_at e, en_vector e).
Proof.
  intros Hn He. apply elem_of_list_to_map_1; [by rewrite keyed_fst|]. by apply (list_elem_of_fmap_2 keyed).
Qed.

Lemma entry_map_none l k : k ∉ en_record_id <$> l <-> entry_map l !! k = None.
Proof. unfold entry_map. rewrite <- keyed_fst. apply not_elem_of_list_to_map. Qed.

Lemma entry_map_dom l k : is_Some (entry_map l !! k) <-> k ∈ en_record_id <$> l.
Proof.
  rewrite <- not_eq_None_Some, <- entry_map_none. destruct (decide (k ∈ en_record_id <$> l)); naive_solver.
Qed.

Lemma dict_put_ok (P : Entry -> Prop) l e : NoDup (en_record_id <$> l) -> Forall P l -> P e ->
  NoDup (en_record_id <$> dict_put l e) /\ Forall P (dict_put l e) /\
  entry_map (dict_put l e) = <[en_record_id e := (en_captured_at e, en_vector e)]> (entry_map l).
Proof.
  intros Hn Hl He.
  enough (NoDup (en_record_id <$> dict_put l e) /\ Forall P (dict_put l e) /\
    entry_map (dict_put l e) = <[en_record_id e := (en_captured_at e, en_vector e)]> (entry_map l) /\
    forall k, k ∈ en_record_id <$> dict_put l e -> k = en_record_id e \/ k ∈ en_record_id <$> l) by naive_solver.
  induction l as [|x l IH]; cbn [dict_put].
  - split_and!; [apply NoDup_singleton|by constructor|done|]. intros k ->%list_elem_of_singleton. by left.
  - rewrite fmap_cons, NoDup_cons in Hn. destruct Hn as [Hx Hn]. apply Forall_cons in Hl as [Hpx Hl].
    destruct (Z.eqb_spec (en_record_id x) (en_record_id e)) as [E|E].
    + rewrite !fmap_cons, <- E. split_and!; [by constructor|by constructor| |].
      * unfold entry_map. rewrite !fmap_cons. cbn [list_to_map foldr keyed fst snd uncurry]. by rewrite <- E, insert_insert_eq.
      * intros k Hk. by right.
    + destruct (IH Hn Hl) as (H1&H2&H3&H4). rewrite !fmap_cons. split_and!.
      * constructor; [|done]. intros Hk. destruct (H4 _ Hk); [congruence|done].
      * by constructor.
      * unfold entry_map in *. rewrite !fmap_cons. cbn [list_to_map foldr keyed fst snd uncurry] in *.
        change (foldr (fun p => <[p.1:=p.2]>) ∅ (keyed <$> dict_put l e)) with (list_to_map (keyed <$> dict_put l e) : gmap uuid (datetime * list pyfloat)).
        rewrite H3. by rewrite insert_insert_ne by congruence.
      * intros k [->|Hk]%elem_of_cons; [right; constructor|]. destruct (H4 _ Hk); [by left|right; by constructor].
Qed.

Lemma dict_puts_ok (P : Entry -> Prop) added l :
  NoDup (en_record_id <$> l) -> NoDup (en_record_id <$> added) -> Forall P l -> Forall P added ->
  NoDup (en_record_id <$> foldl dict_put l added) /\ Forall P (foldl dict_put l added) /\
  entry_map (foldl dict_put l added) = entry_map added ∪ entry_map l.
Proof.
  revert l. induction added as [|e added IH]; intros l Hl Ha Pl Pa; cbn [foldl].
  - split_and!; try done. change (entry_map []) with (∅ : gmap uuid (datetime * list pyfloat)). by rewrite (left_id_L ∅ (∪)).
  - rewrite fmap_cons, NoDup_cons in Ha. destruct Ha as [He Ha]. apply Forall_cons in Pa as [Pe Pa].
    destruct (dict_put_ok P l e Hl Pl Pe) as (H1&H2&H3). destruct (IH _ H1 Ha H2 Pa) as (H4&H5&H6).
    split_and!; [done..|]. rewrite H6, H3. rewrite <- insert_union_r by (by apply entry_map_none).
    rewrite insert_union_l. done.
Qed.

Lemma entry_map_perm l l' : l ≡ₚ l' -> NoDup (en_record_id <$> l) -> entry_map l = entry_map l'.
Proof. intros Hp Hn. apply list_to_map_proper; [by rewrite keyed_fst|]. by apply fmap_Permutation. Qed.

Lemma entry_map_filter (ids : list uuid) l : entry_map (filter (fun e => en_record_id e ∉ ids) l) = filter (fun kv => kv.1 ∉ ids) (entry_map l).
Proof.
  induction l as [|e l IH]; [done|]. rewrite filter_cons. unfold entry_map in *. rewrite fmap_cons.
  cbn [list_to_map foldr keyed fst snd uncurry].
  change (foldr (fun p => <[p.1:=p.2]>) ∅ (keyed <$> l)) with (list_to_map (keyed <$> l) : gmap uuid (datetime * list pyfloat)).
  destruct (decide (en_record_id e ∉ ids)) as [Hd|Hd].
  - rewrite fmap_cons. cbn [list_to_map foldr keyed fst snd uncurry].
    change (foldr (fun p => <[p.1:=p.2]>) ∅ (keyed <$> filter (fun e => en_record_id e ∉ ids) l))
      with (list_to_map (keyed <$> filter (fun e => en_record_id e ∉ ids) l) : gmap uuid (datetime * list pyfloat)).
    rewrite IH. by rewrite map_filter_insert_True.
  - rewrite IH, map_filter_insert_False by done. rewrite map_filter_delete. symmetry. apply delete_id.
    apply map_lookup_filter_None_2. right. intros v Hv. done.
Qed.

(** ** Responses *)

Definition vector_ok (dimensions : Z) (v : list pyfloat) : Prop := zlen v = dimensions /\ forallb is_finite v = true.

Lemma validate_response_ok r n :
  validate_response r n = Ok tt <->
  length (es_vectors r) = n /\ exists d, first_dimension r = Ok d /\ 0 < d /\ Forall (vector_ok d) (es_vectors r).
Proof.
  unfold validate_response, throw_if. destruct (Nat.eqb_spec (length (es_vectors r)) n) as [Hn|Hn]; cbn [negb];
    [rewrite result_bind_ret|split; [done|by intros [? _]]].
  destruct (first_dimension r) as [d|e]; [rewrite result_bind_ret|split; [done|by intros (_&?&?&_)]].
  assert (Hlen : existsb (fun v => negb (zlen v =? d)) (es_vectors r) = false <-> Forall (fun v => zlen v = d) (es_vectors r)).
  { apply existsb_Forall. intros v. by rewrite negb_false_iff, Z.eqb_eq. }
  assert (Hfin : existsb (existsb (fun x => negb (is_finite x))) (es_vectors r) = false <->
                 Forall (fun v => forallb is_finite v = true) (es_vectors r)).
  { apply existsb_Forall. intros v. rewrite forallb_Forall. apply existsb_Forall. intros x. by rewrite negb_false_iff. }
  assert (Hboth : Forall (vector_ok d) (es_vectors r) <->
    Forall (fun v => zlen v = d) (es_vectors r) /\ Forall (fun v => forallb is_finite v = true) (es_vectors r)).
  { unfold vector_ok. by rewrite Forall_and. }
  destruct (Z.leb_spec d 0); [split; [done|]; intros (_&d'&[= <-]&?&_); lia|].
  rewrite orb_false_l. destruct (existsb (fun v => negb (zlen v =? d)) (es_vectors r)).
  - split; [done|]. intros (_&d'&[= <-]&_&[Hf _]%Hboth). apply Hlen in Hf. done.
  - cbn [mbind result_bind]. destruct (existsb (existsb _) _).
    + split; [done|]. intros (_&d'&[= <-]&_&[_ Hf]%Hboth). apply Hfin in Hf. done.
    + split; [|done]. intros _. split; [done|]. exists d. split; [done|]. split; [done|]. apply Hboth. split; [by apply Hlen|by apply Hfin].
Qed.

Lemma response_nonempty resp : make_embedding_response resp = Ok resp ->
  es_vectors resp <> [] /\ Forall (fun v => v <> []) (es_vectors resp).
Proof.
  unfold make_embedding_response. intros Hr. ok_steps. btauto_hyps. split; [done|].
  eapply existsb_Forall; [|eassumption]. intros v. apply bool_decide_eq_false.
Qed.

(** What a response's own class and the right count give. *)
Lemma response_valid resp n d : make_embedding_response resp = Ok resp -> length (es_vectors resp) = n ->
  Forall (vector_ok d) (es_vectors resp) -> validate_response resp n = Ok tt.
Proof.
  intros [Hne Hv]%response_nonempty Hl Hd. apply validate_response_ok. split; [done|]. unfold first_dimension.
  destruct (es_vectors resp) as [|v vs]; [done|]. exists (zlen v). split; [done|].
  apply Forall_cons in Hv as [Hv _]. pose proof Hd as Hd'. apply Forall_cons in Hd' as [[<- _] _]. split; [|done].
  destruct v; [done|]. unfold zlen. cbn. lia.
Qed.

Lemma zip_strict_ok {A B} (xs : list A) (ys : list B) : length ys = length xs -> zip_strict xs ys = Ok (zip xs ys).
Proof.
  revert ys. induction xs as [|x xs IH]; intros [|y ys] Hl; cbn in *; try done; try lia.
  rewrite IH by lia. done.
Qed.

(** The entries made of documents and their vectors. *)
Definition added (documents : list IndexDocument) (vectors : list (list pyfloat)) : list Entry :=
  entry_of <$> zip documents vectors.

Lemma entries_of_ok ds r : length (es_vectors r) = length ds -> entries_of ds r = Ok (added ds (es_vectors r)).
Proof. intros Hl. unfold entries_of. by rewrite zip_strict_ok. Qed.

Lemma added_ids ds vs : length vs = length ds -> en_record_id <$> added ds vs = id_record_id <$> ds.
Proof.
  revert vs. induction ds as [|d ds IH]; intros [|v vs] Hl; cbn in *; try done; try lia. f_equal. apply IH. lia.
Qed.

Lemma added_entries_app ds ds' vs vs' : length vs = length ds -> added (ds ++ ds') (vs ++ vs') = added ds vs ++ added ds' vs'.
Proof. intros Hl. unfold added. rewrite zip_with_app by done. by rewrite fmap_app. Qed.

(** What holds of any [UUID] and any [datetime]. *)
Definition document_typed (d : IndexDocument) : Prop :=
  uuid_ok (id_record_id d) = true /\ valid_datetime (id_captured_at d) = true.

Lemma added_entries_ok n ds vs : Forall document_typed ds -> Forall (vector_ok n) vs -> Forall (entry_ok n) (added ds vs).
Proof.
  intros Hd. revert vs. induction Hd as [|d ds [Hu Hv] _ IH]; intros vs Hvs; [constructor|].
  destruct vs as [|v vs]; [constructor|]. apply Forall_cons in Hvs as [[Hl Hf] Hvs]. constructor; [by repeat split|by apply IH].
Qed.

(** What the index relies on of the embedding provider: a response its own
    class accepts, with a model's name that is text; where nothing fails, the
    vectors of one model. *)
Class EmbeddingLaws (W : Type) `{SealLaws W} `{EmbeddingPorts W} := {
  (** model, text, vector *)
  embeds : pystr -> pystr -> list pyfloat -> Prop;
  embed_model : pystr;
  embed_dimensions : Z;
  embed_law request w :
    wp (embed request) (fun r w' =>
      (forall resp, r = Ok resp -> make_embedding_response resp = Ok resp /\ forallb is_scalar (es_model_id resp) = true /\
         Forall (fun v => zlen v < 2 ^ 64) (es_vectors resp) /\
         Forall (fun p => embeds (es_model_id resp) p.1 p.2) (zip (er_inputs request) (es_vectors resp))) /\
      (ports_ready w -> er_inputs request <> [] -> ports_ready w' /\ exists resp, r = Ok resp /\ es_model_id resp = embed_model /\
         length (es_vectors resp) = length (er_inputs request) /\ Forall (vector_ok embed_dimensions) (es_vectors resp))) w }.

(** ** Reading and writing the two files *)

Section Files.
Context {L : PyLibrary} {W : Type} `{SL : SealLaws W} `{EP : !EmbeddingPorts W}.
Implicit Types (i : index W).

(** A file that holds [o]. *)
Definition slot_holds (o : option Snapshot) (f : option file) : Prop :=
  match o with
  | None => f = None
  | Some s => snapshot_ok s /\ exists p b, encode_snapshot s = Ok p /\ sealed_as index_seal p b /\
      zlen b <= MAX_SNAPSHOT_BYTES /\ f = Some (owned_file b)
  end.

Definition active_holds o i : Prop := slot_holds o (sl_file (ix_active i)).
Definition index_inv i : Prop := forall p, exists o, slot_holds o (sl_file (slot_of p i)).

(** Nothing is going to fail. *)
Definition index_calm i : Prop := (forall p, slot_calm (slot_of p i)) /\ ports_ready (ix_world i).
(** The snapshot does not fit the file, under some sealing. *)
Definition too_big (s : Snapshot) : Prop :=
  exists p b, encode_snapshot s = Ok p /\ sealed_as index_seal p b /\ MAX_SNAPSHOT_BYTES < zlen b.

Definition same_slots i i' : Prop := forall p,
  sl_file (slot_of p i') = sl_file (slot_of p i) /\ sl_temporary (slot_of p i') = sl_temporary (slot_of p i).

Lemma same_slots_trans i i' i'' : same_slots i i' -> same_slots i' i'' -> same_slots i i''.
Proof. intros H1 H2 p. destruct (H1 p), (H2 p). split; congruence. Qed.

Lemma slot_of_set p q (sl : slot) i : slot_of q (set_slot p sl i) = if decide (p = q) then sl else slot_of q i.
Proof. by destruct p, q. Qed.
Lemma slot_of_ports p w i : slot_of p (set_ports w i) = slot_of p i.
Proof. by destruct p. Qed.

Lemma sealed_nonempty p b : sealed_as index_seal p b -> b <> [].
Proof.
  intros (s&m&Hb&Hs&_) ->. unfold sealed_payload in Hb. apply result_bind_ok in Hb as (text&Ht&Hb).
  pose proof (dict_starts_utf8 (sealed_json s) text [] ltac:(done) Ht Hb). done.
Qed.

(** A call on the provider or the keys. *)
Lemma on_ports_ok {A} (m : M W A) (P : A -> Prop) i :
  steady ports_ready m P ->
  wp (on_ports m) (fun r i' => same_slots i i' /\ (forall a, r = Ok a -> P a) /\
    (index_calm i -> index_calm i' /\ is_ok r = true)) i.
Proof.
  intros Hm. apply wp_zoom. eapply wp_mono; [apply Hm|]. intros r w [Hp Hr]. split; [intros p; by rewrite slot_of_ports|].
  split; [done|]. intros [Hc Hw]. destruct (Hr Hw). split; [|done]. split; [|done]. intros p. rewrite slot_of_ports. apply Hc.
Qed.

Lemma on_slot_ok {A} p (m : M slot A) (Q : result A -> index W -> Prop) i :
  wp m (fun r s => Q r (set_slot p s i)) (slot_of p i) -> wp (on_slot p m) Q i.
Proof. apply wp_zoom. Qed.

Lemma load_area p o i :
  slot_holds o (sl_file (slot_of p i)) ->
  wp (load p) (fun r i' => same_slots i i' /\ (forall x, r = Ok x -> x = o) /\
    (index_calm i -> index_calm i' /\ is_ok r = true)) i.
Proof.
  intros Ho. unfold load. apply wp_bind, on_slot_ok. eapply wp_mono; [apply read_ok|].
  intros r s (Hf&Ht&Hr&Hread).
  assert (Hsame : same_slots i (set_slot p s i)).
  { intros q. rewrite slot_of_set. destruct (decide (p = q)) as [<-|]; [by split|done]. }
  assert (Hcalm : index_calm i -> slot_calm s -> index_calm (set_slot p s i)).
  { intros [Hc Hw] Hs. split; [|by destruct p]. intros q. rewrite slot_of_set. by destruct (decide (p = q)). }
  destruct o as [sn|]; unfold slot_holds in Ho.
  - destruct Ho as (Hok&pl&b&He&Hseal&Hfit&Hfile). rewrite Hfile in Hr.
    pose proof (sealed_nonempty _ _ Hseal) as Hne.
    destruct r as [payload|e].
    2:{ split; [done|]. split; [done|]. intros Hc. destruct (Hread b Hfile Hne Hfit (proj1 Hc p)) as [_ ?]. done. }
    rewrite (Hr payload eq_refl). cbn [owned_file fl_bytes]. apply wp_bind.
    eapply wp_mono; [apply on_ports_ok; by apply (decrypt_ok index_seal pl b)|].
    intros r i1 (Hs1&Hp1&Hr1). assert (Hc0 : index_calm i -> index_calm i1 /\ is_ok r = true).
    { intros Hc. apply Hr1, Hcalm; [done|]. by destruct (Hread b Hfile Hne Hfit (proj1 Hc p)). }
    destruct r as [plain|e].
    + rewrite (Hp1 plain eq_refl). apply wp_bind, wp_lift. destruct (index_round_trip sn Hok) as (pl'&He'&Hd).
      assert (pl' = pl) as -> by congruence. rewrite Hd. apply wp_ret.
      split; [by eapply same_slots_trans|]. split; [by intros x [= <-]|]. intros Hc. split; [by apply Hc0|done].
    + split; [by eapply same_slots_trans|]. split; [done|]. intros Hc. by destruct (Hc0 Hc).
  - rewrite Ho in Hr. destruct Hr as [-> ->]. apply wp_ret. split; [done|]. split; [by intros x [= <-]|].
    intros Hc. split; [|done]. apply Hcalm; [done|]. apply Hc.
Qed.

Lemma save_area p s i :
  snapshot_ok s ->
  wp (save p s) (fun r i' =>
    (forall q, q <> p -> slot_of q i' = slot_of q i) /\
    (sl_file (slot_of p i') = sl_file (slot_of p i) /\ r <> Ok tt \/ slot_holds (Some s) (sl_file (slot_of p i'))) /\
    (r = Ok tt -> slot_holds (Some s) (sl_file (slot_of p i'))) /\
    (index_calm i -> index_calm i' /\ (is_ok r = true \/ too_big s)) /\
    (sl_temporary (slot_of p i) = true -> sl_file (slot_of p i') = sl_file (slot_of p i) /\
       sl_temporary (slot_of p i') = true /\ r <> Ok tt)) i.
Proof.
  intros Hs. unfold save. apply wp_bind, wp_lift. destruct (index_round_trip s Hs) as (pl&He&_). rewrite He.
  apply wp_bind. eapply (wp_mono _ (fun r i' => (forall q, slot_of q i' = slot_of q i) /\
    (forall b, r = Ok b -> sealed_as index_seal pl b) /\ (index_calm i -> index_calm i' /\ is_ok r = true))).
  { apply wp_zoom. eapply wp_mono; [apply (encrypt_ok index_seal pl), (encode_bytes s pl Hs He)|]. intros r w [Hp Hr].
    split; [intros q; apply slot_of_ports|]. split; [done|]. intros [Hc Hw]. destruct (Hr Hw) as [Hw' Hok].
    split; [|done]. split; [|done]. intros q. rewrite slot_of_ports. apply Hc. }
  intros r i1 (Hs1&Hp1&Hr1).
  assert (Hfail : forall e i2, (forall q, slot_of q i2 = slot_of q i) -> (index_calm i -> index_calm i2 /\ too_big s) ->
    (forall q, q <> p -> slot_of q i2 = slot_of q i) /\
    (sl_file (slot_of p i2) = sl_file (slot_of p i) /\ Raise e <> Ok tt \/ slot_holds (Some s) (sl_file (slot_of p i2))) /\
    (Raise e = Ok tt -> slot_holds (Some s) (sl_file (slot_of p i2))) /\
    (index_calm i -> index_calm i2 /\ (is_ok (Raise e : result unit) = true \/ too_big s)) /\
    (sl_temporary (slot_of p i) = true -> sl_file (slot_of p i2) = sl_file (slot_of p i) /\
       sl_temporary (slot_of p i2) = true /\ Raise e <> Ok tt)).
  { intros e i2 Hq Hc. split; [auto|]. split; [left; by rewrite Hq|]. split; [done|].
    split; [intros H1; destruct (Hc H1); auto|]. rewrite Hq. done. }
  destruct r as [b|e]; [|apply Hfail; [done|]; intros Hc; by destruct (Hr1 Hc)].
  specialize (Hp1 b eq_refl). apply wp_bind, wp_require; intros Hfit.
  2:{ apply Hfail; [done|]. intros Hc. apply negb_false_iff, Z.ltb_lt in Hfit. split; [by apply Hr1|]. by exists pl, b. }
  apply negb_true_iff, Z.ltb_ge in Hfit. apply on_slot_ok. rewrite <- (Hs1 p).
  eapply wp_mono; [apply atomic_write_ok|]. intros r sl (Hf&Hok&Hc&Ht).
  assert (Hh : sl_file sl = Some (owned_file b) -> slot_holds (Some s) (sl_file sl)) by (intros ->; split; [done|]; by exists pl, b).
  rewrite slot_of_set, decide_True by done. split.
  { intros q Hq. rewrite slot_of_set, decide_False by congruence. apply Hs1. }
  split; [destruct Hf as [Hf|Hf]; [by left|right; auto]|]. split; [intros Hr; apply Hh, Hok, Hr|]. split.
  - intros Hcalm. destruct (Hr1 Hcalm) as [[Hc1 Hw1] _]. destruct (Hc (Hc1 p)) as [Hsl ->]. split; [|by left].
    split; [|by destruct p]. intros q. rewrite slot_of_set. by destruct (decide (p = q)).
  - intros Htmp. destruct (Ht Htmp) as [-> ->]. done.
Qed.

(** ** The operations *)

(** An index that differs only in what the provider and the keys keep, and in
    the outcomes of file-system calls to come. *)
Lemma index_inv_same i i' : same_slots i i' -> index_inv i -> index_inv i'.
Proof. intros Hs Hi p. destruct (Hi p) as [o Ho]. exists o. by rewrite (proj1 (Hs p)). Qed.

Lemma active_same o i i' : same_slots i i' -> active_holds o i -> active_holds o i'.
Proof. intros Hs. unfold active_holds. pose proof (proj1 (Hs Active)) as E. cbn [slot_of] in E. by rewrite E. Qed.

(** After a call that only reads, the rest of an operation. *)
Lemma after_load {B} p o (k : option Snapshot -> M (index W) B) (Q : result B -> index W -> Prop) i :
  slot_holds o (sl_file (slot_of p i)) ->
  (forall i', same_slots i i' -> (index_calm i -> index_calm i') -> wp (k o) Q i') ->
  (forall e i', same_slots i i' -> (index_calm i -> False) -> Q (Raise e) i') ->
  wp (load p ≫= k) Q i.
Proof.
  intros Ho Hk He. apply wp_bind. eapply wp_mono; [by apply load_area|]. intros [x|e] i' (Hs&Hx&Hc).
  - rewrite (Hx x eq_refl). apply Hk; [done|]. intros H0. by apply Hc.
  - apply He; [done|]. intros H0. by destruct (Hc H0).
Qed.

(** The active file afterwards: the old snapshot or the new one, the new one
    when the call returned. *)
Definition replaced (o o' : option Snapshot) {A} (r : result A) i' : Prop :=
  index_inv i' /\ (active_holds o i' /\ is_ok r = false \/ active_holds o' i').

Lemma save_active o s i i0 :
  same_slots i0 i -> index_inv i0 -> active_holds o i0 -> snapshot_ok s ->
  wp (save Active s) (fun r i' => replaced o (Some s) r i' /\
    (sl_file (ix_checkpoint i') = sl_file (ix_checkpoint i0)) /\
    (index_calm i -> index_calm i' /\ (is_ok r = true \/ too_big s)) /\
    (sl_temporary (ix_active i0) = true -> sl_file (ix_active i') = sl_file (ix_active i0) /\
       sl_temporary (ix_active i') = true /\ is_ok r = false)) i.
Proof.
  intros Hs Hi Ho Hok. eapply wp_mono; [by apply save_area|]. intros r i' (Hq&Hf&_&Hc&Ht).
  pose proof (Hq Checkpoint ltac:(done)) as Hck. cbn [slot_of] in *.
  destruct (Hs Active) as [Ha1 Ha2], (Hs Checkpoint) as [Hc1 Hc2]. cbn [slot_of] in *.
  assert (Hinv : index_inv i').
  { intros [|]; cbn [slot_of].
    - destruct Hf as [[-> _]|Hf]; [exists o; by rewrite Ha1|by exists (Some s)].
    - rewrite Hck, Hc1. apply (Hi Checkpoint). }
  split.
  { split; [done|]. destruct Hf as [[Hf Hr]|Hf]; [left|by right]. unfold active_holds. rewrite Hf, Ha1.
    split; [done|]. destruct r as [[]|]; [done|done]. }
  split; [by rewrite Hck|]. split; [done|]. rewrite <- Ha1, <- Ha2. intros Htmp. destruct (Ht Htmp) as (?&?&Hr). split_and!; try done.
  destruct r as [[]|]; [done|done].
Qed.

Lemma filter_entries_ok (ids : list uuid) s : snapshot_ok s -> snapshot_ok (remove_entries ids s).
Proof.
  intros [Hm Hs Hd He Hn]. split; cbn; try done.
  - rewrite Forall_forall in He |- *. intros e [_ Hel]%list_elem_of_filter. by apply He.
  - eapply sublist_NoDup; [exact Hn|]. apply fmap_sublist, sublist_filter.
Qed.

Lemma replaced_failed o o' i i' {A} e : same_slots i i' -> index_inv i -> active_holds o i -> replaced o o' (Raise e : result A) i'.
Proof.
  intros Hs Hi Ho. split; [by eapply index_inv_same|]. left. split; [|done]. by eapply active_same.
Qed.

Lemma remove_ok ids i o :
  index_inv i -> active_holds o i ->
  wp (remove ids) (fun r i' => replaced o (remove_entries ids <$> o) r i' /\
    sl_file (ix_checkpoint i') = sl_file (ix_checkpoint i) /\
    (index_calm i -> ids <> [] -> NoDup ids ->
       index_calm i' /\ (is_ok r = true \/ exists s, o = Some s /\ too_big (remove_entries ids s))) /\
    (sl_temporary (ix_active i) = true -> o <> None -> active_holds o i' /\ sl_temporary (ix_active i') = true /\ is_ok r = false)) i.
Proof.
  intros Hi Ho. unfold remove. apply wp_bind, wp_lift.
  assert (Hrefl : same_slots i i) by done.
  destruct (throw_if (bool_decide (ids = [])) ValueError) as [[]|e] eqn:E1.
  2:{ split; [by eapply replaced_failed|]. split; [done|]. split; [|done]. intros _ Hne. by rewrite bool_decide_false in E1. }
  apply wp_bind, wp_lift. destruct (throw_if (has_duplicates ids) ValueError) as [[]|e] eqn:E2.
  2:{ split; [by eapply replaced_failed|]. split; [done|]. split; [|done]. intros _ _ Hnd. unfold has_duplicates in E2.
      by rewrite bool_decide_true in E2. }
  eapply after_load; [exact Ho|..].
  - intros i1 Hs Hc. destruct o as [s|].
    + assert (Hok : snapshot_ok (remove_entries ids s)) by (apply filter_entries_ok, Ho).
      apply wp_bind. eapply wp_mono; [by apply (save_active (Some s) _ i1 i)|]. intros r i2 (Hrep&Hck&Hcalm&Htmp).
      assert (Hdone : forall (r' : result IndexManifest), is_ok r' = is_ok r -> replaced (Some s) (Some (remove_entries ids s)) r' i2 /\
        sl_file (ix_checkpoint i2) = sl_file (ix_checkpoint i) /\
        (index_calm i -> ids <> [] -> NoDup ids ->
           index_calm i2 /\ (is_ok r' = true \/ exists s0, Some s = Some s0 /\ too_big (remove_entries ids s0))) /\
        (sl_temporary (ix_active i) = true -> Some s <> None -> active_holds (Some s) i2 /\ sl_temporary (ix_active i2) = true /\ is_ok r' = false)).
      { intros r' Hr'. unfold replaced in *. rewrite Hr'. split; [done|]. split; [done|]. split.
        - intros H0 _ _. destruct (Hcalm (Hc H0)) as [? [?|?]]; (split; [done|]); [by left|right; by exists s].
        - intros H0 _. destruct (Htmp H0) as (Hf&?&?). split_and!; try done. unfold active_holds. by rewrite Hf. }
      destruct r as [[]|e]; [apply wp_ret|]; by apply Hdone.
    + apply wp_ret. split; [|split; [apply (Hs Checkpoint)|split; [|done]]].
      * split; [by eapply index_inv_same|]. right. by eapply active_same.
      * intros H0 _ _. split; [by apply Hc|by left].
  - intros e i1 Hs Hc. split; [by eapply replaced_failed|]. split; [apply (Hs Checkpoint)|]. split; [intros H0; by destruct (Hc H0)|].
    intros Htmp _. destruct (Hs Active) as [Hf Ht]. cbn [slot_of] in *. unfold active_holds. by rewrite Hf, Ht.
Qed.

Lemma index_clear_ok i o : index_inv i -> active_holds o i -> wp clear (replaced o None) i.
Proof.
  intros Hi Ho. unfold clear. apply on_slot_ok. eapply wp_mono; [apply unlink_ok|]. intros r s (Hf&_&Hok&_).
  split.
  - intros q. rewrite slot_of_set. destruct (decide (Active = q)) as [<-|]; [|apply Hi].
    destruct Hf as [->|Hf]; [apply (Hi Active)|by exists None].
  - unfold active_holds, set_slot. cbn [ix_active]. destruct r as [[]|e]; [right; by apply Hok|].
    destruct Hf as [->|Hf]; [by left|by right].
Qed.

(** A call that only reads the active file. *)
Lemma reads_ok {A} (m : M (index W) A) i o :
  wp m (fun _ i' => same_slots i i') i -> index_inv i -> active_holds o i ->
  wp m (fun _ i' => index_inv i' /\ active_holds o i') i.
Proof.
  intros Hm Hi Ho. eapply wp_mono; [exact Hm|]. intros r i' Hs. split; [exact (index_inv_same _ _ Hs Hi)|exact (active_same _ _ _ Hs Ho)].
Qed.

Lemma embed_keeps request i : wp (on_ports (embed request)) (fun _ i' => same_slots i i') i.
Proof. apply wp_zoom. split. intros p. by rewrite slot_of_ports. Qed.

Lemma manifest_reads i o : active_holds o i -> wp manifest (fun _ i' => same_slots i i') i.
Proof.
  intros Ho. unfold manifest. eapply after_load; [exact Ho|..]; [|done]. intros i1 Hs _. destruct o; by split.
Qed.
Lemma record_ids_reads i o : active_holds o i -> wp record_ids (fun _ i' => same_slots i i') i.
Proof. intros Ho. unfold record_ids. eapply after_load; [exact Ho|..]; [|done]. intros i1 Hs _. by apply wp_ret. Qed.
Lemma search_reads q i o : active_holds o i -> wp (search q) (fun _ i' => same_slots i i') i.
Proof.
  intros Ho. unfold search. eapply after_load; [exact Ho|..]; [|done]. intros i1 Hs _. destruct o as [s|]; [|by apply wp_ret].
  apply wp_bind, wp_lift. destruct (make_embedding_request _) as [request|]; [|done].
  apply wp_bind. eapply wp_mono; [apply embed_keeps|]. intros [resp|e] i2 Hs2; [|by eapply same_slots_trans].
  pose proof (same_slots_trans _ _ _ Hs Hs2).
  do 3 (apply wp_bind, wp_lift; case_match; [|done]). apply wp_bind, wp_lift. by destruct (map_ok _ _); [apply wp_ret|].
Qed.

(** *** Adding *)

Definition with_entries (s : Snapshot) (l : list Entry) : Snapshot :=
  {| sn_model_id := sn_model_id s; sn_dimensions := sn_dimensions s; sn_entries := l |}.

(** The entries of [s] with those of the documents put over them. *)
Definition with_added (s : Snapshot) (ds : list IndexDocument) (vs : list (list pyfloat)) : Snapshot :=
  with_entries s (merge_sort entry_le (foldl dict_put (foldl dict_put [] (sn_entries s)) (added ds vs))).

Lemma with_added_ok s ds vs :
  snapshot_ok s -> Forall document_typed ds -> NoDup (id_record_id <$> ds) ->
  length vs = length ds -> Forall (vector_ok (sn_dimensions s)) vs ->
  snapshot_ok (with_added s ds vs) /\
  entry_map (sn_entries (with_added s ds vs)) = entry_map (added ds vs) ∪ entry_map (sn_entries s).
Proof.
  intros [Hm Hs Hd He Hn] Ht Hnd Hl Hv. unfold with_added.
  destruct (dict_puts_ok (entry_ok (sn_dimensions s)) (sn_entries s) []) as (A1&A2&A3); [by constructor|done|by constructor|done|].
  rewrite <- (added_ids ds vs Hl) in Hnd.
  destruct (dict_puts_ok (entry_ok (sn_dimensions s)) (added ds vs) (foldl dict_put [] (sn_entries s))) as (B1&B2&B3);
    [done|done|done|by apply added_entries_ok|].
  set (l := foldl dict_put (foldl dict_put [] (sn_entries s)) (added ds vs)) in *.
  pose proof (merge_sort_Permutation entry_le l) as Hp.
  assert (HN : NoDup (en_record_id <$> merge_sort entry_le l)) by (by rewrite Hp).
  split.
  - split; try done. cbn. by rewrite Hp.
  - cbn [sn_entries with_entries]. rewrite (entry_map_perm _ _ Hp HN), B3, A3.
    change (entry_map []) with (∅ : gmap uuid (datetime * list pyfloat)). by rewrite (right_id_L ∅ (∪)).
Qed.

Lemma validate_documents_ok ds : validate_documents ds = Ok tt -> ds <> [] /\ NoDup (id_record_id <$> ds).
Proof. unfold validate_documents, has_duplicates. intros Hv. ok_steps. by btauto_hyps. Qed.

Lemma require_compatible_ok s resp d : first_dimension resp = Ok d -> require_compatible s resp = Ok tt ->
  es_model_id resp = sn_model_id s /\ d = sn_dimensions s.
Proof. unfold require_compatible. intros Hd Hc. ok_steps. rewrite Hd in *. simplify_eq. by btauto_hyps. Qed.

Lemma index_add_ok ds i o :
  Forall document_typed ds -> index_inv i -> active_holds o i ->
  wp (add ds) (fun r i' => (index_inv i' /\ active_holds o i' /\ is_ok r = false) \/
    exists s vs, o = Some s /\ NoDup (id_record_id <$> ds) /\ length vs = length ds /\ Forall (vector_ok (sn_dimensions s)) vs /\
      replaced o (Some (with_added s ds vs)) r i') i.
Proof.
  intros Ht Hi Ho. unfold add. assert (Hrefl : same_slots i i) by done.
  assert (Hfail : forall e i', same_slots i i' ->
    (index_inv i' /\ active_holds o i' /\ is_ok (Raise e : result IndexManifest) = false) \/
    exists s vs, o = Some s /\ NoDup (id_record_id <$> ds) /\ length vs = length ds /\ Forall (vector_ok (sn_dimensions s)) vs /\
      replaced o (Some (with_added s ds vs)) (Raise e : result IndexManifest) i').
  { intros e i' Hs. left. split; [by eapply index_inv_same|]. split; [by eapply active_same|done]. }
  apply wp_bind, wp_lift. destruct (validate_documents ds) as [[]|e] eqn:Hv; [|by apply Hfail].
  apply validate_documents_ok in Hv as [_ Hnd].
  eapply after_load; [exact Ho|..]; [|by intros; apply Hfail]. intros i1 Hs _.
  destruct o as [s|]; [|by apply wp_raise, Hfail].
  apply wp_bind, wp_lift. destruct (embedding_request ds) as [request|e]; [|by apply Hfail].
  apply wp_bind. eapply wp_mono; [apply embed_keeps|]. intros [resp|e] i2 Hs2; [|apply Hfail; by eapply same_slots_trans].
  pose proof (same_slots_trans _ _ _ Hs Hs2) as Hs'.
  apply wp_bind, wp_lift. destruct (validate_response resp (length ds)) as [[]|e] eqn:Hr; [|by apply Hfail].
  apply validate_response_ok in Hr as (Hl&d&Hfd&Hd&Hvs).
  apply wp_bind, wp_lift. destruct (require_compatible s resp) as [[]|e] eqn:Hc; [|by apply Hfail].
  destruct (require_compatible_ok _ _ _ Hfd Hc) as [_ ->].
  rewrite entries_of_ok by done. apply wp_bind, wp_lift.
  change (wp (_ ← save Active (with_added s ds (es_vectors resp)); mret (manifest_of (with_added s ds (es_vectors resp)))) (fun r i' =>
    (index_inv i' /\ active_holds (Some s) i' /\ is_ok r = false) \/ exists s0 vs, Some s = Some s0 /\ NoDup (id_record_id <$> ds) /\ length vs = length ds /\
      Forall (vector_ok (sn_dimensions s0)) vs /\ replaced (Some s) (Some (with_added s0 ds vs)) r i') i2).
  destruct (with_added_ok s ds (es_vectors resp)) as [Hok _]; [apply Ho|done..|].
  apply wp_bind. eapply wp_mono; [by apply (save_active (Some s) _ i2 i)|]. intros r i3 ((Hi3&Hrep)&_).
  destruct r as [[]|e]; [apply wp_ret|]; (right; exists s, (es_vectors resp); repeat (split; [done|]); exact Hrep).
Qed.

(** *** Rebuilding *)

Definition make_snapshot (model : pystr * Z) (l : list Entry) : Snapshot :=
  {| sn_model_id := model.1; sn_dimensions := model.2; sn_entries := l |}.

(** What a rebuild has gathered so far. *)
Definition gathered (model : option (pystr * Z)) (l : list Entry) : Prop :=
  match model with None => l = [] | Some model => snapshot_ok (make_snapshot model l) end.

Lemma matches_prefix_ids s ds : matches_prefix s ds = true ->
  en_record_id <$> sn_entries s = take (length (sn_entries s)) (id_record_id <$> ds).
Proof.
  unfold matches_prefix. intros [Hl Hz]%andb_true_iff. apply negb_true_iff, Z.ltb_ge in Hl. unfold zlen in Hl.
  revert ds Hl Hz. induction (sn_entries s) as [|e l IH]; intros [|d ds] Hl Hz; cbn in *; try done; try lia.
  apply andb_true_iff in Hz as [E Hz]. apply Z.eqb_eq in E. rewrite E. f_equal. apply IH; [lia|done].
Qed.

Lemma resume_from_ok o ds f : slot_holds o f ->
  gathered (resume_from o ds).1 (resume_from o ds).2 /\
  en_record_id <$> (resume_from o ds).2 = take (length (resume_from o ds).2) (id_record_id <$> ds).
Proof.
  intros Ho. destruct o as [s|]; [|done]. unfold resume_from. destruct (matches_prefix s ds) eqn:E; [|done].
  split; [|by apply matches_prefix_ids]. destruct Ho as [Hok _]. by destruct s.
Qed.

Context {EL : EmbeddingLaws W}.

(** Some snapshot of the first of the given records does not fit its file. *)
Definition overflows (ids : list uuid) : Prop :=
  exists s, snapshot_ok s /\ (en_record_id <$> sn_entries s) `prefix_of` ids /\ too_big s.
Definition own_model (model : option (pystr * Z)) : Prop := model = None \/ model = Some (embed_model, embed_dimensions).
Definition embeddable (ds : list IndexDocument) : Prop := Forall (fun d => embedding_text d <> []) ds.
(** The vectors are embeddings of the documents' texts. *)
Definition embedded (model_id : pystr) (ds : list IndexDocument) (vs : list (list pyfloat)) : Prop :=
  length vs = length ds /\ Forall (fun p => embeds model_id p.1 p.2) (zip (embedding_text <$> ds) vs).

Lemma embedding_request_ok ds : ds <> [] -> embeddable ds ->
  embedding_request ds = Ok {| er_inputs := embedding_text <$> ds; er_privacy_class := REDACTED_CONTENT |}.
Proof.
  intros Hne He. unfold embedding_request, make_embedding_request. cbn [er_inputs].
  assert (embedding_text <$> ds <> []) by (by destruct ds). rewrite bool_decide_false by done. cbn [orb].
  assert (existsb (fun item => bool_decide (item = [])) (embedding_text <$> ds) = false) as ->; [|done].
  clear -He. induction He as [|d ds Hd _ IH]; [done|]. rewrite fmap_cons. cbn [existsb].
  by rewrite bool_decide_false, IH.
Qed.

(** The model a batch continues with. *)
Definition next_model (model : option (pystr * Z)) (m : pystr) (d : Z) : result (pystr * Z) :=
  match model with
  | None => Ok (m, d)
  | Some (model_id, dimensions) =>
      _ ← throw_if (negb (bool_decide (m = model_id)) || negb (d =? dimensions)) IndexModelMismatch;
      mret (model_id, dimensions)
  end.
Lemma next_model_ok model m d p : next_model model m d = Ok p -> p = (m, d) /\ (model = None \/ model = Some p).
Proof.
  destruct model as [[m' d']|]; cbn; [|intros [= <-]; auto]. intros Hx. ok_steps. btauto_hyps. simplify_eq. auto.
Qed.
Lemma next_model_own model : own_model model -> next_model model embed_model embed_dimensions = Ok (embed_model, embed_dimensions).
Proof. intros [->| ->]; [done|]. cbn. by rewrite bool_decide_true, Z.eqb_refl. Qed.

Lemma gathered_more model m d l ds vs resp :
  gathered model l -> model = None \/ model = Some (m, d) ->
  make_embedding_response resp = Ok resp -> forallb is_scalar (es_model_id resp) = true -> m = es_model_id resp ->
  0 < d < 2 ^ 64 -> Forall document_typed ds -> NoDup ((en_record_id <$> l) ++ (id_record_id <$> ds)) ->
  length vs = length ds -> Forall (vector_ok d) vs ->
  snapshot_ok (make_snapshot (m, d) (l ++ added ds vs)).
Proof.
  intros Hg Hm Hresp Hsc -> Hd Ht Hnd Hl Hv. unfold make_embedding_response in Hresp. ok_steps.
  assert (Hl0 : Forall (entry_ok d) l).
  { destruct Hm as [->| ->]; cbn in Hg; [by subst|]. by apply Hg. }
  split; cbn; try done.
  - by destruct x0.
  - apply Forall_app. split; [done|]. by apply added_entries_ok.
  - by rewrite fmap_app, added_ids.
Qed.
(** The checkpoint [f'] after working on [ds] from [f]: untouched, or what was
    gathered before with some of [ds]. *)
Definition advanced (model : option (pystr * Z)) (l : list Entry) (ds : list IndexDocument) (f f' : option file) : Prop :=
  f' = f \/ exists m d n vs, slot_holds (Some (make_snapshot (m, d) (l ++ added (take n ds) vs))) f' /\
    embedded m (take n ds) vs /\ (model = None \/ model = Some (m, d)).

Lemma advanced_holds model l ds f f' : advanced model l ds f f' -> (exists o, slot_holds o f) -> exists o, slot_holds o f'.
Proof. intros [->|(m&d&n&vs&Hh&_)] Ho; [done|by eexists]. Qed.

Record batch_ok (model : option (pystr * Z)) (l : list Entry) (ds : list IndexDocument) i
    (r : result ((pystr * Z) * list Entry)) i' : Prop := {
  bo_active : ix_active i' = ix_active i;
  bo_checkpoint : advanced model l ds (sl_file (ix_checkpoint i)) (sl_file (ix_checkpoint i'));
  bo_gathers p : r = Ok p -> (model = None \/ model = Some p.1) /\ gathered (Some p.1) p.2 /\
    exists vs, embedded p.1.1 ds vs /\ p.2 = l ++ added ds vs;
  bo_live : index_calm i -> own_model model -> embeddable ds -> index_calm i' /\
    (is_ok r = false /\ overflows ((en_record_id <$> l) ++ (id_record_id <$> ds)) \/
     exists p, r = Ok p /\ p.1 = (embed_model, embed_dimensions)) }.

(** The provider's answer to a batch. *)
Lemma embed_batch_ok ds i request :
  embedding_request ds = Ok request ->
  wp (on_ports (embed request)) (fun r i' => same_slots i i' /\ ix_active i' = ix_active i /\
    (forall resp, r = Ok resp -> make_embedding_response resp = Ok resp /\ forallb is_scalar (es_model_id resp) = true /\
       Forall (fun v => zlen v < 2 ^ 64) (es_vectors resp) /\
       (length (es_vectors resp) = length ds -> embedded (es_model_id resp) ds (es_vectors resp))) /\
    (index_calm i -> index_calm i' /\ exists resp, r = Ok resp /\ es_model_id resp = embed_model /\
       length (es_vectors resp) = length ds /\ Forall (vector_ok embed_dimensions) (es_vectors resp))) i.
Proof.
  intros Hq. assert (er_inputs request = embedding_text <$> ds /\ er_inputs request <> []) as [Hin Hne].
  { unfold embedding_request, make_embedding_request in Hq. ok_steps. by btauto_hyps. }
  apply wp_zoom. eapply wp_mono; [apply embed_law|]. intros r w [Hp Hr].
  split; [intros p; by rewrite slot_of_ports|]. split; [done|]. split.
  - intros resp ->. destruct (Hp resp eq_refl) as (H1&H2&H3&H4). rewrite Hin in H4. split_and!; try done.
  - intros [Hc Hw]. destruct (Hr Hw Hne) as (Hw'&resp&->&?&Hl&?). split.
    + split; [|done]. intros p. rewrite slot_of_ports. apply Hc.
    + exists resp. rewrite Hin, length_fmap in Hl. done.
Qed.

Lemma batch_failed model l ds i i' e :
  advanced model l ds (sl_file (ix_checkpoint i)) (sl_file (ix_checkpoint i')) -> ix_active i' = ix_active i ->
  (index_calm i -> own_model model -> embeddable ds -> index_calm i' /\ overflows ((en_record_id <$> l) ++ (id_record_id <$> ds))) ->
  batch_ok model l ds i (Raise e) i'.
Proof. intros Hc Ha Hl. split; [done|done|done|]. intros H1 H2 H3. destruct (Hl H1 H2 H3). auto. Qed.

Lemma rebuild_batch_ok model l ds i :
  gathered model l -> ds <> [] ->
  Forall document_typed ds -> NoDup ((en_record_id <$> l) ++ (id_record_id <$> ds)) ->
  wp (rebuild_batch ds model l) (batch_ok model l ds i) i.
Proof.
  intros Hg Hne Ht Hnd. unfold rebuild_batch. apply wp_bind, wp_lift.
  destruct (embedding_request ds) as [request|e] eqn:Hreq.
  2:{ apply batch_failed; [by left|done|]. intros _ _ He. by rewrite embedding_request_ok in Hreq. }
  apply wp_bind. eapply wp_mono; [by apply embed_batch_ok|]. intros r i1 (Hs&Ha&Hp&Hr).
  assert (Hck1 : advanced model l ds (sl_file (ix_checkpoint i)) (sl_file (ix_checkpoint i1))) by (left; apply (Hs Checkpoint)).
  destruct r as [resp|e].
  2:{ apply batch_failed; [done..|]. intros Hc _ _. by destruct (Hr Hc) as (_&?&?&_). }
  destruct (Hp resp eq_refl) as (Hresp&Hsc&H64&Hemb).
  assert (Hlive : index_calm i -> index_calm i1 /\ es_model_id resp = embed_model /\ length (es_vectors resp) = length ds /\
    Forall (vector_ok embed_dimensions) (es_vectors resp)).
  { intros Hc. destruct (Hr Hc) as (?&?&[= <-]&?). done. }
  apply wp_bind, wp_lift. destruct (validate_response resp (length ds)) as [[]|e] eqn:Hv.
  2:{ apply batch_failed; [done..|]. intros Hc _ _. destruct (Hlive Hc) as (_&_&Hl&Hvs).
      by rewrite (response_valid resp _ _ Hresp Hl Hvs) in Hv. }
  apply validate_response_ok in Hv as (Hl&d&Hfd&Hd&Hvs). rewrite Hfd. apply wp_bind, wp_lift.
  assert (Hd64 : d < 2 ^ 64).
  { destruct (es_vectors resp) as [|v vs]; [by destruct ds|]. apply Forall_cons in Hvs as [[<- _] _]. by apply Forall_cons in H64 as [? _]. }
  apply wp_bind, wp_lift. change (match next_model model (es_model_id resp) d with
    | Ok a => wp (added ← lift (entries_of ds resp); let entries := l ++ added in
        _ ← save Checkpoint {| sn_model_id := a.1; sn_dimensions := a.2; sn_entries := entries |}; mret (a, entries))
        (batch_ok model l ds i) i1
    | Raise e => batch_ok model l ds i (Raise e) i1 end).
  assert (Hown : index_calm i -> own_model model -> next_model model (es_model_id resp) d = Ok (embed_model, embed_dimensions)).
  { intros Hc Ho. destruct (Hlive Hc) as (_&->&_&Hvs'). rewrite <- (next_model_own model Ho). f_equal.
    destruct (es_vectors resp) as [|v vs]; [by destruct ds|]. apply Forall_cons in Hvs as [[<- _] _].
    by apply Forall_cons in Hvs' as [[-> _] _]. }
  destruct (next_model model (es_model_id resp) d) as [p|e] eqn:Hn.
  2:{ apply batch_failed; [done..|]. intros Hc Ho _. by specialize (Hown Hc Ho). }
  apply next_model_ok in Hn as [-> Hm].
  rewrite entries_of_ok by done. apply wp_bind, wp_lift. cbn zeta.
  change {| sn_model_id := (es_model_id resp, d).1; sn_dimensions := (es_model_id resp, d).2; sn_entries := l ++ added ds (es_vectors resp) |}
    with (make_snapshot (es_model_id resp, d) (l ++ added ds (es_vectors resp))).
  assert (Hok : snapshot_ok (make_snapshot (es_model_id resp, d) (l ++ added ds (es_vectors resp)))) by (by eapply gathered_more).
  apply wp_bind. eapply wp_mono; [by apply save_area|]. intros r i2 (Hq&Hf&Hgood&Hc&_).
  pose proof (Hq Active ltac:(done)) as HqA. cbn [slot_of] in *.
  assert (Hck2 : advanced model l ds (sl_file (ix_checkpoint i)) (sl_file (ix_checkpoint i2))).
  { destruct Hf as [[-> _]|Hf]; [done|right]. exists (es_model_id resp), d, (length ds), (es_vectors resp).
    rewrite take_ge by done. split; [done|]. split; [by apply Hemb|done]. }
  assert (Hlive2 : index_calm i -> own_model model ->
    index_calm i2 /\ (es_model_id resp, d) = (embed_model, embed_dimensions) /\
    (is_ok r = true \/ overflows ((en_record_id <$> l) ++ (id_record_id <$> ds)))).
  { intros H1 H2. destruct (Hlive H1) as (H4&H5&_). specialize (Hown H1 H2). injection Hown as Em Ed.
    destruct Hc as [H6 H7]; [done|]. split; [done|]. split; [congruence|]. destruct H7 as [H7|H7]; [by left|right].
    eexists. split; [exact Hok|]. split; [|done]. cbn. by rewrite fmap_app, added_ids. }
  destruct r as [[]|e].
  - apply wp_ret. split; [congruence|done| |].
    + intros p [= <-]. split; [done|]. split; [done|]. exists (es_vectors resp). split; [by apply Hemb|done].
    + intros H1 H2 _. destruct (Hlive2 H1 H2) as (?&E&_). split; [done|]. right. by eexists.
  - apply batch_failed; [done|congruence|]. intros H1 H2 _. by destruct (Hlive2 H1 H2) as (?&_&[?|?]).
Qed.
Lemma overflows_prefix ids ids' : ids `prefix_of` ids' -> overflows ids -> overflows ids'.
Proof. intros Hp (s&H1&H2&H3). exists s. split; [done|]. split; [by etrans|done]. Qed.

Lemma slices_ok {A} fuel n (l : list A) : (length l <= fuel)%nat -> (0 < n)%nat ->
  mjoin (slices fuel n l) = l /\ Forall (fun b => b <> []) (slices fuel n l).
Proof.
  intros Hl Hn. revert l Hl. induction fuel as [|fuel IH]; intros l Hl; [by destruct l; [|cbn in Hl; lia]|].
  destruct l as [|x l]; [done|]. destruct n as [|n]; [lia|].
  cbn [slices]. destruct (IH (drop (S n) (x :: l))) as [H1 H2]; [rewrite length_drop; cbn [length] in *; lia|].
  split; [|by constructor]. change (take (S n) (x :: l) ++ mjoin (slices fuel (S n) (drop (S n) (x :: l))) = x :: l).
  rewrite H1. apply take_drop.
Qed.

Lemma embedded_app m ds ds' vs vs' : embedded m ds vs -> embedded m ds' vs' -> embedded m (ds ++ ds') (vs ++ vs').
Proof.
  intros [H1 H2] [H3 H4]. split; [rewrite !length_app; lia|]. rewrite fmap_app, zip_with_app by (by rewrite length_fmap).
  by apply Forall_app.
Qed.

Record batches_ok (model : option (pystr * Z)) (l : list Entry) (batches : list (list IndexDocument)) i
    (r : result (option (pystr * Z) * list Entry)) i' : Prop := {
  bs_active : ix_active i' = ix_active i;
  bs_checkpoint : advanced model l (mjoin batches) (sl_file (ix_checkpoint i)) (sl_file (ix_checkpoint i'));
  bs_gathers p : r = Ok p -> gathered p.1 p.2 /\ (model = None \/ p.1 = model) /\
    exists vs, length vs = length (mjoin batches) /\ p.2 = l ++ added (mjoin batches) vs /\
      forall m d, p.1 = Some (m, d) -> embedded m (mjoin batches) vs;
  bs_live : index_calm i -> own_model model -> embeddable (mjoin batches) -> index_calm i' /\
    (overflows ((en_record_id <$> l) ++ (id_record_id <$> mjoin batches)) \/ exists p, r = Ok p /\ own_model p.1 /\ (batches <> [] \/ model <> None -> p.1 <> None)) }.

Lemma rebuild_batches_ok model l batches i :
  gathered model l -> Forall (fun b => b <> []) batches ->
  Forall document_typed (mjoin batches) -> NoDup ((en_record_id <$> l) ++ (id_record_id <$> mjoin batches)) ->
  wp (rebuild_batches batches model l) (batches_ok model l batches i) i.
Proof.
  revert model l i. induction batches as [|b batches IH]; intros model l i Hg Hne Ht Hnd; cbn [rebuild_batches].
  - apply wp_ret. split; [done|by left| |].
    + intros p [= <-]. split; [done|]. split; [by right|]. exists []. cbn. rewrite app_nil_r. by split_and!.
    + intros Hc Ho _. split; [done|]. right. exists (model, l). split; [done|]. split; [done|]. by intros [|].
  - apply Forall_cons in Hne as [Hb Hne].
    change (mjoin (b :: batches)) with (b ++ mjoin batches) in *.
    rewrite fmap_app in Hnd. apply Forall_app in Ht as [Htb Ht].
    assert (Hnd1 : NoDup ((en_record_id <$> l) ++ (id_record_id <$> b))) by (rewrite (assoc_L (++)) in Hnd; by apply NoDup_app in Hnd as (?&_)).
    apply wp_bind. eapply wp_mono; [by apply rebuild_batch_ok|]. intros r i1 [Ha1 Hck1 Hg1 Hl1].
    assert (Hfit1 : overflows ((en_record_id <$> l) ++ (id_record_id <$> b)) ->
      overflows ((en_record_id <$> l) ++ (id_record_id <$> b ++ mjoin batches))).
    { apply overflows_prefix. rewrite fmap_app, (assoc_L (++)). by apply prefix_app_r. }
    assert (Hck1' : forall f, advanced model l b (sl_file (ix_checkpoint i)) f ->
      advanced model l (b ++ mjoin batches) (sl_file (ix_checkpoint i)) f).
    { intros f [->|(m&d&k&vs&Hh&Hemb&Hm)]; [by left|right]. exists m, d, (k `min` length b)%nat, vs.
      rewrite take_app_le by lia. rewrite <- take_take, (take_ge b (length b)) by done. done. }
    destruct r as [[p l1]|e].
    + destruct (Hg1 _ eq_refl) as (Hm1&Hgp&vs&Hemb&Hl1eq). cbn [fst snd] in *.
      assert (Hids : en_record_id <$> l1 = (en_record_id <$> l) ++ (id_record_id <$> b)) by (rewrite Hl1eq, fmap_app, added_ids; [done|apply Hemb]).
      eapply wp_mono; [apply IH; [done|done|done|by rewrite Hids, <- (assoc_L (++))]|]. intros r i2 [Ha2 Hck2 Hg2 Hl2].
      split; [congruence| | |].
      { destruct Hck2 as [->|(m&d&k&vs'&Hh&Hemb'&Hm)]; [by apply Hck1'|right]. exists m, d, (length b + k)%nat, (vs ++ vs').
        change (mjoin (b :: batches)) with (b ++ mjoin batches). rewrite take_app_add.
        assert (p = (m, d)) as -> by (by destruct Hm as [|[= ->]]).
        rewrite added_entries_app, (assoc_L (++)), <- Hl1eq by apply Hemb. split; [done|]. split; [by apply embedded_app|done]. }
      * intros q ->. destruct (Hg2 q eq_refl) as (Hgq&Hmq&vs'&Hlen&Eq&Hemb'). split; [done|].
        assert (q.1 = Some p) as Eqp by (by destruct Hmq as [|]).
        split; [destruct Hm1 as [|]; [by left|right; congruence]|].
        change (mjoin (b :: batches)) with (b ++ mjoin batches).
        exists (vs ++ vs'). split; [rewrite !length_app; f_equal; [apply Hemb|exact Hlen]|]. split.
        -- rewrite Eq, Hl1eq, <- (assoc_L (++)), added_entries_app; [done|apply Hemb].
        -- intros m d Hmd. apply embedded_app; [|by apply (Hemb' m d)]. assert (p = (m, d)) as -> by congruence. done.
      * intros Hc Ho [He1 He2]%Forall_app. destruct (Hl1 Hc Ho He1) as (Hc1&[[? _]|(?&[= <-]&Ep)]); [done|].
        cbn in Ep. subst p. destruct Hl2 as (Hc2&Hr2); [done|by right|done|].
        change (mjoin (b :: batches)) with (b ++ mjoin batches).
        split; [done|]. destruct Hr2 as [Hr2|(q&->&Hoq&Hnq)]; [left|right].
        -- by rewrite fmap_app, (assoc_L (++)), <- Hids.
        -- exists q. split; [done|]. split; [done|]. intros _. apply Hnq. by right.
    + split; [done|by apply Hck1'|done|]. intros Hc Ho [He1 He2]%Forall_app. destruct (Hl1 Hc Ho He1) as (?&[[_ ?]|(?&?&_)]); [|done]. auto.
Qed.

(** The documents an [IndexDocument] constructor accepts. *)
Definition constructed (d : IndexDocument) : Prop := make_document d = Ok d /\ document_typed d.

Lemma constructed_text d : constructed d -> embedding_text d <> [] /\ id_privacy_class d = REDACTED_CONTENT.
Proof.
  intros [Hm _]. unfold make_document in Hm. ok_steps. btauto_hyps. split; [|done].
  assert (Ht : id_text d <> []) by (intros E; match goal with Hr : require_nonempty _ = _ |- _ => rewrite E in Hr; done end).
  unfold embedding_text. destruct (id_text d) as [|c s] eqn:E; [done|]. destruct (id_approved_metadata d); discriminate.
Qed.

Lemma validate_constructed ds : Forall constructed ds -> ds <> [] -> NoDup (id_record_id <$> ds) -> validate_documents ds = Ok tt.
Proof.
  intros Hd Hne Hnd. unfold validate_documents, has_duplicates.
  rewrite (bool_decide_false (ds = [])), (bool_decide_true (NoDup _)) by done.
  assert (existsb (fun d => negb (bool_decide (id_privacy_class d = REDACTED_CONTENT))) ds = false) as ->; [|done].
  apply (existsb_Forall _ (fun d => id_privacy_class d = REDACTED_CONTENT)); [intros d; by rewrite negb_false_iff, bool_decide_eq_true|].
  eapply Forall_impl; [exact Hd|]. intros d Hok. by apply constructed_text.
Qed.

(** What a rebuild ends with: the entries it started from, then the rest. *)
Definition rebuilt (ck : option Snapshot) (ds : list IndexDocument) (s : Snapshot) : Prop :=
  let start := resume_from ck ds in
  let rest := drop (length start.2) ds in
  (start.1 = None \/ start.1 = Some (sn_model_id s, sn_dimensions s)) /\
  exists vs, embedded (sn_model_id s) rest vs /\ sn_entries s = start.2 ++ added rest vs.

(** The checkpoint's entries are embeddings of the first documents as they are
    now. *)
Definition fresh (ck : option Snapshot) (ds : list IndexDocument) : Prop :=
  let start := resume_from ck ds in
  start.2 = [] \/ exists m d vs, start.1 = Some (m, d) /\ start.2 = added (take (length start.2) ds) vs /\
    embedded m (take (length start.2) ds) vs.

Lemma added_length ds vs : length vs = length ds -> length (added ds vs) = length ds.
Proof. intros Hl. rewrite <- (length_fmap en_record_id), added_ids by done. by rewrite length_fmap. Qed.

(** A gathering from the beginning. *)
Lemma fresh_gathered m d k vs ds : embedded m (take k ds) vs -> fresh (Some (make_snapshot (m, d) (added (take k ds) vs))) ds.
Proof.
  intros He. unfold fresh, resume_from. destruct (matches_prefix _ ds); [right|by left]. exists m, d, vs. cbn [fst snd make_snapshot sn_entries].
  rewrite added_length by apply He. split; [done|].
  assert (take (length (take k ds)) ds = take k ds) as ->; [|done]. rewrite length_take. 
  destruct (decide (k <= length ds)%nat); [by rewrite Nat.min_l|]. by rewrite Nat.min_r, !take_ge by lia.
Qed.

Lemma advanced_fresh ck ds f f' : fresh ck ds -> slot_holds ck f ->
  advanced (resume_from ck ds).1 (resume_from ck ds).2 (drop (length (resume_from ck ds).2) ds) f f' ->
  exists ck', slot_holds ck' f' /\ fresh ck' ds.
Proof.
  intros Hfr Hck. destruct (resume_from_ok ck ds f Hck) as [Hg _]. unfold fresh in Hfr.
  destruct (resume_from ck ds) as [model l] eqn:E. cbn [fst snd] in *.
  intros [->|(m&d&n&vs&Hh&Hemb&Hm)]; [exists ck; unfold fresh; by rewrite E|].
  eexists. split; [exact Hh|]. destruct Hfr as [->|(m0&d0&vs0&->&El&Hemb0)]; [by apply (fresh_gathered m d n vs)|].
  assert (m0 = m) as -> by (by destruct Hm as [|[= -> ->]]). revert Hemb Hh. set (k := length l) in *. rewrite El. intros Hemb Hh.
  rewrite <- added_entries_app by apply Hemb0. rewrite take_take_drop. apply fresh_gathered. rewrite <- take_take_drop. by apply embedded_app.
Qed.

Lemma rebuilt_fresh ck ds s : fresh ck ds -> rebuilt ck ds s ->
  exists vs, embedded (sn_model_id s) ds vs /\ sn_entries s = added ds vs.
Proof.
  unfold fresh, rebuilt. destruct (resume_from ck ds) as [model l]. cbn [fst snd].
  intros [->|(m&d&vs0&->&El&Hemb0)] (Hm&vs&Hemb&->); [by exists vs|].
  assert (m = sn_model_id s) as -> by (by destruct Hm as [|[= -> ->]]). exists (vs0 ++ vs).
  set (k := length l) in *. rewrite El, <- added_entries_app by apply Hemb0. rewrite take_drop. split; [|done].
  rewrite <- (take_drop k ds). by apply embedded_app.
Qed.

Lemma rebuild_ok ds n i o ck :
  Forall document_typed ds -> index_inv i -> active_holds o i -> slot_holds ck (sl_file (ix_checkpoint i)) ->
  wp (rebuild ds n) (fun r i' =>
    (index_inv i' /\ active_holds o i' /\ is_ok r = false \/
     exists s, snapshot_ok s /\ rebuilt ck ds s /\ en_record_id <$> sn_entries s = id_record_id <$> ds /\
       replaced o (Some s) r i') /\
    (fresh ck ds -> exists ck', slot_holds ck' (sl_file (ix_checkpoint i')) /\ fresh ck' ds) /\
    (index_calm i -> Forall constructed ds -> ds <> [] -> NoDup (id_record_id <$> ds) -> 0 < n ->
     own_model (resume_from ck ds).1 ->
     index_calm i' /\ (overflows (id_record_id <$> ds) \/ is_ok r = true /\ sl_file (ix_checkpoint i') = None))) i.
Proof.
  intros Ht Hi Ho Hck. unfold rebuild. assert (Hrefl : same_slots i i) by done.
  assert (Hsame : forall i', sl_file (ix_checkpoint i') = sl_file (ix_checkpoint i) ->
    fresh ck ds -> exists ck', slot_holds ck' (sl_file (ix_checkpoint i')) /\ fresh ck' ds).
  { intros i' -> Hfr. by exists ck. }
  set (live := index_calm i -> Forall constructed ds -> ds <> [] -> NoDup (id_record_id <$> ds) -> 0 < n ->
     own_model (resume_from ck ds).1 -> overflows (id_record_id <$> ds)).
  assert (Hfail : forall e i', index_inv i' -> active_holds o i' -> sl_file (ix_checkpoint i') = sl_file (ix_checkpoint i) ->
    (index_calm i -> index_calm i') -> live ->
    (index_inv i' /\ active_holds o i' /\ is_ok (Raise e : result IndexManifest) = false \/
     exists s, snapshot_ok s /\ rebuilt ck ds s /\ en_record_id <$> sn_entries s = id_record_id <$> ds /\
       replaced o (Some s) (Raise e : result IndexManifest) i') /\
    (fresh ck ds -> exists ck', slot_holds ck' (sl_file (ix_checkpoint i')) /\ fresh ck' ds) /\
    (index_calm i -> Forall constructed ds -> ds <> [] -> NoDup (id_record_id <$> ds) -> 0 < n ->
     own_model (resume_from ck ds).1 -> index_calm i' /\
     (overflows (id_record_id <$> ds) \/ is_ok (Raise e : result IndexManifest) = true /\ sl_file (ix_checkpoint i') = None))).
  { intros e i' H1 H2 H4 Hc H3. split; [by left|]. split; [by apply Hsame|]. intros A1 A2 A3 A4 A5 A6. split; [auto|]. left. by apply H3. }
  apply wp_bind, wp_lift. destruct (validate_documents ds) as [[]|e] eqn:Hv.
  2:{ apply Hfail; [done..|]. intros _ A2 A3 A4 _ _. by rewrite validate_constructed in Hv. }
  apply validate_documents_ok in Hv as [Hne Hnd].
  apply wp_bind, wp_lift. destruct (Z.leb_spec n 0) as [Hn|Hn]; [apply Hfail; [done..|]; intros _ _ _ _ A5; lia|]. cbn [throw_if].
  eapply (after_load Checkpoint); [exact Hck|..].
  2:{ intros e i1 Hs Hc. apply Hfail; [by eapply index_inv_same|by eapply active_same|apply (Hs Checkpoint)|intros A1; by destruct (Hc A1)..]. }
  intros i1 Hs Hc1. destruct (resume_from_ok ck ds _ Hck) as [Hg Hids]. cbn zeta.
  destruct (resume_from ck ds) as [model l] eqn:Estart. cbn [fst snd] in *.
  set (rest := drop (length l) ds). destruct (slices_ok (length rest) (Z.to_nat n) rest) as [Hjoin Hslices]; [lia|lia|].
  assert (Hall : (en_record_id <$> l) ++ (id_record_id <$> rest) = id_record_id <$> ds).
  { rewrite Hids. unfold rest. rewrite fmap_drop. apply take_drop. }
  apply wp_bind. eapply wp_mono.
  { apply rebuild_batches_ok; [exact Hg|done|rewrite Hjoin; unfold rest; by apply Forall_drop|by rewrite Hjoin, Hall]. }
  intros r i2 [Ha2 Hck2 Hg2 Hl2]. rewrite Hjoin in Hck2, Hg2, Hl2.
  pose proof (proj1 (Hs Checkpoint)) as Eck. cbn [slot_of] in Eck. rewrite Eck in Hck2.
  assert (Hi2 : index_inv i2).
  { intros [|]; cbn [slot_of]; [|by eapply advanced_holds; [|exists ck]]. rewrite Ha2. destruct (index_inv_same _ _ Hs Hi Active) as [o' Ho']. by exists o'. }
  assert (Ho2 : active_holds o i2) by (unfold active_holds; rewrite Ha2; by eapply (active_same o i)).
  assert (Hfr2 : forall f, f = sl_file (ix_checkpoint i2) \/ f = None -> fresh ck ds -> exists ck', slot_holds ck' f /\ fresh ck' ds).
  { intros f [->| ->] Hfr; [|exists None; split; [done|by left]].
    apply (advanced_fresh ck ds (sl_file (ix_checkpoint i))); [done|done|]. by rewrite Estart. }
  assert (Hl2' : index_calm i -> Forall constructed ds -> own_model model -> index_calm i2 /\
    (overflows (id_record_id <$> ds) \/
     exists p, r = Ok p /\ own_model p.1 /\ (slices (length rest) (Z.to_nat n) rest <> [] \/ model <> None -> p.1 <> None))).
  { intros A1 A2 A3. rewrite <- Hall. apply Hl2; [by apply Hc1|done|].
    apply Forall_drop. eapply Forall_impl; [exact A2|]. intros d Hd. by apply constructed_text. }
  destruct r as [[pm pl]|e].
  2:{ split; [by left|]. split; [apply Hfr2; by left|]. intros A1 A2 A3 A4 A5 A6. destruct (Hl2' A1 A2 A6) as (?&[?|(?&?&_)]); auto. done. }
  destruct (Hg2 _ eq_refl) as (Hgp&Hmp&vs&Hlvs&Epl&Hemb). cbn [fst snd] in *.
  destruct pm as [[m d]|].
  2:{ apply wp_raise. split; [by left|]. split; [apply Hfr2; by left|]. intros A1 A2 A3 A4 A5 A6.
      destruct (Hl2' A1 A2 A6) as (?&[?|(?&[= <-]&_&Hx)]); [auto|]. cbn in Hx. exfalso.
      destruct model as [|]; [by apply Hx; [right|]|]. cbn in Hg. subst l. apply Hx; [left|done].
      intros E. apply A3. exact (eq_trans (eq_sym Hjoin) (f_equal mjoin E)). }
  set (s := make_snapshot (m, d) pl).
  change (wp (_ ← save Active s; _ ← on_slot Checkpoint unlink_slot; mret (manifest_of s)) (fun r i' =>
    (index_inv i' /\ active_holds o i' /\ is_ok r = false \/
     exists s, snapshot_ok s /\ rebuilt ck ds s /\ en_record_id <$> sn_entries s = id_record_id <$> ds /\ replaced o (Some s) r i') /\
    (fresh ck ds -> exists ck', slot_holds ck' (sl_file (ix_checkpoint i')) /\ fresh ck' ds) /\
    (index_calm i -> Forall constructed ds -> ds <> [] -> NoDup (id_record_id <$> ds) -> 0 < n -> own_model model ->
     index_calm i' /\ (overflows (id_record_id <$> ds) \/ is_ok r = true /\ sl_file (ix_checkpoint i') = None))) i2).
  assert (Hsok : snapshot_ok s) by exact Hgp.
  assert (Hsids : en_record_id <$> sn_entries s = id_record_id <$> ds) by (unfold s; cbn; by rewrite Epl, fmap_app, added_ids).
  assert (Hreb : rebuilt ck ds s).
  { unfold rebuilt. rewrite Estart. cbn [fst snd]. split; [destruct Hmp as [|]; [by left|by right]|]. exists vs.
    split; [by apply (Hemb m d)|done]. }
  apply wp_bind. eapply wp_mono; [by apply (save_active o s i2 i2)|]. intros r i3 (Hrep3&Hck3&Hcalm3&_).
  assert (Hfin : forall (r : result IndexManifest) i', replaced o (Some s) r i' ->
    index_inv i' /\ active_holds o i' /\ is_ok r = false \/
     exists s, snapshot_ok s /\ rebuilt ck ds s /\ en_record_id <$> sn_entries s = id_record_id <$> ds /\ replaced o (Some s) r i').
  { intros r0 i0 H0. right. by exists s. }
  assert (Hlive3 : index_calm i -> Forall constructed ds -> own_model model ->
    index_calm i3 /\ (overflows (id_record_id <$> ds) \/ is_ok r = true)).
  { intros A1 A2 A3. destruct (Hl2' A1 A2 A3) as (Hc2&_). destruct (Hcalm3 Hc2) as [? [?|?]]; [auto|].
    split; [done|]. left. exists s. by rewrite Hsids. }
  destruct r as [[]|e].
  2:{ split; [by apply Hfin|]. split; [apply Hfr2; left; exact Hck3|]. intros A1 A2 _ _ _ A6. destruct (Hlive3 A1 A2 A6) as [? [?|?]]; auto. done. }
  apply wp_bind, on_slot_ok. eapply wp_mono; [apply unlink_ok|]. intros r sl (Hf&_&Hok&Hcalm). cbn [slot_of] in *.
  destruct Hrep3 as [Hi3 Hact3].
  assert (Hrep4 : forall r : result IndexManifest, replaced o (Some s) r (set_slot Checkpoint sl i3)).
  { intros r0. split; [|right; by destruct Hact3 as [[_ ?]|]]. intros [|]; cbn [slot_of set_slot ix_active ix_checkpoint]; [apply (Hi3 Active)|].
    destruct Hf as [->| ->]; [apply (Hi3 Checkpoint)|by exists None]. }
  assert (Hlive4 : index_calm i -> Forall constructed ds -> own_model model ->
    index_calm (set_slot Checkpoint sl i3) /\ r = Ok tt).
  { intros A1 A2 A3. destruct (Hlive3 A1 A2 A3) as [[Hc3 Hw3] _]. destruct (Hcalm (Hc3 Checkpoint)) as [Hsl ->].
    split; [|done]. split; [|done]. intros [|]; [apply (Hc3 Active)|done]. }
  assert (Hfr4 : fresh ck ds -> exists ck', slot_holds ck' (sl_file (ix_checkpoint (set_slot Checkpoint sl i3))) /\ fresh ck' ds).
  { apply Hfr2. cbn. rewrite <- Hck3. exact Hf. }
  destruct r as [[]|e]; [apply wp_ret|]; (split; [by apply Hfin|]); (split; [exact Hfr4|]); intros A1 A2 _ _ _ A6;
    destruct (Hlive4 A1 A2 A6) as [? Hr]; [|done]. split; [done|]. right. split; [done|]. by apply Hok.
Qed.
End Files.
