(* ===== verification/SemanticIndexProps.v ===== *)
(** * SemanticIndexProps: the properties of the semantic index.

    The operations refine operations on a map from records to vectors; a
    rebuild may be interrupted anywhere and run again; a search gives the best
    entries of its window. *)

From stdpp Require Import sorting.
From S2P Require Import Prelude PyStr Utf8 PyFloat Json JsonFacts PyLib Storage PyData Codec CodecFacts Egress Retrieval DeletionFacts Sealed SealedFacts SemanticIndex SemanticIndexFacts.

(** ** The index as a map *)

Inductive index_call :=
  | CAdd (documents : list IndexDocument)
  | CRemove (ids : list uuid)
  | CClear
  | CRebuild (documents : list IndexDocument) (batch_size : Z)
  | CManifest
  | CRecordIds
  | CSearch (q : SemanticQuery).

(** Its documents carry real UUIDs and dates. *)
Definition call_typed (c : index_call) : Prop :=
  match c with CAdd ds | CRebuild ds _ => Forall document_typed ds | _ => True end.

(** The model, the dimensions, and the vector of each record. *)
Definition view : Type := option (pystr * Z * gmap uuid (datetime * list pyfloat)).
Definition view_of (o : option Snapshot) : view :=
  (fun s => (sn_model_id s, sn_dimensions s, entry_map (sn_entries s))) <$> o.

Section Refinement.
Context {L : PyLibrary} {W : Type} `{SL : SealLaws W} `{EP : !EmbeddingPorts W} {EL : EmbeddingLaws W}.
Implicit Types (i : index W).

Definition run_call (c : index_call) : M (index W) unit :=
  match c with
  | CAdd ds => _ ← add ds; mret tt
  | CRemove ids => _ ← remove ids; mret tt
  | CClear => clear
  | CRebuild ds n => _ ← rebuild ds n; mret tt
  | CManifest => _ ← manifest; mret tt
  | CRecordIds => _ ← record_ids; mret tt
  | CSearch q => _ ← search q; mret tt
  end.

(** What each operation does to the map; [ck] is the checkpoint a rebuild
    finds. *)
Inductive index_step (ck : option Snapshot) : index_call -> view -> view -> Prop :=
  | is_add ds model dims m vs : length vs = length ds -> Forall (vector_ok dims) vs ->
      index_step ck (CAdd ds) (Some (model, dims, m)) (Some (model, dims, entry_map (added ds vs) ∪ m))
  | is_remove_none ids : index_step ck (CRemove ids) None None
  | is_remove ids model dims m :
      index_step ck (CRemove ids) (Some (model, dims, m)) (Some (model, dims, filter (fun kv => kv.1 ∉ ids) m))
  | is_clear v : index_step ck CClear v None
  | is_rebuild ds n v s : rebuilt ck ds s -> en_record_id <$> sn_entries s = id_record_id <$> ds ->
      index_step ck (CRebuild ds n) v (view_of (Some s))
  | is_manifest v : index_step ck CManifest v v
  | is_record_ids v : index_step ck CRecordIds v v
  | is_search q v : index_step ck (CSearch q) v v.

Lemma bind_tt {A} (m : M (index W) A) (Q : bool -> index W -> Prop) i :
  wp m (fun r i' => Q (is_ok r) i') i -> wp (_ ← m; mret tt : M (index W) unit) (fun r i' => Q (is_ok r) i') i.
Proof. intros Hm. apply wp_bind. eapply wp_mono; [exact Hm|]. intros [a|e] i' Hq; [by apply wp_ret|done]. Qed.

(** C28 (index_refines): every operation of the semantic index refines an
    operation on a map from records to vectors: adding puts the documents'
    vectors over the old ones, removing deletes exactly the given records,
    rebuilding leaves exactly the given documents, clearing empties it and
    reading leaves it.  An operation that raises (a full disk, a lost key, a
    failing provider) leaves the old map or the new one, never a mixture. *)
Theorem index_refines c i i' r o ck :
  call_typed c -> index_inv i -> active_holds o i -> slot_holds ck (sl_file (ix_checkpoint i)) ->
  run_call c i = (i', r) ->
  index_inv i' /\ exists o', active_holds o' i' /\
    (o' = o /\ is_ok r = false \/ index_step ck c (view_of o) (view_of o')).
Proof.
  intros Hty Hi Ho Hck Hrun.
  set (Q := fun (ok : bool) i' => index_inv i' /\ exists o', active_holds o' i' /\
    (o' = o /\ ok = false \/ index_step ck c (view_of o) (view_of o'))).
  assert (Hrep : forall o' {A} (r : result A) i', index_step ck c (view_of o) (view_of o') ->
    replaced o o' r i' -> Q (is_ok r) i').
  { intros o' A x i1 Hs [Hi' [[Ho' Hr]|Ho']]; (split; [done|]); [exists o|exists o']; auto. }
  apply (wp_run _ (fun x i' => Q (is_ok x) i') _ _ _ Hrun). clear Hrun i' r.
  destruct c as [ds|ids| |ds n| | |q]; cbn [run_call call_typed] in *; try apply bind_tt.
  - eapply wp_mono; [by apply index_add_ok|]. intros x i' [(Hi'&Ho'&Hr)|(s&vs&->&Hnd&Hl&Hv&Hr)]; [split; [done|]; exists o; auto|].
    eapply (Hrep (Some (with_added s ds vs))); [|exact Hr].
    change (index_step ck (CAdd ds) (Some (sn_model_id s, sn_dimensions s, entry_map (sn_entries s)))
      (Some (sn_model_id s, sn_dimensions s, entry_map (sn_entries (with_added s ds vs))))).
    destruct (with_added_ok s ds vs) as [_ ->]; [apply Ho|done..|]. by constructor.
  - eapply wp_mono; [by apply remove_ok|]. intros x i' [Hr _]. eapply Hrep; [|exact Hr].
    destruct o as [s|]; [|constructor].
    change (index_step ck (CRemove ids) (Some (sn_model_id s, sn_dimensions s, entry_map (sn_entries s)))
      (Some (sn_model_id s, sn_dimensions s, entry_map (filter (fun e => en_record_id e ∉ ids) (sn_entries s))))).
    rewrite entry_map_filter. constructor.
  - eapply wp_mono; [by apply (index_clear_ok _ o)|]. intros x i' Hr. apply (Hrep None _ x); [constructor|done].
  - eapply wp_mono; [by apply (rebuild_ok ds n i o ck)|]. intros x i' [[(Hi'&Ho'&Hr)|(s&_&Hb&Hids&Hr)] _].
    + split; [done|]. exists o. auto.
    + eapply Hrep; [|exact Hr]. by constructor.
  - eapply wp_mono; [by eapply reads_ok; [eapply manifest_reads|..]|]. intros x i' [Hi' Ho']. split; [done|]. exists o. split; [done|]. right. constructor.
  - eapply wp_mono; [by eapply reads_ok; [eapply record_ids_reads|..]|]. intros x i' [Hi' Ho']. split; [done|]. exists o. split; [done|]. right. constructor.
  - eapply wp_mono; [by eapply reads_ok; [eapply search_reads|..]|]. intros x i' [Hi' Ho']. split; [done|]. exists o. split; [done|]. right. constructor.
Qed.


(** [stale_temporary_blocks]: when a crash has left the temporary file of
    the active snapshot behind, every removal fails and leaves everything as it
    is, the temporary file included: the next one fails again. *)
Theorem stale_temporary_blocks ids i i' r s :
  index_inv i -> active_holds (Some s) i -> sl_temporary (ix_active i) = true ->
  remove ids i = (i', r) ->
  is_ok r = false /\ index_inv i' /\ active_holds (Some s) i' /\ sl_temporary (ix_active i') = true.
Proof.
  intros Hi Ho Ht Hrun. destruct (wp_run _ _ _ _ _ Hrun (remove_ok ids i (Some s) Hi Ho)) as ((Hi'&_)&_&_&Hx).
  destruct (Hx Ht) as (?&?&?); [done|]. done.
Qed.
End Refinement.

(** ** Ranking *)

(** The place of a float in the order of the numbers; a NaN has none. *)
Definition float_rank (x : pyfloat) : Z * Z * Z :=
  match x with
  | S754_infinity true => (-2, 0, 0)
  | S754_finite true m e => (-1, - e, - Zpos m)
  | S754_zero _ => (0, 0, 0)
  | S754_finite false m e => (1, e, Zpos m)
  | S754_infinity false => (2, 0, 0)
  | S754_nan => (3, 0, 0)
  end.
Definition is_nan (x : pyfloat) : bool := match x with S754_nan => true | _ => false end.

Definition rank_lt (a b : Z * Z * Z) : Prop :=
  let '(a1, a2, a3) := a in let '(b1, b2, b3) := b in
  a1 < b1 \/ a1 = b1 /\ (a2 < b2 \/ a2 = b2 /\ a3 < b3).

Lemma rank_irrefl r : ~ rank_lt r r.
Proof. destruct r as [[x y] z]. cbn. lia. Qed.

Lemma rank_trans a b c : rank_lt a b -> rank_lt b c -> rank_lt a c.
Proof. destruct a as [[a1 a2] a3], b as [[b1 b2] b3], c as [[c1 c2] c3]. cbn. lia. Qed.
Lemma rank_total a b : rank_lt a b \/ a = b \/ rank_lt b a.
Proof.
  destruct a as [[a1 a2] a3], b as [[b1 b2] b3]. cbn.
  destruct (Z.lt_trichotomy a1 b1) as [|[->|]]; [lia| |lia].
  destruct (Z.lt_trichotomy a2 b2) as [|[->|]]; [lia| |lia].
  destruct (Z.lt_trichotomy a3 b3) as [|[->|]]; [lia|auto|lia].
Qed.

Lemma compare_rank a b : is_nan a = false -> is_nan b = false ->
  match SFcompare a b with
  | Some Lt => rank_lt (float_rank a) (float_rank b)
  | Some Eq => float_rank a = float_rank b
  | Some Gt => rank_lt (float_rank b) (float_rank a)
  | None => False
  end.
Proof.
  intros Ha Hb. destruct a as [sa|[]| |[] m e], b as [sb|[]| |[] n f]; try done; cbn; try (unfold rank_lt; lia); try done;
    destruct (Z.compare_spec e f) as [->|?|?]; try (unfold rank_lt; lia);
    change (Pos.compare_cont Eq m n) with (Pos.compare m n);
    destruct (Pos.compare_spec m n) as [->|?|?]; cbn; unfold rank_lt; lia || done.
Qed.

Lemma flt_rank a b : is_nan a = false -> is_nan b = false -> flt a b = true <-> rank_lt (float_rank a) (float_rank b).
Proof.
  intros Ha Hb. pose proof (compare_rank a b Ha Hb) as Hc. unfold flt, SFltb.
  destruct (SFcompare a b) as [[]|]; [| |split; [done|]..]; try (split; [done|]);
    destruct (float_rank a) as [[a1 a2] a3], (float_rank b) as [[b1 b2] b3]; unfold rank_lt in *; simplify_eq; lia || done.
Qed.
Lemma feq_rank a b : is_nan a = false -> is_nan b = false -> feq a b = true <-> float_rank a = float_rank b.
Proof.
  intros Ha Hb. pose proof (compare_rank a b Ha Hb) as Hc. unfold feq, SFeqb.
  destruct (SFcompare a b) as [[]|]; (split; [try done|try done]);
    destruct (float_rank a) as [[a1 a2] a3], (float_rank b) as [[b1 b2] b3]; unfold rank_lt in *; intros E; simplify_eq; lia || done.
Qed.

(** [h] goes before [h']: a higher score, or an earlier capture, or a smaller
    record. *)
Definition hit_before (a b : SemanticHit) : Prop :=
  rank_lt (float_rank (fopp (sh_score a))) (float_rank (fopp (sh_score b))) \/
  float_rank (fopp (sh_score a)) = float_rank (fopp (sh_score b)) /\
  (dt_utc (sh_captured_at a) < dt_utc (sh_captured_at b) \/
   dt_utc (sh_captured_at a) = dt_utc (sh_captured_at b) /\ sh_record_id a < sh_record_id b).
Definition scored (h : SemanticHit) : Prop := in_range 0 1 (sh_score h) = true.

Lemma scored_number h : scored h -> is_nan (fopp (sh_score h)) = false.
Proof. unfold scored. by destruct (sh_score h). Qed.

Lemma hit_lt_before a b : scored a -> scored b -> hit_lt a b = true <-> hit_before a b.
Proof.
  intros Ha%scored_number Hb%scored_number. unfold hit_lt, hit_before.
  pose proof (flt_rank _ _ Ha Hb) as Hlt. pose proof (feq_rank _ _ Ha Hb) as Heq.
  assert (Hirr : float_rank (fopp (sh_score a)) = float_rank (fopp (sh_score b)) ->
    ~ rank_lt (float_rank (fopp (sh_score a))) (float_rank (fopp (sh_score b)))).
  { intros ->. apply rank_irrefl. }
  destruct (feq _ _); cbn [negb].
  - pose proof (proj1 Heq eq_refl) as E. specialize (Hirr E).
    destruct (Z.eqb_spec (dt_utc (sh_captured_at a)) (dt_utc (sh_captured_at b))) as [Et|Et]; cbn [negb]; rewrite Z.ltb_lt; (split; [auto|]);
      intros [|[_ [|[]]]]; done || lia.
  - rewrite Hlt. split; [by left|]. intros [|[E _]]; [done|]. apply Heq in E. done.
Qed.

#[export] Instance hit_le_total : Total hit_le.
Proof.
  intros a b. unfold hit_le, hit_lt. rewrite (feq_sym (fopp (sh_score b))).
  destruct (feq _ _); cbn [negb]; [|destruct (flt (fopp (sh_score b)) _) eqn:E; [right; by apply flt_asym|by left]].
  rewrite (Z.eqb_sym (dt_utc (sh_captured_at b))).
  destruct (Z.eqb_spec (dt_utc (sh_captured_at a)) (dt_utc (sh_captured_at b))); cbn [negb]; rewrite !Z.ltb_ge; lia.
Qed.

Lemma hit_before_trans a b c : hit_before a b -> hit_before b c -> hit_before a c.
Proof.
  unfold hit_before. intros [H1|[E1 H1]] [H2|[E2 H2]].
  - left. by eapply rank_trans.
  - left. by rewrite <- E2.
  - left. by rewrite E1.
  - right. split; [congruence|lia].
Qed.
Lemma hit_before_total a b : hit_before a b \/ hit_before b a \/
  float_rank (fopp (sh_score a)) = float_rank (fopp (sh_score b)) /\
  dt_utc (sh_captured_at a) = dt_utc (sh_captured_at b) /\ sh_record_id a = sh_record_id b.
Proof.
  unfold hit_before. destruct (rank_total (float_rank (fopp (sh_score a))) (float_rank (fopp (sh_score b)))) as [|[E|]]; [auto| |auto].
  rewrite E. destruct (Z.lt_trichotomy (dt_utc (sh_captured_at a)) (dt_utc (sh_captured_at b))) as [|[->|]]; [by left; right; auto| |by right; left; right; auto].
  destruct (Z.lt_trichotomy (sh_record_id a) (sh_record_id b)) as [|[->|]]; [by left; right; auto|auto|by right; left; right; auto].
Qed.

(** No hit of the list goes before an earlier one. *)
Definition ranked : list SemanticHit -> Prop := StronglySorted (fun a b => ~ hit_before b a).

Lemma ranked_sorted l : Forall scored l -> Sorted hit_le l -> ranked l.
Proof.
  intros Hs Hl. apply Sorted_StronglySorted.
  - intros a b c Hab Hbc Hca. destruct (hit_before_total a b) as [H|[H|H]]; [|done|].
    + apply Hbc. by eapply hit_before_trans.
    + apply Hbc. unfold hit_before in *. destruct H as (Hr&Ht&Hi). by rewrite <- Hr, <- Ht, <- Hi.
  - induction Hl as [|a l Hl IH Hhd]; [constructor|]. apply Forall_cons in Hs as [Ha Hs]. constructor; [by apply IH|].
    destruct Hhd as [|b l Hab]; constructor. apply Forall_cons in Hs as [Hb _].
    rewrite <- hit_lt_before by done. unfold hit_le in Hab. by rewrite Hab.
Qed.

Lemma clamp_range x : in_range 0 1 (fmax (float_of 0) (fmin (float_of 1) x)) = true.
Proof.
  unfold fmax, fmin. destruct (flt x (float_of 1)) eqn:H1; [|reflexivity].
  destruct (flt (float_of 0) x) eqn:H0; [|reflexivity]. unfold in_range. by rewrite !fle_flt, H0, H1.
Qed.

Lemma cosine_range left right x : cosine left right = Ok x -> in_range 0 1 x = true.
Proof.
  unfold cosine. intros Hx. apply result_bind_ok in Hx as (pairs&_&Hx). cbn zeta in Hx.
  assert (Hret : forall y z : pyfloat, mret y = Ok z -> z = y) by (intros y z E; by injection E).
  destruct (_ || _); [by apply Hret in Hx as ->|]. apply result_bind_ok in Hx as (?&_&Hx).
  apply Hret in Hx as ->. apply clamp_range.
Qed.

Section Search.
Context {L : PyLibrary} {W : Type} `{SL : SealLaws W} `{EP : !EmbeddingPorts W}.
Implicit Types (i : index W).

(** The best of the entries in the window. *)
Record best_hits (q : SemanticQuery) (s : Snapshot) (hits : list SemanticHit) : Prop := {
  bh_limit : zlen hits <= Z.max 0 (sq_limit q);
  bh_ranked : ranked hits;
  bh_range : Forall scored hits;
  (** the scores against one vector of the query, those left out being no
      better *)
  bh_best : exists v all rest, vector_ok (sn_dimensions s) v /\
    map_ok (hit_of v) (filter (fun e => within q (en_captured_at e)) (sn_entries s)) = Ok all /\
    all ≡ₚ hits ++ rest /\ (rest <> [] -> zlen hits = sq_limit q) /\
    forall h h', h ∈ hits -> h' ∈ rest -> ~ hit_before h' h }.

Lemma best_of_scored q s v all :
  1 <= sq_limit q -> vector_ok (sn_dimensions s) v ->
  map_ok (hit_of v) (filter (fun e => within q (en_captured_at e)) (sn_entries s)) = Ok all ->
  best_hits q s (take (Z.to_nat (sq_limit q)) (merge_sort hit_le all)).
Proof.
  intros Hl Hv Hall. set (k := Z.to_nat (sq_limit q)). set (sorted := merge_sort hit_le all).
  assert (Hp : sorted ≡ₚ all) by apply merge_sort_Permutation.
  assert (Hs : Forall scored sorted).
  { rewrite Hp. apply map_ok_Forall2 in Hall. clear -Hall. induction Hall as [|e h es hs He _ IH]; constructor; [|done].
    unfold hit_of in He. ok_steps. unfold scored. cbn. by eapply cosine_range. }
  assert (Hr : ranked sorted) by (apply ranked_sorted; [done|apply (Sorted_merge_sort hit_le)]).
  pose proof Hr as Hr'. unfold ranked in Hr'. rewrite <- (take_drop k sorted) in Hr'. split.
  - unfold zlen. rewrite length_take. lia.
  - by apply StronglySorted_app_1_l in Hr'.
  - by apply Forall_take.
  - exists v, all, (drop k sorted). split; [done|]. split; [done|]. split; [by rewrite take_drop|]. split.
    + intros Hne. unfold zlen. rewrite length_take. assert (k < length sorted)%nat; [|lia].
      destruct (decide (k < length sorted)%nat); [done|]. by rewrite drop_ge in Hne by lia.
    + intros h h' Hh Hh'. exact (StronglySorted_app_1_elem_of _ _ _ _ _ Hr' Hh Hh').
Qed.

(** C30 (search_ranks): a search answers with the best entries of its time
    window: at most [limit] of them, every score between 0 and 1 (whatever the
    vectors), ordered by score, date and record, and no entry of the window
    left out would go before one returned. *)
Theorem search_ranks q i i' hits o :
  make_semantic_query q = Ok q -> active_holds o i -> search q i = (i', Ok hits) ->
  match o with None => hits = [] | Some s => best_hits q s hits end.
Proof.
  intros Hq Ho Hrun. assert (Hl : 1 <= sq_limit q).
  { unfold make_semantic_query in Hq. ok_steps. by btauto_hyps. }
  refine (wp_run _ (fun x _ => forall hits, x = Ok hits -> match o with None => hits = [] | Some s => best_hits q s hits end)
    _ _ _ Hrun _ hits eq_refl). clear Hrun hits i'.
  unfold search. eapply after_load; [exact Ho|..]; [|done]. intros i1 Hs _. destruct o as [s|]; [|by apply wp_ret; intros ? [= <-]].
  apply wp_bind, wp_lift. destruct (make_embedding_request _) as [request|]; [|done].
  apply wp_bind. eapply wp_mono; [apply embed_keeps|]. intros [resp|e] i2 _; [|done].
  apply wp_bind, wp_lift. destruct (validate_response resp 1) as [[]|] eqn:Hv; [|done].
  apply validate_response_ok in Hv as (_&d&Hd&_&Hvs).
  apply wp_bind, wp_lift. destruct (require_compatible s resp) as [[]|] eqn:Hc; [|done].
  destruct (require_compatible_ok _ _ _ Hd Hc) as [_ ->].
  apply wp_bind, wp_lift. destruct (es_vectors resp) as [|v vs]; [done|]. apply Forall_cons in Hvs as [Hv _].
  apply wp_bind, wp_lift. destruct (map_ok _ _) as [all|] eqn:Hall; [|done].
  apply wp_ret. intros hits [= <-]. by eapply best_of_scored.
Qed.
End Search.

(** ** A small index *)

(** The first letter of the text decides. *)
Definition toy_vector (text : pystr) : list pyfloat :=
  match text with
  | 97 :: _ => [float_of 1; float_of 0]
  | 98 :: _ => [float_of 0; float_of 1]
  | _ => [float_of 1; float_of 1]
  end.
#[export] Instance toy_embedding : EmbeddingPorts unit := {
  embed r := if bool_decide (er_inputs r = []) then raise ValueError
             else mret {| es_provider_id := u "ollama"; es_model_id := u "nomic"; es_vectors := toy_vector <$> er_inputs r |} }.

Lemma toy_vector_ok t : vector_ok 2 (toy_vector t) /\ zlen (toy_vector t) < 2 ^ 64 /\ toy_vector t <> [].
Proof.
  unfold toy_vector, vector_ok. repeat case_match; vm_compute; split_and!; done.
Qed.

Lemma toy_response inputs : inputs <> [] ->
  let r := {| es_provider_id := u "ollama"; es_model_id := u "nomic"; es_vectors := toy_vector <$> inputs |} in
  make_embedding_response r = Ok r.
Proof.
  intros Hne r. unfold make_embedding_response.
  assert (existsb (fun v => bool_decide (v = [])) (es_vectors r) = false) as Hv.
  { apply (existsb_Forall _ (fun v => v <> [])); [intros v; apply bool_decide_eq_false|].
    apply Forall_fmap, Forall_true. intros t. apply toy_vector_ok. }
  assert (Hl : forall ts, forallb (fun v' => zlen v' =? 2) (toy_vector <$> ts) = true).
  { intros ts. apply forallb_Forall, Forall_fmap, Forall_true. intros t. apply Z.eqb_eq, toy_vector_ok. }
  rewrite Hv. destruct inputs as [|t ts]; [done|]. subst r. cbn [es_vectors fmap list_fmap es_provider_id es_model_id].
  destruct (toy_vector_ok t) as [[-> _] _]. change (list_fmap _ _ toy_vector ts) with (toy_vector <$> ts). rewrite Hl. done.
Qed.

#[export, refine] Instance toy_embedding_laws : EmbeddingLaws unit := {
  embeds m t v := m = u "nomic" /\ v = toy_vector t;
  embed_model := u "nomic";
  embed_dimensions := 2 }.
Proof.
  intros r w. split. cbn. case_bool_decide as Hne; [split; [done|]; by intros _|]. split.
  - intros resp [= <-]. cbn [es_vectors es_model_id]. split; [|split; [done|split]].
    + by apply toy_response.
    + apply Forall_fmap, Forall_true. intros t. apply toy_vector_ok.
    + clear. induction (er_inputs r) as [|t ts IH]; [constructor|]. by constructor.
  - intros _ _. split; [done|]. eexists. split; [done|]. cbn [es_vectors es_model_id]. split; [done|]. split; [apply length_fmap|].
    apply Forall_fmap, Forall_true. intros t. apply toy_vector_ok.
Defined.


Definition toy_document (n : Z) (text : string) : IndexDocument :=
  {| id_record_id := 2 ^ 100 + n; id_captured_at := {| dt_wall := 1709208000000000 + n; dt_offset := 0 |};
     id_text := u text; id_approved_metadata := [u "term"]; id_privacy_class := REDACTED_CONTENT |}.
Definition toy_documents : list IndexDocument := [toy_document 1 "alpha"; toy_document 2 "beta"; toy_document 3 "gamma"].
Definition toy_active : slot := empty_slot (index_temporary (u "semantic-index.lri")).
Definition toy_checkpoint : slot := empty_slot (index_temporary (u "semantic-index.rebuild.lri")).
Definition toy_index0 : index unit := {| ix_active := toy_active; ix_checkpoint := toy_checkpoint; ix_world := tt |}.

Local Abbreviation toy_rebuild := (rebuild (W := unit)).
Definition toy_index1 : index unit := (toy_rebuild toy_documents 2 toy_index0).1.
Definition toy_answer1 := (toy_rebuild toy_documents 2 toy_index0).2.

Example toy_rebuilds : toy_answer1 = Ok {| im_model_id := u "nomic"; im_dimensions := 2; im_record_count := 3 |} /\
  (record_ids (W := unit) toy_index1).2 = Ok [2 ^ 100 + 1; 2 ^ 100 + 2; 2 ^ 100 + 3] /\ sl_file (ix_checkpoint toy_index1) = None.
Proof. vm_compute. repeat split. Qed.

Definition toy_query : SemanticQuery :=
  {| sq_text := u "best"; sq_start_at := Some {| dt_wall := 1709208000000002; dt_offset := 0 |}; sq_end_at := None; sq_limit := 1 |}.
Definition toy_hits : list SemanticHit :=
  match (search (W := unit) toy_query toy_index1).2 with Ok hits => hits | Raise _ => [] end.
Example toy_searches : sh_record_id <$> toy_hits = [2 ^ 100 + 2] /\ Forall (fun h => feq (sh_score h) (float_of 1) = true) toy_hits.
Proof. split; [vm_compute; reflexivity|]. decide_true. Qed.

Lemma toy_inv0 : index_inv toy_index0.
Proof. intros [|]; by exists None. Qed.
Lemma toy_constructed : Forall constructed toy_documents.
Proof. repeat constructor; vm_compute; reflexivity. Qed.

Lemma toy_run1 : toy_rebuild toy_documents 2 toy_index0 = (toy_index1, toy_answer1).
Proof. apply surjective_pairing. Qed.

Lemma toy_holds : exists s, index_inv toy_index1 /\ active_holds (Some s) toy_index1.
Proof.
  assert (Hty : Forall document_typed toy_documents) by (eapply Forall_impl; [exact toy_constructed|]; by intros d [_ ?]).
  destruct (wp_run _ _ _ _ _ toy_run1 (rebuild_ok toy_documents 2 toy_index0 None None Hty toy_inv0 eq_refl eq_refl))
    as [[(_&_&Hr)|(s&_&_&_&Hi&[[_ Hr]|Hs])] _].
  - rewrite (proj1 toy_rebuilds) in Hr. done.
  - rewrite (proj1 toy_rebuilds) in Hr. done.
  - exists s. by split.
Qed.

Lemma index_refines_witness :
  exists o', active_holds o' toy_index1 /\ index_step None (CRebuild toy_documents 2) None (view_of o').
Proof.
  destruct (index_refines (CRebuild toy_documents 2) toy_index0 toy_index1 (Ok tt) None None) as (_&o'&Ho'&[[_ ?]|Hs]).
  - eapply Forall_impl; [exact toy_constructed|]. by intros d [_ ?].
  - exact toy_inv0.
  - reflexivity.
  - reflexivity.
  - vm_compute. reflexivity.
  - done.
  - exists o'. split; [exact Ho'|exact Hs].
Defined.


Lemma search_ranks_witness : exists s, active_holds (Some s) toy_index1 /\ best_hits toy_query s toy_hits.
Proof.
  destruct toy_holds as (s&_&Hs). exists s. split; [exact Hs|].
  refine (search_ranks toy_query toy_index1 (search (W := unit) toy_query toy_index1).1 toy_hits (Some s) _ Hs _); vm_compute; reflexivity.
Defined.

Lemma index_round_trip_witness :
  let s := make_snapshot (u "nomic", 2) (added toy_documents (toy_vector <$> (embedding_text <$> toy_documents))) in
  snapshot_ok s /\ exists b, encode_snapshot s = Ok b /\ decode_snapshot b = Ok s.
Proof.
  intros s. assert (Hs : snapshot_ok s).
  { split; [reflexivity|vm_compute; reflexivity|vm_compute; split; reflexivity| |decide_true].
    repeat constructor; vm_compute; reflexivity. }
  split; [exact Hs|]. exact (index_round_trip s Hs).
Defined.

(** *** What goes wrong *)

(** The index with a temporary file left by a crash, where the process died
    between creating it and renaming it. *)
Definition toy_crashed : index unit := set_slot Active (put_temporary true (ix_active toy_index1)) toy_index1.
Definition toy_removed := remove (W := unit) [2 ^ 100 + 1] toy_crashed.

Lemma stale_temporary_blocks_witness :
  is_ok toy_removed.2 = false /\ exists s, active_holds (Some s) toy_removed.1.
Proof.
  destruct toy_holds as (s&Hi&Hs).
  assert (Hi' : index_inv toy_crashed) by (intros p; destruct p; [exact (Hi Active)|exact (Hi Checkpoint)]).
  destruct (stale_temporary_blocks [2 ^ 100 + 1] toy_crashed toy_removed.1 toy_removed.2 s Hi' Hs eq_refl) as (H1&_&H2&_);
    [apply surjective_pairing|]. split; [exact H1|]. exists s. exact H2.
Defined.

(** A rebuild that stopped before replacing the active file. *)
Definition toy_interrupted : index unit :=
  (toy_rebuild toy_documents 2 {| ix_active := {| sl_file := None; sl_temporary_name := sl_temporary_name toy_active;
                                                  sl_temporaries := ∅; sl_io := [false] |};
                                  ix_checkpoint := toy_checkpoint; ix_world := tt |}).1.

(** A record removed from the index stays in the checkpoint file. *)
Example checkpoint_keeps_removed :
  let i := (remove (W := unit) [2 ^ 100 + 1] toy_interrupted).1 in
  is_ok (remove (W := unit) [2 ^ 100 + 1] toy_interrupted).2 = true /\
  match (load (W := unit) Checkpoint i).2 with Ok (Some s) => en_record_id <$> sn_entries s | _ => [] end
  = [2 ^ 100 + 1; 2 ^ 100 + 2; 2 ^ 100 + 3].
Proof. vm_compute. split; reflexivity. Qed.

(** The text of a record has changed since the checkpoint: the resumed rebuild
    keeps the vector of the old text. *)
Example checkpoint_keeps_old_text :
  let changed := toy_document 1 "beta" :: drop 1 toy_documents in
  match (load (W := unit) Active (toy_rebuild changed 2 toy_interrupted).1).2 with
  | Ok (Some s) => match sn_entries s with e :: _ => bool_decide (en_vector e = toy_vector (u "alpha")) | [] => false end
  | _ => false
  end = true /\ bool_decide (toy_vector (u "beta") = toy_vector (u "alpha")) = false.
Proof. vm_compute. split; reflexivity. Qed.

(** Another model has been configured since the checkpoint: every rebuild of
    more documents fails. *)
Definition other_model : EmbeddingPorts unit := {|
  embed r := mret {| es_provider_id := u "ollama"; es_model_id := u "other"; es_vectors := toy_vector <$> er_inputs r |} |}.
Example checkpoint_of_another_model :
  let more := toy_documents ++ [toy_document 4 "delta"] in
  let run := @rebuild _ unit _ other_model more 2 in
  (run toy_interrupted).2 = Raise IndexModelMismatch /\ (run (run toy_interrupted).1).2 = Raise IndexModelMismatch.
Proof. vm_compute. split; reflexivity. Qed.
