(* ===== verification/Activity.v ===== *)
(** * Activity: records clustered into activities, and their encrypted store.

    Models [activity/clustering.py] (the features of a record, the segmenter)
    and [activity/store.py] (entries, snapshots, their JSON and their file);
    [ActivitySummary] is the class of [activity/summaries.py]. *)

From stdpp Require Import sorting.
From S2P Require Import Prelude PyStr Utf8 PyFloat Json PyLib Storage PyData Codec Adaptive Sealed SemanticIndex.

(** ** Features *)

Definition MAX_CONTEXT_LENGTH : Z := 4096.
Definition MAX_POLICY_REVISION_LENGTH : Z := 256.
Definition MAX_VECTOR_DIMENSIONS : Z := 16384.

Record ActivityRecordFeatures := {
  af_record_id : uuid;
  af_captured_at : datetime;
  af_policy_revision : pystr;
  af_application : option pystr;
  af_workspace : option pystr;
  af_perceptual_hash : option Z;
  af_semantic_vector : option (list pyfloat) }.

Definition check_context (value : option pystr) : result unit :=
  match value with
  | None => mret tt
  | Some v => _ ← require_nonempty v; throw_if (MAX_CONTEXT_LENGTH <? zlen v) ValueError
  end.
Definition make_features (f : ActivityRecordFeatures) : result ActivityRecordFeatures :=
  _ ← require_nonempty (af_policy_revision f);
  _ ← throw_if (MAX_POLICY_REVISION_LENGTH <? zlen (af_policy_revision f)) ValueError;
  _ ← check_context (af_application f);
  _ ← check_context (af_workspace f);
  _ ← throw_if (match af_perceptual_hash f with Some h => negb ((0 <=? h) && (h <? 2 ^ HASH_BITS)) | None => false end) ValueError;
  _ ← match af_semantic_vector f with
      | None => mret tt
      | Some v =>
          _ ← throw_if (bool_decide (v = [])) ValueError;
          _ ← throw_if (MAX_VECTOR_DIMENSIONS <? zlen v) ValueError;
          throw_if (existsb (fun x => negb (is_finite x)) v) ValueError
      end;
  mret f.

Record ActivityClusteringPolicy := {
  cp_max_gap_seconds : pyfloat;
  cp_strong_gap_seconds : pyfloat;
  cp_minimum_continuity_score : pyfloat;
  cp_minimum_semantic_similarity : pyfloat }.

(** [low <= x <= high] *)
Definition between (low x high : pyfloat) : bool := fle low x && fle x high.
Definition make_clustering_policy (p : ActivityClusteringPolicy) : result ActivityClusteringPolicy :=
  _ ← throw_if (negb (is_finite (cp_max_gap_seconds p) && is_finite (cp_strong_gap_seconds p) &&
                      is_finite (cp_minimum_continuity_score p) && is_finite (cp_minimum_semantic_similarity p))) ValueError;
  _ ← throw_if (negb (flt (float_of 0) (cp_max_gap_seconds p) && fle (cp_max_gap_seconds p) (float_of 86400))) ValueError;
  _ ← throw_if (negb (between (float_of 0) (cp_strong_gap_seconds p) (cp_max_gap_seconds p))) ValueError;
  _ ← throw_if (negb (between (float_of 0) (cp_minimum_continuity_score p) (float_of 1))) ValueError;
  _ ← throw_if (negb (between (float_of 0) (cp_minimum_semantic_similarity p) (float_of 1))) ValueError;
  mret p.

(** ** Clusters *)

Record ActivityCluster := {
  cl_source_record_ids : list uuid;
  cl_started_at : datetime;
  cl_ended_at : datetime }.
Definition make_cluster (c : ActivityCluster) : result ActivityCluster :=
  _ ← throw_if (bool_decide (cl_source_record_ids c = [])) ValueError;
  _ ← throw_if (has_duplicates (cl_source_record_ids c)) ValueError;
  _ ← throw_if (dt_utc (cl_ended_at c) <? dt_utc (cl_started_at c)) ValueError;
  mret c.

Definition perceptual_similarity (left right : option Z) : option pyfloat :=
  match left, right with
  | Some l, Some r => Some (fsub (float_of 1) (int_div (bit_count (Z.lxor l r)) HASH_BITS))
  | _, _ => None
  end.

(** The same computation as the index's score. *)
Definition semantic_similarity (left right : option (list pyfloat)) : result (option pyfloat) :=
  match left, right with
  | Some l, Some r => x ← cosine l r; mret (Some x)
  | _, _ => mret None
  end.

Definition differ (a b : option pystr) : bool :=
  match a, b with Some a, Some b => negb (bool_decide (a = b)) | _, _ => false end.
Definition agree (a b : option pystr) : bool :=
  match a, b with Some a, Some b => bool_decide (a = b) | _, _ => false end.

Section Segmenter.
Variable policy : ActivityClusteringPolicy.

(** The score's part for the closeness in time. *)
Definition gap_score (gap : pyfloat) : pyfloat :=
  if fle gap (cp_strong_gap_seconds policy) then dec 2 1
  else if flt (cp_strong_gap_seconds policy) (cp_max_gap_seconds policy) then
    fmul (dec 2 1) (fmax (float_of 0) (fdiv (fsub (cp_max_gap_seconds policy) gap)
                                            (fsub (cp_max_gap_seconds policy) (cp_strong_gap_seconds policy))))
  else float_of 0.

(** [score += x] where the code skips the addition of nothing *)
Definition continuity_score (semantic perceptual gap : pyfloat) (same_application : bool) : pyfloat :=
  let score := fadd (fmul (dec 4 1) semantic) (fmul (dec 2 1) perceptual) in
  let score := if fle gap (cp_strong_gap_seconds policy) || flt (cp_strong_gap_seconds policy) (cp_max_gap_seconds policy)
               then fadd score (gap_score gap) else score in
  if same_application then fadd score (dec 2 1) else score.

Definition continues (previous current : ActivityRecordFeatures) : result bool :=
  if negb (bool_decide (af_policy_revision previous = af_policy_revision current)) then mret false
  else
    let gap := int_div (dt_utc (af_captured_at current) - dt_utc (af_captured_at previous)) 1000000 in
    _ ← throw_if (flt gap (float_of 0)) ValueError;
    if flt (cp_max_gap_seconds policy) gap then mret false
    else if differ (af_workspace previous) (af_workspace current) then mret false
    else
      semantic ← semantic_similarity (af_semantic_vector previous) (af_semantic_vector current);
      match semantic with
      | None => mret false
      | Some semantic =>
          if flt semantic (cp_minimum_semantic_similarity policy) then mret false
          else
            match perceptual_similarity (af_perceptual_hash previous) (af_perceptual_hash current) with
            | None => mret false
            | Some perceptual =>
                mret (fle (cp_minimum_continuity_score policy)
                        (continuity_score semantic perceptual gap (agree (af_application previous) (af_application current))))
            end
      end.

Definition features_le (a b : ActivityRecordFeatures) : Prop :=
  dt_utc (af_captured_at a) < dt_utc (af_captured_at b) \/
  dt_utc (af_captured_at a) = dt_utc (af_captured_at b) /\ af_record_id a <= af_record_id b.
#[export] Instance features_le_dec : RelDecision features_le.
Proof. intros a b. unfold features_le. apply _. Defined.

(** The loop over the ordered records; [done] holds the closed groups and
    [group] the open one, whose last record is [previous]. *)
Fixpoint segment_loop (done : list (list ActivityRecordFeatures)) (group : list ActivityRecordFeatures)
    (previous : ActivityRecordFeatures) (rest : list ActivityRecordFeatures) : result (list (list ActivityRecordFeatures)) :=
  match rest with
  | [] => mret (done ++ [group])
  | current :: rest =>
      c ← continues previous current;
      if (c : bool) then segment_loop done (group ++ [current]) current rest
      else segment_loop (done ++ [group]) [current] current rest
  end.

Definition cluster_of (records : list ActivityRecordFeatures) : result ActivityCluster :=
  match head records, last records with
  | Some first, Some last =>
      make_cluster {| cl_source_record_ids := af_record_id <$> records;
                      cl_started_at := af_captured_at first; cl_ended_at := af_captured_at last |}
  | _, _ => Raise IndexError
  end.

Definition groups_of (records : list ActivityRecordFeatures) : result (list (list ActivityRecordFeatures)) :=
  match merge_sort features_le records with
  | [] => mret []
  | first :: rest => segment_loop [] [first] first rest
  end.
Definition segment (records : list ActivityRecordFeatures) : result (list ActivityCluster) :=
  groups ← groups_of records; map_ok cluster_of groups.
End Segmenter.

(** ** Entries *)

Record ActivitySummary := {
  as_text : pystr;
  as_source_record_ids : list uuid;
  as_provider_id : pystr;
  as_model_id : pystr }.
Definition make_summary (s : ActivitySummary) : result ActivitySummary :=
  _ ← require_nonempty (as_text s);
  _ ← require_nonempty (as_provider_id s);
  _ ← require_nonempty (as_model_id s);
  _ ← throw_if (bool_decide (as_source_record_ids s = [])) ValueError;
  _ ← throw_if (has_duplicates (as_source_record_ids s)) ValueError;
  mret s.

Record ActivityEntry := {
  ae_cluster : ActivityCluster;
  ae_summary : option ActivitySummary;
  ae_policy_revisions : list pystr;
  ae_source_fingerprint : pystr }.

Definition MAX_ENTRIES : Z := 100000.
Definition MAX_POLICY_REVISIONS : Z := 64.
Definition MAX_ACTIVITY_BYTES : Z := 256 * 1024 * 1024.

(** [bytes.fromhex(s)] of 64 characters gives 32 bytes when all are
    hexadecimal digits; upper case is refused afterwards. *)
Definition valid_fingerprint (s : pystr) : bool :=
  (zlen s =? 64) && forallb (fun c => match hex_value c with Some _ => negb ((65 <=? c) && (c <=? 70)) | None => false end) s.

(** The checks of [__post_init__]. *)
Definition check_revision (revision : pystr) : result unit :=
  _ ← require_nonempty revision; throw_if (MAX_POLICY_REVISION_LENGTH <? zlen revision) ValueError.
Definition summary_inside (s : option ActivitySummary) (c : ActivityCluster) : bool :=
  match s with
  | Some s => forallb (fun id => bool_decide (id ∈ cl_source_record_ids c)) (as_source_record_ids s)
  | None => true
  end.
Definition make_entry (e : ActivityEntry) : result ActivityEntry :=
  _ ← throw_if (bool_decide (ae_policy_revisions e = [])) ValueError;
  _ ← throw_if (MAX_POLICY_REVISIONS <? zlen (ae_policy_revisions e)) ValueError;
  _ ← throw_if (negb (bool_decide (NoDup (ae_policy_revisions e)))) ValueError;
  _ ← map_ok check_revision (ae_policy_revisions e);
  _ ← throw_if (negb (valid_fingerprint (ae_source_fingerprint e))) ValueError;
  _ ← throw_if (negb (summary_inside (ae_summary e) (ae_cluster e))) ValueError;
  mret e.

Definition source_ids (entries : list ActivityEntry) : list uuid := mjoin ((fun e => cl_source_record_ids (ae_cluster e)) <$> entries).

(** [ActivitySnapshot] is its tuple of entries. *)
Definition make_activity (entries : list ActivityEntry) : result (list ActivityEntry) :=
  _ ← throw_if (MAX_ENTRIES <? zlen entries) ValueError;
  _ ← throw_if (has_duplicates (source_ids entries)) ValueError;
  mret entries.

(** ** The store *)

Section Encoding.
Context {L : PyLibrary}.

Definition ids_json (ids : list uuid) : json := JList ((fun id => JStr (uuid_text id)) <$> ids).
Definition cluster_json (c : ActivityCluster) : json :=
  JDict [(u "ended_at", JStr (isoformat (cl_ended_at c)));
         (u "source_record_ids", ids_json (cl_source_record_ids c));
         (u "started_at", JStr (isoformat (cl_started_at c)))].
Definition summary_json (s : option ActivitySummary) : json :=
  match s with
  | None => JNull
  | Some s => JDict [(u "model_id", JStr (as_model_id s)); (u "provider_id", JStr (as_provider_id s));
                     (u "source_record_ids", ids_json (as_source_record_ids s)); (u "text", JStr (as_text s))]
  end.
Definition activity_entry_json (e : ActivityEntry) : json :=
  JDict [(u "cluster", cluster_json (ae_cluster e));
         (u "policy_revisions", JList (JStr <$> ae_policy_revisions e));
         (u "source_fingerprint", JStr (ae_source_fingerprint e));
         (u "summary", summary_json (ae_summary e))].
Definition activity_json (entries : list ActivityEntry) : list (pystr * json) :=
  [(u "entries", JList (activity_entry_json <$> entries))].
Definition encode_activity (entries : list ActivityEntry) : result pybytes :=
  text ← dumps (JDict (activity_json entries)); utf8_encode text.

(** [set(j) == names], for what is then subscripted by the names: what is no
    dictionary is refused by the one or the other. *)
Definition require_keys (j : json) (names : list pystr) : result unit :=
  match j with JDict d => throw_if (negb (has_keys d names)) ValueError | _ => Raise TypeError end.

Definition parse_ids (j : json) : result (list uuid) := values ← iterate j; map_ok parse_uuid values.
Definition require_datetime (t : option datetime) : result datetime :=
  match t with Some t => Ok t | None => Raise ValueError end.

Definition decode_cluster (raw : json) : result ActivityCluster :=
  _ ← require_keys raw [u "ended_at"; u "source_record_ids"; u "started_at"];
  ids ← (j ← subscript raw (u "source_record_ids"); parse_ids j);
  started_at ← (j ← subscript raw (u "started_at"); parse_datetime j);
  ended_at ← (j ← subscript raw (u "ended_at"); parse_datetime j);
  started_at ← require_datetime started_at;
  ended_at ← require_datetime ended_at;
  make_cluster {| cl_source_record_ids := ids; cl_started_at := started_at; cl_ended_at := ended_at |}.

Definition decode_summary (raw : json) : result (option ActivitySummary) :=
  match raw with
  | JNull => mret None
  | raw =>
      _ ← require_keys raw [u "model_id"; u "provider_id"; u "source_record_ids"; u "text"];
      text ← subscript raw (u "text");
      ids ← (j ← subscript raw (u "source_record_ids"); parse_ids j);
      provider_id ← subscript raw (u "provider_id");
      model_id ← subscript raw (u "model_id");
      text ← required_string text;
      provider_id ← required_string provider_id;
      model_id ← required_string model_id;
      s ← make_summary {| as_text := text; as_source_record_ids := ids; as_provider_id := provider_id; as_model_id := model_id |};
      mret (Some s)
  end.

(** Equality of hashable values: numbers by value. *)
Definition json_number (j : json) : option pyfloat :=
  match j with
  | JInt n => Some (float_of n)
  | JBool b => Some (float_of (if b then 1 else 0))
  | JFloat literal => match lib_float literal with Ok x => Some x | Raise _ => None end
  | _ => None
  end.
Definition same_scalar (a b : json) : bool :=
  match a, b with
  | JNull, JNull => true
  | JStr s, JStr t => bool_decide (s = t)
  | JInt n, JInt m => n =? m
  | a, b => match json_number a, json_number b with Some x, Some y => feq x y | _, _ => false end
  end.
Fixpoint repeats (l : list json) : bool :=
  match l with [] => false | j :: l => existsb (same_scalar j) l || repeats l end.
Definition unhashable (j : json) : bool := match j with JList _ | JDict _ => true | _ => false end.

(** The checks of an entry's revisions, made on the decoded values. *)
Definition decode_revisions (j : json) : result (list pystr) :=
  values ← iterate j;
  _ ← throw_if (bool_decide (length values = 0%nat)) ValueError;
  _ ← throw_if (MAX_POLICY_REVISIONS <? zlen values) ValueError;
  _ ← throw_if (existsb unhashable values) TypeError;
  _ ← throw_if (repeats values) ValueError;
  map_ok (fun v => revision ← required_string v; _ ← check_revision revision; mret revision) values.

Definition decode_entry (raw : json) : result ActivityEntry :=
  _ ← require_keys raw [u "cluster"; u "policy_revisions"; u "source_fingerprint"; u "summary"];
  cluster ← (j ← subscript raw (u "cluster"); decode_cluster j);
  summary ← (j ← subscript raw (u "summary"); decode_summary j);
  revisions ← (j ← subscript raw (u "policy_revisions"); decode_revisions j);
  fingerprint ← subscript raw (u "source_fingerprint");
  fingerprint ← match fingerprint with JStr s => Ok s | _ => Raise TypeError end;
  make_entry {| ae_cluster := cluster; ae_summary := summary; ae_policy_revisions := revisions;
                ae_source_fingerprint := fingerprint |}.

Definition activity_of_json (raw : json) : result (list ActivityEntry) :=
  _ ← require_keys raw [u "entries"];
  items ← (j ← subscript raw (u "entries"); iterate j);
  entries ← map_ok decode_entry items;
  make_activity entries.

(** [ActivityStoreFailure] is a [RuntimeError]. *)
Definition decode_activity (payload : pybytes) : result (list ActivityEntry) :=
  match raw ← loads_bytes lib_loads payload; activity_of_json raw with
  | Ok entries => Ok entries
  | Raise e => Raise (if payload_error e then RuntimeError else e)
  end.
End Encoding.

(** The file, and what the keys keep. *)
Record activity_store (W : Type) := { st_active : slot; st_world : W }.
Arguments st_active {W}. Arguments st_world {W}.

Section Store.
Context {L : PyLibrary} {W : Type} `{SealPorts W}.
Local Abbreviation MS := (M (activity_store W)).

Definition set_active (s : slot) (a : activity_store W) : activity_store W := {| st_active := s; st_world := st_world a |}.
Definition set_store_world (w : W) (a : activity_store W) : activity_store W := {| st_active := st_active a; st_world := w |}.
Definition on_file {A} (m : M slot A) : MS A := zoom st_active set_active m.
Definition on_keys {A} (m : M W A) : MS A := zoom st_world set_store_world m.

Definition replace (entries : list ActivityEntry) : MS unit :=
  plaintext ← lift (encode_activity entries);
  payload ← on_keys (encrypt_snapshot activity_seal plaintext);
  _ ← require (negb (MAX_ACTIVITY_BYTES <? zlen payload)) RuntimeError;
  on_file (atomic_write payload).

Definition load_activity : MS (option (list ActivityEntry)) :=
  payload ← on_file (read_owner_file MAX_ACTIVITY_BYTES false);
  match payload with
  | None => mret None
  | Some payload =>
      plaintext ← on_keys (decrypt_snapshot activity_seal payload);
      entries ← lift (decode_activity plaintext);
      mret (Some entries)
  end.
End Store.
