(* ===== verification/ActivityFacts.v ===== *)
(** * ActivityFacts: clusters partition the records; the store keeps them.

    Segmentation gives the one division of the records, in time order, into
    runs that continue; a snapshot is read back as written; replacing the file
    is all or nothing. *)

From stdpp Require Import sorting.
From S2P Require Import Prelude PyStr Utf8 PyFloat Json JsonFacts PyLib Storage PyData Codec CodecFacts Adaptive DeletionFacts Sealed SealedFacts SemanticIndex SemanticIndexFacts Activity.

(** ** Segmentation *)

#[export] Instance features_le_total : Total features_le.
Proof. intros a b. unfold features_le. lia. Qed.
#[export] Instance features_le_trans : Transitive features_le.
Proof. intros a b c. unfold features_le. lia. Qed.

Section Segmentation.
Variable policy : ActivityClusteringPolicy.
Local Abbreviation continues := (continues policy).
Implicit Types (g l : list ActivityRecordFeatures).

(** Each record of the group continues the one before it. *)
Fixpoint run g : Prop :=
  match g with
  | a :: (b :: _) as g' => continues a b = Ok true /\ run g'
  | _ => True
  end.

(** [groups] divides [l] into the runs that cannot be prolonged. *)
Fixpoint divides (groups : list (list ActivityRecordFeatures)) l : Prop :=
  match groups with
  | [] => l = []
  | g :: groups' =>
      exists l', l = g ++ l' /\ g <> [] /\ run g /\ divides groups' l' /\
        match last g, l' with Some a, b :: _ => continues a b = Ok false | _, _ => True end
  end.

Lemma run_snoc g a b : last g = Some a -> run g -> continues a b = Ok true -> run (g ++ [b]).
Proof.
  induction g as [|x g IH]; [done|]. intros Hl Hr Hc. destruct g as [|y g].
  - injection Hl as ->. by split.
  - destruct Hr as [Hxy Hr]. split; [done|]. by apply IH.
Qed.

Lemma divides_snoc groups l g :
  divides groups l -> g <> [] -> run g ->
  match last groups with Some g0 => match last g0, g with Some a, b :: _ => continues a b = Ok false | _, _ => True end | None => True end ->
  divides (groups ++ [g]) (l ++ g).
Proof.
  revert l. induction groups as [|g0 groups IH]; intros l Hd Hne Hr Hb; cbn in Hd.
  - subst. cbn. exists []. rewrite app_nil_r. split_and!; try done. by destruct (last g).
  - destruct Hd as (l'&->&H1&H2&H3&H4). cbn. exists (l' ++ g). rewrite <- (assoc_L (++)). split_and!; try done.
    + apply IH; try done. destruct groups as [|g1 groups]; [done|]. by rewrite last_cons_cons in Hb.
    + destruct groups as [|g1 groups].
      * cbn in H3. subst. cbn in *. done.
      * cbn in H3. destruct H3 as (l2&->&Hg1&_). destruct g1 as [|x g1]; [done|]. cbn in *. done.
Qed.

Lemma segment_loop_ok done_ g previous rest l groups :
  divides done_ l -> g <> [] -> run g -> last g = Some previous ->
  match last done_ with Some g0 => match last g0, g with Some a, b :: _ => continues a b = Ok false | _, _ => True end | None => True end ->
  segment_loop policy done_ g previous rest = Ok groups -> divides groups (l ++ g ++ rest).
Proof.
  revert done_ g previous l. induction rest as [|current rest IH]; intros done_ g previous l Hd Hne Hr Hl Hb H; cbn [segment_loop] in H.
  - injection H as <-. rewrite app_nil_r. by apply divides_snoc.
  - apply result_bind_ok in H as ([]&Hc&H).
    + replace (l ++ g ++ current :: rest) with (l ++ (g ++ [current]) ++ rest) by (by rewrite <- !(assoc_L (++))).
      eapply (IH done_ (g ++ [current])); [done|by destruct g|by eapply run_snoc|by rewrite last_snoc| |exact H].
      destruct (last done_) as [g0|]; [|done]. destruct (last g0); [|done]. by destruct g.
    + rewrite (assoc_L (++)). apply (IH (done_ ++ [g]) [current] current (l ++ g)); [by apply divides_snoc|done|done|done| |exact H].
      rewrite last_snoc, Hl. exact Hc.
Qed.

Lemma groups_of_ok records groups : groups_of policy records = Ok groups -> divides groups (merge_sort features_le records).
Proof.
  unfold groups_of. destruct (merge_sort features_le records) as [|first rest]; [by intros [= <-]|].
  intros H. by apply (segment_loop_ok [] [first] first rest []) in H.
Qed.

Lemma divides_join groups l : divides groups l -> mjoin groups = l.
Proof.
  revert l. induction groups as [|g groups IH]; intros l; cbn; [done|]. intros (l'&->&_&_&Hd&_).
  f_equal. by apply IH.
Qed.

(** There is one such division. *)
Lemma run_longest g g' l l' : g ++ l = g' ++ l' -> run g' -> g <> [] -> (length g < length g')%nat ->
  match last g, l with Some a, b :: _ => continues a b = Ok false | _, _ => True end -> False.
Proof.
  revert g'. induction g as [|x g IH]; intros g' E Hr Hne Hl Hb; [done|].
  destruct g' as [|y g']; [cbn in Hl; lia|]. injection E as -> E. destruct g as [|z g].
  - cbn in *. destruct g' as [|w g']; [cbn in Hl; lia|]. cbn in E. subst l. destruct Hr as [Hc _]. congruence.
  - destruct g' as [|w g']; [cbn in Hl; lia|]. pose proof E as E'. injection E' as -> _. rewrite last_cons_cons in Hb.
    apply (IH (w :: g')); [done|by destruct Hr|done|cbn in *; lia|done].
Qed.

Lemma divides_unique groups groups' l : divides groups l -> divides groups' l -> groups = groups'.
Proof.
  revert groups' l. induction groups as [|g groups IH]; intros groups' l; cbn.
  - intros -> H. destruct groups' as [|g' groups']; [done|]. cbn in H. destruct H as (l'&E&Hne&_). by destruct g'.
  - intros (l1&->&Hne&Hr&Hd&Hb) H. destruct groups' as [|g' groups']; cbn in H; [by destruct g|].
    destruct H as (l2&E&Hne'&Hr'&Hd'&Hb').
    assert (length g = length g') as Hlen.
    { destruct (Nat.lt_trichotomy (length g) (length g')) as [H|[H|H]]; [|done|].
      - by destruct (run_longest g g' l1 l2 E Hr' Hne H Hb).
      - by destruct (run_longest g' g l2 l1 (eq_sym E) Hr Hne' H Hb'). }
    apply app_inj_1 in E as [-> ->]; [|done]. f_equal. by eapply IH.
Qed.

Lemma cluster_of_ok g c : cluster_of g = Ok c -> cl_source_record_ids c = af_record_id <$> g /\ make_cluster c = Ok c.
Proof.
  unfold cluster_of. destruct (head g); [|done]. destruct (last g); [|done]. intros H.
  pose proof H as H'. unfold make_cluster in H'. ok_steps. cbn. split; [done|]. exact H.
Qed.

(** *** It does not fail *)

Lemma round_aux_nonneg m e loc : flt (binary_round_aux 53 1024 false m e loc) (float_of 0) = false.
Proof.
  unfold binary_round_aux. destruct (shr_fexp _ _ _ _ _) as [mrs' e']. destruct (shr_fexp _ _ _ _ _) as [mrs'' e''].
  destruct (shr_m mrs''); try reflexivity. destruct (e'' <=? 1024 - 53); reflexivity.
Qed.

(** A time span that is not negative. *)
Lemma gap_nonneg n : 0 <= n -> flt (int_div n 1000000) (float_of 0) = false.
Proof.
  intros Hn. unfold int_div. destruct n as [|n|n]; [reflexivity| |lia].
  destruct (SFdiv_core_binary _ _ _ _ _ _) as [[m e] l]. apply round_aux_nonneg.
Qed.

(** The vectors have a score. *)
Definition comparable (a b : ActivityRecordFeatures) : Prop :=
  is_ok (semantic_similarity (af_semantic_vector a) (af_semantic_vector b)) = true.

Lemma continues_total a b : features_le a b -> comparable a b -> exists c, continues a b = Ok c.
Proof.
  intros Hle Hc. unfold Activity.continues. destruct (negb _); [by eexists|].
  rewrite gap_nonneg by (unfold features_le in Hle; lia). cbn [throw_if]. rewrite result_bind_ret.
  destruct (flt _ _); [by eexists|]. destruct (differ _ _); [by eexists|].
  unfold comparable in Hc. destruct (semantic_similarity _ _) as [[x|]|]; [|by eexists|done]. rewrite result_bind_ret.
  destruct (flt x _); [by eexists|]. destruct (perceptual_similarity _ _); by eexists.
Qed.

Lemma segment_loop_total done_ g previous rest :
  Sorted features_le (previous :: rest) -> (forall a b, a ∈ previous :: rest -> b ∈ previous :: rest -> comparable a b) ->
  exists groups, segment_loop policy done_ g previous rest = Ok groups.
Proof.
  revert done_ g previous. induction rest as [|current rest IH]; intros done_ g previous Hs Hc; cbn [segment_loop]; [by eexists|].
  apply Sorted_inv in Hs as [Hs Hhd]. inversion Hhd as [|? ? Hle]; subst.
  destruct (continues_total previous current Hle) as [c ->]; [apply Hc; [constructor|constructor; constructor]|].
  rewrite result_bind_ret. destruct c; apply IH; try done; intros a b Ha Hb; apply Hc; by constructor.
Qed.

Lemma cluster_of_total g : g <> [] -> NoDup (af_record_id <$> g) -> StronglySorted features_le g ->
  exists c a b, cluster_of g = Ok c /\ head g = Some a /\ last g = Some b /\ cl_started_at c = af_captured_at a /\ cl_ended_at c = af_captured_at b.
Proof.
  intros Hne Hnd Hs. unfold cluster_of. destruct g as [|a g]; [done|]. cbn [head].
  destruct (last (a :: g)) as [b|] eqn:Hl; [|by apply last_None in Hl].
  unfold make_cluster, has_duplicates. cbn [cl_source_record_ids cl_ended_at cl_started_at].
  rewrite (bool_decide_false (_ = [])), bool_decide_true by done. cbn [throw_if negb]. rewrite !result_bind_ret.
  assert (dt_utc (af_captured_at a) <= dt_utc (af_captured_at b)).
  { apply last_Some in Hl as [l Hl]. destruct l as [|x l]; [injection Hl as ->; lia|]. injection Hl as -> ->.
    apply StronglySorted_inv in Hs as [_ Hf]. rewrite Forall_app, Forall_singleton in Hf. destruct Hf as [_ Hf].
    unfold features_le in Hf. lia. }
  rewrite (proj2 (Z.ltb_ge _ _)) by done. eexists _, a, b. split_and!; done.
Qed.

Lemma divides_clusters groups l : divides groups l -> NoDup (af_record_id <$> l) -> StronglySorted features_le l ->
  exists clusters, map_ok cluster_of groups = Ok clusters /\ Forall2 (fun g c => cluster_of g = Ok c) groups clusters.
Proof.
  intros Hd Hn Hs. destruct (map_ok_all cluster_of (fun _ => True) groups) as (cs&Hcs&_).
  - revert l Hd Hn Hs. induction groups as [|g groups IH]; intros l Hd Hn Hs x Hx; [by apply not_elem_of_nil in Hx|].
    cbn in Hd. destruct Hd as (l'&->&Hne&_&Hd&_). rewrite fmap_app in Hn. apply NoDup_app in Hn as (Hn1&_&Hn2).
    apply elem_of_cons in Hx as [->|Hx].
    + destruct (cluster_of_total g) as (c&_&_&Hc&_); [done|done|by apply StronglySorted_app_1_l in Hs|]. by exists c.
    + apply (IH l'); [done|done|by apply StronglySorted_app_1_r in Hs|done].
  - exists cs. split; [done|]. by apply map_ok_Forall2.
Qed.

Definition cluster_covers g c : Prop :=
  cl_source_record_ids c = af_record_id <$> g /\ make_cluster c = Ok c /\
  exists a b, head g = Some a /\ last g = Some b /\ cl_started_at c = af_captured_at a /\ cl_ended_at c = af_captured_at b.

Lemma divides_covers groups clusters l : divides groups l -> NoDup (af_record_id <$> l) -> StronglySorted features_le l ->
  Forall2 (fun g c => cluster_of g = Ok c) groups clusters -> Forall2 cluster_covers groups clusters.
Proof.
  intros Hd Hn Hs H2. revert l Hd Hn Hs. induction H2 as [|g c groups clusters Hgc _ IH]; intros l Hd Hn Hs; constructor.
  - destruct Hd as (l'&->&Hne&_). apply StronglySorted_app_1_l in Hs. rewrite fmap_app in Hn. apply NoDup_app in Hn as (Hn&_).
    destruct (cluster_of_ok g c Hgc). destruct (cluster_of_total g Hne Hn Hs) as (c'&a&b&Hc'&Hab). rewrite Hgc in Hc'. injection Hc' as <-.
    split; [done|]. split; [done|]. by exists a, b.
  - destruct Hd as (l'&->&_&_&Hd&_). apply StronglySorted_app_1_r in Hs. rewrite fmap_app in Hn. apply NoDup_app in Hn as (_&_&Hn).
    by apply (IH l').
Qed.

Lemma covers_join groups clusters : Forall2 cluster_covers groups clusters ->
  mjoin (cl_source_record_ids <$> clusters) = af_record_id <$> mjoin groups.
Proof.
  induction 1 as [|g c groups clusters Hgc _ IH]; [done|]. rewrite fmap_cons. destruct Hgc as [Hgc _].
  change (cl_source_record_ids c ++ mjoin (cl_source_record_ids <$> clusters) = af_record_id <$> (g ++ mjoin groups)).
  by rewrite fmap_app, IH, Hgc.
Qed.

(** C24 (segmentation_is_exact): segmenting records with distinct ids and
    comparable vectors always answers; the records, in time order, are divided
    into runs in which each continues the one before and which cannot be
    prolonged (there is one such division), and each cluster holds the ids of
    its run in order, with the first and the last date, and satisfies the
    checks of its class. *)
Theorem segmentation_is_exact records :
  NoDup (af_record_id <$> records) -> (forall a b, a ∈ records -> b ∈ records -> comparable a b) ->
  exists groups clusters, segment policy records = Ok clusters /\
    divides groups (merge_sort features_le records) /\
    (forall groups', divides groups' (merge_sort features_le records) -> groups' = groups) /\
    Forall2 cluster_covers groups clusters /\
    mjoin (cl_source_record_ids <$> clusters) = af_record_id <$> merge_sort features_le records.
Proof.
  intros Hn Hc. set (l := merge_sort features_le records). pose proof (merge_sort_Permutation features_le records) as Hp. fold l in Hp.
  assert (Hs : StronglySorted features_le l) by apply (StronglySorted_merge_sort features_le).
  assert (Hnl : NoDup (af_record_id <$> l)) by (by rewrite Hp).
  assert (exists groups, groups_of policy records = Ok groups) as [groups Hg].
  { unfold groups_of. fold l. destruct l as [|first rest] eqn:El; [by eexists|].
    apply segment_loop_total; [by apply StronglySorted_Sorted|]. intros a b Ha Hb. apply Hc; by rewrite <- Hp. }
  pose proof (groups_of_ok _ _ Hg) as Hd. fold l in Hd. destruct (divides_clusters _ _ Hd Hnl Hs) as (clusters&Hcs&H2).
  exists groups, clusters. split; [unfold segment; by rewrite Hg|]. split; [done|]. split; [intros g' Hg'; by eapply divides_unique|].
  assert (Hcov : Forall2 cluster_covers groups clusters) by (by eapply divides_covers).
  split; [done|]. rewrite <- (divides_join _ _ Hd). by apply covers_join.
Qed.
End Segmentation.

(** ** Well-formed entries

    The [typed] conditions are those Python's values satisfy by themselves:
    identifiers below 2^128, dates of the calendar, texts that UTF-8 can write. *)

Definition ids_typed (ids : list uuid) : Prop := Forall (fun r => uuid_ok r = true) ids.
Definition cluster_typed (c : ActivityCluster) : Prop :=
  ids_typed (cl_source_record_ids c) /\ valid_datetime (cl_started_at c) = true /\ valid_datetime (cl_ended_at c) = true.
Definition summary_typed (s : ActivitySummary) : Prop :=
  ids_typed (as_source_record_ids s) /\ forallb is_scalar (as_text s) = true /\
  forallb is_scalar (as_provider_id s) = true /\ forallb is_scalar (as_model_id s) = true.
Definition entry_typed (e : ActivityEntry) : Prop :=
  cluster_typed (ae_cluster e) /\ (forall s, ae_summary e = Some s -> summary_typed s) /\
  forallb (forallb is_scalar) (ae_policy_revisions e) = true.

(** Made by the constructors of its classes. *)
Definition entry_made (e : ActivityEntry) : Prop :=
  make_cluster (ae_cluster e) = Ok (ae_cluster e) /\
  (forall s, ae_summary e = Some s -> make_summary s = Ok s) /\ make_entry e = Ok e.
Definition activity_made (entries : list ActivityEntry) : Prop :=
  Forall entry_made entries /\ make_activity entries = Ok entries.
Definition activity_ok (entries : list ActivityEntry) : Prop := activity_made entries /\ Forall entry_typed entries.

(** A constructor returns what it is given. *)
Lemma make_cluster_same c c' : make_cluster c = Ok c' -> c' = c.
Proof. unfold make_cluster. intros H. by ok_steps. Qed.
Lemma make_summary_same s s' : make_summary s = Ok s' -> s' = s.
Proof. unfold make_summary. intros H. by ok_steps. Qed.
Lemma make_entry_same e e' : make_entry e = Ok e' -> e' = e.
Proof. unfold make_entry. intros H. by ok_steps. Qed.
Lemma make_activity_same l l' : make_activity l = Ok l' -> l' = l.
Proof. unfold make_activity. intros H. by ok_steps. Qed.

Lemma map_ok_ok {A B} (f : A -> result B) (P : B -> Prop) l bs :
  map_ok f l = Ok bs -> (forall a b, f a = Ok b -> P b) -> Forall P bs.
Proof.
  intros H Hf. apply map_ok_Forall2 in H. apply Forall_forall. intros b Hb.
  apply list_elem_of_lookup in Hb as [i Hi]. destruct (Forall2_lookup_r _ _ _ _ _ H Hi) as (a&_&Ha). by eapply Hf.
Qed.

Lemma hex_plain c : match hex_value c with Some _ => negb ((65 <=? c) && (c <=? 70)) | None => false end = true -> plain c = true.
Proof.
  unfold hex_value, plain. intros H. rewrite !andb_true_iff, !negb_true_iff, !Z.eqb_neq, !Z.leb_le.
  destruct ((48 <=? c) && (c <=? 57)) eqn:E1; [btauto_hyps; lia|]. destruct ((97 <=? c) && (c <=? 102)) eqn:E2; [btauto_hyps; lia|].
  by destruct ((65 <=? c) && (c <=? 70)).
Qed.

Lemma fingerprint_plain s : valid_fingerprint s = true -> forallb plain s = true.
Proof.
  unfold valid_fingerprint. intros [_ Hs]%andb_true_iff. rewrite List.forallb_forall in *. intros c Hc. by apply hex_plain, Hs.
Qed.

Section Decoded.
Context {L : PyLibrary}.

Lemma decode_cluster_made raw c : decode_cluster raw = Ok c -> make_cluster c = Ok c.
Proof.
  unfold decode_cluster. intros H. ok_steps. match goal with Hm : make_cluster _ = Ok _ |- _ => pose proof (make_cluster_same _ _ Hm) as ->; exact Hm end.
Qed.

Lemma decode_summary_made raw o s : decode_summary raw = Ok o -> o = Some s -> make_summary s = Ok s.
Proof.
  intros H ->. destruct raw; [done|..]; unfold decode_summary in H; ok_steps;
    match goal with Hm : make_summary _ = Ok _ |- _ => pose proof (make_summary_same _ _ Hm) as ->; exact Hm end.
Qed.

Lemma decode_entry_made raw e : decode_entry raw = Ok e -> entry_made e.
Proof.
  unfold decode_entry. intros H. apply result_bind_ok in H as (?&_&H). apply result_bind_ok in H as (c&Hc&H).
  apply result_bind_ok in H as (s&Hs&H). apply result_bind_ok in H as (r&_&H). apply result_bind_ok in H as (?&_&H).
  apply result_bind_ok in H as (?&_&H). pose proof (make_entry_same _ _ H) as ->. split; [|split; [|exact H]]; cbn.
  - apply result_bind_ok in Hc as (?&_&Hc). by eapply decode_cluster_made.
  - intros s' ->. apply result_bind_ok in Hs as (?&_&Hs). by eapply decode_summary_made.
Qed.

(** *** What a valid entry is *)

Record cluster_valid (c : ActivityCluster) : Prop := {
  cv_ids : cl_source_record_ids c <> [] /\ NoDup (cl_source_record_ids c);
  cv_period : dt_utc (cl_started_at c) <= dt_utc (cl_ended_at c) }.
(** A summary of the cluster [c]. *)
Record summary_valid (c : ActivityCluster) (s : ActivitySummary) : Prop := {
  sv_text : strip (as_text s) <> [] /\ strip (as_provider_id s) <> [] /\ strip (as_model_id s) <> [];
  sv_ids : as_source_record_ids s <> [] /\ NoDup (as_source_record_ids s);
  sv_cites : forall id, id ∈ as_source_record_ids s -> id ∈ cl_source_record_ids c }.
Record entry_valid (e : ActivityEntry) : Prop := {
  ev_cluster : cluster_valid (ae_cluster e);
  ev_summary s : ae_summary e = Some s -> summary_valid (ae_cluster e) s;
  ev_revisions : ae_policy_revisions e <> [] /\ zlen (ae_policy_revisions e) <= 64 /\ NoDup (ae_policy_revisions e);
  ev_revision r : r ∈ ae_policy_revisions e -> strip r <> [] /\ zlen r <= 256;
  ev_fingerprint : zlen (ae_source_fingerprint e) = 64;
  ev_digit c : c ∈ ae_source_fingerprint e -> 48 <= c <= 57 \/ 97 <= c <= 102 }.

Lemma nonempty_strip t x : require_nonempty t = Ok x -> strip t <> [].
Proof. unfold require_nonempty, is_blank. rewrite throw_if_ok. intros [_ H]%orb_false_iff. by apply bool_decide_eq_false in H. Qed.

Lemma made_cluster_valid c : make_cluster c = Ok c -> cluster_valid c.
Proof. unfold make_cluster, has_duplicates. intros H. ok_steps. btauto_hyps. split; [done|lia]. Qed.

Lemma made_summary_valid c s : make_summary s = Ok s -> summary_inside (Some s) c = true -> summary_valid c s.
Proof.
  unfold make_summary, summary_inside, has_duplicates. intros H Hin. ok_steps.
  repeat match goal with Hx : require_nonempty _ = Ok _ |- _ => apply nonempty_strip in Hx end. btauto_hyps.
  split; [done..|]. rewrite List.forallb_forall in Hin. intros id Hid. apply list_elem_of_In in Hid.
  exact (bool_decide_eq_true_1 _ (Hin id Hid)).
Qed.

Lemma hex_lower c : match hex_value c with Some _ => negb ((65 <=? c) && (c <=? 70)) | None => false end = true ->
  48 <= c <= 57 \/ 97 <= c <= 102.
Proof.
  unfold hex_value. destruct ((48 <=? c) && (c <=? 57)) eqn:E1; [btauto_hyps; lia|].
  destruct ((97 <=? c) && (c <=? 102)) eqn:E2; [btauto_hyps; lia|]. by destruct ((65 <=? c) && (c <=? 70)).
Qed.

Lemma made_entry_valid e : entry_made e -> entry_valid e.
Proof.
  intros (Hc&Hs&He). unfold make_entry in He.
  apply result_bind_ok in He as (x1&H1&He). apply result_bind_ok in He as (x2&H2&He). apply result_bind_ok in He as (x3&H3&He).
  apply result_bind_ok in He as (x4&H4&He). apply result_bind_ok in He as (x5&H5&He). apply result_bind_ok in He as (x6&H6&_).
  apply throw_if_ok in H1, H2, H3, H5, H6. rewrite negb_false_iff in H3, H5, H6. apply bool_decide_eq_false in H1. apply bool_decide_eq_true in H3.
  apply Z.ltb_ge in H2. unfold valid_fingerprint in H5. apply andb_true_iff in H5 as [H5 H7]. apply Z.eqb_eq in H5. split; try done.
  - by apply made_cluster_valid.
  - intros s E. apply made_summary_valid; [by apply Hs|by rewrite <- E].
  - intros r Hr. apply map_ok_Forall2 in H4. apply list_elem_of_lookup in Hr as [i Hi].
    destruct (Forall2_lookup_l _ _ _ _ _ H4 Hi) as (y&_&Hy). unfold check_revision in Hy.
    apply result_bind_ok in Hy as (z&Hz&Hy). apply throw_if_ok, Z.ltb_ge in Hy. split; [by eapply nonempty_strip|exact Hy].
  - intros c Hin. apply list_elem_of_In in Hin. rewrite List.forallb_forall in H7. by apply hex_lower, H7.
Qed.

(** C27 (decoded_activity_is_valid): whatever bytes are decoded (whatever the
    file held, once authenticated), there come out at most a hundred thousand
    entries, each with a nonempty cluster of distinct ids that ends no earlier
    than it starts, no summary or one whose texts are not blank and that cites
    distinct ids of its cluster only, one to 64 distinct policy revisions of at
    most 256 characters that are not blank, and a fingerprint of 64 lower-case
    hexadecimal digits; and no record is in two of them.  A [KeyError],
    [TypeError] or [ValueError] never escapes. *)
Theorem decoded_activity_is_valid payload :
  match decode_activity payload with
  | Ok entries => Forall entry_valid entries /\ zlen entries <= 100000 /\ NoDup (source_ids entries)
  | Raise e => payload_error e = false
  end.
Proof.
  unfold decode_activity. destruct (raw ← loads_bytes lib_loads payload; activity_of_json raw) as [entries|e] eqn:E.
  2:{ destruct (payload_error e) eqn:He; [reflexivity|exact He]. }
  apply result_bind_ok in E as (raw&_&E). unfold activity_of_json in E.
  apply result_bind_ok in E as (?&_&E). apply result_bind_ok in E as (items&_&E). apply result_bind_ok in E as (es&Hes&E).
  pose proof (make_activity_same _ _ E) as ->. split; [|].
  - eapply Forall_impl; [by eapply map_ok_ok; [|exact decode_entry_made]|exact made_entry_valid].
  - unfold make_activity, has_duplicates, MAX_ENTRIES in E. ok_steps. btauto_hyps. split; [lia|done].
Qed.

(** ** Round trip *)

Lemma cluster_fields a b c :
  let raw := JDict [(u "ended_at", a); (u "source_record_ids", b); (u "started_at", c)] in
  require_keys raw [u "ended_at"; u "source_record_ids"; u "started_at"] = Ok tt /\
  subscript raw (u "ended_at") = Ok a /\ subscript raw (u "source_record_ids") = Ok b /\ subscript raw (u "started_at") = Ok c.
Proof. vm_compute. repeat split. Qed.

Lemma summary_fields a b c d :
  let raw := JDict [(u "model_id", a); (u "provider_id", b); (u "source_record_ids", c); (u "text", d)] in
  require_keys raw [u "model_id"; u "provider_id"; u "source_record_ids"; u "text"] = Ok tt /\
  subscript raw (u "model_id") = Ok a /\ subscript raw (u "provider_id") = Ok b /\
  subscript raw (u "source_record_ids") = Ok c /\ subscript raw (u "text") = Ok d.
Proof. vm_compute. repeat split. Qed.

Lemma activity_entry_fields a b c d :
  let raw := JDict [(u "cluster", a); (u "policy_revisions", b); (u "source_fingerprint", c); (u "summary", d)] in
  require_keys raw [u "cluster"; u "policy_revisions"; u "source_fingerprint"; u "summary"] = Ok tt /\
  subscript raw (u "cluster") = Ok a /\ subscript raw (u "policy_revisions") = Ok b /\
  subscript raw (u "source_fingerprint") = Ok c /\ subscript raw (u "summary") = Ok d.
Proof. vm_compute. repeat split. Qed.

Lemma ids_round_trip ids : ids_typed ids -> parse_ids (ids_json ids) = Ok ids.
Proof.
  intros Hi. unfold parse_ids, ids_json. cbn [iterate]. rewrite result_bind_ret.
  rewrite (map_ok_fmap parse_uuid _ id), list_fmap_id; [done|]. intros r Hr. cbn [parse_uuid].
  apply uuid_round_trip, uuid_ok_bounds. unfold ids_typed in Hi. rewrite Forall_forall in Hi. auto.
Qed.

Lemma ids_printable ids : ids_typed ids -> printable (ids_json ids) = true /\ small_ints (ids_json ids) = true.
Proof.
  intros Hi. unfold ids_json. cbn [printable small_ints]. rewrite !forallb_fmap. split; apply forallb_Forall; [|by apply Forall_true].
  eapply Forall_impl; [exact Hi|]. intros r Hr%uuid_ok_bounds. cbn [printable]. exact (ascii_scalar _ (uuid_text_ascii _ (proj1 Hr))).
Qed.

Lemma cluster_round_trip c : cluster_typed c -> make_cluster c = Ok c -> decode_cluster (cluster_json c) = Ok c.
Proof.
  intros (Hi&Hs&He) Hm. unfold decode_cluster, cluster_json.
  destruct (cluster_fields (JStr (isoformat (cl_ended_at c))) (ids_json (cl_source_record_ids c)) (JStr (isoformat (cl_started_at c))))
    as (->&->&->&->). rewrite !result_bind_ret, ids_round_trip, result_bind_ret by done. cbn [parse_datetime].
  rewrite !iso_round_trip, !result_bind_ret by done. cbn [require_datetime]. rewrite !result_bind_ret. by destruct c.
Qed.

Lemma required_string_ok s : require_nonempty s = Ok tt -> required_string (JStr s) = Ok s.
Proof. intros Hs. cbn [required_string]. by rewrite Hs. Qed.

Lemma summary_round_trip o : (forall s, o = Some s -> summary_typed s /\ make_summary s = Ok s) ->
  decode_summary (summary_json o) = Ok o.
Proof.
  intros Ho. destruct o as [s|]; [|done]. destruct (Ho s eq_refl) as [(Hi&_&_&_) Hm]. unfold decode_summary, summary_json.
  destruct (summary_fields (JStr (as_model_id s)) (JStr (as_provider_id s)) (ids_json (as_source_record_ids s)) (JStr (as_text s)))
    as (->&->&->&->&->). rewrite !result_bind_ret, ids_round_trip, result_bind_ret by done.
  pose proof Hm as Hm'. unfold make_summary in Hm'. ok_steps. repeat match goal with x : () |- _ => destruct x end.
  do 3 rewrite required_string_ok, result_bind_ret by done. rewrite !result_bind_ret.
  assert ({| as_text := as_text s; as_source_record_ids := as_source_record_ids s; as_provider_id := as_provider_id s;
             as_model_id := as_model_id s |} = s) as -> by (by destruct s). by rewrite Hm.
Qed.

Lemma repeats_strings l : NoDup l -> repeats (JStr <$> l) = false.
Proof.
  induction 1 as [|x l Hx _ IH]; [done|]. rewrite fmap_cons. cbn [repeats]. rewrite IH, orb_false_r. clear IH.
  induction l as [|y l IH]; [done|]. rewrite fmap_cons. rewrite not_elem_of_cons in Hx. destruct Hx as [Hx1 Hx]. cbn [existsb same_scalar].
  by rewrite (bool_decide_false _ Hx1), IH.
Qed.

Lemma revisions_round_trip e : make_entry e = Ok e -> decode_revisions (JList (JStr <$> ae_policy_revisions e)) = Ok (ae_policy_revisions e).
Proof.
  unfold make_entry. intros H. ok_steps. btauto_hyps. unfold decode_revisions. cbn [iterate]. rewrite result_bind_ret.
  assert (Hl : length (JStr <$> ae_policy_revisions e) = length (ae_policy_revisions e)) by apply length_fmap.
  unfold zlen. rewrite Hl, repeats_strings by done. rewrite (bool_decide_false (length _ = 0%nat)) by (by intros ?%length_zero_iff_nil).
  fold (zlen (ae_policy_revisions e)). rewrite (proj2 (Z.ltb_ge _ _)) by done.
  assert (existsb unhashable (JStr <$> ae_policy_revisions e) = false) as -> by (clear; by induction (ae_policy_revisions e)).
  rewrite !throw_if_false, !result_bind_ret.
  rewrite (map_ok_fmap _ JStr id), list_fmap_id; [done|]. intros r Hr. cbn [required_string].
  match goal with H : map_ok check_revision _ = Ok _ |- _ => apply map_ok_Forall2 in H; rename H into Hc end.
  apply list_elem_of_lookup in Hr as [i Hi]. destruct (Forall2_lookup_l _ _ _ _ _ Hc Hi) as ([]&_&Hr).
  pose proof Hr as Hr'. unfold check_revision in Hr'. apply result_bind_ok in Hr' as ([]&Hne&_). by rewrite Hne, !result_bind_ret, Hr.
Qed.

Lemma activity_entry_round_trip e : entry_typed e -> entry_made e -> decode_entry (activity_entry_json e) = Ok e.
Proof.
  intros (Hc&Hs&_) (Mc&Ms&Me). unfold decode_entry, activity_entry_json.
  destruct (activity_entry_fields (cluster_json (ae_cluster e)) (JList (JStr <$> ae_policy_revisions e)) (JStr (ae_source_fingerprint e))
    (summary_json (ae_summary e))) as (->&->&->&->&->). rewrite !result_bind_ret, cluster_round_trip, result_bind_ret by done.
  rewrite summary_round_trip, result_bind_ret by naive_solver. rewrite revisions_round_trip, !result_bind_ret by done. by destruct e.
Qed.

Lemma activity_entry_printable e : entry_typed e -> entry_made e ->
  printable (activity_entry_json e) = true /\ small_ints (activity_entry_json e) = true.
Proof.
  intros ((Hi&_&_)&Hs&Hr) (_&_&Me). unfold activity_entry_json, cluster_json. cbn [printable small_ints forallb fst snd].
  destruct (ids_printable _ Hi) as [-> ->]. rewrite !(ascii_scalar _ (isoformat_ascii _)), !forallb_fmap. cbn [printable small_ints].
  assert (forallb (fun x => forallb is_scalar x) (ae_policy_revisions e) = true) as -> by exact Hr. assert (Hf : forallb is_scalar (ae_source_fingerprint e) = true).
  { unfold make_entry in Me. ok_steps. btauto_hyps. by apply plain_scalar, fingerprint_plain. }
  rewrite Hf. assert (forallb (fun _ : pystr => true) (ae_policy_revisions e) = true) as -> by (by apply forallb_Forall, Forall_true).
  assert (printable (summary_json (ae_summary e)) = true /\ small_ints (summary_json (ae_summary e)) = true) as [-> ->];
    [|split; vm_compute; reflexivity].
  destruct (ae_summary e) as [s|]; [|done]. destruct (Hs s eq_refl) as (Hsi&H1&H2&H3). unfold summary_json.
  cbn [printable small_ints forallb fst snd]. destruct (ids_printable _ Hsi) as [-> ->]. rewrite H1, H2, H3. split; vm_compute; reflexivity.
Qed.

Lemma activity_printable l : activity_ok l ->
  printable (JDict (activity_json l)) = true /\ small_ints (JDict (activity_json l)) = true.
Proof.
  intros [[Hm _] Ht]. unfold activity_json. cbn [printable small_ints forallb fst snd]. rewrite !forallb_fmap.
  assert (forallb (fun e => printable (activity_entry_json e)) l = true /\ forallb (fun e => small_ints (activity_entry_json e)) l = true) as [-> ->];
    [|split; vm_compute; reflexivity].
  split; apply forallb_Forall, Forall_forall; intros e He; rewrite Forall_forall in Hm, Ht; by apply activity_entry_printable; auto.
Qed.

Lemma activity_round_trip l : activity_ok l -> exists b, encode_activity l = Ok b /\ decode_activity b = Ok l.
Proof.
  intros Hl. destruct (activity_printable l Hl) as [Hp Hi]. destruct (dict_encodes _ Hp Hi) as (text&b&Ht&Hb).
  exists b. split; [unfold encode_activity; by rewrite Ht|].
  unfold decode_activity. rewrite (dict_bytes_round_trip lib_loads (activity_json l) text b) by (unfold activity_json; done).
  rewrite result_bind_ret. unfold activity_of_json, activity_json.
  change (require_keys (JDict [(u "entries", JList (activity_entry_json <$> l))]) [u "entries"]) with (Ok tt).
  change (subscript (JDict [(u "entries", JList (activity_entry_json <$> l))]) (u "entries")) with (Ok (JList (activity_entry_json <$> l))).
  rewrite !result_bind_ret. cbn [iterate]. rewrite result_bind_ret. destruct Hl as [[Hm Hu] Ht'].
  rewrite (map_ok_fmap decode_entry activity_entry_json id), list_fmap_id, result_bind_ret; [by rewrite Hu|].
  intros e He. rewrite Forall_forall in Hm, Ht'. by apply activity_entry_round_trip; auto.
Qed.

Lemma encode_activity_bytes l b : activity_ok l -> encode_activity l = Ok b -> is_bytes b.
Proof.
  intros [Hp _]%activity_printable Hb. unfold encode_activity in Hb. apply result_bind_ok in Hb as (text&Ht&Hb).
  pose proof (dumps_ascii _ _ Hp Ht) as Ha. rewrite (utf8_ascii _ Ha) in Hb. injection Hb as <-.
  eapply Forall_impl; [exact Ha|]. unfold ascii, is_byte. intros c. lia.
Qed.
End Decoded.

(** ** The store is a register *)

Section StoreFacts.
Context {L : PyLibrary} {W : Type} `{SL : SealLaws W}.
Implicit Types (a : activity_store W) (o : option (list ActivityEntry)).

(** A file that holds [o]. *)
Definition activity_holds o (f : option file) : Prop :=
  match o with
  | None => f = None
  | Some l => activity_ok l /\ exists p b, encode_activity l = Ok p /\ sealed_as activity_seal p b /\
      zlen b <= MAX_ACTIVITY_BYTES /\ f = Some (owned_file b)
  end.
Definition store_holds o a : Prop := activity_holds o (sl_file (st_active a)).

(** Nothing is going to fail. *)
Definition store_calm a : Prop := slot_calm (st_active a) /\ ports_ready (st_world a).
Definition activity_too_big (l : list ActivityEntry) : Prop :=
  exists p b, encode_activity l = Ok p /\ sealed_as activity_seal p b /\ MAX_ACTIVITY_BYTES < zlen b.

Lemma sealed_as_nonempty kind p b : sealed_as kind p b -> b <> [].
Proof.
  intros (s&m&Hb&Hs&_) ->. unfold sealed_payload in Hb. apply result_bind_ok in Hb as (text&Ht&Hb).
  by pose proof (dict_starts_utf8 (sealed_json s) text [] ltac:(done) Ht Hb).
Qed.

(** A call on the keys. *)
Lemma on_keys_ok {A} (m : M W A) (P : A -> Prop) a :
  steady ports_ready m P ->
  wp (on_keys m) (fun r a' => st_active a' = st_active a /\ (forall x, r = Ok x -> P x) /\
    (store_calm a -> store_calm a' /\ is_ok r = true)) a.
Proof.
  intros Hm. apply wp_zoom. eapply wp_mono; [apply Hm|]. intros r w [Hp Hr]. split; [done|]. split; [done|].
  intros [Hc Hw]. by destruct (Hr Hw).
Qed.

Lemma on_file_ok {A} (m : M slot A) (Q : result A -> activity_store W -> Prop) a :
  wp m (fun r s => Q r (set_active s a)) (st_active a) -> wp (on_file m) Q a.
Proof. apply wp_zoom. Qed.

Lemma load_activity_ok o a : store_holds o a ->
  wp load_activity (fun r a' => store_holds o a' /\ sl_temporary (st_active a') = sl_temporary (st_active a) /\
    (forall x, r = Ok x -> x = o) /\ (store_calm a -> store_calm a' /\ is_ok r = true)) a.
Proof.
  intros Ho. unfold load_activity. apply wp_bind, on_file_ok. eapply wp_mono; [apply read_ok|].
  intros r s (Hf&Ht&Hr&Hread). assert (Hkeep : store_holds o (set_active s a)) by (unfold store_holds; cbn; by rewrite Hf).
  destruct o as [l|]; unfold store_holds, activity_holds in Ho.
  2:{ rewrite Ho in Hr. destruct Hr as [-> ->]. apply wp_ret. split; [done|]. split; [done|]. by split; [intros x [= <-]|]. }
  destruct Ho as (Hok&p&b&He&Hseal&Hfit&Hfile). rewrite Hfile in Hr. pose proof (sealed_as_nonempty _ _ _ Hseal) as Hne.
  destruct r as [payload|e]; [|split; [done|]; split; [done|]; split; [done|]; intros [Hc _]; by destruct (Hread b Hfile Hne Hfit Hc)].
  rewrite (Hr payload eq_refl). cbn [owned_file fl_bytes]. apply wp_bind.
  eapply wp_mono; [apply on_keys_ok; by apply (decrypt_ok activity_seal p b)|]. intros r a1 (Ha&Hp&Hr1).
  assert (Hc0 : store_calm a -> store_calm a1 /\ is_ok r = true).
  { intros Hc. apply Hr1. split; [|apply Hc]. by destruct (Hread b Hfile Hne Hfit (proj1 Hc)). }
  assert (store_holds (Some l) a1 /\ sl_temporary (st_active a1) = sl_temporary (st_active a)) as [Hh1 Ht1].
  { unfold store_holds in *. rewrite Ha. by split. }
  destruct r as [plain|e]; [|split; [done|]; split; [done|]; split; [done|]; intros Hc; by destruct (Hc0 Hc)].
  rewrite (Hp plain eq_refl). apply wp_bind, wp_lift. destruct (activity_round_trip l Hok) as (p'&He'&Hd).
  assert (p' = p) as -> by congruence. rewrite Hd. apply wp_ret. split; [done|]. split; [done|].
  split; [by intros x [= <-]|]. intros Hc. by destruct (Hc0 Hc).
Qed.

Lemma replace_ok l o a : activity_ok l -> store_holds o a ->
  wp (replace l) (fun r a' =>
    (r <> Ok tt /\ store_holds o a' \/ store_holds (Some l) a') /\ (r = Ok tt -> store_holds (Some l) a') /\
    (store_calm a -> store_calm a' /\ (r = Ok tt \/ activity_too_big l)) /\
    (sl_temporary (st_active a) = true -> r <> Ok tt /\ st_active a' = st_active a)) a.
Proof.
  intros Hl Ho. unfold replace. apply wp_bind, wp_lift. destruct (activity_round_trip l Hl) as (p&He&_). rewrite He.
  apply wp_bind. eapply wp_mono; [apply on_keys_ok, (encrypt_ok activity_seal p), (encode_activity_bytes l p Hl He)|].
  intros r a1 (Ha&Hp&Hr). assert (Ho1 : store_holds o a1) by (unfold store_holds; by rewrite Ha).
  assert (Hfail : forall e, (store_calm a -> store_calm a1 /\ activity_too_big l) ->
    (Raise e <> Ok tt /\ store_holds o a1 \/ store_holds (Some l) a1) /\ (Raise e = Ok tt -> store_holds (Some l) a1) /\
    (store_calm a -> store_calm a1 /\ (Raise e = Ok tt \/ activity_too_big l)) /\
    (sl_temporary (st_active a) = true -> Raise e <> Ok tt /\ st_active a1 = st_active a)).
  { intros e Hc. split; [by left|]. split; [done|]. split; [intros H1; destruct (Hc H1); auto|done]. }
  destruct r as [b|e]; [|apply Hfail; intros Hc; by destruct (Hr Hc)]. specialize (Hp b eq_refl).
  apply wp_bind, wp_require; intros Hfit; btauto_hyps.
  2:{ apply Hfail. intros Hc. split; [by apply Hr|]. by exists p, b. }
  apply on_file_ok. rewrite Ha. eapply wp_mono; [apply atomic_write_ok|]. intros r s (Hf&Hok&Hc&Ht).
  assert (Hh : sl_file s = Some (owned_file b) -> store_holds (Some l) (set_active s a1)).
  { intros E. unfold store_holds. cbn. rewrite E. split; [done|]. by exists p, b. }
  split; [|split; [intros Hr1; by apply Hh, Hok|split]].
  - destruct Hf as [[Hf Hr1]|Hf]; [left|right; auto]. split; [done|]. unfold store_holds. cbn. by rewrite Hf.
  - intros Hcalm. destruct (Hr Hcalm) as [[_ Hw] _]. destruct (Hc (proj1 Hcalm)) as [Hs ->]. split; [by split|by left].
  - intros Htmp. destruct (Ht Htmp) as [-> ->]. done.
Qed.

(** C26 (activity_store_refines): the encrypted store is a register of
    snapshots. Loading changes nothing and answers exactly the snapshot stored,
    or fails; replacing stores the new snapshot when it succeeds and leaves the
    old or the new one when it fails; neither fails while the calls succeed and
    the payload fits. *)
Theorem activity_store_refines l o a : activity_ok l -> store_holds o a ->
  wp load_activity (fun r a' => store_holds o a' /\ (forall x, r = Ok x -> x = o) /\ (store_calm a -> is_ok r = true)) a /\
  wp (replace l) (fun r a' => (r <> Ok tt /\ store_holds o a' \/ store_holds (Some l) a') /\
    (r = Ok tt -> store_holds (Some l) a') /\ (store_calm a -> r = Ok tt \/ activity_too_big l)) a.
Proof.
  intros Hl Ho. split.
  - eapply wp_mono; [by apply load_activity_ok|]. intros r a' (?&_&?&Hc). split; [done|]. split; [done|]. intros Hcalm. by apply Hc.
  - eapply wp_mono; [by apply replace_ok|]. intros r a' (?&?&Hc&_). split; [done|]. split; [done|]. intros Hcalm. by apply Hc.
Qed.
End StoreFacts.
