(* ===== verification/Summaries.v ===== *)
(** * Summaries: the features of a record and the summary of a cluster.

    Models [activity/features.py] and [activity/summaries.py].  The embedding
    and the generation provider ([ports/providers.py]) are the operations of
    [ActivityPorts]. *)

From S2P Require Import Prelude PyStr Utf8 PyFloat Json PyLib Storage PyData Codec Policy Frames Adaptive Egress Answering Sealed SemanticIndex Activity.

Class ActivityPorts (W : Type) := {
  embedding_capabilities : M W ProviderCapabilities;
  activity_embed : EmbeddingRequest -> M W EmbeddingResponse;
  summary_provider : GenerationProvider W GenerationRequest }.

(** [ActivityFeatureFailure] and [ActivitySummaryFailure] are [RuntimeError]s;
    [ActivitySummaryUnavailable] is the one that is caught by its class. *)
Definition ActivitySummaryUnavailable : exn := External 9.

(** ** Features *)

Definition MAX_FEATURE_RECORDS : Z := 512.
Definition MAX_SEMANTIC_INPUT_BYTES : Z := 16384.

Definition semantic_input (record : RedactedRecord) (application workspace : option pystr) : option pystr :=
  let parts := filter (fun item => item <> []) (df_ocr_text (rc_frame record)) ++
    match application with Some a => [u "application:" ++ a] | None => [] end ++
    match workspace with Some w => [u "workspace:" ++ w] | None => [] end in
  match parts with [] => None | parts => Some (join 10 parts) end.

(** What the loop keeps of one record: application, workspace, fingerprint,
    and the input with its size in bytes. *)
Record prepared := {
  pr_application : option pystr;
  pr_workspace : option pystr;
  pr_fingerprint : Z;
  pr_input : option (pystr * Z) }.

Definition prepare (record : RedactedRecord) : result prepared :=
  let frame := rc_frame record in
  _ ← throw_if (negb (bool_decide (df_pixel_format frame = RGB8))) RuntimeError;
  fingerprint ← match perceptual_dhash_rgb8 (df_pixels frame) (df_width frame) (df_height frame) (Some (df_stride frame)) with
                | Ok h => Ok h
                | Raise e => Raise (if bool_decide (e = ValueError) then RuntimeError else e)
                end;
  let application := metadata_text (df_metadata frame) (u "application") in
  let workspace := metadata_text (df_metadata frame) (u "workspace") in
  input ← match semantic_input record application workspace with
          | None => mret None
          | Some text =>
              b ← utf8_encode text;
              _ ← throw_if (MAX_SEMANTIC_INPUT_BYTES <? zlen b) RuntimeError;
              mret (Some (text, zlen b))
          end;
  mret {| pr_application := application; pr_workspace := workspace; pr_fingerprint := fingerprint; pr_input := input |}.

(** The positions of the records that have an input. *)
Fixpoint input_positions (position : nat) (ps : list prepared) : list nat :=
  match ps with
  | [] => []
  | p :: ps => (if pr_input p then [position] else []) ++ input_positions (S position) ps
  end.

Fixpoint features_from (vectors : gmap nat (list pyfloat)) (position : nat) (records : list RedactedRecord) (ps : list prepared)
    : result (list ActivityRecordFeatures) :=
  match records, ps with
  | record :: records, p :: ps =>
      f ← make_features
        {| af_record_id := rc_record_id record; af_captured_at := df_captured_at (rc_frame record);
           af_policy_revision := df_policy_revision (rc_frame record); af_application := pr_application p;
           af_workspace := pr_workspace p; af_perceptual_hash := Some (pr_fingerprint p);
           af_semantic_vector := vectors !! position |};
      fs ← features_from vectors (S position) records ps;
      mret (f :: fs)
  | _, _ => mret []
  end.

Section Providers.
Context {L : PyLibrary} {W : Type} `{ActivityPorts W}.

(** The checks made of either provider, up to the capability. *)
Definition check_embedding (c : ProviderCapabilities) : result unit :=
  _ ← throw_if (negb (bool_decide (pv_location c = LOCAL))) RuntimeError;
  _ ← throw_if (negb (pv_available c)) RuntimeError;
  _ ← throw_if (negb (bool_decide (EMBEDDING ∈ pv_capabilities c))) RuntimeError;
  throw_if (negb (accepts c REDACTED_CONTENT)) RuntimeError.

(** The vectors by the position of their record. *)
Definition embed_inputs (c : ProviderCapabilities) (ps : list prepared) : M W (gmap nat (list pyfloat)) :=
  let inputs := omap pr_input ps in
  if bool_decide (inputs = []) then mret ∅
  else
    _ ← require (negb (pv_max_input_bytes c <? sum_by snd inputs)) RuntimeError;
    request ← lift (make_embedding_request {| er_inputs := fst <$> inputs; er_privacy_class := REDACTED_CONTENT |});
    response ← activity_embed request;
    _ ← require (bool_decide (es_provider_id response = pv_provider_id c)) RuntimeError;
    pairs ← lift (if (length (es_vectors response) =? length inputs)%nat
                  then zip_strict (input_positions 0 ps) (es_vectors response) else Raise RuntimeError);
    _ ← require (negb (existsb (existsb (fun x => negb (is_finite x))) (es_vectors response))) RuntimeError;
    mret (list_to_map pairs).

Definition extract (records : list RedactedRecord) : M W (list ActivityRecordFeatures) :=
  if bool_decide (records = []) then mret []
  else
    _ ← require (negb (MAX_FEATURE_RECORDS <? zlen records)) RuntimeError;
    c ← embedding_capabilities;
    _ ← lift (check_embedding c);
    ps ← lift (map_ok prepare records);
    vectors ← embed_inputs c ps;
    lift (features_from vectors 0 records ps).

(** ** Summaries *)

Definition MAX_SUMMARY_RECORDS : Z := 128.
Definition MAX_EXCERPTS : Z := 16.
Definition MAX_EXCERPT_LENGTH : Z := 1024.
Definition SUMMARY_OUTPUT_TOKENS : Z := 256.

(** [record_by_id[id]] *)
Definition find_record (records : list RedactedRecord) (id : uuid) : option RedactedRecord :=
  snd <$> list_find (fun r => rc_record_id r = id) records.
Definition record_of (records : list RedactedRecord) (id : uuid) : result RedactedRecord :=
  match find_record records id with Some r => Ok r | None => Raise KeyError end.

Definition validate_membership (c : ActivityCluster) (records : list RedactedRecord) : result unit :=
  _ ← throw_if (bool_decide (records = [])) RuntimeError;
  _ ← throw_if (MAX_SUMMARY_RECORDS <? zlen records) RuntimeError;
  _ ← throw_if (has_duplicates (rc_record_id <$> records)) RuntimeError;
  throw_if (negb (bool_decide (list_to_set (rc_record_id <$> records) =@{gset uuid} list_to_set (cl_source_record_ids c)))) RuntimeError.

Definition record_text (record : RedactedRecord) : pystr := join 10 (filter (fun part => part <> []) (df_ocr_text (rc_frame record))).

Definition summary_prompt (source_ids : list uuid) : pystr :=
  u "Use only evidence explicitly present in the corresponding redacted context. " ++
  u "Return JSON with exactly one top-level key named evidence. evidence must be a non-empty " ++
  u "array of objects with exactly source_id and excerpt. source_id must be one of these IDs " ++
  u "in the same order as the supplied context: " ++ join 44 (uuid_text <$> source_ids) ++
  u ". excerpt must be a non-empty exact " ++
  u "contiguous substring copied verbatim out of that source context. Do not infer, " ++
  u "paraphrase, combine, reconstruct, or invent actions.".

(** [json.loads] of the answer: an integer of too many digits raises a
    [ValueError] that is no [JSONDecodeError] and is not caught. *)
Definition DigitsError : exn := External 10.
Definition generated_decoder : decoder := {| digits_error := DigitsError; hook pairs := Ok (dict_of_pairs pairs) |}.
Definition load_generated (payload : pystr) : result json :=
  match loads generated_decoder payload with
  | Ok j => Ok j
  | Raise e => Raise (if bool_decide (e = DigitsError) then ValueError else RuntimeError)
  end.

Definition parse_evidence (records : list RedactedRecord) (seen : list uuid) (raw : json) : result (uuid * pystr) :=
  match raw with
  | JDict item =>
      _ ← throw_if (negb (has_keys item [u "source_id"; u "excerpt"])) RuntimeError;
      match dict_get item (u "source_id"), dict_get item (u "excerpt") with
      | Some (JStr source_text), Some (JStr excerpt) =>
          source_id ← match uuid_of_text lib_int16 source_text with
                      | Ok id => Ok id
                      | Raise e => Raise (if bool_decide (e = ValueError) then RuntimeError else e)
                      end;
          _ ← throw_if (bool_decide (source_id ∈ seen)) RuntimeError;
          record ← match find_record records source_id with Some r => Ok r | None => Raise RuntimeError end;
          _ ← throw_if (bool_decide (excerpt = []) || (MAX_EXCERPT_LENGTH <? zlen excerpt)) RuntimeError;
          _ ← throw_if (negb (is_in excerpt (record_text record))) RuntimeError;
          mret (source_id, excerpt)
      | _, _ => Raise RuntimeError
      end
  | _ => Raise RuntimeError
  end.

Fixpoint parse_evidences (records : list RedactedRecord) (evidence : list (uuid * pystr)) (raws : list json)
    : result (list (uuid * pystr)) :=
  match raws with
  | [] => mret evidence
  | raw :: raws =>
      e ← parse_evidence records evidence.*1 raw;
      parse_evidences records (evidence ++ [e]) raws
  end.

Definition validate_evidence (payload : pystr) (records : list RedactedRecord) : result (list (uuid * pystr)) :=
  decoded ← load_generated payload;
  match decoded with
  | JDict d =>
      _ ← throw_if (negb (has_keys d [u "evidence"])) RuntimeError;
      match dict_get d (u "evidence") with
      | Some (JList raws) =>
          _ ← throw_if (negb ((1 <=? zlen raws) && (zlen raws <=? MAX_EXCERPTS))) RuntimeError;
          parse_evidences records [] raws
      | _ => Raise RuntimeError
      end
  | _ => Raise RuntimeError
  end.

Definition check_generation (c : ProviderCapabilities) : result unit :=
  _ ← throw_if (negb (bool_decide (pv_location c = LOCAL))) RuntimeError;
  _ ← throw_if (negb (pv_available c)) ActivitySummaryUnavailable;
  _ ← throw_if (negb (bool_decide (GENERATION ∈ pv_capabilities c))) RuntimeError;
  _ ← throw_if (negb (accepts c REDACTED_CONTENT)) RuntimeError;
  throw_if (negb (pv_supports_structured_output c)) RuntimeError.

Definition summarize (c : ActivityCluster) (records : list RedactedRecord) : M W ActivitySummary :=
  _ ← lift (validate_membership c records);
  capabilities ← gp_capabilities summary_provider;
  _ ← lift (check_generation capabilities);
  ordered ← lift (map_ok (record_of records) (cl_source_record_ids c));
  let context := record_text <$> ordered in
  _ ← require (negb (existsb (fun text => bool_decide (text = [])) context)) RuntimeError;
  items ← lift (map_ok utf8_encode context);
  _ ← require (negb (pv_max_input_bytes capabilities <? sum_by zlen items)) RuntimeError;
  request ← lift (make_generation_request
    {| gn_prompt := summary_prompt (cl_source_record_ids c); gn_context := context; gn_privacy_class := REDACTED_CONTENT;
       gn_max_output_tokens := SUMMARY_OUTPUT_TOKENS; gn_model_hint := None; gn_role := SUMMARIZATION |});
  response ← gp_generate summary_provider request;
  _ ← require (bool_decide (gs_provider_id response = pv_provider_id capabilities)) RuntimeError;
  evidence ← lift (validate_evidence (gs_text response) records);
  lift (make_summary {| as_text := join 10 evidence.*2; as_source_record_ids := evidence.*1;
                        as_provider_id := gs_provider_id response; as_model_id := gs_model_id response |}).
End Providers.
