(* ===== verification/SummariesFacts.v ===== *)
(** * SummariesFacts: features keep their records, summaries quote them. *)

From S2P Require Import Prelude PyStr Utf8 PyFloat Json PyLib Storage PyData Codec Policy Frames Adaptive Egress Answering Sealed SemanticIndex Activity ActivityFacts Summaries.

(** ** Features *)

(** The feature of a record. *)
Record feature_of (r : RedactedRecord) (f : ActivityRecordFeatures) : Prop := {
  fo_id : af_record_id f = rc_record_id r;
  fo_time : af_captured_at f = df_captured_at (rc_frame r);
  fo_revision : af_policy_revision f = df_policy_revision (rc_frame r);
  fo_application : af_application f = metadata_text (df_metadata (rc_frame r)) (u "application");
  fo_workspace : af_workspace f = metadata_text (df_metadata (rc_frame r)) (u "workspace");
  fo_made : make_features f = Ok f }.

Lemma make_features_same f f' : make_features f = Ok f' -> f' = f.
Proof. unfold make_features. intros H. by ok_steps. Qed.

Lemma features_from_ok vectors position records ps fs : Forall2 (fun r p => prepare r = Ok p) records ps ->
  features_from vectors position records ps = Ok fs -> Forall2 feature_of records fs.
Proof.
  intros Hp. revert position fs. induction Hp as [|r p records ps Hrp Hp IH]; intros position fs H; cbn [features_from] in H;
    [injection H as <-; constructor|].
  apply result_bind_ok in H as (f&Hf&H). apply result_bind_ok in H as (fs'&Hfs&[= <-]).
  pose proof (make_features_same _ _ Hf) as ->. constructor; [|by eapply IH].
  unfold prepare in Hrp. ok_steps. by split.
Qed.

Section Providers.
Context {L : PyLibrary} {W : Type} `{ActivityPorts W}.

Lemma extract_ok records w : wp (extract records) (fun r _ => forall fs, r = Ok fs -> Forall2 feature_of records fs) w.
Proof.
  unfold extract. case_bool_decide as Hne; [apply wp_ret; intros fs [= <-]; rewrite Hne; constructor|].
  apply wp_bind, wp_require; intros _; [|done]. apply wp_bind.
  eapply wp_mono; [apply (wp_of_run _ (fun _ _ => True)); by intros|]. intros [c|e] w1 _; [|done].
  apply wp_bind, wp_lift. destruct (check_embedding c) as [[]|e]; [|done].
  apply wp_bind, wp_lift. destruct (map_ok prepare records) as [ps|e] eqn:Hps; [|done]. apply map_ok_Forall2 in Hps.
  apply wp_bind. eapply wp_mono; [apply (wp_of_run _ (fun _ _ => True)); by intros|]. intros [vectors|e] w2 _; [|done].
  apply wp_lift. intros fs Hfs. by eapply features_from_ok.
Qed.

(** ** Summaries *)

(** The excerpt stands in the redacted text of the record with that id. *)
Definition quoted (records : list RedactedRecord) (e : uuid * pystr) : Prop :=
  exists r, r ∈ records /\ rc_record_id r = e.1 /\ e.2 <> [] /\ zlen e.2 <= MAX_EXCERPT_LENGTH /\ is_in e.2 (record_text r) = true.

Lemma find_record_ok records id r : find_record records id = Some r -> r ∈ records /\ rc_record_id r = id.
Proof.
  unfold find_record. intros H'. destruct (list_find _ records) as [[i r']|] eqn:E; [|done]. injection H' as ->.
  apply list_find_Some in E as (Hi&Hid&_). split; [by eapply list_elem_of_lookup_2|done].
Qed.

Lemma parse_evidence_ok records seen raw e : parse_evidence records seen raw = Ok e -> quoted records e /\ e.1 ∉ seen.
Proof.
  unfold parse_evidence. intros He. destruct raw as [| | | | | |item]; try done. ok_steps.
  destruct (dict_get item _) as [j|]; [|done]. destruct j as [| | | |source_text| |]; try done.
  destruct (dict_get item (u "excerpt")) as [j|]; [|done]. destruct j as [| | | |excerpt| |]; try done.
  apply result_bind_ok in He as (id&_&He). ok_steps. destruct (find_record records id) as [r|] eqn:Hf; [|done].
  apply find_record_ok in Hf as [Hr Hid]. simplify_eq. btauto_hyps. split; [|done]. by eexists.
Qed.

Lemma parse_evidences_ok records evidence raws es : Forall (quoted records) evidence -> NoDup evidence.*1 ->
  parse_evidences records evidence raws = Ok es -> Forall (quoted records) es /\ NoDup es.*1 /\ length es = (length evidence + length raws)%nat.
Proof.
  revert evidence. induction raws as [|raw raws IH]; intros evidence Hq Hn He; cbn [parse_evidences] in He.
  - injection He as <-. cbn. split; [done|]. split; [done|lia].
  - apply result_bind_ok in He as (e&He1&He). apply parse_evidence_ok in He1 as [Hqe Hne].
    apply IH in He as (?&?&Hl).
    + rewrite length_app in Hl. cbn in *. split; [done|]. split; [done|lia].
    + apply Forall_app. split; [done|by constructor].
    + rewrite fmap_app. apply NoDup_app. split; [done|]. split; [|apply NoDup_singleton].
      intros x Hx ->%list_elem_of_singleton. done.
Qed.

Lemma validate_evidence_ok payload records es : validate_evidence payload records = Ok es ->
  Forall (quoted records) es /\ NoDup es.*1 /\ 1 <= zlen es <= MAX_EXCERPTS.
Proof.
  unfold validate_evidence. intros He. apply result_bind_ok in He as (decoded&_&He). destruct decoded as [| | | | | |d]; try done.
  ok_steps. destruct (dict_get d _) as [[| | | | |raws|]|]; try done. ok_steps. btauto_hyps.
  apply parse_evidences_ok in He as (?&?&Hl); [|constructor|constructor]. split; [done|]. split; [done|].
  unfold zlen in *. rewrite Hl. cbn. lia.
Qed.

(** What makes a summary one of these records. *)
Definition verbatim (records : list RedactedRecord) (s : ActivitySummary) : Prop :=
  exists es, as_text s = join 10 es.*2 /\ as_source_record_ids s = es.*1 /\ Forall (quoted records) es /\ zlen es <= MAX_EXCERPTS.

(** A provider that may see redacted text for this capability. *)
Definition trusted (capability : ModelCapability) (c : ProviderCapabilities) : Prop :=
  pv_location c = LOCAL /\ pv_available c = true /\ capability ∈ pv_capabilities c /\ accepts c REDACTED_CONTENT = true.

Lemma check_embedding_trusts c : check_embedding c = Ok tt -> trusted EMBEDDING c.
Proof. unfold check_embedding. intros Hc. ok_steps. by btauto_hyps. Qed.
Lemma check_generation_trusts c : check_generation c = Ok tt -> trusted GENERATION c.
Proof. unfold check_generation. intros Hc. ok_steps. by btauto_hyps. Qed.

Lemma summarize_ok c records w :
  wp (summarize c records) (fun r _ => forall s, r = Ok s -> verbatim records s /\ make_summary s = Ok s /\
    (forall id, id ∈ as_source_record_ids s -> id ∈ cl_source_record_ids c)) w.
Proof.
  unfold summarize. apply wp_bind, wp_lift. destruct (validate_membership c records) as [[]|e] eqn:Hm; [|done].
  assert (Hids : forall id, id ∈ rc_record_id <$> records -> id ∈ cl_source_record_ids c).
  { unfold validate_membership in Hm. ok_steps. btauto_hyps. intros id Hid.
    match goal with He : list_to_set _ = list_to_set _ |- _ => rename He into Heq end.
    apply (elem_of_list_to_set (C := gset uuid)). rewrite <- Heq. by apply elem_of_list_to_set. }
  assert (Hany : forall {A} (m : M W A) w0, wp m (fun _ _ => True) w0) by (intros; by apply wp_of_run).
  apply wp_bind. eapply wp_mono; [apply Hany|]. intros [cap|e] w1 _; [|done].
  apply wp_bind, wp_lift. destruct (check_generation cap) as [[]|e]; [|done].
  apply wp_bind, wp_lift. destruct (map_ok _ (cl_source_record_ids c)) as [ordered|e]; [|done].
  apply wp_bind, wp_require; intros _; [|done]. apply wp_bind, wp_lift. destruct (map_ok utf8_encode _) as [items|e]; [|done].
  apply wp_bind, wp_require; intros _; [|done]. apply wp_bind, wp_lift. destruct (make_generation_request _) as [request|e]; [|done].
  apply wp_bind. eapply wp_mono; [apply Hany|]. intros [response|e] w2 _; [|done].
  apply wp_bind, wp_require; intros _; [|done]. apply wp_bind, wp_lift.
  destruct (validate_evidence _ records) as [es|e] eqn:Hes; [|done]. apply validate_evidence_ok in Hes as (Hq&Hn&Hl).
  apply wp_lift. intros s Hs. pose proof (make_summary_same _ _ Hs) as ->. split; [exists es; split; [done|]; split; [done|]; split; [done|apply Hl]|]. split; [done|].
  cbn. intros id Hid. apply Hids. apply list_elem_of_fmap in Hid as (e&->&He). rewrite Forall_forall in Hq.
  destruct (Hq e He) as (r&Hr&<-&_). by apply list_elem_of_fmap_2.
Qed.

(** [untrusted_gets_nothing]: redacted text is only ever given to a local
    provider that is available and accepts it. When the provider says of itself
    that it is not such a one, deriving features and summarizing fail and
    nothing happens after it was asked for its capabilities. *)
Theorem untrusted_gets_nothing c records w :
  (forall w' caps, embedding_capabilities w = (w', Ok caps) -> ~ trusted EMBEDDING caps -> records <> [] ->
    is_ok (extract records w).2 = false /\ ((extract records w).1 = w \/ (extract records w).1 = w')) /\
  (forall w' caps, gp_capabilities summary_provider w = (w', Ok caps) -> ~ trusted GENERATION caps ->
    is_ok (summarize c records w).2 = false /\ ((summarize c records w).1 = w \/ (summarize c records w).1 = w')).
Proof.
  split; intros w' caps Hcap Ht.
  - intros Hne. unfold extract. rewrite bool_decide_false by done. unfold require, mbind, M_bind.
    destruct (negb _); [|cbn; auto]. cbn. rewrite Hcap. destruct (check_embedding caps) as [[]|e] eqn:Hck; [|cbn; auto].
    by apply check_embedding_trusts in Hck.
  - unfold summarize, mbind, M_bind, lift. destruct (validate_membership c records) as [[]|e]; [|cbn; auto].
    rewrite Hcap. destruct (check_generation caps) as [[]|e] eqn:Hck; [|cbn; auto]. by apply check_generation_trusts in Hck.
Qed.

(** C25 (summary_is_verbatim): whatever the model answers, a summary that comes
    out is made of at most sixteen excerpts, each a non-empty piece of at most
    1024 characters of the redacted text of the record it is attributed to,
    joined by line breaks; the records cited are distinct members of the
    cluster, in the order of the excerpts. *)
Theorem summary_is_verbatim c records w s :
  (summarize c records w).2 = Ok s ->
  exists es, as_text s = join 10 es.*2 /\ as_source_record_ids s = es.*1 /\ NoDup es.*1 /\ 1 <= zlen es <= MAX_EXCERPTS /\
    Forall (quoted records) es /\ (forall id, id ∈ es.*1 -> id ∈ cl_source_record_ids c).
Proof.
  intros Hs. destruct (wp_run _ _ _ _ _ (surjective_pairing _) (summarize_ok c records w) s Hs) as ((es&Ht&Hi&Hq&Hl)&Hm&Hin).
  exists es. split; [done|]. split; [done|]. rewrite Hi in Hin.
  unfold make_summary in Hm. ok_steps. unfold has_duplicates in *. btauto_hyps. rewrite Hi in *. split; [done|]. split; [|done].
  split; [|done]. destruct es; [done|]. unfold zlen. cbn. lia.
Qed.
End Providers.
