(* ===== verification/Vault.v ===== *)
(** * Vault: stored records as the daemon's services read them.

    The queries of [ports/storage.py] and [ports/encryption.py] that
    [timeline/] makes, as the class [RecordVault]; the days of a window. *)

From S2P Require Import Prelude PyStr PyData Policy Frames Storage Retrieval.

(** Candidates of a range of days, a stored envelope, its decryption. *)
Class RecordVault (W : Type) := {
  vault_candidates : DayRangeQuery -> M W (list CatalogRecord);
  vault_get : uuid -> M W (option EncryptedRecordEnvelope);
  vault_decrypt : EncryptedRecordEnvelope -> M W RedactedRecord }.

(** ** Days *)

(** [date.min] and [date.max] *)
Definition MIN_DAY : Z := days_from_civil (1, 1, 1).
Definition MAX_DAY : Z := days_from_civil (9999, 12, 31).
Definition checked_day (day : Z) : result Z :=
  _ ← throw_if (negb ((MIN_DAY <=? day) && (day <=? MAX_DAY))) OverflowError; mret day.

(** [d.astimezone(UTC).date()] *)
Definition start_day_of (d : datetime) : result Z := checked_day (utc_day d).
(** [(d.astimezone(UTC) - timedelta(microseconds=1)).date()] *)
Definition inclusive_end_day (d : datetime) : result Z :=
  _ ← checked_day (utc_day d); checked_day ((dt_utc d - 1) / us_per_day).

Definition DAY_QUERY_LIMIT : Z := 10000.
Definition one_day (day : Z) : result DayRangeQuery :=
  make_day_range {| dq_start_day := day; dq_end_day := day; dq_limit := DAY_QUERY_LIMIT |}.

(** [_MAX_SCOPE_SPAN_DAYS * _DAY] *)
Definition MAX_SPAN_DAYS : Z := 366.
Definition window_too_long (start_at end_at : datetime) : bool := MAX_SPAN_DAYS * us_per_day <? dt_utc end_at - dt_utc start_at.

Section Days.
Context {W : Type} `{RecordVault W} {A : Type}.

(** [while day <= end_day: ...; day = day + _DAY]; the body sees one day. *)
Fixpoint each_day (count : nat) (day : Z) (body : Z -> A -> M W A) (acc : A) : M W A :=
  match count with
  | O => mret acc
  | S count =>
      acc ← body day acc;
      next ← lift (checked_day (day + 1));
      each_day count next body acc
  end.
Definition for_days (start_day end_day : Z) (body : Z -> A -> M W A) (acc : A) : M W A :=
  each_day (Z.to_nat (end_day - start_day + 1)) start_day body acc.

(** [_decrypt] and [_load_survivor]: the record of an id, when it is still
    stored; [mismatch] when the decrypted record is another one. *)
Definition load_record (mismatch : exn) (id : uuid) : M W (option RedactedRecord) :=
  envelope ← vault_get id;
  match envelope with
  | None => mret None
  | Some e =>
      record ← vault_decrypt e;
      _ ← require (rc_record_id record =? id) mismatch;
      mret (Some record)
  end.
End Days.
