(* ===== verification/Scope.v ===== *)
(** * Scope: what a deletion request selects.

    Models [timeline/scope.py]: the closed scopes with their checks, and
    [DeletionScopeResolver], which turns a scope into record ids by scanning
    the stored records of the days it touches. *)

From S2P Require Import Prelude PyStr Utf8 PyFloat Json PyLib Storage PyData Codec Policy Frames Retrieval Sealed SemanticIndex Activity Vault.

Definition MAX_SCOPE_RECORDS : Z := 10000.
Definition MAX_APPLICATION_LENGTH : Z := 256.

Inductive DeletionScopeKind := SCOPE_RECORD_IDS | SCOPE_ACTIVITY_CLUSTER | SCOPE_APPLICATION | SCOPE_TIME_RANGE.
#[export] Instance DeletionScopeKind_eq_dec : EqDecision DeletionScopeKind.
Proof. solve_decision. Defined.
Definition scope_value (k : DeletionScopeKind) : pystr :=
  match k with
  | SCOPE_RECORD_IDS => u "record-ids" | SCOPE_ACTIVITY_CLUSTER => u "activity-cluster"
  | SCOPE_APPLICATION => u "application" | SCOPE_TIME_RANGE => u "time-range"
  end.

Record DeletionScope := {
  ds_kind : DeletionScopeKind;
  ds_record_ids : list uuid;
  ds_cluster_id : option pystr;
  ds_application : option pystr;
  ds_start_at : option datetime;
  ds_end_at : option datetime }.

Definition given {A} (o : option A) : bool := if o then true else false.

(** [__post_init__] *)
Definition make_scope (s : DeletionScope) : result DeletionScope :=
  _ ← match ds_kind s with
      | SCOPE_RECORD_IDS => throw_if (bool_decide (ds_record_ids s = [])) ValueError
      | SCOPE_ACTIVITY_CLUSTER => throw_if (negb (given (ds_cluster_id s))) ValueError
      | SCOPE_APPLICATION => throw_if (negb (given (ds_application s))) ValueError
      | SCOPE_TIME_RANGE => mret tt
      end;
  _ ← throw_if (negb (bool_decide (ds_kind s = SCOPE_RECORD_IDS)) && negb (bool_decide (ds_record_ids s = []))) ValueError;
  _ ← throw_if (negb (bool_decide (ds_kind s = SCOPE_ACTIVITY_CLUSTER)) && given (ds_cluster_id s)) ValueError;
  _ ← throw_if (negb (bool_decide (ds_kind s = SCOPE_APPLICATION)) && given (ds_application s)) ValueError;
  _ ← throw_if (negb (bool_decide (ds_kind s ∈ [SCOPE_APPLICATION; SCOPE_TIME_RANGE])) &&
                (given (ds_start_at s) || given (ds_end_at s))) ValueError;
  mret s.

Definition validate_scope_ids (ids : list uuid) : result unit :=
  _ ← throw_if (bool_decide (ids = [])) ValueError;
  _ ← throw_if (MAX_SCOPE_RECORDS <? zlen ids) ValueError;
  throw_if (has_duplicates ids) ValueError.
Definition validate_window (start_at end_at : datetime) : result unit :=
  _ ← throw_if (dt_utc end_at <=? dt_utc start_at) ValueError;
  throw_if (window_too_long start_at end_at) ValueError.
Definition validate_application (application : pystr) : result unit :=
  _ ← throw_if (bool_decide (application = []) || (MAX_APPLICATION_LENGTH <? zlen application)) ValueError;
  throw_if (existsb (fun c => c <? 32) application) ValueError.
(** [^[0-9a-f]{32}$], to the end *)
Definition cluster_id_ok (s : pystr) : bool :=
  (zlen s =? 32) && forallb (fun c => is_digit c || (97 <=? c) && (c <=? 102)) s.

Definition for_records (ids : list uuid) : result DeletionScope :=
  _ ← validate_scope_ids ids;
  make_scope {| ds_kind := SCOPE_RECORD_IDS; ds_record_ids := ids; ds_cluster_id := None; ds_application := None;
                ds_start_at := None; ds_end_at := None |}.
Definition for_cluster (cluster_id : pystr) : result DeletionScope :=
  _ ← throw_if (negb (cluster_id_ok cluster_id)) ValueError;
  make_scope {| ds_kind := SCOPE_ACTIVITY_CLUSTER; ds_record_ids := []; ds_cluster_id := Some cluster_id; ds_application := None;
                ds_start_at := None; ds_end_at := None |}.
Definition for_application (application : pystr) (start_at end_at : datetime) : result DeletionScope :=
  _ ← validate_window start_at end_at;
  _ ← validate_application application;
  make_scope {| ds_kind := SCOPE_APPLICATION; ds_record_ids := []; ds_cluster_id := None; ds_application := Some application;
                ds_start_at := Some start_at; ds_end_at := Some end_at |}.
Definition for_time_range (start_at end_at : datetime) : result DeletionScope :=
  _ ← validate_window start_at end_at;
  make_scope {| ds_kind := SCOPE_TIME_RANGE; ds_record_ids := []; ds_cluster_id := None; ds_application := None;
                ds_start_at := Some start_at; ds_end_at := Some end_at |}.

(** [isinstance(value, str) and value.casefold() == expected] *)
Definition application_matches (m : ContextMetadata) (expected : pystr) : bool :=
  match metadata_get m (u "application") with MStr value => bool_decide (casefold value = expected) | _ => false end.

Section ClusterId.
(** [hashlib.sha256(b).hexdigest()] *)
Variable sha256_hex : pybytes -> pystr.

(** The bytes the digest is updated with. *)
Definition cluster_bytes (e : ActivityEntry) : result pybytes :=
  fingerprint ← utf8_encode (ae_source_fingerprint e);
  mret (mjoin ((fun id => u "record:" ++ uuid_text id) <$> cl_source_record_ids (ae_cluster e)) ++
        u "started:" ++ isoformat (cl_started_at (ae_cluster e)) ++
        u "ended:" ++ isoformat (cl_ended_at (ae_cluster e)) ++ u "fingerprint:" ++ fingerprint).
Definition cluster_identifier (e : ActivityEntry) : result pystr :=
  b ← cluster_bytes e; mret (take 32 (sha256_hex b)).

(** [_resolve_cluster]'s loop *)
Fixpoint find_cluster (cluster_id : pystr) (entries : list ActivityEntry) : result (list uuid) :=
  match entries with
  | [] => Raise RuntimeError
  | e :: entries =>
      id ← cluster_identifier e;
      if bool_decide (id = cluster_id) then
        _ ← validate_scope_ids (cl_source_record_ids (ae_cluster e));
        mret (cl_source_record_ids (ae_cluster e))
      else find_cluster cluster_id entries
  end.
End ClusterId.

Section Resolver.
Context {W : Type} `{RecordVault W}.
Variable sha256_hex : pybytes -> pystr.
(** [EncryptedActivityStore.load] *)
Variable load_entries : M W (option (list ActivityEntry)).
(** [candidate_limit], checked by the constructor *)
Variable candidate_limit : Z.

Definition make_resolver : result unit :=
  throw_if (negb ((1 <=? candidate_limit) && (candidate_limit <=? MAX_SCOPE_RECORDS))) ValueError.

(** The loop of either scan over one day: the records scanned so far, and
    the ids of those that [select] takes. *)
Fixpoint scan_day (select : RedactedRecord -> bool) (cs : list CatalogRecord) (acc : Z * list uuid) : M W (Z * list uuid) :=
  match cs with
  | [] => mret acc
  | c :: cs =>
      let scanned := acc.1 + 1 in
      _ ← require (negb (candidate_limit <? scanned)) RuntimeError;
      record ← load_record RuntimeError (candidate_id c);
      match record with
      | Some r =>
          if select r then
            let selected := acc.2 ++ [rc_record_id r] in
            _ ← require (negb (candidate_limit <? zlen selected)) RuntimeError;
            scan_day select cs (scanned, selected)
          else scan_day select cs (scanned, acc.2)
      | None => scan_day select cs (scanned, acc.2)
      end
  end.

Definition scan_scope_day (select : RedactedRecord -> bool) (day : Z) (acc : Z * list uuid) : M W (Z * list uuid) :=
  query ← lift (one_day day);
  found ← vault_candidates query;
  _ ← require (negb (DAY_QUERY_LIMIT <=? zlen found)) RuntimeError;
  scan_day select found acc.

(** [async for candidate in _candidates(...)] with its body *)
Definition scan_window (select : RedactedRecord -> bool) (start_at end_at : datetime) : M W (list uuid) :=
  start_day ← lift (start_day_of start_at);
  end_day ← lift (inclusive_end_day end_at);
  acc ← for_days start_day end_day (scan_scope_day select) (0, []);
  _ ← require (negb (bool_decide (acc.2 = []))) RuntimeError;
  mret acc.2.

Definition resolve_cluster (s : DeletionScope) : M W (list uuid) :=
  match ds_cluster_id s with
  | None => raise RuntimeError
  | Some cluster_id =>
      entries ← load_entries;
      match entries with
      | None => raise RuntimeError
      | Some entries => lift (find_cluster sha256_hex cluster_id entries)
      end
  end.

Definition resolve_application (s : DeletionScope) : M W (list uuid) :=
  match ds_application s, ds_start_at s, ds_end_at s with
  | Some application, Some start_at, Some end_at =>
      let expected := casefold application in
      scan_window (fun r => application_matches (df_metadata (rc_frame r)) expected) start_at end_at
  | _, _, _ => raise RuntimeError
  end.

Definition captured_within (start_at end_at : datetime) (r : RedactedRecord) : bool :=
  (dt_utc start_at <=? dt_utc (df_captured_at (rc_frame r))) && (dt_utc (df_captured_at (rc_frame r)) <? dt_utc end_at).
Definition resolve_time_range (s : DeletionScope) : M W (list uuid) :=
  match ds_start_at s, ds_end_at s with
  | Some start_at, Some end_at => scan_window (captured_within start_at end_at) start_at end_at
  | _, _ => raise RuntimeError
  end.

Definition resolve (s : DeletionScope) : M W (list uuid) :=
  match ds_kind s with
  | SCOPE_RECORD_IDS => mret (ds_record_ids s)
  | SCOPE_ACTIVITY_CLUSTER => resolve_cluster s
  | SCOPE_APPLICATION => resolve_application s
  | SCOPE_TIME_RANGE => resolve_time_range s
  end.
End Resolver.
