(* ===== verification/ScopeFacts.v ===== *)
(** * ScopeFacts: a scope selects what it says, of the days it touches.

    Under the laws of the vault, a scan of a window of days answers exactly the
    records of those days that it is asked to select. *)

From S2P Require Import Prelude PyStr Utf8 PyFloat Json PyLib Storage PyData Codec Policy Frames Retrieval Sealed SemanticIndex Activity Vault Scope.

(** ** What the services rely on of the vault *)

(** The answer to a query of days: rows of those days, all of them below the
    limit. *)
Definition listed (m : gmap uuid (Z * RedactedRecord)) (q : DayRangeQuery) (ids : list uuid) : Prop :=
  NoDup ids /\
  (forall id, id ∈ ids -> exists d r, m !! id = Some (d, r) /\ dq_start_day q <= d <= dq_end_day q) /\
  (zlen ids < dq_limit q -> forall id d r, m !! id = Some (d, r) -> dq_start_day q <= d <= dq_end_day q -> id ∈ ids).

Class VaultLaws (W : Type) `{RecordVault W} := {
  (** the day a record is filed under, and the record *)
  contents : W -> gmap uuid (Z * RedactedRecord);
  (** no call is going to fail *)
  vault_calm : W -> Prop;
  opens : EncryptedRecordEnvelope -> RedactedRecord -> Prop;
  contents_id w id d r : contents w !! id = Some (d, r) -> rc_record_id r = id;
  candidates_law q w : wp (vault_candidates q) (fun r w' => contents w' = contents w /\
    (forall cs, r = Ok cs -> listed (contents w) q (candidate_id <$> cs)) /\
    (vault_calm w -> vault_calm w' /\ is_ok r = true)) w;
  get_law id w : wp (vault_get id) (fun r w' => contents w' = contents w /\
    (forall o, r = Ok o -> match o with
      | None => contents w !! id = None
      | Some e => exists d rec, contents w !! id = Some (d, rec) /\ opens e rec
      end) /\
    (vault_calm w -> vault_calm w' /\ is_ok r = true)) w;
  decrypt_law e rec w : opens e rec -> wp (vault_decrypt e) (fun r w' => contents w' = contents w /\
    (forall rec', r = Ok rec' -> rec' = rec) /\ (vault_calm w -> vault_calm w' /\ is_ok r = true)) w }.

Section Scan.
Context {W : Type} `{VaultLaws W}.
Implicit Types (m : gmap uuid (Z * RedactedRecord)) (w : W).

(** A call that leaves the vault as it is, and what it answers. *)
Definition reads {A} (call : M W A) (P : A -> Prop) w : Prop :=
  wp call (fun r w' => contents w' = contents w /\ (forall x, r = Ok x -> P x) /\
    (vault_calm w -> vault_calm w' /\ is_ok r = true)) w.

Lemma load_record_ok e id w : reads (load_record e id) (fun o => o = snd <$> contents w !! id) w.
Proof.
  unfold load_record, reads. apply wp_bind. eapply wp_mono; [apply get_law|]. intros [o|x] w1 (Hc&Ho&Hr); [|done].
  specialize (Ho o eq_refl). destruct o as [env|].
  2:{ apply wp_ret. split; [done|]. split; [intros y [= <-]; by rewrite Ho|]. intros Hcalm. by destruct (Hr Hcalm). }
  destruct Ho as (d&rec&Hm&Hop). apply wp_bind. eapply wp_mono; [by apply (decrypt_law _ rec)|].
  intros r w2 (Hc2&Hrec&Hr2). assert (Hcalm : vault_calm w -> vault_calm w2 /\ is_ok r = true).
  { intros Hcalm. apply Hr2. by apply Hr. }
  rewrite <- Hc in Hm. pose proof (contents_id _ _ _ _ Hm) as Hid. destruct r as [rec'|x].
  2:{ split; [congruence|]. split; [done|]. intros Hx. by destruct (Hcalm Hx). }
  rewrite (Hrec rec' eq_refl), Hid. rewrite Z.eqb_refl. apply wp_bind, wp_require; intros Ht; [|done].
  apply wp_ret. split; [congruence|]. rewrite <- Hc, Hm. split; [by intros y [= <-]|]. intros Hx. by destruct (Hcalm Hx).
Qed.

Variable select : RedactedRecord -> bool.
Variable candidate_limit : Z.
Local Abbreviation scan_day := (scan_day candidate_limit select).
Local Abbreviation scan_scope_day := (scan_scope_day candidate_limit select).

(** The ids whose record is selected. *)
Definition takes m (id : uuid) : bool := match m !! id with Some (_, r) => select r | None => false end.
Definition chosen m (ids : list uuid) : list uuid := filter (fun id => takes m id = true) ids.

Lemma chosen_one m id : chosen m [id] = if takes m id then [id] else [].
Proof. unfold chosen. rewrite filter_cons, filter_nil. destruct (takes m id); [by rewrite decide_True|by rewrite decide_False]. Qed.
Lemma chosen_app m ids ids' : chosen m (ids ++ ids') = chosen m ids ++ chosen m ids'.
Proof. apply filter_app. Qed.

Lemma scan_day_ok cs acc w : zlen acc.2 <= acc.1 ->
  wp (scan_day cs acc) (fun r w' => contents w' = contents w /\
    (forall acc', r = Ok acc' -> acc' = (acc.1 + zlen cs, acc.2 ++ chosen (contents w) (candidate_id <$> cs)) /\ zlen acc'.2 <= acc'.1 <= Z.max acc.1 candidate_limit) /\
    (vault_calm w -> vault_calm w' /\ (acc.1 + zlen cs <= candidate_limit -> is_ok r = true))) w.
Proof.
  revert acc w. induction cs as [|c cs IH]; intros [n l] w Hl; cbn [fst snd] in *; cbn [Scope.scan_day].
  { apply wp_ret. split; [done|]. split; [|done]. intros acc' [= <-]. unfold zlen at 1. cbn. rewrite Z.add_0_r, app_nil_r. split; [done|]. cbn. lia. }
  assert (Hz : zlen (c :: cs) = 1 + zlen cs) by (unfold zlen; cbn; lia). pose proof (zlen_nonneg cs) as Hnn.
  apply wp_bind, wp_require; intros Hlim; btauto_hyps.
  2:{ split; [done|]. split; [done|]. intros Hcalm. split; [done|]. intros Hle. rewrite Hz in Hle. cbn in *. lia. }
  cbn [fst snd] in *. apply wp_bind. eapply wp_mono; [apply load_record_ok|]. intros [o|x] w1 (Hc&Ho&Hr).
  2:{ split; [done|]. split; [done|]. intros Hcalm. by destruct (Hr Hcalm). }
  specialize (Ho o eq_refl).
  (* the rest of the loop, from what this record adds *)
  assert (Hstep : forall l', l' = l ++ chosen (contents w) [candidate_id c] ->
    wp (scan_day cs (n + 1, l')) (fun r w' => contents w' = contents w /\
      (forall acc', r = Ok acc' -> acc' = (n + zlen (c :: cs), l ++ chosen (contents w) (candidate_id <$> c :: cs)) /\ zlen acc'.2 <= acc'.1 <= Z.max n candidate_limit) /\
      (vault_calm w -> vault_calm w' /\ (n + zlen (c :: cs) <= candidate_limit -> is_ok r = true))) w1).
  { intros l' El. assert (Hl' : zlen l' <= n + 1).
    { rewrite El, zlen_app, chosen_one. destruct (takes _ _); unfold zlen in *; cbn; lia. }
    eapply wp_mono; [by apply (IH (n + 1, l') w1)|]. cbn [fst snd]. intros r w' (Hc'&Hr'&Hcalm'). split; [congruence|]. split.
    - intros acc' Hacc. destruct (Hr' acc' Hacc) as [-> Hb]. cbn [fst snd] in *. split; [|lia]. f_equal; [rewrite Hz; lia|].
      rewrite El, Hc, <- (assoc_L (++)). f_equal. by rewrite fmap_cons, <- chosen_app.
    - intros Hcalm. destruct (Hr Hcalm) as [Hcalm1 _]. destruct (Hcalm' Hcalm1) as [? Hok]. split; [done|]. intros Hle. apply Hok. lia. }
  rewrite chosen_one in Hstep. unfold takes in Hstep.
  destruct (contents w !! candidate_id c) as [[d rec]|] eqn:Em; cbn in Ho; subst o; [|apply Hstep; by rewrite app_nil_r].
  destruct (select rec); [|apply Hstep; by rewrite app_nil_r].
  rewrite (contents_id _ _ _ _ Em). apply wp_bind, wp_require; intros Hs; [by apply Hstep|].
  apply negb_false_iff, Z.ltb_lt in Hs. rewrite zlen_app in Hs. unfold zlen in Hs at 2. cbn in Hs. lia.
Qed.

(** The ids filed under the days from [start] up to [day], that day excluded. *)
Definition filed m (start day : Z) (ids : list uuid) : Prop :=
  NoDup ids /\ forall id, id ∈ ids <-> exists d r, m !! id = Some (d, r) /\ start <= d < day.
Definition scanned m (start day : Z) (acc : Z * list uuid) : Prop :=
  exists ids, filed m start day ids /\ acc = (zlen ids, chosen m ids).

(** The records filed under the days of a window. *)
Definition filed_in m (start end_day : Z) : gmap uuid (Z * RedactedRecord) := filter (fun kv => start <= kv.2.1 <= end_day) m.

Lemma filed_in_size m start end_day ids : NoDup ids ->
  (forall id, id ∈ ids -> exists d r, m !! id = Some (d, r) /\ start <= d <= end_day) -> zlen ids <= Z.of_nat (size (filed_in m start end_day)).
Proof.
  intros Hn Hi. unfold zlen. apply inj_le. rewrite <- (size_list_to_set (C := gset uuid) ids Hn), <- (size_dom (D := gset uuid)).
  apply subseteq_size. intros id Hid%elem_of_list_to_set. apply Hi in Hid as (d&r&Hm&Hr). apply elem_of_dom. exists (d, r).
  by apply map_lookup_filter_Some.
Qed.

(** The days hold no more records than a scan may look at. *)
Definition fits m (start end_day : Z) : Prop :=
  Z.of_nat (size (filed_in m start end_day)) <= Z.min candidate_limit (DAY_QUERY_LIMIT - 1).

Lemma filed_fits m start day end_day ids : filed m start day ids -> day <= end_day + 1 -> fits m start end_day ->
  zlen ids <= candidate_limit /\ zlen ids < DAY_QUERY_LIMIT.
Proof.
  intros [Hn Hi] Hd Hf. unfold fits in Hf. enough (zlen ids <= Z.of_nat (size (filed_in m start end_day))) by lia.
  apply filed_in_size; [done|]. intros id Hid. apply Hi in Hid as (d&r&Hm&?). exists d, r. split; [done|lia].
Qed.

Lemma filed_next m start day ids found query : filed m start day ids -> start <= day -> one_day day = Ok query ->
  listed m query found -> zlen found < DAY_QUERY_LIMIT -> filed m start (day + 1) (ids ++ found).
Proof.
  intros [Hn Hi] Hsd Hq (Hn'&Hin&Hall) Hlt. unfold one_day, make_day_range in Hq. ok_steps. cbn in Hin, Hall. split.
  - apply NoDup_app. split; [done|]. split; [|done]. intros id Hid Hid'. apply Hi in Hid as (d&r&Hm&?).
    destruct (Hin id Hid') as (d'&r'&Hm'&?). rewrite Hm in Hm'. injection Hm' as <- <-. lia.
  - intros id. rewrite elem_of_app. split.
    + intros [Hid|Hid]; [apply Hi in Hid as (d&r&Hm&?)|destruct (Hin id Hid) as (d&r&Hm&?)]; exists d, r; (split; [done|lia]).
    + intros (d&r&Hm&?). destruct (decide (d = day)) as [->|]; [right|left].
      * apply (Hall Hlt id day r Hm). lia.
      * apply Hi. exists d, r. split; [done|lia].
Qed.

Lemma one_day_ok day : exists q, one_day day = Ok q /\ dq_limit q = DAY_QUERY_LIMIT.
Proof.
  unfold one_day, make_day_range. cbn [dq_start_day dq_end_day dq_limit]. rewrite Z.ltb_irrefl. eexists. split; [reflexivity|done].
Qed.

Lemma scan_scope_day_ok start end_day day acc w : scanned (contents w) start day acc -> start <= day <= end_day ->
  wp (scan_scope_day day acc) (fun r w' => contents w' = contents w /\
    (forall acc', r = Ok acc' -> scanned (contents w) start (day + 1) acc') /\
    (vault_calm w -> vault_calm w' /\ (fits (contents w) start end_day -> is_ok r = true))) w.
Proof.
  intros (ids&Hids&->) Hd. unfold Scope.scan_scope_day. destruct (one_day_ok day) as (q&Hq&Hlim). apply wp_bind, wp_lift. rewrite Hq.
  apply wp_bind. eapply wp_mono; [apply candidates_law|]. intros [found|x] w1 (Hc&Hl&Hr).
  2:{ split; [done|]. split; [done|]. intros Hcalm. by destruct (Hr Hcalm). }
  specialize (Hl found eq_refl). set (new := candidate_id <$> found) in *.
  assert (Hz : zlen new = zlen found) by (unfold zlen, new; by rewrite length_fmap).
  assert (Hnew : fits (contents w) start end_day -> zlen found < DAY_QUERY_LIMIT).
  { intros Hf. destruct Hl as (Hn&Hin&_). rewrite <- Hz. unfold fits in Hf.
    enough (zlen new <= Z.of_nat (size (filed_in (contents w) start end_day))) by lia. apply filed_in_size; [done|].
    intros id Hid. destruct (Hin id Hid) as (d&r&Hm&Hr'). exists d, r. split; [done|].
    unfold one_day, make_day_range in Hq. ok_steps. cbn in Hr'. lia. }
  apply wp_bind, wp_require; intros Hlt; btauto_hyps.
  2:{ split; [done|]. split; [done|]. intros Hcalm. split; [by apply Hr|]. intros Hf. apply Hnew in Hf. lia. }
  assert (Hfiled : filed (contents w) start (day + 1) (ids ++ new)) by (eapply filed_next; [done|lia|done|done|by rewrite Hz]).
  eapply wp_mono; [apply (scan_day_ok found (zlen ids, chosen (contents w) ids) w1)|].
  - cbn. unfold chosen, zlen. pose proof (length_filter (fun id => takes (contents w) id = true) ids). lia.
  - cbn [fst snd]. intros r w2 (Hc2&Hr2&Hcalm2). split; [congruence|]. split.
    + intros acc' Hacc. destruct (Hr2 acc' Hacc) as [-> _]. exists (ids ++ new). split; [done|].
      rewrite Hc, chosen_app. fold new. f_equal. rewrite zlen_app, Hz. done.
    + intros Hcalm. destruct (Hr Hcalm) as [H1 _]. destruct (Hcalm2 H1) as [? Hok]. split; [done|]. intros Hf. apply Hok.
      destruct (filed_fits _ _ _ end_day _ Hfiled) as [Hle _]; [lia|done|]. rewrite zlen_app, Hz in Hle. lia.
Qed.

Lemma for_days_ok start end_day w : start <= end_day + 1 ->
  wp (for_days start end_day scan_scope_day (0, [])) (fun r w' => contents w' = contents w /\
    (forall acc, r = Ok acc -> scanned (contents w) start (end_day + 1) acc) /\
    (vault_calm w -> vault_calm w' /\ (fits (contents w) start end_day -> MIN_DAY <= start -> end_day < MAX_DAY -> is_ok r = true))) w.
Proof.
  intros Hle. unfold for_days. set (n := Z.to_nat (end_day - start + 1)). 
  assert (Hgen : forall n day acc w0, contents w0 = contents w -> scanned (contents w) start day acc -> start <= day ->
    end_day + 1 = day + Z.of_nat n ->
    wp (each_day n day scan_scope_day acc) (fun r w' => contents w' = contents w /\
      (forall acc, r = Ok acc -> scanned (contents w) start (end_day + 1) acc) /\
      (vault_calm w0 -> vault_calm w' /\ (fits (contents w) start end_day -> MIN_DAY <= start -> end_day < MAX_DAY -> is_ok r = true))) w0).
  { clear n. intros n. induction n as [|n IH]; intros day acc w0 Hc Hs Hd Hend; cbn [each_day].
    - apply wp_ret. split; [done|]. split; [|done]. intros acc' [= <-]. by replace (end_day + 1) with day by lia.
    - apply wp_bind. rewrite <- Hc in Hs. eapply wp_mono; [apply (scan_scope_day_ok start end_day); [exact Hs|lia]|].
      rewrite Hc. intros [acc1|x] w1 (Hc1&Hs1&Hr1).
      2:{ split; [done|]. split; [done|]. intros Hcalm. destruct (Hr1 Hcalm) as [? Hok]. split; [done|]. intros Hf _ _. by apply Hok. }
      apply wp_bind, wp_lift. unfold checked_day. destruct ((MIN_DAY <=? day + 1) && (day + 1 <=? MAX_DAY)) eqn:Er; cbn [negb throw_if].
      + eapply wp_mono; [apply (IH (day + 1) acc1 w1 Hc1 (Hs1 _ eq_refl)); lia|]. intros r w2 (Hc2&Hs2&Hr2). split; [done|]. split; [done|].
        intros Hcalm. apply Hr2. by apply Hr1.
      + split; [done|]. split; [done|]. intros Hcalm. split; [by apply Hr1|]. intros _ H1 H2.
        apply andb_false_iff in Er as [Er|Er]; btauto_hyps; lia. }
  apply Hgen; [done| |lia|lia]. exists []. split; [|done]. split; [constructor|]. intros id. rewrite elem_of_nil. split; [done|].
  intros (d&r&_&?). lia.
Qed.

(** A scan of a window: the selected records of the days it touches. *)
Lemma scan_window_ok start_at end_at w : dt_utc start_at < dt_utc end_at ->
  wp (scan_window candidate_limit select start_at end_at) (fun r w' => contents w' = contents w /\
    (forall ids, r = Ok ids -> NoDup ids /\ ids <> [] /\
      forall id, id ∈ ids <-> exists d rec, contents w !! id = Some (d, rec) /\ select rec = true /\
        utc_day start_at <= d <= (dt_utc end_at - 1) / us_per_day) /\
    (vault_calm w -> fits (contents w) (utc_day start_at) ((dt_utc end_at - 1) / us_per_day) ->
      MIN_DAY <= utc_day start_at -> utc_day end_at < MAX_DAY ->
      (exists id d rec, contents w !! id = Some (d, rec) /\ select rec = true /\
        utc_day start_at <= d <= (dt_utc end_at - 1) / us_per_day) -> vault_calm w' /\ is_ok r = true)) w.
Proof.
  intros Hlt. set (s := utc_day start_at). set (e := (dt_utc end_at - 1) / us_per_day).
  assert (Hse : s <= e) by (apply Z.div_le_mono; [done|lia]).
  assert (Hee : e <= utc_day end_at) by (apply Z.div_le_mono; [done|lia]).
  unfold scan_window, start_day_of, inclusive_end_day, checked_day. fold s e.
  assert (Hbad : forall x : exn, (MIN_DAY <= s -> utc_day end_at < MAX_DAY -> False) ->
    contents w = contents w /\ (forall ids, Raise x = Ok ids -> NoDup ids /\ ids <> [] /\
      forall id, id ∈ ids <-> exists d rec, contents w !! id = Some (d, rec) /\ select rec = true /\ s <= d <= e) /\
    (vault_calm w -> fits (contents w) s e -> MIN_DAY <= s -> utc_day end_at < MAX_DAY ->
      (exists id d rec, contents w !! id = Some (d, rec) /\ select rec = true /\ s <= d <= e) -> vault_calm w /\ is_ok (Raise x : result (list uuid)) = true)).
  { intros x Hx. split; [done|]. split; [done|]. intros _ _ H1 H2. by destruct (Hx H1 H2). }
  apply wp_bind, wp_lift. destruct ((MIN_DAY <=? s) && _) eqn:E1; cbn [negb throw_if mbind result_bind];
    [|apply Hbad; intros ? ?; apply andb_false_iff in E1 as [E1|E1]; btauto_hyps; lia].
  apply wp_bind, wp_lift. destruct ((MIN_DAY <=? utc_day end_at) && _) eqn:E2; cbn [negb throw_if mbind result_bind];
    [|apply Hbad; intros ? ?; apply andb_false_iff in E2 as [E2|E2]; btauto_hyps; lia].
  destruct ((MIN_DAY <=? e) && _) eqn:E3; cbn [negb throw_if mbind result_bind];
    [|apply Hbad; intros ? ?; apply andb_false_iff in E3 as [E3|E3]; btauto_hyps; lia].
  apply wp_bind. eapply wp_mono; [apply (for_days_ok s e w); lia|]. intros [acc|x] w1 (Hc&Hs&Hr).
  2:{ split; [done|]. split; [done|]. intros Hcalm Hf H1 H2 _. destruct (Hr Hcalm) as [_ Hok]. by discriminate Hok; try done; lia. }
  destruct (Hs acc eq_refl) as (ids&[Hn Hi]&->). cbn [snd].
  assert (Hin : forall id, id ∈ chosen (contents w) ids <-> exists d rec, contents w !! id = Some (d, rec) /\ select rec = true /\ s <= d <= e).
  { intros id. unfold chosen. rewrite list_elem_of_filter, Hi. unfold takes. split.
    - intros (Ht&d&rec&Hm&Hd). rewrite Hm in Ht. exists d, rec. split; [done|]. split; [done|lia].
    - intros (d&rec&Hm&Ht&Hd). rewrite Hm. split; [done|]. exists d, rec. split; [done|lia]. }
  apply wp_bind, wp_require; intros He; btauto_hyps.
  - apply wp_ret. split; [done|]. split; [intros l [= <-]; split; [by apply NoDup_filter|done]|]. intros Hcalm _ _ _ _. split; [by apply Hr|done].
  - split; [done|]. split; [done|]. intros _ _ _ _ (id&Hx). apply Hin in Hx. rewrite He in Hx. by apply not_elem_of_nil in Hx.
Qed.
End Scan.

(** ** The scopes *)

Lemma make_scope_same s s' : make_scope s = Ok s' -> s' = s.
Proof. unfold make_scope. intros H. by ok_steps. Qed.

Lemma for_time_range_ok start_at end_at s : for_time_range start_at end_at = Ok s ->
  dt_utc start_at < dt_utc end_at <= dt_utc start_at + MAX_SPAN_DAYS * us_per_day /\
  ds_kind s = SCOPE_TIME_RANGE /\ ds_start_at s = Some start_at /\ ds_end_at s = Some end_at.
Proof.
  unfold for_time_range, validate_window, window_too_long. intros H. ok_steps.
  match goal with H : make_scope _ = _ |- _ => apply make_scope_same in H as -> end. cbn [ds_kind ds_start_at ds_end_at]. btauto_hyps.
  split; [lia|done].
Qed.

Lemma for_application_ok application start_at end_at s : for_application application start_at end_at = Ok s ->
  dt_utc start_at < dt_utc end_at <= dt_utc start_at + MAX_SPAN_DAYS * us_per_day /\
  ds_kind s = SCOPE_APPLICATION /\ ds_start_at s = Some start_at /\ ds_end_at s = Some end_at /\ ds_application s = Some application.
Proof.
  unfold for_application, validate_window, window_too_long. intros H. ok_steps.
  match goal with H : make_scope _ = _ |- _ => apply make_scope_same in H as -> end. cbn [ds_kind ds_start_at ds_end_at ds_application]. btauto_hyps.
  split; [lia|done].
Qed.

Section Scopes.
Context {W : Type} `{VaultLaws W}.
Variable sha256_hex : pybytes -> pystr.
Variable load_entries : M W (option (list ActivityEntry)).
Variable candidate_limit : Z.
Local Abbreviation resolve := (resolve sha256_hex load_entries candidate_limit).

(** What a window scope asks of a record. *)
Definition asked (s : DeletionScope) (rec : RedactedRecord) : Prop :=
  match ds_application s, ds_start_at s, ds_end_at s with
  | Some application, _, _ => exists value, metadata_get (df_metadata (rc_frame rec)) (u "application") = MStr value /\ casefold value = casefold application
  | None, Some start_at, Some end_at => dt_utc start_at <= dt_utc (df_captured_at (rc_frame rec)) < dt_utc end_at
  | _, _, _ => False
  end.
(** The record is filed under a day the window touches. *)
Definition day_touched (start_at end_at : datetime) (d : Z) : Prop := utc_day start_at <= d <= (dt_utc end_at - 1) / us_per_day.

Definition selection (s : DeletionScope) (start_at end_at : datetime) (m : gmap uuid (Z * RedactedRecord)) (id : uuid) : Prop :=
  exists d rec, m !! id = Some (d, rec) /\ asked s rec /\ day_touched start_at end_at d.

Lemma application_matches_ok m expected : application_matches m expected = true <->
  exists value, metadata_get m (u "application") = MStr value /\ casefold value = expected.
Proof.
  unfold application_matches. destruct (metadata_get m (u "application")) as [v|n|v|b|]; try (split; [done|by intros (?&?&_)]).
  rewrite bool_decide_eq_true. split; [intros <-; by exists v|by intros (?&[= <-]&?)].
Qed.

Lemma captured_within_ok start_at end_at rec : captured_within start_at end_at rec = true <->
  dt_utc start_at <= dt_utc (df_captured_at (rc_frame rec)) < dt_utc end_at.
Proof. unfold captured_within. by rewrite andb_true_iff, Z.leb_le, Z.ltb_lt. Qed.

Lemma resolve_window s start_at end_at select w :
  resolve s = scan_window candidate_limit select start_at end_at -> (forall rec, select rec = true <-> asked s rec) ->
  dt_utc start_at < dt_utc end_at ->
  wp (resolve s) (fun r w' => contents w' = contents w /\
    (forall ids, r = Ok ids -> NoDup ids /\ ids <> [] /\ forall id, id ∈ ids <-> selection s start_at end_at (contents w) id) /\
    (vault_calm w -> fits candidate_limit (contents w) (utc_day start_at) ((dt_utc end_at - 1) / us_per_day) ->
      MIN_DAY <= utc_day start_at -> utc_day end_at < MAX_DAY ->
      (exists id, selection s start_at end_at (contents w) id) -> is_ok r = true)) w.
Proof.
  intros -> Hsel Hlt. eapply wp_mono; [by apply (scan_window_ok select candidate_limit)|].
  intros r w' (Hc&Hids&Hlive). split; [done|].
  assert (Hiff : forall id, (exists d rec, contents w !! id = Some (d, rec) /\ select rec = true /\
      utc_day start_at <= d <= (dt_utc end_at - 1) / us_per_day) <-> selection s start_at end_at (contents w) id).
  { intros id. unfold selection, day_touched. by setoid_rewrite Hsel. }
  split; [|intros Hcalm Hf H1 H2 (id&Hid); apply Hlive; [done..|]; exists id; by apply Hiff].
  intros ids Hr. destruct (Hids ids Hr) as (?&?&Hin). split; [done|]. split; [done|]. intros id. by rewrite Hin.
Qed.

(** C22 (window_scope_selects): a time-range scope (its window at most 366 days
    long) resolves to distinct ids, exactly those of the stored records
    captured in the window (from its start, before its end) that are filed
    under a day the window touches; an application scope to those whose
    application is the given one up to case, filed under such a day. Nothing
    is changed; an empty selection is refused.  A non-empty one is answered
    where no call fails, the days of the window hold no more records than the
    candidate and day limits allow, and the window lies within the days the
    calendar can name; otherwise the scope may fail closed, never answer a
    part of the selection. *)
Theorem window_scope_selects application start_at end_at s w w' r :
  match application with
  | None => for_time_range start_at end_at
  | Some application => for_application application start_at end_at
  end = Ok s -> resolve s w = (w', r) ->
  contents w' = contents w /\
  (forall ids, r = Ok ids -> NoDup ids /\ ids <> [] /\ forall id, id ∈ ids <-> selection s start_at end_at (contents w) id) /\
  (vault_calm w -> fits candidate_limit (contents w) (utc_day start_at) ((dt_utc end_at - 1) / us_per_day) ->
    MIN_DAY <= utc_day start_at -> utc_day end_at < MAX_DAY ->
    (exists id, selection s start_at end_at (contents w) id) -> is_ok r = true).
Proof.
  intros Hs Hrun. destruct application as [application|].
  - apply for_application_ok in Hs as ([Hlt _]&Hk&Hst&Hen&Hap).
    refine (wp_run _ _ _ _ _ Hrun (resolve_window s start_at end_at _ w _ _ Hlt)).
    + unfold Scope.resolve, resolve_application. rewrite Hk, Hap, Hst, Hen. reflexivity.
    + intros rec. unfold asked. rewrite Hap. apply application_matches_ok.
  - pose proof Hs as Hs'. apply for_time_range_ok in Hs as ([Hlt _]&Hk&Hst&Hen).
    assert (ds_application s = None) as Hap.
    { unfold for_time_range in Hs'. ok_steps. match goal with H : make_scope _ = _ |- _ => by apply make_scope_same in H as -> end. }
    refine (wp_run _ _ _ _ _ Hrun (resolve_window s start_at end_at _ w _ _ Hlt)).
    + unfold Scope.resolve, resolve_time_range. rewrite Hk, Hst, Hen. reflexivity.
    + intros rec. unfold asked. rewrite Hap, Hst, Hen. apply captured_within_ok.
Qed.
End Scopes.

(** ** A vault of given rows

    Each row: the day a record is filed under, and the record. *)

Section RowVault.
Variable rows : list (Z * RedactedRecord).

Definition row_id (row : Z * RedactedRecord) : uuid := rc_record_id row.2.
Definition row_envelope (row : Z * RedactedRecord) : EncryptedRecordEnvelope :=
  {| env_record_id := row_id row; env_generation := 1; env_configuration_revision := []; env_schema_version := 1;
     env_algorithm := []; env_key := {| key_id := u "k1"; key_provider_id := u "keyring"; key_version := 1 |};
     env_plaintext_frame_sizes := []; env_wrapped_data_key := []; env_nonce := []; env_ciphertext := [];
     env_associated_data_digest := []; env_created_at := rc_created_at row.2 |}.
Definition find_row (id : uuid) : option (Z * RedactedRecord) := snd <$> list_find (fun row => row_id row = id) rows.
Definition row_candidate (row : Z * RedactedRecord) : CatalogRecord :=
  {| cr_record := {| ref_record_id := row_id row; ref_storage_id := []; ref_schema_version := 1 |};
     cr_day_bucket := row.1; cr_blob_bytes := 0; cr_key := env_key (row_envelope row) |}.

#[local] Instance row_vault : RecordVault unit := {
  vault_candidates q := mret (take (Z.to_nat (dq_limit q))
    (row_candidate <$> filter (fun row => dq_start_day q <= row.1 <= dq_end_day q) rows));
  vault_get id := mret (row_envelope <$> find_row id);
  vault_decrypt e := match find_row (env_record_id e) with Some row => mret row.2 | None => raise ValueError end }.

Hypothesis rows_unique : NoDup (row_id <$> rows).
Definition row_map : gmap uuid (Z * RedactedRecord) := list_to_map ((fun row => (row_id row, row)) <$> rows).

Lemma row_map_in id row : row_map !! id = Some row <-> row ∈ rows /\ row_id row = id.
Proof.
  unfold row_map. rewrite <- elem_of_list_to_map.
  - rewrite list_elem_of_fmap. split; [intros (?&[= -> ->]&?); done|]. intros [? <-]. by exists row.
  - by rewrite <- list_fmap_compose.
Qed.

Lemma find_row_map id : find_row id = row_map !! id.
Proof.
  unfold find_row. destruct (list_find _ rows) as [[i row]|] eqn:E; cbn.
  - apply list_find_Some in E as (Hi&Hid&_). symmetry. apply row_map_in. split; [by eapply list_elem_of_lookup_2|done].
  - symmetry. apply eq_None_not_Some. intros [row [Hr Hid]%row_map_in]. apply list_find_None in E.
    rewrite Forall_forall in E. by apply (E row Hr).
Qed.

Lemma row_listed q : listed row_map q (candidate_id <$> take (Z.to_nat (dq_limit q))
  (row_candidate <$> filter (fun row => dq_start_day q <= row.1 <= dq_end_day q) rows)).
Proof.
  rewrite fmap_take, <- list_fmap_compose. change (candidate_id ∘ row_candidate) with row_id. set (found := filter _ rows).
  assert (Hf : forall id, id ∈ row_id <$> found <-> exists d r, row_map !! id = Some (d, r) /\ dq_start_day q <= d <= dq_end_day q).
  { intros id. rewrite list_elem_of_fmap. split.
    - intros ([d r]&->&[Hd Hr]%list_elem_of_filter). exists d, r. split; [by apply row_map_in|done].
    - intros (d&r&[Hr Hid]%row_map_in&Hd). exists (d, r). split; [done|]. by apply list_elem_of_filter. }
  assert (Hn : NoDup (row_id <$> found)).
  { eapply sublist_NoDup; [exact rows_unique|]. apply fmap_sublist, sublist_filter. }
  split; [eapply sublist_NoDup; [exact Hn|apply sublist_take]|]. split.
  - intros id Hid. apply Hf. apply list_elem_of_lookup in Hid as [i Hi]. apply lookup_take_Some in Hi as [Hi _]. by eapply list_elem_of_lookup_2.
  - intros Hlt id d r Hm Hd. assert (Hall : take (Z.to_nat (dq_limit q)) (row_id <$> found) = row_id <$> found).
    { apply take_ge. unfold zlen in Hlt. rewrite length_take in Hlt. lia. }
    rewrite Hall. apply Hf. by exists d, r.
Qed.

#[local, refine] Instance row_vault_laws : VaultLaws unit := {
  contents _ := row_map;
  vault_calm _ := True;
  opens e rec := exists d, find_row (env_record_id e) = Some (d, rec) }.
Proof.
  - by intros _ id d r [_ <-]%row_map_in.
  - intros q w. apply wp_ret. split; [done|]. split; [|done]. intros cs [= <-]. apply row_listed.
  - intros id w. apply wp_ret. split; [done|]. split; [|done]. intros o [= <-]. rewrite find_row_map.
    destruct (row_map !! id) as [[d rec]|] eqn:E; [|done]. cbn. exists d, rec. split; [done|]. exists d.
    rewrite find_row_map. apply row_map_in in E as [Hr Hid]. apply row_map_in. by split.
  - intros e rec w [d Hd]. cbn. rewrite Hd. apply wp_ret. split; [done|]. split; [by intros ? [= <-]|done].
Defined.
End RowVault.

(** Two editor records of the morning and of noon, and one captured just before
    midnight that was encrypted, and therefore filed, just after. *)
Definition scope_time (hours minutes : Z) : datetime := {| dt_wall := 19782 * us_per_day + (hours * 60 + minutes) * 60000000; dt_offset := 0 |}.
Definition scope_record (n : Z) (app : string) (captured created : datetime) : RedactedRecord :=
  {| rc_record_id := n;
     rc_frame := {| df_frame_id := n; df_generation := 1; df_captured_at := captured;
                    df_width := 1; df_height := 1; df_stride := 1; df_pixel_format := GRAY8; df_pixels := [0];
                    df_metadata := {| cm_observed_at := captured;
                      cm_fields := [{| cf_name := u "application"; cf_value := MStr (u app);
                        cf_provenance := [{| mp_source_id := u "xorg"; mp_observed_at := captured;
                          mp_confidence := dec 9 1; mp_adapter_revision := None |}] |}] |};
                    df_ocr_text := [u "text"]; df_findings := 0; df_policy_revision := u "redact-1" |};
     rc_created_at := created |}.
Definition scope_row (r : RedactedRecord) : Z * RedactedRecord := (utc_day (rc_created_at r), r).
Definition scope_rows : list (Z * RedactedRecord) :=
  [scope_row (scope_record 1 "Editor" (scope_time 10 0) (scope_time 10 0));
   scope_row (scope_record 2 "editor" (scope_time 12 0) (scope_time 12 0));
   scope_row (scope_record 3 "browser" (scope_time 23 59) (scope_time 24 1))].

Lemma scope_rows_unique : NoDup (row_id <$> scope_rows).
Proof. decide_true. Qed.

Definition resolve_rows (s : result DeletionScope) : result (list uuid) :=
  match s with
  | Ok s => (resolve (H := row_vault scope_rows) id (mret None) 100 s tt).2
  | Raise e => Raise e
  end.

(** The whole day after ten: the records of noon and of the last minute were
    captured in it, only the first is selected. *)
Example late_record_is_missed :
  resolve_rows (for_time_range (scope_time 11 0) (scope_time 24 0)) = Ok [2] /\
  captured_within (scope_time 11 0) (scope_time 24 0) (scope_record 3 "browser" (scope_time 23 59) (scope_time 24 1)) = true.
Proof. vm_compute. split; reflexivity. Qed.

(** The editor's records from eleven to one: the one of ten is selected too. *)
Example application_scope_exceeds_bounds :
  resolve_rows (for_application (u "editor") (scope_time 11 0) (scope_time 13 0)) = Ok [1; 2] /\
  captured_within (scope_time 11 0) (scope_time 13 0) (scope_record 1 "Editor" (scope_time 10 0) (scope_time 10 0)) = false.
Proof. vm_compute. split; reflexivity. Qed.

Example scopes_refused :
  is_ok (for_time_range (scope_time 11 0) (scope_time 11 0)) = false /\
  is_ok (for_application (u "") (scope_time 11 0) (scope_time 12 0)) = false /\
  resolve_rows (for_time_range (scope_time 1 0) (scope_time 2 0)) = Raise RuntimeError.
Proof. vm_compute. repeat split. Qed.

Definition witness_scope : DeletionScope :=
  {| ds_kind := SCOPE_TIME_RANGE; ds_record_ids := []; ds_cluster_id := None; ds_application := None;
     ds_start_at := Some (scope_time 11 0); ds_end_at := Some (scope_time 24 0) |}.
Lemma window_scope_selects_witness :
  for_time_range (scope_time 11 0) (scope_time 24 0) = Ok witness_scope /\
  selection witness_scope (scope_time 11 0) (scope_time 24 0) (row_map scope_rows) 2.
Proof.
  split; [reflexivity|].
  assert (Hrun : resolve (H := row_vault scope_rows) id (mret None) 100 witness_scope tt = (tt, Ok [2])) by (vm_compute; reflexivity).
  apply (proj2 (proj2 (proj1 (proj2 (window_scope_selects (H0 := row_vault_laws scope_rows scope_rows_unique) id (mret None) 100
    None (scope_time 11 0) (scope_time 24 0) witness_scope tt tt _ eq_refl Hrun)) [2] eq_refl))). constructor.
Defined.
