(* ===== verification/Reconcile.v ===== *)
(** * Reconcile: the activity snapshot rebuilt from records.

    Models [activity/reconcile.py] (clusters of the given records, summaries
    kept where the sources are unchanged) and
    [timeline/activity_rebuild.py] (the records that survive a deletion).
    Each runs under its lock, so a call is one step. *)

From stdpp Require Import sorting.
From S2P Require Import Prelude PyStr Utf8 PyFloat Json PyLib Storage PyData Codec Policy Frames Adaptive Egress Answering Retrieval Sealed SemanticIndex Activity Summaries Vault.

(** ** The source fingerprint *)

(** A character of [json.dumps(..., ensure_ascii=False)]. *)
Definition escape_text_char (c : Z) : pystr :=
  if c =? 34 then [92; 34] else if c =? 92 then [92; 92] else if c =? 10 then [92; 110]
  else if c =? 13 then [92; 114] else if c =? 9 then [92; 116] else if c =? 12 then [92; 102]
  else if c =? 8 then [92; 98] else if c <? 32 then escape_unit c else [c].

(** A float's [repr], and the printer's words for the others. *)
Definition scalar_json (v : MetadataScalar) : result pystr :=
  match v with
  | MStr s => mret (34 :: mjoin (escape_text_char <$> s) ++ [34])
  | MInt n => dumps_int n
  | MFloat r => mret (if bool_decide (r = u "nan") then u "NaN" else if bool_decide (r = u "inf") then u "Infinity"
                      else if bool_decide (r = u "-inf") then u "-Infinity" else r)
  | MBool b => mret (if b then u "true" else u "false")
  | MNone => mret (u "null")
  end.

(** What the digest is updated with. *)
Definition hash_bytes (b : pybytes) : result pybytes := len ← to_bytes8 (zlen b); mret (len ++ b).
Definition hash_text (s : pystr) : result pybytes := b ← utf8_encode s; hash_bytes b.
Definition hash_field (f : ContextField) : result pybytes :=
  name ← hash_text (cf_name f);
  encoded ← scalar_json (cf_value f);
  value ← hash_text encoded;
  mret (name ++ value).

Definition field_le (a b : ContextField) : Prop := str_ltb (cf_name b) (cf_name a) = false.
#[export] Instance field_le_dec : RelDecision field_le.
Proof. intros a b. unfold field_le. apply _. Defined.

Definition pixel_format_value (f : PixelFormat) : pystr :=
  match f with RGBA8 => u "rgba8" | RGB8 => u "rgb8" | GRAY8 => u "gray8" end.

Definition record_bytes (r : RedactedRecord) : result pybytes :=
  let f := rc_frame r in
  header ← map_ok hash_text
    [uuid_text (rc_record_id r); isoformat (df_captured_at f); df_policy_revision f; str_of_int (df_width f);
     str_of_int (df_height f); str_of_int (df_stride f); pixel_format_value (df_pixel_format f)];
  pixels ← hash_bytes (df_pixels f);
  texts ← map_ok hash_text (df_ocr_text f);
  fields ← map_ok hash_field (merge_sort field_le (cm_fields (df_metadata f)));
  mret (mjoin header ++ pixels ++ mjoin texts ++ mjoin fields).

(** [tuple(dict.fromkeys(l))] *)
Fixpoint first_of_each (seen l : list pystr) : list pystr :=
  match l with
  | [] => []
  | x :: l => if bool_decide (x ∈ seen) then first_of_each seen l else x :: first_of_each (seen ++ [x]) l
  end.
Definition policy_revisions (records : list RedactedRecord) : list pystr :=
  first_of_each [] ((fun r => df_policy_revision (rc_frame r)) <$> records).

(** [previous_entries.get(key)]: of entries with one key the last counts. *)
Definition prior_entry (previous : option (list ActivityEntry)) (ids : list uuid) (fingerprint : pystr) : option ActivityEntry :=
  match previous with
  | None => None
  | Some entries =>
      snd <$> list_find (fun e => cl_source_record_ids (ae_cluster e) = ids /\ ae_source_fingerprint e = fingerprint) (rev entries)
  end.

Section Reconciler.
Context {L : PyLibrary} {W : Type} `{SealPorts W} `{ActivityPorts W}.
(** [hashlib.sha256(b).hexdigest()] *)
Variable sha256_hex : pybytes -> pystr.
Variable policy : ActivityClusteringPolicy.
Local Abbreviation MS := (M (activity_store W)).

Definition source_fingerprint (records : list RedactedRecord) : result pystr :=
  parts ← map_ok record_bytes records; mret (sha256_hex (mjoin parts)).

(** [except ActivitySummaryUnavailable: summary = None] *)
Definition try_summary (c : ActivityCluster) (records : list RedactedRecord) : MS (option ActivitySummary) :=
  try_except (s ← on_keys (summarize c records); mret (Some s))
    (fun e => if bool_decide (e = ActivitySummaryUnavailable) then mret None else raise e).

Definition entry_for (previous : option (list ActivityEntry)) (records : list RedactedRecord) (c : ActivityCluster) : MS ActivityEntry :=
  cluster_records ← lift (map_ok (record_of records) (cl_source_record_ids c));
  fingerprint ← lift (source_fingerprint cluster_records);
  let revisions := policy_revisions cluster_records in
  summary ← match prior_entry previous (cl_source_record_ids c) fingerprint ≫= ae_summary with
            | Some s => mret (Some s)
            | None => try_summary c cluster_records
            end;
  lift (make_entry {| ae_cluster := c; ae_summary := summary; ae_policy_revisions := revisions; ae_source_fingerprint := fingerprint |}).

Fixpoint entries_for (previous : option (list ActivityEntry)) (records : list RedactedRecord) (cs : list ActivityCluster)
    : MS (list ActivityEntry) :=
  match cs with
  | [] => mret []
  | c :: cs => e ← entry_for previous records c; es ← entries_for previous records cs; mret (e :: es)
  end.

Definition reconcile (records : list RedactedRecord) : MS (list ActivityEntry) :=
  previous ← load_activity;
  if bool_decide (records = []) then
    _ ← replace []; mret []
  else
    _ ← require (negb (has_duplicates (rc_record_id <$> records))) ValueError;
    features ← on_keys (extract records);
    clusters ← lift (segment policy features);
    entries ← entries_for previous records clusters;
    replacement ← lift (make_activity entries);
    _ ← replace replacement;
    mret replacement.
End Reconciler.

(** ** The survivors of a deletion *)

Section Rebuild.
Context {L : PyLibrary} {W : Type} `{SealPorts W} `{ActivityPorts W} `{RecordVault W}.
Variable sha256_hex : pybytes -> pystr.
Variable policy : ActivityClusteringPolicy.
Variable candidate_limit : Z.
Local Abbreviation MS := (M (activity_store W)).

Definition make_rebuilder : result unit :=
  throw_if (negb ((1 <=? candidate_limit) && (candidate_limit <=? 10000))) ValueError.

Definition validate_rebuild (ids : list uuid) : result unit :=
  _ ← throw_if (bool_decide (ids = [])) ValueError;
  _ ← throw_if (10000 <? zlen ids) ValueError;
  throw_if (has_duplicates ids) ValueError.

Fixpoint survivors_of_day (deleted : list uuid) (cs : list CatalogRecord) (survivors : list RedactedRecord) : M W (list RedactedRecord) :=
  match cs with
  | [] => mret survivors
  | c :: cs =>
      _ ← require (negb (candidate_limit <=? zlen survivors)) RuntimeError;
      if bool_decide (candidate_id c ∈ deleted) then survivors_of_day deleted cs survivors
      else
        record ← load_record RuntimeError (candidate_id c);
        survivors_of_day deleted cs (survivors ++ match record with Some r => [r] | None => [] end)
  end.

Definition survivors_day (deleted : list uuid) (day : Z) (survivors : list RedactedRecord) : M W (list RedactedRecord) :=
  query ← lift (one_day day);
  candidates ← vault_candidates query;
  _ ← require (negb (DAY_QUERY_LIMIT <=? zlen candidates)) RuntimeError;
  survivors_of_day deleted candidates survivors.

(** [min] and [max] of dates: the first of equal ones. *)
Fixpoint earliest (d : datetime) (ds : list datetime) : datetime :=
  match ds with [] => d | d' :: ds => earliest (if dt_utc d' <? dt_utc d then d' else d) ds end.
Fixpoint latest (d : datetime) (ds : list datetime) : datetime :=
  match ds with [] => d | d' :: ds => latest (if dt_utc d <? dt_utc d' then d' else d) ds end.

Definition snapshot_window (entries : list ActivityEntry) : result (Z * Z) :=
  match entries with
  | [] => Raise ValueError
  | e :: es =>
      first_day ← start_day_of (earliest (cl_started_at (ae_cluster e)) ((fun e => cl_started_at (ae_cluster e)) <$> es));
      last_day ← start_day_of (latest (cl_ended_at (ae_cluster e)) ((fun e => cl_ended_at (ae_cluster e)) <$> es));
      _ ← throw_if (last_day <? first_day) RuntimeError;
      mret (first_day, last_day)
  end.

Definition find_survivors (entries : list ActivityEntry) (deleted : list uuid) : M W (list RedactedRecord) :=
  window ← lift (snapshot_window entries);
  for_days window.1 window.2 (survivors_day deleted) [].

Definition reconcile_deleted (ids : list uuid) : MS unit :=
  _ ← lift (validate_rebuild ids);
  snapshot ← load_activity;
  match snapshot with
  | None | Some [] => mret tt
  | Some entries =>
      survivors ← on_keys (find_survivors entries ids);
      _ ← reconcile sha256_hex policy survivors;
      mret tt
  end.
End Rebuild.
