(* ===== verification/ReconcileFacts.v ===== *)
(** * ReconcileFacts: the snapshot follows the records.

    Reconciling stores the clusters of exactly the given records, with
    summaries that quote them; after a deletion no deleted record is left. *)

From stdpp Require Import sorting.
From S2P Require Import Prelude PyStr Utf8 PyFloat Json JsonFacts PyLib Storage PyData Codec CodecFacts Policy Frames Adaptive Egress Answering Retrieval Sealed SealedFacts DeletionFacts SemanticIndex SemanticIndexFacts Activity ActivityFacts Summaries SummariesFacts Vault Scope ScopeFacts Reconcile.

(** ** Texts *)

Lemma starts_with_all (f : Z -> bool) p s : starts_with p s = true -> forallb f s = true -> forallb f p = true.
Proof.
  intros Hp%bool_decide_eq_true. rewrite <- Hp. rewrite !List.forallb_forall. intros Hs x Hx. apply Hs.
  apply list_elem_of_In in Hx. apply list_elem_of_In. apply list_elem_of_lookup in Hx as [i Hi]. apply lookup_take_Some in Hi as [Hi _].
  by eapply list_elem_of_lookup_2.
Qed.

Lemma is_in_all (f : Z -> bool) p s : is_in p s = true -> forallb f s = true -> forallb f p = true.
Proof.
  induction s as [|c s IH]; cbn [is_in]; intros Hi Hs.
  - apply orb_true_iff in Hi as [Hi|]; [by eapply starts_with_all|done].
  - apply orb_true_iff in Hi as [Hi|Hi]; [by eapply starts_with_all|]. apply IH; [done|]. cbn in Hs. by apply andb_true_iff in Hs as [_ ?].
Qed.

Lemma join_all (f : Z -> bool) sep l : f sep = true -> Forall (fun p => forallb f p = true) l -> forallb f (join sep l) = true.
Proof.
  intros Hsep. induction 1 as [|p l Hp _ IH]; [done|]. destruct l as [|q l]; [done|]. rewrite join_cons, forallb_app, Hp.
  cbn [forallb]. by rewrite Hsep, IH.
Qed.

Definition record_typed (r : RedactedRecord) : Prop :=
  uuid_ok (rc_record_id r) = true /\ valid_datetime (df_captured_at (rc_frame r)) = true /\
  forallb is_scalar (df_policy_revision (rc_frame r)) = true /\ Forall (fun t => forallb is_scalar t = true) (df_ocr_text (rc_frame r)).

Lemma record_text_scalar r : record_typed r -> forallb is_scalar (record_text r) = true.
Proof.
  intros (_&_&_&Ht). unfold record_text. apply join_all; [done|]. rewrite Forall_forall in Ht |- *. intros t [_ Hin]%list_elem_of_filter. auto.
Qed.

(** ** Clusters *)

Lemma segment_ok policy fs clusters : segment policy fs = Ok clusters -> NoDup (af_record_id <$> fs) ->
  mjoin (cl_source_record_ids <$> clusters) ≡ₚ af_record_id <$> fs /\
  Forall (fun c => make_cluster c = Ok c /\ (exists f, f ∈ fs /\ cl_started_at c = af_captured_at f) /\
                   (exists f, f ∈ fs /\ cl_ended_at c = af_captured_at f)) clusters.
Proof.
  intros Hs Hn. unfold segment in Hs. apply result_bind_ok in Hs as (groups&Hg&Hcs). apply groups_of_ok in Hg.
  pose proof (merge_sort_Permutation features_le fs) as Hp. apply map_ok_Forall2 in Hcs.
  assert (Hcov : Forall2 cluster_covers groups clusters).
  { eapply divides_covers; [exact Hg|by rewrite Hp|apply (StronglySorted_merge_sort features_le)|exact Hcs]. }
  split; [by rewrite (covers_join _ _ Hcov), (divides_join _ _ _ Hg), Hp|].
  apply Forall_forall. intros c Hc. apply list_elem_of_lookup in Hc as [i Hi].
  destruct (Forall2_lookup_r _ _ _ _ _ Hcov Hi) as (g&Hgi&(_&Hm&a&b&Ha&Hb&Hst&Hen)).
  assert (Hin : forall f, f ∈ g -> f ∈ fs).
  { intros f Hf. rewrite <- Hp, <- (divides_join _ _ _ Hg). apply list_elem_of_join. exists g. split; [done|]. by eapply list_elem_of_lookup_2. }
  split; [done|]. split; [exists a|exists b]; (split; [|done]); apply Hin.
  - apply head_Some_elem_of in Ha. done.
  - apply last_Some_elem_of in Hb. done.
Qed.

Lemma first_of_each_in seen l x : x ∈ first_of_each seen l -> x ∈ l.
Proof.
  revert seen. induction l as [|y l IH]; intros seen; cbn [first_of_each]; [done|]. case_bool_decide.
  - intros Hx. right. eapply IH, Hx.
  - rewrite !elem_of_cons. intros [->|Hx]; [by left|right; eapply IH, Hx].
Qed.

Lemma find_prior o ids fp e : prior_entry o ids fp = Some e ->
  exists l, o = Some l /\ e ∈ l /\ cl_source_record_ids (ae_cluster e) = ids /\ ae_source_fingerprint e = fp.
Proof.
  unfold prior_entry. destruct o as [l|]; [|done]. intros He.
  destruct (list_find _ (rev l)) as [[i e']|] eqn:E; [|done]. cbn in He. injection He as ->.
  apply list_find_Some in E as (Hi&[Hids Hfp]&_). exists l. split; [done|]. split; [|by split].
  apply list_elem_of_In, in_rev, list_elem_of_In. by eapply list_elem_of_lookup_2.
Qed.

Lemma record_of_all records ids rs : map_ok (record_of records) ids = Ok rs ->
  rc_record_id <$> rs = ids /\ (forall r, r ∈ rs -> r ∈ records).
Proof.
  intros H%map_ok_Forall2. induction H as [|id r ids rs Hr _ [IH1 IH2]]; [split; [done|]; by intros r ?%elem_of_nil|].
  unfold record_of in Hr. destruct (find_record records id) as [r'|] eqn:E; [|done]. injection Hr as ->.
  apply find_record_ok in E as [Hin Hid]. rewrite fmap_cons, IH1, Hid. split; [done|]. intros x [->|Hx]%elem_of_cons; auto.
Qed.

(** A provider's and a model's name are text. *)
Class SummaryLaws (W : Type) `{ActivityPorts W} := {
  names_law request w : wp (gp_generate summary_provider request) (fun r _ => forall resp, r = Ok resp ->
    forallb is_scalar (gs_provider_id resp) = true /\ forallb is_scalar (gs_model_id resp) = true) w }.

Section Reconciling.
Context {L : PyLibrary} {W : Type} `{SL : SealLaws W} `{AP : !ActivityPorts W} {NL : SummaryLaws W}.
Variable sha256_hex : pybytes -> pystr.
Variable policy : ActivityClusteringPolicy.
Implicit Types (a : activity_store W) (o : option (list ActivityEntry)).

(** Where an entry comes from: its records, their fingerprint and revisions,
    and a summary that was kept with them or quotes them. *)
Definition entry_from o (records : list RedactedRecord) (e : ActivityEntry) : Prop :=
  exists rs, rc_record_id <$> rs = cl_source_record_ids (ae_cluster e) /\ (forall r, r ∈ rs -> r ∈ records) /\
    source_fingerprint sha256_hex rs = Ok (ae_source_fingerprint e) /\ ae_policy_revisions e = policy_revisions rs /\
    (ae_summary e = None \/ (exists s, ae_summary e = Some s /\ verbatim rs s) \/
     exists old l, o = Some l /\ old ∈ l /\ cl_source_record_ids (ae_cluster old) = cl_source_record_ids (ae_cluster e) /\
       ae_source_fingerprint old = ae_source_fingerprint e /\ ae_summary old = ae_summary e).

Lemma on_keys_wp {A} (m : M W A) (Q : result A -> activity_store W -> Prop) a :
  wp m (fun r w => Q r (set_store_world w a)) (st_world a) -> wp (on_keys m) Q a.
Proof. apply wp_zoom. Qed.

Lemma summarize_typed c records w : Forall record_typed records ->
  wp (summarize c records) (fun r _ => forall s, r = Ok s -> verbatim records s /\ make_summary s = Ok s /\ summary_typed s) w.
Proof.
  intros Ht. assert (Hnames : wp (summarize c records) (fun r _ => forall s, r = Ok s ->
    forallb is_scalar (as_provider_id s) = true /\ forallb is_scalar (as_model_id s) = true) w).
  { unfold summarize. assert (Hany : forall {A} (m : M W A) w0, wp m (fun _ _ => True) w0) by (intros; by apply wp_of_run).
    apply wp_bind, wp_lift. destruct (validate_membership c records) as [[]|e]; [|done].
    apply wp_bind. eapply wp_mono; [apply Hany|]. intros [cap|e] w1 _; [|done].
    apply wp_bind, wp_lift. destruct (check_generation cap) as [[]|e]; [|done].
    apply wp_bind, wp_lift. destruct (map_ok _ (cl_source_record_ids c)) as [ordered|e]; [|done].
    apply wp_bind, wp_require; intros _; [|done]. apply wp_bind, wp_lift. destruct (map_ok utf8_encode _) as [items|e]; [|done].
    apply wp_bind, wp_require; intros _; [|done]. apply wp_bind, wp_lift. destruct (make_generation_request _) as [request|e]; [|done].
    apply wp_bind. eapply wp_mono; [apply names_law|]. intros [response|e] w2 Hn; [|done].
    apply wp_bind, wp_require; intros _; [|done]. apply wp_bind, wp_lift. destruct (validate_evidence _ records) as [es|e]; [|done].
    apply wp_lift. intros s Hs. pose proof (make_summary_same _ _ Hs) as ->. exact (Hn response eq_refl). }
  eapply wp_mono; [apply (wp_conj _ _ _ _ (summarize_ok c records w) Hnames)|]. intros r _ [H1 H2] s ->.
  destruct (H1 s eq_refl) as (Hv&Hm&_). destruct (H2 s eq_refl) as [Hp Hmd]. split; [done|]. split; [done|].
  destruct Hv as (es&Htext&Hids&Hq&_). split; [|split; [|done]].
  - rewrite Hids. unfold ids_typed. apply Forall_fmap. eapply Forall_impl; [exact Hq|]. intros e (r&Hr&Hid&_).
    unfold compose. rewrite <- Hid. rewrite Forall_forall in Ht. by apply (Ht r Hr).
  - rewrite Htext. apply join_all; [done|]. apply Forall_fmap. eapply Forall_impl; [exact Hq|]. intros e (r&Hr&_&_&_&Hin).
    eapply is_in_all; [exact Hin|]. apply record_text_scalar. rewrite Forall_forall in Ht. auto.
Qed.

(** One entry; only the keys' world changes. *)
Lemma entry_for_ok o records c a :
  (forall l, o = Some l -> activity_ok l) -> Forall record_typed records -> make_cluster c = Ok c -> cluster_typed c ->
  wp (entry_for sha256_hex o records c) (fun r a' => st_active a' = st_active a /\
    forall e, r = Ok e -> ae_cluster e = c /\ entry_from o records e /\ entry_made e /\ entry_typed e) a.
Proof.
  intros Ho Ht Hc Hct. unfold entry_for. apply wp_bind, wp_lift. destruct (map_ok _ _) as [rs|e] eqn:Hrs; [|done].
  apply record_of_all in Hrs as [Hids Hin]. apply wp_bind, wp_lift. destruct (source_fingerprint sha256_hex rs) as [fp|e] eqn:Hfp; [|done].
  assert (Hts : Forall record_typed rs) by (apply Forall_forall; rewrite Forall_forall in Ht; auto).
  (* what the last step gives *)
  assert (Hlast : forall s a1, st_active a1 = st_active a ->
    (forall x, s = Some x -> make_summary x = Ok x /\ summary_typed x) ->
    (s = None \/ (exists x, s = Some x /\ verbatim rs x) \/
     exists old l, o = Some l /\ old ∈ l /\ cl_source_record_ids (ae_cluster old) = cl_source_record_ids c /\
       ae_source_fingerprint old = fp /\ ae_summary old = s) ->
    wp (lift (make_entry {| ae_cluster := c; ae_summary := s; ae_policy_revisions := policy_revisions rs; ae_source_fingerprint := fp |}))
      (fun r a' => st_active a' = st_active a /\
        forall e, r = Ok e -> ae_cluster e = c /\ entry_from o records e /\ entry_made e /\ entry_typed e) a1).
  { intros s a1 Ha Hs Hfrom. apply wp_lift. split; [done|]. intros e He. pose proof (make_entry_same _ _ He) as ->. cbn. split; [done|]. split.
    { exists rs. split; [done|]. split; [done|]. split; [done|]. split; [done|]. exact Hfrom. }
    split; [split; [done|split; [|done]]; intros x Hx; by apply Hs|]. split; [done|]. split; [intros x Hx; by apply Hs|].
    cbn. apply forallb_Forall, Forall_forall. intros t Htin. unfold policy_revisions in Htin. apply first_of_each_in in Htin.
    apply list_elem_of_fmap in Htin as (r&->&Hr). rewrite Forall_forall in Hts. by apply (Hts r Hr). }
  destruct (prior_entry o (cl_source_record_ids c) fp ≫= ae_summary) as [s|] eqn:Hprior.
  - apply bind_Some in Hprior as (old&Hold&Hs). apply find_prior in Hold as (l&->&Hel&Hoids&Hofp).
    apply wp_bind, wp_ret, Hlast; [done| |].
    + intros x [= <-]. destruct (Ho l eq_refl) as [[Hm _] Hty]. rewrite Forall_forall in Hm, Hty. split; [by apply (Hm old Hel)|by apply (Hty old Hel)].
    + right. right. by exists old, l.
  - apply wp_bind. eapply (wp_mono _ (fun r a' => st_active a' = st_active a /\ forall s, r = Ok s ->
      forall x, s = Some x -> verbatim rs x /\ make_summary x = Ok x /\ summary_typed x)).
    + unfold try_summary. apply wp_try_except, wp_bind, on_keys_wp.
      eapply wp_mono; [by apply summarize_typed|]. intros [s|e] w Hs.
      * apply wp_ret. split; [done|]. intros s' [= <-] x [= <-]. by apply Hs.
      * case_bool_decide; [apply wp_ret|apply wp_raise]; (split; [done|]); [|done]. by intros s [= <-].
    + intros [s|e] a1 [Ha Hs]; [|done]. apply Hlast; [done|intros x Hx; by apply (Hs s eq_refl)|].
      destruct s as [x|]; [|by left]. right. left. exists x. split; [done|]. by apply (Hs (Some x) eq_refl x).
Qed.

Lemma entries_for_ok o records cs a :
  (forall l, o = Some l -> activity_ok l) -> Forall record_typed records -> Forall (fun c => make_cluster c = Ok c /\ cluster_typed c) cs ->
  wp (entries_for sha256_hex o records cs) (fun r a' => st_active a' = st_active a /\
    forall es, r = Ok es -> ae_cluster <$> es = cs /\ Forall (entry_from o records) es /\ Forall entry_made es /\ Forall entry_typed es) a.
Proof.
  intros Ho Ht. revert a. induction cs as [|c cs IH]; intros a Hcs; cbn [entries_for].
  - apply wp_ret. split; [done|]. intros es [= <-]. done.
  - apply Forall_cons in Hcs as [[Hc Hct] Hcs]. apply wp_bind. eapply wp_mono; [by apply (entry_for_ok o records)|].
    intros [e|x] a1 [Ha1 He]; [|done]. destruct (He e eq_refl) as (<-&?&?&?).
    apply wp_bind. eapply wp_mono; [by apply IH|]. intros [es|x] a2 [Ha2 Hes]; [|by split; [congruence|]].
    destruct (Hes es eq_refl) as (<-&?&?&?). apply wp_ret. split; [congruence|]. intros l [= <-]. split; [done|].
    split; [by constructor|]. split; by constructor.
Qed.

(** The snapshot of these records, given the one before. *)
Definition snapshot_of o (records : list RedactedRecord) (entries : list ActivityEntry) : Prop :=
  activity_ok entries /\ source_ids entries ≡ₚ rc_record_id <$> records /\ Forall (entry_from o records) entries.

Lemma empty_snapshot o : snapshot_of o [] [].
Proof. split; [|by split]. split; [|constructor]. by split; [constructor|]. Qed.

Lemma features_typed records fs : Forall record_typed records -> Forall2 feature_of records fs ->
  af_record_id <$> fs = rc_record_id <$> records /\
  Forall (fun f => uuid_ok (af_record_id f) = true /\ valid_datetime (af_captured_at f) = true) fs.
Proof.
  intros Ht H2. induction H2 as [|r f records fs Hf _ IH]; [done|]. apply Forall_cons in Ht as [(Hu&Hd&_) Ht].
  destruct (IH Ht) as [IH1 IH2]. rewrite !fmap_cons, IH1, (fo_id _ _ Hf). split; [done|]. constructor; [|done].
  by rewrite (fo_id _ _ Hf), (fo_time _ _ Hf).
Qed.

Lemma clusters_typed fs clusters : Forall (fun f => uuid_ok (af_record_id f) = true /\ valid_datetime (af_captured_at f) = true) fs ->
  segment policy fs = Ok clusters -> NoDup (af_record_id <$> fs) ->
  Forall (fun c => make_cluster c = Ok c /\ cluster_typed c) clusters.
Proof.
  intros Ht Hs Hn. destruct (segment_ok _ _ _ Hs Hn) as [Hperm Hc]. rewrite Forall_forall in Ht. rewrite Forall_forall in Hc.
  apply Forall_forall. intros c Hin.
  destruct (Hc c Hin) as (Hm&(f&Hf&Hst)&(g&Hg&Hen)). split; [done|]. split; [|rewrite Hst, Hen; split; [by apply (Ht f)|by apply (Ht g)]].
  apply Forall_forall. intros id Hid. assert (Hall : id ∈ af_record_id <$> fs).
  { rewrite <- Hperm. apply list_elem_of_join. exists (cl_source_record_ids c). split; [done|]. by apply list_elem_of_fmap_2. }
  apply list_elem_of_fmap in Hall as (h&->&Hh). by apply (Ht h).
Qed.

(** From the records to the stored snapshot. *)
Lemma reconcile_stores o records a : store_holds o a -> Forall record_typed records ->
  wp (reconcile sha256_hex policy records) (fun r a' =>
    match r with
    | Ok entries => store_holds (Some entries) a' /\ snapshot_of o records entries
    | Raise _ => store_holds o a' \/ exists entries, store_holds (Some entries) a' /\ snapshot_of o records entries
    end) a.
Proof.
  intros Ho Ht. unfold reconcile. apply wp_bind. eapply wp_mono; [by apply load_activity_ok|].
  intros [prev|e] a1 (Ho1&_&Hprev&_); [|by left]. specialize (Hprev prev eq_refl). subst prev.
  assert (Hok : forall l, o = Some l -> activity_ok l) by (intros l ->; apply Ho).
  assert (Hstore : forall entries a2, snapshot_of o records entries -> store_holds o a2 ->
    wp (_ ← replace entries; mret entries) (fun r a' =>
      match r with
      | Ok entries => store_holds (Some entries) a' /\ snapshot_of o records entries
      | Raise _ => store_holds o a' \/ exists entries, store_holds (Some entries) a' /\ snapshot_of o records entries
      end) a2).
  { intros entries a2 Hs Ho2. apply wp_bind. eapply wp_mono; [apply replace_ok; [apply Hs|exact Ho2]|].
    intros [[]|e] a3 (Hor&Hdone&_).
    - apply wp_ret. split; [by apply Hdone|done].
    - destruct Hor as [[_ ?]|?]; [by left|right; by exists entries]. }
  case_bool_decide as Hne; [subst records; apply Hstore; [apply empty_snapshot|done]|].
  apply wp_bind, wp_require; intros Hdup; [|by left]. unfold has_duplicates in Hdup. btauto_hyps.
  apply wp_bind, on_keys_wp. eapply wp_mono; [apply extract_ok|]. intros [fs|e] w2 Hfs; [|by left].
  specialize (Hfs fs eq_refl). destruct (features_typed _ _ Ht Hfs) as [Hids Hft].
  apply wp_bind, wp_lift. destruct (segment policy fs) as [clusters|e] eqn:Hseg; [|by left].
  assert (Hnd : NoDup (af_record_id <$> fs)) by (by rewrite Hids).
  apply wp_bind. eapply wp_mono; [apply (entries_for_ok o records clusters); [done|done|by eapply clusters_typed]|].
  intros [es|e] a3 [Ha3 Hes]; [|left; unfold store_holds in *; by rewrite Ha3].
  destruct (Hes es eq_refl) as (Hcl&Hfrom&Hmade&Htyped).
  assert (Ho3 : store_holds o a3) by (unfold store_holds in *; by rewrite Ha3).
  apply wp_bind, wp_lift. destruct (make_activity es) as [es'|e] eqn:Hact; [|by left].
  pose proof (make_activity_same _ _ Hact) as ->. apply Hstore; [|done]. split; [by split; [split|]|]. split; [|done].
  destruct (segment_ok _ _ _ Hseg Hnd) as [Hperm _]. rewrite <- Hids, <- Hperm. unfold source_ids.
  by rewrite <- Hcl, <- !list_fmap_compose.
Qed.

(** C23 (reconcile_follows_records): reconciling the activity store with a set
    of records stores a valid snapshot whose clusters hold exactly these
    records, each once. Each entry's policy revisions and fingerprint are those
    of its records; its summary is missing, or quotes these records verbatim,
    or was kept from a stored entry with the same records and the same
    fingerprint. A reconciliation that fails leaves the old snapshot or such a
    new one. *)
Theorem reconcile_follows_records o records a a' r :
  store_holds o a -> Forall record_typed records -> reconcile sha256_hex policy records a = (a', r) ->
  match r with
  | Ok entries => store_holds (Some entries) a' /\ snapshot_of o records entries
  | Raise _ => store_holds o a' \/ exists entries, store_holds (Some entries) a' /\ snapshot_of o records entries
  end.
Proof.
  intros Ho Ht Hrun. exact (wp_run _ (fun r a' => match r with
    | Ok entries => store_holds (Some entries) a' /\ snapshot_of o records entries
    | Raise _ => store_holds o a' \/ exists entries, store_holds (Some entries) a' /\ snapshot_of o records entries
    end) _ _ _ Hrun (reconcile_stores o records a Ho Ht)).
Qed.
End Reconciling.

(** ** After a deletion *)

Section Deleting.
Context {L : PyLibrary} {W : Type} `{SL : SealLaws W} `{AP : !ActivityPorts W} {NL : SummaryLaws W} `{VL : VaultLaws W}.
Variable sha256_hex : pybytes -> pystr.
Variable policy : ActivityClusteringPolicy.
Variable candidate_limit : Z.
Implicit Types (a : activity_store W) (o : option (list ActivityEntry)) (w : W).

(** Keys and records are kept apart: unwrapping a key leaves the vault. *)
Hypothesis unwrap_keeps : forall k c aad w, contents (unwrap_data_key k c aad w).1 = contents w.
Hypothesis contents_typed : forall w id d r, contents w !! id = Some (d, r) -> record_typed r.

Lemma for_days_inv {A} (I : Z -> A -> Prop) (body : Z -> A -> M W A) start end_day acc m w :
  (forall day acc w, contents w = m -> start <= day <= end_day -> I day acc ->
    wp (body day acc) (fun r w' => contents w' = m /\ forall acc', r = Ok acc' -> I (day + 1) acc') w) ->
  contents w = m -> start <= end_day + 1 -> I start acc ->
  wp (for_days start end_day body acc) (fun r w' => contents w' = m /\ forall acc', r = Ok acc' -> I (end_day + 1) acc') w.
Proof.
  intros Hbody Hc Hle Hi. unfold for_days. set (n := Z.to_nat (end_day - start + 1)).
  assert (Hgen : forall n day acc w, contents w = m -> I day acc -> start <= day -> end_day + 1 = day + Z.of_nat n ->
    wp (each_day n day body acc) (fun r w' => contents w' = m /\ forall acc', r = Ok acc' -> I (end_day + 1) acc') w).
  { clear n acc w Hc Hi. intros n. induction n as [|n IH]; intros day acc w Hc Hi Hd Hend; cbn [each_day].
    - apply wp_ret. split; [done|]. intros acc' [= <-]. by replace (end_day + 1) with day by lia.
    - apply wp_bind. eapply wp_mono; [apply Hbody; [done|lia|done]|]. intros [acc1|x] w1 [Hc1 Hi1]; [|done].
      apply wp_bind, wp_lift. destruct (checked_day (day + 1)) as [next|x] eqn:En; [|done].
      unfold checked_day in En. ok_steps. apply IH; [done|by apply Hi1|lia|lia]. }
  apply Hgen; [done|done|lia|lia].
Qed.

(** What survives of listed ids. *)
Definition surviving (m : gmap uuid (Z * RedactedRecord)) (deleted ids : list uuid) : list RedactedRecord :=
  omap (fun id => if bool_decide (id ∈ deleted) then None else snd <$> m !! id) ids.

Lemma survivors_of_day_ok deleted cs acc w :
  wp (survivors_of_day candidate_limit deleted cs acc) (fun r w' => contents w' = contents w /\
    forall acc', r = Ok acc' -> acc' = acc ++ surviving (contents w) deleted (candidate_id <$> cs)) w.
Proof.
  revert acc w. induction cs as [|c cs IH]; intros acc w; cbn [survivors_of_day].
  - apply wp_ret. split; [done|]. intros acc' [= <-]. by rewrite app_nil_r.
  - unfold surviving. rewrite fmap_cons. cbn [omap list_omap]. apply wp_bind, wp_require; intros _; [|done].
    case_bool_decide; [apply IH|]. apply wp_bind. eapply wp_mono; [apply load_record_ok|]. intros [rec|x] w1 (Hc&Hr&_); [|done].
    rewrite (Hr rec eq_refl). eapply wp_mono; [apply IH|]. intros r w2 [Hc2 Hr2]. split; [congruence|].
    intros acc' Hacc. rewrite (Hr2 acc' Hacc), Hc, <- (assoc_L (++)). by destruct (contents w !! candidate_id c) as [[d rec']|].
Qed.

Definition survivors_until (m : gmap uuid (Z * RedactedRecord)) (deleted : list uuid) (start day : Z) (acc : list RedactedRecord) : Prop :=
  exists ids, filed m start day ids /\ acc = surviving m deleted ids.

Lemma survivors_day_ok m deleted start day acc w : contents w = m -> start <= day -> survivors_until m deleted start day acc ->
  wp (survivors_day candidate_limit deleted day acc) (fun r w' => contents w' = m /\
    forall acc', r = Ok acc' -> survivors_until m deleted start (day + 1) acc') w.
Proof.
  intros <- Hd (ids&Hids&->). unfold survivors_day. destruct (one_day_ok day) as (q&Hq&Hlim). apply wp_bind, wp_lift. rewrite Hq.
  apply wp_bind. eapply wp_mono; [apply candidates_law|]. intros [found|x] w1 (Hc&Hl&_); [|done]. specialize (Hl found eq_refl).
  apply wp_bind, wp_require; intros Hlt; btauto_hyps; [|done].
  eapply wp_mono; [apply survivors_of_day_ok|]. intros r w2 [Hc2 Hr]. split; [congruence|]. intros acc' Hacc.
  exists (ids ++ (candidate_id <$> found)). split.
  - eapply filed_next; [done|done|exact Hq|done|]. unfold zlen in *. by rewrite length_fmap.
  - rewrite (Hr acc' Hacc), Hc. unfold surviving. by rewrite omap_app.
Qed.

Lemma surviving_in m deleted ids r : r ∈ surviving m deleted ids <->
  exists id, id ∈ ids /\ id ∉ deleted /\ snd <$> m !! id = Some r.
Proof.
  unfold surviving. rewrite list_elem_of_omap. split.
  - intros (id&Hid&Hr). case_bool_decide; [done|]. by exists id.
  - intros (id&Hid&Hnd&Hr). exists id. split; [done|]. by rewrite bool_decide_false.
Qed.

Lemma find_survivors_ok entries deleted w :
  wp (find_survivors candidate_limit entries deleted) (fun r w' => contents w' = contents w /\ forall rs, r = Ok rs ->
    exists first last, snapshot_window entries = Ok (first, last) /\ Forall record_typed rs /\
      forall id, id ∈ rc_record_id <$> rs <-> id ∉ deleted /\ exists d rec, contents w !! id = Some (d, rec) /\ first <= d <= last) w.
Proof.
  unfold find_survivors. apply wp_bind, wp_lift. destruct (snapshot_window entries) as [[first last]|e] eqn:Hw; [|done]. cbn [fst snd].
  assert (Hle : first <= last).
  { unfold snapshot_window in Hw. destruct entries; [done|]. ok_steps. btauto_hyps. by simplify_eq. }
  eapply wp_mono; [apply (for_days_inv (survivors_until (contents w) deleted first) _ first last [] (contents w) w)|].
  - intros day acc w0 Hc Hd Hs. by apply survivors_day_ok; [|lia|].
  - done.
  - lia.
  - exists []. split; [|done]. split; [constructor|]. intros id. rewrite elem_of_nil. split; [done|]. intros (d&r&_&?). lia.
  - intros r w' [Hc Hr]. split; [done|]. intros rs Hrs. destruct (Hr rs Hrs) as (ids&[_ Hids]&->).
    exists first, last. split; [done|]. split.
    + apply Forall_forall. intros rec (i&_&_&Hm)%surviving_in. destruct (contents w !! i) as [[d rec']|] eqn:E; [|done].
      injection Hm as ->. by eapply contents_typed.
    + intros id. rewrite list_elem_of_fmap. split.
      * intros (rec&->&(i&Hid&Hnd&Hm)%surviving_in). apply Hids in Hid as (d&rec'&Hm'&Hd). rewrite Hm' in Hm. injection Hm as ->.
        rewrite (contents_id _ _ _ _ Hm'). split; [done|]. exists d, rec. split; [done|lia].
      * intros (Hnd&d&rec&Hm&Hd). exists rec. split; [by rewrite (contents_id _ _ _ _ Hm)|]. apply surviving_in. exists id.
        split; [apply Hids; exists d, rec; split; [done|lia]|]. split; [done|]. by rewrite Hm.
Qed.

(** Loading the snapshot leaves the vault. *)
Lemma load_keeps a : wp load_activity (fun _ a' => contents (st_world a') = contents (st_world a)) a.
Proof.
  unfold load_activity. apply wp_bind, on_file_ok. apply wp_of_run. intros s' [[payload|]|e] _; [|by apply wp_ret|done].
  apply wp_bind, on_keys_wp. unfold decrypt_snapshot. apply wp_try_except, wp_bind, wp_lift.
  destruct (parse_sealed activity_seal payload) as [s|e]; [|by apply wp_raise].
  apply wp_bind. apply wp_of_run. intros w1 r Hr. change (st_world (set_active s' a)) with (st_world a) in Hr.
  pose proof (unwrap_keeps (se_key s) (se_wrapped s) (sk_aad activity_seal) (st_world a)) as Hk. rewrite Hr in Hk. destruct r as [key|e]; [|by apply wp_raise].
  apply wp_lift. destruct (aead_decrypt _ _ _ key) as [plain|e]; [|by apply wp_raise].
  apply wp_bind, wp_lift. destruct (decode_activity plain); [by apply wp_ret|done].
Qed.

(** The snapshot that follows a deletion. *)
Definition rebuilt_without (ids : list uuid) (l : list ActivityEntry) (m : gmap uuid (Z * RedactedRecord)) (entries : list ActivityEntry) : Prop :=
  exists first last, snapshot_window l = Ok (first, last) /\
    forall id, id ∈ source_ids entries <-> id ∉ ids /\ exists d rec, m !! id = Some (d, rec) /\ first <= d <= last.

(** C21 (deleted_never_reappear): when rebuilding the activities after a
    deletion succeeds, no deleted record is in the stored snapshot: it holds
    exactly the records still stored that are filed under a day from the old
    snapshot's first to its last and are not among the deleted. When it fails,
    the store holds the old snapshot, or already such a new one. *)
Theorem deleted_never_reappear ids o a a' r :
  store_holds o a -> reconcile_deleted sha256_hex policy candidate_limit ids a = (a', r) ->
  (r = Ok tt /\ default [] o = [] /\ store_holds o a') \/
  (is_ok r = false /\ store_holds o a') \/
  exists l entries, o = Some l /\ store_holds (Some entries) a' /\ rebuilt_without ids l (contents (st_world a)) entries.
Proof.
  intros Ho Hrun. refine (wp_run _ (fun r a' => (r = Ok tt /\ default [] o = [] /\ store_holds o a') \/
    (is_ok r = false /\ store_holds o a') \/
    exists l entries, o = Some l /\ store_holds (Some entries) a' /\ rebuilt_without ids l (contents (st_world a)) entries)
    _ _ _ Hrun _). clear Hrun a' r. unfold reconcile_deleted.
  apply wp_bind, wp_lift. destruct (validate_rebuild ids) as [[]|e]; [|by right; left].
  apply wp_bind. eapply wp_mono; [apply (wp_conj _ _ _ _ (load_activity_ok o a Ho) (load_keeps a))|].
  intros [prev|e] a1 [(Ho1&_&Hprev&_) Hc1]; [|by right; left]. rewrite (Hprev prev eq_refl).
  destruct o as [[|e l]|]; [by apply wp_ret; left| |by apply wp_ret; left]. set (old := e :: l) in *.
  apply wp_bind, on_keys_wp. eapply wp_mono; [apply find_survivors_ok|]. intros [rs|x] w2 [Hc2 Hrs]; [|by right; left].
  destruct (Hrs rs eq_refl) as (first&last_&Hw&Ht&Hin).
  apply wp_bind. eapply wp_mono; [apply (reconcile_stores sha256_hex policy (Some old) rs); [exact Ho1|done]|].
  assert (Hnew : forall entries, snapshot_of sha256_hex (Some old) rs entries -> rebuilt_without ids old (contents (st_world a)) entries).
  { intros entries (_&Hperm&_). exists first, last_. split; [done|]. intros id. rewrite Hperm, Hin, Hc1. done. }
  intros [entries|x] a3 H3.
  - destruct H3 as [H3 Hs]. apply wp_ret. right. right. exists old, entries. split; [done|]. split; [done|by apply Hnew].
  - destruct H3 as [H3|(entries&H3&Hs)]; [by right; left|]. right. right. exists old, entries. split; [done|]. split; [done|by apply Hnew].
Qed.
End Deleting.
