(* ===== verification/ActivityProps.v ===== *)
(** * ActivityProps: three records, clustered, summarized and deleted.

    The properties of the activity files at a concrete input: providers that
    answer for these records, keys that seal nothing, and a vault of rows. *)

From stdpp Require Import sorting.
From S2P Require Import Prelude PyStr Utf8 PyFloat Json JsonFacts PyLib Storage PyData Codec CodecFacts Policy Frames Adaptive Egress Answering Retrieval Sealed SealedFacts DeletionFacts SemanticIndex SemanticIndexFacts Activity ActivityFacts Summaries SummariesFacts Vault Scope ScopeFacts Reconcile ReconcileFacts.

(** ** Records, two of one activity and a later one *)

Definition act_time (minutes : Z) : datetime := {| dt_wall := 19782 * us_per_day + minutes * 60000000; dt_offset := 0 |}.
Definition act_record (n minutes : Z) (text : string) : RedactedRecord :=
  {| rc_record_id := n;
     rc_frame := {| df_frame_id := n; df_generation := 1; df_captured_at := act_time minutes;
                    df_width := 1; df_height := 1; df_stride := 3; df_pixel_format := RGB8; df_pixels := [0; 0; 0];
                    df_metadata := {| cm_observed_at := act_time minutes; cm_fields := [] |};
                    df_ocr_text := [u text]; df_findings := 0; df_policy_revision := u "redact-1" |};
     rc_created_at := act_time minutes |}.
Definition act_records : list RedactedRecord := [act_record 3 300 "gamma"; act_record 1 10 "alpha one"; act_record 2 11 "beta two"].
Definition act_rows : list (Z * RedactedRecord) := scope_row <$> act_records.

Definition act_policy : ActivityClusteringPolicy :=
  {| cp_max_gap_seconds := float_of 900; cp_strong_gap_seconds := float_of 120;
     cp_minimum_continuity_score := dec 5 1; cp_minimum_semantic_similarity := dec 5 1 |}.

(** ** Providers *)

Definition act_capabilities (capability : ModelCapability) : ProviderCapabilities :=
  {| pv_provider_id := u "ollama"; pv_location := LOCAL; pv_capabilities := {[capability]};
     pv_accepted_privacy_classes := {[REDACTED_CONTENT]}; pv_max_input_bytes := 100000; pv_supports_vision := false;
     pv_max_context_tokens := None; pv_supports_structured_output := true; pv_available := true |}.
(** An excerpt of the first text given. *)
Definition act_answer (context : list pystr) : pystr :=
  match context with
  | (97 :: _) :: _ => requote (u "{'evidence':[{'source_id':'00000000-0000-0000-0000-000000000001','excerpt':'alpha'}]}")
  | (98 :: _) :: _ => requote (u "{'evidence':[{'source_id':'00000000-0000-0000-0000-000000000002','excerpt':'beta'}]}")
  | _ => requote (u "{'evidence':[{'source_id':'00000000-0000-0000-0000-000000000003','excerpt':'gamma'}]}")
  end.
#[export] Instance act_ports : ActivityPorts unit := {
  embedding_capabilities := mret (act_capabilities EMBEDDING);
  activity_embed r := mret {| es_provider_id := u "ollama"; es_model_id := u "nomic"; es_vectors := (fun _ => [float_of 1]) <$> er_inputs r |};
  summary_provider := {|
    gp_capabilities := mret (act_capabilities GENERATION);
    gp_generate request := mret {| gs_text := act_answer (gn_context request); gs_provider_id := u "ollama"; gs_model_id := u "qwen";
                                   gs_input_tokens := None; gs_output_tokens := None |} |} }.
#[export] Instance act_names : SummaryLaws unit.
Proof. split. intros request w. cbn. apply wp_ret. by intros resp [= <-]. Qed.

Lemma act_typed : Forall record_typed act_records.
Proof. repeat constructor. Qed.
Lemma act_rows_unique : NoDup (row_id <$> act_rows).
Proof. decide_true. Qed.

(** ** Clusters *)

Definition default_ok {A} (a : A) (r : result A) : A := match r with Ok a => a | Raise _ => a end.
Definition act_features : list ActivityRecordFeatures :=
  default_ok [] (extract (W := unit) act_records tt).2.
Definition act_clusters : list ActivityCluster := default_ok [] (segment act_policy act_features).

Example act_clustered : cl_source_record_ids <$> act_clusters = [[1; 2]; [3]].
Proof. vm_compute. reflexivity. Qed.

Lemma act_comparable a b : a ∈ act_features -> b ∈ act_features -> comparable a b.
Proof.
  intros Ha Hb. assert (Hall : forallb (fun a => forallb (fun b => is_ok (semantic_similarity (af_semantic_vector a) (af_semantic_vector b)))
    act_features) act_features = true) by (vm_compute; reflexivity).
  rewrite forallb_Forall, Forall_forall in Hall. specialize (Hall a Ha). rewrite forallb_Forall, Forall_forall in Hall. exact (Hall b Hb).
Qed.

Lemma act_segmented : segment act_policy act_features = Ok act_clusters.
Proof. vm_compute. reflexivity. Qed.

Lemma segmentation_is_exact_witness : exists groups, Forall2 cluster_covers groups act_clusters.
Proof.
  destruct (segmentation_is_exact act_policy act_features) as (groups&clusters&Hs&_&_&Hc&_); [decide_true|exact act_comparable|].
  exists groups. rewrite (f_equal (default_ok []) (eq_trans (eq_sym act_segmented) Hs) : act_clusters = clusters). exact Hc.
Defined.

(** ** Summaries *)

Definition act_cluster : ActivityCluster :=
  {| cl_source_record_ids := [1; 2]; cl_started_at := act_time 10; cl_ended_at := act_time 11 |}.
Definition act_summary : ActivitySummary :=
  {| as_text := u "alpha"; as_source_record_ids := [1]; as_provider_id := u "ollama"; as_model_id := u "qwen" |}.
Definition act_pair : list RedactedRecord := [act_record 1 10 "alpha one"; act_record 2 11 "beta two"].

Lemma summary_is_verbatim_witness :
  exists es, u "alpha" = join 10 es.*2 /\ [1] = es.*1 /\ Forall (quoted act_pair) es.
Proof.
  destruct (summary_is_verbatim (W := unit) act_cluster act_pair tt act_summary) as (es&Ht&Hi&_&_&Hq&_); [vm_compute; reflexivity|].
  exists es. split; [exact Ht|]. split; [exact Hi|exact Hq].
Defined.

(** A provider that turns out to be remote. *)
Definition remote_ports : ActivityPorts unit :=
  let remote capability := {| pv_provider_id := u "openai"; pv_location := REMOTE; pv_capabilities := {[capability]};
     pv_accepted_privacy_classes := {[REDACTED_CONTENT]}; pv_max_input_bytes := 100000; pv_supports_vision := false;
     pv_max_context_tokens := None; pv_supports_structured_output := true; pv_available := true |} in
  {| embedding_capabilities := mret (remote EMBEDDING); activity_embed := activity_embed;
     summary_provider := {| gp_capabilities := mret (remote GENERATION); gp_generate := gp_generate summary_provider |} |}.
Lemma untrusted_gets_nothing_witness :
  is_ok (extract (H := remote_ports) act_pair tt).2 = false /\ is_ok (summarize (H := remote_ports) act_cluster act_pair tt).2 = false.
Proof.
  destruct (untrusted_gets_nothing (H := remote_ports) act_cluster act_pair tt) as [He Hs]. split.
  - by eapply He; [reflexivity|intros [? _]|].
  - by eapply Hs; [reflexivity|intros [? _]].
Defined.

(** ** Reconciling and deleting *)

(** A digest of 64 hexadecimal digits. *)
Definition act_sha256 (b : pybytes) : pystr := replicate 63 48 ++ [hex_digit (zlen b mod 16)].
Definition act_store0 : activity_store unit := {| st_active := empty_slot (activity_temporary 7 (u "activity-state.lra")); st_world := tt |}.
Local Abbreviation act_reconcile := (reconcile (W := unit) act_sha256 act_policy).
Definition act_store1 : activity_store unit := (act_reconcile act_records act_store0).1.
Definition act_entries : list ActivityEntry := default_ok [] (act_reconcile act_records act_store0).2.

Lemma act_reconciled : act_reconcile act_records act_store0 = (act_store1, Ok act_entries).
Proof. vm_compute. reflexivity. Qed.

Example act_summaries : (fun e => (cl_source_record_ids (ae_cluster e), as_text <$> ae_summary e)) <$> act_entries
  = [([1; 2], Some (u "alpha")); ([3], Some (u "gamma"))].
Proof. vm_compute. reflexivity. Qed.

Lemma act_holds0 : store_holds None act_store0.
Proof. reflexivity. Qed.

Lemma reconcile_follows_records_witness : store_holds (Some act_entries) act_store1 /\ source_ids act_entries ≡ₚ [3; 1; 2].
Proof.
  destruct (reconcile_follows_records act_sha256 act_policy None act_records act_store0 act_store1 (Ok act_entries)
    act_holds0 act_typed act_reconciled) as [Hs (_&Hp&_)]. split; [exact Hs|exact Hp].
Defined.

(** The snapshot's bytes, and the same with one record in both entries *)
Definition act_payload : pybytes := default_ok [] (encode_activity act_entries).
Definition act_shared : list ActivityEntry := act_entries ++ act_entries.

(** A temporary file that process 7 left behind blocks its own writes only. *)
Example stale_temporary_of_a_process :
  let crashed := put_temporary true (st_active act_store0) in
  let reopened := {| sl_file := sl_file crashed; sl_temporary_name := activity_temporary 8 (u "activity-state.lra");
                     sl_temporaries := sl_temporaries crashed; sl_io := [] |} in
  (is_ok (replace (W := unit) act_entries {| st_active := crashed; st_world := tt |}).2,
   is_ok (replace (W := unit) act_entries {| st_active := reopened; st_world := tt |}).2) = (false, true).
Proof. vm_compute. reflexivity. Qed.

Lemma decoded_activity_is_valid_witness :
  decode_activity act_payload = Ok act_entries /\ length act_entries = 2%nat /\ Forall entry_valid act_entries /\
  (text ← encode_activity act_shared; decode_activity text) = Raise RuntimeError.
Proof.
  assert (decode_activity act_payload = Ok act_entries) as E by (vm_compute; reflexivity).
  split; [exact E|]. split; [vm_compute; reflexivity|]. split; [|vm_compute; reflexivity].
  pose proof (decoded_activity_is_valid act_payload) as H. rewrite E in H. exact (proj1 H).
Defined.

Lemma act_holds1 : store_holds (Some act_entries) act_store1 /\ activity_ok act_entries.
Proof.
  destruct (wp_run _ _ _ _ _ act_reconciled (reconcile_stores act_sha256 act_policy None act_records act_store0 act_holds0 act_typed)) as [Hs [Ho _]].
  by split.
Qed.

Lemma activity_store_refines_witness :
  wp (load_activity (W := unit)) (fun r a' => store_holds (Some act_entries) a' /\ (forall x, r = Ok x -> x = Some act_entries)) act_store1.
Proof.
  destruct act_holds1 as [Hs Ho]. eapply wp_mono; [exact (proj1 (activity_store_refines act_entries (Some act_entries) act_store1 Ho Hs))|].
  intros r a' (H1&H2&_). split; [exact H1|exact H2].
Defined.

(** Record 1 is deleted from the vault; the day is clustered again. *)
Definition act_rows1 : list (Z * RedactedRecord) := filter (fun row => row_id row <> 1) act_rows.
Lemma act_rows1_unique : NoDup (row_id <$> act_rows1).
Proof. decide_true. Qed.
Local Abbreviation act_delete := (reconcile_deleted (W := unit) (H1 := row_vault act_rows1) act_sha256 act_policy 100 [1]).
Definition act_store2 : activity_store unit := (act_delete act_store1).1.

Lemma act_deleted : act_delete act_store1 = (act_store2, Ok tt).
Proof. vm_compute. reflexivity. Qed.

Lemma act_rows1_typed w id d r : contents (VaultLaws := row_vault_laws act_rows1 act_rows1_unique) w !! id = Some (d, r) -> record_typed r.
Proof.
  intros Hr%(row_map_in act_rows1 act_rows1_unique). destruct Hr as [Hr _]. assert (Hall : Forall (fun row => record_typed row.2) act_rows1) by (repeat constructor).
  rewrite Forall_forall in Hall. exact (Hall _ Hr).
Qed.

Lemma act_window : snapshot_window act_entries = Ok (19782, 19782).
Proof. vm_compute. reflexivity. Qed.

Lemma deleted_never_reappear_witness :
  exists entries, store_holds (Some entries) act_store2 /\ 1 ∉ source_ids entries /\ 2 ∈ source_ids entries.
Proof.
  destruct (deleted_never_reappear (VL := row_vault_laws act_rows1 act_rows1_unique) act_sha256 act_policy 100 (fun _ _ _ _ => eq_refl)
    act_rows1_typed [1] (Some act_entries) act_store1 act_store2 (Ok tt) (proj1 act_holds1) act_deleted)
    as [(_&Hn&_)|[[Hf _]|(l&entries&El&Hs&first&last_&Hw&Hin)]]; [exfalso; revert Hn; vm_compute; discriminate|discriminate Hf|].
  exists entries. split; [exact Hs|]. rewrite <- (f_equal (default []) El : act_entries = l), act_window in Hw.
  injection Hw as <- <-. split.
  - intros H1. apply Hin in H1 as [H1 _]. apply H1. left.
  - apply Hin. split; [decide_true|]. eexists _, _. split; [vm_compute; reflexivity|]. split; discriminate.
Defined.
