(* ===== verification/Concurrent.v ===== *)
(** * Concurrent: code that runs in a thread, among others.

    A [thread S A] is a program whose atomic actions are calls on the shared
    state: a method body under its lock, one library call, one attribute
    access.  Between two of them other threads run.  An action may have to
    wait (for a lock, for an answer) until the state lets it.  [wpt] is the
    weakest precondition of a thread under the interference of the others. *)

From S2P Require Import Prelude.

Inductive thread (S A : Type) : Type :=
  | Done (r : result A)
  | Step (B : Type) (ready : S -> bool) (m : M S B) (k : result B -> thread S A).
Arguments Done {S A} r.
Arguments Step {S A B} ready m k.

Section Programs.
Context {S : Type}.

Fixpoint thread_catch {A B} (t : thread S A) (k : result A -> thread S B) : thread S B :=
  match t with
  | Done r => k r
  | Step ready m next => Step ready m (fun r => thread_catch (next r) k)
  end.

#[export] Instance thread_ret : MRet (thread S) := fun A a => Done (Ok a).
#[export] Instance thread_bind : MBind (thread S) := fun A B k t =>
  thread_catch t (fun r => match r with Ok a => k a | Raise e => Done (Raise e) end).

Definition throw {A} (e : exn) : thread S A := Done (Raise e).
Definition act {A} (m : M S A) : thread S A := Step (fun _ => true) m Done.
(** Waits until [ready], then runs [m] in the same step. *)
Definition await {A} (ready : S -> bool) (m : M S A) : thread S A := Step ready m Done.
(** A run that cannot happen. *)
Definition never {A} : thread S A := Step (fun _ => false) (mret tt) (fun _ => Done (Raise (External 0))).

Definition attempt {A} (t : thread S A) (h : exn -> thread S A) : thread S A :=
  thread_catch t (fun r => match r with Ok a => Done (Ok a) | Raise e => h e end).
Definition finally {A} (t : thread S A) (f : thread S unit) : thread S A :=
  thread_catch t (fun r => thread_catch f (fun r' => match r' with Ok _ => Done r | Raise e => Done (Raise e) end)).

(** [with lock: t], the lock being an attribute of the state *)
Definition locking {A} (held : S -> bool) (set_held : bool -> S -> S) (t : thread S A) : thread S A :=
  _ ← await (fun s => negb (held s)) (modify (set_held true));
  finally t (act (modify (set_held false))).

Fixpoint each {A} (xs : list A) (f : A -> thread S unit) : thread S unit :=
  match xs with
  | [] => mret tt
  | x :: xs => _ ← f x; each xs f
  end.

(** The thread running alone; [None] when it waits for what nobody does. *)
Fixpoint alone {A} (t : thread S A) (s : S) : option (S * result A) :=
  match t with
  | Done r => Some (s, r)
  | Step ready m k => if ready s then let (s', r) := m s in alone (k r) s' else None
  end.
End Programs.

(** ** Weakest preconditions of a thread

    [R] is what a thread owns. [valid r s]: the states in which it may run an
    action owning [r]; [allowed r s r' s']: the steps it may make. *)

Section Logic.
Context {S R : Type} (valid : R -> S -> Prop) (allowed : R -> S -> R -> S -> Prop).

Fixpoint wpt {A} (t : thread S A) (Q : result A -> R -> Prop) (r : R) : Prop :=
  match t with
  | Done x => Q x r
  | Step ready m k => forall s, valid r s -> ready s = true ->
      exists r', allowed r s r' (m s).1 /\ wpt (k (m s).2) Q r'
  end.

Lemma wpt_mono {A} (t : thread S A) (Q Q' : result A -> R -> Prop) r :
  wpt t Q r -> (forall x r', Q x r' -> Q' x r') -> wpt t Q' r.
Proof.
  intros H HQ. revert r H. induction t as [x|B ready m k IH]; cbn; intros r H; [by apply HQ|].
  intros s Hv Hs. destruct (H s Hv Hs) as (r'&Ha&Hk). exists r'. eauto.
Qed.

Lemma wpt_catch {A B} (t : thread S A) (k : result A -> thread S B) Q r :
  wpt t (fun x r' => wpt (k x) Q r') r -> wpt (thread_catch t k) Q r.
Proof.
  revert r. induction t as [x|C ready m next IH]; cbn; intros r H; [done|].
  intros s Hv Hs. destruct (H s Hv Hs) as (r'&Ha&Hk). exists r'. eauto.
Qed.

Lemma wpt_bind {A B} (t : thread S A) (k : A -> thread S B) Q r :
  wpt t (fun x r' => match x with Ok a => wpt (k a) Q r' | Raise e => Q (Raise e) r' end) r ->
  wpt (mbind k t) Q r.
Proof. intros H. apply wpt_catch. eapply wpt_mono; [exact H|]. by intros [] r'. Qed.

Lemma wpt_ret {A} (a : A) (Q : result A -> R -> Prop) r : Q (Ok a) r -> wpt (mret a) Q r.
Proof. done. Qed.

Lemma wpt_act {A} (m : M S A) (Q : result A -> R -> Prop) r :
  (forall s, valid r s -> exists r', allowed r s r' (m s).1 /\ Q (m s).2 r') -> wpt (act m) Q r.
Proof. intros H s Hv _. by apply H. Qed.

Lemma wpt_await {A} ready (m : M S A) (Q : result A -> R -> Prop) r :
  (forall s, valid r s -> ready s = true -> exists r', allowed r s r' (m s).1 /\ Q (m s).2 r') -> wpt (await ready m) Q r.
Proof. exact id. Qed.

Lemma wpt_never {A} (Q : result A -> R -> Prop) r : wpt never Q r.
Proof. by intros s _. Qed.

Lemma wpt_attempt {A} (t : thread S A) h Q r :
  wpt t (fun x r' => match x with Ok a => Q (Ok a) r' | Raise e => wpt (h e) Q r' end) r -> wpt (attempt t h) Q r.
Proof. intros H. apply wpt_catch. eapply wpt_mono; [exact H|]. by intros [] r'. Qed.

Lemma wpt_finally {A} (t : thread S A) f Q r :
  wpt t (fun x r' => wpt f (fun y r'' => match y with Ok _ => Q x r'' | Raise e => Q (Raise e) r'' end) r') r ->
  wpt (finally t f) Q r.
Proof.
  intros H. apply wpt_catch. eapply wpt_mono; [exact H|]. intros x r' Hf. apply wpt_catch.
  eapply wpt_mono; [exact Hf|]. by intros [] r''.
Qed.

Lemma wpt_each {A} (xs : list A) f (P : R -> Prop) (Q : result unit -> R -> Prop) r :
  P r -> (forall x r, x ∈ xs -> P r -> wpt (f x) (fun y r' => match y with Ok _ => P r' | Raise e => Q (Raise e) r' end) r) ->
  (forall r, P r -> Q (Ok tt) r) -> wpt (each xs f) Q r.
Proof.
  intros Hp Hf Hq. revert r Hp. induction xs as [|x xs IH]; intros r Hp; cbn [each]; [by apply Hq|].
  apply wpt_bind. eapply wpt_mono; [apply Hf; [constructor|done]|]. intros [[]|e] r' H; [|done].
  apply IH; [|done]. intros y r'' Hy. apply Hf. by constructor.
Qed.
End Logic.

(** ** Running alone *)

Lemma alone_catch {S A B} (t : thread S A) (k : result A -> thread S B) s :
  alone (thread_catch t k) s = match alone t s with Some (s', r) => alone (k r) s' | None => None end.
Proof.
  revert s. induction t as [x|C ready m next IH]; cbn; intros s; [done|].
  destruct (ready s); [|done]. destruct (m s) as [s' r]. apply IH.
Qed.

Lemma alone_bind {S A B} (t : thread S A) (k : A -> thread S B) s :
  alone (mbind k t) s = match alone t s with
    Some (s', Ok a) => alone (k a) s' | Some (s', Raise e) => Some (s', Raise e) | None => None end.
Proof. unfold mbind, thread_bind. rewrite alone_catch. by destruct (alone t s) as [[s' []]|]. Qed.
Lemma alone_act {S A} (m : M S A) s : alone (act m) s = Some (m s).
Proof. cbn. by destruct (m s). Qed.
Lemma alone_attempt {S A} (t : thread S A) h s :
  alone (attempt t h) s = match alone t s with
    Some (s', Ok a) => Some (s', Ok a) | Some (s', Raise e) => alone (h e) s' | None => None end.
Proof. unfold attempt. rewrite alone_catch. by destruct (alone t s) as [[s' []]|]. Qed.
Lemma alone_finally {S A} (t : thread S A) f s :
  alone (finally t f) s = match alone t s with
    Some (s', r) => match alone f s' with Some (s2, Ok _) => Some (s2, r) | Some (s2, Raise e) => Some (s2, Raise e) | None => None end
  | None => None end.
Proof.
  unfold finally. rewrite alone_catch. destruct (alone t s) as [[s' r]|]; [|done]. rewrite alone_catch.
  by destruct (alone f s') as [[s2 []]|].
Qed.

(** ** A pool of threads

    Each role runs one call after another; a step is one action of one role. *)

Section Pool.
Context {S I A : Type} `{EqDecision I}.
(** the calls a role may make *)
Variable calls : I -> thread S A -> Prop.

Definition pool : Type := I -> thread S A.
Definition set_thread (i : I) (t : thread S A) (p : pool) : pool := fun j => if decide (j = i) then t else p j.

Inductive pool_step : S * pool -> I -> S * pool -> Prop :=
  | step_act s p i B ready (m : M S B) k :
      p i = Step ready m k -> ready s = true -> pool_step (s, p) i ((m s).1, set_thread i (k (m s).2) p)
  | step_call s p i r t :
      p i = Done r -> calls i t -> pool_step (s, p) i (s, set_thread i t p).

(** [G rs s]: the roles own [rs] in the state [s]. What a role owns only
    [grows]. *)
Context {R : Type} (G : (I -> R) -> S -> Prop) (grows : R -> R -> Prop) `{!PreOrder grows}.
Definition give (i : I) (r : R) (rs : I -> R) : I -> R := fun j => if decide (j = i) then r else rs j.

(** What a role is sure of while it owns [r], and what it may do then. *)
Definition pool_valid (i : I) (r : R) (s : S) : Prop := exists rs, rs i = r /\ G rs s.
Definition pool_allowed (i : I) (r : R) (s : S) (r' : R) (s' : S) : Prop :=
  grows r r' /\ forall rs, rs i = r -> G rs s -> G (give i r' rs) s'.
Definition pool_wpt (i : I) {B} (t : thread S B) (Q : result B -> R -> Prop) (r : R) : Prop :=
  wpt (pool_valid i) (pool_allowed i) t Q r.

(** What a role owns when a call ends, and keeps for the next. *)
Variable rest : I -> result A -> R -> Prop.
Variable idle : I -> R -> Prop.
Hypothesis rest_idle : forall i x r, rest i x r -> idle i r.
Hypothesis calls_ok : forall i t r, calls i t -> idle i r -> pool_wpt i t (rest i) r.

Definition pool_inv (rs : I -> R) (c : S * pool) : Prop :=
  G rs c.1 /\ forall i, pool_wpt i (c.2 i) (rest i) (rs i).

Lemma give_same i r rs : give i r rs i = r.
Proof. unfold give. by destruct (decide (i = i)). Qed.
Lemma give_other i r rs j : j <> i -> give i r rs j = rs j.
Proof. intros Hj. unfold give. by destruct (decide (j = i)). Qed.

Definition all_grow (rs rs' : I -> R) : Prop := forall i, grows (rs i) (rs' i).
#[export] Instance all_grow_preorder : PreOrder all_grow.
Proof. split; [intros rs i; reflexivity|intros rs1 rs2 rs3 H1 H2 i; by transitivity (rs2 i)]. Qed.

Lemma pool_inv_step rs c i c' : pool_step c i c' -> pool_inv rs c -> exists rs', all_grow rs rs' /\ pool_inv rs' c'.
Proof.
  intros Hst [Hg Hw]. destruct Hst as [s p i B ready m k Hp Hr|s p i r t Hp Hc]; cbn [fst snd] in *; pose proof (Hw i) as Hi; rewrite Hp in Hi; cbn in Hi.
  - destruct (Hi s) as (r'&[Hgr Ha]&Hk); [by exists rs|done|]. exists (give i r' rs). split.
    { intros j. unfold give. destruct (decide (j = i)) as [->|]; [done|reflexivity]. }
    split; [by apply Ha|]. intros j. cbn. unfold set_thread, give. destruct (decide (j = i)) as [->|]; [done|apply Hw].
  - exists rs. split; [reflexivity|]. split; [done|]. intros j. cbn. unfold set_thread.
    destruct (decide (j = i)) as [->|]; [|apply Hw]. apply calls_ok; [done|]. by eapply rest_idle.
Qed.

Lemma pool_inv_steps rs c ls c' : steps pool_step c ls c' -> pool_inv rs c -> exists rs', all_grow rs rs' /\ pool_inv rs' c'.
Proof.
  intros Hs. revert rs. induction Hs as [|c i c1 l c2 H1 _ IH]; intros rs Hi; [by exists rs|].
  destruct (pool_inv_step _ _ _ _ H1 Hi) as (rs1&Hle1&Hi1). destruct (IH rs1 Hi1) as (rs2&Hle2&Hi2). exists rs2.
  split; [by transitivity rs1|done].
Qed.
End Pool.

(** ** One call after another is a run of the pool *)

Section Sequence.
Context {S I A : Type} `{EqDecision I}.
Variable calls : I -> thread S A -> Prop.
Local Abbreviation pool_step := (pool_step calls).

Definition all_done (p : pool (S:=S) (I:=I) (A:=A)) : Prop := forall i, exists r, p i = Done r.

Lemma alone_runs (t : thread S A) s s' r (p : pool) i : alone t s = Some (s', r) -> p i = t ->
  exists ls p', steps pool_step (s, p) ls (s', p') /\ p' i = Done r /\ forall j, j <> i -> p' j = p j.
Proof.
  revert s p. induction t as [x|B ready m k IH]; cbn; intros s p Ha Hp; [simplify_eq; exists [], p; split; [constructor|done]|].
  destruct (ready s) eqn:Hr; [|done]. destruct (m s) as [s1 x] eqn:Em.
  destruct (IH x s1 (set_thread i (k x) p) Ha) as (ls&p'&Hs&Hi&Ho); [unfold set_thread; by rewrite decide_True|].
  exists (i :: ls), p'. split_and!; [|done|].
  - eapply steps_cons; [|exact Hs]. pose proof (step_act calls s p i B ready m k Hp Hr) as Hst. by rewrite Em in Hst.
  - intros j Hj. rewrite Ho by done. unfold set_thread. by rewrite decide_False.
Qed.

Lemma call_runs i t s s' r (p : pool) : calls i t -> alone t s = Some (s', r) -> all_done p ->
  exists ls p', steps pool_step (s, p) ls (s', p') /\ p' i = Done r /\ all_done p'.
Proof.
  intros Hc Ha Hp. destruct (Hp i) as [r0 Hi].
  destruct (alone_runs t s s' r (set_thread i t p) i Ha) as (ls&p'&Hs&Hr&Ho); [unfold set_thread; by rewrite decide_True|].
  exists (i :: ls), p'. split_and!; [|done|].
  - eapply steps_cons; [by eapply step_call|exact Hs].
  - intros j. destruct (decide (j = i)) as [->|Hj]; [by exists r|]. rewrite Ho by done. unfold set_thread. by rewrite decide_False.
Qed.

Fixpoint in_turn (cs : list (I * thread S A)) (s : S) : option S :=
  match cs with
  | [] => Some s
  | (_, t) :: cs => match alone t s with Some (s', _) => in_turn cs s' | None => None end
  end.

Lemma in_turn_runs cs s s' (p : pool) : Forall (fun c => calls c.1 c.2) cs -> in_turn cs s = Some s' -> all_done p ->
  exists ls p', steps pool_step (s, p) ls (s', p') /\ all_done p'.
Proof.
  intros Hcs. revert s p. induction Hcs as [|[i t] cs Hc _ IH]; cbn; intros s p Hr Hp; [simplify_eq; exists [], p; split; [constructor|done]|].
  destruct (alone t s) as [[s1 r]|] eqn:Ha; [|done]. destruct (call_runs i t s s1 r p Hc Ha Hp) as (ls1&p1&Hs1&_&Hp1).
  destruct (IH s1 p1 Hr Hp1) as (ls2&p2&Hs2&Hp2). exists (ls1 ++ ls2), p2. split; [by eapply steps_app|done].
Qed.
End Sequence.
