(* ===== verification/Pipeline.v ===== *)
(** * Pipeline: the bounded in-memory capture pipeline.

    Models [pipeline/models.py], [credits.py], [framing.py],
    [cancellation.py], [ingress.py], [actors.py] and the operations of
    [runtime.py].  Each lock-protected method is one atomic action; handlers
    are threads of such actions.  The ZeroMQ sockets, the processors, the sink
    and the fault sink are classes; the header's pydantic model is
    [HeaderModel].  Creating and stopping actors and sockets is left out. *)

From S2P Require Import Prelude PyStr Utf8 Json JsonFacts PyLib Storage PyData Codec Gate GateFacts GateThreads Adaptive Concurrent.

(** ** [pipeline/models.py] *)

Inductive PipelineStage := RAW | ANALYZED | REDACTED | ENCRYPTED.
#[export] Instance PipelineStage_eq_dec : EqDecision PipelineStage.
Proof. solve_decision. Defined.
Inductive PipelineOverloadPolicy := DROP_NEWEST | COALESCE_LATEST.
#[export] Instance PipelineOverloadPolicy_eq_dec : EqDecision PipelineOverloadPolicy.
Proof. solve_decision. Defined.
Inductive SubmissionStatus := ACCEPTED | DROPPED | COALESCED.
#[export] Instance SubmissionStatus_eq_dec : EqDecision SubmissionStatus.
Proof. solve_decision. Defined.
Inductive PipelineFaultCode := PROCESSOR_FAILURE | PROTOCOL_FAILURE | TRANSPORT_FAILURE | PERSISTENCE_FAILURE.

Definition stage_value (s : PipelineStage) : pystr :=
  match s with
  | RAW => u "raw" | ANALYZED => u "analyzed" | REDACTED => u "redacted" | ENCRYPTED => u "encrypted"
  end.
Definition all_stages : list PipelineStage := [RAW; ANALYZED; REDACTED; ENCRYPTED].
(** The edge after a stage: [_validate_output]'s table and the endpoints of
    the runtime agree. *)
Definition next_stage (s : PipelineStage) : option PipelineStage :=
  match s with RAW => Some ANALYZED | ANALYZED => Some REDACTED | REDACTED => Some ENCRYPTED | ENCRYPTED => None end.

(** Times in milliseconds; the control timeout is only passed on. *)
Record PipelineLimits := {
  raw_queue_items : Z;
  stage_queue_items : Z;
  overload_policy : PipelineOverloadPolicy;
  max_header_bytes : Z;
  max_frames : Z;
  max_payload_bytes : Z;
  receive_timeout_ms : Z;
  send_timeout_ms : Z }.
Definition make_limits (l : PipelineLimits) : result PipelineLimits :=
  _ ← throw_if (negb ((1 <=? raw_queue_items l) && (raw_queue_items l <=? 256))) ValueError;
  _ ← throw_if (negb ((1 <=? stage_queue_items l) && (stage_queue_items l <=? 256))) ValueError;
  _ ← throw_if (max_header_bytes l <=? 0) ValueError;
  _ ← throw_if (max_frames l <=? 0) ValueError;
  _ ← throw_if (max_payload_bytes l <=? 0) ValueError;
  _ ← throw_if ((receive_timeout_ms l <=? 0) || (send_timeout_ms l <? 0)) ValueError;
  mret l.
Definition default_limits : PipelineLimits := {|
  raw_queue_items := 1; stage_queue_items := 32; overload_policy := DROP_NEWEST; max_header_bytes := 16 * 1024;
  max_frames := 8; max_payload_bytes := 64 * 1024 * 1024; receive_timeout_ms := 20; send_timeout_ms := 10 |}.

Record SubmissionResult := {
  sr_record_id : uuid;
  sr_status : SubmissionStatus;
  sr_replaced : option uuid }.

Record PipelineFaultEvent := {
  fe_record_id : uuid;
  fe_stage : PipelineStage;
  fe_fault_code : PipelineFaultCode }.

(** The four item classes; the frames of a raw item are [bytearray]s, kept by
    address. *)
Record item (F : Type) := {
  it_record_id : uuid;
  it_generation : Z;
  it_configuration_revision : pystr;
  it_deadline : Z;
  it_frames : list F }.
Arguments it_record_id {F}. Arguments it_generation {F}. Arguments it_configuration_revision {F}.
Arguments it_deadline {F}. Arguments it_frames {F}.
#[export] Instance item_eq_dec : EqDecision (item pybytes).
Proof. solve_decision. Defined.

Inductive PipelineItem :=
  | RawStageItem (i : item nat)
  | AnalyzedStageItem (i : item pybytes)
  | RedactedStageItem (i : item pybytes)
  | EncryptedStageItem (i : item pybytes).

Definition with_frames {F G} (frames : list G) (i : item F) : item G :=
  {| it_record_id := it_record_id i; it_generation := it_generation i;
     it_configuration_revision := it_configuration_revision i; it_deadline := it_deadline i; it_frames := frames |}.

Definition item_stage (p : PipelineItem) : PipelineStage :=
  match p with
  | RawStageItem _ => RAW | AnalyzedStageItem _ => ANALYZED | RedactedStageItem _ => REDACTED | EncryptedStageItem _ => ENCRYPTED
  end.

(** [bytearray]s by address *)
Abbreviation heap := (list pybytes) (only parsing).
Definition buffer (h : heap) (a : nat) : pybytes := default [] (h !! a).
Definition zeros (b : pybytes) : pybytes := replicate (length b) 0.
(** [frame[:] = b"\x00" * len(frame)] *)
Definition wipe (frames : list nat) (h : heap) : heap := foldl (fun h a => alter zeros a h) h frames.

(** The item with [bytes(frame) for frame in item.frames]. *)
Definition item_bytes (h : heap) (p : PipelineItem) : item pybytes :=
  match p with
  | RawStageItem i => with_frames (buffer h <$> it_frames i) i
  | AnalyzedStageItem i | RedactedStageItem i | EncryptedStageItem i => i
  end.

(** ** [pipeline/credits.py] *)

(** [_in_use_by_generation] *)
Abbreviation ledger := (gmap Z Z) (only parsing).
Definition credit_of (l : ledger) (generation : Z) : Z := default 0 (l !! generation).
Definition in_use_locked (l : ledger) : Z := sum_by snd (map_to_list l).

Definition try_acquire (capacity generation : Z) : M ledger bool := fun l =>
  if capacity <=? in_use_locked l then (l, Ok false)
  else (<[generation := credit_of l generation + 1]> l, Ok true).

(** The common part of [release] and [release_if_acquired]. *)
Definition give_back (generation : Z) (l : ledger) : ledger :=
  if credit_of l generation =? 1 then delete generation l else <[generation := credit_of l generation - 1]> l.
Definition release (generation : Z) : M ledger unit := fun l =>
  if credit_of l generation <=? 0 then (l, Raise RuntimeError) else (give_back generation l, Ok tt).
Definition release_if_acquired (generation : Z) : M ledger bool := fun l =>
  if credit_of l generation <=? 0 then (l, Ok false) else (give_back generation l, Ok true).

(** ** [pipeline/framing.py] *)

Definition PROTOCOL_VERSION : Z := 1.

Record TransportHeader := {
  th_protocol_version : Z;
  th_record_id : uuid;
  th_generation : Z;
  th_configuration_revision : pystr;
  th_stage : PipelineStage;
  th_deadline : Z;
  th_frame_count : Z;
  th_frame_sizes : list Z }.

(** The constraints of the model's fields; a string that is no Unicode text is
    no [str] to pydantic. *)
Definition header_ok (h : TransportHeader) : bool :=
  (0 <? th_protocol_version h) && (0 <? th_generation h) &&
  (1 <=? zlen (th_configuration_revision h)) && (zlen (th_configuration_revision h) <=? 256) &&
  forallb is_scalar (th_configuration_revision h) && (0 <? th_deadline h) && (1 <=? th_frame_count h).

(** [header.model_dump(mode="json")], with its keys sorted *)
Definition header_dict (h : TransportHeader) : list (pystr * json) :=
  [(u "configuration_revision", JStr (th_configuration_revision h));
   (u "deadline_monotonic_ns", JInt (th_deadline h));
   (u "frame_count", JInt (th_frame_count h));
   (u "frame_sizes", JList (JInt <$> th_frame_sizes h));
   (u "generation", JInt (th_generation h));
   (u "protocol_version", JInt (th_protocol_version h));
   (u "record_id", JStr (uuid_text (th_record_id h)));
   (u "stage", JStr (stage_value (th_stage h)))].

(** [TransportHeader.model_validate], as pydantic documents it: what it
    answers satisfies the field constraints, and it reads back a dump. *)
Class HeaderModel := {
  model_validate : list (pystr * json) -> option TransportHeader;
  validate_constrains d h : model_validate d = Some h -> header_ok h = true;
  validate_dump h : header_ok h = true -> 0 <= th_record_id h < 2 ^ 128 -> model_validate (header_dict h) = Some h }.

Definition make_header (h : TransportHeader) : result TransportHeader :=
  _ ← throw_if (negb (header_ok h)) ValueError; mret h.

Definition validate_declared_frames (h : TransportHeader) : result unit :=
  _ ← throw_if (negb (th_protocol_version h =? PROTOCOL_VERSION)) (PipelineProtocolError (Some (th_record_id h)));
  _ ← throw_if (negb (th_frame_count h =? zlen (th_frame_sizes h))) (PipelineProtocolError (Some (th_record_id h)));
  throw_if (existsb (fun size => size <? 0) (th_frame_sizes h)) (PipelineProtocolError (Some (th_record_id h))).

Definition validate_payload_limits (frames : list pybytes) (limits : PipelineLimits) (record_id : option uuid) : result unit :=
  _ ← throw_if (bool_decide (frames = [])) (PipelineProtocolError record_id);
  _ ← throw_if (max_frames limits <? zlen frames) (PipelineProtocolError record_id);
  throw_if (max_payload_bytes limits <? sum_by zlen frames) (PipelineProtocolError record_id).

Definition header_of_item (stage : PipelineStage) (i : item pybytes) : TransportHeader :=
  {| th_protocol_version := PROTOCOL_VERSION; th_record_id := it_record_id i; th_generation := it_generation i;
     th_configuration_revision := it_configuration_revision i; th_stage := stage; th_deadline := it_deadline i;
     th_frame_count := zlen (it_frames i); th_frame_sizes := zlen <$> it_frames i |}.

Definition encode_item (stage : PipelineStage) (i : item pybytes) (limits : PipelineLimits) : result (list pybytes) :=
  _ ← validate_payload_limits (it_frames i) limits (Some (it_record_id i));
  header ← make_header (header_of_item stage i);
  text ← dumps (JDict (header_dict header));
  encoded_header ← utf8_encode text;
  _ ← throw_if (max_header_bytes limits <? zlen encoded_header) (PipelineProtocolError (Some (it_record_id i)));
  mret (encoded_header :: it_frames i).

Section Framing.
Context {L : PyLibrary} {HM : HeaderModel}.

(** [json.loads(b)] where bytes not taken for UTF-8 are the library's *)
Definition loads_header (b : pybytes) : result json :=
  if starts_as_utf8 b then
    match utf8_decode b with Ok text => loads header_decoder text | Raise _ => lib_loads b end
  else lib_loads b.

(** [UUID(str(value))]: only strings and integers can read as one. *)
Definition extract_record_id (raw : list (pystr * json)) : option uuid :=
  let parse (s : pystr) := match uuid_of_text lib_int16 s with Ok r => Some r | Raise _ => None end in
  match dict_get raw (u "record_id") with
  | Some (JStr s) => parse s
  | Some (JInt n) => match dumps_int n with Ok s => parse s | Raise _ => None end
  | _ => None
  end.

Definition peek_record_and_generation (parts : list pybytes) : result (option uuid * option Z) :=
  match parts with
  | [] => mret (None, None)
  | header :: _ =>
      match loads_header header with
      | Raise e => if bool_decide (e = ValueError) then mret (None, None) else Raise e
      | Ok (JDict raw) =>
          let record_id := extract_record_id raw in
          match dict_get raw (u "generation") with
          | Some (JInt n) => if 0 <? n then mret (record_id, Some n) else mret (record_id, None)
          | Some (JBool true) => mret (record_id, Some 1)
          | _ => mret (record_id, None)
          end
      | Ok _ => mret (None, None)
      end
  end.

(** [decode_item] up to the construction of the item. *)
Definition decode_message (parts : list pybytes) (expected_stage : PipelineStage) (limits : PipelineLimits) : result (item pybytes) :=
  match parts with
  | [] | [_] => Raise (PipelineProtocolError None)
  | encoded_header :: payload_frames =>
      _ ← throw_if (max_frames limits <? zlen payload_frames) (PipelineProtocolError None);
      _ ← throw_if (max_header_bytes limits <? zlen encoded_header) (PipelineProtocolError None);
      raw ← match loads_header encoded_header with
            | Ok j => Ok j
            | Raise e => Raise (if bool_decide (e = ValueError) then PipelineProtocolError None else e)
            end;
      raw_header ← match raw with JDict d => Ok d | _ => Raise (PipelineProtocolError None) end;
      header ← match model_validate raw_header with
               | Some h => Ok h
               | None => Raise (PipelineProtocolError (extract_record_id raw_header))
               end;
      _ ← validate_declared_frames header;
      let protocol_error := PipelineProtocolError (Some (th_record_id header)) in
      _ ← throw_if (negb (bool_decide (th_stage header = expected_stage))) protocol_error;
      _ ← throw_if (negb (th_frame_count header =? zlen payload_frames)) protocol_error;
      _ ← throw_if (negb (bool_decide (zlen <$> payload_frames = th_frame_sizes header))) protocol_error;
      _ ← validate_payload_limits payload_frames limits (Some (th_record_id header));
      generation ← CaptureGeneration (th_generation header);
      mret {| it_record_id := th_record_id header; it_generation := generation;
              it_configuration_revision := th_configuration_revision header; it_deadline := th_deadline header;
              it_frames := payload_frames |}
  end.
End Framing.

(** ** The process *)

(** The sockets: one edge per receiving stage.  [zmq.Again] is a [ZMQError]. *)
Definition ZmqAgain : exn := External 12.
Definition ZMQError : exn := External 13.
Definition is_zmq_error (e : exn) : bool := bool_decide (e = ZmqAgain) || bool_decide (e = ZMQError).
Class Sockets (K : Type) := {
  send_multipart : PipelineStage -> list pybytes -> M K unit;
  recv_multipart : PipelineStage -> bool -> M K (list pybytes) }.

(** A cancellation token: the registry's event and the permit it had. *)
Record PipelineCancellationToken := {
  tk_generation : Z;
  tk_local_event : nat;
  tk_gate_permit : option CaptureWorkPermit }.

(** The processors and the sink that a stage was made with, [emit] of the
    fault sink, and [time.monotonic_ns]. *)
Class StagePorts (W : Type) := {
  stage_processor : PipelineStage -> option (item pybytes -> PipelineCancellationToken -> M W (PipelineStage * item pybytes));
  encrypted_sink : option (item pybytes -> PipelineCancellationToken -> M W unit);
  fault_emit : PipelineFaultEvent -> M W unit;
  monotonic_ns : M W Z }.

(** One stage actor: the message it handles, whether a [_PollStage] and a
    [DrainStage] are in its mailbox, its attributes and its metrics. *)
Record stage_actor := {
  a_current : option (list pybytes);
  a_poll : bool;
  a_drain : bool;
  a_polling : bool;
  a_faulted : bool;
  a_processing : bool;
  a_received : Z;
  a_completed : Z;
  a_dropped : Z;
  a_faults : Z }.

Record pipe (K W : Type) := {
  p_gate : gate;
  p_commit_held : bool;
  p_ledgers : PipelineStage -> ledger;
  p_actors : PipelineStage -> stage_actor;
  p_net : K;
  p_world : W;
  p_events : gmap Z nat;
  p_permits : gmap Z CaptureWorkPermit;
  p_cells : list bool;
  p_heap : list pybytes;
  p_coalesced : option (item nat);
  p_coalesced_held : bool;
  p_closed : bool }.
Arguments p_gate {K W}. Arguments p_commit_held {K W}. Arguments p_ledgers {K W}. Arguments p_actors {K W}.
Arguments p_net {K W}. Arguments p_world {K W}. Arguments p_events {K W}. Arguments p_permits {K W}.
Arguments p_cells {K W}. Arguments p_heap {K W}. Arguments p_coalesced {K W}. Arguments p_coalesced_held {K W}.
Arguments p_closed {K W}.

Definition set_at {X} (s : PipelineStage) (x : X) (f : PipelineStage -> X) : PipelineStage -> X :=
  fun s' => if bool_decide (s' = s) then x else f s'.

Section Setters.
Context {K W : Type}.
Implicit Type p : pipe K W.
Local Abbreviation upd g c l a n w ev pm ce h co ch cl :=
  {| p_gate := g; p_commit_held := c; p_ledgers := l; p_actors := a; p_net := n; p_world := w; p_events := ev;
     p_permits := pm; p_cells := ce; p_heap := h; p_coalesced := co; p_coalesced_held := ch; p_closed := cl |}.
Definition set_gate x p : pipe K W := upd x (p_commit_held p) (p_ledgers p) (p_actors p) (p_net p) (p_world p) (p_events p)
  (p_permits p) (p_cells p) (p_heap p) (p_coalesced p) (p_coalesced_held p) (p_closed p).
Definition set_commit_held x p : pipe K W := upd (p_gate p) x (p_ledgers p) (p_actors p) (p_net p) (p_world p) (p_events p)
  (p_permits p) (p_cells p) (p_heap p) (p_coalesced p) (p_coalesced_held p) (p_closed p).
Definition set_ledgers x p : pipe K W := upd (p_gate p) (p_commit_held p) x (p_actors p) (p_net p) (p_world p) (p_events p)
  (p_permits p) (p_cells p) (p_heap p) (p_coalesced p) (p_coalesced_held p) (p_closed p).
Definition set_actors x p : pipe K W := upd (p_gate p) (p_commit_held p) (p_ledgers p) x (p_net p) (p_world p) (p_events p)
  (p_permits p) (p_cells p) (p_heap p) (p_coalesced p) (p_coalesced_held p) (p_closed p).
Definition set_net x p : pipe K W := upd (p_gate p) (p_commit_held p) (p_ledgers p) (p_actors p) x (p_world p) (p_events p)
  (p_permits p) (p_cells p) (p_heap p) (p_coalesced p) (p_coalesced_held p) (p_closed p).
Definition set_world x p : pipe K W := upd (p_gate p) (p_commit_held p) (p_ledgers p) (p_actors p) (p_net p) x (p_events p)
  (p_permits p) (p_cells p) (p_heap p) (p_coalesced p) (p_coalesced_held p) (p_closed p).
Definition set_registry ev pm ce p : pipe K W := upd (p_gate p) (p_commit_held p) (p_ledgers p) (p_actors p) (p_net p) (p_world p)
  ev pm ce (p_heap p) (p_coalesced p) (p_coalesced_held p) (p_closed p).
Definition set_heap x p : pipe K W := upd (p_gate p) (p_commit_held p) (p_ledgers p) (p_actors p) (p_net p) (p_world p) (p_events p)
  (p_permits p) (p_cells p) x (p_coalesced p) (p_coalesced_held p) (p_closed p).
Definition set_coalesced x p : pipe K W := upd (p_gate p) (p_commit_held p) (p_ledgers p) (p_actors p) (p_net p) (p_world p) (p_events p)
  (p_permits p) (p_cells p) (p_heap p) x (p_coalesced_held p) (p_closed p).
Definition set_coalesced_held x p : pipe K W := upd (p_gate p) (p_commit_held p) (p_ledgers p) (p_actors p) (p_net p) (p_world p)
  (p_events p) (p_permits p) (p_cells p) (p_heap p) (p_coalesced p) x (p_closed p).
Definition set_closed x p : pipe K W := upd (p_gate p) (p_commit_held p) (p_ledgers p) (p_actors p) (p_net p) (p_world p) (p_events p)
  (p_permits p) (p_cells p) (p_heap p) (p_coalesced p) (p_coalesced_held p) x.
End Setters.

Section ActorSetters.
Implicit Type x : stage_actor.
Local Abbreviation upd cu pl dr po fa pr re co dd ff :=
  {| a_current := cu; a_poll := pl; a_drain := dr; a_polling := po; a_faulted := fa; a_processing := pr; a_received := re;
     a_completed := co; a_dropped := dd; a_faults := ff |}.
Definition set_current c x := upd c (a_poll x) (a_drain x) (a_polling x) (a_faulted x) (a_processing x) (a_received x) (a_completed x)
  (a_dropped x) (a_faults x).
Definition set_poll b x := upd (a_current x) b (a_drain x) (a_polling x) (a_faulted x) (a_processing x) (a_received x) (a_completed x)
  (a_dropped x) (a_faults x).
Definition set_drain b x := upd (a_current x) (a_poll x) b (a_polling x) (a_faulted x) (a_processing x) (a_received x) (a_completed x)
  (a_dropped x) (a_faults x).
Definition set_polling b x := upd (a_current x) (a_poll x) (a_drain x) b (a_faulted x) (a_processing x) (a_received x) (a_completed x)
  (a_dropped x) (a_faults x).
Definition set_faulted b x := upd (a_current x) (a_poll x) (a_drain x) (a_polling x) b (a_processing x) (a_received x) (a_completed x)
  (a_dropped x) (a_faults x).
(** [StageMetrics] *)
Definition set_processing b x := upd (a_current x) (a_poll x) (a_drain x) (a_polling x) (a_faulted x) b (a_received x) (a_completed x)
  (a_dropped x) (a_faults x).
Definition metrics_received x := upd (a_current x) (a_poll x) (a_drain x) (a_polling x) (a_faulted x) (a_processing x) (a_received x + 1)
  (a_completed x) (a_dropped x) (a_faults x).
Definition metrics_completed x := upd (a_current x) (a_poll x) (a_drain x) (a_polling x) (a_faulted x) (a_processing x) (a_received x)
  (a_completed x + 1) (a_dropped x) (a_faults x).
Definition metrics_dropped x := upd (a_current x) (a_poll x) (a_drain x) (a_polling x) (a_faulted x) (a_processing x) (a_received x)
  (a_completed x) (a_dropped x + 1) (a_faults x).
Definition metrics_faulted x := upd (a_current x) (a_poll x) (a_drain x) (a_polling x) (a_faulted x) (a_processing x) (a_received x)
  (a_completed x) (a_dropped x) (a_faults x + 1).
End ActorSetters.

Section Process.
Context {L : PyLibrary} {HM : HeaderModel} {K W : Type} `{Sockets K} `{StagePorts W}.
Variable limits : PipelineLimits.
(** [_owner_thread] of the runtime and of the ingress *)
Variable owner : Z.
Local Abbreviation P := (pipe K W).
Local Abbreviation T := (thread P).

Definition on_gate {A} (m : M gate A) : M P A := zoom p_gate set_gate m.
Definition on_world {A} (m : M W A) : M P A := zoom p_world set_world m.
Definition on_net {A} (m : M K A) : M P A := zoom p_net set_net m.
Definition on_ledger {A} (s : PipelineStage) (m : M ledger A) : M P A :=
  zoom (fun p => p_ledgers p s) (fun l p => set_ledgers (set_at s l (p_ledgers p)) p) m.
Definition on_actor (s : PipelineStage) (f : stage_actor -> stage_actor) : M P unit :=
  modify (fun p => set_actors (set_at s (f (p_actors p s)) (p_actors p)) p).

Definition capacity (s : PipelineStage) : Z := match s with RAW => raw_queue_items limits | _ => stage_queue_items limits end.
Definition acquire_credit (s : PipelineStage) (generation : Z) : M P bool := on_ledger s (try_acquire (capacity s) generation).
Definition release_credit (s : PipelineStage) (generation : Z) : M P bool := on_ledger s (release_if_acquired generation).

Definition destroy (i : item nat) : M P unit := modify (fun p => set_heap (wipe (it_frames i) (p_heap p)) p).

(** ** [pipeline/cancellation.py] *)

(** [self._events.setdefault(generation, threading.Event())] *)
Definition event_for (generation : Z) : M P nat := fun p =>
  match p_events p !! generation with
  | Some e => (p, Ok e)
  | None => (set_registry (<[generation := length (p_cells p)]> (p_events p)) (p_permits p) (p_cells p ++ [false]) p,
             Ok (length (p_cells p)))
  end.
Definition attach (permit : CaptureWorkPermit) : M P unit :=
  _ ← event_for (permit_generation permit);
  modify (fun p => set_registry (p_events p) (<[permit_generation permit := permit]> (p_permits p)) (p_cells p) p).
Definition token (generation : Z) : M P PipelineCancellationToken :=
  e ← event_for generation;
  permit ← gets (fun p => p_permits p !! generation);
  mret {| tk_generation := generation; tk_local_event := e; tk_gate_permit := permit |}.
Definition cancel (generation : Z) : M P unit :=
  e ← event_for generation;
  modify (fun p => set_registry (p_events p) (p_permits p) (<[e := true]> (p_cells p)) p).
Definition clear (generation : Z) : M P unit :=
  modify (fun p => set_registry (delete generation (p_events p)) (delete generation (p_permits p)) (p_cells p) p).
Definition token_cancelled (t : PipelineCancellationToken) (p : P) : bool :=
  default false (p_cells p !! tk_local_event t) ||
  match tk_gate_permit t with Some permit => permit_cancelled permit (p_gate p) | None => false end.

(** ** [pipeline/actors.py] *)

Definition frames_of (i : PipelineItem) (p : P) : item pybytes := item_bytes (p_heap p) i.

(** [tuple(bytearray(frame) for frame in payload_frames)] *)
Definition new_buffers (frames : list pybytes) : M P (list nat) := fun p =>
  (set_heap (p_heap p ++ frames) p, Ok (seq (length (p_heap p)) (length frames))).

Definition item_at (s : PipelineStage) (i : item pybytes) : M P PipelineItem :=
  match s with
  | RAW => frames ← new_buffers (it_frames i); mret (RawStageItem (with_frames frames i))
  | ANALYZED => mret (AnalyzedStageItem i)
  | REDACTED => mret (RedactedStageItem i)
  | ENCRYPTED => mret (EncryptedStageItem i)
  end.
Definition decode_item (parts : list pybytes) (expected_stage : PipelineStage) : M P PipelineItem :=
  i ← lift (decode_message parts expected_stage limits); item_at expected_stage i.

(** [self._gate.run_persistence(generation, operation)] and [run_capture] *)
Definition gate_run_persistence {A} (generation : Z) (operation : CaptureWorkPermit -> T A) : T A :=
  locking p_commit_held set_commit_held
    (permit ← act (on_gate (acquire_persistence_operation generation));
     finally (operation permit) (act (on_gate (release_operation (permit_generation permit))))).
Definition gate_run_capture {A} (operation : CaptureWorkPermit -> T A) : T A :=
  permit ← act (on_gate acquire_capture_operation);
  finally (operation permit) (act (on_gate (release_operation (permit_generation permit)))).

Section Actor.
Variable stage : PipelineStage.

Definition emit_fault (record_id : uuid) (code : PipelineFaultCode) : T unit :=
  _ ← act (on_actor stage metrics_faulted);
  attempt (act (on_world (fault_emit {| fe_record_id := record_id; fe_stage := stage; fe_fault_code := code |})))
    (fun _ => act (on_actor stage (set_polling false))).

Definition process (i : item pybytes) (t : PipelineCancellationToken) : T (PipelineStage * item pybytes) :=
  match stage_processor stage with
  | None => throw (PipelineProtocolError (Some (it_record_id i)))
  | Some processor => act (on_world (processor i t))
  end.

Definition persist (i : item pybytes) (t : PipelineCancellationToken) : T unit :=
  match encrypted_sink with
  | None => throw (PipelineProtocolError (Some (it_record_id i)))
  | Some sink => gate_run_persistence (it_generation i) (fun _ => act (on_world (sink i t)))
  end.

Definition validate_output (source : item pybytes) (output : PipelineStage * item pybytes) : result unit :=
  expected ← match next_stage stage with Some s => Ok s | None => Raise KeyError end;
  let protocol_error := PipelineProtocolError (Some (it_record_id source)) in
  _ ← throw_if (negb (bool_decide (output.1 = expected))) protocol_error;
  _ ← throw_if (negb (it_record_id output.2 =? it_record_id source)) protocol_error;
  _ ← throw_if (negb (it_generation output.2 =? it_generation source)) protocol_error;
  throw_if (negb (bool_decide (it_configuration_revision output.2 = it_configuration_revision source))) protocol_error.

(** [push.send_multipart(encode_item(...))] after the acquisition *)
Definition send_encoded (edge : PipelineStage) (source : PipelineItem) : T bool :=
  attempt
    (parts ← act (i ← gets (frames_of source); lift (encode_item (item_stage source) i limits));
     _ ← act (on_net (send_multipart edge parts));
     mret true)
    (fun e => if is_zmq_error e then
                _ ← act (release_credit edge (it_generation (item_bytes [] source))); mret false
              else throw e).

Definition stage_item (o : PipelineStage * item pybytes) : PipelineItem :=
  match o.1 with
  | ENCRYPTED => EncryptedStageItem o.2 | REDACTED => RedactedStageItem o.2 | _ => AnalyzedStageItem o.2
  end.

Definition send_output (output : PipelineStage * item pybytes) : T bool :=
  match next_stage stage with
  | None => throw (PipelineProtocolError (Some (it_record_id output.2)))
  | Some edge =>
      acquired ← act (acquire_credit edge (it_generation output.2));
      if (acquired : bool) then send_encoded edge (stage_item output) else mret false
  end.

(** [self._faulted or token.cancelled or time.monotonic_ns() >= deadline] *)
Definition must_drop (t : PipelineCancellationToken) (deadline : Z) : T bool :=
  faulted ← act (gets (fun p => a_faulted (p_actors p stage)));
  if (faulted : bool) then mret true
  else
    cancelled ← act (gets (token_cancelled t));
    if (cancelled : bool) then mret true
    else now ← act (on_world monotonic_ns); mret (deadline <=? now).

Definition dropped : T unit := act (on_actor stage metrics_dropped).
Definition is_stale_error (e : exn) : bool := bool_decide (e = CaptureGateClosed) || bool_decide (e = StaleCaptureGeneration).

(** The [try] body of [_handle_parts] once the item is decoded. *)
Definition handle_item (p : PipelineItem) : T unit :=
  i ← act (gets (frames_of p));
  t ← act (token (it_generation i));
  drop ← must_drop t (it_deadline i);
  if (drop : bool) then dropped
  else
    current ← attempt (_ ← act (on_gate (require_current_generation (it_generation i))); mret true)
                (fun e => if is_stale_error e then mret false else throw e);
    if negb current then dropped
    else
      _ ← act (on_actor stage (set_processing true));
      match stage with
      | ENCRYPTED => _ ← persist i t; act (on_actor stage metrics_completed)
      | _ =>
          output ← process i t;
          cancelled ← act (gets (token_cancelled t));
          if (cancelled : bool) then dropped
          else
            _ ← act (on_gate (require_current_generation (it_generation i)));
            _ ← act (lift (validate_output i output));
            sent ← send_output output;
            if negb sent then dropped else act (on_actor stage metrics_completed)
      end.

(** The [except] clauses *)
Definition on_failure (record_id : option uuid) (e : exn) : T unit :=
  if is_stale_error e then dropped
  else
    _ ← act (on_actor stage (set_faulted true));
    emit_fault (default 0 record_id)
      (match e with
       | PipelineProtocolError _ => PROTOCOL_FAILURE
       | _ => match stage with ENCRYPTED => PERSISTENCE_FAILURE | _ => PROCESSOR_FAILURE end
       end).

(** The [finally] clause; giving the credit back is the handler's last act. *)
Definition finish_item (raw : option (item nat)) (generation : option Z) : T unit :=
  _ ← act (on_actor stage (set_processing false));
  _ ← match raw with Some i => act (destroy i) | None => mret tt end;
  match generation with
  | Some g => act (_ ← release_credit stage g; on_actor stage (set_current None))
  | None => act (on_actor stage (set_current None))
  end.

Definition raw_item (p : PipelineItem) : option (item nat) := match p with RawStageItem i => Some i | _ => None end.

Definition handle_parts (parts : list pybytes) : T unit :=
  peeked ← act (lift (peek_record_and_generation parts));
  decoded ← attempt (p ← act (decode_item parts stage); mret (Ok p)) (fun e => mret (Raise e));
  match decoded with
  | Ok p =>
      let i := item_bytes [] p in
      finally (attempt (handle_item p) (on_failure (Some (it_record_id i)))) (finish_item (raw_item p) (Some (it_generation i)))
  | Raise e => finally (on_failure peeked.1 e) (finish_item None peeked.2)
  end.

(** A receive; what it answers is the handler's argument. *)
Definition receive (nonblocking : bool) : M P (list pybytes) :=
  parts ← on_net (recv_multipart stage nonblocking);
  _ ← on_actor stage (set_current (Some parts));
  mret parts.

Definition poll_once : T unit :=
  received ← attempt (parts ← act (receive false); mret (Ok parts)) (fun e => if is_zmq_error e then mret (Raise e) else throw e);
  match received with
  | Ok parts => _ ← act (on_actor stage metrics_received); handle_parts parts
  | Raise e =>
      if bool_decide (e = ZmqAgain) then mret tt
      else _ ← emit_fault 0 TRANSPORT_FAILURE; act (on_actor stage (set_faulted true))
  end.

(** One round of [_drain]'s loop: whether there is another *)
Definition drain_round : T bool :=
  received ← attempt (parts ← act (receive true); mret (Some parts)) (fun e => if is_zmq_error e then mret None else throw e);
  match received with
  | None => mret false
  | Some parts =>
      peeked ← act (lift (peek_record_and_generation parts));
      _ ← match peeked.2 with
          | Some g => act (_ ← release_credit stage g; on_actor stage (set_current None))
          | None => act (on_actor stage (set_current None))
          end;
      decoded ← attempt (p ← act (decode_item parts stage); mret (Some p))
                  (fun e => match e with PipelineProtocolError _ => mret None | _ => throw e end);
      _ ← match decoded ≫= raw_item with Some i => act (destroy i) | None => mret tt end;
      _ ← dropped;
      mret true
  end.

(** [_drain]: a run receives some number of messages, [rounds] or less. *)
Fixpoint drain (rounds : nat) : T unit :=
  match rounds with
  | O => never
  | S rounds => more ← drain_round; if (more : bool) then drain rounds else mret tt
  end.

(** [on_receive] of a [_PollStage] and of a [DrainStage] *)
Definition on_poll : T unit :=
  _ ← await (fun p => a_poll (p_actors p stage)) (on_actor stage (set_poll false));
  _ ← poll_once;
  act (fun p => on_actor stage (set_poll (a_polling (p_actors p stage))) p).
Definition on_drain (rounds : nat) : T unit :=
  _ ← await (fun p => a_drain (p_actors p stage)) (mret tt);
  finally (drain rounds) (act (on_actor stage (set_drain false))).
End Actor.

(** ** [pipeline/ingress.py] *)

Definition assert_owner (me : Z) : M P unit := require (me =? owner) RuntimeError.
Definition result_of (i : item nat) (status : SubmissionStatus) : SubmissionResult :=
  {| sr_record_id := it_record_id i; sr_status := status; sr_replaced := None |}.

Definition with_coalesced {A} (t : T A) : T A := locking p_coalesced_held set_coalesced_held t.

(** [previous = self._coalesced; self._coalesced = item; ...] *)
Definition coalesce (i : item nat) : M P SubmissionResult :=
  previous ← gets p_coalesced;
  _ ← modify (set_coalesced (Some i));
  match previous with
  | Some j =>
      _ ← destroy j;
      mret {| sr_record_id := it_record_id i; sr_status := COALESCED; sr_replaced := Some (it_record_id j) |}
  | None => mret (result_of i COALESCED)
  end.
Definition handle_overload (i : item nat) : T SubmissionResult :=
  match overload_policy limits with
  | DROP_NEWEST => _ ← act (destroy i); mret (result_of i DROPPED)
  | COALESCE_LATEST => with_coalesced (act (coalesce i))
  end.

Definition submit (me : Z) (i : item nat) (permit : CaptureWorkPermit) : T SubmissionResult :=
  _ ← act (assert_owner me);
  closed ← act (gets p_closed);
  if (closed : bool) then _ ← act (destroy i); throw RuntimeError
  else
    _ ← act (attach permit);
    cancelled ← act (gets (fun p => permit_cancelled permit (p_gate p)));
    if (cancelled : bool) then _ ← act (destroy i); mret (result_of i DROPPED)
    else
      acquired ← act (acquire_credit RAW (it_generation i));
      if negb acquired then handle_overload i
      else
        sent ← send_encoded RAW (RawStageItem i);
        if negb sent then handle_overload i
        else _ ← act (destroy i); mret (result_of i ACCEPTED).

Definition drop_coalesced (i : item nat) : M P unit := _ ← modify (set_coalesced None); destroy i.

Definition ingress_flush (me : Z) (permit : CaptureWorkPermit) : T (option SubmissionResult) :=
  _ ← act (assert_owner me);
  with_coalesced
    (found ← act (gets p_coalesced);
     match found with
     | None => mret None
     | Some i =>
         cancelled ← act (gets (fun p => permit_cancelled permit (p_gate p)));
         if negb (it_generation i =? permit_generation permit) || cancelled then
           _ ← act (drop_coalesced i); mret (Some (result_of i DROPPED))
         else
           acquired ← act (acquire_credit RAW (it_generation i));
           if negb acquired then mret (Some (result_of i COALESCED))
           else
             sent ← send_encoded RAW (RawStageItem i);
             if negb sent then mret (Some (result_of i COALESCED))
             else _ ← act (drop_coalesced i); mret (Some (result_of i ACCEPTED))
     end).

Definition concerns (generation : option Z) (i : item nat) : bool :=
  match generation with Some g => it_generation i =? g | None => true end.
Definition clear_coalesced (generation : option Z) : T unit :=
  with_coalesced
    (found ← act (gets p_coalesced);
     match found with
     | Some i => if concerns generation i then act (drop_coalesced i) else mret tt
     | None => mret tt
     end).
Definition has_coalesced (generation : option Z) : T bool :=
  with_coalesced (act (gets (fun p => match p_coalesced p with Some i => concerns generation i | None => false end))).

(** [close]; closing the socket is left out. *)
Definition ingress_close (me : Z) : T unit :=
  _ ← act (assert_owner me);
  closed ← act (gets p_closed);
  if (closed : bool) then mret tt
  else _ ← clear_coalesced None; act (modify (set_closed true)).

(** ** [pipeline/runtime.py] *)

Definition DEADLINE_NS : Z := 30000000000.

Definition submit_raw (me : Z) (record_id : uuid) (frames : list nat) (expected_generation : Z) (deadline : option Z)
    : T SubmissionResult :=
  _ ← act (assert_owner me);
  deadline ← match deadline with
             | Some d => if d =? 0 then now ← act (on_world monotonic_ns); mret (now + DEADLINE_NS) else mret d
             | None => now ← act (on_world monotonic_ns); mret (now + DEADLINE_NS)
             end;
  attempt
    (gate_run_capture (fun permit =>
       if negb (permit_generation permit =? expected_generation) then throw StaleCaptureGeneration
       else submit me {| it_record_id := record_id; it_generation := expected_generation;
                         it_configuration_revision := permit_revision permit; it_deadline := deadline;
                         it_frames := frames |} permit))
    (fun e => _ ← act (modify (fun p => set_heap (wipe frames (p_heap p)) p)); throw e).

Definition flush_coalesced (me : Z) : T (option SubmissionResult) :=
  _ ← act (assert_owner me);
  gate_run_capture (ingress_flush me).

Definition cancel_queued (generation : Z) : T unit := _ ← act (cancel generation); clear_coalesced (Some generation).
Definition cancel_in_flight (generation : Z) : T unit := act (cancel generation).

(** [wait_for_zero]: a wait sees some number of wake-ups before its deadline. *)
Fixpoint wait_for_zero (s : PipelineStage) (generation : Z) (wakeups : nat) : T bool :=
  in_use ← act (gets (fun p => credit_of (p_ledgers p s) generation));
  if in_use <=? 0 then mret true
  else match wakeups with O => mret false | S wakeups => wait_for_zero s generation wakeups end.

(** The loop over the ledgers; [None]: the deadline has passed before. *)
Fixpoint wait_ledgers (generation : Z) (waits : list (PipelineStage * option nat)) : T bool :=
  match waits with
  | [] => mret true
  | (s, Some wakeups) :: waits =>
      zero ← wait_for_zero s generation wakeups;
      if (zero : bool) then wait_ledgers generation waits else mret false
  | (_, None) :: _ => mret false
  end.
Definition wait_for_quiescence (generation : Z) (waits : PipelineStage -> option nat) : T bool :=
  zero ← wait_ledgers generation ((fun s => (s, waits s)) <$> all_stages);
  if (zero : bool) then coalesced ← has_coalesced (Some generation); mret (negb coalesced) else mret false.

(** [actor_ref.ask(DrainStage(), timeout)]: [patient] tells whether the answer
    comes in time. *)
Definition AskTimeout : exn := External 14.
Definition ask_drain (patient : PipelineStage -> bool) (s : PipelineStage) : T unit :=
  _ ← act (on_actor s (set_drain true));
  if patient s then await (fun p => negb (a_drain (p_actors p s))) (mret tt) else throw AskTimeout.

Definition clear_volatile_buffers (patient : PipelineStage -> bool) (generation : option Z) : T unit :=
  _ ← clear_coalesced generation;
  _ ← each (rev all_stages) (ask_drain patient);
  match generation with Some g => act (clear g) | None => mret tt end.
End Process.

(** [apply_submission_feedback] *)
Definition apply_submission_feedback (r : SubmissionResult) : controller -> controller :=
  match sr_status r with
  | ACCEPTED => note_success
  | DROPPED | COALESCED => note_overload
  end.
