(* ===== verification/PipelineFacts.v ===== *)
(** * PipelineFacts: framing and the credit ledger.

    A message decodes to the item it was encoded from; the credits of a ledger
    as numbers. *)

From S2P Require Import Prelude PyStr Utf8 Json JsonFacts PyLib Storage PyData Codec CodecFacts Gate GateFacts GateThreads Adaptive Concurrent Pipeline.

(** ** Framing *)

Section Framing.
Context {L : PyLibrary} {HM : HeaderModel}.

Lemma transport_header_printable h : header_ok h = true -> 0 <= th_record_id h -> printable (JDict (header_dict h)) = true.
Proof.
  unfold header_ok. intros Hh Hr. btauto_hyps. unfold header_dict. cbn [printable].
  apply andb_true_iff. split; [|vm_compute; reflexivity]. apply forallb_Forall.
  repeat apply Forall_cons_2; try apply Forall_nil_2;
    (apply andb_true_iff; split; [vm_compute; reflexivity|]; cbn [printable snd]); try reflexivity; try done.
  - rewrite forallb_fmap. by apply forallb_Forall, Forall_true.
  - by apply ascii_scalar, uuid_text_ascii.
  - by destruct (th_stage h).
Qed.

Lemma loads_header_dump h text b : header_ok h = true -> 0 <= th_record_id h ->
  dumps (JDict (header_dict h)) = Ok text -> utf8_encode text = Ok b -> loads_header b = Ok (JDict (header_dict h)).
Proof.
  intros Hh Hr Ht Hb. unfold loads_header.
  rewrite (dict_starts_utf8 (header_dict h) text b), (utf8_round_trip _ _ Hb) by done.
  apply loads_printed; [done|by apply transport_header_printable|done].
Qed.

(** What a successful encoding has checked, and made. *)
Lemma encode_item_inv stage i limits parts : encode_item stage i limits = Ok parts ->
  exists b text, parts = b :: it_frames i /\ validate_payload_limits (it_frames i) limits (Some (it_record_id i)) = Ok tt /\
    header_ok (header_of_item stage i) = true /\ dumps (JDict (header_dict (header_of_item stage i))) = Ok text /\
    utf8_encode text = Ok b /\ zlen b <= max_header_bytes limits.
Proof.
  unfold encode_item, make_header. intros H. ok_steps.
  btauto_hyps. repeat match goal with x : unit |- _ => destruct x end. eauto 12.
Qed.

Lemma validate_declared_item stage i : validate_declared_frames (header_of_item stage i) = Ok tt.
Proof.
  unfold validate_declared_frames. cbn -[PROTOCOL_VERSION]. rewrite Z.eqb_refl. cbn -[PROTOCOL_VERSION].
  assert (zlen (zlen <$> it_frames i) = zlen (it_frames i)) as -> by (unfold zlen; by rewrite length_fmap).
  rewrite Z.eqb_refl. cbn -[existsb]. apply throw_if_ok. apply (existsb_Forall _ (fun n => 0 <= n)); [intros n; apply Z.ltb_ge|].
  apply Forall_fmap, Forall_true. intros b. apply zlen_nonneg.
Qed.

Lemma header_record_id h : 0 <= th_record_id h < 2 ^ 128 -> extract_record_id (header_dict h) = Some (th_record_id h).
Proof.
  intros Hr. unfold extract_record_id. change (dict_get (header_dict h) (u "record_id")) with (Some (JStr (uuid_text (th_record_id h)))).
  cbn iota beta. by rewrite uuid_round_trip.
Qed.

Lemma header_frames limits stage i b text : zlen b <= max_header_bytes limits ->
  validate_payload_limits (it_frames i) limits (Some (it_record_id i)) = Ok tt ->
  header_ok (header_of_item stage i) = true -> 0 <= it_record_id i < 2 ^ 128 ->
  dumps (JDict (header_dict (header_of_item stage i))) = Ok text -> utf8_encode text = Ok b ->
  decode_message (b :: it_frames i) stage limits = Ok i.
Proof.
  intros Hb Hv Hh Hr Ht Hu. pose proof Hv as Hv'. unfold validate_payload_limits in Hv'. ok_steps. btauto_hyps.
  destruct (it_frames i) as [|f fs] eqn:Ef; [done|]. unfold decode_message.
  rewrite (proj2 (Z.ltb_ge _ _)) by done. rewrite (proj2 (Z.ltb_ge _ _)) by done. rewrite !throw_if_false, !result_bind_ret.
  rewrite (loads_header_dump _ _ _ Hh (proj1 Hr) Ht Hu), !result_bind_ret.
  rewrite (validate_dump _ Hh Hr), result_bind_ret, (validate_declared_item stage i), result_bind_ret.
  cbn [th_stage header_of_item th_frame_count th_frame_sizes th_record_id th_generation th_deadline th_configuration_revision].
  rewrite (bool_decide_true (stage = stage)), Ef, Z.eqb_refl by done. cbn [negb]. rewrite !throw_if_false, !result_bind_ret.
  rewrite (bool_decide_true (_ = _)) by done. cbn [negb]. rewrite throw_if_false, result_bind_ret.
  rewrite Hv, result_bind_ret. rewrite generation_ok, result_bind_ret; [by destruct i; cbn in *; subst|].
  unfold header_ok in Hh. btauto_hyps. done.
Qed.

Lemma peek_encoded stage i limits parts : encode_item stage i limits = Ok parts -> 0 <= it_record_id i < 2 ^ 128 ->
  peek_record_and_generation parts = Ok (Some (it_record_id i), Some (it_generation i)).
Proof.
  intros H Hr. apply encode_item_inv in H as (b&text&->&_&Hh&Ht&Hu&_). unfold peek_record_and_generation.
  rewrite (loads_header_dump _ _ _ Hh (proj1 Hr) Ht Hu), header_record_id by done.
  change (dict_get (header_dict (header_of_item stage i)) (u "generation")) with (Some (JInt (it_generation i))). cbn iota beta.
  unfold header_ok in Hh. cbn in Hh. btauto_hyps. by rewrite (proj2 (Z.ltb_lt _ _)).
Qed.

Lemma decode_encoded stage i limits parts : encode_item stage i limits = Ok parts -> 0 <= it_record_id i < 2 ^ 128 ->
  decode_message parts stage limits = Ok i /\ peek_record_and_generation parts = Ok (Some (it_record_id i), Some (it_generation i)).
Proof.
  intros H Hr. split; [|by eapply peek_encoded].
  apply encode_item_inv in H as (b&text&->&Hv&Hh&Ht&Hu&Hb). by eapply header_frames.
Qed.

(** C14 (framing_round_trip): a message decodes at its stage to the item it was
    encoded from, with the same frames, and its header tells the record and the
    generation to whoever only peeks; no other stage accepts it. *)
Theorem framing_round_trip stage i limits parts :
  encode_item stage i limits = Ok parts -> 0 <= it_record_id i < 2 ^ 128 ->
  decode_message parts stage limits = Ok i /\
  peek_record_and_generation parts = Ok (Some (it_record_id i), Some (it_generation i)) /\
  (forall stage', stage' <> stage -> is_ok (decode_message parts stage' limits) = false).
Proof.
  intros H Hr. destruct (decode_encoded stage i limits parts H Hr) as [Hd Hp]. split; [done|]. split; [done|].
  intros stage' Hs. destruct (decode_message parts stage' limits) as [i'|] eqn:E; [exfalso|done].
    apply encode_item_inv in H as (b&text&->&Hv&Hh&Ht&Hu&Hb). unfold decode_message in E.
    destruct (it_frames i); [done|]. ok_steps.
    rewrite (loads_header_dump _ _ _ Hh (proj1 Hr) Ht Hu) in *. simplify_eq. rewrite (validate_dump _ Hh Hr) in *. simplify_eq.
    btauto_hyps. cbn [th_stage header_of_item] in *. congruence.
Qed.

(** Whatever parts arrive, what is decoded is within the limits and belongs to
    a positive generation. *)
Lemma decoded_bounds parts stage limits i : decode_message parts stage limits = Ok i ->
  0 < it_generation i /\ it_frames i = tail parts /\ 1 <= zlen (it_frames i) <= max_frames limits /\
  sum_by zlen (it_frames i) <= max_payload_bytes limits.
Proof.
  unfold decode_message. destruct parts as [|h [|f fs]]; [done..|]. intros H. ok_steps.
  unfold validate_payload_limits, CaptureGeneration in *. ok_steps.
  match goal with H : (if ?c then _ else _) = Ok _ |- _ => destruct c eqn:? ; [done|injection H as <-] end.
  btauto_hyps. cbn [it_generation it_frames tail]. split; [done|]. split; [done|]. split; [|done].
  split; [unfold zlen; cbn; lia|done].
Qed.
End Framing.

(** A model that reads back its own dumps *)
Definition sample_validate (d : list (pystr * json)) : option TransportHeader :=
  match d with
  | [(_, JStr revision); (_, JInt deadline); (_, JInt count); (_, JList sizes); (_, JInt generation); (_, JInt version);
     (_, JStr record_id); (_, JStr stage)] =>
      match uuid_of_text (fun _ => Raise ValueError) record_id, List.find (fun s => bool_decide (stage_value s = stage)) all_stages with
      | Ok r, Some s =>
          let h := {| th_protocol_version := version; th_record_id := r; th_generation := generation;
                      th_configuration_revision := revision; th_stage := s; th_deadline := deadline; th_frame_count := count;
                      th_frame_sizes := omap (fun j => match j with JInt n => Some n | _ => None end) sizes |} in
          if header_ok h then Some h else None
      | _, _ => None
      end
  | _ => None
  end.

Definition sample_header_model : HeaderModel.
Proof.
  refine {| model_validate := sample_validate |}.
  - intros d h. unfold sample_validate. intros Hv. repeat case_match; by simplify_eq.
  - intros h Hh Hr. unfold sample_validate, header_dict. rewrite uuid_round_trip by done.
    assert (List.find (fun s => bool_decide (stage_value s = stage_value (th_stage h))) all_stages = Some (th_stage h)) as ->
      by (destruct h as [? ? ? ? []]; vm_compute; reflexivity).
    assert (Hs : omap (fun j => match j with JInt n => Some n | _ => None end) (JInt <$> th_frame_sizes h) = th_frame_sizes h).
    { induction (th_frame_sizes h) as [|n l IH]; [done|]. cbn. by rewrite IH. }
    rewrite Hs. destruct h; cbn in *. by rewrite Hh.
Defined.

Definition sample_item : item pybytes :=
  {| it_record_id := 77; it_generation := 1; it_configuration_revision := u "rev"; it_deadline := 5; it_frames := [[1; 2; 3]; []] |}.

Definition sample_parts : list pybytes := match encode_item REDACTED sample_item default_limits with Ok parts => parts | Raise _ => [] end.

Lemma framing_round_trip_witness :
  length sample_parts = 3%nat /\ decode_message (HM := sample_header_model) sample_parts REDACTED default_limits = Ok sample_item /\
  peek_record_and_generation sample_parts = Ok (Some 77, Some 1).
Proof.
  split; [vm_compute; reflexivity|].
  destruct (framing_round_trip (HM := sample_header_model) REDACTED sample_item default_limits sample_parts) as (Hd&Hp&_);
    [vm_compute; reflexivity|split; vm_compute; done|]. by split.
Defined.

(** ** Credits *)

Lemma in_use_fresh (l : ledger) g n : l !! g = None -> in_use_locked (<[g := n]> l) = n + in_use_locked l.
Proof. intros Hg. unfold in_use_locked. by rewrite (sum_by_perm snd _ _ (map_to_list_insert l g n Hg)), sum_by_cons. Qed.

Lemma in_use_delete (l : ledger) g : in_use_locked (delete g l) = in_use_locked l - credit_of l g.
Proof.
  unfold credit_of. destruct (l !! g) as [v|] eqn:E; cbn; [|rewrite delete_id by done; lia].
  rewrite <- (insert_delete_id l g v E) at 2. rewrite in_use_fresh by (by rewrite lookup_delete_eq). lia.
Qed.

Lemma in_use_insert (l : ledger) g n : in_use_locked (<[g := n]> l) = in_use_locked l - credit_of l g + n.
Proof. rewrite <- insert_delete_eq, in_use_fresh, in_use_delete by (by rewrite lookup_delete_eq). lia. Qed.

Lemma credit_insert (l : ledger) g n g' : credit_of (<[g := n]> l) g' = if bool_decide (g = g') then n else credit_of l g'.
Proof. unfold credit_of. rewrite lookup_insert. by repeat case_decide; case_bool_decide. Qed.
Lemma credit_delete (l : ledger) g g' : credit_of (delete g l) g' = if bool_decide (g = g') then 0 else credit_of l g'.
Proof. unfold credit_of. rewrite lookup_delete. by repeat case_decide; case_bool_decide. Qed.

(** The counts kept are positive, and do not exceed the capacity together. *)
Definition ledger_ok (cap : Z) (l : ledger) : Prop := map_Forall (fun _ n => 0 < n) l /\ in_use_locked l <= cap.

Lemma credit_nonneg cap l g : ledger_ok cap l -> 0 <= credit_of l g.
Proof. intros [Hl _]. unfold credit_of. destruct (l !! g) as [n|] eqn:E; cbn; [|lia]. by apply Z.lt_le_incl, (Hl g). Qed.

Lemma empty_ledger_ok cap : 0 <= cap -> ledger_ok cap ∅.
Proof. intros Hc. split; [apply map_Forall_empty|]. unfold in_use_locked. by rewrite map_to_list_empty. Qed.

Lemma acquire_ok cap g l : ledger_ok cap l -> exists b, (try_acquire cap g l).2 = Ok b /\ ledger_ok cap (try_acquire cap g l).1 /\
  forall g', credit_of (try_acquire cap g l).1 g' = credit_of l g' + if b && bool_decide (g = g') then 1 else 0.
Proof.
  intros Hl. unfold try_acquire. destruct (Z.leb_spec cap (in_use_locked l)) as [Hc|Hc]; cbn.
  - exists false. split; [done|]. split; [done|]. intros g'. cbn. lia.
  - exists true. split; [done|]. pose proof (credit_nonneg _ _ g Hl). destruct Hl as [Hp Hu]. split.
    + split; [apply map_Forall_insert_2; [lia|done]|]. rewrite in_use_insert. lia.
    + intros g'. rewrite credit_insert. cbn. case_bool_decide; [subst|]; lia.
Qed.

Lemma release_ok cap g l : ledger_ok cap l -> exists b, (release_if_acquired g l).2 = Ok b /\
  ledger_ok cap (release_if_acquired g l).1 /\
  forall g', credit_of (release_if_acquired g l).1 g' = credit_of l g' - if bool_decide (0 < credit_of l g /\ g = g') then 1 else 0.
Proof.
  intros Hl. unfold release_if_acquired, give_back. destruct (Z.leb_spec (credit_of l g) 0) as [Hc|Hc]; cbn.
  - exists false. split; [done|]. split; [done|]. intros g'. rewrite bool_decide_false by lia. lia.
  - exists true. split; [done|]. destruct Hl as [Hp Hu]. destruct (Z.eqb_spec (credit_of l g) 1) as [H1|H1]; split.
    + split; [by apply map_Forall_delete|]. rewrite in_use_delete. lia.
    + intros g'. rewrite credit_delete. destruct (decide (g = g')) as [->|Hn]; [rewrite !bool_decide_true by (split; done || done); lia|].
      rewrite !bool_decide_false by naive_solver. lia.
    + split; [apply map_Forall_insert_2; [lia|done]|]. rewrite in_use_insert. lia.
    + intros g'. rewrite credit_insert. destruct (decide (g = g')) as [->|Hn]; [rewrite !bool_decide_true by (split; done || done); lia|].
      rewrite !bool_decide_false by naive_solver. lia.
Qed.
