(* ===== verification/PipelineThreads.v ===== *)
(** * PipelineThreads: the pipeline's threads among one another.

    The four stage actors, the thread that submits frames and the lifecycle
    thread interleave at every atomic action.  [pipe_inv] ties the credits in
    use to the messages that are queued or being handled; a thread owns the
    credits it has acquired and not yet passed on or given back. *)

From S2P Require Import Prelude PyStr Utf8 Json JsonFacts PyLib Storage PyData Codec CodecFacts Gate GateFacts GateThreads Adaptive Concurrent Pipeline PipelineFacts.

(** ** The sockets, as ZeroMQ documents them

    An edge is a queue; a call that raises has done nothing. *)
Class SocketLaws (K : Type) `{Sockets K} := {
  queued : K -> PipelineStage -> list (list pybytes);
  send_queues s m k : wp (send_multipart s m) (fun r k' =>
    match r with
    | Ok _ => queued k' s = queued k s ++ [m] /\ forall s', s' <> s -> queued k' s' = queued k s'
    | Raise e => is_zmq_error e = true /\ forall s', queued k' s' = queued k s'
    end) k;
  recv_dequeues s b k : wp (recv_multipart s b) (fun r k' =>
    match r with
    | Ok m => queued k s = m :: queued k' s /\ forall s', s' <> s -> queued k' s' = queued k s'
    | Raise e => is_zmq_error e = true /\ forall s', queued k' s' = queued k s'
    end) k }.

(** ** Roles and their calls *)

Inductive role := Actor (s : PipelineStage) | Submitter | Coordinator.
#[export] Instance role_eq_dec : EqDecision role.
Proof. solve_decision. Defined.
Definition all_roles : list role := [Actor RAW; Actor ANALYZED; Actor REDACTED; Actor ENCRYPTED; Submitter; Coordinator].

Section Threads.
Context {L : PyLibrary} {HM : HeaderModel} {K W : Type} `{SocketLaws K} `{StagePorts W}.
Variable limits : PipelineLimits.
Variable owner : Z.
Local Abbreviation P := (pipe K W).
Local Abbreviation T := (thread P).

Definition ignore {A} (t : T A) : T (option Z) := _ ← t; mret None.

(** A transition of the gate by the lifecycle thread; [finish_off] is never
    called while starting ([actor_call]). *)
Definition owner_transition (thread : Z) (op : owner_op) : T unit :=
  let call := await (fun p => match op with OpFinishOff _ => negb (bool_decide (g_state (p_gate p) = STARTING)) | _ => true end)
                    (on_gate (run_owner thread op)) in
  if takes_commit_lock op then locking p_commit_held set_commit_held call else call.

(** The end of a stop ([LifecycleActor._drain]): once the generation is
    invalidated, wait for its operations, then for the pipeline. It answers
    the generation it found drained. *)
Definition is_retired (generation : Z) (p : P) : bool :=
  (generation <=? g_epoch (p_gate p)) && negb (bool_decide (g_active (p_gate p) = Some generation)).
Definition drain_generation (generation : Z) (waits : PipelineStage -> option nat) : T (option Z) :=
  idle ← await (is_retired generation) (gets (fun p => in_flight_of (p_gate p) generation <=? 0));
  if (idle : bool) then
    quiet ← wait_for_quiescence generation waits;
    mret (if (quiet : bool) then Some generation else None)
  else mret None.

Inductive pipeline_call : role -> T (option Z) -> Prop :=
  | call_poll s : pipeline_call (Actor s) (ignore (on_poll limits s))
  | call_drain s rounds : pipeline_call (Actor s) (ignore (on_drain limits s rounds))
  | call_submit record_id frames generation deadline : 0 <= record_id < 2 ^ 128 ->
      pipeline_call Submitter (ignore (submit_raw limits owner owner record_id frames generation deadline))
  | call_flush : pipeline_call Submitter (ignore (flush_coalesced limits owner owner))
  | call_close : pipeline_call Submitter (ignore (ingress_close owner owner))
  | call_owner thread op : pipeline_call Coordinator (ignore (owner_transition thread op))
  | call_cancel generation : pipeline_call Coordinator (ignore (cancel_queued generation))
  | call_cancel_in_flight generation : pipeline_call Coordinator (ignore (cancel_in_flight generation))
  | call_drain_generation generation waits : pipeline_call Coordinator (drain_generation generation waits)
  | call_clear patient generation : pipeline_call Coordinator (ignore (clear_volatile_buffers patient generation)).

Definition pipeline_step := pool_step pipeline_call.

(** ** The invariant *)

(** What a role owns: credits by edge and generation, the message it handles,
    its permit of the gate, and how far the lifecycle thread has found each
    generation drained: 1 when nothing can enter the pipeline any more, one
    more for each edge, 6 when no frame is kept at the ingress either. *)
Record own := {
  o_credits : list (PipelineStage * Z);
  o_current : option (list pybytes);
  o_permit : option Z;
  o_level : Z -> Z }.

Definition held (r : own) (s : PipelineStage) (g : Z) : Z :=
  sum_by (fun c => if bool_decide (c = (s, g)) then 1 else 0) (o_credits r).
Definition total (rs : role -> own) (s : PipelineStage) (g : Z) : Z := sum_by (fun i => held (rs i) s g) all_roles.
Definition has_permit (r : own) (g : Z) : Z := if bool_decide (o_permit r = Some g) then 1 else 0.
Definition permits (rs : role -> own) (g : Z) : Z :=
  sum_by (fun i => has_permit (rs i) g) all_roles.

(** The generation in a message's header *)
Definition generation_of (parts : list pybytes) : option Z :=
  match peek_record_and_generation parts with Ok (_, g) => g | Raise _ => None end.
Definition messages (q : list (list pybytes)) (g : Z) : Z :=
  sum_by (fun m => if bool_decide (generation_of m = Some g) then 1 else 0) q.

Definition uuid_range (r : uuid) : Prop := 0 <= r < 2 ^ 128.
Definition encoded (s : PipelineStage) (parts : list pybytes) : Prop :=
  exists i, encode_item s i limits = Ok parts /\ uuid_range (it_record_id i).

Definition stage_index (s : PipelineStage) : Z :=
  match s with RAW => 0 | ANALYZED => 1 | REDACTED => 2 | ENCRYPTED => 3 end.

(** The credits that no thread owns any more *)
Variable lost : PipelineStage -> Z -> Z.
Hypothesis lost_nonneg : forall s g, 0 <= lost s g.

Record pipe_inv (rs : role -> own) (p : P) : Prop := {
  pi_gate : gate_inv (p_gate p);
  pi_permits g : permits rs g <= in_flight_of (p_gate p) g;
  pi_ledgers s : ledger_ok (capacity limits s) (p_ledgers p s);
  pi_queues s : Forall (encoded s) (queued (p_net p) s);
  pi_cover s g : messages (queued (p_net p) s) g + total rs s g + lost s g <= credit_of (p_ledgers p s) g;
  pi_current s : a_current (p_actors p s) = o_current (rs (Actor s));
  pi_handled s parts : o_current (rs (Actor s)) = Some parts ->
    exists g, generation_of parts = Some g /\ 1 <= held (rs (Actor s)) s g;
  pi_coalesced i : p_coalesced p = Some i -> uuid_range (it_record_id i);
  pi_sealed g : 1 <= o_level (rs Coordinator) g -> retired g (p_gate p) /\ o_permit (rs Submitter) <> Some g;
  pi_clear g s : stage_index s + 2 <= o_level (rs Coordinator) g -> messages (queued (p_net p) s) g + total rs s g = 0 /\ lost s g = 0;
  pi_empty g i : 6 <= o_level (rs Coordinator) g -> p_coalesced p = Some i -> it_generation i <> g }.

Lemma sum_give (f : own -> Z) i r rs :
  sum_by (fun j => f (give i r rs j)) all_roles = sum_by (fun j => f (rs j)) all_roles - f (rs i) + f r.
Proof.
  unfold all_roles, give. rewrite !sum_by_cons. change (sum_by ?f []) with 0.
  destruct i as [[]| |]; repeat (case_decide; simplify_eq); lia.
Qed.
Lemma total_give i r rs s g : total (give i r rs) s g = total rs s g - held (rs i) s g + held r s g.
Proof. apply (sum_give (fun r => held r s g)). Qed.
Lemma permits_give i r rs g : permits (give i r rs) g = permits rs g - has_permit (rs i) g + has_permit r g.
Proof. apply (sum_give (fun r => has_permit r g)). Qed.

Lemma held_nonneg r s g : 0 <= held r s g.
Proof. apply sum_by_nonneg. intros c _. by case_bool_decide. Qed.
Lemma held_total rs i s g : 0 <= held (rs i) s g <= total rs s g.
Proof.
  pose proof (fun j => held_nonneg (rs j) s g) as Hn. unfold total, all_roles. rewrite !sum_by_cons. change (sum_by ?f []) with 0.
  pose proof (Hn (Actor RAW)). pose proof (Hn (Actor ANALYZED)). pose proof (Hn (Actor REDACTED)). pose proof (Hn (Actor ENCRYPTED)).
  pose proof (Hn Submitter). pose proof (Hn Coordinator). destruct i as [[]| |]; lia.
Qed.
Lemma messages_nonneg q g : 0 <= messages q g.
Proof. apply sum_by_nonneg. intros c _. by case_bool_decide. Qed.
Lemma held_cons c l cur per lv s g :
  held {| o_credits := c :: l; o_current := cur; o_permit := per; o_level := lv |} s g =
  (if bool_decide (c = (s, g)) then 1 else 0) + held {| o_credits := l; o_current := cur; o_permit := per; o_level := lv |} s g.
Proof. done. Qed.
Lemma held_nil cur per lv s g : held {| o_credits := []; o_current := cur; o_permit := per; o_level := lv |} s g = 0.
Proof. done. Qed.

Lemma encoded_generation s parts : encoded s parts -> exists g, generation_of parts = Some g.
Proof. intros (i&Hi&Hr). exists (it_generation i). unfold generation_of. by rewrite (peek_encoded s i limits). Qed.

(** ** What an action may do *)

Definition grows (r r' : own) : Prop := forall g, o_level r g <= o_level r' g.
#[export] Instance grows_preorder : PreOrder grows.
Proof. split; [by intros r g|intros r1 r2 r3 H12 H23 g; specialize (H12 g); specialize (H23 g); lia]. Qed.
Lemma grows_same r r' : o_level r' = o_level r -> grows r r'.
Proof. by intros E g; rewrite E. Qed.

Abbreviation allowed := (pool_allowed pipe_inv grows).
Abbreviation valid := (pool_valid pipe_inv).

(** The parts of the state the invariant speaks of *)
Record same_core (p p' : P) : Prop := {
  sc_gate : p_gate p' = p_gate p;
  sc_ledgers s : p_ledgers p' s = p_ledgers p s;
  sc_net s : queued (p_net p') s = queued (p_net p) s;
  sc_current s : a_current (p_actors p' s) = a_current (p_actors p s);
  sc_coalesced : p_coalesced p' = p_coalesced p }.

Lemma same_core_refl p : same_core p p.
Proof. by split. Qed.

Lemma give_id i (rs : role -> own) j : give i (rs i) rs j = rs j.
Proof. unfold give. by case_decide; subst. Qed.

(** The step of a role that keeps its credits and its message: only the gate,
    the kept frame and what it owns of the gate change. *)
Lemma allowed_gate i r r' p p' :
  o_credits r' = o_credits r -> o_current r' = o_current r -> o_level r' = o_level r ->
  (forall s, p_ledgers p' s = p_ledgers p s) -> (forall s, queued (p_net p') s = queued (p_net p) s) ->
  (forall s, a_current (p_actors p' s) = a_current (p_actors p s)) ->
  (gate_inv (p_gate p) -> gate_inv (p_gate p')) ->
  (forall g, has_permit r' g - has_permit r g <= in_flight_of (p_gate p') g - in_flight_of (p_gate p) g) ->
  (forall g, retired g (p_gate p) -> retired g (p_gate p') /\ (i = Submitter -> o_permit r <> Some g -> o_permit r' <> Some g)) ->
  (p_coalesced p' = p_coalesced p \/ p_coalesced p' = None \/
   exists j g, p_coalesced p' = Some j /\ uuid_range (it_record_id j) /\ it_generation j = g /\ i = Submitter /\ o_permit r = Some g) ->
  allowed i r p r' p'.
Proof.
  intros Hcr Hcu Hlv Hl Hn Hac Hg Hf Hr Hco. split; [by apply grows_same|]. intros rs <- Hi.
  assert (Hheld : forall s g, held r' s g = held (rs i) s g) by (intros; unfold held; by rewrite Hcr).
  assert (Hc : forall j, o_current (give i r' rs j) = o_current (rs j)) by (intros j; unfold give; case_decide; by subst).
  assert (Hh : forall j s g, held (give i r' rs j) s g = held (rs j) s g) by (intros j s g; unfold give; case_decide; by subst).
  assert (Hlev : forall j, o_level (give i r' rs j) = o_level (rs j)) by (intros j; unfold give; case_decide; by subst).
  split; intros *; rewrite ?Hl, ?Hn, ?Hac, ?total_give, ?permits_give, ?Hc, ?Hh, ?Hlev, ?Hheld.
  - by apply Hg, Hi.
  - pose proof (pi_permits _ _ Hi g). pose proof (Hf g). lia.
  - apply Hi.
  - apply Hi.
  - pose proof (pi_cover _ _ Hi s g). lia.
  - apply Hi.
  - intros Hp. destruct (pi_handled _ _ Hi s parts Hp) as (g&?&?). exists g. by rewrite Hh.
  - intros Hco'. destruct Hco as [E|[E|(j&g&E&Hu&_)]]; rewrite E in Hco'; [by eapply Hi|done|by simplify_eq].
  - intros Hge. destruct (pi_sealed _ _ Hi g Hge) as [Hret Hsub]. destruct (Hr g Hret) as [Hret' Hp]. split; [done|].
    unfold give. case_decide as E; [subst; by apply Hp|done].
  - intros Hge. pose proof (pi_clear _ _ Hi g s Hge). lia.
  - intros Hge Hco'. destruct Hco as [E|[E|(j&g'&E&_&Hj&Hsub&Hper)]]; rewrite E in Hco'; [by eapply Hi|done|]. simplify_eq.
    destruct (pi_sealed _ _ Hi g ltac:(lia)) as [_ Hne]. congruence.
Qed.

(** A step that owns the same and touches none of these *)
Lemma allowed_core i r p p' : same_core p p' -> allowed i r p r p'.
Proof.
  intros [Hg Hl Hn Hcu Hco]. apply allowed_gate; rewrite ?Hg; auto; intros; lia.
Qed.

(** Credits of a generation appear at an edge only by the hands of a thread
    that submits under its permit, or holds one at the edge before. *)
Definition may_enter (i : role) (r : own) (s : PipelineStage) (g : Z) : Prop :=
  s = RAW /\ i = Submitter /\ o_permit r = Some g \/
  exists before, next_stage before = Some s /\ 1 <= held r before g.

Lemma no_entry rs p i s g : pipe_inv rs p -> stage_index s + 2 <= o_level (rs Coordinator) g -> ~ may_enter i (rs i) s g.
Proof.
  intros Hi Hl [(->&->&Hp)|(b&Hb&Hh)].
  - cbn in Hl. by destruct (pi_sealed _ _ Hi g ltac:(lia)).
  - assert (stage_index b + 1 = stage_index s) by (destruct b; simplify_eq/=; lia).
    pose proof (pi_clear _ _ Hi g b ltac:(lia)). pose proof (held_total rs i b g). pose proof (messages_nonneg (queued (p_net p) b) g). lia.
Qed.

(** A step on credits, queues and the message handled *)
Lemma allowed_flow i r r' p p' :
  p_gate p' = p_gate p -> p_coalesced p' = p_coalesced p -> o_permit r' = o_permit r -> o_level r' = o_level r ->
  ((forall s, ledger_ok (capacity limits s) (p_ledgers p s)) -> forall s, ledger_ok (capacity limits s) (p_ledgers p' s)) ->
  (forall s, Forall (encoded s) (queued (p_net p) s) -> Forall (encoded s) (queued (p_net p') s)) ->
  (forall s g, messages (queued (p_net p') s) g + held r' s g - (messages (queued (p_net p) s) g + held r s g) <=
               credit_of (p_ledgers p' s) g - credit_of (p_ledgers p s) g) ->
  (forall s g, messages (queued (p_net p') s) g + held r' s g <= messages (queued (p_net p) s) g + held r s g \/ may_enter i r s g) ->
  (forall s, i = Actor s -> a_current (p_actors p' s) = o_current r' /\
     forall parts, o_current r' = Some parts -> exists g, generation_of parts = Some g /\ 1 <= held r' s g) ->
  (forall s, i <> Actor s -> a_current (p_actors p' s) = a_current (p_actors p s)) ->
  allowed i r p r' p'.
Proof.
  intros Hg Hco Hper Hlev Hl Hq Hd He Hcu Hcu'. split; [by apply grows_same|]. intros rs <- Hi.
  assert (Hlv : o_level (give i r' rs Coordinator) = o_level (rs Coordinator)) by (unfold give; case_decide; by subst).
  assert (Hpe : forall j, o_permit (give i r' rs j) = o_permit (rs j)) by (intros j; unfold give; case_decide; by subst).
  assert (Hcur : forall s, a_current (p_actors p' s) = o_current (give i r' rs (Actor s)) /\
    forall parts, o_current (give i r' rs (Actor s)) = Some parts -> exists g, generation_of parts = Some g /\ 1 <= held (give i r' rs (Actor s)) s g).
  { intros s. destruct (decide (i = Actor s)) as [->|Hn]; [rewrite give_same; by apply Hcu|].
    rewrite give_other, Hcu' by done. split; [apply Hi|]. intros parts. apply (pi_handled _ _ Hi). }
  split; intros *; rewrite ?Hg, ?Hco, ?Hlv, ?Hpe, ?total_give.
  - apply Hi.
  - assert (Hhp : has_permit r' g = has_permit (rs i) g) by (unfold has_permit; by rewrite Hper).
    pose proof (pi_permits _ _ Hi g). rewrite permits_give. lia.
  - apply Hl, Hi.
  - apply Hq, Hi.
  - pose proof (pi_cover _ _ Hi s g). pose proof (Hd s g). lia.
  - apply Hcur.
  - apply Hcur.
  - apply Hi.
  - apply Hi.
  - intros Hge. pose proof (pi_clear _ _ Hi g s Hge) as Hz. pose proof (no_entry rs p i s g Hi Hge) as Hne.
    destruct (He s g) as [Hle|]; [|done]. pose proof (held_nonneg r' s g). pose proof (messages_nonneg (queued (p_net p') s) g).
    pose proof (messages_nonneg (queued (p_net p) s) g). pose proof (held_total rs i s g). lia.
  - apply Hi.
Qed.

(** ** The actions *)

Definition add_credit (s : PipelineStage) (g : Z) (r : own) : own :=
  {| o_credits := (s, g) :: o_credits r; o_current := o_current r; o_permit := o_permit r; o_level := o_level r |}.
Lemma held_add s g r s' g' : held (add_credit s g r) s' g' = held r s' g' + if bool_decide ((s, g) = (s', g')) then 1 else 0.
Proof. unfold held. cbn. rewrite sum_by_cons. lia. Qed.

Lemma on_ledger_run {A} s (m : M ledger A) (p : P) : on_ledger s m p =
  (set_ledgers (set_at s (m (p_ledgers p s)).1 (p_ledgers p)) p, (m (p_ledgers p s)).2).
Proof. unfold on_ledger, zoom. by destruct (m (p_ledgers p s)). Qed.

Lemma set_at_same {X} s (x : X) f : set_at s x f s = x.
Proof. unfold set_at. by rewrite bool_decide_true. Qed.
Lemma set_at_other {X} s s' (x : X) f : s' <> s -> set_at s x f s' = f s'.
Proof. intros Hs. unfold set_at. by rewrite bool_decide_false. Qed.

(** A change of one ledger *)
Lemma allowed_ledger i r r' p s l : 
  o_permit r' = o_permit r -> o_level r' = o_level r -> o_current r' = o_current r ->
  (ledger_ok (capacity limits s) (p_ledgers p s) -> ledger_ok (capacity limits s) l) ->
  (forall g, held r' s g - held r s g <= credit_of l g - credit_of (p_ledgers p s) g) ->
  (forall s' g, s' <> s -> held r' s' g = held r s' g) ->
  (forall g, held r' s g <= held r s g \/ may_enter i r s g) ->
  (forall s', i = Actor s' -> a_current (p_actors p s') = o_current r /\
     forall parts, o_current r = Some parts -> exists g, generation_of parts = Some g /\ 1 <= held r' s' g) ->
  allowed i r p r' (set_ledgers (set_at s l (p_ledgers p)) p).
Proof.
  intros Hper Hlev Hcur Hl Hd Ho He Hcu. apply allowed_flow; cbn; try done.
  - intros Hall s'. destruct (decide (s' = s)) as [->|Hn]; [rewrite set_at_same; by apply Hl|by rewrite set_at_other].
  - intros s' g. destruct (decide (s' = s)) as [->|Hn]; [rewrite set_at_same; pose proof (Hd g); lia|].
    rewrite set_at_other, Ho by done. lia.
  - intros s' g. destruct (decide (s' = s)) as [->|Hn]; [destruct (He g); [left; lia|by right]|]. rewrite Ho by done. left. lia.
  - intros s' Hs. rewrite Hcur. by apply Hcu.
Qed.

(** What a role is sure of about the message it handles *)
Lemma valid_current s r p : valid (Actor s) r p -> a_current (p_actors p s) = o_current r /\
  forall parts, o_current r = Some parts -> exists g, generation_of parts = Some g /\ 1 <= held r s g.
Proof. intros (rs&<-&Hi). split; [apply Hi|]. intros parts. apply (pi_handled _ _ Hi). Qed.
Lemma valid_ledger i r p s : valid i r p -> ledger_ok (capacity limits s) (p_ledgers p s).
Proof. intros (rs&<-&Hi). apply Hi. Qed.
Lemma valid_held i r p s g : valid i r p -> held r s g <= credit_of (p_ledgers p s) g.
Proof.
  intros (rs&<-&Hi). pose proof (pi_cover _ _ Hi s g). pose proof (held_total rs i s g).
  pose proof (messages_nonneg (queued (p_net p) s) g). pose proof (lost_nonneg s g). lia.
Qed.

Lemma acquire_allowed i r s g p : valid i r p -> may_enter i r s g ->
  exists b, (acquire_credit limits s g p).2 = Ok b /\
    allowed i r p (if b then add_credit s g r else r) (acquire_credit limits s g p).1.
Proof.
  intros Hv He. unfold acquire_credit. rewrite on_ledger_run. cbn.
  destruct (acquire_ok (capacity limits s) g _ (valid_ledger _ _ _ s Hv)) as (b&Hb&Hok&Hc). exists b. split; [done|].
  apply allowed_ledger; [by destruct b..|done| | | |].
  - intros g'. rewrite Hc. destruct b; cbn; [|lia]. rewrite held_add.
    destruct (decide (g = g')) as [->|Hn]; [rewrite !bool_decide_true by done; lia|]. rewrite !bool_decide_false by naive_solver. lia.
  - intros s' g' Hs. destruct b; [|done]. rewrite held_add, bool_decide_false by naive_solver. lia.
  - intros g'. destruct b; [|by left]. rewrite held_add. case_bool_decide; [simplify_eq; by right|left; lia].
  - intros s' ->. destruct (valid_current _ _ _ Hv) as [Hcu Hh]. split; [done|]. intros parts Hp. destruct (Hh parts Hp) as (g'&?&?).
    exists g'. split; [done|]. destruct b; [|done]. rewrite held_add. case_bool_decide; lia.
Qed.

(** Giving back a credit one owns *)
Lemma release_allowed i r s g p : valid i (add_credit s g r) p ->
  (forall s', i = Actor s' -> forall parts, o_current r = Some parts -> exists g, generation_of parts = Some g /\ 1 <= held r s' g) ->
  is_ok (release_credit s g p).2 = true /\ allowed i (add_credit s g r) p r (release_credit s g p).1.
Proof.
  intros Hv Hcu. unfold release_credit. rewrite on_ledger_run. cbn.
  destruct (release_ok (capacity limits s) g _ (valid_ledger _ _ _ s Hv)) as (b&->&Hok&Hc). split; [done|].
  pose proof (valid_held _ _ _ s g Hv) as Hh. rewrite held_add, bool_decide_true in Hh by done. pose proof (held_nonneg r s g).
  apply allowed_ledger; try done.
  - intros g'. rewrite Hc, held_add. destruct (decide (g = g')) as [->|Hn]; [rewrite !bool_decide_true by (split; done || lia || done); lia|].
    rewrite !bool_decide_false by naive_solver. lia.
  - intros s' g' Hs. rewrite held_add, bool_decide_false by naive_solver. lia.
  - intros g'. left. rewrite held_add. case_bool_decide; lia.
  - intros s' ->. split; [by apply (valid_current _ _ _ Hv)|by apply Hcu].
Qed.

Lemma valid_permit i r p g : valid i r p -> o_permit r = Some g -> 1 <= in_flight_of (p_gate p) g.
Proof.
  intros (rs&<-&Hi) Hp. pose proof (pi_permits _ _ Hi g) as Hf.
  assert (0 <= permits (give i {| o_credits := []; o_current := None; o_permit := None; o_level := fun _ => 0 |} rs) g) as Hn.
  { apply sum_by_nonneg. intros j _. unfold has_permit. by case_bool_decide. }
  rewrite permits_give in Hn. unfold has_permit in Hn. cbn in Hn. rewrite Hp in Hn. repeat case_bool_decide; simplify_eq; lia.
Qed.
Lemma valid_gate i r p : valid i r p -> gate_inv (p_gate p).
Proof. intros (rs&_&Hi). apply Hi. Qed.

(** A call on the gate by [zoom], with what it does *)
Lemma allowed_gate_call {A} i r r' (m : M gate A) (p : P) :
  o_credits r' = o_credits r -> o_current r' = o_current r -> o_level r' = o_level r ->
  (gate_inv (p_gate p) -> gate_inv (m (p_gate p)).1) ->
  (forall g, has_permit r' g - has_permit r g <= in_flight_of (m (p_gate p)).1 g - in_flight_of (p_gate p) g) ->
  (forall g, retired g (p_gate p) -> retired g (m (p_gate p)).1 /\ (i = Submitter -> o_permit r <> Some g -> o_permit r' <> Some g)) ->
  allowed i r p r' (on_gate m p).1 /\ (on_gate m p).2 = (m (p_gate p)).2.
Proof.
  intros Hc Hcu Hl Hg Hf Hr. unfold on_gate, zoom. destruct (m (p_gate p)) as [g' x]; cbn in *. split; [|done].
  apply allowed_gate; cbn; auto.
Qed.

Definition set_permit (g : option Z) (r : own) : own :=
  {| o_credits := o_credits r; o_current := o_current r; o_permit := g; o_level := o_level r |}.

Lemma acquired_flight kind gen g permit g' : acquired kind gen g permit g' ->
  forall gn, in_flight_of g' gn = in_flight_of g gn + if bool_decide (permit_generation permit = gn) then 1 else 0.
Proof. intros (->&_) gn. rewrite in_flight_insert. case_bool_decide; [by subst|lia]. Qed.

(** Taking a permit, as [Gate.acquire] says *)
Lemma acquire_permit_allowed i r kind gen (p : P) : valid i r p -> o_permit r = None ->
  match (on_gate (acquire kind gen) p).2 with
  | Ok permit => (kind <> KCapture -> permit_generation permit = gen) /\
      allowed i r p (set_permit (Some (permit_generation permit)) r) (on_gate (acquire kind gen) p).1
  | Raise _ => allowed i r p r (on_gate (acquire kind gen) p).1
  end.
Proof.
  intros Hv Hn. pose proof (wp_elim _ _ _ (acquire_effect kind gen (p_gate p))) as He. cbn in He.
  destruct (acquire kind gen (p_gate p)) as [g' [permit|e]] eqn:E; cbn in He.
  - destruct He as (gen'&Hgen&Hac). pose proof (acquired_flight _ _ _ _ _ Hac) as Hf.
    destruct (allowed_gate_call i r (set_permit (Some (permit_generation permit)) r) (acquire kind gen) p) as [Hal Hres]; try done.
    + rewrite E. cbn. intros Hg. by eapply acquired_gate_inv.
    + intros g. rewrite E. cbn. rewrite (Hf g). unfold has_permit. cbn. rewrite Hn. repeat case_bool_decide; simplify_eq; lia.
    + intros g Hret. rewrite E. cbn. destruct Hac as (->&Ha&_). split; [done|]. intros _ _. destruct Hret as [_ Hne]. congruence.
    + rewrite Hres, E. cbn. split; [|done]. intros Hk. rewrite <- (Hgen Hk). destruct Hac as (_&_&_&_&Hac). destruct kind; [by destruct Hac| |by destruct Hac]. done.
  - destruct (allowed_gate_call i r r (acquire kind gen) p) as [Hal Hres]; try done.
    + rewrite E. cbn. by subst.
    + intros g. rewrite E. cbn. subst. lia.
    + intros g Hret. rewrite E. cbn. by subst.
    + by rewrite Hres, E.
Qed.

Lemma release_permit_allowed i r g (p : P) : valid i (set_permit (Some g) r) p -> o_permit r = None ->
  (on_gate (release_operation g) p).2 = Ok tt /\
  allowed i (set_permit (Some g) r) p r (on_gate (release_operation g) p).1.
Proof.
  intros Hv Hn. pose proof (valid_gate _ _ _ Hv) as Hg. pose proof (valid_permit _ _ _ g Hv eq_refl) as Hf.
  destruct (release_effect g _ Hg Hf) as (_&_&Ha&He&_&_&_&Hfl&_).
  destruct (allowed_gate_call i (set_permit (Some g) r) r (release_operation g) p) as [Hal Hres]; try done.
  - intros _. by apply release_gate_inv.
  - intros g'. rewrite Hfl. unfold has_permit. cbn. rewrite Hn. repeat case_bool_decide; simplify_eq; lia.
  - intros g' [Hr1 Hr2]. unfold retired. rewrite Ha, He. split; [done|]. intros _ _. by rewrite Hn.
  - split; [|done]. rewrite Hres. exact (proj1 (wp_elim _ _ _ (release_worker_effect g _ Hg))).
Qed.

Lemma owner_allowed i r thread op (p : P) : valid i r p -> owner_call op (p_gate p) ->
  allowed i r p r (on_gate (run_owner thread op) p).1.
Proof.
  intros Hv Hc. destruct (wp_elim _ _ _ (run_owner_effect thread op _ (valid_gate _ _ _ Hv) Hc)) as (Hg&_&Hf&Hep&Hac&_).
  apply allowed_gate_call; try done.
  - intros g. rewrite (in_flight_owner _ _ g Hf). lia.
  - intros g [Hle Hne]. split; [|done]. split; [lia|]. destruct Hac as [->|[->| ->]]; [done..|]. intros [= <-]. lia.
Qed.

(** The socket calls *)
Lemma on_net_run {A} (m : M K A) (p : P) : on_net m p = (set_net (m (p_net p)).1 p, (m (p_net p)).2).
Proof. unfold on_net, zoom. by destruct (m (p_net p)). Qed.

Lemma send_allowed i r s parts g (p : P) : valid i (add_credit s g r) p -> encoded s parts -> generation_of parts = Some g ->
  (forall s', i = Actor s' -> forall parts', o_current r = Some parts' -> exists g', generation_of parts' = Some g' /\ 1 <= held r s' g') ->
  match (on_net (send_multipart s parts) p).2 with
  | Ok _ => allowed i (add_credit s g r) p r (on_net (send_multipart s parts) p).1
  | Raise e => is_zmq_error e = true /\ allowed i (add_credit s g r) p (add_credit s g r) (on_net (send_multipart s parts) p).1
  end.
Proof.
  intros Hv Henc Hgen Hcu. rewrite on_net_run. cbn. pose proof (wp_elim _ _ _ (send_queues s parts (p_net p))) as Hs.
  destruct (send_multipart s parts (p_net p)) as [k' [x|e]]; cbn in *.
  - destruct Hs as [Hq Ho].
    assert (Hm : forall s' g', messages (queued k' s') g' + held r s' g' = messages (queued (p_net p) s') g' + held (add_credit s g r) s' g').
    { intros s' g'. rewrite held_add. destruct (decide (s' = s)) as [->|Hn].
      - rewrite Hq. unfold messages. rewrite sum_by_app, sum_by_cons, Hgen. change (sum_by ?f []) with 0.
        repeat case_bool_decide; simplify_eq; lia.
      - rewrite Ho, bool_decide_false by naive_solver. lia. }
    apply allowed_flow; cbn; try done.
    + intros s' Hf. destruct (decide (s' = s)) as [->|Hn]; [rewrite Hq; by apply Forall_app_2, Forall_singleton|by rewrite Ho].
    + intros s' g'. rewrite Hm. lia.
    + intros s' g'. left. by rewrite Hm.
    + intros s' ->. destruct (valid_current _ _ _ Hv) as [Hc _]. split; [done|]. by apply Hcu.
  - destruct Hs as [Hz Hq]. split; [done|]. apply allowed_core. by split.
Qed.

(** A receive by an actor that handles no message *)
Definition handling (s : PipelineStage) (parts : list pybytes) (g : Z) : own :=
  {| o_credits := [(s, g)]; o_current := Some parts; o_permit := None; o_level := fun _ => 0 |}.
Definition at_rest (r : own) : Prop := o_credits r = [] /\ o_current r = None /\ o_permit r = None.
Definition resting : own := {| o_credits := []; o_current := None; o_permit := None; o_level := fun _ => 0 |}.

Lemma held_handling s parts g s' g' : held (handling s parts g) s' g' = if bool_decide ((s, g) = (s', g')) then 1 else 0.
Proof. unfold held. cbn. rewrite sum_by_cons. change (sum_by ?f []) with 0. lia. Qed.
Lemma held_resting s g : held resting s g = 0.
Proof. done. Qed.

Lemma receive_run s b (p : P) : receive s b p =
  match recv_multipart s b (p_net p) with
  | (k, Ok parts) => (set_actors (set_at s (set_current (Some parts) (p_actors p s)) (p_actors p)) (set_net k p), Ok parts)
  | (k, Raise e) => (set_net k p, Raise e)
  end.
Proof. unfold receive, mbind, M_bind. rewrite on_net_run. by destruct (recv_multipart s b (p_net p)) as [k [parts|e]]. Qed.

Lemma receive_allowed s b (p : P) : valid (Actor s) resting p ->
  match (receive s b p).2 with
  | Ok parts => exists g, encoded s parts /\ generation_of parts = Some g /\ allowed (Actor s) resting p (handling s parts g) (receive s b p).1
  | Raise e => is_zmq_error e = true /\ allowed (Actor s) resting p resting (receive s b p).1
  end.
Proof.
  intros Hv. rewrite receive_run. pose proof (wp_elim _ _ _ (recv_dequeues s b (p_net p))) as Hr.
  destruct (recv_multipart s b (p_net p)) as [k' [parts|e]]; cbn in *.
  - destruct Hr as [Hq Ho]. assert (encoded s parts) as Henc.
    { destruct Hv as (rs&_&Hi). pose proof (pi_queues _ _ Hi s) as Hf. rewrite Hq in Hf. by apply Forall_cons in Hf as [? _]. }
    destruct (encoded_generation _ _ Henc) as [g Hg]. exists g. split; [done|]. split; [done|].
    assert (Hm : forall s' g', messages (queued k' s') g' + held (handling s parts g) s' g' = messages (queued (p_net p) s') g').
    { intros s' g'. rewrite held_handling. destruct (decide (s' = s)) as [->|Hn].
      - rewrite Hq. unfold messages. rewrite sum_by_cons, Hg. repeat case_bool_decide; simplify_eq; lia.
      - rewrite Ho, bool_decide_false by naive_solver. lia. }
    apply allowed_flow; cbn; try done.
    + intros s' Hf. destruct (decide (s' = s)) as [->|Hn]; [rewrite Hq in Hf; by apply Forall_cons in Hf as [_ ?]|by rewrite Ho].
    + intros s' g'. rewrite Hm, held_resting. lia.
    + intros s' g'. left. rewrite Hm, held_resting. lia.
    + intros s' [= <-]. rewrite set_at_same. split; [done|]. intros ? [= <-]. exists g. split; [done|].
      by rewrite held_handling, bool_decide_true.
    + intros s' Hn. rewrite set_at_other by congruence. done.
  - destruct Hr as [Hz Hq]. split; [done|]. apply allowed_core. by split.
Qed.

(** The last act of a handler *)
Lemma finish_allowed s parts g (p : P) : valid (Actor s) (handling s parts g) p ->
  exists p', (_ ← release_credit s g; on_actor s (set_current None)) p = (p', Ok tt) /\
    allowed (Actor s) (handling s parts g) p resting p'.
Proof.
  intros Hv. unfold release_credit, mbind, M_bind. rewrite on_ledger_run.
  destruct (release_ok (capacity limits s) g _ (valid_ledger _ _ _ s Hv)) as (b&Hb&Hok&Hc). rewrite Hb. cbn.
  eexists. split; [reflexivity|]. pose proof (valid_held _ _ _ s g Hv) as Hh. rewrite held_handling, bool_decide_true in Hh by done.
  apply allowed_flow; cbn; try done.
  - intros Hall s'. destruct (decide (s' = s)) as [->|Hn]; [by rewrite set_at_same|by rewrite set_at_other].
  - intros s' g'. rewrite held_handling, held_resting. destruct (decide (s' = s)) as [->|Hn].
    + rewrite set_at_same, Hc. repeat case_bool_decide; simplify_eq; naive_solver lia.
    + rewrite set_at_other, bool_decide_false by naive_solver. lia.
  - intros s' g'. left. rewrite held_handling, held_resting. case_bool_decide; lia.
  - intros s' [= <-]. by rewrite set_at_same.
  - intros s' Hn. by rewrite set_at_other by congruence.
Qed.

(** ** Threads that keep what they own *)

Definition neutral {A} (m : M P A) : Prop := forall p, same_core p (m p).1.

Lemma same_core_trans p1 p2 p3 : same_core p1 p2 -> same_core p2 p3 -> same_core p1 p3.
Proof. intros [] []. split; congruence. Qed.

Lemma neutral_ret {A} (a : A) : neutral (mret a).
Proof. intros p. apply same_core_refl. Qed.
Lemma neutral_gets {A} (f : P -> A) : neutral (gets f).
Proof. intros p. apply same_core_refl. Qed.
Lemma neutral_lift {A} (r : result A) : neutral (lift r).
Proof. intros p. apply same_core_refl. Qed.
Lemma neutral_require b e : neutral (require b e).
Proof. intros p. apply same_core_refl. Qed.
Lemma neutral_bind {A B} (m : M P A) (f : A -> M P B) : neutral m -> (forall a, neutral (f a)) -> neutral (mbind f m).
Proof.
  intros Hm Hf p. pose proof (Hm p) as Hc1. unfold mbind, M_bind. destruct (m p) as [p' [a|e]]; cbn in *; [|done].
  eapply same_core_trans; [done|apply Hf].
Qed.
Lemma neutral_world {A} (m : M W A) : neutral (on_world m).
Proof. intros p. unfold on_world, zoom. destruct (m (p_world p)). by split. Qed.
Lemma neutral_actor s f : (forall x, a_current (f x) = a_current x) -> neutral (on_actor s f).
Proof.
  intros Hf p. split; try done. intros s'. cbn. unfold set_at. case_bool_decide; [subst; apply Hf|done].
Qed.
Lemma neutral_heap f : neutral (modify (fun p => set_heap (f p) p)).
Proof. by split. Qed.
Lemma neutral_registry ev pm ce : neutral (modify (fun p => set_registry (ev p) (pm p) (ce p) p)).
Proof. by split. Qed.
Lemma neutral_held f b : f = set_coalesced_held \/ f = set_commit_held \/ f = set_closed -> neutral (modify (f b)).
Proof. intros [->|[->| ->]]; by split. Qed.
Lemma neutral_event_for g : neutral (event_for g).
Proof. intros p. unfold event_for. destruct (p_events p !! g); by split. Qed.
Lemma neutral_new_buffers l : neutral (new_buffers l).
Proof. by split. Qed.
Lemma neutral_current g : neutral (on_gate (require_current_generation g)).
Proof. intros p. by split. Qed.

Local Hint Resolve neutral_ret neutral_gets neutral_lift neutral_require neutral_bind neutral_world neutral_heap neutral_registry
  neutral_event_for neutral_new_buffers neutral_current : neutral.

Lemma neutral_destroy i : neutral (destroy i).
Proof. apply neutral_heap. Qed.
Lemma neutral_attach permit : neutral (attach permit).
Proof. apply neutral_bind; [apply neutral_event_for|]. intros _. by split. Qed.
Lemma neutral_token g : neutral (token g).
Proof. unfold token. auto with neutral. Qed.
Lemma neutral_cancel g : neutral (cancel g).
Proof. apply neutral_bind; [apply neutral_event_for|]. intros e. by split. Qed.
Lemma neutral_clear g : neutral (clear g).
Proof. by split. Qed.
Lemma neutral_item_at s i : neutral (item_at s i).
Proof. destruct s; cbn; auto with neutral. Qed.
Lemma neutral_decode parts s : neutral (decode_item limits parts s).
Proof. apply neutral_bind; [apply neutral_lift|]. intros i. apply neutral_item_at. Qed.
Local Hint Resolve neutral_destroy neutral_attach neutral_token neutral_cancel neutral_clear neutral_decode : neutral.

(** [t] ends owning what it began with, in a result that satisfies [post]. *)
Definition kept (i : role) (r : own) {A} (t : T A) (post : result A -> Prop) : Prop :=
  pool_wpt pipe_inv grows i t (fun x r' => r' = r /\ post x) r.
Abbreviation keeps i r t := (kept i r t (fun _ => True)).

Section Kept.
Variable (i : role) (r : own).

Lemma kept_mono {A} (t : T A) (post post' : result A -> Prop) : kept i r t post -> (forall x, post x -> post' x) -> kept i r t post'.
Proof. intros Ht Hp. eapply wpt_mono; [exact Ht|]. intros x r' [-> ?]. auto. Qed.
Lemma kept_done {A} (x : result A) (post : result A -> Prop) : post x -> kept i r (Done x) post.
Proof. by split. Qed.
Lemma kept_ret {A} (a : A) (post : result A -> Prop) : post (Ok a) -> kept i r (mret a) post.
Proof. by split. Qed.
Lemma kept_throw {A} e (post : result A -> Prop) : post (Raise e) -> kept i r (throw e) post.
Proof. by split. Qed.
Lemma kept_bind {A B} (t : T A) (k : A -> T B) (mid : result A -> Prop) (post : result B -> Prop) :
  kept i r t mid -> (forall a, mid (Ok a) -> kept i r (k a) post) -> (forall e, mid (Raise e) -> post (Raise e)) -> kept i r (mbind k t) post.
Proof. intros Ht Hk He. apply wpt_bind. eapply wpt_mono; [exact Ht|]. intros [a|e] r' [-> Hm]; [by apply Hk|by split; [|apply He]]. Qed.
Lemma kept_attempt {A} (t : T A) h (mid post : result A -> Prop) :
  kept i r t mid -> (forall a, mid (Ok a) -> post (Ok a)) -> (forall e, mid (Raise e) -> kept i r (h e) post) -> kept i r (attempt t h) post.
Proof. intros Ht Ha He. apply wpt_attempt. eapply wpt_mono; [exact Ht|]. intros [a|e] r' [-> Hm]; [by split; [|apply Ha]|by apply He]. Qed.
Lemma kept_finally {A} (t : T A) f : keeps i r t -> keeps i r f -> keeps i r (finally t f).
Proof.
  intros Ht Hf. apply wpt_finally. eapply wpt_mono; [exact Ht|]. intros x r' [-> _].
  eapply wpt_mono; [exact Hf|]. by intros [] r'' [-> _].
Qed.
Lemma kept_step {A} ready (m : M P A) (post : result A -> Prop) :
  neutral m -> (forall p, valid i r p -> ready p = true -> post (m p).2) -> kept i r (await ready m) post.
Proof. intros Hm Hp. apply wpt_await. intros p Hv Hr. exists r. split; [by apply allowed_core|]. auto. Qed.
Lemma kept_act {A} (m : M P A) (post : result A -> Prop) :
  neutral m -> (forall p, valid i r p -> post (m p).2) -> kept i r (act m) post.
Proof. intros Hm Hp. apply kept_step; auto. Qed.
Lemma keeps_bind {A B} (t : T A) (k : A -> T B) : keeps i r t -> (forall a, keeps i r (k a)) -> keeps i r (mbind k t).
Proof. intros Ht Hk. eapply kept_bind; eauto. Qed.
Lemma keeps_attempt {A} (t : T A) h : keeps i r t -> (forall e, keeps i r (h e)) -> keeps i r (attempt t h).
Proof. intros Ht Hk. eapply kept_attempt; eauto. Qed.
Lemma keeps_act {A} (m : M P A) : neutral m -> keeps i r (act m).
Proof. intros Hm. by apply kept_act. Qed.
Lemma keeps_await {A} ready (m : M P A) : neutral m -> keeps i r (await ready m).
Proof. intros Hm. by apply kept_step. Qed.
Lemma keeps_never {A} : keeps i r (never : T A).
Proof. apply wpt_never. Qed.
Lemma keeps_locking {A} held set_held (t : T A) :
  (forall b, neutral (modify (set_held b))) -> keeps i r t -> keeps i r (locking held set_held t).
Proof. intros Hn Ht. apply keeps_bind; [by apply keeps_await|]. intros _. apply kept_finally; [done|]. by apply keeps_act. Qed.
Lemma keeps_weaken {A} (t : T A) post : kept i r t post -> keeps i r t.
Proof. intros Ht. by eapply kept_mono. Qed.
End Kept.

(** Proves [keeps] of a composition of neutral actions. *)
Ltac keeps_step :=
  lazymatch goal with
  | |- kept _ _ (mbind _ _) _ => apply keeps_bind; [|intros ?]
  | |- kept _ _ (attempt _ _) _ => apply keeps_attempt; [|intros ?]
  | |- kept _ _ (finally _ _) _ => apply kept_finally
  | |- kept _ _ (mret _) _ => by apply kept_ret
  | |- kept _ _ (throw _) _ => by apply kept_throw
  | |- kept _ _ never _ => apply keeps_never
  | |- kept _ _ (act _) _ => apply keeps_act; auto with neutral
  | |- kept _ _ (await _ _) _ => apply keeps_await; auto with neutral
  | |- kept _ _ (if ?b then _ else _) _ => destruct b
  | |- kept _ _ (match ?x with _ => _ end) _ => destruct x
  end.

Lemma allowed_drop i r s g p p' : valid i (add_credit s g r) p -> same_core p p' ->
  (forall s', i = Actor s' -> forall parts, o_current r = Some parts -> exists g, generation_of parts = Some g /\ 1 <= held r s' g) ->
  allowed i (add_credit s g r) p r p'.
Proof.
  intros Hv [Hg Hl Hn Hcu Hco] Hh. apply allowed_flow; try done.
  - intros Hall s'. by rewrite Hl.
  - intros s'. by rewrite Hn.
  - intros s' g'. rewrite Hl, Hn, held_add. case_bool_decide; lia.
  - intros s' g'. left. rewrite Hn, held_add. case_bool_decide; lia.
  - intros s' ->. rewrite Hcu. split; [by apply (valid_current _ _ _ Hv)|by apply Hh].
Qed.

Lemma item_bytes_same h p : it_generation (item_bytes h p) = it_generation (item_bytes [] p) /\
  it_record_id (item_bytes h p) = it_record_id (item_bytes [] p) /\
  it_configuration_revision (item_bytes h p) = it_configuration_revision (item_bytes [] p).
Proof. by destruct p. Qed.

Section Sending.
Variable (i : role) (r : own).
(** The message the role handles keeps its credit. *)
Hypothesis r_handles : forall s', i = Actor s' -> forall parts, o_current r = Some parts ->
  exists g, generation_of parts = Some g /\ 1 <= held r s' g.

Lemma send_encoded_ok s source g : item_stage source = s -> it_generation (item_bytes [] source) = g ->
  uuid_range (it_record_id (item_bytes [] source)) ->
  pool_wpt pipe_inv grows i (send_encoded limits s source) (fun _ r' => r' = r) (add_credit s g r).
Proof.
  intros Hs Hg Hr. apply wpt_attempt, wpt_bind, wpt_act. intros p Hv.
  unfold gets, lift, mbind at 1, mbind at 1, M_bind. cbn [fst snd].
  destruct (item_bytes_same (p_heap p) source) as (Hig&Hir&_).
  destruct (encode_item (item_stage source) (frames_of source p) limits) as [parts|e] eqn:E; cbn [fst snd].
  - exists (add_credit s g r). split; [apply allowed_core, same_core_refl|].
    assert (Henc : encoded s parts) by (exists (frames_of source p); subst s; split; [done|unfold frames_of; by rewrite Hir]).
    assert (Hgen : generation_of parts = Some g).
    { unfold generation_of. rewrite (peek_encoded _ _ _ _ E) by (unfold frames_of; by rewrite Hir). unfold frames_of. by rewrite Hig, Hg. }
    apply wpt_bind, wpt_act. intros p' Hv'. pose proof (send_allowed i r s parts g p' Hv' Henc Hgen r_handles) as Hsend.
    destruct (on_net (send_multipart s parts) p').2 as [x|e] eqn:Es.
    + exists r. split; [exact Hsend|]. by apply wpt_ret.
    + destruct Hsend as [Hz Hal]. exists (add_credit s g r). split; [exact Hal|]. rewrite Hz.
      apply wpt_bind, wpt_act. intros p2 Hv2. rewrite Hg. destruct (release_allowed i r s g p2 Hv2 r_handles) as [Hok Hal2].
      exists r. split; [exact Hal2|]. destruct (release_credit s g p2).2; [by apply wpt_ret|done].
  - destruct (is_zmq_error e) eqn:Hz.
    + exists (add_credit s g r). split; [apply allowed_core, same_core_refl|]. apply wpt_bind, wpt_act. intros p2 Hv2. rewrite Hg.
      destruct (release_allowed i r s g p2 Hv2 r_handles) as [Hok Hal2]. exists r. split; [exact Hal2|].
      destruct (release_credit s g p2).2; [by apply wpt_ret|done].
    + exists r. split; [apply allowed_drop; [done|apply same_core_refl|done]|]. done.
Qed.

Lemma acquire_send s source g {A} (t : T A) (k : bool -> T A) post :
  item_stage source = s -> it_generation (item_bytes [] source) = g -> uuid_range (it_record_id (item_bytes [] source)) ->
  may_enter i r s g -> kept i r t post -> (forall b, kept i r (k b) post) -> (forall e, post (Raise e)) ->
  kept i r (acquired ← act (acquire_credit limits s g);
            if negb acquired then t else sent ← send_encoded limits s source; k sent) post.
Proof.
  intros Hs Hg Hr He Ht Hk Hpost. apply wpt_bind, wpt_act. intros p Hv. destruct (acquire_allowed i r s g p Hv He) as (b&->&Hal).
  eexists. split; [exact Hal|]. destruct b; cbn [negb]; [|exact Ht].
  apply wpt_bind. eapply wpt_mono; [by apply send_encoded_ok|]. intros [b|e] r' ->; [apply Hk|by split].
Qed.
End Sending.

(** ** The stage actors *)

Section ActorCalls.
Variable (s : PipelineStage) (parts : list pybytes) (g : Z).
Hypothesis parts_encoded : encoded s parts.
Hypothesis parts_generation : generation_of parts = Some g.
Local Abbreviation self := (Actor s).
Local Abbreviation mine := (handling s parts g).

Lemma mine_handles s' : self = Actor s' -> forall parts', o_current mine = Some parts' ->
  exists g, generation_of parts' = Some g /\ 1 <= held mine s' g.
Proof. intros [= <-] ? [= <-]. exists g. split; [done|]. by rewrite held_handling, bool_decide_true. Qed.

Lemma keeps_actor s' f : (forall x, a_current (f x) = a_current x) -> keeps self mine (act (on_actor s' f)).
Proof. intros Hf. by apply keeps_act, neutral_actor. Qed.

Lemma emit_fault_keeps rid code : keeps self mine (emit_fault s rid code).
Proof. unfold emit_fault. repeat keeps_step; by apply neutral_actor. Qed.
Lemma on_failure_keeps rid e : keeps self mine (on_failure s rid e).
Proof. unfold on_failure, dropped. repeat (apply emit_fault_keeps || keeps_step); by apply neutral_actor. Qed.
Lemma must_drop_keeps t deadline : keeps self mine (must_drop s t deadline).
Proof. unfold must_drop. repeat keeps_step. Qed.
Lemma dropped_keeps : keeps self mine (dropped s).
Proof. by apply keeps_actor. Qed.
Lemma process_keeps i t : keeps self mine (process s i t).
Proof. unfold process. repeat keeps_step. Qed.

Lemma persist_keeps i t : it_generation i = g -> keeps self mine (persist i t).
Proof.
  intros Hi. unfold persist. destruct encrypted_sink as [sink|]; [|by apply kept_throw].
  unfold gate_run_persistence. apply keeps_locking; [intros b; apply neutral_held; auto|].
  apply wpt_bind, wpt_act. intros p Hv. pose proof (acquire_permit_allowed self mine KPersistence (it_generation i) p Hv eq_refl) as Ha.
  cbn [acquire] in Ha. destruct (on_gate (acquire_persistence_operation (it_generation i)) p).2 as [permit|e].
  - destruct Ha as [_ Hal]. eexists. split; [exact Hal|]. apply wpt_finally.
    eapply wpt_mono; [apply (keeps_act _ _ _ (neutral_world _))|]. intros x r' [-> _]. apply wpt_act. intros p' Hv'.
    destruct (release_permit_allowed self mine (permit_generation permit) p' Hv' eq_refl) as [-> Hal']. eexists. split; [exact Hal'|]. done.
  - eexists. split; [exact Ha|]. done.
Qed.

Lemma send_output_keeps i output : it_generation i = g -> uuid_range (it_record_id i) -> validate_output s i output = Ok tt ->
  keeps self mine (send_output limits s output).
Proof.
  intros Hg Hr Hv. unfold validate_output in Hv. unfold send_output. destruct (next_stage s) as [edge|] eqn:En; [|done].
  rewrite result_bind_ret in Hv. destruct output as [o out]. cbn [fst snd] in *. ok_steps. btauto_hyps. subst o.
  assert (Hsrc : item_bytes [] (stage_item (edge, out)) = out /\ item_stage (stage_item (edge, out)) = edge) by (clear parts_encoded; by destruct s; simplify_eq/=).
  destruct Hsrc as [Hsrc1 Hsrc2].
  apply wpt_bind, wpt_act. intros p Hval.
  assert (He : may_enter self mine edge (it_generation out)).
  { right. exists s. split; [done|]. rewrite held_handling, bool_decide_true; [done|congruence]. }
  destruct (acquire_allowed self mine edge _ p Hval He) as (b&->&Hal). eexists. split; [exact Hal|]. destruct b; [|by apply kept_ret].
  eapply wpt_mono; [apply (send_encoded_ok self mine mine_handles); rewrite ?Hsrc1; [done|done|congruence]|]. by intros x2 r2 ->.
Qed.

Lemma handle_item_keeps pi : it_generation (item_bytes [] pi) = g -> uuid_range (it_record_id (item_bytes [] pi)) ->
  keeps self mine (handle_item limits s pi).
Proof.
  intros Hg Hr. unfold handle_item.
  eapply (kept_bind _ _ _ _ (fun x => exists i, x = Ok i /\ it_generation i = g /\ uuid_range (it_record_id i))).
  { apply kept_act; [apply neutral_gets|]. intros p _. exists (frames_of pi p). unfold frames_of.
    destruct (item_bytes_same (p_heap p) pi) as (->&->&_). done. }
  2:{ by intros e (i&?&_). }
  intros i (i'&[= <-]&Hig&Hir). apply keeps_bind; [apply keeps_act; auto with neutral|]. intros t.
  apply keeps_bind; [apply must_drop_keeps|]. intros drop. destruct drop; [apply dropped_keeps|].
  apply keeps_bind; [repeat keeps_step|]. intros current. destruct current; [|apply dropped_keeps]. cbn [negb].
  apply keeps_bind; [by apply keeps_actor|]. intros _.
  assert (Hrest : keeps self mine (output ← process s i t; cancelled ← act (gets (token_cancelled t));
      if (cancelled : bool) then dropped s else
      _ ← act (on_gate (require_current_generation (it_generation i))); _ ← act (lift (validate_output s i output));
      sent ← send_output limits s output; if negb sent then dropped s else act (on_actor s metrics_completed))).
  { apply keeps_bind; [apply process_keeps|]. intros output. apply keeps_bind; [repeat keeps_step|]. intros cancelled.
    destruct cancelled; [apply dropped_keeps|]. apply keeps_bind; [repeat keeps_step|]. intros _.
    eapply (kept_bind _ _ _ _ (fun x => x = validate_output s i output)); [by apply kept_act; [apply neutral_lift|]| |done].
    intros [] Hv. apply keeps_bind; [by eapply send_output_keeps|]. intros sent. destruct sent; [by apply keeps_actor|apply dropped_keeps]. }
  assert (Hpersist : keeps self mine (_ ← persist i t; act (on_actor s metrics_completed))).
  { apply keeps_bind; [by apply persist_keeps|]. intros _. by apply keeps_actor. }
  destruct s; first [exact Hpersist|exact Hrest].
Qed.

(** An action that only changes attributes answers [None]. *)
Lemma then_modify {A} f (k : unit -> T A) Q : neutral (modify f) -> pool_wpt pipe_inv grows self (k tt) Q mine ->
  pool_wpt pipe_inv grows self (_ ← act (modify f); k tt) Q mine.
Proof. intros Hf Hk. apply wpt_bind, wpt_act. intros p _. exists mine. split; [by apply allowed_core|done]. Qed.

Lemma finish_item_ok raw : pool_wpt pipe_inv grows self (finish_item s raw (Some g)) (fun _ r' => r' = resting) mine.
Proof.
  unfold finish_item. apply (then_modify _ (fun _ => _)); [by apply (neutral_actor s (set_processing false))|].
  assert (Hlast : pool_wpt pipe_inv grows self (act (_ ← release_credit s g; on_actor s (set_current None))) (fun _ r' => r' = resting) mine).
  { apply wpt_act. intros p Hv. destruct (finish_allowed s parts g p Hv) as (p'&->&Hal). by exists resting. }
  destruct raw as [i|]; [|exact Hlast]. apply (then_modify _ (fun _ => _)); [apply neutral_heap|exact Hlast].
Qed.

Lemma decoded_ok : kept self mine (attempt (p ← act (decode_item limits parts s); mret (Ok p)) (fun e => mret (Raise e)))
  (fun x => exists y, x = Ok y /\ forall pi, y = Ok pi ->
    it_generation (item_bytes [] pi) = g /\ uuid_range (it_record_id (item_bytes [] pi)) /\ item_stage pi = s).
Proof.
  eapply (kept_attempt _ _ _ _ (fun x => forall y, x = Ok y -> exists pi, y = Ok pi /\
    it_generation (item_bytes [] pi) = g /\ uuid_range (it_record_id (item_bytes [] pi)) /\ item_stage pi = s)).
  - eapply (kept_bind _ _ _ _ (fun x => forall pi, x = Ok pi ->
      it_generation (item_bytes [] pi) = g /\ uuid_range (it_record_id (item_bytes [] pi)) /\ item_stage pi = s)).
    + apply kept_act; [apply neutral_decode|]. intros p _ pi. destruct parts_encoded as (i&Hi&Hr).
      destruct (decode_encoded s i limits parts Hi Hr) as (Hd&Hp).
      pose proof parts_generation as Hg. unfold generation_of in Hg. rewrite Hp in Hg.
      unfold decode_item, mbind, M_bind, lift. rewrite Hd. injection Hg as Hg. by destruct s; cbn; intros [= <-].
    + intros pi Hpi. apply kept_ret. intros y [= <-]. exists pi. auto.
    + done.
  - intros y Hy. exists y. split; [done|]. intros pi ->. destruct (Hy _ eq_refl) as (pi'&[= <-]&?). done.
  - intros e _. apply kept_ret. exists (Raise e). by split.
Qed.

Lemma handle_parts_ok : pool_wpt pipe_inv grows self (handle_parts limits s parts) (fun _ r' => r' = resting) mine.
Proof.
  assert (Hpeek : exists rid, peek_record_and_generation parts = Ok (rid, Some g)).
  { pose proof parts_generation as Hg. unfold generation_of in Hg. destruct (peek_record_and_generation parts) as [[rid og]|e]; [|done]. exists rid. by subst. }
  destruct Hpeek as [rid Hpeek]. unfold handle_parts. apply wpt_bind, wpt_act. intros p _. exists mine.
  split; [apply allowed_core, same_core_refl|]. unfold lift. cbn [fst snd]. rewrite Hpeek.
  apply wpt_bind. eapply wpt_mono; [apply decoded_ok|]. intros x r' (->&y&->&Hy).
  assert (Hfin : forall (t : T unit) raw, keeps self mine t ->
    pool_wpt pipe_inv grows self (finally t (finish_item s raw (Some g))) (fun _ r' => r' = resting) mine).
  { intros t raw Ht. apply wpt_finally. eapply wpt_mono; [exact Ht|]. intros x r2 [-> _].
    eapply wpt_mono; [apply finish_item_ok|]. by intros [] r3 ->. }
  destruct y as [pi|e].
  - destruct (Hy pi eq_refl) as (Hg&Hr&_). rewrite Hg. apply Hfin. apply keeps_attempt; [by apply handle_item_keeps|].
    intros e. apply on_failure_keeps.
  - apply Hfin, on_failure_keeps.
Qed.
End ActorCalls.

Definition ends_resting {A} (i : role) (t : T A) : Prop := forall r, r = resting -> pool_wpt pipe_inv grows i t (fun _ r' => r' = resting) r.

Lemma resting_keeps {A} i (t : T A) : keeps i resting t -> ends_resting i t.
Proof. intros Ht r ->. eapply wpt_mono; [exact Ht|]. by intros x r' [-> _]. Qed.
Lemma resting_bind {A B} i (t : T A) (k : A -> T B) : ends_resting i t -> (forall a, ends_resting i (k a)) -> ends_resting i (mbind k t).
Proof. intros Ht Hk r ->. apply wpt_bind. eapply wpt_mono; [by apply Ht|]. intros [a|e] r' ->; [by apply Hk|done]. Qed.

Lemma emit_fault_resting s rid code : ends_resting (Actor s) (emit_fault s rid code).
Proof. apply resting_keeps. unfold emit_fault. repeat keeps_step; by apply neutral_actor. Qed.

Lemma poll_once_resting s : ends_resting (Actor s) (poll_once limits s).
Proof.
  intros r ->. unfold poll_once. apply wpt_bind, wpt_attempt, wpt_bind, wpt_act. intros p Hv.
  pose proof (receive_allowed s false p Hv) as Hr. destruct (receive s false p).2 as [parts|e] eqn:E.
  - destruct Hr as (g&Henc&Hg&Hal). exists (handling s parts g). split; [exact Hal|].
    apply wpt_bind, wpt_act. intros p' _. exists (handling s parts g). split; [by apply allowed_core, (neutral_actor s metrics_received)|].
    by apply handle_parts_ok.
  - destruct Hr as [Hz Hal]. exists resting. split; [exact Hal|]. rewrite Hz. apply wpt_ret. cbn beta iota. case_bool_decide; [done|].
    apply resting_bind; [apply emit_fault_resting| |done]. intros _. by apply resting_keeps, keeps_act, neutral_actor.
Qed.

Lemma drain_round_resting s : ends_resting (Actor s) (drain_round limits s).
Proof.
  intros r ->. unfold drain_round. apply wpt_bind, wpt_attempt, wpt_bind, wpt_act. intros p Hv.
  pose proof (receive_allowed s true p Hv) as Hr. destruct (receive s true p).2 as [parts|e] eqn:E.
  - destruct Hr as (g&Henc&Hg&Hal). exists (handling s parts g). split; [exact Hal|].
    assert (Hpeek : exists rid, peek_record_and_generation parts = Ok (rid, Some g)).
    { unfold generation_of in Hg. destruct (peek_record_and_generation parts) as [[rid og]|e]; [|done]. exists rid. by subst. }
    destruct Hpeek as [rid Hpeek]. apply wpt_bind, wpt_act. intros p1 _. exists (handling s parts g).
    split; [apply allowed_core, same_core_refl|]. unfold lift. cbn [fst snd]. rewrite Hpeek. cbn [snd].
    apply wpt_bind, wpt_act. intros p2 Hv2. destruct (finish_allowed s parts g p2 Hv2) as (p3&->&Hal3). exists resting. split; [exact Hal3|].
    cbn [snd]. lazymatch goal with |- wpt _ _ ?t _ _ => refine (resting_keeps (Actor s) t _ resting eq_refl) end. unfold dropped. repeat keeps_step. by apply neutral_actor.
  - destruct Hr as [Hz Hal]. exists resting. split; [exact Hal|]. rewrite Hz. by apply wpt_ret.
Qed.

Lemma drain_resting s n : ends_resting (Actor s) (drain limits s n).
Proof.
  induction n as [|n IH]; cbn [drain]; [by apply resting_keeps, keeps_never|].
  apply resting_bind; [apply drain_round_resting|]. intros more. destruct more; [exact IH|by apply resting_keeps, kept_ret].
Qed.

Lemma on_poll_resting s : ends_resting (Actor s) (on_poll limits s).
Proof.
  apply resting_bind; [by apply resting_keeps, keeps_await, neutral_actor|]. intros _.
  apply resting_bind; [apply poll_once_resting|]. intros _. apply resting_keeps, keeps_act. intros p. by apply (neutral_actor s (set_poll _)).
Qed.
Lemma on_drain_resting s n : ends_resting (Actor s) (on_drain limits s n).
Proof.
  apply resting_bind; [apply resting_keeps, keeps_await; auto with neutral|]. intros _.
  intros r ->. apply wpt_finally. eapply wpt_mono; [by apply drain_resting|]. intros x r' ->.
  eapply wpt_mono; [apply (keeps_act (Actor s) resting); by apply neutral_actor|]. by intros [] r2 [-> _].
Qed.

(** ** The frame kept at the ingress *)

Lemma drop_allowed i r j (p : P) : allowed i r p r (drop_coalesced j p).1.
Proof. apply allowed_gate; cbn; auto. intros g. change (p_gate (drop_coalesced j p).1) with (p_gate p). lia. Qed.

Lemma keeps_drop i r j : keeps i r (act (drop_coalesced j)).
Proof. apply wpt_act. intros p _. exists r. split; [apply drop_allowed|done]. Qed.

Lemma keeps_coalesced {A} i r (t : T A) : keeps i r t -> keeps i r (with_coalesced t).
Proof. intros Ht. apply keeps_locking; [|done]. intros b. apply neutral_held. auto. Qed.

Lemma clear_coalesced_keeps i r g : keeps i r (clear_coalesced g).
Proof. apply keeps_coalesced. repeat (apply keeps_drop || keeps_step). Qed.

(** ** The thread that submits *)

Definition submitting (g : Z) : own := set_permit (Some g) resting.
Local Abbreviation sender := (submitting _).

Lemma coalesce_allowed g i (p : P) : it_generation i = g -> uuid_range (it_record_id i) ->
  allowed Submitter (submitting g) p (submitting g) (coalesce i p).1.
Proof.
  intros Hg Hr. unfold coalesce, mbind, M_bind, gets, modify. cbn [fst snd].
  destruct (p_coalesced p) as [j|]; cbn; (apply allowed_gate; cbn; auto; try (intros; lia)); right; right; by exists i, g.
Qed.

Lemma handle_overload_keeps g i : it_generation i = g -> uuid_range (it_record_id i) ->
  keeps Submitter (submitting g) (handle_overload limits i).
Proof.
  intros Hg Hr. unfold handle_overload. destruct (overload_policy limits); [repeat keeps_step|]. apply keeps_coalesced.
  apply wpt_act. intros p _. eexists. split; [by apply coalesce_allowed|done].
Qed.

Lemma submitting_handles g s' : Submitter = Actor s' -> forall parts, o_current (submitting g) = Some parts ->
  exists g', generation_of parts = Some g' /\ 1 <= held (submitting g) s' g'.
Proof. done. Qed.

Lemma submit_keeps me i permit g : it_generation i = g -> uuid_range (it_record_id i) ->
  keeps Submitter (submitting g) (submit limits owner me i permit).
Proof.
  intros Hg Hr. unfold submit. apply keeps_bind; [apply keeps_act, neutral_require|]. intros _.
  apply keeps_bind; [repeat keeps_step|]. intros closed. destruct closed; [repeat keeps_step|].
  apply keeps_bind; [repeat keeps_step|]. intros _. apply keeps_bind; [repeat keeps_step|]. intros cancelled.
  destruct cancelled; [repeat keeps_step|]. rewrite Hg.
  apply (acquire_send Submitter (submitting g) (submitting_handles g) RAW (RawStageItem i) g); try done.
  - by left.
  - by apply handle_overload_keeps.
  - intros [|]; cbn [negb]; [repeat keeps_step|by apply handle_overload_keeps].
Qed.

Lemma flush_keeps me permit : keeps Submitter (submitting (permit_generation permit)) (ingress_flush limits owner me permit).
Proof.
  unfold ingress_flush. apply keeps_bind; [apply keeps_act, neutral_require|]. intros _. apply keeps_coalesced.
  eapply (kept_bind _ _ _ _ (fun x => forall i, x = Ok (Some i) -> uuid_range (it_record_id i))); [|intros found Hf|done].
  { apply kept_act; [apply neutral_gets|]. intros p (rs&_&Hi) i [= Hc]. by eapply pi_coalesced. }
  destruct found as [i|]; [|by apply kept_ret]. pose proof (Hf i eq_refl) as Hr. apply keeps_bind; [repeat keeps_step|]. intros cancelled.
  destruct (Z.eqb_spec (it_generation i) (permit_generation permit)) as [Hg|Hg]; cbn [negb orb];
    [|apply keeps_bind; [apply keeps_drop|intros _; by apply kept_ret]].
  destruct cancelled; [apply keeps_bind; [apply keeps_drop|intros _; by apply kept_ret]|]. rewrite Hg.
  apply (acquire_send Submitter _ (submitting_handles _) RAW (RawStageItem i) (permit_generation permit)); try done.
  - by left.
  - intros [|]; cbn [negb]; [apply keeps_bind; [apply keeps_drop|intros _]|]; by apply kept_ret.
Qed.

Lemma run_capture_resting {A} (operation : CaptureWorkPermit -> T A) :
  (forall permit, keeps Submitter (submitting (permit_generation permit)) (operation permit)) ->
  ends_resting Submitter (gate_run_capture operation).
Proof.
  intros Hop r ->. unfold gate_run_capture. apply wpt_bind, wpt_act. intros p Hv.
  pose proof (acquire_permit_allowed Submitter resting KCapture 0 p Hv eq_refl) as Ha. cbn [acquire] in Ha.
  destruct (on_gate acquire_capture_operation p).2 as [permit|e].
  - destruct Ha as [_ Hal]. eexists. split; [exact Hal|]. apply wpt_finally. eapply wpt_mono; [apply Hop|]. intros x r' [-> _].
    apply wpt_act. intros p' Hv'. destruct (release_permit_allowed Submitter resting (permit_generation permit) p' Hv' eq_refl) as [-> Hal'].
    eexists. split; [exact Hal'|]. done.
  - eexists. split; [exact Ha|]. done.
Qed.

Lemma resting_attempt {A} i (t : T A) h : ends_resting i t -> (forall e, ends_resting i (h e)) -> ends_resting i (attempt t h).
Proof. intros Ht Hh r ->. apply wpt_attempt. eapply wpt_mono; [by apply Ht|]. intros [a|e] r' ->; [done|by apply Hh]. Qed.

Lemma submit_raw_resting me rid frames g deadline : uuid_range rid ->
  ends_resting Submitter (submit_raw limits owner me rid frames g deadline).
Proof.
  intros Hr. unfold submit_raw. apply resting_bind; [apply resting_keeps, keeps_act, neutral_require|]. intros _.
  apply resting_bind.
  { apply resting_keeps. destruct deadline as [d|]; [destruct (d =? 0)|]; repeat keeps_step. }
  intros d. apply resting_attempt; [|intros e; apply resting_keeps; repeat keeps_step].
  apply run_capture_resting. intros permit. destruct (Z.eqb_spec (permit_generation permit) g) as [->|Hn]; [|by apply kept_throw].
  by apply submit_keeps.
Qed.

Lemma flush_resting me : ends_resting Submitter (flush_coalesced limits owner me).
Proof.
  apply resting_bind; [apply resting_keeps, keeps_act, neutral_require|]. intros _. apply run_capture_resting. intros permit. apply flush_keeps.
Qed.

Lemma close_resting me : ends_resting Submitter (ingress_close owner me).
Proof.
  apply resting_keeps. unfold ingress_close. repeat (apply clear_coalesced_keeps || keeps_step).
  - apply neutral_require.
  - apply neutral_held. auto.
Qed.

(** ** The lifecycle thread *)

Definition coord (lv : Z -> Z) : own := {| o_credits := []; o_current := None; o_permit := None; o_level := lv |}.
Definition raised (g n : Z) (lv : Z -> Z) : Z -> Z := fun g' => if bool_decide (g' = g) then Z.max n (lv g) else lv g'.

(** What level [n] says of a generation *)
Record drained_to (g n : Z) (rs : role -> own) (p : P) : Prop := {
  dt_sealed : 1 <= n -> retired g (p_gate p) /\ o_permit (rs Submitter) <> Some g;
  dt_clear s : stage_index s + 2 <= n -> messages (queued (p_net p) s) g + total rs s g = 0 /\ lost s g = 0;
  dt_empty i : 6 <= n -> p_coalesced p = Some i -> it_generation i <> g }.

Lemma allowed_raise lv g n p :
  (forall rs, rs Coordinator = coord lv -> pipe_inv rs p -> drained_to g n rs p) ->
  allowed Coordinator (coord lv) p (coord (raised g n lv)) p.
Proof.
  intros Hd. split; [intros g'; cbn; unfold raised; case_bool_decide; subst; lia|].
  intros rs Hrs Hi. pose proof (Hd rs Hrs Hi) as [Hs Hc He].
  assert (Htot : forall s g', total (give Coordinator (coord (raised g n lv)) rs) s g' = total rs s g').
  { intros s g'. rewrite total_give, Hrs. change (held (coord _) s g') with 0. lia. }
  assert (Hlev : forall g', o_level (rs Coordinator) g' = lv g') by (intros; by rewrite Hrs).
  assert (Hnew : forall g', o_level (give Coordinator (coord (raised g n lv)) rs Coordinator) g' = raised g n lv g') by (intros; by rewrite give_same).
  destruct Hi as [? Hpe ? ? Hco ? ? ? Hse Hcl Hem]. split; intros *; rewrite ?Hnew, ?Htot, ?give_other by done; auto.
  - rewrite permits_give, Hrs. specialize (Hpe g0). unfold has_permit. cbn. lia.
  - unfold raised. case_bool_decide; [subst|rewrite <- Hlev; apply Hse].
    intros Hm. destruct (decide (1 <= n)); [by apply Hs|]. apply Hse. rewrite Hlev. lia.
  - unfold raised. case_bool_decide; [subst|rewrite <- Hlev; apply Hcl].
    intros Hm. destruct (decide (stage_index s + 2 <= n)); [by apply Hc|]. apply Hcl. rewrite Hlev. lia.
  - unfold raised. case_bool_decide; [subst|rewrite <- Hlev; apply Hem].
    intros Hm. destruct (decide (6 <= n)); [by apply He|]. apply Hem. rewrite Hlev. lia.
Qed.

(** [t] ends with levels no lower than [lv], in a result and levels that
    satisfy [post]. *)
Definition climbs {A} (t : T A) (lv : Z -> Z) (post : result A -> (Z -> Z) -> Prop) : Prop :=
  pool_wpt pipe_inv grows Coordinator t (fun x r' => exists lv', r' = coord lv' /\ (forall g, lv g <= lv' g) /\ post x lv') (coord lv).

Lemma climbs_bind {A B} (t : T A) (k : A -> T B) lv mid post :
  climbs t lv mid -> (forall a lv', (forall g, lv g <= lv' g) -> mid (Ok a) lv' -> climbs (k a) lv' post) ->
  (forall e lv', mid (Raise e) lv' -> post (Raise e) lv') -> climbs (mbind k t) lv post.
Proof.
  intros Ht Hk He. apply wpt_bind. eapply wpt_mono; [exact Ht|]. intros [a|e] r' (lv'&->&Hle&Hm); [|exists lv'; auto].
  eapply wpt_mono; [by apply (Hk a lv')|]. intros x r2 (lv2&->&Hle2&Hp). exists lv2. split_and!; [done|intros g; specialize (Hle g); specialize (Hle2 g); lia|done].
Qed.
Lemma climbs_keeps {A} (t : T A) lv (post : result A -> (Z -> Z) -> Prop) :
  keeps Coordinator (coord lv) t -> (forall x, post x lv) -> climbs t lv post.
Proof. intros Ht Hp. eapply wpt_mono; [exact Ht|]. intros x r' [-> _]. exists lv. auto with lia. Qed.
Lemma climbs_ret {A} (a : A) lv (post : result A -> (Z -> Z) -> Prop) : post (Ok a) lv -> climbs (mret a) lv post.
Proof. intros Hp. exists lv. auto with lia. Qed.

(** A reading of the state after which more is known drained *)
Lemma climbs_reads {A} ready (f : P -> A) lv g n (done : A -> bool) :
  (forall p, ready p = true -> done (f p) = true -> forall rs, rs Coordinator = coord lv -> pipe_inv rs p -> drained_to g n rs p) ->
  climbs (await ready (gets f)) lv (fun x lv' => forall a, x = Ok a -> done a = true -> n <= lv' g).
Proof.
  intros Hd. apply wpt_await. intros p Hv Hr. cbn [gets fst snd]. destruct (done (f p)) eqn:E.
  - exists (coord (raised g n lv)). split; [apply allowed_raise; by apply Hd|]. exists (raised g n lv). split_and!; [done| |].
    + intros g'. unfold raised. case_bool_decide; subst; lia.
    + intros a _ _. unfold raised. rewrite bool_decide_true by done. lia.
  - exists (coord lv). split; [apply allowed_core, same_core_refl|]. exists lv. split_and!; [done|lia|]. intros a [= <-]. by rewrite E.
Qed.

Lemma wait_for_zero_climbs s g wakeups lv : stage_index s + 1 <= lv g ->
  climbs (wait_for_zero s g wakeups) lv (fun x lv' => x = Ok true -> stage_index s + 2 <= lv' g).
Proof.
  revert lv. induction wakeups as [|n IH]; intros lv Hlv; cbn [wait_for_zero].
  all: eapply climbs_bind; [apply (climbs_reads _ _ lv g (stage_index s + 2) (fun n => n <=? 0))|intros z lv' Hle Hz|done].
  1, 3: intros p _ Hz rs Hrs Hi; apply Z.leb_le in Hz; pose proof (pi_cover _ _ Hi s g); pose proof (held_total rs Coordinator s g);
    pose proof (messages_nonneg (queued (p_net p) s) g); pose proof (lost_nonneg s g); split; intros *;
    [intros _; apply Hi; rewrite Hrs; cbn; destruct s; cbn in Hlv; lia| |intros Hn; destruct s; cbn in *; lia];
    intros Hn; destruct (decide (s0 = s)) as [->|Hne]; [lia|]; apply (pi_clear _ _ Hi); rewrite Hrs; cbn; destruct s, s0; cbn in *; done || lia.
  all: destruct (z <=? 0) eqn:E; [apply climbs_ret; intros _; by apply (Hz z)|].
  - by apply climbs_ret.
  - apply IH. specialize (Hle g). lia.
Qed.

Lemma wait_ledgers_climbs g waits k lv :
  (forall i w, waits !! i = Some w -> stage_index w.1 = k + Z.of_nat i) -> k + 1 <= lv g ->
  climbs (wait_ledgers g waits) lv (fun x lv' => x = Ok true -> k + zlen waits + 1 <= lv' g).
Proof.
  revert k lv. induction waits as [|[s [n|]] waits IH]; intros k lv Hidx Hlv; cbn [wait_ledgers]; [| |by apply climbs_ret].
  - apply climbs_ret. intros _. unfold zlen. cbn. lia.
  - pose proof (Hidx 0%nat _ eq_refl) as Hs. cbn in Hs. eapply climbs_bind; [apply wait_for_zero_climbs; lia| |done].
    intros zero lv' Hle Hz. destruct zero; [|by apply climbs_ret].
    eapply wpt_mono; [apply (IH (k + 1) lv')|].
    + intros i w Hi. rewrite (Hidx (Datatypes.S i) w Hi). lia.
    + specialize (Hz eq_refl). lia.
    + intros x r' (lv2&->&Hle2&Hp). exists lv2. split_and!; [done..|]. intros ->. specialize (Hp eq_refl). unfold zlen in *. cbn [length]. lia.
Qed.

Lemma climbs_locking {A} held set_held (t : T A) lv post :
  (forall b, neutral (modify (set_held b))) -> climbs t lv post -> climbs (locking held set_held t) lv post.
Proof.
  intros Hn Ht. eapply (climbs_bind _ _ _ (fun x lv' => x = Ok tt /\ lv' = lv)); [|intros _ lv' _ [_ ->]|by intros e lv' [? _]].
  { eapply wpt_mono; [apply (kept_step _ _ _ _ (fun x => x = Ok tt)); [done|by intros p _ _]|].
    intros x r' [-> ->]. exists lv. auto with lia. }
  apply wpt_finally. eapply wpt_mono; [exact Ht|]. intros x r' (lv'&->&Hle&Hp). apply wpt_act. intros p Hv.
  exists (coord lv'). split; [apply allowed_core, Hn|]. exists lv'. auto.
Qed.

Lemma has_coalesced_climbs g lv : 5 <= lv g ->
  climbs (has_coalesced (Some g)) lv (fun x lv' => x = Ok false -> 6 <= lv' g).
Proof.
  intros Hlv. apply climbs_locking; [intros b; apply neutral_held; auto|].
  eapply wpt_mono; [apply (climbs_reads (fun _ => true) _ lv g 6 negb)|].
  - intros p _ Hn rs Hrs Hi. split.
    + intros _. apply Hi. rewrite Hrs. cbn. lia.
    + intros s Hs. apply Hi. rewrite Hrs. destruct s; cbn in *; lia.
    + intros i _ Hc. rewrite Hc in Hn. by apply negb_true_iff, Z.eqb_neq in Hn.
  - intros x r' (lv'&->&Hle&Hp). exists lv'. split_and!; [done..|]. intros ->. by apply (Hp false).
Qed.

Lemma sealed_at g rs p : is_retired g p = true -> (in_flight_of (p_gate p) g <=? 0) = true -> pipe_inv rs p -> drained_to g 1 rs p.
Proof.
  unfold is_retired. intros Hr Hf Hi. btauto_hyps. split; [intros _|intros s; destruct s; cbn; lia|lia]. split; [by split|].
  pose proof (pi_permits _ _ Hi g) as Hp. intros Hs.
  assert (0 <= permits (give Submitter (coord (fun _ => 0)) rs) g) as Hn.
  { apply sum_by_nonneg. intros j _. unfold has_permit. by case_bool_decide. }
  rewrite permits_give in Hn. unfold has_permit in Hn. cbn in Hn. repeat case_bool_decide; simplify_eq; done || lia.
Qed.

Lemma drain_generation_climbs g waits lv :
  climbs (drain_generation g waits) lv (fun x lv' => forall g', x = Ok (Some g') -> 6 <= lv' g').
Proof.
  eapply climbs_bind; [apply (climbs_reads (is_retired g) _ lv g 1 id)|intros idle lv1 _ Hidle|done].
  { intros p Hr Hf rs _ Hi. by apply sealed_at. }
  destruct idle; [|by apply climbs_ret]. specialize (Hidle true eq_refl eq_refl).
  eapply (climbs_bind _ _ _ (fun x lv' => x = Ok true -> 6 <= lv' g)); [|intros quiet lv2 _ Hq|done].
  - eapply climbs_bind; [apply (wait_ledgers_climbs g _ 0); [|lia]|intros zero lv2 _ Hz|done].
    { intros i w Hi. apply list_lookup_fmap_Some_1 in Hi as (s&->&Hi). destruct i as [|[|[|[|i]]]]; [injection Hi as <-; reflexivity..|done]. }
    destruct zero; [|by apply climbs_ret]. specialize (Hz eq_refl). cbn in Hz.
    eapply climbs_bind; [apply has_coalesced_climbs; unfold zlen in Hz; cbn in Hz; lia|intros co lv3 _ Hc|done].
    apply climbs_ret. intros [= E]. apply negb_true_iff in E as ->. by apply Hc.
  - apply climbs_ret. destruct quiet; [|done]. intros g' [= <-]. by apply Hq.
Qed.

Lemma ask_drain_keeps patient s lv : keeps Coordinator (coord lv) (ask_drain patient s).
Proof. unfold ask_drain. repeat keeps_step. by apply neutral_actor. Qed.

Lemma each_keeps {A} i r (xs : list A) f : (forall x, keeps i r (f x)) -> keeps i r (each xs f).
Proof. intros Hf. induction xs as [|x xs IH]; cbn [each]; [by apply kept_ret|]. by apply keeps_bind. Qed.

Lemma clear_buffers_keeps patient g lv : keeps Coordinator (coord lv) (clear_volatile_buffers patient g).
Proof.
  unfold clear_volatile_buffers. apply keeps_bind; [apply clear_coalesced_keeps|]. intros _.
  apply keeps_bind; [apply each_keeps; intros s; apply ask_drain_keeps|]. intros _. repeat keeps_step.
Qed.

Lemma owner_transition_keeps thread op lv : keeps Coordinator (coord lv) (owner_transition thread op).
Proof.
  assert (Hcall : keeps Coordinator (coord lv) (await (fun p : P => match op with
      OpFinishOff _ => negb (bool_decide (g_state (p_gate p) = STARTING)) | _ => true end) (on_gate (run_owner thread op)))).
  { apply wpt_await. intros p Hv Hr. exists (coord lv). split; [|done]. apply owner_allowed; [done|].
    destruct op; cbn; try done. by btauto_hyps. }
  unfold owner_transition. destruct (takes_commit_lock op); [|done]. apply keeps_locking; [|done]. intros b. apply neutral_held. auto.
Qed.

(** ** The pool *)

Definition idle (i : role) (r : own) : Prop := match i with Coordinator => exists lv, r = coord lv | _ => r = resting end.
Definition rest (i : role) (x : result (option Z)) (r : own) : Prop :=
  idle i r /\ (i = Coordinator -> forall g, x = Ok (Some g) -> 6 <= o_level r g).

Lemma ignore_rest {A} i (t : T A) r : pool_wpt pipe_inv grows i t (fun _ r' => idle i r') r ->
  pool_wpt pipe_inv grows i (ignore t) (rest i) r.
Proof. intros Ht. apply wpt_bind. eapply wpt_mono; [exact Ht|]. by intros [a|e] r' Hr; split. Qed.

Lemma calls_rest i t r : pipeline_call i t -> idle i r -> pool_wpt pipe_inv grows i t (rest i) r.
Proof.
  intros Hc Hr. assert (Hq : forall A (t : T A), ends_resting i t -> i <> Coordinator -> pool_wpt pipe_inv grows i (ignore t) (rest i) r).
  { intros A t' Ht Hi. apply ignore_rest. assert (r = resting) as -> by by destruct i.
    eapply wpt_mono; [by apply Ht|]. intros x r' ->. by destruct i. }
  assert (Hk : forall A (t : T A), i = Coordinator -> (forall lv, keeps Coordinator (coord lv) t) -> pool_wpt pipe_inv grows i (ignore t) (rest i) r).
  { intros A t' -> Ht. destruct Hr as [lv ->]. apply ignore_rest. eapply wpt_mono; [apply Ht|]. intros x r' [-> _]. by exists lv. }
  destruct Hc.
  - by apply Hq; [apply on_poll_resting|].
  - by apply Hq; [apply on_drain_resting|].
  - by apply Hq; [apply submit_raw_resting|].
  - by apply Hq; [apply flush_resting|].
  - by apply Hq; [apply close_resting|].
  - apply Hk; [done|]. intros lv. apply owner_transition_keeps.
  - apply Hk; [done|]. intros lv. unfold cancel_queued. apply keeps_bind; [repeat keeps_step|]. intros _. apply clear_coalesced_keeps.
  - apply Hk; [done|]. intros lv. unfold cancel_in_flight. repeat keeps_step.
  - destruct Hr as [lv ->]. eapply wpt_mono; [apply drain_generation_climbs|]. intros x r' (lv'&->&_&Hp). split; [by exists lv'|]. intros _. apply Hp.
  - apply Hk; [done|]. intros lv. apply clear_buffers_keeps.
Qed.
End Threads.
