(* ===== verification/PipelineProps.v ===== *)
(** * PipelineProps: what the capture pipeline promises.

    The number of frames in flight stays within the credits, a drained
    generation stays drained, and what happens to the credit of a frame that
    cannot be encoded; with a pipeline that runs. *)

From S2P Require Import Prelude PyStr Utf8 Json JsonFacts PyLib Storage PyData Codec CodecFacts Gate GateFacts GateThreads Adaptive Concurrent Pipeline PipelineFacts PipelineThreads.

(** ** Messages and credits *)

Lemma in_use_nonneg l : map_Forall (fun _ n => 0 < n) l -> 0 <= in_use_locked l.
Proof.
  intros Hl. apply sum_by_nonneg. intros [g n] Hi. apply elem_of_map_to_list in Hi. specialize (Hl _ _ Hi). cbn in *. lia.
Qed.

Lemma credit_in_use cap l g : ledger_ok cap l -> credit_of l g <= in_use_locked l.
Proof. intros [Hl _]. pose proof (in_use_nonneg (delete g l) (map_Forall_delete _ _ _ Hl)) as Hd. rewrite in_use_delete in Hd. lia. Qed.

Lemma in_use_give_back l g : in_use_locked (give_back g l) = in_use_locked l - 1.
Proof. unfold give_back. destruct (Z.eqb_spec (credit_of l g) 1); [rewrite in_use_delete|rewrite in_use_insert]; lia. Qed.

(** Messages each of whose generation has credits for all of its messages *)
Lemma messages_in_use {L : PyLibrary} q cap l : Forall (fun m => is_Some (generation_of m)) q -> ledger_ok cap l ->
  (forall g, messages q g <= credit_of l g) -> zlen q <= in_use_locked l.
Proof.
  intros Hq. revert l. induction Hq as [|m q [g Hg] _ IH]; intros l Hl Hm; [by apply in_use_nonneg; destruct Hl|].
  assert (Hcons : forall g', messages (m :: q) g' = (if bool_decide (g = g') then 1 else 0) + messages q g').
  { intros g'. unfold messages. rewrite sum_by_cons, Hg. f_equal. by repeat case_bool_decide; simplify_eq. }
  assert (0 < credit_of l g) as Hc.
  { specialize (Hm g). rewrite Hcons, bool_decide_true in Hm by done. pose proof (messages_nonneg q g). lia. }
  destruct (release_ok cap g l Hl) as (b&_&Hok&Hcr). unfold release_if_acquired in *.
  destruct (Z.leb_spec (credit_of l g) 0); [lia|]. cbn [fst snd] in *. unfold zlen. cbn [length].
  pose proof (in_use_give_back l g). enough (zlen q <= in_use_locked (give_back g l)) by (unfold zlen in *; lia).
  apply IH; [done|]. intros g'. rewrite Hcr. specialize (Hm g'). rewrite Hcons in Hm.
  destruct (decide (g = g')) as [->|Hn]; [rewrite !bool_decide_true in * by done; lia|rewrite !bool_decide_false in * by naive_solver; lia].
Qed.

Section Properties.
Context {L : PyLibrary} {HM : HeaderModel} {K W : Type} `{SocketLaws K} `{StagePorts W}.
Variable limits : PipelineLimits.
Variable owner : Z.
Local Abbreviation P := (pipe K W).

(** The pipeline before anything is submitted; the gate may have a history. *)
Record fresh (p : P) : Prop := {
  fr_gate : gate_inv (p_gate p);
  fr_ledgers s : p_ledgers p s = ∅;
  fr_queued s : queued (p_net p) s = [];
  fr_current s : a_current (p_actors p s) = None;
  fr_coalesced : p_coalesced p = None }.
Definition idle_pool : pool (S:=P) (I:=role) (A:=option Z) := fun _ => Done (Ok None).
Definition runs (c c' : P * pool) : Prop := exists ls, steps (pipeline_step limits owner) c ls c'.

(** The messages at a stage: those queued and the one being handled *)
Definition at_stage (s : PipelineStage) (p : P) : list (list pybytes) :=
  match a_current (p_actors p s) with Some m => [m] | None => [] end ++ queued (p_net p) s.

Definition pipeline_inv (lost : PipelineStage -> Z -> Z) (rs : role -> own) (c : P * pool) : Prop :=
  pool_inv (pipe_inv limits lost) grows rest rs c.

Lemma pipeline_inv_runs lost rs c c' : (forall s g, 0 <= lost s g) -> runs c c' -> pipeline_inv lost rs c ->
  exists rs', all_grow grows rs rs' /\ pipeline_inv lost rs' c'.
Proof.
  intros Hl [ls Hr]. eapply (pool_inv_steps _ _ _ rest idle); [by intros i x r []| |exact Hr].
  intros i t r. by apply calls_rest.
Qed.

(** The idle pipeline, with credits lost *)
Lemma idle_inv lost p : gate_inv (p_gate p) -> (forall s, ledger_ok (capacity limits s) (p_ledgers p s)) ->
  (forall s, queued (p_net p) s = []) -> (forall s, a_current (p_actors p s) = None) -> p_coalesced p = None ->
  (forall s g, 0 <= lost s g <= credit_of (p_ledgers p s) g) -> pipeline_inv lost (fun _ => resting) (p, idle_pool).
Proof.
  intros Hg Hl Hq Hc Hco Hlost. split.
  - assert (Htot : forall s g, total (fun _ => resting) s g = 0) by done.
    split; intros *; cbn [fst snd]; rewrite ?Hq, ?Hc, ?Htot, ?Hco; cbn; try done.
    + unfold permits, has_permit, all_roles. cbn. apply in_flight_of_nonneg with (epoch := g_epoch (p_gate p)), Hg.
    + change (messages [] g) with 0. specialize (Hlost s g). lia.
    + intros Hs. destruct s; cbn in Hs; lia.
  - intros i. destruct i; (split; [cbn; done||by exists (fun _ => 0)|done]).
Qed.

Lemma fresh_inv p : fresh p -> 0 <= raw_queue_items limits -> 0 <= stage_queue_items limits ->
  pipeline_inv (fun _ _ => 0) (fun _ => resting) (p, idle_pool).
Proof.
  intros [Hg Hl Hq Hc Hco] Hraw Hstage. apply idle_inv; try done.
  - intros s. rewrite Hl. apply empty_ledger_ok. by destruct s.
  - intros s g. by rewrite Hl.
Qed.

(** The messages at a stage, and the credits *)
Lemma stage_messages lost rs c s : (forall s g, 0 <= lost s g) -> pipeline_inv lost rs c ->
  Forall (fun m => is_Some (generation_of m)) (at_stage s c.1) /\
  forall g, messages (at_stage s c.1) g <= messages (queued (p_net c.1) s) g + total rs s g.
Proof.
  intros Hlost [Hi _]. unfold at_stage. pose proof (pi_current _ _ _ _ Hi s) as Hcu.
  assert (Hq : Forall (fun m => is_Some (generation_of m)) (queued (p_net c.1) s)).
  { eapply Forall_impl; [apply (pi_queues _ _ _ _ Hi s)|]. intros m Hm. destruct (encoded_generation _ _ _ Hm) as [g ->]. by exists g. }
  destruct (a_current (p_actors c.1 s)) as [m|] eqn:E; cbn.
  - destruct (pi_handled _ _ _ _ Hi s m (eq_sym Hcu)) as (g&Hg&Hh). split; [constructor; [by exists g|done]|].
    intros g'. unfold messages at 1. rewrite sum_by_cons, Hg. fold (messages (queued (p_net c.1) s) g').
    pose proof (held_total rs (Actor s) s g'). case_bool_decide; simplify_eq; lia.
  - split; [done|]. intros g. pose proof (held_total rs (Actor s) s g). lia.
Qed.

(** C12 (pipeline_stays_within_credits): however the stage actors, the
    submitting thread and the lifecycle thread interleave, and whatever the
    sockets, processors, sink and gate answer, the messages queued for a stage
    and being handled there never exceed the credits its ledger has given out,
    and these never exceed the stage's configured capacity. *)
Theorem pipeline_stays_within_credits p c s :
  fresh p -> 0 <= raw_queue_items limits -> 0 <= stage_queue_items limits -> runs (p, idle_pool) c ->
  zlen (at_stage s c.1) <= in_use_locked (p_ledgers c.1 s) <= capacity limits s.
Proof.
  intros Hf Hraw Hstage Hr.
  destruct (pipeline_inv_runs _ _ _ _ (fun _ _ => Z.le_refl 0) Hr (fresh_inv p Hf Hraw Hstage)) as (rs&_&Hi).
  destruct (stage_messages _ _ _ s (fun _ _ => Z.le_refl 0) Hi) as [Hg Hm].
  pose proof (pi_ledgers _ _ _ _ (proj1 Hi) s) as Hl. split; [|apply Hl].
  eapply messages_in_use; [exact Hg|exact Hl|]. intros g. specialize (Hm g). pose proof (pi_cover _ _ _ _ (proj1 Hi) s g) as Hc. cbn beta in Hc. lia.
Qed.

(** C11 (drained_stays_drained): once the lifecycle thread has waited for a
    retired generation's operations and for the pipeline, and both waits said
    they were over, no message of that generation is queued or being handled
    at any stage and none of its frames is kept at the ingress, then and at
    any later time, whatever every thread does. *)
Theorem drained_stays_drained p c g c' s :
  fresh p -> 0 <= raw_queue_items limits -> 0 <= stage_queue_items limits -> runs (p, idle_pool) c ->
  c.2 Coordinator = Done (Ok (Some g)) -> runs c c' ->
  (forall m, m ∈ at_stage s c'.1 -> generation_of m <> Some g) /\
  (forall i, p_coalesced c'.1 = Some i -> it_generation i <> g).
Proof.
  intros Hf Hraw Hstage Hr Hc Hr'.
  destruct (pipeline_inv_runs _ _ _ _ (fun _ _ => Z.le_refl 0) Hr (fresh_inv p Hf Hraw Hstage)) as (rs&_&Hi).
  assert (6 <= o_level (rs Coordinator) g) as Hlev.
  { pose proof (proj2 Hi Coordinator) as Hd. rewrite Hc in Hd. by apply Hd. }
  destruct (pipeline_inv_runs _ _ _ _ (fun _ _ => Z.le_refl 0) Hr' Hi) as (rs'&Hgrow&Hi').
  specialize (Hgrow Coordinator g). split; [|intros i; apply (pi_empty _ _ _ _ (proj1 Hi') g i); lia].
  destruct (stage_messages _ _ _ s (fun _ _ => Z.le_refl 0) Hi') as [_ Hm]. specialize (Hm g).
  destruct (pi_clear _ _ _ _ (proj1 Hi') g s) as [Hz _]; [destruct s; cbn; lia|]. rewrite Hz in Hm.
  revert Hm. generalize (at_stage s c'.1). induction l as [|m l IH]; [by intros _ m ?%not_elem_of_nil|].
  unfold messages. rewrite sum_by_cons. fold (messages l g). pose proof (messages_nonneg l g).
  intros Hm m' [->|Hin]%elem_of_cons; [case_bool_decide; [lia|done]|]. apply IH; [|done]. case_bool_decide; lia.
Qed.

(** ** A frame that cannot be encoded *)

Definition too_large (p : P) (frames : list nat) : Prop := max_payload_bytes limits < sum_by zlen (buffer (p_heap p) <$> frames).

Lemma encode_too_large stage (i : item pybytes) : max_payload_bytes limits < sum_by zlen (it_frames i) ->
  encode_item stage i limits = Raise (PipelineProtocolError (Some (it_record_id i))).
Proof.
  intros Hi. unfold encode_item, validate_payload_limits, throw_if. case_bool_decide; [done|]. cbn.
  destruct (max_frames limits <? zlen (it_frames i)); [done|]. cbn. by rewrite (proj2 (Z.ltb_lt _ _) Hi).
Qed.

Lemma acquire_fresh g : 1 <= capacity limits RAW -> try_acquire (capacity limits RAW) g ∅ = (<[g := 1]> ∅, Ok true).
Proof. intros Hc. unfold try_acquire, in_use_locked. rewrite map_to_list_empty. change (sum_by snd []) with 0. by rewrite (proj2 (Z.leb_gt _ _)) by lia. Qed.

Lemma attach_run permit (p : P) : exists ev pm ce, attach permit p = (set_registry ev pm ce p, Ok tt).
Proof. unfold attach, event_for, mbind, M_bind. destruct (p_events p !! _); cbn; by eexists _, _, _. Qed.

Lemma submit_too_large p i permit : p_closed p = false -> permit_cancelled permit (p_gate p) = false ->
  p_ledgers p RAW = ∅ -> 1 <= raw_queue_items limits -> too_large p (it_frames i) ->
  exists ev pm ce, alone (submit limits owner owner i permit) p =
    Some (set_ledgers (set_at RAW (<[it_generation i := 1]> ∅) (p_ledgers p)) (set_registry ev pm ce p),
          Raise (PipelineProtocolError (Some (it_record_id i)))).
Proof.
  intros Hcl Hca Hl Hraw Hlarge. destruct (attach_run permit p) as (ev&pm&ce&Hat). exists ev, pm, ce.
  unfold submit, assert_owner, require. rewrite alone_bind, alone_act, Z.eqb_refl.
  rewrite alone_bind, alone_act. unfold gets at 1. rewrite Hcl. rewrite alone_bind, alone_act, Hat.
  rewrite alone_bind, alone_act. unfold gets at 1. cbn [p_gate set_registry]. rewrite Hca.
  rewrite alone_bind, alone_act. unfold acquire_credit. rewrite on_ledger_run. cbn [p_ledgers set_registry].
  rewrite Hl, acquire_fresh by done. cbn [fst snd negb].
  rewrite alone_bind. unfold send_encoded. rewrite alone_attempt, alone_bind, alone_act. unfold mbind, M_bind, gets, lift, frames_of.
  cbn [fst snd p_heap set_ledgers set_registry item_bytes item_stage].
  rewrite encode_too_large by done. done.
Qed.

Lemma submit_raw_too_large p permit gate' rid frames g d : fresh p -> 1 <= raw_queue_items limits -> p_closed p = false -> d <> 0 ->
  acquire_capture_operation (p_gate p) = (gate', Ok permit) -> permit_generation permit = g -> too_large p frames ->
  exists p', alone (submit_raw limits owner owner rid frames g (Some d)) p = Some (p', Raise (PipelineProtocolError (Some rid))) /\
    gate_inv (p_gate p') /\
    (forall s, p_ledgers p' s = if bool_decide (s = RAW) then <[g := 1]> ∅ else ∅) /\
    p_net p' = p_net p /\ (forall s, a_current (p_actors p' s) = a_current (p_actors p s)) /\ p_coalesced p' = p_coalesced p.
Proof.
  intros [Hgi Hl _ _ _] Hraw Hcl Hd Hac Hg Hlarge. pose proof (wp_elim _ _ _ (acquire_effect KCapture 0 (p_gate p))) as He.
  cbn [acquire] in He. rewrite Hac in He. destruct He as (gen&_&Ha). cbn [fst snd] in Ha.
  assert (Hgi' : gate_inv gate') by (by eapply acquired_gate_inv).
  assert (Hca : permit_cancelled permit gate' = false) by (destruct Ha as (->&_&_&?&_); done).
  assert (Hfl : 1 <= in_flight_of gate' (permit_generation permit)).
  { rewrite (acquired_flight _ _ _ _ _ Ha), bool_decide_true by done. pose proof (in_flight_of_nonneg _ _ (permit_generation permit) (gi_flight _ Hgi)). lia. }
  pose proof (release_gate_inv _ _ Hgi' Hfl) as Hgi2. pose proof (proj1 (wp_elim _ _ _ (release_worker_effect (permit_generation permit) _ Hgi'))) as Hrel.
  set (i := {| it_record_id := rid; it_generation := g; it_configuration_revision := permit_revision permit; it_deadline := d; it_frames := frames |}).
  destruct (submit_too_large (set_gate gate' p) i permit) as (ev&pm&ce&Hsub); [done..|by cbn; rewrite Hl|done|done|].
  destruct (release_operation (permit_generation permit) gate') as [gate2 r2] eqn:Er. cbn in Hrel, Hgi2. subst r2. rewrite Hg in Er.
  eexists. split.
  - unfold submit_raw, assert_owner, require. rewrite alone_bind, alone_act, Z.eqb_refl.
    rewrite (proj2 (Z.eqb_neq d 0) Hd), alone_bind. cbn [alone mret thread_ret]. rewrite alone_attempt. unfold gate_run_capture.
    rewrite alone_bind, alone_act. unfold on_gate at 1, zoom at 1. rewrite Hac, alone_finally, Hg, Z.eqb_refl. cbn [negb]. fold i. rewrite Hsub.
    rewrite alone_act. unfold on_gate, zoom. cbn [p_gate set_ledgers set_registry set_gate].
    rewrite Er, alone_bind, alone_act. reflexivity.
  - split_and!; try done. intros s. cbn. unfold set_at. by case_bool_decide.
Qed.

(** C13 (oversized_frame_blocks_drain): submitting a frame larger than the
    payload limit to an idle pipeline raises a protocol error, queues nothing
    and keeps the credit it had acquired: from then on, whatever the threads
    do, the credit is never given back, the generation is never found
    drained, and with the default of one raw item no frame is ever accepted
    again. *)
Theorem oversized_frame_blocks_drain p permit gate' rid frames g d :
  fresh p -> 1 <= raw_queue_items limits -> 0 <= stage_queue_items limits -> p_closed p = false -> d <> 0 ->
  acquire_capture_operation (p_gate p) = (gate', Ok permit) -> permit_generation permit = g -> too_large p frames ->
  exists p', alone (submit_raw limits owner owner rid frames g (Some d)) p = Some (p', Raise (PipelineProtocolError (Some rid))) /\
    (forall s, queued (p_net p') s = []) /\
    forall c, runs (p', idle_pool) c ->
      1 <= credit_of (p_ledgers c.1 RAW) g /\ c.2 Coordinator <> Done (Ok (Some g)) /\
      (raw_queue_items limits = 1 -> forall g', (acquire_credit limits RAW g' c.1).2 = Ok false).
Proof.
  intros Hf Hraw Hstage Hcl Hd Hac Hg Hlarge. destruct (submit_raw_too_large p permit gate' rid frames g d) as (p'&Hrun&Hg'&Hl&Hn&Hcu&Hco); try done.
  exists p'. split; [exact Hrun|]. split; [intros s; rewrite Hn; apply Hf|]. intros c Hr.
  set (lost (s : PipelineStage) g' := if bool_decide (s = RAW /\ g' = g) then 1 else 0).
  assert (Hlost : forall s g', 0 <= lost s g') by (intros; unfold lost; by case_bool_decide).
  assert (pipeline_inv lost (fun _ => resting) (p', idle_pool)) as Hi.
  { apply idle_inv; [done| |intros s; rewrite Hn; apply Hf|intros s; rewrite Hcu; apply Hf|rewrite Hco; apply Hf|].
    - intros s. rewrite Hl. destruct (decide (s = RAW)) as [->|Hs].
      + rewrite bool_decide_true by done. destruct (acquire_ok (capacity limits RAW) g ∅) as (_&_&Hok&_); [apply empty_ledger_ok; cbn; lia|].
        by rewrite acquire_fresh in Hok.
      + rewrite bool_decide_false by done. apply empty_ledger_ok. destruct s; cbn; lia.
    - intros s g'. rewrite Hl. split; [apply Hlost|]. unfold lost. destruct (decide (s = RAW)) as [->|Hs]; [|rewrite bool_decide_false by naive_solver; by case_bool_decide].
      rewrite (bool_decide_true (RAW = RAW)), credit_insert by done. repeat case_bool_decide; naive_solver. }
  destruct (pipeline_inv_runs _ _ _ _ Hlost Hr Hi) as (rs&_&Hi'). pose proof (proj1 Hi') as Hinv.
  assert (1 <= credit_of (p_ledgers c.1 RAW) g) as Hone.
  { pose proof (pi_cover _ _ _ _ Hinv RAW g). pose proof (held_total rs Coordinator RAW g). pose proof (messages_nonneg (queued (p_net c.1) RAW) g).
    assert (lost RAW g = 1) by (unfold lost; by rewrite bool_decide_true). lia. }
  split_and!; [done| |].
  - intros Hc. pose proof (proj2 Hi' Coordinator) as Hd'. rewrite Hc in Hd'. destruct Hd' as [_ Hlev]. specialize (Hlev eq_refl g eq_refl).
    destruct (pi_clear _ _ _ _ Hinv g RAW) as [_ Hz]; [cbn; lia|]. unfold lost in Hz. by rewrite bool_decide_true in Hz.
  - intros H1' g'. unfold acquire_credit. rewrite on_ledger_run. unfold try_acquire. cbn. pose proof (credit_in_use _ _ g (pi_ledgers _ _ _ _ Hinv RAW)).
    by rewrite (proj2 (Z.leb_le _ _)) by lia.
Qed.
End Properties.

(** ** A pipeline that runs *)

Record sample_world := { sw_stored : list (item pybytes); sw_faults : list PipelineFaultEvent }.
Definition sample_net : Type := PipelineStage -> list (list pybytes).

#[local] Instance sample_sockets : Sockets sample_net := {|
  send_multipart s m := fun k => (set_at s (k s ++ [m]) k, Ok tt);
  recv_multipart s _ := fun k => match k s with [] => (k, Raise ZmqAgain) | m :: q => (set_at s q k, Ok m) end |}.
#[local] Instance sample_socket_laws : SocketLaws sample_net.
Proof.
  refine {| queued (k : sample_net) s := k s |}.
  - intros s m k. split. cbn. rewrite set_at_same. split; [done|]. intros s' Hs. by rewrite set_at_other.
  - intros s b k. split. cbn. destruct (k s) eqn:E; cbn; [done|]. rewrite set_at_same. split; [done|]. intros s' Hs. by rewrite set_at_other.
Defined.
#[local] Instance sample_ports : StagePorts sample_world := {|
  stage_processor s := match next_stage s with Some s' => Some (fun i _ => mret (s', i)) | None => None end;
  encrypted_sink := Some (fun i _ => modify (fun w => {| sw_stored := i :: sw_stored w; sw_faults := sw_faults w |}));
  fault_emit f := modify (fun w => {| sw_stored := sw_stored w; sw_faults := f :: sw_faults w |});
  monotonic_ns := mret 0 |}.
#[local] Existing Instance sample_header_model.

(** A gate recording its first generation *)
Definition recording_gate : gate :=
  (run_owner 7 (OpMarkRecording 1 USER_START) (run_owner 7 (OpBeginStart USER_START (u "rev")) (set_owner (Some 7) init_gate)).1).1.
Definition idle_actor : stage_actor :=
  {| a_current := None; a_poll := true; a_drain := false; a_polling := true; a_faulted := false; a_processing := false;
     a_received := 0; a_completed := 0; a_dropped := 0; a_faults := 0 |}.
Definition sample_pipe : pipe sample_net sample_world :=
  {| p_gate := recording_gate; p_commit_held := false; p_ledgers _ := ∅; p_actors _ := idle_actor; p_net _ := [];
     p_world := {| sw_stored := []; sw_faults := [] |}; p_events := ∅; p_permits := ∅; p_cells := []; p_heap := [[1; 2; 3]];
     p_coalesced := None; p_coalesced_held := false; p_closed := false |}.

Lemma sample_fresh : fresh sample_pipe.
Proof.
  split; try done. assert (Hc : forall op g, gate_inv g -> owner_call op g -> gate_inv (run_owner 7 op g).1).
  { intros op g Hg Ho. by destruct (wp_elim _ _ _ (run_owner_effect 7 op g Hg Ho)). }
  apply Hc; [apply Hc; [|done]|done]. apply (si_gate _ (init_sys_inv 7)).
Qed.

(** A frame goes through the four stages; its generation is then retired. *)
Definition sample_calls : list (role * thread (pipe sample_net sample_world) (option Z)) :=
  [(Submitter, ignore (submit_raw default_limits 9 9 77 [0%nat] 1 None))] ++
  ((fun s => (Actor s, ignore (on_poll default_limits s))) <$> all_stages) ++
  [(Coordinator, ignore (owner_transition 7 (OpBeginStopping USER_STOP)))].
Definition sample_drain := drain_generation (K := sample_net) (W := sample_world) 1 (fun _ => Some 0%nat).

Lemma sample_calls_ok : Forall (fun c => pipeline_call default_limits 9 c.1 c.2) sample_calls.
Proof. repeat apply Forall_cons_2; try apply Forall_nil_2; cbn [fst snd]; constructor; by vm_compute. Qed.

Example sample_stores : (sw_stored ∘ p_world <$> in_turn sample_calls sample_pipe) =
  Some [{| it_record_id := 77; it_generation := 1; it_configuration_revision := u "rev"; it_deadline := 30000000000; it_frames := [[1; 2; 3]] |}].
Proof. vm_compute. reflexivity. Qed.

Lemma sample_runs : exists c, runs default_limits 9 (sample_pipe, idle_pool) c /\ in_turn sample_calls sample_pipe = Some c.1 /\ all_done c.2.
Proof.
  assert (match in_turn sample_calls sample_pipe with Some _ => true | None => false end = true) as Hsome by (vm_compute; reflexivity).
  destruct (in_turn sample_calls sample_pipe) as [s'|] eqn:E; [clear Hsome|done].
  destruct (in_turn_runs (pipeline_call default_limits 9) _ _ _ idle_pool sample_calls_ok E) as (ls&p'&Hs&Hd); [by eexists|].
  exists (s', p'). split; [exists ls; exact Hs|]. split; [reflexivity|exact Hd].
Qed.

Lemma sample_drained : exists c, runs default_limits 9 (sample_pipe, idle_pool) c /\ c.2 Coordinator = Done (Ok (Some 1)).
Proof.
  destruct sample_runs as ([s p]&[ls Hr]&Hs&Hd). cbn [fst snd] in *.
  assert (match in_turn sample_calls sample_pipe with
          | Some s => match alone sample_drain s with Some (_, r) => r | None => Ok None end | None => Ok None end = Ok (Some 1)) as E
    by (vm_compute; reflexivity).
  rewrite Hs in E. destruct (alone sample_drain s) as [[s' r]|] eqn:Ha; [subst r|discriminate E].
  destruct (call_runs (pipeline_call default_limits 9) Coordinator sample_drain s s' (Ok (Some 1)) p) as (ls'&p'&Hr'&Hc&_); [constructor|done|done|].
  exists (s', p'). split; [exists (ls ++ ls'); by eapply steps_app|done].
Qed.

Lemma drained_stays_drained_witness :
  exists c, runs default_limits 9 (sample_pipe, idle_pool) c /\ c.2 Coordinator = Done (Ok (Some 1)) /\
    Forall (fun m => generation_of m <> Some 1) (at_stage RAW c.1).
Proof.
  destruct sample_drained as (c&Hr&Hc). exists c. split; [done|]. split; [done|]. apply Forall_forall.
  apply (drained_stays_drained default_limits 9 sample_pipe c 1 c RAW); [apply sample_fresh|done|done|done|done|].
  exists []. constructor.
Defined.

(** One frame submitted and not yet handled *)
Definition sample_submitted : pipe sample_net sample_world := default sample_pipe (in_turn (take 1 sample_calls) sample_pipe).

Lemma sample_submitted_turn : in_turn (take 1 sample_calls) sample_pipe = Some sample_submitted.
Proof.
  assert (match in_turn (take 1 sample_calls) sample_pipe with Some _ => true | None => false end = true) as Hsome by (vm_compute; reflexivity).
  unfold sample_submitted. destruct (in_turn (take 1 sample_calls) sample_pipe); [reflexivity|discriminate Hsome].
Qed.

Lemma sample_submitted_runs : exists c, runs default_limits 9 (sample_pipe, idle_pool) c /\ c.1 = sample_submitted.
Proof.
  destruct (in_turn_runs (pipeline_call default_limits 9) _ _ _ idle_pool (Forall_take _ 1 _ sample_calls_ok) sample_submitted_turn)
    as (ls&p'&Hs&_); [by eexists|]. exists (sample_submitted, p'). split; [exists ls; exact Hs|reflexivity].
Qed.

Lemma sample_submitted_one : zlen (at_stage RAW sample_submitted) = 1.
Proof. vm_compute. reflexivity. Qed.

Lemma pipeline_stays_within_credits_witness :
  exists c, runs default_limits 9 (sample_pipe, idle_pool) c /\ zlen (at_stage RAW c.1) = 1 /\
    zlen (at_stage RAW c.1) <= in_use_locked (p_ledgers c.1 RAW) <= capacity default_limits RAW.
Proof.
  destruct sample_submitted_runs as (c&Hr&Hc). exists c. split; [exact Hr|]. split; [rewrite Hc; exact sample_submitted_one|].
  refine (pipeline_stays_within_credits default_limits 9 sample_pipe c RAW sample_fresh _ _ Hr); cbn; lia.
Defined.

(** Limits with room for two bytes *)
Definition tight_limits : PipelineLimits := {|
  raw_queue_items := 1; stage_queue_items := 32; overload_policy := DROP_NEWEST; max_header_bytes := 16 * 1024;
  max_frames := 8; max_payload_bytes := 2; receive_timeout_ms := 20; send_timeout_ms := 10 |}.
Definition sample_permit : CaptureWorkPermit := match (acquire_capture_operation recording_gate).2 with
  | Ok permit => permit | Raise _ => {| permit_generation := 0; permit_event := 0; permit_revision := [] |} end.

Lemma oversized_frame_blocks_drain_witness :
  exists p', alone (submit_raw tight_limits 9 9 77 [0%nat] 1 (Some 5)) sample_pipe = Some (p', Raise (PipelineProtocolError (Some 77))) /\
    (acquire_credit tight_limits RAW 2 p').2 = Ok false.
Proof.
  destruct (oversized_frame_blocks_drain tight_limits 9 sample_pipe sample_permit (acquire_capture_operation recording_gate).1 77 [0%nat] 1 5)
    as (p'&Hr&_&Hp); [apply sample_fresh|done|done|done|done|vm_compute; reflexivity|vm_compute; reflexivity|vm_compute; reflexivity|].
  exists p'. split; [exact Hr|]. apply (Hp (p', idle_pool)); [exists []; constructor|reflexivity].
Defined.
