(* ===== verification/Encryption.v ===== *)
(** * Encryption: records encrypted for storage.

    Models [crypto/envelope.py], [crypto/registry.py], [crypto/codec.py] and
    [crypto/processor.py], the encryption stage of the capture pipeline.  The
    AEAD and the random source of [crypto/bindings.py] are the class [Cipher];
    a key provider ([ports/keys.py]) is a value of [KeyProvider], of which
    [Keyring] is one.  The pydantic model of the stage's header is
    [EnvelopeHeaderModel].  Wiping key material after use is left out. *)

From S2P Require Import Prelude PyStr Utf8 Json PyLib Storage PyData Codec Sealed Gate Pipeline.

(** ** [ports/keys.py] and [domain/crypto.py] *)

Inductive KeyHealthStatus := KH_READY | KH_LOCKED | KH_UNAVAILABLE | KH_INVALID | KH_REVOKED.
#[export] Instance KeyHealthStatus_eq_dec : EqDecision KeyHealthStatus.
Proof. solve_decision. Defined.

Record KeyProvider (W : Type) := {
  provider_id : pystr;
  (** purpose, [create_if_missing] *)
  kp_health : KeyPurpose -> bool -> M W KeyHealthStatus;
  kp_active_key : KeyPurpose -> bool -> M W KeyHandle;
  (** handle, data key, associated data *)
  kp_wrap_data_key : KeyHandle -> pybytes -> pybytes -> M W pybytes;
  (** handle, wrapped data key, associated data *)
  kp_unwrap_data_key : KeyHandle -> pybytes -> pybytes -> M W pybytes }.
Arguments provider_id {W}. Arguments kp_health {W}. Arguments kp_active_key {W}.
Arguments kp_wrap_data_key {W}. Arguments kp_unwrap_data_key {W}.

(** [secrets.token_bytes]; message, associated data, nonce and key of the
    XChaCha20-Poly1305 bindings *)
Class Cipher (W : Type) := {
  token_bytes : Z -> M W pybytes;
  crypto_encrypt : pybytes -> pybytes -> pybytes -> pybytes -> result pybytes;
  crypto_decrypt : pybytes -> pybytes -> pybytes -> pybytes -> result pybytes }.

(** [SecretKeyMaterial.from_bytes] *)
Definition from_bytes (b : pybytes) : result pybytes := _ ← require_nonempty_bytes b; mret b.

(** ** [crypto/envelope.py] *)

Definition ENVELOPE_SCHEMA_VERSION : Z := 1.
Definition ENVELOPE_ALGORITHM : pystr := u "xchacha20-poly1305-ietf".

(** The dictionary of [_associated_data], its keys sorted *)
Definition aad_dict (record_id : uuid) (generation : Z) (configuration_revision : pystr) (schema_version : Z) (algorithm : pystr)
    (frame_sizes : list Z) (created_at : datetime) : list (pystr * json) :=
  [(u "algorithm", JStr algorithm);
   (u "configuration_revision", JStr configuration_revision);
   (u "created_at", JStr (isoformat created_at));
   (u "frame_sizes", JList (JInt <$> frame_sizes));
   (u "generation", JInt generation);
   (u "record_id", JStr (uuid_text record_id));
   (u "schema_version", JInt schema_version)].
Definition associated_data (record_id : uuid) (generation : Z) (configuration_revision : pystr) (schema_version : Z)
    (algorithm : pystr) (frame_sizes : list Z) (created_at : datetime) : result pybytes :=
  text ← dumps (JDict (aad_dict record_id generation configuration_revision schema_version algorithm frame_sizes created_at));
  utf8_encode text.
Definition associated_data_from_envelope (e : EncryptedRecordEnvelope) : result pybytes :=
  associated_data (env_record_id e) (env_generation e) (env_configuration_revision e) (env_schema_version e) (env_algorithm e)
    (env_plaintext_frame_sizes e) (env_created_at e).

Definition wrap_associated_data (aad_digest : pybytes) : pybytes := u "local-recall-key-wrap-v1" ++ 0 :: aad_digest.

Fixpoint cut_frames (plaintext : pybytes) (frame_sizes : list Z) : list pybytes :=
  match frame_sizes with
  | [] => []
  | size :: sizes => take (Z.to_nat size) plaintext :: cut_frames (drop (Z.to_nat size) plaintext) sizes
  end.
Definition split_frames (plaintext : pybytes) (frame_sizes : list Z) : result (list pybytes) :=
  _ ← throw_if (negb (sum_by (fun n => n) frame_sizes =? zlen plaintext)) ValueError;
  mret (cut_frames plaintext frame_sizes).

Section Envelope.
Context {W : Type} `{Cipher W}.
(** [hashlib.sha256(b).digest()] *)
Variable sha256 : pybytes -> pybytes.

Definition encrypt_payload (plaintext aad aad_digest : pybytes) (provider : KeyProvider W)
    : M W (KeyHandle * pybytes * pybytes * pybytes) :=
  key_handle ← kp_active_key provider KP_RECORD true;
  data_key ← token_bytes KEY_BYTES;
  wrapped_data_key ← kp_wrap_data_key provider key_handle data_key (wrap_associated_data aad_digest);
  nonce ← token_bytes NONCE_BYTES;
  ciphertext ← lift (crypto_encrypt plaintext aad nonce data_key);
  mret (key_handle, wrapped_data_key, nonce, ciphertext).

(** [except KeyProviderFailure as exc: raise EncryptionFailure(...)] *)
Definition as_encryption_failure {A} (record_id : uuid) (code : EncryptionFailureCode) (m : M W A) : M W A :=
  try_except m (fun e => match e with KeyProviderFailure _ => raise (EncryptionFailure record_id code) | e => raise e end).

Definition encrypt_frames (record_id : uuid) (generation : Z) (configuration_revision : pystr) (frames : list pybytes)
    (provider : KeyProvider W) (created_at : datetime) : M W EncryptedRecordEnvelope :=
  let frame_sizes := zlen <$> frames in
  _ ← require (negb (bool_decide (frame_sizes = []) || existsb (fun size => size <=? 0) frame_sizes))
        (EncryptionFailure record_id CODEC_FAILURE);
  aad ← lift (associated_data record_id generation configuration_revision ENVELOPE_SCHEMA_VERSION ENVELOPE_ALGORITHM frame_sizes created_at);
  let aad_digest := sha256 aad in
  sealed ← as_encryption_failure record_id KEY_UNAVAILABLE (encrypt_payload (mjoin frames) aad aad_digest provider);
  let '(key_handle, wrapped_data_key, nonce, ciphertext) := sealed in
  lift (make_envelope
    {| env_record_id := record_id; env_generation := generation; env_configuration_revision := configuration_revision;
       env_schema_version := ENVELOPE_SCHEMA_VERSION; env_algorithm := ENVELOPE_ALGORITHM; env_key := key_handle;
       env_plaintext_frame_sizes := frame_sizes; env_wrapped_data_key := wrapped_data_key; env_nonce := nonce;
       env_ciphertext := ciphertext; env_associated_data_digest := aad_digest; env_created_at := created_at |}).

Definition validated_associated_data_digest (e : EncryptedRecordEnvelope) : result pybytes :=
  let failure := EncryptionFailure (env_record_id e) AUTHENTICATION_FAILED in
  _ ← throw_if (negb (env_schema_version e =? ENVELOPE_SCHEMA_VERSION) ||
                negb (bool_decide (env_algorithm e = ENVELOPE_ALGORITHM))) failure;
  aad ← associated_data_from_envelope e;
  _ ← throw_if (negb (bool_decide (sha256 aad = env_associated_data_digest e))) failure;
  mret (sha256 aad).

Definition decrypt_frames (e : EncryptedRecordEnvelope) (provider : KeyProvider W) : M W (list pybytes) :=
  let failure := EncryptionFailure (env_record_id e) AUTHENTICATION_FAILED in
  aad_digest ← lift (validated_associated_data_digest e);
  aad ← lift (associated_data_from_envelope e);
  plaintext ← try_except
    (data_key ← kp_unwrap_data_key provider (env_key e) (env_wrapped_data_key e) (wrap_associated_data aad_digest);
     lift (crypto_decrypt (env_ciphertext e) aad (env_nonce e) data_key))
    (fun ex => if bool_decide (ex = CryptoError) then raise failure
               else match ex with KeyProviderFailure _ => raise failure | ex => raise ex end);
  match split_frames plaintext (env_plaintext_frame_sizes e) with
  | Ok frames => mret frames
  | Raise _ => raise failure
  end.

Definition with_key (key : KeyHandle) (wrapped : pybytes) (e : EncryptedRecordEnvelope) : EncryptedRecordEnvelope :=
  {| env_record_id := env_record_id e; env_generation := env_generation e;
     env_configuration_revision := env_configuration_revision e; env_schema_version := env_schema_version e;
     env_algorithm := env_algorithm e; env_key := key; env_plaintext_frame_sizes := env_plaintext_frame_sizes e;
     env_wrapped_data_key := wrapped; env_nonce := env_nonce e; env_ciphertext := env_ciphertext e;
     env_associated_data_digest := env_associated_data_digest e; env_created_at := env_created_at e |}.

(** [replace] runs the constructor's checks. *)
Definition rewrap_data_key (e : EncryptedRecordEnvelope) (current_provider replacement_provider : KeyProvider W)
    : M W EncryptedRecordEnvelope :=
  aad_digest ← lift (match validated_associated_data_digest e with
                     | Raise (EncryptionFailure id _) => Raise (EncryptionFailure id REWRAP_FAILED)
                     | r => r
                     end);
  let wrap_aad := wrap_associated_data aad_digest in
  rewrapped ← as_encryption_failure (env_record_id e) REWRAP_FAILED
    (data_key ← kp_unwrap_data_key current_provider (env_key e) (env_wrapped_data_key e) wrap_aad;
     replacement_key ← kp_active_key replacement_provider KP_RECORD true;
     wrapped ← kp_wrap_data_key replacement_provider replacement_key data_key wrap_aad;
     mret (replacement_key, wrapped));
  lift (make_envelope (with_key rewrapped.1 rewrapped.2 e)).

(** ** [crypto/registry.py] *)

(** [KeyProviderRegistry]: the dictionary is the list of the providers, which
    have distinct ids. *)
Definition make_registry (providers : list (KeyProvider W)) : result (list (KeyProvider W)) :=
  _ ← throw_if (negb (bool_decide (NoDup (provider_id <$> providers)))) ValueError; mret providers.

Definition require_provider (registry : list (KeyProvider W)) (id : pystr) : result (KeyProvider W) :=
  match List.find (fun p => bool_decide (provider_id p = id)) registry with
  | Some p => Ok p
  | None => Raise (KeyProviderFailure KEY_PROVIDER_UNAVAILABLE)
  end.
Definition failure_code (status : KeyHealthStatus) : KeyProviderFailureCode :=
  match status with
  | KH_LOCKED => KEY_LOCKED | KH_INVALID => INVALID_KEY | KH_REVOKED => KEY_REVOKED | _ => KEY_PROVIDER_UNAVAILABLE
  end.

(** The provider, and whether it is the fallback *)
Definition select (registry : list (KeyProvider W)) (primary_provider_id : pystr) (purpose : KeyPurpose) (create_if_missing : bool)
    (explicit_fallback_provider_id : option pystr) : M W (KeyProvider W * bool) :=
  primary ← lift (require_provider registry primary_provider_id);
  primary_health ← kp_health primary purpose create_if_missing;
  if bool_decide (primary_health = KH_READY) then mret (primary, false)
  else
    match explicit_fallback_provider_id with
    | None => raise (KeyProviderFailure (failure_code primary_health))
    | Some fallback_id =>
        _ ← require (negb (bool_decide (fallback_id = primary_provider_id))) (KeyProviderFailure INVALID_KEY);
        fallback ← lift (require_provider registry fallback_id);
        fallback_health ← kp_health fallback purpose create_if_missing;
        _ ← require (bool_decide (fallback_health = KH_READY)) (KeyProviderFailure (failure_code fallback_health));
        mret (fallback, true)
    end.
End Envelope.

(** ** [crypto/codec.py] *)

Definition CODEC_VERSION : Z := 1.

Record EnvelopeHeader := {
  eh_codec_version : Z;
  eh_record_id : uuid;
  eh_generation : Z;
  eh_configuration_revision : pystr;
  eh_schema_version : Z;
  eh_algorithm : pystr;
  eh_key_id : pystr;
  eh_key_provider_id : pystr;
  eh_key_version : Z;
  eh_plaintext_frame_sizes : list Z;
  eh_binary_frame_sizes : list Z;
  eh_created_at : datetime }.

Definition envelope_header_ok (h : EnvelopeHeader) : bool :=
  (0 <? eh_generation h) && (0 <? eh_schema_version h) && (0 <? eh_key_version h) &&
  forallb (fun s => (1 <=? zlen s) && forallb is_scalar s)
    [eh_configuration_revision h; eh_algorithm h; eh_key_id h; eh_key_provider_id h].

(** [model_dump(mode="json")]; [json_datetime] is pydantic's text of a date. *)
Definition envelope_header_dict (json_datetime : datetime -> pystr) (h : EnvelopeHeader) : list (pystr * json) :=
  [(u "algorithm", JStr (eh_algorithm h));
   (u "binary_frame_sizes", JList (JInt <$> eh_binary_frame_sizes h));
   (u "codec_version", JInt (eh_codec_version h));
   (u "configuration_revision", JStr (eh_configuration_revision h));
   (u "created_at", JStr (json_datetime (eh_created_at h)));
   (u "generation", JInt (eh_generation h));
   (u "key_id", JStr (eh_key_id h));
   (u "key_provider_id", JStr (eh_key_provider_id h));
   (u "key_version", JInt (eh_key_version h));
   (u "plaintext_frame_sizes", JList (JInt <$> eh_plaintext_frame_sizes h));
   (u "record_id", JStr (uuid_text (eh_record_id h)));
   (u "schema_version", JInt (eh_schema_version h))].

(** [_EnvelopeHeader], as pydantic documents it: it reads back what it dumps. *)
Class EnvelopeHeaderModel := {
  json_datetime : datetime -> pystr;
  header_validate : json -> option EnvelopeHeader;
  json_datetime_scalar d : forallb is_scalar (json_datetime d) = true;
  header_validate_dump h : envelope_header_ok h = true -> 0 <= eh_record_id h < 2 ^ 128 ->
    length (eh_binary_frame_sizes h) = 4%nat -> valid_datetime (eh_created_at h) = true ->
    header_validate (JDict (envelope_header_dict json_datetime h)) = Some h }.

Definition binary_frames (e : EncryptedRecordEnvelope) : list pybytes :=
  [env_wrapped_data_key e; env_nonce e; env_ciphertext e; env_associated_data_digest e].
Definition header_of_envelope (e : EncryptedRecordEnvelope) : EnvelopeHeader :=
  {| eh_codec_version := CODEC_VERSION; eh_record_id := env_record_id e; eh_generation := env_generation e;
     eh_configuration_revision := env_configuration_revision e; eh_schema_version := env_schema_version e;
     eh_algorithm := env_algorithm e; eh_key_id := key_id (env_key e); eh_key_provider_id := key_provider_id (env_key e);
     eh_key_version := key_version (env_key e); eh_plaintext_frame_sizes := env_plaintext_frame_sizes e;
     eh_binary_frame_sizes := zlen <$> binary_frames e; eh_created_at := env_created_at e |}.

Definition validate_identity (source : item pybytes) (e : EncryptedRecordEnvelope) : result unit :=
  throw_if (negb (it_record_id source =? env_record_id e) || negb (it_generation source =? env_generation e) ||
            negb (bool_decide (it_configuration_revision source = env_configuration_revision e)))
    (EncryptionFailure (it_record_id source) CODEC_FAILURE).

Section StageCodec.
Context {EH : EnvelopeHeaderModel}.

Definition encode_encrypted_stage (source : item pybytes) (e : EncryptedRecordEnvelope) : result (item pybytes) :=
  _ ← validate_identity source e;
  _ ← throw_if (negb (envelope_header_ok (header_of_envelope e))) ValueError;
  text ← dumps (JDict (envelope_header_dict json_datetime (header_of_envelope e)));
  header_bytes ← utf8_encode text;
  mret (with_frames (header_bytes :: binary_frames e) source).

Definition envelope_of (h : EnvelopeHeader) (frames : list pybytes) : result EncryptedRecordEnvelope :=
  match frames with
  | [wrapped_data_key; nonce; ciphertext; associated_data_digest] =>
      generation ← CaptureGeneration (eh_generation h);
      key ← make_key_handle {| key_id := eh_key_id h; key_provider_id := eh_key_provider_id h; key_version := eh_key_version h |};
      make_envelope
        {| env_record_id := eh_record_id h; env_generation := generation;
           env_configuration_revision := eh_configuration_revision h; env_schema_version := eh_schema_version h;
           env_algorithm := eh_algorithm h; env_key := key; env_plaintext_frame_sizes := eh_plaintext_frame_sizes h;
           env_wrapped_data_key := wrapped_data_key; env_nonce := nonce; env_ciphertext := ciphertext;
           env_associated_data_digest := associated_data_digest; env_created_at := eh_created_at h |}
  | _ => Raise ValueError
  end.

Definition decode_encrypted_stage (i : item pybytes) : result EncryptedRecordEnvelope :=
  let failure := EncryptionFailure (it_record_id i) CODEC_FAILURE in
  match it_frames i with
  | header_bytes :: frames =>
      _ ← throw_if (negb (length frames =? 4)%nat) failure;
      raw ← match (text ← utf8_decode header_bytes; loads header_decoder text) with
            | Raise e => Raise (if bool_decide (e = ValueError) then failure else e)
            | r => r
            end;
      header ← match header_validate raw with Some h => Ok h | None => Raise failure end;
      _ ← throw_if (negb (eh_codec_version header =? CODEC_VERSION)) failure;
      _ ← throw_if (negb (eh_record_id header =? it_record_id i) || negb (eh_generation header =? it_generation i) ||
                    negb (bool_decide (eh_configuration_revision header = it_configuration_revision i))) failure;
      _ ← throw_if (negb (bool_decide (zlen <$> frames = eh_binary_frame_sizes header))) failure;
      envelope_of header frames
  | [] => Raise failure
  end.

(** ** [crypto/processor.py] *)

Context {W : Type} `{Cipher W}.
Variable sha256 : pybytes -> pybytes.

(** [cancelled] and [now]: [cancellation.cancelled] and [clock.now()] *)
Definition encryption_process (registry : list (KeyProvider W)) (primary_provider_id : pystr) (fallback_id : option pystr)
    (cancelled : M W bool) (now : M W datetime) (i : item pybytes) : M W (item pybytes) :=
  c ← cancelled;
  _ ← require (negb c) (EncryptionFailure (it_record_id i) CANCELLED);
  selection ← as_encryption_failure (it_record_id i) KEY_UNAVAILABLE (select registry primary_provider_id KP_RECORD true fallback_id);
  created_at ← now;
  envelope ← encrypt_frames sha256 (it_record_id i) (it_generation i) (it_configuration_revision i) (it_frames i) selection.1 created_at;
  c ← cancelled;
  _ ← require (negb c) (EncryptionFailure (it_record_id i) CANCELLED);
  lift (encode_encrypted_stage i envelope).
End StageCodec.
