(* ===== verification/EncryptionFacts.v ===== *)
(** * EncryptionFacts: what encrypted records promise.

    An envelope opens to the frames sealed in it, wherever the provider knows
    its key; its metadata cannot be changed; rewrapping and the codec of the
    pipeline's encryption stage keep it. *)

From S2P Require Import Prelude PyStr Utf8 Json JsonFacts PyLib Storage PyData Codec CodecFacts Sealed SealedFacts Gate GateFacts Pipeline PipelineFacts Encryption.

(** ** What the program relies on *)

(** The cipher opens what it sealed; random bytes have the length asked for. *)
Class CipherLaws (W : Type) `{Cipher W} := {
  (** no call is going to fail *)
  world_ready : W -> Prop;
  token_law n : 0 < n -> steady world_ready (token_bytes n) (fun b => zlen b = n);
  crypt_law p aad n k c : crypto_encrypt p aad n k = Ok c -> c <> [] /\ crypto_decrypt c aad n k = Ok p;
  crypt_total p aad n k : zlen n = NONCE_BYTES -> zlen k = KEY_BYTES -> is_ok (crypto_encrypt p aad n k) = true }.

(** ** What is expected of a provider

    [holds w k s]: in the state [w] the provider keeps the secret [s] for the
    key [k]; [wraps s k aad m c]: [c] is the data key [m] wrapped under [s].
    Nothing is expected of handles the provider does not hold a key for.
    [live]: it also promises to answer where no call fails. *)

Section Custody.
Context {W : Type} `{CipherLaws W}.
Variables (live : Prop) (holds : W -> KeyHandle -> pybytes -> Prop).

(** No key is lost. *)
Definition stays (w w' : W) : Prop := forall k s, holds w k s -> holds w' k s.

(** A call that loses no key, and what holds when it answers *)
Definition custodial {A} (m : M W A) (Q : A -> W -> Prop) (w : W) : Prop :=
  wp m (fun r w' => stays w w' /\ (forall a, r = Ok a -> Q a w') /\
    (live -> world_ready w -> world_ready w' /\ is_ok r = true)) w.

(** It answers keys it holds, wraps data keys under them, and unwraps what it
    wrapped under a key it still holds. *)
Record keeps_keys (P : KeyProvider W) (wraps : pybytes -> KeyHandle -> pybytes -> pybytes -> pybytes -> Prop) : Prop := {
  kk_active purpose w : custodial (kp_active_key P purpose true) (fun k w' => handle_ok k = true /\ exists s, holds w' k s) w;
  kk_token n w : wp (token_bytes n) (fun _ w' => stays w w') w;
  kk_wrap k s m aad w : zlen m = KEY_BYTES -> holds w k s ->
    custodial (kp_wrap_data_key P k m aad) (fun c _ => wraps s k aad m c /\ c <> []) w;
  kk_unwrap k s m aad c w : holds w k s -> wraps s k aad m c ->
    wp (kp_unwrap_data_key P k c aad) (fun r w' => (forall m', r = Ok m' -> m' = m) /\
      (world_ready w -> world_ready w' /\ is_ok r = true)) w;
  kk_key k s m aad c : wraps s k aad m c -> zlen m = KEY_BYTES }.

Lemma stays_trans w1 w2 w3 : stays w1 w2 -> stays w2 w3 -> stays w1 w3.
Proof. unfold stays. eauto. Qed.

Lemma custodial_ret {A} (a : A) (Q : A -> W -> Prop) w : Q a w -> custodial (mret a) Q w.
Proof. intros Hq. apply wp_ret. split; [by intros k s|]. split; [by intros ? [= <-]|done]. Qed.

Lemma custodial_lift {A} (r : result A) (Q : A -> W -> Prop) w : (forall a, r = Ok a -> Q a w) -> is_ok r = true -> custodial (lift r) Q w.
Proof. intros Hq Hr. apply wp_lift. split; [by intros k s|]. by split. Qed.

Lemma custodial_bind {A B} (m : M W A) (k : A -> M W B) (P : A -> W -> Prop) (Q : B -> W -> Prop) w :
  custodial m P w -> (forall a w', stays w w' -> P a w' -> custodial (k a) Q w') -> custodial (mbind k m) Q w.
Proof.
  intros Hm Hk. apply wp_bind. eapply wp_mono; [exact Hm|]. intros [a|e] w1 (Hs&Hp&Hr).
  - eapply wp_mono; [by apply Hk; [|apply Hp]|]. intros r w2 (Hs2&Hq&Hr2). split; [by eapply stays_trans|].
    split; [done|]. intros Hl Hw. by apply Hr2, Hr.
  - split; [done|]. split; [done|]. intros Hl Hw. by destruct (Hr Hl Hw).
Qed.

Lemma custodial_mono {A} (m : M W A) (P Q : A -> W -> Prop) w :
  custodial m P w -> (forall a w', stays w w' -> P a w' -> Q a w') -> custodial m Q w.
Proof. intros Hm HPQ. eapply wp_mono; [exact Hm|]. intros r w' (Hs&Hp&Hr). split; [done|]. split; [intros a E; auto|done]. Qed.

(** Calls whose exceptions are turned into others *)
Lemma custodial_as_failure {A} id code (m : M W A) Q w : custodial m Q w -> custodial (as_encryption_failure id code m) Q w.
Proof.
  intros Hm. apply wp_try_except. eapply wp_mono; [exact Hm|]. intros [a|ex] w' (Hs&Hq&Hr); [done|].
  destruct ex; apply wp_raise; (split; [done|]; split; [done|]; intros Hl Hw; by destruct (Hr Hl Hw)).
Qed.

Lemma custodial_token P wraps n w : keeps_keys P wraps -> 0 < n -> custodial (token_bytes n) (fun b _ => zlen b = n) w.
Proof.
  intros HP Hn. eapply wp_mono; [exact (wp_conj _ _ _ _ (kk_token _ _ HP n w) (token_law n Hn w))|].
  intros r w' (Hs&Hq&Hr). auto.
Qed.
End Custody.

(** ** The associated data *)

Lemma aad_printable e : constructible e = true -> 0 <= env_record_id e ->
  printable (JDict (aad_dict (env_record_id e) (env_generation e) (env_configuration_revision e) (env_schema_version e) (env_algorithm e)
    (env_plaintext_frame_sizes e) (env_created_at e))) = true.
Proof.
  unfold constructible. cbn [forallb]. intros Hc Hr. btauto_hyps. unfold aad_dict. cbn [printable forallb fst snd].
  repeat match goal with H : forallb is_scalar _ = true |- _ => rewrite H; clear H end.
  rewrite (ascii_scalar _ (isoformat_ascii _)), (ascii_scalar _ (uuid_text_ascii _ Hr)).
  assert (forallb printable (JInt <$> env_plaintext_frame_sizes e) = true) as ->.
  { induction (env_plaintext_frame_sizes e); [done|by cbn]. }
  vm_compute. reflexivity.
Qed.

Lemma fmap_JInt_inj (l l' : list Z) : JInt <$> l = JInt <$> l' -> l = l'.
Proof. revert l'. induction l as [|x l IH]; intros [|x' l']; cbn; intros E; simplify_eq; [done|]. f_equal. by apply IH. Qed.

Lemma aad_dict_fields r g v sc al sz d r' g' v' sc' al' sz' d' :
  Ok (JDict (aad_dict r g v sc al sz d)) = Ok (JDict (aad_dict r' g' v' sc' al' sz' d')) ->
  al = al' /\ v = v' /\ isoformat d = isoformat d' /\ JInt <$> sz = JInt <$> sz' /\ g = g' /\ uuid_text r = uuid_text r' /\ sc = sc'.
Proof.
  intros E. assert (Hp : forall i, aad_dict r g v sc al sz d !! i = aad_dict r' g' v' sc' al' sz' d' !! i) by congruence.
  pose proof (Hp 0%nat). pose proof (Hp 1%nat). pose proof (Hp 2%nat). pose proof (Hp 3%nat). pose proof (Hp 4%nat).
  pose proof (Hp 5%nat). pose proof (Hp 6%nat). cbv [lookup list_lookup aad_dict] in *. split_and!; congruence.
Qed.

(** No two envelopes with different metadata have the same associated data. *)
Lemma associated_data_inj e e' aad : constructible e = true -> constructible e' = true ->
  0 <= env_record_id e < 2 ^ 128 -> 0 <= env_record_id e' < 2 ^ 128 ->
  associated_data_from_envelope e = Ok aad -> associated_data_from_envelope e' = Ok aad ->
  env_record_id e = env_record_id e' /\ env_generation e = env_generation e' /\
  env_configuration_revision e = env_configuration_revision e' /\ env_schema_version e = env_schema_version e' /\
  env_algorithm e = env_algorithm e' /\ env_plaintext_frame_sizes e = env_plaintext_frame_sizes e' /\
  env_created_at e = env_created_at e'.
Proof.
  intros Hc Hc' Hr Hr' Ha Ha'. unfold associated_data_from_envelope, associated_data in Ha, Ha'.
  apply result_bind_ok in Ha as (t&Ht&Hu). apply result_bind_ok in Ha' as (t'&Ht'&Hu').
  pose proof (utf8_encode_inj _ _ _ Hu Hu') as <-.
  pose proof (loads_dumps _ _ (aad_printable e Hc (proj1 Hr)) Ht) as E.
  rewrite (loads_dumps _ _ (aad_printable e' Hc' (proj1 Hr')) Ht') in E. apply aad_dict_fields in E as (E1&E2&E3&E4&E5&E6&E7).
  assert (Hid : env_record_id e = env_record_id e').
  { pose proof (uuid_round_trip (fun _ => Raise ValueError) _ Hr) as U. rewrite <- E6, uuid_round_trip in U by done. congruence. }
  assert (Hd : env_created_at e = env_created_at e').
  { unfold constructible in Hc, Hc'. btauto_hyps.
    match goal with H : valid_datetime (env_created_at e) = true, H' : valid_datetime (env_created_at e') = true |- _ =>
      pose proof (iso_round_trip (fun _ => Raise ValueError) _ H) as I; pose proof (iso_round_trip (fun _ => Raise ValueError) _ H') as I' end.
    rewrite <- E3 in I. congruence. }
  split_and!; try done. by apply fmap_JInt_inj.
Qed.

(** ** Frames *)

Lemma cut_join frames : cut_frames (mjoin frames) (zlen <$> frames) = frames.
Proof.
  induction frames as [|f frames IH]; [done|]. change (mjoin (f :: frames)) with (f ++ mjoin frames).
  cbn [fmap list_fmap cut_frames]. by rewrite zlen_nat, take_app_length, drop_app_length, IH.
Qed.
Lemma split_join frames : split_frames (mjoin frames) (zlen <$> frames) = Ok frames.
Proof. unfold split_frames. rewrite zlen_mjoin, Z.eqb_refl. cbn. by rewrite cut_join. Qed.

Section Records.
Context {W : Type} `{CipherLaws W}.
Variable sha256 : pybytes -> pybytes.
(** A SHA-256 digest is not empty. *)
Hypothesis sha256_nonempty : forall b, sha256 b <> [].
Local Abbreviation encrypt_frames := (encrypt_frames sha256).
Local Abbreviation decrypt_frames := (decrypt_frames sha256).

(** The envelope [e] holds [frames]: its ciphertext seals them, with its
    metadata, under a data key that is wrapped in it. *)
Record sealed_record (wraps : KeyHandle -> pybytes -> pybytes -> pybytes -> Prop) (frames : list pybytes) (e : EncryptedRecordEnvelope) : Prop := {
  sr_schema : env_schema_version e = ENVELOPE_SCHEMA_VERSION;
  sr_algorithm : env_algorithm e = ENVELOPE_ALGORITHM;
  sr_sizes : env_plaintext_frame_sizes e = zlen <$> frames;
  sr_sealed : exists aad m, associated_data_from_envelope e = Ok aad /\ env_associated_data_digest e = sha256 aad /\
    wraps (env_key e) (wrap_associated_data (sha256 aad)) m (env_wrapped_data_key e) /\
    crypto_encrypt (mjoin frames) aad (env_nonce e) m = Ok (env_ciphertext e) }.

Lemma sealed_digest wraps frames e aad : sealed_record wraps frames e -> associated_data_from_envelope e = Ok aad ->
  validated_associated_data_digest sha256 e = Ok (sha256 aad).
Proof.
  intros [Hs Ha _ (aad'&m&Haad&Hd&_)] Haad'. assert (aad' = aad) as -> by congruence. unfold validated_associated_data_digest. rewrite Hs, Ha, Z.eqb_refl, bool_decide_true by done.
  cbn [negb orb]. rewrite throw_if_false, result_bind_ret, Haad, result_bind_ret, Hd. by rewrite (bool_decide_true (sha256 aad = sha256 aad)).
Qed.

(** Opening a record, given what its unwrapping does *)
Lemma decrypt_at P wraps frames e w : sealed_record wraps frames e ->
  (forall m aad, wraps (env_key e) aad m (env_wrapped_data_key e) ->
     wp (kp_unwrap_data_key P (env_key e) (env_wrapped_data_key e) aad)
       (fun r w' => (forall m', r = Ok m' -> m' = m) /\ (world_ready w -> world_ready w' /\ is_ok r = true)) w) ->
  wp (decrypt_frames e P) (fun r w' => (forall fs, r = Ok fs -> fs = frames) /\ (world_ready w -> world_ready w' /\ is_ok r = true)) w.
Proof.
  intros Hs Hun. pose proof Hs as [_ _ Hsz (aad&m&Ha&Hd&Hw&Hc)]. unfold Encryption.decrypt_frames.
  apply wp_bind, wp_lift. rewrite (sealed_digest _ _ _ _ Hs Ha). apply wp_bind, wp_lift. rewrite Ha. apply wp_bind.
  eapply (wp_mono _ (fun r w' => (forall p, r = Ok p -> p = mjoin frames) /\ (world_ready w -> world_ready w' /\ is_ok r = true))).
  - apply wp_try_except, wp_bind. eapply wp_mono; [by apply Hun|]. intros [m'|ex] w' [Hm Hr].
    + apply wp_lift. rewrite (Hm m' eq_refl), (proj2 (crypt_law _ _ _ _ _ Hc)). split; [congruence|]. intros Hw'. by split; [apply Hr|].
    + assert (Hex : forall ex', wp (raise ex' : M W pybytes) (fun r w2 => (forall a, r = Ok a -> a = mjoin frames) /\ (world_ready w -> world_ready w2 /\ is_ok r = true)) w').
      { intros ex'. apply wp_raise. split; [done|]. intros Hw'. by destruct (Hr Hw'). }
      case_bool_decide; [apply Hex|]. destruct ex; apply Hex.
  - intros [p|ex] w' [Hp Hr]; [|split; [done|]; intros Hw'; by destruct (Hr Hw')].
    rewrite (Hp p eq_refl), Hsz, split_join. apply wp_ret. split; [congruence|]. intros Hw'. by split; [apply Hr|].
Qed.

(** Opening answers the frames or fails, and answers where no call fails. *)
Definition opens_to (P : KeyProvider W) (e : EncryptedRecordEnvelope) (frames : list pybytes) (w : W) : Prop :=
  (forall fs, (decrypt_frames e P w).2 = Ok fs -> fs = frames) /\
  (world_ready w -> (decrypt_frames e P w).2 = Ok frames).

Lemma decrypt_sealed live holds P wraps frames e s w : keeps_keys live holds P wraps -> sealed_record (wraps s) frames e ->
  holds w (env_key e) s -> opens_to P e frames w.
Proof.
  intros HP Hs Hh. assert (Hd : wp (decrypt_frames e P) (fun r w' => (forall fs, r = Ok fs -> fs = frames) /\
    (world_ready w -> world_ready w' /\ is_ok r = true)) w).
  { eapply decrypt_at; [done|]. intros m aad Hw. by eapply (kk_unwrap _ _ _ _ HP). }
  apply wp_elim in Hd as [Hf Hr]. split; [exact Hf|]. intros Hw. destruct (Hr Hw) as [_ Hok].
  destruct (decrypt_frames e P w).2 as [fs|x]; [|done]. by rewrite (Hf fs eq_refl).
Qed.

(** A payload that can be encrypted *)
Definition encryptable (record_id : uuid) (generation : Z) (revision : pystr) (frames : list pybytes) (created_at : datetime) : Prop :=
  0 <= record_id < 2 ^ 128 /\ 0 < generation < 2 ^ 64 /\ require_nonempty revision = Ok tt /\ forallb is_scalar revision = true /\
  frames <> [] /\ Forall (fun f => 0 < zlen f < 2 ^ 64) frames /\ valid_datetime created_at = true.

Lemma encryptable_sizes frames : frames <> [] -> Forall (fun f : pybytes => 0 < zlen f < 2 ^ 64) frames ->
  bool_decide (zlen <$> frames = []) || existsb (fun size => size <=? 0) (zlen <$> frames) = false.
Proof.
  intros Hn Hf. apply orb_false_iff. split; [apply bool_decide_eq_false; by destruct frames|].
  clear Hn. induction Hf as [|f frames Hf _ IH]; [done|]. cbn. rewrite IH. by rewrite (proj2 (Z.leb_gt _ _)) by lia.
Qed.

Lemma encryptable_aad record_id generation revision frames created_at : encryptable record_id generation revision frames created_at ->
  exists aad, associated_data record_id generation revision ENVELOPE_SCHEMA_VERSION ENVELOPE_ALGORITHM (zlen <$> frames) created_at = Ok aad.
Proof.
  intros (Hr&Hg&_&Hrev&_&Hf&_). unfold associated_data.
  destruct (dict_encodes (aad_dict record_id generation revision ENVELOPE_SCHEMA_VERSION ENVELOPE_ALGORITHM (zlen <$> frames) created_at))
    as (text&b&Ht&Hb); [| |rewrite Ht, result_bind_ret; by exists b].
  - unfold aad_dict. cbn [printable forallb fst snd]. rewrite Hrev, (ascii_scalar _ (isoformat_ascii _)), (ascii_scalar _ (uuid_text_ascii _ (proj1 Hr))).
    assert (forallb printable (JInt <$> (zlen <$> frames)) = true) as -> by (clear; by induction frames).
    vm_compute. reflexivity.
  - unfold aad_dict. cbn [small_ints forallb snd]. rewrite (proj2 (Z.leb_le 0 generation)), (proj2 (Z.ltb_lt generation _)) by lia.
    assert (forallb small_ints (JInt <$> (zlen <$> frames)) = true) as ->; [|done].
    clear -Hf. induction Hf as [|f frames Hf _ IH]; [done|]. cbn [fmap list_fmap forallb small_ints]. rewrite IH.
    by rewrite (proj2 (Z.leb_le _ _)), (proj2 (Z.ltb_lt _ _)) by lia.
Qed.

Lemma make_envelope_checks e : require_nonempty (env_configuration_revision e) = Ok tt -> 0 < env_schema_version e ->
  require_nonempty (env_algorithm e) = Ok tt ->
  bool_decide (env_plaintext_frame_sizes e = []) || existsb (fun n => n <=? 0) (env_plaintext_frame_sizes e) = false ->
  env_wrapped_data_key e <> [] -> env_nonce e <> [] -> env_ciphertext e <> [] -> env_associated_data_digest e <> [] ->
  make_envelope e = Ok e.
Proof.
  intros H1 H2 H3 H4 H5 H6 H7 H8. unfold make_envelope, require_nonempty_bytes.
  rewrite H1, result_bind_ret, (proj2 (Z.leb_gt _ _)), throw_if_false, result_bind_ret, H3, result_bind_ret, H4 by done.
  by rewrite !throw_if_false, result_bind_ret, !bool_decide_false by done.
Qed.

Lemma make_envelope_inv e e' : make_envelope e = Ok e' ->
  require_nonempty (env_configuration_revision e) = Ok tt /\ 0 < env_schema_version e /\ require_nonempty (env_algorithm e) = Ok tt /\
  bool_decide (env_plaintext_frame_sizes e = []) || existsb (fun n => n <=? 0) (env_plaintext_frame_sizes e) = false /\
  env_wrapped_data_key e <> [] /\ env_nonce e <> [] /\ env_ciphertext e <> [] /\ env_associated_data_digest e <> [].
Proof.
  unfold make_envelope, require_nonempty_bytes. intros He. ok_steps. repeat match goal with x : unit |- _ => destruct x end.
  repeat match goal with H : throw_if _ _ = Ok _ |- _ => apply throw_if_ok in H end.
  repeat match goal with H : bool_decide (_ = []) = false |- _ => apply bool_decide_eq_false in H end.
  split_and!; try done. by apply Z.leb_gt.
Qed.

Lemma zlen_nonempty (b : pybytes) n : zlen b = n -> 0 < n -> b <> [].
Proof. intros <- Hn ->. done. Qed.

(** Encrypting makes a record that holds the frames, under a key the provider
    holds, and answers where it promises to. *)
Lemma encrypt_seals live holds P wraps record_id generation revision frames created_at w :
  keeps_keys live holds P wraps -> encryptable record_id generation revision frames created_at ->
  custodial live holds (encrypt_frames record_id generation revision frames P created_at) (fun e w' =>
    (exists s, holds w' (env_key e) s /\ sealed_record (wraps s) frames e) /\ constructible e = true /\
    env_record_id e = record_id /\ env_generation e = generation /\
    env_configuration_revision e = revision /\ env_created_at e = created_at) w.
Proof.
  intros HP He. pose proof (encryptable_aad _ _ _ _ _ He) as [aad Haad]. destruct He as (Hr&Hg&Hrev&Hsc&Hn&Hf&Hd).
  unfold Encryption.encrypt_frames. rewrite (encryptable_sizes _ Hn Hf), Haad.
  eapply (custodial_bind _ _ _ _ (fun _ _ => True)); [by apply (custodial_ret _ _ tt)|]. intros _ w0 _ _.
  eapply (custodial_bind _ _ _ _ (fun a _ => a = aad)); [apply custodial_lift; [congruence|done]|]. intros _ w1 _ ->.
  eapply (custodial_bind _ _ _ _ (fun r w' => let '(k, c, n, ct) := r in handle_ok k = true /\ c <> [] /\ zlen n = NONCE_BYTES /\
    exists s m, holds w' k s /\ wraps s k (wrap_associated_data (sha256 aad)) m c /\ crypto_encrypt (mjoin frames) aad n m = Ok ct)).
  - apply custodial_as_failure. unfold encrypt_payload. eapply custodial_bind; [apply (kk_active _ _ _ _ HP)|].
    intros k w2 _ (Hk&s&Hh). eapply custodial_bind; [by apply (custodial_token _ _ P wraps KEY_BYTES)|]. intros m w3 Hs3 Hm.
    eapply custodial_bind; [by apply (kk_wrap _ _ _ _ HP k s); [|apply Hs3]|]. intros c w4 Hs4 [Hw Hc].
    eapply custodial_bind; [by apply (custodial_token _ _ P wraps NONCE_BYTES)|]. intros n w5 Hs5 Hnl.
    eapply (custodial_bind _ _ _ _ (fun ct _ => crypto_encrypt (mjoin frames) aad n m = Ok ct)); [by apply custodial_lift, crypt_total|].
    intros ct w6 Hs6 Hct. apply custodial_ret. split_and!; try done. exists s, m. split_and!; try done. by apply Hs6, Hs5, Hs4, Hs3.
  - intros [[[k c] n] ct] w2 _ (Hk&Hc&Hnl&s&m&Hh&Hw&Hct). pose proof (crypt_law _ _ _ _ _ Hct) as [Hctn _].
    assert (Hctb : forall b : pybytes, b = ct -> b <> []) by (by intros b ->).
    set (e := {| env_record_id := record_id |}). assert (make_envelope e = Ok e) as Hmk.
    { apply make_envelope_checks; try done; [by apply encryptable_sizes|by eapply zlen_nonempty|apply sha256_nonempty]. }
    apply custodial_lift; rewrite Hmk; [|done]. intros _ [= <-]. split_and!; try done.
    + exists s. split; [done|]. split; try done. exists aad, m. done.
    + unfold constructible. rewrite Hmk. unfold handle_ok in Hk. btauto_hyps.
      cbn [env_key env_generation env_created_at env_configuration_revision env_algorithm e forallb is_ok].
      repeat match goal with H : _ = true |- _ => rewrite H; clear H end.
      rewrite (proj2 (Z.leb_le _ _)) by lia. vm_compute. reflexivity.
Qed.

(** [envelope_round_trip]: what is encrypted under a provider that keeps its
    keys opens to exactly the frames, as long as the provider holds the key
    of the envelope, and it holds it when the encryption answers. *)
Theorem envelope_round_trip live holds P wraps record_id generation revision frames created_at w :
  keeps_keys live holds P wraps -> encryptable record_id generation revision frames created_at ->
  custodial live holds (encrypt_frames record_id generation revision frames P created_at) (fun e w' =>
    env_record_id e = record_id /\ env_plaintext_frame_sizes e = zlen <$> frames /\
    exists s, holds w' (env_key e) s /\ forall w2, holds w2 (env_key e) s -> opens_to P e frames w2) w.
Proof.
  intros HP He. eapply custodial_mono; [by apply encrypt_seals|]. intros e w' _ ((s&Hh&Hs)&_&Hid&_). split; [done|]. split; [apply Hs|].
  exists s. split; [done|]. intros w2 Hh2. by eapply decrypt_sealed.
Qed.

(** What is sealed under the data key, by associated data: forging another
    is infeasible. *)
Definition unforgeable : Prop := forall p p' aad aad' n k c,
  crypto_encrypt p aad n k = Ok c -> crypto_decrypt c aad' n k = Ok p' -> aad' = aad.

(** A data key wrapped with some associated data under a key that is held
    unwraps with no other. *)
Definition binds_wrapping (holds : W -> KeyHandle -> pybytes -> Prop) (P : KeyProvider W)
    (wraps : pybytes -> KeyHandle -> pybytes -> pybytes -> pybytes -> Prop) : Prop :=
  forall k s aad aad' m m' c w, holds w k s -> wraps s k aad m c -> (kp_unwrap_data_key P k c aad' w).2 = Ok m' -> aad' = aad.

(** C16 (altered_record_is_rejected): an envelope with the key, nonce, wrapped
    key and ciphertext of an encrypted record but other metadata (record,
    generation, revision, frame sizes, date, schema, algorithm or digest) never
    decrypts where the provider holds the key of the record: it fails as not
    authentic, or the provider or cipher raises. *)
Theorem altered_record_is_rejected live holds P wraps frames s e e' w w' fs :
  keeps_keys live holds P wraps -> unforgeable -> binds_wrapping holds P wraps ->
  holds w (env_key e) s -> sealed_record (wraps s) frames e -> constructible e = true -> constructible e' = true ->
  0 <= env_record_id e < 2 ^ 128 -> 0 <= env_record_id e' < 2 ^ 128 ->
  env_key e' = env_key e -> env_wrapped_data_key e' = env_wrapped_data_key e -> env_nonce e' = env_nonce e ->
  env_ciphertext e' = env_ciphertext e ->
  decrypt_frames e' P w = (w', Ok fs) -> e' = e /\ fs = frames.
Proof.
  intros HP Hun Hbind Hh Hs Hc Hc' Hr Hr' Hk Hw Hn Hct Hdec. pose proof Hs as [Hsc Hal Hsz (aad&m&Ha&Hd&Hwr&Henc)].
  assert (Hwp : wp (decrypt_frames e' P) (fun r _ => forall fs, r = Ok fs -> e' = e /\ fs = frames) w).
  2:{ apply wp_elim in Hwp. rewrite Hdec in Hwp. by apply Hwp. }
  unfold Encryption.decrypt_frames. apply wp_bind, wp_lift.
  destruct (validated_associated_data_digest sha256 e') as [d|ex] eqn:Ev; [|done]. unfold validated_associated_data_digest in Ev.
  apply result_bind_ok in Ev as (_&_&Ev). apply result_bind_ok in Ev as (aad'&Ha'&Ev). apply result_bind_ok in Ev as (x&Hdig&Ev).
  injection Ev as <-. apply throw_if_ok, negb_false_iff, bool_decide_eq_true in Hdig.
  rewrite Ha', Hk, Hw, Hn, Hct. apply wp_bind, wp_lift, wp_bind.
  apply (wp_mono _ (fun r _ => forall p, r = Ok p -> sha256 aad' = sha256 aad /\ aad' = aad /\ p = mjoin frames)).
  - apply wp_try_except, wp_bind.
    apply (wp_mono _ (fun r _ => forall m', r = Ok m' -> sha256 aad' = sha256 aad /\ m' = m)).
    + split. intros m' E. pose proof (Hbind _ _ _ _ _ _ _ _ Hh Hwr E) as Hwa. apply app_inv_head in Hwa. injection Hwa as Hwa. split; [done|].
      rewrite Hwa in E. pose proof (wp_elim _ _ _ (kk_unwrap _ _ _ _ HP _ _ _ _ _ w Hh Hwr)) as [Hu _]. by apply Hu.
    + intros [m'|ex] v Hm; [|by case_bool_decide; [apply wp_raise|destruct ex; apply wp_raise]].
      destruct (Hm m' eq_refl) as [Hdg ->]. apply wp_lift.
      destruct (crypto_decrypt (env_ciphertext e) aad' (env_nonce e) m) as [p|ex] eqn:Ed; [|by case_bool_decide; [apply wp_raise|destruct ex; apply wp_raise]].
      intros p' [= <-]. pose proof (Hun _ _ _ _ _ _ _ Henc Ed) as ->. split_and!; try done.
      rewrite (proj2 (crypt_law _ _ _ _ _ Henc)) in Ed. congruence.
  - intros [p|ex] v Hp; [|done]. destruct (Hp p eq_refl) as (Hdg&->&->).
    destruct (associated_data_inj e e' aad Hc Hc' Hr Hr' Ha Ha') as (E1&E2&E3&E4&E5&E6&E7).
    rewrite <- E6, Hsz, split_join. apply wp_ret. intros fs' [= <-]. split; [|done].
    destruct e, e'; cbn in *. congruence.
Qed.

(** ** Rewrapping *)

Lemma with_key_metadata k c e : associated_data_from_envelope (with_key k c e) = associated_data_from_envelope e.
Proof. done. Qed.

(** [rewrapping_keeps_records]: rewrapping the data key of an encrypted
    record under another provider changes the key and the wrapped data key
    only, the record opens to its frames as long as the other provider holds
    its new key, and it does where both promise to answer. *)
Theorem rewrapping_keeps_records live holds P wraps live' holds' P' wraps' frames s e w :
  keeps_keys live holds P wraps -> keeps_keys live' holds' P' wraps' ->
  holds w (env_key e) s -> sealed_record (wraps s) frames e -> constructible e = true ->
  wp (rewrap_data_key sha256 e P P') (fun r w' =>
    (forall e', r = Ok e' -> e' = with_key (env_key e') (env_wrapped_data_key e') e /\
       exists s', holds' w' (env_key e') s' /\ forall w2, holds' w2 (env_key e') s' -> opens_to P' e' frames w2) /\
    (live' -> world_ready w -> world_ready w' /\ is_ok r = true)) w.
Proof.
  intros HP HP' Hh Hs Hc. pose proof Hs as [Hsc Hal Hsz (aad&m&Ha&Hd&Hw&Henc)]. unfold rewrap_data_key.
  rewrite (sealed_digest _ _ _ _ Hs Ha). apply wp_bind, wp_lift, wp_bind.
  apply (wp_mono _ (fun r w' => (forall x, r = Ok x -> exists s', holds' w' x.1 s' /\
    wraps' s' x.1 (wrap_associated_data (sha256 aad)) m x.2) /\ (forall x, r = Ok x -> x.2 <> []) /\
    (live' -> world_ready w -> world_ready w' /\ is_ok r = true))).
  - apply wp_try_except, wp_bind. eapply wp_mono; [by eapply (kk_unwrap _ _ _ _ HP)|]. intros [m'|ex] w1 [Hm Hr].
    2:{ destruct ex; apply wp_raise; (split; [done|]; split; [done|]; intros _ Hw'; by destruct (Hr Hw')). }
    rewrite (Hm m' eq_refl).
    eapply wp_mono; [apply (custodial_bind live' holds' _ _ _ (fun x w' => (exists s', holds' w' x.1 s' /\
      wraps' s' x.1 (wrap_associated_data (sha256 aad)) m x.2) /\ x.2 <> []) _ (kk_active _ _ _ _ HP' KP_RECORD w1))|].
    + intros k w2 _ (_&s'&Hh'). eapply custodial_bind; [by apply (kk_wrap _ _ _ _ HP' k s'); [by eapply (kk_key _ _ _ _ HP)|]|].
      intros c w3 Hs3 [Hw' Hc']. apply custodial_ret. split; [|done]. exists s'. split; [by apply Hs3|done].
    + intros [x|ex] w2 (_&Hx&Hr2).
      * split; [intros y E; by apply Hx|]. split; [intros y E; by apply Hx|]. intros Hl Hw'. by apply Hr2, Hr.
      * destruct ex; apply wp_raise; (split; [done|]; split; [done|]; intros Hl Hw'; by destruct (Hr2 Hl (proj1 (Hr Hw')))).
  - intros [[k c]|ex] w1 (Hx&Hne&Hr); [|split; [done|]; intros Hl Hw'; by destruct (Hr Hl Hw')].
    destruct (Hx _ eq_refl) as (s'&Hh'&Hw'). specialize (Hne _ eq_refl). cbn [fst snd] in *.
    assert (make_envelope (with_key k c e) = Ok (with_key k c e)) as Hmk.
    { unfold constructible in Hc. btauto_hyps. match goal with H : is_ok (make_envelope e) = true |- _ => apply is_ok_true in H as [e0 He0] end.
      apply make_envelope_inv in He0 as (?&?&?&?&?&?&?&?). by apply make_envelope_checks. }
    apply wp_lift. rewrite Hmk. split; [|intros Hl Hw2; by split; [apply Hr|]]. intros _ [= <-].
    assert (sealed_record (wraps' s') frames (with_key k c e)) as Hs'.
    { split; try done. exists aad, m. done. }
    split; [done|]. exists s'. split; [done|]. intros w2 Hh2. by eapply decrypt_sealed.
Qed.
End Records.

(** ** The encryption stage *)

Section Stage.
Context {EH : EnvelopeHeaderModel}.

Lemma envelope_header_printable h : envelope_header_ok h = true -> 0 <= eh_record_id h ->
  printable (JDict (envelope_header_dict json_datetime h)) = true.
Proof.
  unfold envelope_header_ok. cbn [forallb]. intros Hh Hr. btauto_hyps. unfold envelope_header_dict. cbn [printable forallb fst snd].
  repeat match goal with H : forallb is_scalar _ = true |- _ => rewrite H; clear H end.
  rewrite json_datetime_scalar, (ascii_scalar _ (uuid_text_ascii _ Hr)).
  assert (forall l : list Z, forallb printable (JInt <$> l) = true) as Hl by (intros l; by induction l).
  rewrite !Hl. vm_compute. reflexivity.
Qed.

(** What leaves the stage decodes to the envelope. *)
Lemma stage_codec_round_trip source e out : encode_encrypted_stage source e = Ok out -> constructible e = true ->
  0 <= env_record_id e < 2 ^ 128 ->
  decode_encrypted_stage out = Ok e /\ it_record_id out = it_record_id source /\ it_generation out = it_generation source /\
  it_configuration_revision out = it_configuration_revision source.
Proof.
  unfold encode_encrypted_stage, validate_identity. intros He Hc Hr.
  apply result_bind_ok in He as (x1&Hid&He). apply result_bind_ok in He as (x2&Hok&He). apply result_bind_ok in He as (text&Ht&He).
  apply result_bind_ok in He as (b&Hb&He). injection He as <-. apply throw_if_ok, negb_false_iff in Hok. apply throw_if_ok in Hid.
  split; [|done]. unfold decode_encrypted_stage. cbn [it_frames with_frames it_record_id it_generation it_configuration_revision].
  change (length (binary_frames e) =? 4)%nat with true. cbn [negb]. rewrite throw_if_false, result_bind_ret.
  assert (loads header_decoder text = Ok (JDict (envelope_header_dict json_datetime (header_of_envelope e)))) as Hl.
  { apply loads_printed; [done|apply envelope_header_printable; [done|apply Hr]|done]. }
  rewrite (utf8_round_trip _ _ Hb), result_bind_ret, Hl, result_bind_ret.
  pose proof (constructible_checked e Hc) as [Hmk Hkey Hg _ _ _ Hd _].
  rewrite header_validate_dump, result_bind_ret by done.
  cbn [eh_codec_version eh_record_id eh_generation eh_configuration_revision eh_binary_frame_sizes header_of_envelope].
  rewrite Z.eqb_refl. cbn [negb]. rewrite throw_if_false, result_bind_ret.
  apply orb_false_iff in Hid as [Hid Hrev]. apply orb_false_iff in Hid as [Hid Hgen].
  apply negb_false_iff, Z.eqb_eq in Hid, Hgen. apply negb_false_iff, bool_decide_eq_true in Hrev.
  rewrite Hid, Hgen, Hrev, !Z.eqb_refl, !bool_decide_true by done. cbn [negb orb]. rewrite !throw_if_false, !result_bind_ret.
  unfold envelope_of, binary_frames. cbn [eh_generation eh_key_id eh_key_provider_id eh_key_version header_of_envelope
    eh_record_id eh_configuration_revision eh_schema_version eh_algorithm eh_plaintext_frame_sizes eh_created_at].
  rewrite generation_ok, result_bind_ret by done.
  assert (forall k, {| key_id := key_id k; key_provider_id := key_provider_id k; key_version := key_version k |} = k) as -> by (by intros []).
  rewrite Hkey, result_bind_ret. clear -Hmk. by destruct e.
Qed.

Context {W : Type} `{CipherLaws W}.
Variable sha256 : pybytes -> pybytes.
Hypothesis sha256_nonempty : forall b, sha256 b <> [].

Lemma select_registered (registry : list (KeyProvider W)) primary fallback w : 
  wp (select registry primary KP_RECORD true fallback) (fun r _ => forall s, r = Ok s ->
    s.1 ∈ registry /\ (provider_id s.1 = primary /\ s.2 = false \/ Some (provider_id s.1) = fallback /\ s.2 = true)) w.
Proof.
  assert (Hreq : forall id P, require_provider registry id = Ok P -> P ∈ registry /\ provider_id P = id).
  { unfold require_provider. intros id P E. destruct (List.find _ registry) as [P'|] eqn:Ef; [|done]. injection E as ->.
    apply List.find_some in Ef as [Hin Hid]. split; [by apply list_elem_of_In|by apply bool_decide_eq_true in Hid]. }
  assert (Hany : forall A (m : M W A) v, wp m (fun _ _ => True) v) by (intros; by split).
  unfold select. apply wp_bind, wp_lift. destruct (require_provider registry primary) as [P|ex] eqn:Ep; [|done].
  apply wp_bind. eapply wp_mono; [apply Hany|]. intros [h|ex] v _; [|done].
  case_bool_decide; [apply wp_ret; intros s [= <-]; destruct (Hreq _ _ Ep); auto|].
  destruct fallback as [id|]; [|by apply wp_raise]. apply wp_bind, wp_require; intros _; [|done].
  apply wp_bind, wp_lift. destruct (require_provider registry id) as [P'|ex] eqn:Ep'; [|done].
  apply wp_bind. eapply wp_mono; [apply Hany|]. intros [h'|ex] v' _; [|done].
  apply wp_bind, wp_require; intros _; [|done]. apply wp_ret. intros s [= <-]. destruct (Hreq _ _ Ep') as [? Hid]. cbn. rewrite Hid. auto.
Qed.

Lemma encryptable_item i d : 0 <= it_record_id i < 2 ^ 128 -> 0 < it_generation i < 2 ^ 64 ->
  require_nonempty (it_configuration_revision i) = Ok tt -> forallb is_scalar (it_configuration_revision i) = true ->
  Forall (fun f : pybytes => zlen f < 2 ^ 64) (it_frames i) -> valid_datetime d = true ->
  bool_decide (zlen <$> it_frames i = []) || existsb (fun size => size <=? 0) (zlen <$> it_frames i) = false ->
  encryptable (it_record_id i) (it_generation i) (it_configuration_revision i) (it_frames i) d.
Proof.
  intros Hr Hg Hrev Hsc Hf Hd Hz. apply orb_false_iff in Hz as [Hz1 Hz2]. apply bool_decide_eq_false in Hz1.
  split_and!; try done; try lia; [by intros E; rewrite E in Hz1|]. clear -Hf Hz2.
  induction Hf as [|f l Hl Hf IH]; [done|]. cbn in Hz2. apply orb_false_iff in Hz2 as [Hz Hz2]. constructor; [lia|by apply IH].
Qed.

(** C17 (stage_output_decrypts): whenever the encryption stage of the pipeline
    answers for an item, its answer passes the pipeline's check of outputs and
    decodes to an envelope of the same record and generation, under a key of a
    provider of the registry (the primary one, or the fallback that was
    named).  As long as that provider holds this key, as it does when the
    stage answers, decrypting the envelope answers the item's frames or fails,
    and answers them where no call fails.  Of the providers only
    [keeps_keys] is assumed, which [keyring_keeps_keys] proves of the OS
    keyring. *)
Theorem stage_output_decrypts registry live holds wraps primary fallback cancelled now i w w' out :
  (forall P, P ∈ registry -> keeps_keys live (holds (provider_id P)) P (wraps (provider_id P))) ->
  (forall id v, wp cancelled (fun _ v' => stays (holds id) v v') v) ->
  (forall v, wp now (fun r _ => forall d, r = Ok d -> valid_datetime d = true) v) ->
  0 <= it_record_id i < 2 ^ 128 -> 0 < it_generation i < 2 ^ 64 -> require_nonempty (it_configuration_revision i) = Ok tt ->
  forallb is_scalar (it_configuration_revision i) = true -> Forall (fun f => zlen f < 2 ^ 64) (it_frames i) ->
  encryption_process sha256 registry primary fallback cancelled now i w = (w', Ok out) ->
  validate_output REDACTED i (ENCRYPTED, out) = Ok tt /\
  exists e P s, decode_encrypted_stage out = Ok e /\ env_record_id e = it_record_id i /\ env_generation e = it_generation i /\
    P ∈ registry /\ (provider_id P = primary \/ Some (provider_id P) = fallback) /\
    holds (provider_id P) w' (env_key e) s /\
    forall w2, holds (provider_id P) w2 (env_key e) s -> opens_to sha256 P e (it_frames i) w2.
Proof.
  intros Hreg Hcan Hnow Hr Hg Hrev Hsc Hf Hrun.
  assert (Hany : forall A (m : M W A) v, wp m (fun _ _ => True) v) by (intros; by split).
  assert (Hwp : wp (encryption_process sha256 registry primary fallback cancelled now i) (fun r w' => forall out, r = Ok out ->
    exists e P s, P ∈ registry /\ (provider_id P = primary \/ Some (provider_id P) = fallback) /\
      holds (provider_id P) w' (env_key e) s /\ sealed_record sha256 (wraps (provider_id P) s) (it_frames i) e /\
      constructible e = true /\ env_record_id e = it_record_id i /\ env_generation e = it_generation i /\
      encode_encrypted_stage i e = Ok out) w).
  - unfold encryption_process. apply wp_bind. eapply wp_mono; [apply Hany|]. intros [c|ex] v1 _; [|done].
    apply wp_bind, wp_require; intros _; [|done]. apply wp_bind. unfold as_encryption_failure.
    apply (wp_mono _ (fun r _ => forall s, r = Ok s -> s.1 ∈ registry /\ (provider_id s.1 = primary \/ Some (provider_id s.1) = fallback))).
    { apply wp_try_except. eapply wp_mono; [apply select_registered|]. intros [s|ex] v Hs; [intros s' [= <-]; naive_solver|].
      destruct ex; by apply wp_raise. }
    intros [[P used]|ex] v2 Hs; [|done]. destruct (Hs _ eq_refl) as [Hin Hid]. cbn [fst] in *. apply wp_bind.
    eapply wp_mono; [apply Hnow|]. intros [d|ex] v3 Hd; [|done]. specialize (Hd d eq_refl). apply wp_bind.
    apply (wp_mono _ (fun r v => forall e, r = Ok e -> (exists s, holds (provider_id P) v (env_key e) s /\
      sealed_record sha256 (wraps (provider_id P) s) (it_frames i) e) /\ constructible e = true /\
      env_record_id e = it_record_id i /\ env_generation e = it_generation i)).
    { destruct (bool_decide (zlen <$> it_frames i = []) || existsb (fun size => size <=? 0) (zlen <$> it_frames i)) eqn:Hz.
      { unfold encrypt_frames. rewrite Hz. apply wp_bind, wp_require; intros Hb; done. }
      eapply wp_mono; [apply (encrypt_seals sha256 sha256_nonempty _ _ P _ _ _ _ _ _ _ (Hreg P Hin)); by apply encryptable_item|].
      intros r v (_&He&_) e Ee. by destruct (He e Ee) as (?&?&?&?&_). }
    intros [e|ex] v4 He; [|done]. destruct (He e eq_refl) as ((s&Hh&Hse)&Hc&Hide&Hgen). apply wp_bind.
    eapply wp_mono; [apply (Hcan (provider_id P))|]. intros [c'|ex] v5 Hst; [|done]. apply wp_bind, wp_require; intros _; [|done].
    apply wp_lift. intros o Eo. exists e, P, s. split_and!; try done. by apply Hst.
  - apply wp_elim in Hwp. rewrite Hrun in Hwp. destruct (Hwp out eq_refl) as (e&P&s&Hin&Hid&Hh&Hse&Hc&Hide&Hgen&Henc).
    destruct (stage_codec_round_trip i e out Henc Hc) as (Hdec&E1&E2&E3); [by rewrite Hide|]. split.
    + unfold validate_output. cbn [fst snd next_stage]. rewrite result_bind_ret, E1, E2, E3, !Z.eqb_refl, !bool_decide_true by done. done.
    + exists e, P, s. split_and!; try done. intros w2 Hh2. by eapply decrypt_sealed; [apply Hreg| |].
Qed.
End Stage.
