(* ===== verification/Keyring.v ===== *)
(** * Keyring: master keys in the desktop's keyring.

    Models [OSKeyringProvider] of [crypto/keyring.py] over the operations of a
    keyring backend; the service name is fixed.  [SecretKeyMaterial] is its
    bytes. *)

From S2P Require Import Prelude PyStr Json PyLib Storage PyData Codec Sealed Encryption.

(** [KeyringBackend]: user name, then password *)
Class KeyringBackend (W : Type) := {
  get_password : pystr -> M W (option pystr);
  set_password : pystr -> pystr -> M W unit;
  delete_password : pystr -> M W unit }.
Definition KeyringBackendLocked : exn := External 15.

(** ** Names *)

Definition purpose_value (p : KeyPurpose) : pystr :=
  match p with KP_RECORD => u "record" | KP_INDEX => u "index" | KP_SUMMARY => u "summary" | KP_BACKUP => u "backup" end.
Definition all_purposes : list KeyPurpose := [KP_RECORD; KP_INDEX; KP_SUMMARY; KP_BACKUP].
(** [KeyPurpose(text)] *)
Definition purpose_of_value (text : pystr) : result KeyPurpose :=
  match List.find (fun p => bool_decide (purpose_value p = text)) all_purposes with Some p => Ok p | None => Raise ValueError end.

Definition PROVIDER_ID : pystr := u "os-keyring".
Definition MASTER_SUFFIX : pystr := u "-master".

Definition active_username (purpose : pystr) : pystr := purpose ++ u ":active".
Definition material_username (h : KeyHandle) : pystr := removesuffix MASTER_SUFFIX (key_id h) ++ u ":v" ++ str_of_int (key_version h).

Definition purpose_from_handle (h : KeyHandle) : result pystr :=
  let invalid := KeyProviderFailure INVALID_KEY in
  _ ← throw_if (negb (ends_with MASTER_SUFFIX (key_id h))) invalid;
  match purpose_of_value (take (length (key_id h) - length MASTER_SUFFIX) (key_id h)) with
  | Ok p => mret (purpose_value p)
  | Raise _ => Raise invalid
  end.
Definition validate_handle (h : KeyHandle) : result unit :=
  _ ← throw_if (negb (bool_decide (key_provider_id h = PROVIDER_ID))) (KeyProviderFailure INVALID_KEY);
  _ ← purpose_from_handle h; mret tt.
Definition handle (purpose : pystr) (version : Z) : result KeyHandle :=
  let invalid := KeyProviderFailure INVALID_KEY in
  p ← match purpose_of_value purpose with Ok p => Ok p | Raise _ => Raise invalid end;
  _ ← throw_if (version <=? 0) invalid;
  make_key_handle {| key_id := purpose_value p ++ MASTER_SUFFIX; key_provider_id := PROVIDER_ID; key_version := version |}.

(** [int(text)]; texts that are not ASCII digits are the library's. *)
Definition python_int (int_other : pystr -> result Z) (text : pystr) : result Z :=
  if negb (bool_decide (text = [])) && forallb is_digit text then Ok (digits_value text) else int_other text.

(** ** Operations *)

Section Provider.
Context {W : Type} `{Cipher W} `{KeyringBackend W}.
Variable int_other : pystr -> result Z.

(** A call of the backend: [except KeyringBackendLocked], [except Exception] *)
Definition backend_call {A} (m : M W A) : M W A :=
  try_except m (fun e => if bool_decide (e = KeyringBackendLocked) then raise (KeyProviderFailure KEY_LOCKED)
                         else raise (KeyProviderFailure KEY_PROVIDER_UNAVAILABLE)).

Definition load_master (h : KeyHandle) : M W pybytes :=
  let invalid := KeyProviderFailure INVALID_KEY in
  _ ← lift (validate_handle h);
  encoded ← backend_call (get_password (material_username h));
  match encoded with
  | None => raise (KeyProviderFailure KEY_NOT_FOUND)
  | Some encoded =>
      match b64decode encoded with
      | Raise _ => raise invalid
      | Ok material => _ ← require (zlen material =? KEY_BYTES) invalid; lift (from_bytes material)
      end
  end.
Definition store_master (h : KeyHandle) (material : pybytes) : M W unit :=
  backend_call (set_password (material_username h) (b64 material)).
Definition set_active (purpose : pystr) (version : Z) : M W unit :=
  backend_call (set_password (active_username purpose) (str_of_int version)).

Definition create_initial (purpose : KeyPurpose) : M W KeyHandle :=
  h ← lift (handle (purpose_value purpose) 1);
  material ← token_bytes KEY_BYTES;
  _ ← store_master h material;
  _ ← set_active (purpose_value purpose) 1;
  mret h.

Definition keyring_active_key (purpose : KeyPurpose) (create_if_missing : bool) : M W KeyHandle :=
  active ← backend_call (get_password (active_username (purpose_value purpose)));
  match active with
  | None => if create_if_missing then create_initial purpose else raise (KeyProviderFailure KEY_NOT_FOUND)
  | Some active =>
      version ← lift (match python_int int_other active with
                      | Ok n => Ok n
                      | Raise e => Raise (if bool_decide (e = ValueError) then KeyProviderFailure INVALID_KEY else e)
                      end);
      h ← lift (handle (purpose_value purpose) version);
      _ ← load_master h;
      mret h
  end.

Definition status_of (code : KeyProviderFailureCode) : KeyHealthStatus :=
  match code with
  | KEY_LOCKED => KH_LOCKED | INVALID_KEY => KH_INVALID | KEY_REVOKED => KH_REVOKED | _ => KH_UNAVAILABLE
  end.
Definition keyring_health (purpose : KeyPurpose) (create_if_missing : bool) : M W KeyHealthStatus :=
  try_except (_ ← keyring_active_key purpose create_if_missing; mret KH_READY)
    (fun e => match e with KeyProviderFailure code => mret (status_of code) | e => raise e end).

Definition keyring_wrap_data_key (h : KeyHandle) (material associated_data : pybytes) : M W pybytes :=
  master ← load_master h;
  nonce ← token_bytes NONCE_BYTES;
  ciphertext ← lift (crypto_encrypt material associated_data nonce master);
  mret (nonce ++ ciphertext).

Definition keyring_unwrap_data_key (h : KeyHandle) (wrapped associated_data : pybytes) : M W pybytes :=
  let invalid := KeyProviderFailure INVALID_KEY in
  _ ← require (NONCE_BYTES <? zlen wrapped) invalid;
  let nonce := take (Z.to_nat NONCE_BYTES) wrapped in
  let ciphertext := drop (Z.to_nat NONCE_BYTES) wrapped in
  master ← load_master h;
  plaintext ← lift (match crypto_decrypt ciphertext associated_data nonce master with
                    | Ok p => Ok p
                    | Raise e => Raise (if bool_decide (e = CryptoError) then invalid else e)
                    end);
  lift (from_bytes plaintext).

Definition keyring_rotate (current : KeyHandle) : M W KeyHandle :=
  _ ← lift (validate_handle current);
  _ ← load_master current;
  let next_version := key_version current + 1 in
  purpose ← lift (purpose_from_handle current);
  h ← lift (handle purpose next_version);
  material ← token_bytes KEY_BYTES;
  _ ← store_master h material;
  _ ← set_active purpose next_version;
  mret h.

(** The handle of the key, and [destroyed=True] *)
Definition keyring_destroy (h : KeyHandle) : M W (KeyHandle * bool) :=
  _ ← lift (validate_handle h);
  purpose ← lift (purpose_from_handle h);
  _ ← backend_call
    (_ ← delete_password (material_username h);
     active ← get_password (active_username purpose);
     if bool_decide (active = Some (str_of_int (key_version h))) then delete_password (active_username purpose) else mret tt);
  mret (h, true).

Definition OSKeyringProvider : KeyProvider W := {|
  provider_id := PROVIDER_ID;
  kp_health := keyring_health;
  kp_active_key := keyring_active_key;
  kp_wrap_data_key := keyring_wrap_data_key;
  kp_unwrap_data_key := keyring_unwrap_data_key |}.
End Provider.
