(* ===== verification/KeyringFacts.v ===== *)
(** * KeyringFacts: rotating keys loses no record.

    A record encrypted under the keyring stays readable through every history
    of its operations that rotates active keys only, and destroys neither the
    record's key nor an active one. *)

From S2P Require Import Prelude PyStr Json JsonFacts PyLib Storage PyData Codec CodecFacts Sealed SealedFacts Encryption EncryptionFacts Keyring.

(** ** Names *)

Definition master_handle (p : KeyPurpose) (v : Z) : KeyHandle :=
  {| key_id := purpose_value p ++ MASTER_SUFFIX; key_provider_id := PROVIDER_ID; key_version := v |}.

Lemma purpose_of_value_spec text p : purpose_of_value text = Ok p <-> text = purpose_value p.
Proof.
  split; [|intros ->; by destruct p]. unfold purpose_of_value. destruct (List.find _ _) as [q|] eqn:E; [|done]. intros [= <-].
  apply List.find_some in E as [_ E]. by apply bool_decide_eq_true in E.
Qed.

Lemma handle_spec p v h : handle (purpose_value p) v = Ok h <-> h = master_handle p v /\ 0 < v.
Proof.
  unfold handle. rewrite (proj2 (purpose_of_value_spec _ p) eq_refl), result_bind_ret. split.
  - intros Hh. apply result_bind_ok in Hh as (x&Hx&Hh). apply throw_if_ok, Z.leb_gt in Hx.
    apply make_key_handle_ok in Hh as (->&_). done.
  - intros [-> Hv]. rewrite (proj2 (Z.leb_gt _ _) Hv), throw_if_false, result_bind_ret. unfold make_key_handle. cbn [key_version master_handle].
    rewrite (proj2 (Z.leb_gt _ _) Hv). by destruct p.
Qed.

Lemma master_purpose p v : purpose_from_handle (master_handle p v) = Ok (purpose_value p).
Proof. by destruct p. Qed.

Lemma valid_master h : validate_handle h = Ok tt -> exists p, h = master_handle p (key_version h).
Proof.
  unfold validate_handle. intros Hv. apply result_bind_ok in Hv as (x&Hp&Hv). apply result_bind_ok in Hv as (t&Ht&_).
  apply throw_if_ok, negb_false_iff, bool_decide_eq_true in Hp. unfold purpose_from_handle in Ht.
  apply result_bind_ok in Ht as (y&Hs&Ht). apply throw_if_ok, negb_false_iff, ends_with_spec in Hs as [q Hq].
  destruct (purpose_of_value _) as [p|] eqn:E; [|done]. apply purpose_of_value_spec in E. exists p.
  rewrite Hq, length_app, Nat.add_sub, take_app_length in E. subst q. destruct h as [i pr v]. cbn in *. by subst.
Qed.

Lemma validate_master p v : validate_handle (master_handle p v) = Ok tt.
Proof. unfold validate_handle. by destruct p. Qed.

Lemma master_username p v : material_username (master_handle p v) = purpose_value p ++ u ":v" ++ str_of_int v.
Proof. unfold material_username. by destruct p. Qed.

Lemma str_of_int_inj v v' : 0 < v -> 0 < v' -> str_of_int v = str_of_int v' -> v = v'.
Proof.
  intros Hv Hv'. unfold str_of_int. rewrite !(proj2 (Z.ltb_ge _ _)) by lia. intros E.
  destruct (str_of_nonneg_ok v) as (_&<-&_); [lia|]. destruct (str_of_nonneg_ok v') as (_&<-&_); [lia|]. by rewrite E.
Qed.

Lemma master_username_inj p v p' v' : 0 < v -> 0 < v' ->
  material_username (master_handle p v) = material_username (master_handle p' v') -> p = p' /\ v = v'.
Proof.
  intros Hv Hv'. rewrite !master_username. intros E. assert (p = p') as <- by (destruct p, p'; done). split; [done|].
  apply app_inv_head, app_inv_head in E. by apply str_of_int_inj.
Qed.

Lemma active_not_master p p' v : active_username (purpose_value p) <> material_username (master_handle p' v).
Proof.
  rewrite master_username. unfold active_username. intros E. assert (p = p') as <- by (destruct p, p'; done).
  by apply app_inv_head in E.
Qed.

Lemma active_username_inj p p' : active_username (purpose_value p) = active_username (purpose_value p') -> p = p'.
Proof. by destruct p, p'. Qed.

(** ** The backend, as a map of passwords *)

Class KeyringLaws (W : Type) `{CipherLaws W} `{KeyringBackend W} := {
  passwords : W -> gmap pystr pystr;
  get_law n w : wp (get_password n) (fun r w' => passwords w' = passwords w /\ (forall p, r = Ok p -> p = passwords w !! n) /\
    (world_ready w -> world_ready w' /\ is_ok r = true)) w;
  set_law n p w : wp (set_password n p) (fun r w' =>
    (passwords w' = <[n := p]> (passwords w) \/ r <> Ok tt /\ passwords w' = passwords w)) w;
  delete_law n w : wp (delete_password n) (fun r w' =>
    (passwords w' = delete n (passwords w) \/ r <> Ok tt /\ passwords w' = passwords w)) w;
  token_keeps n w : wp (token_bytes n) (fun r w' => passwords w' = passwords w /\ (forall b, r = Ok b -> is_bytes b /\ zlen b = Z.max 0 n)) w }.

Section Keys.
Context {W : Type} `{KeyringLaws W}.
Variable int_other : pystr -> result Z.
Implicit Type pw : gmap pystr pystr.

Lemma wp_backend_call {A} (m : M W A) (Q : result A -> W -> Prop) w :
  wp m (fun r w' => match r with Ok _ => Q r w' | Raise _ => forall code, Q (Raise (KeyProviderFailure code)) w' end) w -> wp (backend_call m) Q w.
Proof.
  intros Hm. apply wp_try_except. eapply wp_mono; [exact Hm|]. intros [a|e] w' Hq; [done|]. case_bool_decide; apply wp_raise, Hq.
Qed.

(** The keyring holds [master] for the handle [k]. *)
Definition holds_master pw (k : KeyHandle) (master : pybytes) : Prop :=
  exists text, pw !! material_username k = Some text /\ b64decode text = Ok master /\ zlen master = KEY_BYTES.

Definition active_version pw (p : KeyPurpose) : option Z :=
  match pw !! active_username (purpose_value p) with
  | Some text => match python_int int_other text with Ok a => Some a | Raise _ => None end
  | None => None
  end.

(** What a call that only reads does *)
Definition reads {A} (m : M W A) (Q : A -> Prop) : Prop :=
  forall w, wp m (fun r w' => passwords w' = passwords w /\ forall a, r = Ok a -> Q a) w.

Lemma load_reads k w : wp (load_master k) (fun r w' => passwords w' = passwords w /\
  (forall m, r = Ok m -> validate_handle k = Ok tt /\ holds_master (passwords w) k m) /\
  (forall m, validate_handle k = Ok tt -> holds_master (passwords w) k m -> world_ready w -> world_ready w' /\ is_ok r = true)) w.
Proof.
  unfold load_master. apply wp_bind, wp_lift. destruct (validate_handle k) as [[]|e] eqn:Ev; [|by split].
  apply wp_bind, wp_backend_call. eapply wp_mono; [apply get_law|]. intros [enc|e] w' (Hp&Hg&Hr).
  2:{ intros code. split; [done|]. split; [done|]. intros m _ _ Hw. by destruct (Hr Hw). }
  pose proof (Hg enc eq_refl) as ->. destruct (passwords w !! material_username k) as [text|] eqn:El.
  2:{ apply wp_raise. split; [done|]. split; [done|]. intros m _ (t&Ht&_). congruence. }
  destruct (b64decode text) as [material|e] eqn:Ed.
  2:{ apply wp_raise. split; [done|]. split; [done|]. intros m _ (t&Ht&Hd&_). congruence. }
  apply wp_bind, wp_require; intros Hl.
  - apply Z.eqb_eq in Hl. apply wp_lift. unfold from_bytes, require_nonempty_bytes. rewrite bool_decide_false by (by eapply zlen_nonempty).
    split; [done|]. split; [intros m [= <-]; split; [done|by exists text]|]. intros m _ _ Hw. by split; [apply Hr|].
  - split; [done|]. split; [done|]. intros m _ (t&Ht&Hd&Hz). apply Z.eqb_neq in Hl. congruence.
Qed.

Lemma python_int_str a : 0 < a -> python_int int_other (str_of_int a) = Ok a.
Proof.
  intros Ha. unfold python_int, str_of_int. rewrite (proj2 (Z.ltb_ge _ _)) by lia.
  destruct (str_of_nonneg_ok a) as (Hd&Hv&d&ds&Hs&_); [lia|]. rewrite bool_decide_false by (by rewrite Hs).
  rewrite (proj2 (forallb_Forall _ _) Hd). cbn [negb andb]. by rewrite Hv.
Qed.

(** ** What a record relies on *)

Record safe pw (p : KeyPurpose) (v : Z) (master : pybytes) : Prop := {
  sf_version : 0 < v;
  sf_active : exists a, active_version pw p = Some a /\ v <= a;
  sf_master : holds_master pw (master_handle p v) master }.

Section Safe.
Context (p : KeyPurpose) (v : Z) (master : pybytes).
Implicit Type q : KeyPurpose.

Lemma safe_insert_master pw q v' text : 0 < v' -> (q, v') <> (p, v) -> safe pw p v master ->
  safe (<[material_username (master_handle q v') := text]> pw) p v master.
Proof.
  intros Hv' Hne [Hv (a&Ha&Hle) (t&Ht&Hd)]. split; [done| |].
  - exists a. split; [|done]. unfold active_version. rewrite lookup_insert_ne; [exact Ha|]. intros E. by apply (active_not_master p q v').
  - exists t. split; [|done]. rewrite lookup_insert_ne; [done|]. intros E. apply master_username_inj in E as [-> ->]; done.
Qed.

Lemma safe_delete_master pw q v' : 0 < v' -> (q, v') <> (p, v) -> safe pw p v master ->
  safe (delete (material_username (master_handle q v')) pw) p v master.
Proof.
  intros Hv' Hne [Hv (a&Ha&Hle) (t&Ht&Hd)]. split; [done| |].
  - exists a. split; [|done]. unfold active_version. rewrite lookup_delete_ne; [exact Ha|]. intros E. by apply (active_not_master p q v').
  - exists t. split; [|done]. rewrite lookup_delete_ne; [done|]. intros E. apply master_username_inj in E as [-> ->]; done.
Qed.

Lemma safe_insert_active pw q a' : 0 < a' -> (q = p -> v <= a') -> safe pw p v master ->
  safe (<[active_username (purpose_value q) := str_of_int a']> pw) p v master.
Proof.
  intros Ha' Hq [Hv (a&Ha&Hle) (t&Ht&Hd)]. split; [done| |].
  - unfold active_version. destruct (decide (q = p)) as [->|Hn].
    + exists a'. rewrite lookup_insert_eq, python_int_str by done. split; [done|by apply Hq].
    + exists a. rewrite lookup_insert_ne; [done|]. intros E. by apply Hn, active_username_inj.
  - exists t. split; [|done]. rewrite lookup_insert_ne; [done|]. apply active_not_master.
Qed.

(** ** Every operation keeps it *)

Definition keeps_safe {A} (m : M W A) : Prop :=
  forall w, safe (passwords w) p v master -> wp m (fun _ w' => safe (passwords w') p v master) w.

Lemma reads_keeps {A} (m : M W A) : (forall w, wp m (fun _ w' => passwords w' = passwords w) w) -> keeps_safe m.
Proof. intros Hm w Hs. eapply wp_mono; [apply Hm|]. by intros r w' ->. Qed.

Lemma load_same k w : wp (load_master k) (fun _ w' => passwords w' = passwords w) w.
Proof. eapply wp_mono; [apply load_reads|]. by intros r w' [-> _]. Qed.
Lemma token_same n w : wp (token_bytes n) (fun _ w' => passwords w' = passwords w) w.
Proof. eapply wp_mono; [apply token_keeps|]. by intros r w' [-> _]. Qed.

Lemma store_keeps q v' material : 0 < v' -> (q, v') <> (p, v) -> keeps_safe (store_master (master_handle q v') material).
Proof.
  intros Hv' Hne w Hs. apply wp_backend_call. eapply wp_mono; [apply set_law|].
  assert (forall pw, pw = <[material_username (master_handle q v') := b64 material]> (passwords w) \/ pw = passwords w -> safe pw p v master) as Hpw.
  { intros pw [->| ->]; [by apply safe_insert_master|done]. }
  intros [[]|e] w' [E|[_ E]]; [..|intros code|intros code]; apply Hpw; auto.
Qed.

Lemma set_active_keeps q a' : 0 < a' -> (q = p -> v <= a') -> keeps_safe (set_active (purpose_value q) a').
Proof.
  intros Ha' Hq w Hs. apply wp_backend_call. eapply wp_mono; [apply set_law|].
  assert (forall pw, pw = <[active_username (purpose_value q) := str_of_int a']> (passwords w) \/ pw = passwords w -> safe pw p v master) as Hpw.
  { intros pw [->| ->]; [by apply safe_insert_active|done]. }
  intros [[]|e] w' [E|[_ E]]; [..|intros code|intros code]; apply Hpw; auto.
Qed.

(** A new version of a key is stored, then made active. *)
Lemma new_version_keeps q a' : 0 < a' -> (q = p -> v < a') ->
  keeps_safe (material ← token_bytes KEY_BYTES; _ ← store_master (master_handle q a') material;
              _ ← set_active (purpose_value q) a'; mret (master_handle q a')).
Proof.
  intros Ha' Hq w Hs. apply wp_bind. eapply wp_mono; [apply token_same|]. intros [m|e] w1 E; [|by rewrite E].
  rewrite <- E in Hs. clear E. apply wp_bind. eapply wp_mono; [apply (store_keeps q a' m); [done| |exact Hs]|].
  - intros [= -> ->]. specialize (Hq eq_refl). lia.
  - intros [[]|e] w2 Hs2; [|done]. apply wp_bind. eapply wp_mono; [apply (set_active_keeps q a' Ha'); [|exact Hs2]|].
    + intros E. specialize (Hq E). lia.
    + intros [[]|e] w3 Hs3; [by apply wp_ret|done].
Qed.

Lemma active_key_keeps q create : keeps_safe (keyring_active_key int_other q create).
Proof.
  intros w Hs. unfold keyring_active_key. apply wp_bind, wp_backend_call. eapply wp_mono; [apply get_law|].
  intros [enc|e] w1 (E&Hg&_); [|by intros code; rewrite E]. pose proof (Hg enc eq_refl) as ->.
  destruct (passwords w !! active_username (purpose_value q)) as [text|] eqn:El.
  - apply wp_bind, wp_lift. destruct (python_int int_other text) as [n|e]; [|by rewrite E]. apply wp_bind, wp_lift.
    destruct (handle (purpose_value q) n) as [h|e]; [|by rewrite E]. apply wp_bind. eapply wp_mono; [apply load_same|].
    intros [m|e] w2 E2; [apply wp_ret|]; by rewrite E2, E.
  - destruct create; [|apply wp_raise; by rewrite E]. unfold create_initial. apply wp_bind, wp_lift.
    rewrite (proj2 (handle_spec q 1 _) (conj eq_refl eq_refl)). apply new_version_keeps; [done| |by rewrite E].
    intros ->. destruct (sf_active _ _ _ _ Hs) as (a&Ha&_). unfold active_version in Ha. by rewrite El in Ha.
Qed.

Lemma rotate_keeps q a w : active_version (passwords w) q = Some a -> safe (passwords w) p v master ->
  wp (keyring_rotate (master_handle q a)) (fun _ w' => safe (passwords w') p v master) w.
Proof.
  intros Ha Hs. unfold keyring_rotate. apply wp_bind, wp_lift. rewrite validate_master.
  apply wp_bind. eapply wp_mono; [apply load_same|]. intros [m|e] w1 E; [|by rewrite E]. apply wp_bind, wp_lift.
  rewrite master_purpose. apply wp_bind, wp_lift. cbn [key_version master_handle].
  destruct (handle (purpose_value q) (a + 1)) as [h|e] eqn:Eh; [|by rewrite E]. apply handle_spec in Eh as [-> Hpos].
  apply new_version_keeps; [done| |by rewrite E]. intros ->. destruct (sf_active _ _ _ _ Hs) as (a0&Ha0&Hle). rewrite Ha in Ha0. simplify_eq. lia.
Qed.

Lemma destroy_keeps q b a w : active_version (passwords w) q = Some a -> 0 < b < a -> (q, b) <> (p, v) ->
  safe (passwords w) p v master -> wp (keyring_destroy (master_handle q b)) (fun _ w' => safe (passwords w') p v master) w.
Proof.
  intros Ha Hb Hne Hs. unfold keyring_destroy. apply wp_bind, wp_lift. rewrite validate_master.
  apply wp_bind, wp_lift. rewrite master_purpose. apply wp_bind.
  apply (wp_mono _ (fun _ w' => safe (passwords w') p v master)); [|by intros [[]|e] w' Hs'; [apply wp_ret|]].
  apply wp_backend_call, wp_bind. eapply wp_mono; [apply delete_law|].
  intros r w1 Hd. assert (Hs1 : safe (passwords w1) p v master /\ active_version (passwords w1) q = Some a).
  { destruct Hd as [->|[_ ->]]; [|done]. split; [apply safe_delete_master; [lia|done|done]|]. unfold active_version. rewrite lookup_delete_ne; [done|].
    intros E. symmetry in E. by apply active_not_master in E. }
  destruct Hs1 as [Hs1 Ha1]. destruct r as [[]|e]; [|done]. apply wp_bind. eapply wp_mono; [apply get_law|].
  intros [t|e] w2 (E&Hg&_); [|by intros code; rewrite E]. pose proof (Hg t eq_refl) as ->. cbn [key_version master_handle].
  rewrite bool_decide_false; [apply wp_ret; by rewrite E|]. intros Et. unfold active_version in Ha1. rewrite Et, python_int_str in Ha1 by lia. simplify_eq. lia.
Qed.
End Safe.

(** ** Histories *)

Inductive keyring_op :=
  | KActive (purpose : KeyPurpose) (create_if_missing : bool)
  | KHealth (purpose : KeyPurpose) (create_if_missing : bool)
  | KWrap (h : KeyHandle) (material aad : pybytes)
  | KUnwrap (h : KeyHandle) (wrapped aad : pybytes)
  | KRotate (h : KeyHandle)
  | KDestroy (h : KeyHandle).

Definition run_keyring (op : keyring_op) : M W unit :=
  match op with
  | KActive purpose create => _ ← keyring_active_key int_other purpose create; mret tt
  | KHealth purpose create => _ ← keyring_health int_other purpose create; mret tt
  | KWrap h material aad => _ ← keyring_wrap_data_key h material aad; mret tt
  | KUnwrap h wrapped aad => _ ← keyring_unwrap_data_key h wrapped aad; mret tt
  | KRotate h => _ ← keyring_rotate h; mret tt
  | KDestroy h => _ ← keyring_destroy h; mret tt
  end.

(** Only an active key is rotated, and none that is active destroyed. *)
Definition reasonable (op : keyring_op) (w : W) : Prop :=
  match op with
  | KRotate h => exists q a, h = master_handle q a /\ active_version (passwords w) q = Some a
  | KDestroy h => exists q b a, h = master_handle q b /\ active_version (passwords w) q = Some a /\ 0 < b < a
  | _ => True
  end.
Definition keyring_step (k : KeyHandle) (w : W) (op : keyring_op) (w' : W) : Prop :=
  w' = (run_keyring op w).1 /\ reasonable op w /\ op <> KDestroy k.

Lemma wp_forget_result {A} (m : M W A) (Q : W -> Prop) w : wp m (fun _ w' => Q w') w -> wp (_ ← m; mret tt) (fun _ w' => Q w') w.
Proof. intros Hm. apply wp_bind. eapply wp_mono; [exact Hm|]. by intros [a|e] w' Hq; [apply wp_ret|]. Qed.

Lemma keyring_step_safe p v master w op w' : keyring_step (master_handle p v) w op w' ->
  safe (passwords w) p v master -> safe (passwords w') p v master.
Proof.
  intros (->&Hr&Hne) Hs. refine (wp_elim _ (fun _ w' => safe (passwords w') p v master) _ _).
  destruct op as [q create|q create|h m aad|h c aad|h|h]; cbn [run_keyring].
  - apply wp_forget_result. by apply active_key_keeps.
  - apply wp_forget_result. unfold keyring_health. apply wp_try_except, wp_bind. eapply wp_mono; [by apply active_key_keeps|].
    intros [k|e] w' Hs'; [by apply wp_ret|]. destruct e; first [by apply wp_ret|by apply wp_raise].
  - apply wp_forget_result. unfold keyring_wrap_data_key. apply wp_bind. eapply wp_mono; [apply load_same|]. intros [k|e] w1 E1; [|by rewrite E1].
    apply wp_bind. eapply wp_mono; [apply token_same|]. intros [n|e] w2 E2; [|by rewrite E2, E1].
    apply wp_bind, wp_lift. destruct (crypto_encrypt m aad n k); [apply wp_ret|]; by rewrite E2, E1.
  - apply wp_forget_result. unfold keyring_unwrap_data_key. apply wp_bind, wp_require; intros _; [|done].
    apply wp_bind. eapply wp_mono; [apply load_same|]. intros [k|e] w1 E1; [|by rewrite E1].
    apply wp_bind, wp_lift. destruct (match crypto_decrypt _ _ _ _ with Ok _ => _ | Raise _ => _ end); [apply wp_lift|]; by rewrite E1.
  - destruct Hr as (q&a&->&Ha). apply wp_forget_result. by apply rotate_keeps.
  - destruct Hr as (q&b&a&->&Ha&Hb). apply wp_forget_result. eapply destroy_keeps; [done..| |done]. intros [= -> ->]. by apply Hne.
Qed.

Lemma keyring_steps_safe p v master w ops w' : steps (keyring_step (master_handle p v)) w ops w' ->
  safe (passwords w) p v master -> safe (passwords w') p v master.
Proof. intros Hs. apply (steps_invariant _ (fun w => safe (passwords w) p v master) _ _ _ (fun a l b => keyring_step_safe p v master a l b) Hs). Qed.

(** ** Wrapping *)

(** The data key [m] wrapped with a master key *)
Definition wrapped_under (master : pybytes) (k : KeyHandle) (aad m c : pybytes) : Prop :=
  m <> [] /\ exists nonce ct, c = nonce ++ ct /\ zlen nonce = NONCE_BYTES /\ crypto_encrypt m aad nonce master = Ok ct.

Lemma unwrap_safe p v master m aad c w : safe (passwords w) p v master -> wrapped_under master (master_handle p v) aad m c ->
  wp (keyring_unwrap_data_key (master_handle p v) c aad) (fun r w' => (forall m', r = Ok m' -> m' = m) /\
    (world_ready w -> world_ready w' /\ is_ok r = true)) w.
Proof.
  intros [Hv _ Hh] (Hm&nonce&ct&->&Hn&Hc). pose proof (crypt_law _ _ _ _ _ Hc) as [Hct Hd]. unfold keyring_unwrap_data_key.
  assert (Hlen : length nonce = Z.to_nat NONCE_BYTES) by (unfold zlen in Hn; lia).
  apply wp_bind, wp_require; intros Hl.
  2:{ apply Z.ltb_ge in Hl. destruct ct; [done|]. unfold zlen in *. rewrite length_app in Hl. cbn in Hl. lia. }
  apply wp_bind. eapply wp_mono; [apply load_reads|]. intros [k|e] w1 (_&Hk&Hr).
  2:{ split; [done|]. intros Hw. by destruct (Hr master (validate_master p v) Hh Hw). }
  assert (k = master) as ->.
  { destruct (Hk k eq_refl) as [_ (t&Ht&Hb&_)]. destruct Hh as (t'&Ht'&Hb'&_). congruence. }
  rewrite <- Hlen, take_app_length, drop_app_length, Hd. apply wp_bind, wp_lift, wp_lift. unfold from_bytes, require_nonempty_bytes.
  rewrite bool_decide_false by done. split; [by intros ? [= <-]|]. intros Hw. split; [|done]. by apply (Hr master (validate_master p v) Hh).
Qed.

Lemma wrap_safe p v master m aad w : holds_master (passwords w) (master_handle p v) master -> m <> [] ->
  wp (keyring_wrap_data_key (master_handle p v) m aad) (fun r w' => passwords w' = passwords w /\
    forall c, r = Ok c -> wrapped_under master (master_handle p v) aad m c /\ c <> []) w.
Proof.
  intros Hh Hm. unfold keyring_wrap_data_key. apply wp_bind. eapply wp_mono; [apply load_reads|]. intros [k|e] w1 (E1&Hk&_); [|by split].
  assert (k = master) as ->.
  { destruct (Hk k eq_refl) as [_ (t&Ht&Hb&_)]. destruct Hh as (t'&Ht'&Hb'&_). congruence. }
  apply wp_bind. eapply wp_mono; [apply token_keeps|]. intros [n|e] w2 (E2&Hn); [|by rewrite E2].
  apply wp_bind, wp_lift. destruct (crypto_encrypt m aad n master) as [ct|e] eqn:Ec; [|by rewrite E2].
  apply wp_ret. rewrite E2. split; [done|]. intros c [= <-]. destruct (Hn n eq_refl) as [_ Hnl]. split; [split; [done|by exists n, ct]|].
  pose proof (proj1 (crypt_law _ _ _ _ _ Ec)). by destruct n, ct.
Qed.

(** The key answered is the newest, and its master is there. *)
Lemma active_key_safe q w : wp (keyring_active_key int_other q true) (fun r w' => forall k, r = Ok k ->
  exists v master, k = master_handle q v /\ safe (passwords w') q v master) w.
Proof.
  unfold keyring_active_key. apply wp_bind, wp_backend_call. eapply wp_mono; [apply get_law|].
  intros [enc|e] w1 (E&Hg&_); [|by intros code]. pose proof (Hg enc eq_refl) as ->.
  destruct (passwords w !! active_username (purpose_value q)) as [text|] eqn:El.
  - apply wp_bind, wp_lift. destruct (python_int int_other text) as [n|e] eqn:En; [|done]. apply wp_bind, wp_lift.
    destruct (handle (purpose_value q) n) as [h|e] eqn:Eh; [|done]. apply handle_spec in Eh as [-> Hn].
    apply wp_bind. eapply wp_mono; [apply load_reads|]. intros [m|e] w2 (E2&Hm&_); [|done]. apply wp_ret. intros k [= <-].
    exists n, m. split; [done|]. rewrite E2. split; [done| |by apply Hm].
    exists n. split; [|lia]. unfold active_version. by rewrite E, El, En.
  - unfold create_initial. apply wp_bind, wp_lift. rewrite (proj2 (handle_spec q 1 _) (conj eq_refl eq_refl)).
    apply wp_bind. eapply wp_mono; [apply token_keeps|]. intros [m|e] w2 (E2&Hm); [|done]. destruct (Hm m eq_refl) as [Hb Hl].
    apply wp_bind, wp_backend_call. eapply wp_mono; [apply set_law|]. intros [[]|e] w3 Hs3; [|by intros code].
    destruct Hs3 as [E3|[? _]]; [|done]. apply wp_bind, wp_backend_call. eapply wp_mono; [apply set_law|].
    intros [[]|e] w4 Hs4; [|by intros code]. destruct Hs4 as [E4|[? _]]; [|done]. apply wp_ret. intros k [= <-]. exists 1, m. split; [done|].
    rewrite E4. split; [done| |].
    + exists 1. split; [|lia]. unfold active_version. by rewrite lookup_insert_eq, python_int_str.
    + exists (b64 m). split; [|split; [by apply b64_round_trip|done]].
      rewrite lookup_insert_ne by apply active_not_master. by rewrite E3, lookup_insert_eq.
Qed.

(** ** Records under the keyring *)

Variable sha256 : pybytes -> pybytes.
Local Abbreviation provider := (OSKeyringProvider int_other).
Local Abbreviation encrypt := (fun record_id generation revision frames => encrypt_frames sha256 record_id generation revision frames provider).

(** What an encryption leaves in the keyring *)
Lemma keyring_encrypts record_id generation revision frames created_at w :
  wp (encrypt record_id generation revision frames created_at) (fun r w' => forall e, r = Ok e ->
    exists v master, env_key e = master_handle KP_RECORD v /\ safe (passwords w') KP_RECORD v master /\
      sealed_record sha256 (wrapped_under master) frames e /\ env_record_id e = record_id) w.
Proof.
  unfold encrypt_frames. apply wp_bind, wp_require; intros _; [|done]. apply wp_bind, wp_lift.
  destruct (associated_data record_id generation revision _ _ _ created_at) as [aad|e] eqn:Ea; [|done]. apply wp_bind.
  apply (wp_mono _ (fun r w' => forall x, r = Ok x -> exists v master m, x.1.1.1 = master_handle KP_RECORD v /\
    safe (passwords w') KP_RECORD v master /\ wrapped_under master x.1.1.1 (wrap_associated_data (sha256 aad)) m x.1.1.2 /\
    crypto_encrypt (mjoin frames) aad x.1.2 m = Ok x.2)).
  - apply wp_try_except. eapply wp_mono with (Q := fun r w' => forall x, r = Ok x -> exists v master m, x.1.1.1 = master_handle KP_RECORD v /\
      safe (passwords w') KP_RECORD v master /\ wrapped_under master x.1.1.1 (wrap_associated_data (sha256 aad)) m x.1.1.2 /\
      crypto_encrypt (mjoin frames) aad x.1.2 m = Ok x.2).
    2:{ intros [x|ex] w' Hx; [exact Hx|]. destruct ex; by apply wp_raise. }
    unfold encrypt_payload. apply wp_bind. eapply wp_mono; [apply active_key_safe|]. intros [k|e] w1 Hk; [|done].
    destruct (Hk k eq_refl) as (v&master&->&Hs). apply wp_bind. eapply wp_mono; [apply token_keeps|]. intros [m|e] w2 (E2&Hm); [|done].
    destruct (Hm m eq_refl) as [_ Hml]. apply wp_bind. cbn [kp_wrap_data_key OSKeyringProvider].
    eapply wp_mono; [apply (wrap_safe _ _ master); [rewrite E2; by destruct Hs|by eapply zlen_nonempty]|].
    intros [c|e] w3 (E3&Hc); [|done]. destruct (Hc c eq_refl) as [Hw _]. apply wp_bind. eapply wp_mono; [apply token_keeps|].
    intros [n|e] w4 (E4&_); [|done]. apply wp_bind, wp_lift. destruct (crypto_encrypt (mjoin frames) aad n m) as [ct|e] eqn:Ec; [|done].
    apply wp_ret. intros x [= <-]. exists v, master, m. cbn. split; [done|]. by rewrite E4, E3, E2.
  - intros [[[[k c] n] ct]|e] w1 Hx; [|done]. destruct (Hx _ eq_refl) as (v&master&m&E&Hs&Hw&Hc). cbn [fst snd] in *. subst k.
    apply wp_lift. intros e He. assert (He' := He). apply make_envelope_ok in He' as [-> _]. exists v, master. split_and!; try done.
    split; try done. exists aad, m. done.
Qed.

(** *** The keyring as a provider *)

(** The keyring holds the master key [s] of [k]. *)
Definition keyring_holds (w : W) (k : KeyHandle) (s : pybytes) : Prop :=
  exists p v, k = master_handle p v /\ safe (passwords w) p v s.
Definition keyring_wraps (s : pybytes) (k : KeyHandle) (aad m c : pybytes) : Prop := wrapped_under s k aad m c /\ zlen m = KEY_BYTES.

Lemma same_stays w w' : passwords w' = passwords w -> stays keyring_holds w w'.
Proof. intros E k s (p&v&->&Hs). exists p, v. by rewrite E. Qed.

Lemma master_handle_ok p v : 0 < v -> handle_ok (master_handle p v) = true.
Proof.
  intros Hv. unfold handle_ok, make_key_handle. cbn [key_version key_id key_provider_id master_handle].
  rewrite (proj2 (Z.leb_gt _ _) Hv). destruct p; vm_compute; reflexivity.
Qed.

(** [keyring_keeps_keys]: the OS keyring is a provider that keeps its keys. *)
Theorem keyring_keeps_keys : keeps_keys False keyring_holds provider keyring_wraps.
Proof.
  split.
  - intros q w. split. split; [|split; [|done]].
    + intros k s (p&v&->&Hs). exists p, v. split; [done|]. exact (wp_elim _ _ _ (active_key_keeps p v s q true w Hs)).
    + intros k E. destruct (wp_elim _ _ _ (active_key_safe q w) k E) as (v&master&->&Hs).
      split; [by apply master_handle_ok, Hs|]. by exists master, q, v.
  - intros n w. eapply wp_mono; [apply token_same|]. intros r w' E. by apply same_stays.
  - intros k s m aad w Hm (p&v&->&Hs). eapply wp_mono; [apply (wrap_safe p v s); [by destruct Hs|by eapply zlen_nonempty]|].
    intros r w' [E Hc]. split; [by apply same_stays|]. split; [|done]. intros c Ec. by destruct (Hc c Ec).
  - intros k s m aad c w (p&v&->&Hs) [Hc _]. by apply (unwrap_safe p v s).
  - by intros k s m aad c [_ Hm].
Qed.

(** What it wrapped under a master key it still holds is bound to its
    associated data, when the cipher's seals cannot be forged. *)
Theorem keyring_binds_wrapping : unforgeable -> binds_wrapping keyring_holds provider keyring_wraps.
Proof.
  intros Hun k s aad aad' m m' c w (p&v&->&Hs) [(_&nonce&ct&->&Hn&Hc) _] Hu.
  assert (Hwp : wp (keyring_unwrap_data_key (master_handle p v) (nonce ++ ct) aad') (fun r _ => forall m', r = Ok m' -> aad' = aad) w).
  2:{ exact (wp_elim _ _ _ Hwp m' Hu). }
  assert (Hlen : length nonce = Z.to_nat NONCE_BYTES) by (unfold zlen in Hn; lia).
  unfold keyring_unwrap_data_key. apply wp_bind, wp_require; intros _; [|done].
  apply wp_bind. eapply wp_mono; [apply load_reads|]. intros [master|e] w1 (_&Hk&_); [|done].
  assert (master = s) as ->.
  { destruct (Hk master eq_refl) as [_ (t&Ht&Hb&_)]. destruct Hs as [_ _ (t'&Ht'&Hb'&_)]. congruence. }
  rewrite <- Hlen, take_app_length, drop_app_length. apply wp_bind, wp_lift.
  destruct (crypto_decrypt ct aad' nonce s) as [plain|e] eqn:Ed; [|done]. apply wp_lift. intros _ _. by eapply Hun.
Qed.

(** Other, reasonable uses of the keyring lose no key. *)
Lemma keyring_steps_stay k s w ops w' : steps (keyring_step k) w ops w' -> keyring_holds w k s -> keyring_holds w' k s.
Proof. intros Hops (p&v&->&Hs). exists p, v. split; [done|]. by eapply keyring_steps_safe. Qed.

(** C15 (key_rotation_keeps_records): a record encrypted under the keyring is
    never lost by key management: whatever history of lookups, wrappings,
    failed calls, rotations of active keys and destructions of other, inactive
    keys follows, decrypting it answers its frames or fails, and does answer
    when the keyring does. *)
Theorem key_rotation_keeps_records record_id generation revision frames created_at w w1 e ops w2 :
  encrypt record_id generation revision frames created_at w = (w1, Ok e) ->
  steps (keyring_step (env_key e)) w1 ops w2 ->
  (forall fs, (decrypt_frames sha256 e provider w2).2 = Ok fs -> fs = frames) /\
  (world_ready w2 -> (decrypt_frames sha256 e provider w2).2 = Ok frames).
Proof.
  intros Henc Hops. pose proof (wp_elim _ _ _ (keyring_encrypts record_id generation revision frames created_at w)) as Hk.
  rewrite Henc in Hk. destruct (Hk e eq_refl) as (v&master&Ek&Hs&Hse&_). cbn [fst] in Hs. rewrite Ek in Hops.
  pose proof (keyring_steps_safe _ _ _ _ _ _ Hops Hs) as Hs2.
  assert (Hd : wp (decrypt_frames sha256 e provider) (fun r w' => (forall fs, r = Ok fs -> fs = frames) /\ (world_ready w2 -> world_ready w' /\ is_ok r = true)) w2).
  { eapply decrypt_at; [done|]. intros m aad Hw. rewrite Ek in *. by apply (unwrap_safe _ _ master). }
  apply wp_elim in Hd as [Hf Hr]. split; [exact Hf|]. intros Hw. destruct (Hr Hw) as [_ Hok].
  destruct (decrypt_frames sha256 e provider w2).2 as [fs|x]; [|done]. by rewrite (Hf fs eq_refl).
Qed.
End Keys.
