(* ===== verification/EncryptionProps.v ===== *)
(** * EncryptionProps: encryption and keys that run.

    A toy cipher, a provider, a keyring and a header model, the properties of
    [EncryptionFacts] and [KeyringFacts] on them, and what a rotation that
    names an old key does. *)

From S2P Require Import Prelude PyStr Utf8 Json JsonFacts PyLib Storage PyData Codec CodecFacts Sealed SealedFacts Gate Pipeline Encryption EncryptionFacts Keyring KeyringFacts.

(** ** A cipher that opens nothing it did not seal *)

Definition toy_prefix (aad nonce key : pybytes) : pybytes := zlen aad :: aad ++ nonce ++ key.
Definition toy_encrypt (p aad nonce key : pybytes) : result pybytes := Ok (toy_prefix aad nonce key ++ p).
Definition toy_decrypt (c aad nonce key : pybytes) : result pybytes :=
  let pre := toy_prefix aad nonce key in
  if bool_decide (take (length pre) c = pre) then Ok (drop (length pre) c) else Raise CryptoError.

Lemma toy_opens p aad n k c : toy_encrypt p aad n k = Ok c -> c <> [] /\ toy_decrypt c aad n k = Ok p.
Proof.
  intros [= <-]. split; [done|]. unfold toy_decrypt. change (zlen aad :: (aad ++ n ++ k) ++ p) with (toy_prefix aad n k ++ p).
  by rewrite take_app_length, drop_app_length, bool_decide_true.
Qed.

(** What begins with the length of a list and the list tells the list. *)
Lemma tagged_prefix (aad aad' rest : pybytes) : take (length (zlen aad' :: aad')) (zlen aad :: aad ++ rest) = zlen aad' :: aad' -> aad' = aad.
Proof.
  cbn [length take]. intros [= Hl Ht]. assert (length aad = length aad') as Hlen by (unfold zlen in Hl; lia).
  by rewrite <- Hlen, take_app_length in Ht.
Qed.

Lemma toy_unforgeable p p' aad aad' n k c : toy_encrypt p aad n k = Ok c -> toy_decrypt c aad' n k = Ok p' -> aad' = aad.
Proof.
  intros [= <-]. unfold toy_decrypt. case_bool_decide as E; [|done]. intros _. apply (tagged_prefix _ _ ((n ++ k) ++ p)).
  unfold toy_prefix in E. apply (f_equal (take (length (zlen aad' :: aad')))) in E.
  rewrite take_take, Nat.min_l in E by (cbn; rewrite !length_app; lia). rewrite (app_assoc aad) in E |- *.
  cbn [app] in E. rewrite <- !app_assoc in E |- *. rewrite E.
  change (zlen aad' :: aad' ++ n ++ k) with ((zlen aad' :: aad') ++ n ++ k). by rewrite take_app_length.
Qed.

#[local] Instance toy_cipher : Cipher nat := {|
  token_bytes n := fun w => (Datatypes.S w, Ok (replicate (Z.to_nat n) (Z.of_nat w mod 256)));
  crypto_encrypt := toy_encrypt; crypto_decrypt := toy_decrypt |}.
#[local] Instance toy_cipher_laws : CipherLaws nat.
Proof.
  refine {| world_ready (_ : nat) := True |}.
  - intros n Hn w. split. cbn. split; [|done]. intros b [= <-]. unfold zlen. rewrite length_replicate. lia.
  - exact toy_opens.
  - done.
Defined.

(** Providers that tag what they wrap with its associated data, and hold one
    key without a secret *)
Definition toy_holds {W} (w : W) (k : KeyHandle) (s : pybytes) : Prop := True.
Definition toy_wraps (s : pybytes) (k : KeyHandle) (aad m c : pybytes) : Prop := c = zlen aad :: aad ++ m /\ zlen m = KEY_BYTES.
Definition toy_provider {W} (id : pystr) : KeyProvider W := {|
  provider_id := id;
  kp_health _ _ := mret KH_READY;
  kp_active_key _ _ := mret {| key_id := u "k"; key_provider_id := u "toy"; key_version := 1 |};
  kp_wrap_data_key _ m aad := mret (zlen aad :: aad ++ m);
  kp_unwrap_data_key _ c aad :=
    if bool_decide (take (length (zlen aad :: aad)) c = zlen aad :: aad) then mret (drop (length (zlen aad :: aad)) c)
    else raise (KeyProviderFailure INVALID_KEY) |}.

Lemma toy_unwrap aad m : take (length (zlen aad :: aad)) (zlen aad :: aad ++ m) = zlen aad :: aad /\
  drop (length (zlen aad :: aad)) (zlen aad :: aad ++ m) = m.
Proof. cbn [length take drop]. by rewrite take_app_length, drop_app_length. Qed.

Lemma toy_keeps {W} `{CipherLaws W} live id : keeps_keys live toy_holds (toy_provider id : KeyProvider W) toy_wraps.
Proof.
  split.
  - intros purpose w. split. split; [done|]. split; [|done]. intros k [= <-]. split; [vm_compute; reflexivity|by exists []].
  - intros n w. by split.
  - intros k s m aad w Hm _. split. split; [done|]. split; [|done]. by intros c [= <-].
  - intros k s m aad c w _ [-> Hm]. split. destruct (toy_unwrap aad m) as [E1 E2]. unfold toy_provider, kp_unwrap_data_key.
    rewrite E1, E2, bool_decide_true by done. split; [|done]. by intros m' [= <-].
  - by intros k s m aad c [_ Hm].
Qed.

Lemma toy_binds id : binds_wrapping toy_holds (toy_provider id : KeyProvider nat) toy_wraps.
Proof.
  intros k s aad aad' m m' c w _ [-> _] E. unfold toy_provider, kp_unwrap_data_key in E. case_bool_decide as Ht; [|done].
  by apply tagged_prefix in Ht.
Qed.

(** ** A record *)

Definition toy_sha (b : pybytes) : pybytes := 32 :: b.
Lemma toy_sha_nonempty b : toy_sha b <> [].
Proof. done. Qed.

Definition toy_frames : list pybytes := [u "pixels"; u "metadata"].
Definition toy_date : datetime := {| dt_wall := 1709208000123456; dt_offset := 0 |}.
Definition toy_run : nat * result EncryptedRecordEnvelope := encrypt_frames toy_sha 77 3 (u "rev") toy_frames (toy_provider (u "a")) toy_date 0%nat.
Definition no_envelope : EncryptedRecordEnvelope :=
  {| env_record_id := 0; env_generation := 0; env_configuration_revision := []; env_schema_version := 0; env_algorithm := [];
     env_key := {| key_id := []; key_provider_id := []; key_version := 0 |}; env_plaintext_frame_sizes := [];
     env_wrapped_data_key := []; env_nonce := []; env_ciphertext := []; env_associated_data_digest := []; env_created_at := toy_date |}.
Definition toy_envelope : EncryptedRecordEnvelope := match toy_run.2 with Ok e => e | Raise _ => no_envelope end.

Lemma toy_run_ok : toy_run.2 = Ok toy_envelope.
Proof. vm_compute. reflexivity. Qed.

Lemma toy_encryptable : encryptable 77 3 (u "rev") toy_frames toy_date.
Proof.
  unfold encryptable. split; [lia|]. split; [lia|]. split; [vm_compute; reflexivity|]. split; [vm_compute; reflexivity|].
  split; [discriminate|]. split; [|vm_compute; reflexivity]. repeat constructor.
Qed.

Lemma toy_sealed : exists s, sealed_record toy_sha (toy_wraps s) toy_frames toy_envelope /\ constructible toy_envelope = true.
Proof.
  destruct (wp_elim _ _ _ (encrypt_seals toy_sha toy_sha_nonempty True toy_holds (toy_provider (u "a")) toy_wraps 77 3 (u "rev") toy_frames toy_date
    0%nat (toy_keeps True _) toy_encryptable)) as (_&He&_). destruct (He toy_envelope toy_run_ok) as ((s&_&Hs)&Hc&_). exists s. exact (conj Hs Hc).
Qed.

Lemma envelope_round_trip_witness :
  toy_run.2 = Ok toy_envelope /\ (decrypt_frames toy_sha toy_envelope (toy_provider (u "a")) 9%nat).2 = Ok toy_frames.
Proof.
  split; [exact toy_run_ok|].
  destruct (wp_elim _ _ _ (envelope_round_trip toy_sha toy_sha_nonempty True toy_holds (toy_provider (u "a")) toy_wraps 77 3 (u "rev") toy_frames toy_date
    0%nat (toy_keeps True _) toy_encryptable)) as (_&He&_). destruct (He toy_envelope toy_run_ok) as (_&_&s&_&Hd).
  exact (proj2 (Hd 9%nat I) I).
Defined.

(** The record presented as one of another generation *)
Definition toy_forged : EncryptedRecordEnvelope :=
  {| env_record_id := 77; env_generation := 4; env_configuration_revision := u "rev"; env_schema_version := 1;
     env_algorithm := ENVELOPE_ALGORITHM; env_key := env_key toy_envelope; env_plaintext_frame_sizes := [6; 8];
     env_wrapped_data_key := env_wrapped_data_key toy_envelope; env_nonce := env_nonce toy_envelope;
     env_ciphertext := env_ciphertext toy_envelope; env_created_at := toy_date;
     env_associated_data_digest := match associated_data 77 4 (u "rev") 1 ENVELOPE_ALGORITHM [6; 8] toy_date with Ok aad => toy_sha aad | Raise _ => [] end |}.

Lemma altered_record_is_rejected_witness :
  (decrypt_frames toy_sha toy_envelope (toy_provider (u "a")) 9%nat).2 = Ok toy_frames /\
  is_ok (decrypt_frames toy_sha toy_forged (toy_provider (u "a")) 9%nat).2 = false.
Proof.
  split; [vm_compute; reflexivity|].
  destruct (decrypt_frames toy_sha toy_forged (toy_provider (u "a")) 9%nat) as [w' [fs|e]] eqn:E; [exfalso|reflexivity].
  destruct toy_sealed as (s&Hs&Hc).
  destruct (altered_record_is_rejected toy_sha True toy_holds (toy_provider (u "a")) toy_wraps toy_frames s toy_envelope toy_forged 9%nat w' fs)
    as [Heq _]; [apply toy_keeps|exact toy_unforgeable|apply toy_binds|exact I|exact Hs|exact Hc|vm_compute; reflexivity|split; vm_compute; [discriminate|reflexivity]..|
                 reflexivity|reflexivity|reflexivity|reflexivity|exact E|].
  apply (f_equal env_generation) in Heq. vm_compute in Heq. discriminate Heq.
Defined.

Definition toy_rewrapped : EncryptedRecordEnvelope :=
  match (rewrap_data_key toy_sha toy_envelope (toy_provider (u "a")) (toy_provider (u "b")) 9%nat).2 with Ok e => e | Raise _ => no_envelope end.

Lemma rewrapping_keeps_records_witness :
  (rewrap_data_key toy_sha toy_envelope (toy_provider (u "a")) (toy_provider (u "b")) 9%nat).2 = Ok toy_rewrapped /\
  (decrypt_frames toy_sha toy_rewrapped (toy_provider (u "b")) 10%nat).2 = Ok toy_frames.
Proof.
  assert ((rewrap_data_key toy_sha toy_envelope (toy_provider (u "a")) (toy_provider (u "b")) 9%nat).2 = Ok toy_rewrapped) as E by (vm_compute; reflexivity).
  split; [exact E|]. destruct toy_sealed as (s&Hs&Hc).
  destruct (wp_elim _ _ _ (rewrapping_keeps_records toy_sha True toy_holds (toy_provider (u "a")) toy_wraps True toy_holds (toy_provider (u "b")) toy_wraps
    toy_frames s toy_envelope 9%nat (toy_keeps True _) (toy_keeps True _) I Hs Hc)) as [He _]. destruct (He _ E) as (_&s'&_&Hd). exact (proj2 (Hd 10%nat I) I).
Defined.

(** ** The stage *)

(** A model that reads back its own dumps *)
Definition toy_header_validate (j : json) : option EnvelopeHeader :=
  match j with
  | JDict [(_, JStr algorithm); (_, JList binary); (_, JInt codec); (_, JStr revision); (_, JStr created); (_, JInt generation);
           (_, JStr id); (_, JStr provider); (_, JInt version); (_, JList sizes); (_, JStr record_id); (_, JInt schema)] =>
      match uuid_of_text (fun _ => Raise ValueError) record_id, fromisoformat (fun _ => Raise ValueError) created with
      | Ok r, Ok (Some d) =>
          let ints := omap (fun j => match j with JInt n => Some n | _ => None end) in
          Some {| eh_codec_version := codec; eh_record_id := r; eh_generation := generation; eh_configuration_revision := revision;
                  eh_schema_version := schema; eh_algorithm := algorithm; eh_key_id := id; eh_key_provider_id := provider;
                  eh_key_version := version; eh_plaintext_frame_sizes := ints sizes; eh_binary_frame_sizes := ints binary;
                  eh_created_at := d |}
      | _, _ => None
      end
  | _ => None
  end.

#[local] Instance toy_header_model : EnvelopeHeaderModel.
Proof.
  refine {| json_datetime := isoformat; header_validate := toy_header_validate |}.
  - intros d. apply ascii_scalar, isoformat_ascii.
  - intros h Hh Hr Hl Hd. unfold toy_header_validate, envelope_header_dict. rewrite uuid_round_trip, iso_round_trip by done.
    assert (Hints : forall l : list Z, omap (fun j => match j with JInt n => Some n | _ => None end) (JInt <$> l : list json) = l).
    { intros l. induction l as [|n l IH]; [done|]. cbn. by rewrite IH. }
    rewrite !Hints. by destruct h.
Defined.

Definition toy_item : item pybytes :=
  {| it_record_id := 77; it_generation := 3; it_configuration_revision := u "rev"; it_deadline := 5; it_frames := toy_frames |}.
(** ** A keyring *)

Record ring := { rg_passwords : gmap pystr pystr; rg_tokens : nat }.

#[local] Instance ring_cipher : Cipher ring := {|
  token_bytes n := fun w => ({| rg_passwords := rg_passwords w; rg_tokens := Datatypes.S (rg_tokens w) |},
                             Ok (replicate (Z.to_nat n) (Z.of_nat (rg_tokens w) mod 256)));
  crypto_encrypt := toy_encrypt; crypto_decrypt := toy_decrypt |}.
Lemma replicate_zlen n (x : Z) : 0 <= n -> zlen (replicate (Z.to_nat n) x) = n.
Proof. intros Hn. unfold zlen. rewrite length_replicate. lia. Qed.
#[local] Instance ring_cipher_laws : CipherLaws ring.
Proof.
  refine {| world_ready (_ : ring) := True |}.
  - intros n Hn w. split. cbn. split; [|done]. intros b [= <-]. apply replicate_zlen. lia.
  - exact toy_opens.
  - done.
Defined.
#[local] Instance ring_backend : KeyringBackend ring := {|
  get_password n := gets (fun w => rg_passwords w !! n);
  set_password n p := modify (fun w => {| rg_passwords := <[n := p]> (rg_passwords w); rg_tokens := rg_tokens w |});
  delete_password n := modify (fun w => {| rg_passwords := delete n (rg_passwords w); rg_tokens := rg_tokens w |}) |}.

Definition no_int (_ : pystr) : result Z := Raise ValueError.
Definition empty_ring : ring := {| rg_passwords := ∅; rg_tokens := 0 |}.
Definition ring_provider : KeyProvider ring := OSKeyringProvider no_int.
Definition ring_run : ring * result EncryptedRecordEnvelope := encrypt_frames toy_sha 77 3 (u "rev") toy_frames ring_provider toy_date empty_ring.
Definition ring_envelope : EncryptedRecordEnvelope := match ring_run.2 with Ok e => e | Raise _ => no_envelope end.
Definition ring_rotated : ring := (run_keyring no_int (KRotate (env_key ring_envelope)) ring_run.1).1.

#[local] Instance ring_laws : KeyringLaws ring.
Proof.
  refine {| passwords := rg_passwords |}.
  - intros n w. split. cbn. split; [done|]. split; [|done]. by intros p [= <-].
  - intros n p w. split. by left.
  - intros n w. split. by left.
  - intros n w. split. cbn. split; [done|]. intros b [= <-]. split.
    + apply Forall_replicate. apply Z.mod_pos_bound. lia.
    + unfold zlen. rewrite length_replicate. lia.
Defined.

(** *** The stage under the keyring *)

Definition toy_registry : list (KeyProvider ring) := [toy_provider (u "toy"); ring_provider].
Definition toy_stage : ring * result (item pybytes) :=
  encryption_process toy_sha toy_registry PROVIDER_ID None (mret false) (mret toy_date) toy_item empty_ring.
Definition toy_out : item pybytes := match toy_stage.2 with Ok o => o | Raise _ => toy_item end.
Definition stage_envelope : EncryptedRecordEnvelope := match decode_encrypted_stage toy_out with Ok e => e | Raise _ => no_envelope end.
Definition stage_rotated : ring := (run_keyring no_int (KRotate (env_key stage_envelope)) toy_stage.1).1.

Definition held_by (id : pystr) : ring -> KeyHandle -> pybytes -> Prop :=
  if bool_decide (id = PROVIDER_ID) then keyring_holds no_int else toy_holds.
Definition wrapped_by (id : pystr) : pybytes -> KeyHandle -> pybytes -> pybytes -> pybytes -> Prop :=
  if bool_decide (id = PROVIDER_ID) then keyring_wraps else toy_wraps.

Lemma toy_registry_keeps P : P ∈ toy_registry -> keeps_keys False (held_by (provider_id P)) P (wrapped_by (provider_id P)).
Proof.
  unfold toy_registry. rewrite !elem_of_cons. intros [->|[->|HP]]; [apply toy_keeps|apply keyring_keeps_keys|by apply not_elem_of_nil in HP].
Qed.

(** The record of the stage's answer opens after its key was rotated. *)
Lemma stage_output_decrypts_witness :
  toy_stage.2 = Ok toy_out /\ validate_output REDACTED toy_item (ENCRYPTED, toy_out) = Ok tt /\
  decode_encrypted_stage toy_out = Ok stage_envelope /\
  active_version no_int (rg_passwords stage_rotated) KP_RECORD = Some 2 /\
  (decrypt_frames toy_sha stage_envelope ring_provider stage_rotated).2 = Ok toy_frames.
Proof.
  assert (toy_stage.2 = Ok toy_out) as E by (vm_compute; reflexivity). split; [exact E|].
  assert (decode_encrypted_stage toy_out = Ok stage_envelope) as Ed by (vm_compute; reflexivity).
  destruct (stage_output_decrypts toy_sha toy_sha_nonempty toy_registry False held_by wrapped_by PROVIDER_ID None
    (mret false) (mret toy_date) toy_item empty_ring toy_stage.1 toy_out) as (Hv&e&P&s&Hd&_&_&HP&Hid&Hh&Hop).
  - exact toy_registry_keeps.
  - intros id v. apply wp_ret. by intros k s.
  - intros v. split. intros d [= <-]. vm_compute. reflexivity.
  - cbn. lia.
  - cbn. lia.
  - vm_compute. reflexivity.
  - vm_compute. reflexivity.
  - repeat constructor.
  - exact (pair_of toy_stage _ E).
  - split; [exact Hv|]. split; [exact Ed|]. split; [vm_compute; reflexivity|].
    assert (e = stage_envelope) as -> by congruence. destruct Hid as [Hid|Hid]; [|discriminate Hid].
    assert (P = ring_provider) as ->.
    { unfold toy_registry in HP. rewrite !elem_of_cons in HP. destruct HP as [->|[->|HP]]; [discriminate Hid|reflexivity|].
      destruct (not_elem_of_nil _ HP). }
    refine (proj2 (Hop stage_rotated _) I). refine (keyring_steps_stay no_int _ _ _ [KRotate (env_key stage_envelope)] _ _ Hh).
    eapply steps_cons; [|constructor]. split; [reflexivity|]. split; [|discriminate]. exists KP_RECORD, 1.
    split; vm_compute; reflexivity.
Defined.

Lemma key_rotation_keeps_records_witness :
  active_version no_int (rg_passwords ring_rotated) KP_RECORD = Some 2 /\ key_version (env_key ring_envelope) = 1 /\
  (decrypt_frames toy_sha ring_envelope ring_provider ring_rotated).2 = Ok toy_frames.
Proof.
  split; [vm_compute; reflexivity|]. split; [vm_compute; reflexivity|].
  refine (proj2 (key_rotation_keeps_records no_int toy_sha 77 3 (u "rev") toy_frames toy_date empty_ring ring_run.1 ring_envelope
    [KRotate (env_key ring_envelope)] ring_rotated _ _) I).
  - assert (ring_run.2 = Ok ring_envelope) as E by (vm_compute; reflexivity). exact (pair_of ring_run _ E).
  - eapply steps_cons; [|constructor]. split; [reflexivity|]. split; [|discriminate]. exists KP_RECORD, 1.
    split; vm_compute; reflexivity.
Defined.

(** Rotating the first version once more overwrites the second: the record
    encrypted under it is lost. *)
Definition second_run : ring * result EncryptedRecordEnvelope := encrypt_frames toy_sha 78 3 (u "rev") toy_frames ring_provider toy_date ring_rotated.
Definition second_envelope : EncryptedRecordEnvelope := match second_run.2 with Ok e => e | Raise _ => no_envelope end.
Definition ring_stale : ring := (run_keyring no_int (KRotate (env_key ring_envelope)) second_run.1).1.

Example stale_rotation_loses_a_record :
  (decrypt_frames toy_sha second_envelope ring_provider second_run.1).2 = Ok toy_frames /\
  (decrypt_frames toy_sha second_envelope ring_provider ring_stale).2 = Raise (EncryptionFailure 78 AUTHENTICATION_FAILED).
Proof. vm_compute. split; reflexivity. Qed.
