(* ===== verification/Backup.v ===== *)
(** * Backup: encrypted archives of the stored records.

    Models [backup/archive.py] and [backup/engine.py]: the archive container,
    exporting the stored envelopes into it and restoring them into another
    storage.  The files, the clock and the restored storage are the class
    [BackupPorts], the exported one [RetentionStorage]; the recipient
    encryption is a value of [BackupCrypter]. *)

From S2P Require Import Prelude PyStr Utf8 Json PyLib PyData Storage Catalog Codec Retention Vault.

(** ** [backup/archive.py] *)

Definition BACKUP_MAGIC : pybytes := u "LRBACKUP".
Definition BACKUP_FORMAT_VERSION : Z := 1.
Definition MAX_MANIFEST_BYTES : Z := 2 ^ 20.
(** [struct.calcsize(">8sBHI")] *)
Definition BACKUP_PREFIX_SIZE : nat := 15.

Record ArchiveManifest := {
  am_format_version : Z; am_schema_version : Z; am_created_at : pystr; am_record_count : Z; am_body_digest : pystr }.
Record BackupArchive := { ba_manifest : ArchiveManifest; ba_envelopes : list EncryptedRecordEnvelope }.

(** [struct.pack] of one unsigned integer of [width] bytes, and back *)
Definition pack_uint (width : nat) (n : Z) : result pybytes :=
  _ ← throw_if ((n <? 0) || (256 ^ Z.of_nat width <=? n)) StructError; mret (be_digits 256 width n).
Definition unpack_uint (first width : nat) (data : pybytes) : Z := be_value 256 (slice first width data).

Definition manifest_dict (digest created_at : pystr) (record_count schema_version : Z) : list (pystr * json) :=
  [(u "body_digest", JStr digest);
   (u "created_at", JStr created_at);
   (u "format_version", JInt BACKUP_FORMAT_VERSION);
   (u "record_count", JInt record_count);
   (u "schema_version", JInt schema_version)].
Definition MANIFEST_KEYS : list pystr :=
  [u "body_digest"; u "created_at"; u "format_version"; u "record_count"; u "schema_version"].
Definition canonical_json (payload : list (pystr * json)) : result pybytes := text ← dumps (JDict payload); utf8_encode text.

Definition int_field (values : json) (key : pystr) : result Z :=
  value ← subscript values key; match value with JInt n => Ok n | _ => Raise RestoreFailure end.
Definition str_field (values : json) (key : pystr) : result pystr :=
  value ← subscript values key; match value with JStr s => Ok s | _ => Raise RestoreFailure end.

(** [set(loaded)]: its elements must be hashable. *)
Definition hashable (j : json) : bool := match j with JList _ | JDict _ => false | _ => true end.
Definition is_text_in (names : list pystr) (j : json) : bool :=
  match j with JStr s => bool_decide (s ∈ names) | _ => false end.
Definition set_equals (j : json) (names : list pystr) : result bool :=
  elements ← iterate j;
  _ ← throw_if (negb (forallb hashable elements)) TypeError;
  mret (forallb (fun n => existsb (is_text_in [n]) elements) names && forallb (is_text_in names) elements).

Definition load_manifest (raw : pybytes) : result json :=
  loaded ← match (text ← utf8_decode raw; loads header_decoder text) with
           | Raise e => Raise (if bool_decide (e = ValueError) then RestoreFailure else e)
           | r => r
           end;
  same ← set_equals loaded MANIFEST_KEYS;
  _ ← throw_if (negb same) RestoreFailure;
  mret loaded.

Section Archive.
Context `{EnvelopeCodec}.
(** [hashlib.sha256(b).hexdigest()] *)
Variable hexdigest : pybytes -> pystr.

Fixpoint archive_body (envelopes : list EncryptedRecordEnvelope) : result pybytes :=
  match envelopes with
  | [] => mret []
  | envelope :: rest =>
      blob ← encode_envelope envelope;
      size ← pack_uint 4 (zlen blob);
      body ← archive_body rest;
      mret (size ++ blob ++ body)
  end.

(** What [BackupArchive.write] writes to its file *)
Definition archive_bytes (envelopes : list EncryptedRecordEnvelope) (created_at : pystr) (schema_version : Z) : result pybytes :=
  body ← archive_body envelopes;
  manifest_bytes ← canonical_json (manifest_dict (hexdigest body) created_at (zlen envelopes) schema_version);
  manifest_len ← pack_uint 2 (zlen manifest_bytes);
  body_len ← pack_uint 4 (zlen body);
  mret (BACKUP_MAGIC ++ [BACKUP_FORMAT_VERSION] ++ manifest_len ++ body_len ++ manifest_bytes ++ body).

(** [except StorageFailure] around [decode_envelope] *)
Definition decode_record (blob : pybytes) (max_blob_bytes : Z) : result EncryptedRecordEnvelope :=
  match decode_envelope blob max_blob_bytes with Raise (StorageFailure _) => Raise RestoreFailure | r => r end.

(** The loop on [cursor]; [body] is what is left of the body, [fuel] its
    length: every turn takes four bytes at least. *)
Fixpoint read_records (fuel : nat) (body : pybytes) (max_blob_bytes : Z) : result (list EncryptedRecordEnvelope) :=
  match body, fuel with
  | [], _ => mret []
  | _, O => Raise OutOfFuel
  | _, S fuel' =>
      _ ← throw_if (zlen body <? 4) RestoreFailure;
      let blob_len := unpack_uint 0 4 body in
      let body := drop 4 body in
      _ ← throw_if (zlen body <? blob_len) RestoreFailure;
      envelope ← decode_record (take (Z.to_nat blob_len) body) max_blob_bytes;
      rest ← read_records fuel' (drop (Z.to_nat blob_len) body) max_blob_bytes;
      mret (envelope :: rest)
  end.

Definition manifest_of (raw : json) : result ArchiveManifest :=
  format_version ← int_field raw (u "format_version");
  schema_version ← int_field raw (u "schema_version");
  created_at ← str_field raw (u "created_at");
  record_count ← int_field raw (u "record_count");
  body_digest ← str_field raw (u "body_digest");
  mret {| am_format_version := format_version; am_schema_version := schema_version; am_created_at := created_at;
          am_record_count := record_count; am_body_digest := body_digest |}.

(** [BackupArchive.read] of the file's bytes *)
Definition read_archive (data : pybytes) (max_blob_bytes : Z) (expected_schema_version : option Z) : result BackupArchive :=
  _ ← throw_if (zlen data <? Z.of_nat BACKUP_PREFIX_SIZE) RestoreFailure;
  _ ← throw_if (negb (bool_decide (slice 0 8 data = BACKUP_MAGIC)) || negb (unpack_uint 8 1 data =? BACKUP_FORMAT_VERSION))
        RestoreFailure;
  let manifest_len := unpack_uint 9 2 data in
  let rest := drop BACKUP_PREFIX_SIZE data in
  _ ← throw_if ((MAX_MANIFEST_BYTES <? manifest_len) || (zlen rest <? manifest_len)) RestoreFailure;
  manifest_raw ← load_manifest (take (Z.to_nat manifest_len) rest);
  manifest ← manifest_of manifest_raw;
  _ ← throw_if (match expected_schema_version with Some v => negb (am_schema_version manifest =? v) | None => false end)
        RestoreFailure;
  let body := drop (Z.to_nat manifest_len) rest in
  _ ← throw_if (negb (bool_decide (hexdigest body = am_body_digest manifest))) RestoreFailure;
  envelopes ← read_records (length body) body max_blob_bytes;
  _ ← throw_if (negb (zlen envelopes =? am_record_count manifest)) RestoreFailure;
  mret {| ba_manifest := manifest; ba_envelopes := envelopes |}.
End Archive.

(** ** [backup/engine.py] *)

Definition CURRENT_STORAGE_SCHEMA_VERSION : Z := 2.

(** [path.read_bytes()]; opening, truncating and writing a file; the clock's
    ISO text; and the storage restored into *)
Class BackupPorts (W : Type) := {
  read_bytes : pystr -> M W pybytes;
  write_bytes : pystr -> pybytes -> M W unit;
  now_text : M W pystr;
  target_stats : M W StorageUsageReport;
  target_get : uuid -> M W (option EncryptedRecordEnvelope);
  target_put : EncryptedRecordEnvelope -> M W StoredRecordRef }.

Record BackupCrypter (W : Type) := { bc_encrypt : pybytes -> M W pybytes; bc_decrypt : pybytes -> M W pybytes }.
Arguments bc_encrypt {W}. Arguments bc_decrypt {W}.
(** [export_decision] and [restore_decision]: count and success *)
Record BackupAudit (W : Type) := { au_export : Z -> bool -> M W unit; au_restore : Z -> bool -> M W unit }.
Arguments au_export {W}. Arguments au_restore {W}.

Section Engine.
Context `{EnvelopeCodec} {W : Type} `{RetentionStorage W} `{BackupPorts W}.
Variable hexdigest : pybytes -> pystr.
Variables (audit : option (BackupAudit W)) (max_blob_bytes : Z) (crypter : option (BackupCrypter W)).

Definition audit_export (count : Z) (succeeded : bool) : M W unit :=
  match audit with Some a => au_export a count succeeded | None => mret tt end.
Definition audit_restore (count : Z) (succeeded : bool) : M W unit :=
  match audit with Some a => au_restore a count succeeded | None => mret tt end.

(** The bounds of the window, when given, as days *)
Definition before_window (start : option datetime) (entry : CatalogEntry) : result bool :=
  match start with Some s => day ← start_day_of s; mret (ce_day_bucket entry <? day) | None => mret false end.
Definition after_window (end_ : option datetime) (entry : CatalogEntry) : result bool :=
  match end_ with Some e => day ← start_day_of e; mret (day <? ce_day_bucket entry) | None => mret false end.

(** The [for entry in page.entries] *)
Fixpoint collect_page (start end_ : option datetime) (entries : list CatalogEntry) (envelopes : list EncryptedRecordEnvelope)
    : M W (list EncryptedRecordEnvelope) :=
  match entries with
  | [] => mret envelopes
  | entry :: entries' =>
      before ← lift (before_window start entry);
      if before : bool then collect_page start end_ entries' envelopes
      else
        after ← lift (after_window end_ entry);
        if after : bool then collect_page start end_ entries' envelopes
        else
          found ← rs_get (ce_record_id entry);
          collect_page start end_ entries' (match found with Some envelope => envelopes ++ [envelope] | None => envelopes end)
  end.
(** [_collect]; [fuel] bounds the pages walked. *)
Definition collect_envelopes (fuel : nat) (start end_ : option datetime) : M W (list EncryptedRecordEnvelope) :=
  walk_pages fuel (collect_page start end_) None None [].

(** The file is replaced by its encryption, when there is a crypter, *)
Definition seal_file (path : pystr) : M W unit :=
  match crypter with
  | None => mret tt
  | Some c =>
      data ← read_bytes path;
      payload ← bc_encrypt c data;
      _ ← (if bool_decide (payload = []) then _ ← audit_export 0 false; raise RestoreFailure else mret tt);
      write_bytes path payload
  end.
(** and back. *)
Definition unseal_file (path : pystr) : M W unit :=
  match crypter with
  | None => mret tt
  | Some c => data ← read_bytes path; plain ← bc_decrypt c data; write_bytes path plain
  end.

Definition export (fuel : nat) (path : pystr) (start end_ : option datetime) : M W Z :=
  envelopes ← collect_envelopes fuel start end_;
  created_at ← now_text;
  data ← lift (archive_bytes hexdigest envelopes created_at CURRENT_STORAGE_SCHEMA_VERSION);
  _ ← write_bytes path data;
  _ ← seal_file path;
  _ ← audit_export (zlen envelopes) true;
  mret (zlen envelopes).

Definition refuse_restore {A} : M W A := _ ← audit_restore 0 false; raise RestoreFailure.

(** The [for envelope in archive.envelopes]; the answer is [restored] and
    [skipped]. *)
Fixpoint restore_records (envelopes : list EncryptedRecordEnvelope) (seen : list uuid) (restored skipped : Z) : M W (Z * Z) :=
  match envelopes with
  | [] => mret (restored, skipped)
  | envelope :: rest =>
      let id := env_record_id envelope in
      if bool_decide (id ∈ seen) then restore_records rest seen restored (skipped + 1)
      else
        existing ← target_get id;
        match existing with
        | Some existing =>
            stored ← lift (encode_envelope existing);
            given ← lift (encode_envelope envelope);
            if negb (bool_decide (stored = given)) then refuse_restore
            else restore_records rest (id :: seen) restored (skipped + 1)
        | None =>
            _ ← try_except (_ ← target_put envelope; mret tt)
                  (fun e => match e with StorageFailure _ => refuse_restore | e => raise e end);
            restore_records rest (id :: seen) (restored + 1) skipped
        end
  end.

Definition restore (path : pystr) (allow_non_empty : bool) : M W (Z * Z) :=
  _ ← unseal_file path;
  usage ← target_stats;
  _ ← require (negb ((0 <? su_ready_records usage) && negb allow_non_empty)) RestoreFailure;
  data ← read_bytes path;
  archive ← lift (read_archive hexdigest data max_blob_bytes (Some CURRENT_STORAGE_SCHEMA_VERSION));
  counts ← restore_records (ba_envelopes archive) [] 0 0;
  _ ← audit_restore counts.1 true;
  mret counts.
End Engine.
