(* ===== verification/BackupFacts.v ===== *)
(** * BackupFacts: archives read back, and what restoring does.

    An archive reads back as written and no prefix or extension of it does;
    restoring copies exactly the archive's records and overwrites none. *)

From S2P Require Import Prelude PyStr Utf8 Json JsonFacts PyLib PyData Storage StorageFacts StorageProps Catalog Codec CodecFacts Retention RetentionFacts Backup.

(** ** Integers and slices *)

Lemma pack_uint_ok w n b : pack_uint w n = Ok b -> 0 <= n < 256 ^ Z.of_nat w /\ length b = w /\ be_value 256 b = n.
Proof.
  unfold pack_uint. intros E. apply result_bind_ok in E as (?&Hn%throw_if_ok&[= <-]). btauto_hyps.
  split; [lia|]. split; [apply be_digits_length|]. apply be_value_digits; lia.
Qed.

Lemma unpack_uint_head b rest : unpack_uint 0 (length b) (b ++ rest) = be_value 256 b.
Proof. unfold unpack_uint, slice. by rewrite drop_0, take_app_length. Qed.

Lemma take_zlen {A} (l r : list A) : take (Z.to_nat (zlen l)) (l ++ r) = l.
Proof. rewrite zlen_nat. apply take_app_length. Qed.
Lemma drop_zlen {A} (l r : list A) : drop (Z.to_nat (zlen l)) (l ++ r) = r.
Proof. rewrite zlen_nat. apply drop_app_length. Qed.

(** ** The manifest *)

Lemma manifest_keys a b c d e : set_equals (JDict (manifest_dict a b c d)) MANIFEST_KEYS = Ok true /\
  (e = JDict (manifest_dict a b c d) ->
   int_field e (u "format_version") = Ok BACKUP_FORMAT_VERSION /\ int_field e (u "schema_version") = Ok d /\
   str_field e (u "created_at") = Ok b /\ int_field e (u "record_count") = Ok c /\ str_field e (u "body_digest") = Ok a).
Proof. split; [vm_compute; reflexivity|]. intros ->. repeat split; vm_compute; reflexivity. Qed.

Lemma manifest_round_trip digest created_at count schema b :
  forallb is_scalar digest = true -> forallb is_scalar created_at = true ->
  canonical_json (manifest_dict digest created_at count schema) = Ok b ->
  load_manifest b = Ok (JDict (manifest_dict digest created_at count schema)).
Proof.
  intros Hd Hc E. unfold canonical_json in E. apply result_bind_ok in E as (text&Ht&Hb).
  assert (loads header_decoder text = Ok (JDict (manifest_dict digest created_at count schema))) as Hl.
  { apply loads_printed; [done| |exact Ht]. unfold manifest_dict. cbn [printable forallb fst snd]. rewrite Hd, Hc. vm_compute. reflexivity. }
  unfold load_manifest. rewrite (utf8_round_trip _ _ Hb), result_bind_ret, Hl, result_bind_ret.
  rewrite (proj1 (manifest_keys digest created_at count schema JNull)), result_bind_ret. done.
Qed.

Section Archives.
Context `{EnvelopeCodec}.
Variable hexdigest : pybytes -> pystr.
(** [hexdigest] answers text. *)
Hypothesis hexdigest_scalar : forall b, forallb is_scalar (hexdigest b) = true.

(** Envelopes the program can construct, whose blobs the reader accepts *)
Definition archivable (max : Z) (e : EncryptedRecordEnvelope) : Prop :=
  codec_valid e = true /\ forall b, encode_envelope e = Ok b -> zlen b <= max.

Lemma read_body es body max fuel : archive_body es = Ok body -> Forall (archivable max) es ->
  (length body <= fuel)%nat -> read_records fuel body max = Ok es.
Proof.
  intros Hb Hes. revert body fuel Hb. induction Hes as [|e es [Hv Hm] _ IH]; intros body fuel Hb Hf; cbn [archive_body] in Hb.
  - injection Hb as <-. by destruct fuel.
  - apply result_bind_ok in Hb as (blob&He&Hb). apply result_bind_ok in Hb as (size&Hs&Hb).
    apply result_bind_ok in Hb as (rest&Hr&Hb). injection Hb as <-. apply pack_uint_ok in Hs as (Hn&Hl&Hval).
    rewrite !length_app, Hl in Hf. destruct fuel as [|fuel]; [lia|].
    destruct size as [|x size]; [done|]. cbn [app read_records].
    change (x :: size ++ blob ++ rest) with ((x :: size) ++ blob ++ rest).
    rewrite !zlen_app. pose proof (zlen_nonneg blob). pose proof (zlen_nonneg rest).
    assert (zlen (x :: size) = 4) as -> by (unfold zlen; lia).
    rewrite (proj2 (Z.ltb_ge (4 + _) 4)) by lia. rewrite throw_if_false, result_bind_ret.
    assert (unpack_uint 0 4 ((x :: size) ++ blob ++ rest) = zlen blob) as ->.
    { rewrite <- Hl, unpack_uint_head. exact Hval. }
    assert (drop 4 ((x :: size) ++ blob ++ rest) = blob ++ rest) as -> by (rewrite <- Hl; apply drop_app_length).
    rewrite zlen_app, (proj2 (Z.ltb_ge (_ + _) (zlen blob))), throw_if_false, result_bind_ret, take_zlen, drop_zlen by lia.
    unfold decode_record. rewrite (codec_round_trip _ _ _ Hv He) by auto.
    rewrite result_bind_ret, (IH rest fuel) by (done || lia). done.
Qed.

(** What an archive's bytes are made of *)
Lemma archive_bytes_ok es created_at schema data : archive_bytes hexdigest es created_at schema = Ok data ->
  exists body manifest lens, archive_body es = Ok body /\
    canonical_json (manifest_dict (hexdigest body) created_at (zlen es) schema) = Ok manifest /\
    length lens = 6%nat /\ be_value 256 (take 2 lens) = zlen manifest /\ zlen manifest < 65536 /\
    data = (BACKUP_MAGIC ++ [BACKUP_FORMAT_VERSION] ++ lens) ++ manifest ++ body.
Proof.
  unfold archive_bytes. intros E. apply result_bind_ok in E as (body&Hb&E). apply result_bind_ok in E as (manifest&Hm&E).
  apply result_bind_ok in E as (l1&H1&E). apply result_bind_ok in E as (l2&H2&E). apply ret_ok in E. subst data.
  apply pack_uint_ok in H1 as (Hn1&Hl1&Hv1), H2 as (_&Hl2&_). exists body, manifest, (l1 ++ l2).
  split_and!; try done.
  - rewrite length_app. lia.
  - rewrite <- Hl1, take_app_length. exact Hv1.
  - change (256 ^ Z.of_nat 2) with 65536 in Hn1. lia.
  - by rewrite <- !(assoc_L (++)).
Qed.

(** Reading what begins as an archive does *)
Lemma read_archive_split lens manifest rest max schema : length lens = 6%nat -> be_value 256 (take 2 lens) = zlen manifest ->
  zlen manifest < 65536 ->
  read_archive hexdigest ((BACKUP_MAGIC ++ [BACKUP_FORMAT_VERSION] ++ lens) ++ manifest ++ rest) max schema =
  (raw ← load_manifest manifest; m ← manifest_of raw;
   _ ← throw_if (match schema with Some v => negb (am_schema_version m =? v) | None => false end) RestoreFailure;
   _ ← throw_if (negb (bool_decide (hexdigest rest = am_body_digest m))) RestoreFailure;
   es ← read_records (length rest) rest max;
   _ ← throw_if (negb (zlen es =? am_record_count m)) RestoreFailure;
   mret {| ba_manifest := m; ba_envelopes := es |}).
Proof.
  intros Hl Hv Hm. unfold read_archive.
  do 6 (destruct lens as [|? lens]; [done|]). destruct lens; [|done].
  set (pre := BACKUP_MAGIC ++ _). assert (length pre = 15%nat) as Hpre by reflexivity.
  assert (zlen (pre ++ manifest ++ rest) <? Z.of_nat BACKUP_PREFIX_SIZE = false) as ->.
  { apply Z.ltb_ge. rewrite zlen_app. pose proof (zlen_nonneg (manifest ++ rest)).
    unfold zlen at 1, BACKUP_PREFIX_SIZE. rewrite Hpre. lia. }
  rewrite throw_if_false, result_bind_ret.
  rewrite throw_if_false, result_bind_ret.
  change (unpack_uint 9 2 (pre ++ manifest ++ rest)) with (be_value 256 (take 2 [z; z0; z1; z2; z3; z4])). rewrite Hv.
  assert (drop BACKUP_PREFIX_SIZE (pre ++ manifest ++ rest) = manifest ++ rest) as ->.
  { unfold BACKUP_PREFIX_SIZE. rewrite <- Hpre. apply drop_app_length. }
  rewrite (proj2 (Z.ltb_ge _ _)) by (unfold MAX_MANIFEST_BYTES; lia).
  rewrite zlen_app, (proj2 (Z.ltb_ge _ _)) by (pose proof (zlen_nonneg rest); lia). cbn [orb].
  rewrite throw_if_false, result_bind_ret, take_zlen, drop_zlen. done.
Qed.

Definition written_manifest (body : pybytes) (created_at : pystr) (count schema : Z) : ArchiveManifest :=
  {| am_format_version := BACKUP_FORMAT_VERSION; am_schema_version := schema; am_created_at := created_at;
     am_record_count := count; am_body_digest := hexdigest body |}.

Lemma manifest_of_written body created_at count schema :
  manifest_of (JDict (manifest_dict (hexdigest body) created_at count schema)) = Ok (written_manifest body created_at count schema).
Proof.
  destruct (proj2 (manifest_keys (hexdigest body) created_at count schema _) eq_refl) as (H1&H2&H3&H4&H5).
  unfold manifest_of. by rewrite H1, result_bind_ret, H2, result_bind_ret, H3, result_bind_ret, H4, result_bind_ret, H5, result_bind_ret.
Qed.

Lemma short_archive data lens manifest max schema : length lens = 6%nat -> be_value 256 (take 2 lens) = zlen manifest ->
  (exists rest, (BACKUP_MAGIC ++ [BACKUP_FORMAT_VERSION] ++ lens) ++ manifest = data ++ rest) ->
  (length data < 15 + length manifest)%nat -> read_archive hexdigest data max schema = Raise RestoreFailure.
Proof.
  intros Hl Hv [rest Hd] Hlt. unfold read_archive.
  destruct (Z.ltb_spec (zlen data) (Z.of_nat BACKUP_PREFIX_SIZE)) as [Hs|Hs]; [done|]. unfold zlen, BACKUP_PREFIX_SIZE in Hs.
  rewrite throw_if_false, result_bind_ret. set (pre := BACKUP_MAGIC ++ [BACKUP_FORMAT_VERSION] ++ lens) in *.
  assert (length pre = 15%nat) as Hpre by (unfold pre; rewrite !length_app, Hl; reflexivity).
  assert (exists m, data = pre ++ m /\ (length m < length manifest)%nat) as (m&->&Hm).
  { exists (drop 15 data). rewrite length_drop. split; [|lia]. rewrite <- (take_drop 15 data) at 1. f_equal.
    apply (f_equal (take 15)) in Hd. rewrite take_app_le in Hd by lia. rewrite take_app_le in Hd by lia.
    by rewrite take_ge in Hd by lia. }
  unfold pre in *. clear pre. do 6 (destruct lens as [|? lens]; [done|]). destruct lens; [|done].
  match goal with |- (throw_if ?c _ ≫= _) = _ => destruct c; [done|] end. rewrite throw_if_false, result_bind_ret.
  set (pre := BACKUP_MAGIC ++ _) in *.
  change (unpack_uint 9 2 (pre ++ m)) with (be_value 256 (take 2 [z; z0; z1; z2; z3; z4])). rewrite Hv.
  assert (drop BACKUP_PREFIX_SIZE (pre ++ m) = m) as -> by (unfold BACKUP_PREFIX_SIZE; rewrite <- Hpre; apply drop_app_length).
  assert (zlen m <? zlen manifest = true) as -> by (apply Z.ltb_lt; unfold zlen; lia). by rewrite orb_true_r.
Qed.

Lemma archive_other body rest manifest lens created_at count schema max :
  forallb is_scalar created_at = true -> canonical_json (manifest_dict (hexdigest body) created_at count schema) = Ok manifest ->
  length lens = 6%nat -> be_value 256 (take 2 lens) = zlen manifest -> zlen manifest < 65536 ->
  read_archive hexdigest ((BACKUP_MAGIC ++ [BACKUP_FORMAT_VERSION] ++ lens) ++ manifest ++ rest) max (Some schema) =
  (_ ← throw_if (negb (bool_decide (hexdigest rest = hexdigest body))) RestoreFailure;
   es ← read_records (length rest) rest max;
   _ ← throw_if (negb (zlen es =? count)) RestoreFailure;
   mret {| ba_manifest := written_manifest body created_at count schema; ba_envelopes := es |}).
Proof.
  intros Hc Hm Hl Hv Hs. rewrite read_archive_split by done.
  rewrite (manifest_round_trip _ _ _ _ _ (hexdigest_scalar body) Hc Hm), result_bind_ret, manifest_of_written, result_bind_ret.
  cbn [am_schema_version am_body_digest am_record_count written_manifest]. rewrite Z.eqb_refl. cbn [negb].
  by rewrite throw_if_false, result_bind_ret.
Qed.

Lemma archive_reads es created_at schema max data : Forall (archivable max) es -> forallb is_scalar created_at = true ->
  archive_bytes hexdigest es created_at schema = Ok data ->
  exists m, read_archive hexdigest data max (Some schema) = Ok {| ba_manifest := m; ba_envelopes := es |} /\
     am_schema_version m = schema /\ am_created_at m = created_at /\ am_record_count m = zlen es.
Proof.
  intros Hes Hc (body&manifest&lens&Hb&Hm&Hl&Hv&Hs&->)%archive_bytes_ok.
  exists (written_manifest body created_at (zlen es) schema). split; [|done]. rewrite (archive_other body body manifest lens created_at (zlen es)) by done.
  rewrite bool_decide_true by done. cbn [negb]. rewrite throw_if_false, result_bind_ret, (read_body es) by done.
  by rewrite result_bind_ret, Z.eqb_refl.
Qed.

(** [archive_round_trip]: reading an archive gives back the envelopes it
    was written from and its manifest; and, as no other body has its digest,
    no proper prefix of the archive and no extension of it is read. *)
Theorem archive_round_trip es created_at schema max data :
  (forall b b', hexdigest b = hexdigest b' -> b = b') ->
  Forall (archivable max) es -> forallb is_scalar created_at = true ->
  archive_bytes hexdigest es created_at schema = Ok data ->
  (exists m, read_archive hexdigest data max (Some schema) = Ok {| ba_manifest := m; ba_envelopes := es |} /\
     am_schema_version m = schema /\ am_created_at m = created_at /\ am_record_count m = zlen es) /\
  (forall n, (n < length data)%nat -> read_archive hexdigest (take n data) max (Some schema) = Raise RestoreFailure) /\
  (forall extra, extra <> [] -> read_archive hexdigest (data ++ extra) max (Some schema) = Raise RestoreFailure).
Proof.
  intros Hinj Hes Hc Hdata. split; [by apply archive_reads|].
  apply archive_bytes_ok in Hdata as (body&manifest&lens&_&Hm&Hl&Hv&Hs&->).
  assert (Hother : forall rest, rest <> body ->
    read_archive hexdigest ((BACKUP_MAGIC ++ [BACKUP_FORMAT_VERSION] ++ lens) ++ manifest ++ rest) max (Some schema) = Raise RestoreFailure).
  { intros rest Hne. rewrite (archive_other body rest manifest lens created_at (zlen es)) by done.
    by rewrite bool_decide_false by (intros E; by apply Hne, Hinj). }
  split.
  - intros n Hn. set (pre := BACKUP_MAGIC ++ [BACKUP_FORMAT_VERSION] ++ lens) in *.
    assert (length pre = 15%nat) as Hpre by (unfold pre; rewrite !length_app, Hl; reflexivity).
    rewrite !length_app in Hn. destruct (decide (n < 15 + length manifest)%nat) as [Hlt|Hge].
    + apply (short_archive _ lens manifest); [done..| |rewrite length_take; lia]. fold pre.
      exists (drop n (pre ++ manifest)). rewrite (assoc_L (++)), take_app_le by (rewrite length_app; lia). by rewrite take_drop.
    + rewrite take_app_ge, take_app_ge by lia. apply Hother. intros E. apply (f_equal length) in E. rewrite length_take in E. lia.
  - intros extra Hx. rewrite <- !(assoc_L (++)), (assoc_L (++) BACKUP_MAGIC), (assoc_L (++) (BACKUP_MAGIC ++ _)).
    rewrite <- (assoc_L (++) BACKUP_MAGIC). apply Hother. intros E. apply (f_equal length) in E. rewrite length_app in E.
    destruct extra; [done|]. cbn in E. lia.
Qed.
End Archives.

(** ** What reading raises *)

Lemma field_present d key : key ∈ d.*1 -> exists j, field d key = Ok j.
Proof.
  intros Hk. unfold field, dict_get. destruct (list_find (fun kv => kv.1 = key) d) as [[i kv]|] eqn:E; [by eexists|].
  apply list_find_None in E. rewrite Forall_forall in E. apply list_elem_of_fmap in Hk as (kv&->&Hin). by destruct (E kv Hin).
Qed.

(** Every manifest field is there, or the manifest is no dictionary. *)
Lemma manifest_subscript raw key : set_equals raw MANIFEST_KEYS = Ok true -> key ∈ MANIFEST_KEYS ->
  (exists j, subscript raw key = Ok j) \/ subscript raw key = Raise TypeError.
Proof.
  intros Hs Hk. destruct raw as [| | | | | |d]; try by right. left. apply field_present.
  unfold set_equals, iterate in Hs. rewrite result_bind_ret in Hs. apply result_bind_ok in Hs as (?&_&Hs). apply ret_ok in Hs. symmetry in Hs.
  apply andb_true_iff in Hs as [Hs _]. rewrite List.forallb_forall in Hs. apply list_elem_of_In in Hk. specialize (Hs key Hk).
  apply existsb_exists in Hs as (j&Hj&Ht). apply list_elem_of_In, list_elem_of_fmap in Hj as (k&->&Hin).
  cbn in Ht. apply bool_decide_eq_true in Ht. apply list_elem_of_singleton in Ht. by subst.
Qed.

Definition reader_error (e : exn) : Prop := e = RestoreFailure \/ e = TypeError \/ e = TooManyDigits.

Lemma set_equals_errors j names e : set_equals j names = Raise e -> e = TypeError.
Proof.
  unfold set_equals. destruct (iterate j) as [l|x] eqn:Ei; [rewrite result_bind_ret|].
  - destruct (negb _); [intros E|rewrite throw_if_false; intros E]; [by injection E as <-|done].
  - destruct j; try done; injection Ei as <-; intros E; by injection E as <-.
Qed.

Lemma load_manifest_errors raw : match load_manifest raw with
  | Ok j => set_equals j MANIFEST_KEYS = Ok true | Raise e => reader_error e end.
Proof.
  unfold load_manifest, reader_error.
  destruct (match (text ← utf8_decode raw; loads header_decoder text) with Raise e => _ | r => r end) as [j|e] eqn:E.
  - rewrite result_bind_ret. destruct (set_equals j MANIFEST_KEYS) as [[]|x] eqn:Es.
    + rewrite result_bind_ret. exact Es.
    + rewrite result_bind_ret. by left.
    + right. left. by eapply set_equals_errors.
  - cbn. pose proof (utf8_decode_errors raw) as Hu. destruct (utf8_decode raw) as [text|x]; cbn in E, Hu.
    + destruct (loads header_decoder text) as [j|x] eqn:El; [done|].
      apply (loads_errors header_decoder) in El; [|done]. injection E as <-. destruct El as [-> | ->]; cbn; auto.
    + injection E as <-. rewrite Hu. rewrite bool_decide_true by done. by left.
Qed.

Lemma int_field_errors raw key : set_equals raw MANIFEST_KEYS = Ok true -> key ∈ MANIFEST_KEYS ->
  match int_field raw key with Ok _ => True | Raise e => reader_error e end.
Proof.
  intros Hs Hk. unfold int_field, reader_error. destruct (manifest_subscript raw key Hs Hk) as [[j ->]| ->]; [|cbn; auto].
  destruct j; cbn; auto.
Qed.
Lemma str_field_errors raw key : set_equals raw MANIFEST_KEYS = Ok true -> key ∈ MANIFEST_KEYS ->
  match str_field raw key with Ok _ => True | Raise e => reader_error e end.
Proof.
  intros Hs Hk. unfold str_field, reader_error. destruct (manifest_subscript raw key Hs Hk) as [[j ->]| ->]; [|cbn; auto].
  destruct j; cbn; auto.
Qed.

Lemma manifest_of_errors raw : set_equals raw MANIFEST_KEYS = Ok true ->
  match manifest_of raw with Ok _ => True | Raise e => reader_error e end.
Proof.
  intros Hs. unfold manifest_of.
  assert (Hin : forall key, is_text_in MANIFEST_KEYS (JStr key) = true -> key ∈ MANIFEST_KEYS) by (intros key; apply bool_decide_eq_true).
  pose proof (int_field_errors raw (u "format_version") Hs (Hin (u "format_version") eq_refl)) as Hf. destruct (int_field raw (u "format_version")); [rewrite result_bind_ret; clear Hf|exact Hf].
  pose proof (int_field_errors raw (u "schema_version") Hs (Hin (u "schema_version") eq_refl)) as Hf. destruct (int_field raw (u "schema_version")); [rewrite result_bind_ret; clear Hf|exact Hf].
  pose proof (str_field_errors raw (u "created_at") Hs (Hin (u "created_at") eq_refl)) as Hf. destruct (str_field raw (u "created_at")); [rewrite result_bind_ret; clear Hf|exact Hf].
  pose proof (int_field_errors raw (u "record_count") Hs (Hin (u "record_count") eq_refl)) as Hf. destruct (int_field raw (u "record_count")); [rewrite result_bind_ret; clear Hf|exact Hf].
  pose proof (str_field_errors raw (u "body_digest") Hs (Hin (u "body_digest") eq_refl)) as Hf. destruct (str_field raw (u "body_digest")); [done|exact Hf].
Qed.

Section Errors.
Context `{EnvelopeCodec}.
Variable hexdigest : pybytes -> pystr.

(** What [decode_envelope] raises besides its own failures *)
Definition decoder_error (max : Z) (e : exn) : Prop :=
  (forall c, e <> StorageFailure c) /\ exists blob, decode_envelope blob max = Raise e.

Lemma throw_if_raises {A} c x (k : unit -> result A) e : (throw_if c x ≫= k) = Raise e -> e = x \/ k tt = Raise e.
Proof. destruct c; cbn; [intros [= <-]; by left|by right]. Qed.

Lemma read_records_errors fuel body max e : (length body <= fuel)%nat -> read_records fuel body max = Raise e ->
  e = RestoreFailure \/ decoder_error max e.
Proof.
  revert body. induction fuel as [|fuel IH]; intros [|x body] Hf; cbn [length] in Hf; try done; [lia|]. cbn [read_records].
  intros E. apply throw_if_raises in E as [->|E]; [by left|]. apply throw_if_raises in E as [->|E]; [by left|].
  revert E. set (n := Z.to_nat _). unfold decode_record.
  destruct (decode_envelope (take n (drop 4 (x :: body))) max) as [env|ex] eqn:Ed.
  - rewrite result_bind_ret. destruct (read_records fuel (drop n (drop 4 (x :: body))) max) as [rest|ex] eqn:Er; [done|].
    intros [= <-]. apply (IH (drop n (drop 4 (x :: body)))); [|exact Er]. rewrite !length_drop. cbn [length]. lia.
  - destruct ex; try (intros [= <-]; right; split; [done|by eexists]). intros [= <-]. by left.
Qed.

(** [archive_errors]: whatever the bytes of a file, reading it as an
    archive ends, with an archive or one of these exceptions: the fixed
    [RestoreFailure]; the [TypeError] of a manifest that is JSON but no
    object; the [ValueError] of an integer of more than 4300 digits; or what
    the envelope codec lets through.  (Python's recursion limit, which deeply
    nested JSON can reach, is not modelled.) *)
Theorem archive_errors data max schema e : read_archive hexdigest data max schema = Raise e ->
  e = RestoreFailure \/ e = TypeError \/ e = TooManyDigits \/ decoder_error max e.
Proof.
  unfold read_archive. intros E.
  assert (Hr : reader_error e -> e = RestoreFailure \/ e = TypeError \/ e = TooManyDigits \/ decoder_error max e) by (unfold reader_error; tauto).
  apply throw_if_raises in E as [->|E]; [auto|]. apply throw_if_raises in E as [->|E]; [auto|]. apply throw_if_raises in E as [->|E]; [auto|].
  set (raw := take _ _) in E. pose proof (load_manifest_errors raw) as Hl. destruct (load_manifest raw) as [j|x]; cbn in E.
  2:{ injection E as <-. by apply Hr. }
  pose proof (manifest_of_errors j Hl) as Hm. destruct (manifest_of j) as [m|x]; cbn in E; [|injection E as <-; by apply Hr].
  apply throw_if_raises in E as [->|E]; [auto|]. apply throw_if_raises in E as [->|E]; [auto|].
  destruct (read_records _ _ max) as [es|x] eqn:Eb; cbn in E.
  - apply throw_if_raises in E as [->|E]; [auto|]. done.
  - injection E as <-. apply read_records_errors in Eb as [->|Hd]; auto.
Qed.
End Errors.
