(* ===== verification/BackupProps.v ===== *)
(** * BackupProps: what exporting and restoring do to the storages.

    A world with the exported storage, the one restored into, and files, on
    which calls may fail; what restoring leaves there; and the round trip from
    one storage into another, with an example that runs. *)

From S2P Require Import Prelude PyStr Utf8 Json JsonFacts PyLib PyData Storage StorageFacts StorageProps Catalog Codec CodecFacts Retention RetentionFacts Vault Backup BackupFacts.

(** ** More on [put] *)

Section Put.
Context `{EnvelopeCodec}.
Variables (sha256 : pybytes -> pybytes) (quota_bytes max_blob_bytes : Z).

Local Abbreviation content := (content sha256 max_blob_bytes).
Local Abbreviation wf := (wf sha256 max_blob_bytes).
Local Abbreviation visible := (visible sha256 max_blob_bytes).
Local Abbreviation put := (put sha256 quota_bytes max_blob_bytes).

(** Rows stay; only the record put may get one. *)
Lemma put_rows fault e s : wp (put fault e) (fun r s' =>
  (forall id row, s_records s !! id = Some row -> s_records s' !! id = Some row) /\
  (forall id, id <> env_record_id e -> s_records s' !! id = s_records s !! id) /\
  (s_records s !! env_record_id e = None -> is_Some (s_intents s !! env_record_id e) -> s' = s /\ is_ok r = false) /\
  (is_ok r = true -> s_records s !! env_record_id e = None -> is_Some (s_records s' !! env_record_id e))) s.
Proof.
  assert (Hsame : forall s', s_records s' = s_records s -> s_intents s !! env_record_id e = None -> forall x : exn,
    (forall id row, s_records s !! id = Some row -> s_records s' !! id = Some row) /\
    (forall id, id <> env_record_id e -> s_records s' !! id = s_records s !! id) /\
    (s_records s !! env_record_id e = None -> is_Some (s_intents s !! env_record_id e) -> s' = s /\ is_ok (Raise x : result StoredRecordRef) = false) /\
    (is_ok (Raise x : result StoredRecordRef) = true -> s_records s !! env_record_id e = None -> is_Some (s_records s' !! env_record_id e))).
  { intros s' Hs' Hi x. rewrite Hs', Hi. by split_and!. }
  unfold Storage.put. apply wp_bind, wp_lift. destruct (encode_envelope e) as [blob|]; [|done].
  apply wp_bind, wp_require; intros _; [|done]. apply wp_bind, wp_lift. destruct (blob_token _) as [token|]; [|done].
  apply wp_bind, wp_gets. destruct (s_records s !! env_record_id e) as [[old st]|] eqn:Hr.
  { case_bool_decide; [by apply wp_ret|by apply wp_raise]. }
  apply wp_bind, wp_gets, wp_bind, wp_require; intros _; [|done]. apply wp_bind, wp_gets, wp_bind, wp_try_except, wp_bind.
  apply wp_require; intros Hi; btauto_hyps; [|by apply wp_raise].
  unfold put_steps. apply wp_bind, wp_modify, wp_bind, wp_require; intros _; [|by apply wp_raise, Hsame].
  unfold write_blob_atomically. apply wp_bind, wp_bind, wp_lift. destruct (blob_path _) as [path|]; [|by apply wp_raise, Hsame].
  apply wp_bind, wp_gets, wp_bind, wp_require; intros Hb; [|by apply wp_raise, Hsame].
  apply wp_bind, wp_modify, wp_bind, wp_require; intros _; [|by apply wp_raise, Hsame].
  apply wp_modify. apply wp_bind, wp_require; intros _; [|by apply wp_raise, Hsame]. apply wp_modify, wp_ret. cbn.
  split_and!.
  - intros id row Hid. rewrite lookup_insert_ne; [done|]. intros <-. congruence.
  - intros id Hne. by rewrite lookup_insert_ne.
  - rewrite Hi. by intros _ [].
  - intros _ _. rewrite lookup_insert_eq. by eexists.
Qed.

(** What is readable after a put was so before, or is what was put; and
    nothing readable is lost. *)
Lemma put_visible fault e s : wf s -> codec_valid e = true -> wp (put fault e) (fun r s' =>
  wf s' /\ (forall id row, s_records s !! id = Some row -> s_records s' !! id = Some row) /\
  (forall id x, visible s id = Some x -> visible s' id = Some x) /\
  (forall id x, visible s' id = Some x -> visible s id = Some x \/ id = env_record_id e /\ x = e) /\
  (is_ok r = true -> s_records s !! env_record_id e = None -> visible s' (env_record_id e) = Some e) /\
  (forall id, id <> env_record_id e -> s_records s' !! id = s_records s !! id)) s.
Proof.
  intros Hwf Hv. eapply wp_mono; [apply wp_conj; [by apply put_ok|apply (put_rows fault)]|].
  intros r s' [(Hw&Ho&Hc&Hok) (Hrow&Hne&Hint&_)]. split_and!; try done.
  - intros id x Hx. unfold StorageProps.visible in *. destruct (s_records s !! id) as [[md []]|] eqn:Hr; try done.
    rewrite (Hrow _ _ Hr). destruct (decide (id = env_record_id e)) as [->|Hid]; [|by rewrite Ho].
    destruct Hc as [->|[Hn _]]; congruence.
  - intros id x Hx. destruct (decide (id = env_record_id e)) as [->|Hid].
    2:{ left. revert Hx. unfold StorageProps.visible. by rewrite Hne, Ho. }
    pose proof (visible_content _ _ _ _ _ Hx) as Hcx. destruct Hc as [Hc|[_ Hc]]; [|right; split; congruence].
    rewrite Hc in Hcx. left. unfold StorageProps.visible. unfold StorageFacts.content in Hcx |- *.
    destruct (s_records s !! env_record_id e) as [[md []]|] eqn:Hr; try done.
    destruct (s_intents s !! env_record_id e) as [md|] eqn:Hi; [|done].
    destruct (Hint eq_refl) as [-> _]; [by eexists|]. revert Hx. unfold StorageProps.visible. by rewrite Hr.
Qed.

(** Where nothing fails, there is room and the record is new, it succeeds. *)
Lemma put_succeeds e blob s : wf s -> encode_envelope e = Ok blob -> zlen blob <= max_blob_bytes ->
  s_records s !! env_record_id e = None -> s_intents s !! env_record_id e = None ->
  content_bytes_on_disk s + zlen blob <= quota_bytes ->
  wp (put (fun _ => false) e) (fun r s' => is_ok r = true /\ content_bytes_on_disk s' = content_bytes_on_disk s + zlen blob /\
    forall id, s_intents s' !! id = s_intents s !! id) s.
Proof.
  intros Hwf He Hl Hr Hi Hq. unfold Storage.put. rewrite He. apply wp_bind, wp_lift.
  apply wp_bind, wp_require; intros Hb; [|btauto_hyps; lia]. apply wp_bind, wp_lift.
  destruct (blob_token (env_record_id e)) as [token|x] eqn:Ht.
  2:{ unfold blob_token in Ht. by rewrite (codec_encode_v4 _ _ He) in Ht. }
  apply wp_bind, wp_gets. rewrite Hr. apply wp_bind, wp_gets, wp_bind, wp_require; intros Hc; [|btauto_hyps; lia].
  apply wp_bind, wp_gets, wp_bind, wp_try_except, wp_bind, wp_require; intros Hn; [|by rewrite Hi, bool_decide_true in Hn].
  assert (Hfresh : s_blobs s !! token = None) by (by eapply (fresh_blob sha256 max_blob_bytes s (env_record_id e))).
  unfold put_steps. apply wp_bind, wp_modify, wp_bind, wp_require; intros Hx; [clear Hx|done].
  unfold write_blob_atomically. apply wp_bind, wp_bind, wp_lift.
  change (md_blob_token _) with token. rewrite (blob_token_path _ _ Ht).
  apply wp_bind, wp_gets, wp_bind, wp_require; intros Hb'; cbn in Hb'; [|by rewrite Hfresh, bool_decide_true in Hb'].
  apply wp_bind, wp_modify, wp_bind, wp_require; intros Hx; [clear Hx|done]. apply wp_modify, wp_bind, wp_require; intros Hx; [clear Hx|done].
  apply wp_modify, wp_ret. split; [done|]. split.
  - unfold content_bytes_on_disk. cbn. rewrite blobs_size_insert by done. lia.
  - intros id. cbn. destruct (decide (id = env_record_id e)) as [->|Hne]; [by rewrite lookup_delete_eq|].
    by rewrite lookup_delete_ne, lookup_insert_ne by done.
Qed.
End Put.

(** ** The world of a backup *)

Section World.
Context `{EnvelopeCodec} {W : Type} `{RetentionStorage W} `{BackupPorts W}.
Variables (sha256 : pybytes -> pybytes) (quota_bytes max_blob_bytes : Z).

Local Abbreviation wf := (wf sha256 max_blob_bytes).
Local Abbreviation visible := (visible sha256 max_blob_bytes).

(** The storages are canonical ones; reading a well-formed one does not fail.
    In a ready world nothing fails any more. *)
Class BackupLaws := {
  source : W -> store;
  target : W -> store;
  files : W -> gmap pystr pybytes;
  bk_ready : W -> Prop;
  page_law d i limit w : rs_page_ready d i limit w = (w, (page_ready d i limit (source w)).2);
  source_get_law id w : wf (source w) -> rs_get id w = (w, (get sha256 max_blob_bytes id (source w)).2);
  stats_law w : target_stats w = (w, Ok (stats (target w)));
  target_get_law id w : wf (target w) -> target_get id w = (w, (get sha256 max_blob_bytes id (target w)).2);
  target_put_law e w : wp (target_put e) (fun r w' => source w' = source w /\ files w' = files w /\
    exists fault, put sha256 quota_bytes max_blob_bytes fault e (target w) = (target w', r) /\
      (bk_ready w -> fault = (fun _ => false) /\ bk_ready w')) w;
  read_law path w : wp (read_bytes path) (fun r w' => (source w', target w', files w') = (source w, target w, files w) /\
    (forall b, r = Ok b -> files w !! path = Some b) /\
    (bk_ready w -> bk_ready w' /\ (is_Some (files w !! path) -> is_ok r = true))) w;
  write_law path b w : wp (write_bytes path b) (fun r w' => source w' = source w /\ target w' = target w /\
    (r = Ok tt -> files w' = <[path := b]> (files w)) /\ (bk_ready w -> bk_ready w' /\ r = Ok tt)) w;
  now_law w : wp now_text (fun r w' => (source w', target w', files w') = (source w, target w, files w) /\
    (forall t, r = Ok t -> forallb is_scalar t = true) /\ (bk_ready w -> bk_ready w')) w }.
Context `{BackupLaws}.

(** A call that touches neither storage nor file, and answers when ready *)
Definition quiet {A} (m : M W A) : Prop := forall w, wp m (fun r w' =>
  (source w', target w', files w') = (source w, target w, files w) /\ (bk_ready w -> bk_ready w' /\ is_ok r = true)) w.

Variable hexdigest : pybytes -> pystr.
Variable audit : option (BackupAudit W).
Hypothesis audit_quiet : forall a, audit = Some a -> forall n b, quiet (au_export a n b) /\ quiet (au_restore a n b).

Lemma audit_restore_quiet n b : quiet (audit_restore audit n b).
Proof. unfold audit_restore. destruct audit as [a|] eqn:E; [by apply (audit_quiet a)|]. intros w. by split. Qed.
Lemma audit_export_quiet n b : quiet (audit_export audit n b).
Proof. unfold audit_export. destruct audit as [a|] eqn:E; [by apply (audit_quiet a)|]. intros w. by split. Qed.

(** *** Restoring *)

Definition first_of (id : uuid) (es : list EncryptedRecordEnvelope) : option EncryptedRecordEnvelope :=
  List.find (fun e => env_record_id e =? id) es.

(** The storage [t'] is [t] with records of [es] that are not [seen]. *)
Record extended (seen : list uuid) (es : list EncryptedRecordEnvelope) (t t' : store) : Prop := {
  ex_wf : wf t';
  ex_rows id row : s_records t !! id = Some row -> s_records t' !! id = Some row;
  ex_kept id e : visible t id = Some e -> visible t' id = Some e;
  ex_from id e : visible t' id = Some e -> visible t id = Some e \/ id ∉ seen /\ first_of id es = Some e }.

(** Nothing is left to do for the records of [es]. *)
Definition complete (seen : list uuid) (es : list EncryptedRecordEnvelope) (t t' : store) : Prop :=
  forall id e, id ∉ seen -> first_of id es = Some e ->
    (s_records t !! id = None -> visible t' id = Some e) /\
    (forall e', visible t id = Some e' -> encode_envelope e' = encode_envelope e).

Lemma extended_refl seen es t : wf t -> extended seen es t t.
Proof. by split; auto. Qed.

Lemma extended_skip seen e es t t' : env_record_id e ∈ seen -> extended seen es t t' -> extended seen (e :: es) t t'.
Proof.
  intros Hin [Hw Hr Hk Hf]. split; try done. intros id x Hx. destruct (Hf id x Hx) as [|[Hs Hfi]]; [by left|right].
  split; [done|]. unfold first_of. cbn. destruct (Z.eqb_spec (env_record_id e) id) as [<-|]; [done|exact Hfi].
Qed.

Lemma earliest_cons id e es : first_of id (e :: es) = if env_record_id e =? id then Some e else first_of id es.
Proof. done. Qed.

Lemma refuse_quiet {A} w : wp (refuse_restore audit : M W A) (fun r w' =>
  (source w', target w', files w') = (source w, target w, files w) /\ (bk_ready w -> bk_ready w') /\ is_ok r = false) w.
Proof.
  unfold refuse_restore. apply wp_bind. eapply wp_mono; [apply audit_restore_quiet|]. intros [[]|x] w' [E Hr]; [apply wp_raise|];
    (split; [exact E|]; split; [intros Hw; by apply Hr|reflexivity]).
Qed.

(** What a loop leaves that started from [w] with [seen], and its counts *)
Definition restored_to (es : list EncryptedRecordEnvelope) (seen : list uuid) (n k : Z) (w : W) (r : result (Z * Z)) (w' : W) : Prop :=
  source w' = source w /\ files w' = files w /\ extended seen es (target w) (target w') /\
  (forall n' k', r = Ok (n', k') -> n' + k' = n + k + zlen es /\ complete seen es (target w) (target w')).

Lemma restored_failed es seen n k w w' x : (source w', target w', files w') = (source w, target w, files w) ->
  wf (target w) -> restored_to es seen n k w (Raise x) w'.
Proof. intros [= Es Et Ef] Hwf. split; [done|]. split; [done|]. split; [rewrite Et; by apply extended_refl|done]. Qed.

Lemma restore_records_ok es : Forall (fun e => codec_valid e = true) es -> forall seen n k w, wf (target w) ->
  wp (restore_records audit es seen n k) (restored_to es seen n k w) w.
Proof.
  induction 1 as [|e es Hv Hes IH]; intros seen n k w Hwf; cbn [restore_records].
  { apply wp_ret. split; [done|]. split; [done|]. split; [by apply extended_refl|]. intros n' k' [= <- <-].
    split; [unfold zlen; cbn; lia|done]. }
  assert (Hz : zlen (e :: es) = zlen es + 1) by (unfold zlen; cbn; lia).
  case_bool_decide as Hseen.
  { eapply wp_mono; [by apply IH|]. intros r w' (Es&Ef&Hx&Hok). split; [done|]. split; [done|]. split; [by apply extended_skip|].
    intros n' k' Er. destruct (Hok _ _ Er) as [Hn Hc]. split; [lia|]. intros id x Hid. rewrite earliest_cons.
    destruct (Z.eqb_spec (env_record_id e) id) as [<-|]; [done|by apply Hc]. }
  apply wp_bind. apply wp_of_run. intros w1 r Hget. rewrite target_get_law, get_ok in Hget by done. injection Hget as <- <-.
  destruct (visible (target w) (env_record_id e)) as [old|] eqn:Hold.
  - apply wp_bind, wp_lift. destruct (encode_envelope old) as [stored|x] eqn:Eo; [|by apply restored_failed].
    apply wp_bind, wp_lift. destruct (encode_envelope e) as [given|x] eqn:Eg; [|by apply restored_failed].
    destruct (negb (bool_decide (stored = given))) eqn:Eb.
    { eapply wp_mono; [apply refuse_quiet|]. intros [v|v] w' (E&_&Hr); [done|by apply restored_failed]. }
    apply negb_false_iff, bool_decide_eq_true in Eb. subst given.
    eapply wp_mono; [by apply IH|]. intros r w' (Es&Ef&[Hw Hrow Hk Hf]&Hok). split; [done|]. split; [done|]. split.
    + split; [done..|]. intros id x Hx. destruct (Hf id x Hx) as [|[Hs Hfi]]; [by left|]. apply not_elem_of_cons in Hs as [Hne Hs].
      right. split; [done|]. rewrite earliest_cons. destruct (Z.eqb_spec (env_record_id e) id); [congruence|done].
    + intros n' k' Er. destruct (Hok _ _ Er) as [Hn Hc]. split; [lia|]. intros id x Hid. rewrite earliest_cons.
      destruct (Z.eqb_spec (env_record_id e) id) as [<-|Hne].
      * intros [= <-]. rewrite Hold. split; [|by intros e' [= <-]; congruence]. intros Hn0. unfold StorageProps.visible in Hold. by rewrite Hn0 in Hold.
      * apply Hc. apply not_elem_of_cons. split; [by intros ->|done].
  - apply wp_bind, wp_try_except, wp_bind. eapply wp_mono; [apply target_put_law|].
    intros r w1 (Es1&Ef1&fault&Hput&_).
    destruct (wp_run _ _ _ _ _ Hput (put_visible sha256 quota_bytes max_blob_bytes fault e (target w) Hwf Hv)) as (Hw1&Hrow1&Hk1&Hf1&Hok1&Hne1).
    assert (Hx1 : extended seen (e :: es) (target w) (target w1)).
    { split; [done..|]. intros id x Hx. destruct (Hf1 id x Hx) as [|[-> ->]]; [by left|right]. split; [done|].
      by rewrite earliest_cons, Z.eqb_refl. }
    destruct r as [ref|x].
    + apply wp_ret. eapply wp_mono; [by apply IH|]. intros r w' (Es&Ef&[Hw Hrow Hk Hf]&Hok). split; [by rewrite Es|]. split; [by rewrite Ef|]. split.
      * split; [done|auto|auto|]. intros id x Hx. destruct (Hf id x Hx) as [Hx'|[Hs Hfi]]; [by apply Hx1|].
        apply not_elem_of_cons in Hs as [Hne Hs]. right. split; [done|]. rewrite earliest_cons.
        destruct (Z.eqb_spec (env_record_id e) id); [congruence|done].
      * intros n' k' Er. destruct (Hok _ _ Er) as [Hn Hc]. split; [lia|]. intros id x Hid. rewrite earliest_cons.
        destruct (Z.eqb_spec (env_record_id e) id) as [<-|Hne].
        -- intros [= <-]. split; [|by rewrite Hold]. intros Hn0. apply Hk. by apply Hok1.
        -- intros Hfi. destruct (Hc id x) as [Ha Hb]; [apply not_elem_of_cons; split; [by intros ->|done]|done|].
           split; [intros Hn0; apply Ha; rewrite Hne1 by (by intros ->); done|]. intros e' He'. by apply Hb, Hk1.
    + assert (Hstop : forall v w', (source w', target w', files w') = (source w1, target w1, files w1) ->
        restored_to (e :: es) seen n k w (Raise v) w').
      { intros v w' [= Es Et Ef]. split; [by rewrite Es|]. split; [by rewrite Ef|]. split; [by rewrite Et|done]. }
      destruct x; try (by apply wp_raise, Hstop).
      eapply wp_mono; [apply refuse_quiet|]. intros [v|v] w' (E&_&Hr); [done|by apply Hstop].
Qed.

(** *** Files and their encryption *)

Variable crypter : option (BackupCrypter W).
(** [seals b s]: [s] is an encryption of [b].  Decrypting answers what was
    encrypted, or fails. *)
Variable seals : pybytes -> pybytes -> Prop.
Hypothesis seals_one : forall b b' s, seals b s -> seals b' s -> b' = b.
Hypothesis encrypt_law : forall c b w, crypter = Some c -> wp (bc_encrypt c b) (fun r w' =>
  (source w', target w', files w') = (source w, target w, files w) /\ (forall s, r = Ok s -> seals b s) /\ (bk_ready w -> bk_ready w')) w.
Hypothesis decrypt_law : forall c s w, crypter = Some c -> wp (bc_decrypt c s) (fun r w' =>
  (source w', target w', files w') = (source w, target w, files w) /\ (forall b, r = Ok b -> seals b s) /\
  (bk_ready w -> bk_ready w' /\ ((exists b, seals b s) -> is_ok r = true))) w.

(** The archive [restore] reads from the file *)
Definition opens (w : W) (path : pystr) (data : pybytes) : Prop :=
  match crypter with
  | None => files w !! path = Some data
  | Some _ => exists s, files w !! path = Some s /\ seals data s
  end.

Lemma opens_one w path d d' : opens w path d -> opens w path d' -> d' = d.
Proof.
  unfold opens. destruct crypter; [|congruence]. intros (s&Hs&Hd) (s'&Hs'&Hd'). rewrite Hs in Hs'. injection Hs' as <-.
  by eapply seals_one.
Qed.

Lemma unseal_ok path w : wp (unseal_file crypter path) (fun r w' => source w' = source w /\ target w' = target w /\
  (r = Ok tt -> forall d, files w' !! path = Some d -> opens w path d) /\
  (bk_ready w -> bk_ready w' /\ forall d, opens w path d -> r = Ok tt /\ files w' !! path = Some d)) w.
Proof.
  unfold unseal_file, opens. destruct crypter as [c|] eqn:Ec; [|by split].
  apply wp_bind. eapply wp_mono; [apply read_law|]. intros [s|x] w1 ([= Es1 Et1 Ef1]&Hs&Hr).
  2:{ split_and!; [done..|]. intros Hw. destruct (Hr Hw) as [Hw1 Hok]. split; [done|]. intros d (s&Hs'&_). rewrite Hs' in Hok.
      by specialize (Hok ltac:(by eexists)). }
  specialize (Hs s eq_refl). apply wp_bind. eapply wp_mono; [by apply (decrypt_law c)|]. intros [b|x] w2 ([= Es2 Et2 Ef2]&Hb&Hr2).
  2:{ split_and!; [congruence..|done|]. intros Hw. destruct (Hr Hw) as [Hw1 _]. destruct (Hr2 Hw1) as [Hw2 Hok]. split; [done|].
      intros d (s'&Hs'&Hd). rewrite Hs in Hs'. injection Hs' as <-. by specialize (Hok ltac:(by eexists)). }
  specialize (Hb b eq_refl). eapply wp_mono; [apply write_law|]. intros r w3 (Es3&Et3&Hf&Hr3). split_and!; [congruence..| |].
  - intros E d Hd. rewrite (Hf E), lookup_insert_eq in Hd. injection Hd as <-. by exists s.
  - intros Hw. destruct (Hr Hw) as [Hw1 _]. destruct (Hr2 Hw1) as [Hw2 _]. destruct (Hr3 Hw2) as [Hw3 ->]. split; [done|].
    intros d (s'&Hs'&Hd). rewrite Hs in Hs'. injection Hs' as <-. split; [done|]. rewrite (Hf eq_refl), lookup_insert_eq.
    f_equal. by apply (seals_one d b s).
Qed.

Lemma seal_ok path data w : files w !! path = Some data -> wp (seal_file audit crypter path) (fun r w' =>
  source w' = source w /\ target w' = target w /\ (r = Ok tt -> opens w' path data)) w.
Proof.
  intros Hf. unfold seal_file, opens. destruct crypter as [c|] eqn:Ec; [|by split].
  apply wp_bind. eapply wp_mono; [apply read_law|]. intros [b|x] w1 ([= Es1 Et1 Ef1]&Hb&_); [|done].
  specialize (Hb b eq_refl). rewrite Hf in Hb. injection Hb as <-.
  apply wp_bind. eapply wp_mono; [by apply (encrypt_law c)|]. intros [s|x] w2 ([= Es2 Et2 Ef2]&Hs&_); [|split_and!; congruence].
  specialize (Hs s eq_refl). apply wp_bind. case_bool_decide.
  - apply wp_bind. eapply wp_mono; [apply audit_export_quiet|]. intros [[]|x] w3 ([= Es3 Et3 Ef3]&_); [apply wp_raise|]; split_and!; congruence.
  - apply wp_ret. eapply wp_mono; [apply write_law|]. intros r w3 (Es3&Et3&Hw&_). split_and!; [congruence..|].
    intros E. exists s. by rewrite (Hw E), lookup_insert_eq.
Qed.

Local Abbreviation restore := (restore hexdigest audit max_blob_bytes crypter).
Local Abbreviation export := (export hexdigest audit crypter).
Local Abbreviation read := (fun data => read_archive hexdigest data max_blob_bytes (Some CURRENT_STORAGE_SCHEMA_VERSION)).

(** [restore_is_exact]: whatever fails on the way, restoring leaves the
    target well formed, keeps every readable record as it was, and adds none
    but the archive's first record of each id; when it reports success, every
    record of the archive that had no row is readable, the ones that were
    readable are the archive's to the byte, and all are counted. *)
Theorem restore_is_exact path allow_non_empty w : wf (target w) ->
  (forall data a, opens w path data -> read data = Ok a -> Forall (fun e => codec_valid e = true) (ba_envelopes a)) ->
  wp (restore path allow_non_empty) (fun r w' => source w' = source w /\ wf (target w') /\
    (forall id e, visible (target w) id = Some e -> visible (target w') id = Some e) /\
    (forall id e, visible (target w') id = Some e -> visible (target w) id = Some e \/
       exists data a, opens w path data /\ read data = Ok a /\ first_of id (ba_envelopes a) = Some e) /\
    (forall n k, r = Ok (n, k) -> exists data a, opens w path data /\ read data = Ok a /\ n + k = zlen (ba_envelopes a) /\
       complete [] (ba_envelopes a) (target w) (target w'))) w.
Proof.
  intros Hwf Hvalid. unfold Backup.restore.
  assert (Hstop : forall w' x, source w' = source w -> target w' = target w ->
    source w' = source w /\ wf (target w') /\ (forall id e, visible (target w) id = Some e -> visible (target w') id = Some e) /\
    (forall id e, visible (target w') id = Some e -> visible (target w) id = Some e \/
       exists data a, opens w path data /\ read data = Ok a /\ first_of id (ba_envelopes a) = Some e) /\
    (forall n k, (Raise x : result (Z * Z)) = Ok (n, k) -> exists data a, opens w path data /\ read data = Ok a /\
       n + k = zlen (ba_envelopes a) /\ complete [] (ba_envelopes a) (target w) (target w'))).
  { intros w' x Es Et. rewrite Et. split_and!; auto. done. }
  apply wp_bind. eapply wp_mono; [apply unseal_ok|]. intros [[]|x] w1 (Es1&Et1&Hopen&_); [|by apply Hstop].
  specialize (Hopen eq_refl). apply wp_bind, wp_of_run. intros w2 r Hst. rewrite stats_law in Hst. injection Hst as <- <-.
  apply wp_bind, wp_require; intros _; [|by apply Hstop].
  apply wp_bind. eapply wp_mono; [apply read_law|]. intros [data|x] w2 ([= Es2 Et2 Ef2]&Hd&_); [|apply Hstop; congruence].
  specialize (Hopen data (Hd data eq_refl)). apply wp_bind, wp_lift.
  destruct (read_archive hexdigest data max_blob_bytes (Some CURRENT_STORAGE_SCHEMA_VERSION)) as [a|x] eqn:Ea; [|apply Hstop; congruence]. rewrite <- Et1, <- Et2 in Hwf.
  apply wp_bind. eapply wp_mono; [apply restore_records_ok; [by eapply Hvalid|done]|].
  intros r w3 (Es3&Ef3&[Hw Hrow Hk Hf]&Hok). rewrite Et2, Et1 in *.
  assert (Hfrom : forall id e, visible (target w3) id = Some e -> visible (target w) id = Some e \/
       exists data a, opens w path data /\ read data = Ok a /\ first_of id (ba_envelopes a) = Some e).
  { intros id e Hv. destruct (Hf id e Hv) as [|[_ Hfi]]; [by left|right; by exists data, a]. }
  destruct r as [[n k]|x]; [|split_and!; auto; congruence]. destruct (Hok n k eq_refl) as [Hn Hc].
  apply wp_bind. eapply wp_mono; [apply audit_restore_quiet|]. intros [[]|x] w4 ([= Es4 Et4 Ef4]&_).
  - apply wp_ret. rewrite Et4. split_and!; [congruence|auto..|]. intros n' k' [= <- <-]. exists data, a. auto.
  - rewrite Et4. split_and!; [congruence|auto..|done].
Qed.

(** *** Exporting *)

(** The window's days, and bounds that have one *)
Definition outside_window (start end_ : option datetime) (entry : CatalogEntry) : bool :=
  match start with Some s => ce_day_bucket entry <? utc_day s | None => false end ||
  match end_ with Some e => utc_day e <? ce_day_bucket entry | None => false end.
Definition in_calendar (bound : option datetime) : Prop :=
  match bound with Some d => MIN_DAY <= utc_day d <= MAX_DAY | None => True end.

Lemma start_day_in_calendar d : in_calendar (Some d) -> start_day_of d = Ok (utc_day d).
Proof. intros [Hlo%Z.leb_le Hhi%Z.leb_le]. unfold start_day_of, checked_day. by rewrite Hlo, Hhi. Qed.

(** What an export writes: the readable records filed in the window *)
Definition picked (start end_ : option datetime) (s : store) (entries : list CatalogEntry) : list EncryptedRecordEnvelope :=
  omap (fun c => if outside_window start end_ c then None else visible s (ce_record_id c)) entries.
Definition exported (start end_ : option datetime) (s : store) : list EncryptedRecordEnvelope :=
  picked start end_ s (ready_entries s).

Lemma collect_page_ok start end_ entries acc w : in_calendar start -> in_calendar end_ -> wf (source w) ->
  collect_page start end_ entries acc w = (w, Ok (acc ++ picked start end_ (source w) entries)).
Proof.
  intros Hs He Hwf. revert acc. induction entries as [|c entries IH]; intros acc; cbn [collect_page picked omap list_omap].
  { by rewrite app_nil_r. }
  unfold picked in *. cbn [omap list_omap].
  assert (before_window start c = Ok (match start with Some s => ce_day_bucket c <? utc_day s | None => false end)) as ->.
  { destruct start; [|done]. cbn [before_window]. by rewrite start_day_in_calendar, result_bind_ret by done. }
  assert (after_window end_ c = Ok (match end_ with Some e => utc_day e <? ce_day_bucket c | None => false end)) as ->.
  { destruct end_; [|done]. cbn [after_window]. by rewrite start_day_in_calendar, result_bind_ret by done. }
  unfold outside_window. unfold mbind, M_bind at 1, lift. destruct (match start with Some s => _ | None => false end); [apply IH|].
  cbn [orb]. unfold M_bind at 1. destruct (match end_ with Some e => _ | None => false end); [apply IH|].
  unfold M_bind. rewrite source_get_law, get_ok by done. cbn [snd].
  destruct (visible (source w) (ce_record_id c)) as [e|]; rewrite IH; [|done]. by rewrite <- (assoc_L (++)).
Qed.

Lemma collect_envelopes_ok fuel start end_ w : in_calendar start -> in_calendar end_ -> wf (source w) -> (0 < fuel)%nat ->
  zlen (rows_in READY (source w)) <= Z.of_nat fuel * PAGE_LIMIT ->
  collect_envelopes fuel start end_ w = (w, Ok (exported start end_ (source w))).
Proof.
  intros Hs He Hwf Hpos Hfuel. unfold collect_envelopes, exported.
  refine (walk_pages_ok source page_law (collect_page start end_) (picked start end_ (source w)) w fuel 0 None None _ (cursor_start _) Hpos _).
  - intros k n. rewrite collect_page_ok by done. unfold picked. by rewrite <- omap_app, take_take_drop.
  - rewrite drop_0. unfold zlen in *. by rewrite (Permutation_length (ready_entries_perm (source w))), length_fmap.
Qed.

Lemma export_ok fuel path start end_ w : in_calendar start -> in_calendar end_ -> wf (source w) -> (0 < fuel)%nat ->
  zlen (rows_in READY (source w)) <= Z.of_nat fuel * PAGE_LIMIT ->
  wp (export fuel path start end_) (fun r w' => source w' = source w /\ target w' = target w /\
    forall n, r = Ok n -> n = zlen (exported start end_ (source w)) /\ exists created_at data,
      forallb is_scalar created_at = true /\ opens w' path data /\
      archive_bytes hexdigest (exported start end_ (source w)) created_at CURRENT_STORAGE_SCHEMA_VERSION = Ok data) w.
Proof.
  intros Hcs Hce Hwf Hpos Hfuel. unfold Backup.export. apply wp_bind, wp_of_run. intros w1 r Hc. rewrite collect_envelopes_ok in Hc by done.
  injection Hc as <- <-. apply wp_bind. eapply wp_mono; [apply now_law|]. intros [created|x] w1 ([= Es1 Et1 Ef1]&Hs&_); [|done].
  specialize (Hs created eq_refl). apply wp_bind, wp_lift.
  destruct (archive_bytes hexdigest (exported start end_ (source w)) created CURRENT_STORAGE_SCHEMA_VERSION) as [data|x] eqn:Ea; [|done].
  apply wp_bind. eapply wp_mono; [apply write_law|]. intros [[]|x] w2 (Es2&Et2&Hf&_); [|split_and!; congruence].
  assert (files w2 !! path = Some data) as Hd by (by rewrite (Hf eq_refl), lookup_insert_eq).
  apply wp_bind. eapply wp_mono; [by apply seal_ok|]. intros [[]|x] w3 (Es3&Et3&Ho); [|split_and!; congruence].
  specialize (Ho eq_refl). apply wp_bind. eapply wp_mono; [apply audit_export_quiet|].
  intros [[]|x] w4 ([= Es4 Et4 Ef4]&_); [apply wp_ret|split_and!; congruence]. split; [congruence|]. split; [congruence|].
  intros n [= <-]. split; [done|]. exists created, data. split; [done|]. split; [|done]. unfold opens in *. by rewrite Ef4.
Qed.

Lemma visible_id s id e : visible s id = Some e -> env_record_id e = id.
Proof.
  unfold StorageProps.visible, content. destruct (s_records s !! id) as [[md []]|]; try done. unfold decode_row, ok.
  destruct (_ ≫= _) as [e'|] eqn:E; [|done]. intros [= <-]. apply result_bind_ok in E as (blob&_&E).
  apply result_bind_ok in E as (?&_&E). apply result_bind_ok in E as (e1&_&E). apply result_bind_ok in E as (?&Ht&E).
  apply ret_ok in E. subst e1. apply throw_if_ok, bool_decide_eq_false in Ht. apply dec_stable. naive_solver.
Qed.

Lemma picked_spec start end_ s entries e : e ∈ picked start end_ s entries <->
  exists c, c ∈ entries /\ outside_window start end_ c = false /\ ce_record_id c = env_record_id e /\ visible s (env_record_id e) = Some e.
Proof.
  unfold picked. rewrite list_elem_of_omap. split.
  - intros (c&Hc&Hv). destruct (outside_window start end_ c) eqn:Eo; [done|]. pose proof (visible_id _ _ _ Hv) as Hid.
    exists c. split_and!; try done. by rewrite Hid.
  - intros (c&Hc&Ho&Hid&Hv). exists c. split; [done|]. by rewrite Ho, Hid.
Qed.

Lemma picked_ids start end_ s entries : NoDup (ce_record_id <$> entries) -> NoDup (env_record_id <$> picked start end_ s entries).
Proof.
  induction entries as [|c entries IH]; intros Hn; [constructor|]. cbn in Hn. apply NoDup_cons in Hn as [Hc Hn].
  unfold picked in *. cbn [omap list_omap]. destruct (if outside_window start end_ c then None else visible s (ce_record_id c)) as [e|] eqn:E; [|by apply IH].
  cbn. apply NoDup_cons. split; [|by apply IH]. intros (x&Ex&Hx)%list_elem_of_fmap. apply Hc.
  destruct (outside_window start end_ c); [done|]. rewrite <- (visible_id _ _ _ E), Ex.
  apply picked_spec in Hx as (c'&Hc'&_&<-&_). by apply list_elem_of_fmap_2.
Qed.

Lemma exported_ids start end_ s : NoDup (env_record_id <$> exported start end_ s).
Proof.
  apply picked_ids. rewrite (fmap_Permutation _ _ _ (ready_entries_perm s)), <- list_fmap_compose. apply rows_in_keys.
Qed.

(** *** Restoring what is new *)

Definition blob_size (e : EncryptedRecordEnvelope) : Z := match encode_envelope e with Ok b => zlen b | Raise _ => 0 end.

Definition storable (e : EncryptedRecordEnvelope) : Prop :=
  codec_valid e = true /\ exists b, encode_envelope e = Ok b /\ zlen b <= max_blob_bytes.

Lemma restore_new es : Forall storable es -> forall seen n k w, bk_ready w -> wf (target w) -> NoDup (env_record_id <$> es) ->
  (forall e, e ∈ es -> env_record_id e ∉ seen /\ s_records (target w) !! env_record_id e = None /\ s_intents (target w) !! env_record_id e = None) ->
  content_bytes_on_disk (target w) + sum_by blob_size es <= quota_bytes ->
  wp (restore_records audit es seen n k) (fun r w' => r = Ok (n + zlen es, k) /\ bk_ready w') w.
Proof.
  induction 1 as [|e es (Hv&b&Hb&Hbm) Hes IH]; intros seen n k w Hr Hwf Hnd Hnew Hq; cbn [restore_records].
  { apply wp_ret. split; [|done]. change (zlen (@nil EncryptedRecordEnvelope)) with 0. by rewrite Z.add_0_r. }
  cbn [fmap list_fmap] in Hnd. apply NoDup_cons in Hnd as [Hid Hnd]. destruct (Hnew e (list_elem_of_here _ _)) as (Hs&Hrow&Hint).
  rewrite bool_decide_false by done. apply wp_bind, wp_of_run. intros w1 r Hg. rewrite target_get_law, get_ok in Hg by done.
  injection Hg as <- <-. assert (visible (target w) (env_record_id e) = None) as -> by (unfold StorageProps.visible; by rewrite Hrow).
  assert (Hbs : blob_size e = zlen b) by (unfold blob_size; by rewrite Hb). rewrite sum_by_cons, Hbs in Hq.
  assert (0 <= sum_by blob_size es) as Hpos.
  { apply sum_by_nonneg. intros x _. unfold blob_size. destruct (encode_envelope x); [apply zlen_nonneg|done]. }
  apply wp_bind, wp_try_except, wp_bind. eapply wp_mono; [apply target_put_law|]. intros r w1 (_&_&fault&Hput&Hf).
  destruct (Hf Hr) as [-> Hr1].
  destruct (wp_run _ _ _ _ _ Hput (put_visible sha256 quota_bytes max_blob_bytes _ e (target w) Hwf Hv)) as (Hw1&_&_&_&_&Hne1).
  destruct (wp_run _ _ _ _ _ Hput (put_succeeds sha256 quota_bytes max_blob_bytes e b (target w) Hwf Hb Hbm Hrow Hint ltac:(lia))) as (Hok&Hbytes&Hints).
  destruct r as [ref|x]; [|done]. apply wp_ret. eapply wp_mono.
  - apply IH; [done..| |lia]. intros x Hx. destruct (Hnew x (list_elem_of_further _ _ _ Hx)) as (Hxs&Hxr&Hxi).
    assert (env_record_id x <> env_record_id e) as Hxe by (intros E; apply Hid; rewrite <- E; by apply list_elem_of_fmap_2).
    split; [by apply not_elem_of_cons|]. split; [by rewrite Hne1|by rewrite Hints].
  - intros r w2 [-> Hr2]. split; [|done]. do 2 f_equal. unfold zlen. cbn [length]. lia.
Qed.

(** [backup_round_trip]: once an export (its bounds in the calendar) has
    reported success, restoring its file into a storage that has none of its
    records and room for them succeeds, if nothing fails any more: every record is restored, none is
    skipped, and the target then holds what it held and exactly the exported
    records, which are the readable ones filed in the window. *)
Theorem backup_round_trip fuel path start end_ allow_non_empty w w1 n :
  (forall b, forallb is_scalar (hexdigest b) = true) -> in_calendar start -> in_calendar end_ -> wf (source w) -> wf (target w) ->
  (0 < fuel)%nat -> zlen (rows_in READY (source w)) <= Z.of_nat fuel * PAGE_LIMIT ->
  Forall storable (exported start end_ (source w)) ->
  (forall e, e ∈ exported start end_ (source w) ->
     s_records (target w) !! env_record_id e = None /\ s_intents (target w) !! env_record_id e = None) ->
  allow_non_empty || (su_ready_records (stats (target w)) <=? 0) = true ->
  content_bytes_on_disk (target w) + sum_by blob_size (exported start end_ (source w)) <= quota_bytes ->
  export fuel path start end_ w = (w1, Ok n) -> bk_ready w1 ->
  n = zlen (exported start end_ (source w)) /\ exists w2, restore path allow_non_empty w1 = (w2, Ok (n, 0)) /\
    forall id e, visible (target w2) id = Some e <->
      visible (target w) id = Some e \/ e ∈ exported start end_ (source w) /\ id = env_record_id e.
Proof.
  intros Hhex Hcs Hce Hws Hwt Hpos Hfuel Hst Hnew Hallow Hq Hex Hr.
  destruct (wp_run _ _ _ _ _ Hex (export_ok fuel path start end_ w Hcs Hce Hws Hpos Hfuel)) as (Es&Et&Hn).
  destruct (Hn n eq_refl) as (->&created&data&Hc&Hopen&Hbytes). clear Hn. split; [done|].
  set (es := exported start end_ (source w)) in *.
  assert (Hvalid : Forall (fun e => codec_valid e = true) es) by (eapply Forall_impl; [exact Hst|]; by intros e []).
  destruct (archive_reads hexdigest Hhex es created CURRENT_STORAGE_SCHEMA_VERSION max_blob_bytes data) as (m&Hread&_); [|done|done|].
  { eapply Forall_impl; [exact Hst|]. intros e (Hv&b&Hb&Hbm). split; [done|]. intros b' Hb'. congruence. }
  assert (Hwp : wp (restore path allow_non_empty) (fun r w2 => r = Ok (zlen es, 0) /\ forall id e, visible (target w2) id = Some e <->
      visible (target w) id = Some e \/ e ∈ es /\ id = env_record_id e) w1).
  2:{ destruct (restore path allow_non_empty w1) as [w2 r] eqn:E. destruct (wp_run _ _ _ _ _ E Hwp) as [-> Hv]. by exists w2. }
  unfold Backup.restore. apply wp_bind. eapply wp_mono; [apply unseal_ok|]. intros r w2 (Es2&Et2&_&Hr2).
  destruct (Hr2 Hr) as [Hw2 Hd]. destruct (Hd data Hopen) as [-> Hf]. apply wp_bind, wp_of_run. intros w3 r Hs.
  rewrite stats_law in Hs. injection Hs as <- <-. rewrite Et2, Et. apply wp_bind, wp_require; intros Ha.
  2:{ apply orb_true_iff in Hallow as [->|Hz]; [by rewrite andb_false_r in Ha|]. apply Z.leb_le in Hz.
      rewrite (proj2 (Z.ltb_ge _ _) Hz) in Ha. done. }
  apply wp_bind. eapply wp_mono; [apply read_law|]. intros r w3 ([= Es3 Et3 Ef3]&Hb&Hok). destruct (Hok Hw2) as [Hw3 Hisok].
  specialize (Hisok ltac:(by eexists)). destruct r as [data'|x]; [|done]. specialize (Hb data' eq_refl).
  assert (data' = data) as -> by congruence. apply wp_bind, wp_lift. rewrite Hread. cbn [ba_envelopes].
  assert (Et3' : target w3 = target w) by congruence. apply wp_bind.
  eapply wp_mono; [apply wp_conj; [apply (restore_records_ok es Hvalid [] 0 0)|apply (restore_new es Hst [] 0 0); [done|..]]|];
    rewrite ?Et3'; [done|done|apply exported_ids| |done|].
  - intros e He. split; [apply not_elem_of_nil|]. by apply Hnew.
  - intros r w4 [(_&_&[Hw Hrow Hk Hf4]&Hcount) [-> Hw4]]. destruct (Hcount _ _ eq_refl) as [_ Hcomp]. rewrite Et3' in *.
    apply wp_bind. eapply wp_mono; [apply audit_restore_quiet|]. intros r w5 ([= Es5 Et5 Ef5]&Hok5).
    destruct (Hok5 Hw4) as [_ Hok5']. destruct r as [[]|x]; [|done]. apply wp_ret. rewrite Et5. split; [by rewrite Z.add_0_l|].
    assert (Hfirst : forall id e, first_of id es = Some e <-> e ∈ es /\ id = env_record_id e).
    { intros id e. split.
      - intros Hfi. apply List.find_some in Hfi as [Hin Hid]. apply Z.eqb_eq in Hid. split; [by apply list_elem_of_In|done].
      - intros [Hin ->]. pose proof (exported_ids start end_ (source w)) as Hnd. fold es in Hnd. clear -Hin Hnd.
        induction es as [|x es' IH]; [by apply not_elem_of_nil in Hin|]. cbn [fmap list_fmap] in Hnd. apply NoDup_cons in Hnd as [Hx Hnd].
        rewrite earliest_cons. apply elem_of_cons in Hin as [->|Hin]; [by rewrite Z.eqb_refl|].
        destruct (Z.eqb_spec (env_record_id x) (env_record_id e)) as [E|]; [|by apply IH].
        exfalso. apply Hx. rewrite E. by apply list_elem_of_fmap_2. }
    intros id e. split.
    + intros Hv. destruct (Hf4 id e Hv) as [|[_ Hfi]]; [by left|right; by apply Hfirst].
    + intros [Hv|[Hin ->]]; [by apply Hk|]. destruct (Hcomp (env_record_id e) e) as [Hx _]; [apply not_elem_of_nil|by apply Hfirst|].
      apply Hx. by apply Hnew.
Qed.
End World.

(** ** Backups that run *)

(** A digest no two bodies share: signs and decimals *)
Definition toy_digit (z : Z) : pystr := (if z <? 0 then 45 else 43) :: str_of_nonneg (Z.abs z) ++ [44].
Definition toy_digest (b : pybytes) : pystr := mjoin (toy_digit <$> b).

Lemma toy_digest_scalar b : forallb is_scalar (toy_digest b) = true.
Proof.
  apply ascii_scalar. unfold toy_digest. induction b as [|z b IH]; [constructor|]. cbn [fmap list_fmap mjoin list_join].
  apply Forall_app. split; [|exact IH]. unfold toy_digit. constructor; [destruct (z <? 0); lia|]. apply Forall_app.
  split; [|repeat constructor; lia]. pose proof (str_of_int_ascii (Z.abs z)) as Ha. unfold str_of_int in Ha.
  rewrite (proj2 (Z.ltb_ge _ _)) in Ha by lia. exact Ha.
Qed.

Lemma toy_digest_inj b b' : toy_digest b = toy_digest b' -> b = b'.
Proof.
  revert b'. induction b as [|z b IH]; intros [|z' b'] E; [done|done|done|].
  change (toy_digit z ++ toy_digest b = toy_digit z' ++ toy_digest b') in E. unfold toy_digit in E.
  rewrite <- !app_comm_cons, <- !(assoc_L (++)) in E. injection E as Es E.
  destruct (str_of_nonneg_ok (Z.abs z)) as (D1&D2&_); [lia|]. destruct (str_of_nonneg_ok (Z.abs z')) as (D1'&D2'&_); [lia|].
  apply (f_equal span_digits) in E. rewrite !span_digits_all in E by done. injection E as Ed Er.
  assert (Z.abs z = Z.abs z') as Ez by (rewrite <- D2, <- D2', Ed; done).
  assert (z = z') as -> by (destruct (Z.ltb_spec z 0), (Z.ltb_spec z' 0); congruence || lia).
  f_equal. apply IH. exact Er.
Qed.

Record depot := { d_source : store; d_target : store; d_files : gmap pystr pybytes }.
Definition set_target (t : store) (d : depot) : depot := {| d_source := d_source d; d_target := t; d_files := d_files d |}.
Definition set_files (f : gmap pystr pybytes) (d : depot) : depot := {| d_source := d_source d; d_target := d_target d; d_files := f |}.

(** A question asked of a storage *)
Definition asked {A} (view : depot -> store) (m : M store A) : M depot A := fun d => (d, (m (view d)).2).

#[local] Instance depot_source : RetentionStorage depot :=
  {| rs_page_ready d i limit := asked d_source (page_ready d i limit);
     rs_get id := asked d_source (get (fun b => b) 1024 id);
     rs_delete _ _ := raise (External 0);
     rs_recover := raise (External 0) |}.

#[local] Instance depot_ports : BackupPorts depot :=
  {| read_bytes path := d ← gets d_files; match d !! path with Some b => mret b | None => raise (External 1) end;
     write_bytes path b := modify (fun d => set_files (<[path := b]> (d_files d)) d);
     now_text := mret (u "2026-01-01T00:00:00+00:00");
     target_stats := asked d_target (fun s => (s, Ok (stats s)));
     target_get id := asked d_target (get (fun b => b) 1024 id);
     target_put e := zoom d_target set_target (put (fun b => b) 4096 1024 no_fault e) |}.

Lemma depot_page_law d i limit w : rs_page_ready d i limit w = (w, (page_ready d i limit (d_source w)).2).
Proof. done. Qed.
Lemma depot_put_law e w : wp (target_put e) (fun r w' => d_source w' = d_source w /\ d_files w' = d_files w /\
  exists fault, put (fun b => b) 4096 1024 fault e (d_target w) = (d_target w', r) /\
    (True -> fault = (fun _ => false) /\ True)) w.
Proof.
  apply wp_zoom, wp_of_run. intros s r E. split; [done|]. split; [done|]. exists no_fault. split; [exact E|]. split; [reflexivity|exact I].
Qed.
Lemma depot_read_law path w : wp (read_bytes path) (fun r w' =>
  (d_source w', d_target w', d_files w') = (d_source w, d_target w, d_files w) /\
  (forall b, r = Ok b -> d_files w !! path = Some b) /\ (True -> True /\ (is_Some (d_files w !! path) -> is_ok r = true))) w.
Proof.
  apply wp_bind, wp_gets. destruct (d_files w !! path) as [b|] eqn:E; [apply wp_ret|apply wp_raise]; (split; [done|]).
  - split; [by intros b' [= <-]|done].
  - split; [done|]. intros _. split; [done|]. by intros [].
Qed.
#[local] Instance depot_laws : BackupLaws (fun b => b) 4096 1024.
Proof.
  refine {| source := d_source; target := d_target; files := d_files; bk_ready _ := True;
    page_law := depot_page_law; target_put_law := depot_put_law; read_law := depot_read_law |}; try done.
  intros w. apply wp_ret. split; [done|]. split; [|done]. intros t [= <-]. vm_compute. reflexivity.
Defined.

(** An encryption that is a mark in front *)
Definition unmark (s : pybytes) : result pybytes :=
  match s with x :: b => if x =? 7 then Ok b else Raise RestoreFailure | [] => Raise RestoreFailure end.
Definition mark : BackupCrypter depot := {| bc_encrypt b := mret (7 :: b); bc_decrypt s := lift (unmark s) |}.
Definition toy_export := export toy_digest None (Some mark) 1 (u "a.lrb") None None.
Definition toy_restore := restore toy_digest None 1024 (Some mark) (u "a.lrb").
Definition depot_start : depot := {| d_source := toy_s1; d_target := empty_store; d_files := ∅ |}.

(** The exported record, read from the storage restored into *)
Example exported_and_restored :
  (match (toy_export ≫= fun n => toy_restore false ≫= fun c => target_get (toy_id 1) ≫= fun e => mret (n, c, e)) depot_start with
   | (_, r) => r end) = Ok (1, (1, 0), Some (toy_envelope 1)).
Proof. vm_compute. reflexivity. Qed.

Definition marked (b s : pybytes) : Prop := s = 7 :: b.
Lemma marked_one b b' s : marked b s -> marked b' s -> b' = b.
Proof. unfold marked. congruence. Qed.
Lemma mark_encrypts c b w : Some mark = Some c -> wp (bc_encrypt c b) (fun r w' =>
  (d_source w', d_target w', d_files w') = (d_source w, d_target w, d_files w) /\
  (forall s, r = Ok s -> marked b s) /\ (True -> True)) w.
Proof. intros [= <-]. apply wp_ret. split; [done|]. split; [|done]. by intros s [= <-]. Qed.
Lemma mark_decrypts c s w : Some mark = Some c -> wp (bc_decrypt c s) (fun r w' =>
  (d_source w', d_target w', d_files w') = (d_source w, d_target w, d_files w) /\
  (forall b, r = Ok b -> marked b s) /\ (True -> True /\ ((exists b, marked b s) -> is_ok r = true))) w.
Proof.
  intros [= <-]. apply wp_lift. split; [done|]. split; [|intros _; split; [done|by intros (b&->)]].
  intros b. unfold unmark, marked. destruct s as [|x s]; [done|]. destruct (Z.eqb_spec x 7) as [->|]; [|done]. by intros [= <-].
Qed.

(** An archive with two envelopes of one id, the second forged *)
Definition forged (n : Z) : EncryptedRecordEnvelope :=
  {| env_record_id := toy_id n; env_generation := 1; env_configuration_revision := u "rev";
     env_schema_version := 1; env_algorithm := u "aead";
     env_key := {| key_id := u "k"; key_provider_id := u "p"; key_version := 1 |};
     env_plaintext_frame_sizes := [4]; env_wrapped_data_key := [1]; env_nonce := [2];
     env_ciphertext := [99]; env_associated_data_digest := [3];
     env_created_at := {| dt_wall := us_per_day; dt_offset := 0 |} |}.
Definition doubled : pybytes :=
  match archive_bytes toy_digest [toy_envelope 1; forged 1] (u "now") CURRENT_STORAGE_SCHEMA_VERSION with Ok b => b | Raise _ => [] end.
Definition depot_doubled (target : store) : depot :=
  {| d_source := empty_store; d_target := target; d_files := {[ u "a.lrb" := 7 :: doubled ]} |}.
Definition answer {A} (m : M depot A) (d : depot) : result A := (m d).2.

(** The second is counted as skipped and not compared with the first,
    although [docs/backup.md] says that conflicting duplicates fail. *)
Example conflicting_duplicate_is_skipped : answer (toy_restore false) (depot_doubled empty_store) = Ok (1, 1).
Proof. vm_compute. reflexivity. Qed.

(** Restoring writes the decrypted archive over the file, so that restoring
    from it a second time fails. *)
Example restore_replaces_archive :
  answer (_ ← toy_restore false; toy_restore true) (depot_doubled empty_store) = Raise RestoreFailure /\
  d_files (toy_restore false (depot_doubled empty_store)).1 !! u "a.lrb" = Some doubled.
Proof. vm_compute. split; reflexivity. Qed.

(** A record the target holds quarantined is reported restored and stays
    unreadable. *)
Example quarantined_reported_restored :
  answer (c ← toy_restore true; e ← target_get (toy_id 1); mret (c, e)) (depot_doubled toy_corrupted) = Ok (1, 1, None).
Proof. vm_compute. reflexivity. Qed.

(** An archive whose manifest is the number 5 *)
Example scalar_manifest_escapes :
  read_archive toy_digest (BACKUP_MAGIC ++ [1; 0; 1; 0; 0; 0; 0] ++ u "5") 1024 (Some 2) = Raise TypeError.
Proof. vm_compute. reflexivity. Qed.

(** *** Witnesses *)

Local Abbreviation toy_wf := (wf (fun b => b) 1024).
Local Abbreviation toy_visible := (visible (fun b => b) 1024).

Lemma no_audit : forall a : BackupAudit depot, None = Some a -> forall n b,
  quiet (fun b => b) 4096 1024 (au_export a n b) /\ quiet (fun b => b) 4096 1024 (au_restore a n b).
Proof. done. Qed.

Lemma archive_round_trip_witness :
  exists data m, archive_bytes toy_digest [toy_envelope 1] (u "now") 2 = Ok data /\
    read_archive toy_digest data 1024 (Some 2) = Ok {| ba_manifest := m; ba_envelopes := [toy_envelope 1] |} /\
    read_archive toy_digest (data ++ [0]) 1024 (Some 2) = Raise RestoreFailure.
Proof.
  destruct (archive_bytes toy_digest [toy_envelope 1] (u "now") 2) as [data|x] eqn:E; [|vm_compute in E; discriminate E].
  destruct (archive_round_trip toy_digest toy_digest_scalar [toy_envelope 1] (u "now") 2 1024 data toy_digest_inj) as ((m&Hm&_)&_&Hx).
  - constructor; [|constructor]. split; [vm_compute; reflexivity|]. intros b Hb. rewrite toy_encoded in Hb. apply ret_ok in Hb. subst b.
    apply Z.leb_le. vm_compute. reflexivity.
  - vm_compute. reflexivity.
  - exact E.
  - exists data, m. split; [reflexivity|]. split; [exact Hm|]. apply Hx. discriminate.
Defined.

Lemma opens_only (k : pystr) (b data s : pybytes) : ({[k := 7 :: b]} : gmap pystr pybytes) !! k = Some s -> marked data s -> data = b.
Proof. rewrite lookup_singleton_eq. unfold marked. congruence. Qed.

Definition doubled_valid : bool :=
  match read_archive toy_digest doubled 1024 (Some CURRENT_STORAGE_SCHEMA_VERSION) with
  | Ok a => forallb codec_valid (ba_envelopes a)
  | Raise _ => false
  end.

(** Of the two envelopes the first is readable after restoring. *)
Lemma restore_is_exact_witness : exists d, toy_restore false (depot_doubled empty_store) = (d, Ok (1, 1)) /\
  toy_wf (d_target d) /\ toy_visible (d_target d) (toy_id 1) = Some (toy_envelope 1).
Proof.
  assert (Hr : answer (toy_restore false) (depot_doubled empty_store) = Ok (1, 1)) by (vm_compute; reflexivity).
  assert (Hv : toy_visible (d_target (toy_restore false (depot_doubled empty_store)).1) (toy_id 1) = Some (toy_envelope 1)) by (vm_compute; reflexivity).
  assert (Hd : doubled_valid = true) by (vm_compute; reflexivity). unfold doubled_valid in Hd.
  pose proof (restore_is_exact (fun b => b) 4096 1024 toy_digest None no_audit (Some mark) marked marked_one mark_encrypts mark_decrypts
    (u "a.lrb") false (depot_doubled empty_store) (empty_wf _ _)) as H.
  exists (toy_restore false (depot_doubled empty_store)).1. split; [by apply pair_of|]. split; [|exact Hv].
  apply wp_elim in H as (_&Hw&_); [exact Hw|].
  intros data a (s&Hs&Hm) Hread. rewrite (opens_only _ _ _ _ Hs Hm) in Hread. rewrite Hread in Hd.
  apply Forall_forall. intros e He. rewrite List.forallb_forall in Hd. by apply Hd, list_elem_of_In.
Defined.

Lemma depot_exported : exported (fun b => b) 1024 None None toy_s1 = [toy_envelope 1].
Proof. vm_compute. reflexivity. Qed.

Lemma backup_round_trip_witness : exists w1 w2, toy_export depot_start = (w1, Ok 1) /\ toy_restore false w1 = (w2, Ok (1, 0)) /\
  toy_visible (d_target w2) (toy_id 1) = Some (toy_envelope 1).
Proof.
  assert (He : answer toy_export depot_start = Ok 1) by (vm_compute; reflexivity). apply pair_of in He.
  assert (Hs : storable 1024 (toy_envelope 1)).
  { split; [vm_compute; reflexivity|]. exists toy_blob. split; [exact toy_encoded|]. apply Z.leb_le. vm_compute. reflexivity. }
  destruct (backup_round_trip (fun b => b) 4096 1024 toy_digest None no_audit (Some mark) marked marked_one mark_encrypts mark_decrypts
    1 (u "a.lrb") None None false depot_start (toy_export depot_start).1 1 toy_digest_scalar I I toy_s1_wf (empty_wf _ _)) as (_&w2&Hr&Hv).
  - lia.
  - apply Z.leb_le. vm_compute. reflexivity.
  - change (Forall (storable 1024) (exported (fun b => b) 1024 None None toy_s1)). rewrite depot_exported. by constructor.
  - intros e _. split; apply lookup_empty.
  - vm_compute. reflexivity.
  - apply Z.leb_le. vm_compute. reflexivity.
  - exact He.
  - exact I.
  - exists (toy_export depot_start).1, w2. split; [exact He|]. split; [exact Hr|]. apply (Hv (toy_id 1)). right.
    split; [|reflexivity]. change (toy_envelope 1 ∈ exported (fun b => b) 1024 None None toy_s1). rewrite depot_exported. apply list_elem_of_here.
Defined.
